(* ===== verification/_CoqProject ===== *)
-Q . S2P
Prelude.v
Monad.v
ObjHeader.v
Ecc.v
Tags.v
Device.v
TagsCompat.v
Nand.v
Sim.v
BlockInv.v
Checkptrw.v
Stream.v
Blocks.v
Medium.v
Blank.v
Tnode.v
Tree.v
Init.v
Gc.v
Objects.v
File.v
Steps.v
Cache.v
Names.v
Delete.v
Collect.v
Watch.v
Start.v
Headers.v
Lookup.v
Copy.v
Choose.v
Collector.v
DataFile.v
Slots.v
Bytes.v
Files.v
Contents.v
Attributes.v
Checkpoint.v
Restore.v
