(* ===== verification/Prelude.v ===== *)
(** * The flash file system of SqueezeOS

    SqueezeOS is the Linux distribution of the Squeezebox Controller and its relatives.  Its
    repository holds a kernel tree (src/src/s3c2412/linux-2.6.22), board support, build
    recipes and small tools.  What the device keeps, its root file system included, lies on
    raw NAND flash under YAFFS, the file system in fs/yaffs2 of that tree; this development
    models and verifies YAFFS.  File names below are relative to that directory.

    ** The parts of the program

    - The error-correcting code over 256 bytes and over small records: yaffs_ecc.c.  Ecc.v.
    - Chunk tags, the records that say to which chunk of which object a page belongs, and
      their packed forms in the spare area: yaffs_guts.h, yaffs_tagsvalidity.c,
      yaffs_packedtags1.[ch], yaffs_packedtags2.[ch].  Tags.v.
    - The YAFFS1 layer that puts tags, their code and the status bytes into a 16-byte spare
      area: yaffs_tagscompat.c.  TagsCompat.v.
    - Reading, writing, erasing and marking through the driver's function pointers:
      yaffs_nand.c.  Nand.v; Sim.v has a concrete driver for the examples.
    - Block states, the bitmap of chunks in use, the allocation of blocks and pages, writing
      with retries, retiring, deletion: yaffs_guts.c, as all that follows but the checkpoint
      stream.  Device.v (state and primitives), Blocks.v; BlockInv.v has the invariant,
      Medium.v what pages hold, Blank.v which pages are erased.
    - The stream a checkpoint is written to and read from: yaffs_checkptrw.c.  Checkptrw.v;
      Stream.v has the proof that it is read back.
    - What is in a checkpoint, and saving and restoring it: Checkpoint.v; Restore.v has the
      proof that the device's tables are restored.
    - Tnodes (the nodes of the trees that find a file's chunks) with their free list, and
      the trees: Tnode.v, Tree.v.
    - Configuration checks and geometry of a mount: yaffs_GutsInitialise.  Init.v.
    - Objects (files, directories, links), their numbers, hash table and directories:
      Objects.v; the layout of their headers on flash: ObjHeader.v.
    - The chunks of files: finding, reading, writing, putting, soft-deleting and shrinking:
      File.v, which also has the invariant of the whole file system, [fs_ok].
    - The short-operation cache: Cache.v.
    - Names, loading of details, writing of headers, search of directories: Names.v.  Steps.v
      has what operations on objects have in common, Headers.v and Lookup.v the theorems.
    - Making, linking, renaming, unlinking and deleting objects: Delete.v.
    - Attributes for the VFS: Attributes.v.
    - Garbage collection: the choice of a block in Gc.v, collecting it in Collect.v; the
      proofs are in Watch.v (the same collection, stopped where a page in use cannot be copied),
      Start.v (marking and erasing the block), Copy.v (one page), Choose.v (the search leaves
      the flash alone) and Collector.v (a block, the passes, all of it).
    - The bytes of files, read and written through the cache, resizing and flushing:
      DataFile.v; the proofs are in Slots.v (the cache as part of what files contain), Bytes.v
      (parts of chunks and the loops), Files.v (the writers with which they are
      followed when space is out) and Contents.v (bytes and sizes of all files).

    The parts call each other in this order: file operations use cache, trees and headers;
    these allocate and write pages through the block layer; the block layer calls the NAND
    layer, which calls the driver or the YAFFS1 layer.  Garbage collection is started by a
    write of a chunk or a header and calls back into the file layer; it is a parameter
    ([collect]) of both, whose promises are the class [Collector].  The functions of the cache
    take the function that writes a chunk as a parameter ([Writer]), whose promises are the
    class [FileWriter].

    ** State

    [yaffs_Device] is split: what is fixed after the mount is [Config]; [State] has block
    tables, checkpoint stream, counters and the medium; [Tnodes] the tnode store and the
    kernel's memory; [Objects] the object table; [Caches] the cache; [FS] is all of them.
    A C function is a computation in the monad [M] of Monad.v: explicit state, and [None] for
    what C leaves undefined (null and wild pointers, indices out of range) and for loops that
    their fuel cuts off.  Every theorem with [wp] therefore says that none of this happens
    and that the code returns.  Integers are [Z], wrapped where the code's types wrap.
    Pointers are addresses; chains through pointer fields are lists where nothing else can
    see the difference, and real pointer chains for the tnode free list and the trees.

    ** Interfaces

    [NandDriver] is the driver (MTD glue in the repository, not modelled: it calls the
    kernel).  [NandFrame], [NandMedium] and [NandBlank] say what the block layer relies on:
    a call leaves the rest of the state alone; writing changes one page, erasing one block;
    what was erased reads as erased.  They are proved for every driver that satisfies
    [medium_driver] and [blank_driver] and for the concrete driver of Sim.v.  [Kmalloc] is
    the kernel's allocator, which may fail; [KmallocLaws] say that memory it gives out is
    fresh.  [Clock] is the time of day.  [Collector] is the promise of garbage collection: the
    books stay right, no tnode is used up, files keep their data and objects stay.
    [yaffs_CheckGarbageCollection] keeps it in every state in which no deleted object is left
    and the watched collection is not stopped ([can_collect]).  It does not keep it on a full
    device, where it deletes pages it could not copy; so what has to hold there is shown of a
    collection that gives up instead ([careful_gc]), with which every run ends.
    [FileWriter] is the promise of writing a chunk; [yaffs_WriteChunkDataToObject] keeps it
    with any collection that does.

    ** What the theorems show

    - Bytes (Contents.v): reading and writing a file through the cache reads and replaces
      bytes, and no other byte and no other size of any file changes.  When the device runs out
      of pages in the middle of a flush or a copy, YAFFS drops data and goes on.  Two
      exceptions follow.  A page that a collection could not copy is deleted: the runs are
      therefore those with the careful collection ([careful_write]), which always end with
      right books, and the run of the code ([gc_write]) is the same unless a collection comes
      to that point, which is expressed by the run that fails there ([lossless_write]).  A
      cached chunk that could not be written is dropped: what is said of the bytes is said of
      runs in which this does not happen, that is, where the run with a writer that fails
      there ([strict_write]) gets to its end.  [safe_write] fails at both points.
    - Garbage collection (Collector.v) keeps the books, all data and all objects up to the
      first page that could not be copied; it is shown that it comes to such a page only when
      a write that may use the reserve has failed for want of a page ([no_page]).
    - Chunks of files (File.v) are a finite map; writing a chunk inserts, reading gives what
      was written or zeros, no other chunk changes, and all invariants of the device are kept,
      whatever the driver does wrong on the way.
    - Cache (Cache.v, Contents.v): flushing does not change what files contain, and ends.
    - Headers and names: a header that is written says what is in memory; a search of a
      directory finds the first child with the name, if what memory has of the names of loaded
      children agrees with their headers, which a rename sees to; attributes that are set are
      reported, but are lost on an object that is not loaded.
    - Checkpoint stream (Stream.v): a later session reads the bytes that one wrote, from pages
      that are found through their tags, and computes the same sum, on every medium that
      works ([PageStore]) and if the data fits.  When the blocks are used up, it overruns its
      buffer.
    - Checkpoint contents (Restore.v): the block tables and the counters of the device are the
      same after they were dumped, byte by byte while the stream itself changes them, and read.
    - Medium and blocks: writing keeps every chunk in use; deleting a chunk disturbs no
      other; the counts of free chunks agree with the bitmap; allocation finds a block if
      there is one; the collection's choice is the best of those searched.
    - Trees: insertion and look-up are those of a finite map, also when the tree grows;
      pruning keeps the map, but not with wide tnodes, which is shown with an example.
    - Objects: numbers are fresh, objects are found by number until they are freed, the mount
      makes its roots; an object or a tnode is refused exactly when memory is.
    - Codes and tags: every single-bit error is corrected, round trips of the packed forms;
      the block whose page was corrected is marked (Nand.v).
    - Mount: geometry and group sizes fit the tnodes.

    ** Bounds and fuel

    Loops over C arrays are loops over lists of indices, so they need no fuel.  Fuel is used
    where the C loop has another end: writing retries (as many as there are free pages plus
    one, shown enough in [WriteNewChunk_safe]), the search for a number ([number_loop], one
    more than the length of the chain), flushing (one more than the slots), the loops of
    reading and writing a file (one pass more than bytes, two for writing; shown enough in
    [read_loop_run] and [write_loop_run]), the passes of a collection (two, which is all that
    the code makes), bit counting (the width of the word), the
    records of a checkpoint ([read_fuel], one more than the bytes a reader can reach).  Theorems on bytes are for addresses
    below 2^31, as the code's ints are, and within the chunks a file can have.

    ** Not modelled

    Trace output; the verification functions that are off by default; the VFS glue of
    yaffs_fs.c and the MTD glue of yaffs_mtdif*.c (kernel calls); configurations this kernel
    does not use (WinCE, Unicode, case insensitivity).  Of YAFFS itself: scanning at mount
    with shadowed objects, and temporary buffers, which are values here.  Modelled
    without a theorem of their own: deletion, unlinking and linking (Delete.v), resizing
    (DataFile.v), the deletion of files inside a collection, and the objects and tnodes in a
    checkpoint (Checkpoint.v), where a block state that is no state stops the model.  The rest of the repository:
    the vendored kernel, its other drivers, build recipes, and test tools. *)
From Stdlib Require Export ZArith Lia Bool.
From stdpp Require Export prelude list list_numbers numbers gmap.

#[global] Open Scope Z_scope.

(** ** Machine integers *)

(** Unsigned wrap-around at [w] bits, and the widths the code uses. *)
Definition wrap (w z : Z) : Z := z mod 2 ^ w.
Abbreviation u8 := (wrap 8).
Abbreviation u16 := (wrap 16).
Abbreviation u32 := (wrap 32).

(** A signed bit-field of [w] bits holds the value modulo [2^w] read in two's complement. *)
Definition swrap (w z : Z) : Z := (z + 2 ^ (w - 1)) mod 2 ^ w - 2 ^ (w - 1).

Abbreviation i32 := (swrap 32).

(** C's [~x] on an unsigned type of [w] bits. *)
Definition unot (w z : Z) : Z := Z.lxor (wrap w z) (Z.ones w).

(** C truth value of an integer. *)
Definition ztrue (z : Z) : bool := negb (z =? 0).

(** [x & mask] used as a condition. *)
Definition hasbits (x mask : Z) : bool := ztrue (Z.land x mask).

Lemma wrap_range w z : 0 <= w -> 0 <= wrap w z < 2 ^ w.
Proof. intros. apply Z.mod_pos_bound. lia. Qed.

Lemma wrap_small w z : 0 <= z < 2 ^ w -> wrap w z = z.
Proof. apply Z.mod_small. Qed.

Lemma wrap_wrap w z : 0 <= w -> wrap w (wrap w z) = wrap w z.
Proof. intros. apply wrap_small, wrap_range; lia. Qed.

Lemma swrap_small w z : - 2 ^ (w - 1) <= z < 2 ^ (w - 1) -> 1 <= w -> swrap w z = z.
Proof.
  intros Hz Hw. unfold swrap.
  replace (2 ^ w) with (2 * 2 ^ (w - 1)).
  - rewrite Z.mod_small; lia.
  - rewrite <- Z.pow_succ_r by lia. f_equal. lia.
Qed.

Lemma swrap_range w z : 1 <= w -> - 2 ^ (w - 1) <= swrap w z < 2 ^ (w - 1).
Proof.
  intros Hw. unfold swrap.
  assert (Hp : 2 ^ w = 2 * 2 ^ (w - 1))
    by (rewrite <- Z.pow_succ_r by lia; f_equal; lia).
  pose proof (Z.mod_pos_bound (z + 2 ^ (w - 1)) (2 ^ w)). lia.
Qed.

(** ** Ranges and bits *)

Lemma range_ones w z : 0 <= w -> 0 <= z < 2 ^ w <-> Z.land z (Z.ones w) = z.
Proof.
  intros Hw. rewrite Z.land_ones by done. split; intros H.
  - by apply Z.mod_small.
  - rewrite <- H. apply Z.mod_pos_bound. lia.
Qed.

Lemma land_range w a b : 0 <= w -> 0 <= a < 2 ^ w -> 0 <= Z.land a b < 2 ^ w.
Proof.
  intros Hw Ha%range_ones; [|done]. apply range_ones; [done|].
  by rewrite <- Z.land_assoc, (Z.land_comm b), Z.land_assoc, Ha.
Qed.

Lemma lor_range w a b :
  0 <= w -> 0 <= a < 2 ^ w -> 0 <= b < 2 ^ w -> 0 <= Z.lor a b < 2 ^ w.
Proof.
  intros Hw Ha%range_ones Hb%range_ones; try done.
  apply range_ones; [done|]. by rewrite Z.land_lor_distr_l, Ha, Hb.
Qed.

Lemma lxor_range w a b :
  0 <= w -> 0 <= a < 2 ^ w -> 0 <= b < 2 ^ w -> 0 <= Z.lxor a b < 2 ^ w.
Proof.
  intros Hw Ha%range_ones Hb%range_ones; try done.
  apply range_ones; [done|]. rewrite <- Ha, <- Hb at 2.
  apply Z.bits_inj'; intros n _.
  rewrite Z.land_spec, !Z.lxor_spec, !Z.land_spec.
  by destruct (Z.testbit a n), (Z.testbit b n), (Z.testbit (Z.ones w) n).
Qed.

Lemma unot_range w z : 0 <= w -> 0 <= unot w z < 2 ^ w.
Proof.
  intros. apply lxor_range; [done|by apply wrap_range|].
  rewrite Z.ones_equiv. assert (0 < 2 ^ w) by lia. lia.
Qed.

(** The complement cancels in a difference: [~a ^ ~b = a ^ b]. *)
Lemma unot_lxor w a b :
  0 <= w -> Z.lxor (unot w a) (unot w b) = Z.lxor (wrap w a) (wrap w b).
Proof.
  intros. unfold unot. rewrite Z.lxor_assoc, (Z.lxor_comm (Z.ones w)).
  by rewrite (Z.lxor_assoc (wrap w b)), Z.lxor_nilpotent, Z.lxor_0_r.
Qed.

(** A statement about all integers of a small range is checked by running it. *)
Lemma forallb_range (P : Z -> bool) n :
  forallb P (seqZ 0 n) = true -> forall z, 0 <= z < n -> P z = true.
Proof.
  intros H z Hz. rewrite forallb_forall in H. apply H.
  apply list_elem_of_In, elem_of_seqZ. lia.
Qed.

(** ** Arrays indexed by [Z] *)

(** Reading and writing [a[i]]: [None] is an access outside the array. *)
Definition lookupZ {A} (i : Z) (l : list A) : option A :=
  if 0 <=? i then l !! Z.to_nat i else None.
Definition updateZ {A} (i : Z) (x : A) (l : list A) : option (list A) :=
  if (0 <=? i) && (i <? Z.of_nat (length l)) then Some (<[Z.to_nat i := x]> l) else None.

Lemma lookupZ_Some {A} i (l : list A) :
  0 <= i < Z.of_nat (length l) -> exists x, lookupZ i l = Some x.
Proof.
  intros Hi. unfold lookupZ. rewrite (proj2 (Z.leb_le 0 i)) by lia.
  destruct (lookup_lt_is_Some_2 l (Z.to_nat i)) as [x Hx]; [lia|]. by exists x.
Qed.

Lemma lookupZ_Some_inv {A} i (l : list A) x :
  lookupZ i l = Some x -> 0 <= i < Z.of_nat (length l) /\ l !! Z.to_nat i = Some x.
Proof.
  unfold lookupZ. destruct (Z.leb_spec 0 i); [|done].
  intros Hx. split; [|done]. apply lookup_lt_Some in Hx. lia.
Qed.

Lemma updateZ_Some {A} i x (l : list A) :
  0 <= i < Z.of_nat (length l) -> updateZ i x l = Some (<[Z.to_nat i := x]> l).
Proof.
  intros Hi. unfold updateZ.
  by rewrite (proj2 (Z.leb_le 0 i)), (proj2 (Z.ltb_lt _ _)) by lia.
Qed.

(** ** Wrap-around and exclusive or *)

Lemma wrap_land w z : 0 <= w -> wrap w z = Z.land z (Z.ones w).
Proof. intros. unfold wrap. by rewrite Z.land_ones. Qed.

Lemma wrap_lxor w a b : 0 <= w -> wrap w (Z.lxor a b) = Z.lxor (wrap w a) (wrap w b).
Proof.
  intros Hw. rewrite !wrap_land by done. apply Z.bits_inj'; intros n _.
  rewrite Z.land_spec, !Z.lxor_spec, !Z.land_spec.
  by destruct (Z.testbit a n), (Z.testbit b n), (Z.testbit (Z.ones w) n).
Qed.

Lemma wrap_unot w z : 0 <= w -> wrap w (unot w z) = unot w z.
Proof. intros. by apply wrap_small, unot_range. Qed.

(** [a ^ b ^ b] and the like. *)
Lemma lxor_cancel_r a b : Z.lxor (Z.lxor a b) b = a.
Proof. by rewrite Z.lxor_assoc, Z.lxor_nilpotent, Z.lxor_0_r. Qed.

Lemma lxor_shuffle a b c d :
  Z.lxor (Z.lxor a b) (Z.lxor c d) = Z.lxor (Z.lxor a c) (Z.lxor b d).
Proof.
  apply Z.bits_inj'; intros n _. rewrite !Z.lxor_spec.
  by destruct (Z.testbit a n), (Z.testbit b n), (Z.testbit c n), (Z.testbit d n).
Qed.

(** A single-bit mask tests that bit. *)
Lemma hasbits_pow2 x n : 0 <= n -> hasbits x (2 ^ n) = Z.testbit x n.
Proof.
  intros Hn. unfold hasbits, ztrue.
  destruct (Z.testbit x n) eqn:Hb; destruct (Z.eqb_spec (Z.land x (2 ^ n)) 0) as [H0|H0];
    simpl; try done.
  - exfalso. assert (Z.testbit (Z.land x (2 ^ n)) n = true) as Ht.
    { by rewrite Z.land_spec, Hb, Z.pow2_bits_true by done. }
    by rewrite H0, Z.bits_0 in Ht.
  - destruct H0. apply Z.bits_inj'; intros m Hm. rewrite Z.land_spec, Z.bits_0.
    destruct (decide (m = n)) as [->|]; [by rewrite Hb|].
    rewrite Z.pow2_bits_false by done. apply andb_false_r.
Qed.

(** ** Bytes *)

Definition is_byte (b : Z) : Prop := 0 <= b < 256.
Abbreviation bytes := (Forall is_byte).

Lemma bytes_lookup (l : list Z) k b : bytes l -> l !! k = Some b -> is_byte b.
Proof. intros Hl Hk. by eapply Forall_lookup_1 in Hl. Qed.

(** ** Record update

    [r <| f := v |>] and [r <| f ::= g |>].  A record type declares its
    eta-expansion once; the update function of a field is computed from it. *)
Class EtaExpand (R : Type) := eta_expand : R -> R.
Class FieldUpdate {R T : Type} (proj : R -> T) := field_update : (T -> T) -> R -> R.

Ltac build_field_update :=
  lazymatch goal with
  | |- @FieldUpdate ?R ?T ?proj =>
      let eta := constr:(ltac:(typeclasses eauto) : EtaExpand R) in
      let g := fresh "g" in let r := fresh "r" in
      refine (fun (g : T -> T) (r : R) => _);
      let e := eval hnf in (eta r) in
      let e := eval pattern (proj r) in e in
      lazymatch e with
      | ?body _ => let e' := eval cbv beta in (body (g (proj r))) in exact e'
      end
  end.

Notation "r <| f ::= g |>" := (field_update (proj := f) g r)
  (at level 1, left associativity, format "r  <| f  ::=  g |>").
Notation "r <| f := v |>" := (field_update (proj := f) (fun _ => v) r)
  (at level 1, left associativity, format "r  <| f  :=  v |>").

(** ** Little-endian words *)

(** The [n] bytes of [z], least significant first, and back. *)
Fixpoint le_bytes (n : nat) (z : Z) : list Z :=
  match n with
  | O => []
  | S n => u8 z :: le_bytes n (Z.shiftr z 8)
  end.
Fixpoint le_value (l : list Z) : Z :=
  match l with
  | [] => 0
  | b :: l => Z.lor b (Z.shiftl (le_value l) 8)
  end.

Lemma le_bytes_length n z : length (le_bytes n z) = n.
Proof. revert z. induction n; intros; simpl; auto. Qed.

Lemma le_bytes_bytes n z : bytes (le_bytes n z).
Proof.
  revert z. induction n; intros; simpl; constructor; auto. apply (wrap_range 8); lia.
Qed.

Lemma le_value_bytes n z : le_value (le_bytes n z) = wrap (8 * Z.of_nat n) z.
Proof.
  revert z. induction n as [|n IH]; intros z; simpl le_value.
  - symmetry. apply Z.mod_1_r.
  - rewrite IH, !wrap_land by lia. apply Z.bits_inj'; intros i Hi.
    rewrite Z.lor_spec, !Z.land_spec, !Z.testbit_ones by lia.
    destruct (decide (i < 8)).
    + rewrite Z.shiftl_spec_low by done. rewrite orb_false_r.
      f_equal. destruct (Z.leb_spec 0 i), (Z.ltb_spec i 8), (Z.ltb_spec i (8 * Z.of_nat (S n))); simpl; lia.
    + rewrite Z.shiftl_spec, Z.land_spec, Z.shiftr_spec, Z.testbit_ones by lia.
      replace (i - 8 + 8) with i by lia.
      destruct (Z.leb_spec 0 i), (Z.ltb_spec i 8), (Z.ltb_spec i (8 * Z.of_nat (S n))),
        (Z.leb_spec 0 (i - 8)), (Z.ltb_spec (i - 8) (8 * Z.of_nat n)); simpl; try lia;
        by rewrite ?andb_false_r, ?andb_true_r, ?orb_false_l.
Qed.

Lemma le_value_range l : bytes l -> 0 <= le_value l < 2 ^ (8 * Z.of_nat (length l)).
Proof.
  induction 1 as [|b l Hb Hl IH]; simpl le_value; [simpl; lia|].
  simpl length. rewrite Nat2Z.inj_succ.
  replace (8 * Z.succ (Z.of_nat (length l))) with (8 * Z.of_nat (length l) + 8) by lia.
  apply lor_range; [lia|..].
  - unfold is_byte in Hb. rewrite Z.pow_add_r by lia.
    assert (0 < 2 ^ (8 * Z.of_nat (length l))) by lia. change (2 ^ 8) with 256. nia.
  - rewrite Z.shiftl_mul_pow2, Z.pow_add_r by lia. change (2 ^ 8) with 256. lia.
Qed.

Lemma le_bytes_value l : bytes l -> le_bytes (length l) (le_value l) = l.
Proof.
  induction 1 as [|b l Hb Hl IH]; simpl; [done|].
  pose proof (le_value_range l Hl) as Hr. f_equal.
  - rewrite wrap_land by done. apply Z.bits_inj'; intros i Hi.
    rewrite Z.land_spec, Z.lor_spec, Z.testbit_ones by lia.
    destruct (Z.ltb_spec i 8).
    + rewrite Z.shiftl_spec_low by done.
      rewrite (proj2 (Z.leb_le 0 i)) by done. by rewrite orb_false_r, andb_true_r.
    + rewrite andb_false_r. symmetry.
      rewrite <- (proj1 (range_ones 8 b ltac:(lia)) Hb), Z.land_spec, Z.testbit_ones by lia.
      by rewrite (proj2 (Z.ltb_ge i 8)), !andb_false_r by lia.
  - transitivity (le_bytes (length l) (le_value l)); [f_equal|done].
    apply Z.bits_inj'; intros i Hi.
    rewrite Z.shiftr_spec, Z.lor_spec, Z.shiftl_spec by lia.
    replace (i + 8 - 8) with i by lia.
    rewrite <- (proj1 (range_ones 8 b ltac:(lia)) Hb), Z.land_spec, Z.testbit_ones by lia.
    by rewrite (proj2 (Z.ltb_ge (i + 8) 8)), !andb_false_r by lia.
Qed.

(** Bits above the width of a number are clear. *)
Lemma testbit_above w z n : 0 <= w -> 0 <= z < 2 ^ w -> w <= n -> Z.testbit z n = false.
Proof.
  intros Hw Hz Hn. rewrite <- (proj1 (range_ones w z Hw) Hz), Z.land_spec, Z.testbit_ones by done.
  by rewrite (proj2 (Z.ltb_ge n w)), !andb_false_r by lia.
Qed.

Lemma land_ones_small w z : 0 <= w -> 0 <= z < 2 ^ w -> Z.land z (Z.ones w) = z.
Proof. intros Hw. apply range_ones, Hw. Qed.

(** A number below [2^w] above which [k] is placed: both parts can be read back. *)
Lemma field_low w a b : 0 <= w -> 0 <= a < 2 ^ w -> Z.land (Z.lor a (Z.shiftl b w)) (Z.ones w) = a.
Proof.
  intros Hw Ha. rewrite Z.land_lor_distr_l, land_ones_small by done.
  rewrite Z.land_ones, Z.shiftl_mul_pow2, Z_mod_mult by done. apply Z.lor_0_r.
Qed.

Lemma field_high w a b : 0 <= w -> 0 <= a < 2 ^ w -> Z.shiftr (Z.lor a (Z.shiftl b w)) w = b.
Proof.
  intros Hw Ha. rewrite Z.shiftr_lor, Z.shiftr_shiftl_l, Z.sub_diag, Z.shiftl_0_r by lia.
  by rewrite Z.shiftr_div_pow2, Z.div_small by done.
Qed.

(** ** Sums over lists *)

(** The sum of [f] over a list; a count is the sum of an indicator. *)
Definition sumZ {A} (f : A -> Z) (l : list A) : Z := foldr (fun x n => f x + n) 0 l.
Definition ind (b : bool) : Z := if b then 1 else 0.

Lemma ind_range b : 0 <= ind b <= 1.
Proof. destruct b; simpl; lia. Qed.

Lemma sumZ_nil {A} (f : A -> Z) : sumZ f [] = 0.
Proof. done. Qed.
Lemma sumZ_cons {A} (f : A -> Z) x l : sumZ f (x :: l) = f x + sumZ f l.
Proof. done. Qed.
Lemma sumZ_app {A} (f : A -> Z) l1 l2 : sumZ f (l1 ++ l2) = sumZ f l1 + sumZ f l2.
Proof. induction l1 as [|x l1 IH]; simpl; [done|]. rewrite IH. lia. Qed.

Lemma sumZ_ext {A} (f g : A -> Z) l : (forall x, x ∈ l -> f x = g x) -> sumZ f l = sumZ g l.
Proof.
  induction l as [|x l IH]; intros H; [done|]. rewrite !sumZ_cons, H, IH; [done| |];
    [intros y Hy; apply H; by right|by left].
Qed.

(** Replacing one element of a list moves the sum by the difference. *)
Lemma sumZ_insert {A} (f : A -> Z) l i x y :
  l !! i = Some x -> sumZ f (<[i := y]> l) = sumZ f l - f x + f y.
Proof.
  revert i. induction l as [|z l IH]; intros [|i] Hi; simplify_eq/=; [lia|].
  rewrite (IH _ Hi). lia.
Qed.

Lemma sumZ_nonneg {A} (f : A -> Z) l : (forall x, x ∈ l -> 0 <= f x) -> 0 <= sumZ f l.
Proof.
  induction l as [|x l IH]; intros H; [done|]. rewrite sumZ_cons.
  pose proof (H x ltac:(by left)). pose proof (IH ltac:(intros y Hy; apply H; by right)). lia.
Qed.

Lemma sumZ_add {A} (f g : A -> Z) l : sumZ (fun x => f x + g x) l = sumZ f l + sumZ g l.
Proof. induction l as [|x l IH]; [done|]. rewrite !sumZ_cons, IH. lia. Qed.

(** A count that is zero: no element has the property; and one that is positive. *)
Lemma sumZ_pos_elem {A} (p : A -> bool) l :
  0 < sumZ (ind ∘ p) l -> exists i x, l !! i = Some x /\ p x = true.
Proof.
  induction l as [|x l IH]; [simpl; lia|]. rewrite sumZ_cons. intros H.
  destruct (p x) eqn:Hp; [by exists 0%nat, x|]. simpl in H. rewrite Hp in H. simpl in H.
  destruct IH as (i & y & Hi & Hy); [lia|]. by exists (S i), y.
Qed.

Lemma sumZ_lookup_le {A} (f : A -> Z) l i x :
  (forall x, x ∈ l -> 0 <= f x) -> l !! i = Some x -> f x <= sumZ f l.
Proof.
  revert i. induction l as [|z l IH]; intros [|i] Hf Hi; simplify_eq/=.
  - pose proof (sumZ_nonneg f l ltac:(intros; apply Hf; by right)). lia.
  - pose proof (IH i ltac:(intros; apply Hf; by right) Hi). pose proof (Hf z ltac:(by left)). lia.
Qed.

(** Changing a function at one point of a duplicate-free list. *)
Lemma sumZ_update {A} `{EqDecision A} (f g : A -> Z) l x :
  NoDup l -> x ∈ l -> (forall y, y <> x -> f y = g y) -> sumZ f l = sumZ g l - g x + f x.
Proof.
  induction 1 as [|z l Hz Hnd IH]; intros Hx Hfg; [by apply not_elem_of_nil in Hx|].
  rewrite !sumZ_cons. apply elem_of_cons in Hx as [->|Hx].
  - rewrite (sumZ_ext f g); [lia|]. intros y Hy. apply Hfg. by intros ->.
  - rewrite IH by done. rewrite (Hfg z); [lia|]. by intros ->.
Qed.

Lemma sumZ_le {A} (f g : A -> Z) l : (forall x, x ∈ l -> f x <= g x) -> sumZ f l <= sumZ g l.
Proof.
  induction l as [|x l IH]; intros H; [done|]. rewrite !sumZ_cons.
  pose proof (H x ltac:(by left)). pose proof (IH ltac:(intros y Hy; apply H; by right)). lia.
Qed.

(** Comparing sums over two lists of one length, element by element. *)
Lemma sumZ_le_lookup {A B} (f : A -> Z) (g : B -> Z) l l' :
  length l = length l' ->
  (forall i x y, l !! i = Some x -> l' !! i = Some y -> f x <= g y) -> sumZ f l <= sumZ g l'.
Proof.
  revert l'. induction l as [|x l IH]; intros [|y l'] Hl H; try done. rewrite !sumZ_cons.
  pose proof (H 0%nat x y eq_refl eq_refl). simpl in Hl.
  pose proof (IH l' ltac:(lia) (fun i => H (S i))). lia.
Qed.

Lemma sumZ_const {A} (c : Z) (l : list A) : sumZ (fun _ => c) l = c * Z.of_nat (length l).
Proof. induction l as [|x l IH]; [simpl; lia|]. rewrite sumZ_cons, IH. simpl length. lia. Qed.

(** Simplifies [p (r <| f ::= g |>)] in the goal, one selection at a time. *)
Ltac simp_field :=
  match goal with
  | |- context [ ?p (@field_update ?R ?T ?f ?i ?g ?r) ] =>
      first
        [ constr_eq p f;
          progress change (p (@field_update R T f i g r)) with (g (p r))
        | progress change (p (@field_update R T f i g r)) with (p r) ]
  end.
Ltac simp_fields := repeat (simp_field; cbv beta).
Ltac simp_field_in H :=
  match type of H with
  | context [ ?p (@field_update ?R ?T ?f ?i ?g ?r) ] =>
      first
        [ constr_eq p f;
          progress change (p (@field_update R T f i g r)) with (g (p r)) in H
        | progress change (p (@field_update R T f i g r)) with (p r) in H ]
  end.
Ltac simp_fields_in H := repeat (simp_field_in H; cbv beta in H).
