(* ===== verification/Monad.v ===== *)
(** * A state monad with failure

    The C functions become computations over a state.  [None] is undefined
    behaviour or a step the code cannot take: an access outside an array, a
    dereference of a null pointer, a loop cut off by its fuel.  [wp m Q s] says
    that [m] run from [s] does none of this, ends, and ends with [Q]; every
    theorem stated with it is a total correctness theorem. *)
From S2P Require Import Prelude.

Definition M (S A : Type) : Type := S -> option (A * S).

#[export] Instance M_ret {S} : MRet (M S) := fun A a s => Some (a, s).
#[export] Instance M_bind {S} : MBind (M S) := fun A B f m s =>
  match m s with
  | Some (a, s') => f a s'
  | None => None
  end.

Section ops.
Context {S : Type}.

Definition fail {A} : M S A := fun _ => None.
Definition gets {A} (f : S -> A) : M S A := fun s => Some (f s, s).
Definition modify (f : S -> S) : M S unit := fun s => Some (tt, f s).
Definition of_option {A} (o : option A) : M S A := fun s =>
  match o with Some a => Some (a, s) | None => None end.
Definition when (b : bool) (m : M S unit) : M S unit := if b then m else mret tt.

(** [for (i in l) body(i);] *)
Fixpoint for_each {A} (l : list A) (body : A -> M S unit) : M S unit :=
  match l with
  | [] => mret tt
  | x :: l => _ ← body x; for_each l body
  end.

(** A loop whose body can leave with a value ([return] or [break]). *)
Fixpoint for_break {A R} (l : list A) (body : A -> M S (option R)) : M S (option R) :=
  match l with
  | [] => mret None
  | x :: l =>
      r ← body x;
      match r with
      | Some r => mret (Some r)
      | None => for_break l body
      end
  end.

(** A loop that carries local variables. *)
Fixpoint for_acc {A L} (l : list A) (body : A -> L -> M S L) (acc : L) : M S L :=
  match l with
  | [] => mret acc
  | x :: l => acc ← body x acc; for_acc l body acc
  end.

Definition wp {A} (m : M S A) (Q : A -> S -> Prop) (s : S) : Prop :=
  match m s with
  | Some (a, s') => Q a s'
  | None => False
  end.

Lemma wp_mono {A} (m : M S A) (Q Q' : A -> S -> Prop) s :
  wp m Q s -> (forall a s', Q a s' -> Q' a s') -> wp m Q' s.
Proof. unfold wp. destruct (m s) as [[a s']|]; auto. Qed.

Lemma wp_ret {A} (a : A) (Q : A -> S -> Prop) s : Q a s -> wp (mret a) Q s.
Proof. done. Qed.

Lemma wp_bind {A B} (m : M S A) (f : A -> M S B) (Q : B -> S -> Prop) s :
  wp m (fun a s' => wp (f a) Q s') s -> wp (mbind f m) Q s.
Proof. unfold wp, mbind, M_bind. destruct (m s) as [[a s']|]; auto. Qed.

Lemma wp_bind_inv {A B} (m : M S A) (f : A -> M S B) (Q : B -> S -> Prop) s :
  wp (mbind f m) Q s -> wp m (fun a s' => wp (f a) Q s') s.
Proof. unfold wp, mbind, M_bind. destruct (m s) as [[a s']|]; auto. Qed.

Lemma wp_seq {A B} (m : M S A) (f : A -> M S B) P (Q : B -> S -> Prop) s :
  wp m P s -> (forall a s', P a s' -> wp (f a) Q s') -> wp (mbind f m) Q s.
Proof. intros Hm Hf. apply wp_bind. eapply wp_mono; eauto. Qed.

Lemma wp_gets {A} (f : S -> A) (Q : A -> S -> Prop) s : Q (f s) s -> wp (gets f) Q s.
Proof. done. Qed.

Lemma wp_modify (f : S -> S) (Q : unit -> S -> Prop) s : Q tt (f s) -> wp (modify f) Q s.
Proof. done. Qed.

Lemma wp_of_option {A} (o : option A) a (Q : A -> S -> Prop) s :
  o = Some a -> Q a s -> wp (of_option o) Q s.
Proof. by intros ->. Qed.

Lemma wp_when (b : bool) m (Q : unit -> S -> Prop) s :
  (if b then wp m Q s else Q tt s) -> wp (when b m) Q s.
Proof. by destruct b. Qed.

Lemma wp_if {A} (b : bool) (m1 m2 : M S A) (Q : A -> S -> Prop) s :
  (if b then wp m1 Q s else wp m2 Q s) -> wp (if b then m1 else m2) Q s.
Proof. by destruct b. Qed.

(** The state and value that a computation with a [wp] reaches. *)
Lemma wp_run {A} (m : M S A) (Q : A -> S -> Prop) s :
  wp m Q s -> exists a s', m s = Some (a, s') /\ Q a s'.
Proof. unfold wp. destruct (m s) as [[a s']|]; [eauto|done]. Qed.

Lemma wp_of_run {A} (m : M S A) (Q : A -> S -> Prop) s a s' :
  m s = Some (a, s') -> Q a s' -> wp m Q s.
Proof. unfold wp. by intros ->. Qed.

Lemma wp_and {A} (m : M S A) (Q1 Q2 : A -> S -> Prop) s :
  wp m Q1 s -> wp m Q2 s -> wp m (fun a s' => Q1 a s' /\ Q2 a s') s.
Proof. unfold wp. by destruct (m s) as [[a s']|]. Qed.

(** The state a computation ends in (the state it started in if it fails). *)
Definition run_state {A} (m : M S A) (s : S) : S :=
  match m s with Some (_, s') => s' | None => s end.

Lemma run_state_wp {A} (m : M S A) (Q : A -> S -> Prop) (P : S -> Prop) s :
  wp m Q s -> (forall a s', Q a s' -> P s') -> P (run_state m s).
Proof. unfold wp, run_state. destruct (m s) as [[a s']|]; [eauto|done]. Qed.

Lemma run_state_result {A} (m : M S A) (Q : A -> S -> Prop) s a :
  wp m Q s -> fst <$> m s = Some a -> Q a (run_state m s).
Proof. unfold wp, run_state. destruct (m s) as [[b s']|]; [|done]. by intros HQ [= ->]. Qed.

(** Partial correctness: a second post-condition of a computation that a [wp] already
    shows to succeed, as [wp_pc] puts the two together. *)
Definition pc {A} (m : M S A) (Q : A -> S -> Prop) (s : S) : Prop :=
  forall a s', m s = Some (a, s') -> Q a s'.

Lemma wp_pc {A} (m : M S A) (Q1 Q2 : A -> S -> Prop) s :
  wp m Q1 s -> pc m Q2 s -> wp m (fun a s' => Q1 a s' /\ Q2 a s') s.
Proof. unfold wp, pc. destruct (m s) as [[a s']|]; auto. Qed.

Lemma pc_wp {A} (m : M S A) (Q : A -> S -> Prop) s : wp m Q s -> pc m Q s.
Proof. unfold wp, pc. intros H a s' Hm. by rewrite Hm in H. Qed.

Lemma pc_and {A} (m : M S A) (Q1 Q2 : A -> S -> Prop) s :
  pc m Q1 s -> pc m Q2 s -> pc m (fun a s' => Q1 a s' /\ Q2 a s') s.
Proof. unfold pc. auto. Qed.

Lemma pc_mono {A} (m : M S A) (Q Q' : A -> S -> Prop) s :
  pc m Q s -> (forall a s', Q a s' -> Q' a s') -> pc m Q' s.
Proof. unfold pc. auto. Qed.

Lemma pc_ret {A} (a : A) (Q : A -> S -> Prop) s : Q a s -> pc (mret a) Q s.
Proof. by intros H ? ? [= <- <-]. Qed.

Lemma pc_bind {A B} (m : M S A) (f : A -> M S B) (Q : B -> S -> Prop) s :
  pc m (fun a s' => pc (f a) Q s') s -> pc (mbind f m) Q s.
Proof.
  unfold pc, mbind, M_bind. intros H b s'. destruct (m s) as [[a s1]|]; [|done]. by apply H.
Qed.

Lemma pc_seq {A B} (m : M S A) (f : A -> M S B) P (Q : B -> S -> Prop) s :
  pc m P s -> (forall a s', P a s' -> pc (f a) Q s') -> pc (mbind f m) Q s.
Proof. intros Hm Hf. apply pc_bind. eapply pc_mono; eauto. Qed.

Lemma pc_gets {A} (f : S -> A) (Q : A -> S -> Prop) s : Q (f s) s -> pc (gets f) Q s.
Proof. by intros H ? ? [= <- <-]. Qed.

Lemma pc_modify (f : S -> S) (Q : unit -> S -> Prop) s : Q tt (f s) -> pc (modify f) Q s.
Proof. by intros H ? ? [= <- <-]. Qed.

Lemma pc_of_option {A} (o : option A) (Q : A -> S -> Prop) s :
  (forall a, o = Some a -> Q a s) -> pc (of_option o) Q s.
Proof. unfold pc, of_option. intros H a s'. destruct o; [|done]. intros [= <- <-]. auto. Qed.

Lemma pc_when (b : bool) m (Q : unit -> S -> Prop) s :
  (if b then pc m Q s else Q tt s) -> pc (when b m) Q s.
Proof. destruct b; [done|]. apply pc_ret. Qed.

Lemma pc_if {A} (b : bool) (m1 m2 : M S A) (Q : A -> S -> Prop) s :
  (if b then pc m1 Q s else pc m2 Q s) -> pc (if b then m1 else m2) Q s.
Proof. by destruct b. Qed.

Lemma pc_fail {A} (Q : A -> S -> Prop) s : pc fail Q s.
Proof. by intros ? ?. Qed.

Lemma pc_for_each {A} (I : S -> Prop) (body : A -> M S unit) l s :
  I s -> (forall x s', x ∈ l -> I s' -> pc (body x) (fun _ => I) s') ->
  pc (for_each l body) (fun _ => I) s.
Proof.
  revert s. induction l as [|x l IH]; intros s Hs Hb; simpl; [by apply pc_ret|].
  eapply pc_seq; [apply Hb; [by left|done]|]. intros [] s' Hs'. apply IH; [done|].
  intros y s'' Hy. apply Hb. by right.
Qed.

Lemma pc_for_break {A R} (I : S -> Prop) (body : A -> M S (option R)) l s :
  I s -> (forall x s', x ∈ l -> I s' -> pc (body x) (fun _ => I) s') ->
  pc (for_break l body) (fun _ => I) s.
Proof.
  revert s. induction l as [|x l IH]; intros s Hs Hb; simpl; [by apply pc_ret|].
  eapply pc_seq; [apply Hb; [by left|done]|]. intros [r|] s' Hs'; [by apply pc_ret|].
  apply IH; [done|]. intros y s'' Hy. apply Hb. by right.
Qed.

(** A loop invariant indexed by what has been visited. *)
Lemma wp_for_each {A} (I : list A -> S -> Prop) (body : A -> M S unit) l s :
  I [] s ->
  (forall done_ x rest s', l = done_ ++ x :: rest -> I done_ s' ->
    wp (body x) (fun _ => I (done_ ++ [x])) s') ->
  wp (for_each l body) (fun _ => I l) s.
Proof.
  intros H0 Hstep.
  assert (H : forall d r s', l = d ++ r -> I d s' -> wp (for_each r body) (fun _ => I l) s').
  { intros d r. revert d. induction r as [|x r IH]; intros d s' -> Hd; simpl.
    - rewrite app_nil_r in *. by apply wp_ret.
    - eapply wp_seq; [by eapply Hstep|]. intros [] s'' Hs.
      apply (IH (d ++ [x])); [by rewrite <- app_assoc|done]. }
  by apply (H []).
Qed.

Lemma wp_for_acc {A L} (I : list A -> L -> S -> Prop) (body : A -> L -> M S L) l acc s :
  I [] acc s ->
  (forall done_ x rest acc' s', l = done_ ++ x :: rest -> I done_ acc' s' ->
    wp (body x acc') (I (done_ ++ [x])) s') ->
  wp (for_acc l body acc) (I l) s.
Proof.
  intros H0 Hstep.
  assert (H : forall d r acc s', l = d ++ r -> I d acc s' -> wp (for_acc r body acc) (I l) s').
  { intros d r. revert d. induction r as [|x r IH]; intros d acc' s' -> Hd; simpl.
    - rewrite app_nil_r in *. by apply wp_ret.
    - eapply wp_seq; [by eapply Hstep|]. intros acc'' s'' Hs.
      apply (IH (d ++ [x])); [by rewrite <- app_assoc|done]. }
  by apply (H []).
Qed.

(** A breaking loop: [Q (Some r)] must hold where the body leaves, [I] where it goes on. *)
Lemma wp_for_break {A R} (I : list A -> S -> Prop) (Q : option R -> S -> Prop)
    (body : A -> M S (option R)) l s :
  I [] s ->
  (forall done_ x rest s', l = done_ ++ x :: rest -> I done_ s' ->
    wp (body x) (fun r s'' => match r with
      | Some r => Q (Some r) s''
      | None => I (done_ ++ [x]) s''
      end) s') ->
  (forall s', I l s' -> Q None s') ->
  wp (for_break l body) Q s.
Proof.
  intros H0 Hstep Hend.
  assert (H : forall d r s', l = d ++ r -> I d s' -> wp (for_break r body) Q s').
  { intros d r. revert d. induction r as [|x r IH]; intros d s' -> Hd; simpl.
    - rewrite app_nil_r in *. by apply wp_ret, Hend.
    - eapply wp_seq; [by eapply Hstep|]. intros [v|] s'' Hs; [by apply wp_ret|].
      apply (IH (d ++ [x])); [by rewrite <- app_assoc|done]. }
  by apply (H []).
Qed.
End ops.

(** Steps through the basic computations and selects fields. *)
Ltac wp_step :=
  lazymatch goal with
  | |- wp (mbind _ _) _ _ => apply wp_bind
  | |- wp (mret _) _ _ => apply wp_ret
  | |- wp (gets _) _ _ => apply wp_gets
  | |- wp (modify _) _ _ => apply wp_modify
  | |- wp (when _ _) _ _ => apply wp_when
  end.
Ltac wp_steps := repeat (wp_step; cbv beta).
Ltac pc_step :=
  lazymatch goal with
  | |- pc (mbind _ _) _ _ => apply pc_bind
  | |- pc (mret _) _ _ => apply pc_ret
  | |- pc (gets _) _ _ => apply pc_gets
  | |- pc (modify _) _ _ => apply pc_modify
  | |- pc (when _ _) _ _ => apply pc_when
  | |- pc fail _ _ => apply pc_fail
  end.
Ltac pc_steps := repeat (pc_step; cbv beta).
