(* ===== verification/ObjHeader.v ===== *)
(** * Object headers and C strings ([yaffs_guts.h], [yaffs_guts.c], [yportenv.h])

    An object header is the first 512 bytes of a chunk; a field is a range of bytes.  The
    characters of a C string are a list without zeros; a string in memory ends with a zero. *)
From S2P Require Import Prelude.

(** ** Strings in memory *)

(** The string that starts at [m]; [None] when the memory ends before it does. *)
Fixpoint c_str (m : list Z) : option (list Z) :=
  match m with
  | [] => None
  | c :: m => if ztrue c then cons c <$> c_str m else Some []
  end.

(** The characters [strncpy] takes from [m]: up to a zero, [n] at most. *)
Fixpoint strn (n : nat) (m : list Z) : option (list Z) :=
  match n, m with
  | O, _ => Some []
  | S n, [] => None
  | S n, c :: m => if ztrue c then cons c <$> strn n m else Some []
  end.

(** The [n] bytes [strncpy(dst, s, n)] writes. *)
Definition strncpy_bytes (n : nat) (s : list Z) : list Z :=
  take n s ++ replicate (n - length s) 0.

(** [strncmp(a, b, n) == 0] *)
Definition strncmp_eq (n : nat) (a b : list Z) : bool := bool_decide (take n a = take n b).

(** The decimal digits of a number, [fuel] at most; 32 bits have ten. *)
Fixpoint digits (fuel : nat) (n : Z) : list Z :=
  match fuel with
  | O => []
  | S fuel => (if n <? 10 then [] else digits fuel (n / 10)) ++ [48 + n mod 10]
  end.

(** [sprintf("%d")] of an [int]; 45 is the minus sign. *)
Definition print_int (n : Z) : list Z :=
  if n <? 0 then 45 :: digits 10 (- n) else digits 10 n.

(** "lost+found" and "obj". *)
Definition YAFFS_LOSTNFOUND_NAME : list Z := [108; 111; 115; 116; 43; 102; 111; 117; 110; 100].
Definition YAFFS_LOSTNFOUND_PREFIX : list Z := [111; 98; 106].
Definition YAFFS_MAX_NAME_LENGTH : Z := 255.
Definition YAFFS_MAX_ALIAS_LENGTH : Z := 159.
Definition YAFFS_SHORT_NAME_LENGTH : Z := 15.

(** The loop stops at the end of the string and when [i] is 127; 0 stands for [sum]
    with a null pointer. *)
Fixpoint CalcNameSum_loop (bname : list Z) (i sum : Z) : Z :=
  match bname with
  | [] => sum
  | c :: bname =>
      if i <? YAFFS_MAX_NAME_LENGTH / 2
      then CalcNameSum_loop bname (u16 (i + 1)) (u16 (sum + c * i)) else sum
  end.
Definition yaffs_CalcNameSum (name : option (list Z)) : Z :=
  match name with Some name => CalcNameSum_loop name 1 0 | None => 0 end.

(** ** The fields of a header *)

Record Field := MkField { f_off : nat; f_size : nat }.

(** [yaffs_ObjectHeader] *)
Definition oh_type := MkField 0 4.
Definition oh_parentObjectId := MkField 4 4.
Definition oh_name := MkField 10 256.
Definition oh_yst_mode := MkField 268 4.
Definition oh_yst_uid := MkField 272 4.
Definition oh_yst_gid := MkField 276 4.
Definition oh_yst_atime := MkField 280 4.
Definition oh_yst_mtime := MkField 284 4.
Definition oh_yst_ctime := MkField 288 4.
Definition oh_fileSize := MkField 292 4.
Definition oh_equivalentObjectId := MkField 296 4.
Definition oh_alias := MkField 300 160.
Definition oh_yst_rdev := MkField 460 4.
Definition oh_shadowsObject := MkField 504 4.
Definition oh_isShrink := MkField 508 4.

(** The bytes of a field and its value, read and written. *)
Definition get_bytes (f : Field) (oh : list Z) : list Z := take (f_size f) (drop (f_off f) oh).
Definition put_bytes (f : Field) (bs oh : list Z) : list Z := list_inserts (f_off f) bs oh.
Definition get_field (f : Field) (oh : list Z) : Z := le_value (get_bytes f oh).
Definition put_field (f : Field) (v : Z) (oh : list Z) : list Z :=
  put_bytes f (le_bytes (f_size f) v) oh.

(** The cast of a buffer to a header: the buffer must be large enough. *)
Definition as_header (buffer : list Z) : option (list Z) :=
  if Z.of_nat (length buffer) <? 512 then None else Some buffer.

(** ** Lemmas *)

(** The characters of a string: no zeros. *)
Definition chars (s : list Z) : Prop := Forall (fun c => c <> 0) s.

Lemma chars_cons c s : chars (c :: s) <-> c <> 0 /\ chars s.
Proof. unfold chars. by rewrite list.Forall_cons. Qed.

Lemma c_str_chars s m : chars s -> c_str (s ++ 0 :: m) = Some s.
Proof.
  induction s as [|c s IH]; [done|]. intros [Hc Hs]%chars_cons. simpl.
  unfold ztrue. rewrite (proj2 (Z.eqb_neq c 0)) by lia. simpl. by rewrite IH.
Qed.

Lemma c_str_inv m s : c_str m = Some s -> exists m', m = s ++ 0 :: m' /\ Forall (fun c => c <> 0) s.
Proof.
  revert s. induction m as [|c m IH]; intros s; simpl; [done|]. unfold ztrue.
  destruct (Z.eqb_spec c 0) as [->|Hc]; simpl; [intros [= <-]; by exists m|].
  destruct (c_str m) as [s'|] eqn:E; simpl; [|done]. intros [= <-].
  destruct (IH s' eq_refl) as (m' & -> & Hs). exists m'. split; [done|by constructor].
Qed.

Lemma strn_c_str n m s : c_str m = Some s -> strn n m = Some (take n s).
Proof.
  revert n s. induction m as [|c m IH]; intros n s; simpl; [done|].
  destruct n as [|n]; [done|]. destruct (ztrue c) eqn:Hc; simpl.
  - destruct (c_str m) as [s'|] eqn:E; [|done]. intros [= <-]. simpl. by rewrite Hc, (IH n s' eq_refl).
  - intros [= <-]. simpl. by rewrite Hc.
Qed.

Lemma length_strncpy n s : length (strncpy_bytes n s) = n.
Proof. unfold strncpy_bytes. rewrite length_app, length_take, length_replicate. lia. Qed.

(** What [strncpy] wrote, with a zero after it, is the string again. *)
Lemma strncpy_c_str n s : chars s -> c_str (strncpy_bytes n s ++ [0]) = Some (take n s).
Proof.
  intros Hs. unfold strncpy_bytes. rewrite <- app_assoc.
  assert (Ht : chars (take n s)) by by apply Forall_take.
  destruct (n - length s)%nat; by apply c_str_chars.
Qed.

Lemma c_str_app m m' s : c_str m = Some s -> c_str (m ++ m') = Some s.
Proof.
  revert s. induction m as [|c m IH]; intros s; simpl; [done|]. destruct (ztrue c); [|done].
  destruct (c_str m) as [s'|]; [|done]. intros [= <-]. by rewrite (IH s' eq_refl).
Qed.

Lemma c_str_length m s : c_str m = Some s -> (length s < length m)%nat.
Proof. intros (m' & -> & _)%c_str_inv. rewrite length_app. simpl. lia. Qed.

(** Fields that do not overlap. *)
Definition apart (f g : Field) : bool :=
  (f_off f + f_size f <=? f_off g)%nat || (f_off g + f_size g <=? f_off f)%nat.

Lemma length_put_bytes f bs oh : length (put_bytes f bs oh) = length oh.
Proof. apply length_inserts. Qed.

Lemma get_put_same f bs oh :
  length bs = f_size f -> (f_off f + f_size f <= length oh)%nat -> get_bytes f (put_bytes f bs oh) = bs.
Proof.
  intros Hb Hl. unfold get_bytes, put_bytes. apply list_eq_same_length with (n := f_size f); [done| |].
  - rewrite length_take, length_drop, length_inserts. lia.
  - intros i x y Hi Hx Hy. rewrite lookup_take_lt, lookup_drop, list_lookup_inserts in Hx by lia.
    replace (f_off f + i - f_off f)%nat with i in Hx by lia. congruence.
Qed.

Lemma get_put_apart f g bs oh :
  apart f g = true -> length bs = f_size f -> get_bytes g (put_bytes f bs oh) = get_bytes g oh.
Proof.
  intros Ha Hb. unfold get_bytes, put_bytes. apply list_eq. intros i.
  destruct (decide (i < f_size g)%nat) as [Hi|Hi]; [|by rewrite !lookup_take_ge by lia].
  rewrite !lookup_take_lt, !lookup_drop by done.
  unfold apart in Ha. apply orb_prop in Ha as [Ha%Nat.leb_le|Ha%Nat.leb_le].
  - apply list_lookup_inserts_ge. lia.
  - apply list_lookup_inserts_lt. lia.
Qed.

Lemma length_put_field f v oh : length (put_field f v oh) = length oh.
Proof. apply length_put_bytes. Qed.

Lemma get_put_field f v oh :
  (f_off f + f_size f <= length oh)%nat -> get_field f (put_field f v oh) = wrap (8 * Z.of_nat (f_size f)) v.
Proof.
  intros Hl. unfold get_field, put_field. rewrite get_put_same by (by rewrite ?le_bytes_length).
  apply le_value_bytes.
Qed.

Lemma put_field_apart f g v oh : apart f g = true -> get_bytes g (put_field f v oh) = get_bytes g oh.
Proof. intros Ha. apply get_put_apart; [done|]. apply le_bytes_length. Qed.

Lemma get_field_apart f g bs oh :
  apart f g = true -> length bs = f_size f -> get_field g (put_bytes f bs oh) = get_field g oh.
Proof. intros Ha Hb. unfold get_field. by rewrite get_put_apart. Qed.

Lemma put_field_field_apart f g v oh : apart f g = true -> get_field g (put_field f v oh) = get_field g oh.
Proof. intros Ha. unfold get_field. by rewrite put_field_apart. Qed.

Create HintDb header.
#[export] Hint Rewrite length_put_bytes length_put_field : header.
#[export] Hint Rewrite put_field_apart put_field_field_apart using reflexivity : header.
#[export] Hint Rewrite get_put_apart get_field_apart using first [reflexivity | done] : header.

(** ** What the code reads from a header *)

(** The memory from a field to the end of the buffer. *)
Definition from_field (f : Field) (buffer : list Z) : list Z := drop (f_off f) buffer.

(** The header has a name, and an alias if it is that of a symbolic link. *)
Definition name_in (buffer s : list Z) : Prop := c_str (get_bytes oh_name buffer) = Some s.
Definition alias_in (buffer s : list Z) : Prop := c_str (get_bytes oh_alias buffer) = Some s.

Lemma c_str_field f buffer s :
  c_str (get_bytes f buffer) = Some s -> c_str (from_field f buffer) = Some s.
Proof.
  intros H. unfold from_field. rewrite <- (take_drop (f_size f) (drop (f_off f) buffer)). by apply c_str_app.
Qed.
