(* ===== verification/Ecc.v ===== *)
(** * The SmartMedia error-correcting code of [fs/yaffs2/yaffs_ecc.c]

    The 22-bit code over a 256-byte half page ([yaffs_ECCCalculate],
    [yaffs_ECCCorrect]) and the variant over any number of bytes that protects
    the tags ([yaffs_ECCCalculateOther], [yaffs_ECCCorrectOther]).  Bytes are
    integers in [[0, 255]]; the arrays the C code updates in place are returned. *)
From S2P Require Import Prelude.

(** ** Definitions *)

Definition column_parity_table : list Z :=
  [0; 85; 89; 12; 101; 48; 60; 105;
   105; 60; 48; 101; 12; 89; 85; 0;
   149; 192; 204; 153; 240; 165; 169; 252;
   252; 169; 165; 240; 153; 204; 192; 149;
   153; 204; 192; 149; 252; 169; 165; 240;
   240; 165; 169; 252; 149; 192; 204; 153;
   12; 89; 85; 0; 105; 60; 48; 101;
   101; 48; 60; 105; 0; 85; 89; 12;
   165; 240; 252; 169; 192; 149; 153; 204;
   204; 153; 149; 192; 169; 252; 240; 165;
   48; 101; 105; 60; 85; 0; 12; 89;
   89; 12; 0; 85; 60; 105; 101; 48;
   60; 105; 101; 48; 89; 12; 0; 85;
   85; 0; 12; 89; 48; 101; 105; 60;
   169; 252; 240; 165; 204; 153; 149; 192;
   192; 149; 153; 204; 165; 240; 252; 169;
   169; 252; 240; 165; 204; 153; 149; 192;
   192; 149; 153; 204; 165; 240; 252; 169;
   60; 105; 101; 48; 89; 12; 0; 85;
   85; 0; 12; 89; 48; 101; 105; 60;
   48; 101; 105; 60; 85; 0; 12; 89;
   89; 12; 0; 85; 60; 105; 101; 48;
   165; 240; 252; 169; 192; 149; 153; 204;
   204; 153; 149; 192; 169; 252; 240; 165;
   12; 89; 85; 0; 105; 60; 48; 101;
   101; 48; 60; 105; 0; 85; 89; 12;
   153; 204; 192; 149; 252; 169; 165; 240;
   240; 165; 169; 252; 149; 192; 204; 153;
   149; 192; 204; 153; 240; 165; 169; 252;
   252; 169; 165; 240; 153; 204; 192; 149;
   0; 85; 89; 12; 101; 48; 60; 105;
   105; 60; 48; 101; 12; 89; 85; 0].

(** [yaffs_CountBits] and [yaffs_CountBits32]: the loop shifts [x] out; [fuel]
    is the width of the argument ([CountBits_exact] shows it is enough). *)
Fixpoint CountBits_loop (fuel : nat) (x r : Z) : Z :=
  match fuel with
  | O => r
  | S fuel =>
      if x =? 0 then r
      else CountBits_loop fuel (Z.shiftr x 1) (if hasbits x 1 then r + 1 else r)
  end.
Definition yaffs_CountBits (x : Z) : Z := CountBits_loop 8 x 0.
Definition yaffs_CountBits32 (x : Z) : Z := CountBits_loop 32 x 0.

(** The three parities the scanning loops accumulate.  [col_parity] is an
    unsigned char; the line parities are unsigned chars in the 256-byte code and
    32-bit unsigned in the other one, hence the width [w]. *)
Record parities := Parities {
  col_parity : Z;
  line_parity : Z;
  line_parity_prime : Z
}.

Definition parity_byte (b : Z) : Z := nth (Z.to_nat b) column_parity_table 0.

(** One iteration of the loop, for the byte [byte] at index [i]. *)
Definition parity_step (w i byte : Z) (st : parities) : parities :=
  let b := parity_byte byte in
  let c := Z.lxor (col_parity st) b in
  if hasbits b 1 then
    Parities c (wrap w (Z.lxor (line_parity st) i))
      (wrap w (Z.lxor (line_parity_prime st) (unot 32 i)))
  else Parities c (line_parity st) (line_parity_prime st).

Fixpoint parity_loop (w i : Z) (data : list Z) (st : parities) : parities :=
  match data with
  | [] => st
  | byte :: data => parity_loop w (i + 1) data (parity_step w i byte st)
  end.

Definition zero_parities : parities := Parities 0 0 0.

(** [unsigned char ecc[3]]. *)
Record ecc3 := Ecc3 { ecc_0 : Z; ecc_1 : Z; ecc_2 : Z }.

(** [if (c) t |= bit;] *)
Definition or_if (c : bool) (bit t : Z) : Z := if c then Z.lor t bit else t.

(** The value of [t] stored (complemented) in [ecc[1]]: the high nibbles. *)
Definition interleave_hi (lp lpp : Z) : Z :=
  let t := 0 in
  let t := or_if (hasbits lp 128) 128 t in
  let t := or_if (hasbits lpp 128) 64 t in
  let t := or_if (hasbits lp 64) 32 t in
  let t := or_if (hasbits lpp 64) 16 t in
  let t := or_if (hasbits lp 32) 8 t in
  let t := or_if (hasbits lpp 32) 4 t in
  let t := or_if (hasbits lp 16) 2 t in
  or_if (hasbits lpp 16) 1 t.

(** The value of [t] stored (complemented) in [ecc[0]]: the low nibbles. *)
Definition interleave_lo (lp lpp : Z) : Z :=
  let t := 0 in
  let t := or_if (hasbits lp 8) 128 t in
  let t := or_if (hasbits lpp 8) 64 t in
  let t := or_if (hasbits lp 4) 32 t in
  let t := or_if (hasbits lpp 4) 16 t in
  let t := or_if (hasbits lp 2) 8 t in
  let t := or_if (hasbits lpp 2) 4 t in
  let t := or_if (hasbits lp 1) 2 t in
  or_if (hasbits lpp 1) 1 t.

Definition ecc_of_parities (st : parities) : ecc3 :=
  Ecc3 (unot 8 (interleave_lo (line_parity st) (line_parity_prime st)))
       (unot 8 (interleave_hi (line_parity st) (line_parity_prime st)))
       (Z.lor (unot 8 (col_parity st)) 3).

(** [yaffs_ECCCalculate]: reads the first 256 bytes of [data].
    CONFIG_YAFFS_ECC_WRONG_ORDER is not set in the Jive configuration. *)
Definition yaffs_ECCCalculate (data : list Z) : ecc3 :=
  ecc_of_parities (parity_loop 8 0 (take 256 data) zero_parities).

(** The byte and bit number that the single-bit branch of [yaffs_ECCCorrect]
    reads off the deltas. *)
Definition ecc_error_byte (d0 d1 : Z) : Z :=
  let byte := 0 in
  let byte := or_if (hasbits d1 128) 128 byte in
  let byte := or_if (hasbits d1 32) 64 byte in
  let byte := or_if (hasbits d1 8) 32 byte in
  let byte := or_if (hasbits d1 2) 16 byte in
  let byte := or_if (hasbits d0 128) 8 byte in
  let byte := or_if (hasbits d0 32) 4 byte in
  let byte := or_if (hasbits d0 8) 2 byte in
  or_if (hasbits d0 2) 1 byte.

Definition ecc_error_bit (d2 : Z) : Z :=
  let bit := 0 in
  let bit := or_if (hasbits d2 128) 4 bit in
  let bit := or_if (hasbits d2 32) 2 bit in
  or_if (hasbits d2 8) 1 bit.

(** [((d ^ (d >> 1)) & mask) == mask] *)
Definition odd_pairs (d mask : Z) : bool :=
  Z.land (Z.lxor d (Z.shiftr d 1)) mask =? mask.

(** [data[k] ^= (1 << bit)]: flips one bit of one byte. *)
Definition flip_bit (k : nat) (bit : Z) (data : list Z) : list Z :=
  alter (fun b => u8 (Z.lxor b (Z.shiftl 1 bit))) k data.

(** [yaffs_ECCCorrect]: the result code and the two arrays it may modify. *)
Definition yaffs_ECCCorrect (data : list Z) (read_ecc test_ecc : ecc3) : Z * list Z * ecc3 :=
  let d0 := Z.lxor (ecc_0 read_ecc) (ecc_0 test_ecc) in
  let d1 := Z.lxor (ecc_1 read_ecc) (ecc_1 test_ecc) in
  let d2 := Z.lxor (ecc_2 read_ecc) (ecc_2 test_ecc) in
  if Z.lor (Z.lor d0 d1) d2 =? 0 then (0, data, read_ecc)
  else if odd_pairs d0 85 && odd_pairs d1 85 && odd_pairs d2 84 then
    (1, flip_bit (Z.to_nat (ecc_error_byte d0 d1)) (ecc_error_bit d2) data, read_ecc)
  else if yaffs_CountBits d0 + yaffs_CountBits d1 + yaffs_CountBits d2 =? 1 then
    (1, data, test_ecc)
  else (-1, data, read_ecc).

(** [yaffs_ECCOther] *)
Record ECCOther := MkECCOther {
  colParity : Z;
  lineParity : Z;
  lineParityPrime : Z
}.

(** [yaffs_ECCCalculateOther]: reads the first [nBytes] bytes of [data]. *)
Definition yaffs_ECCCalculateOther (data : list Z) (nBytes : Z) : ECCOther :=
  let st := parity_loop 32 0 (take (Z.to_nat nBytes) data) zero_parities in
  MkECCOther (Z.land (Z.shiftr (col_parity st) 2) 63) (line_parity st) (line_parity_prime st).

Definition ecc_other_bit (cDelta : Z) : Z :=
  let bit := 0 in
  let bit := or_if (hasbits cDelta 32) 4 bit in
  let bit := or_if (hasbits cDelta 8) 2 bit in
  or_if (hasbits cDelta 2) 1 bit.

(** [yaffs_ECCCorrectOther] *)
Definition yaffs_ECCCorrectOther (data : list Z) (nBytes : Z) (read_ecc test_ecc : ECCOther)
    : Z * list Z * ECCOther :=
  let cDelta := Z.lxor (colParity read_ecc) (colParity test_ecc) in
  let lDelta := Z.lxor (lineParity read_ecc) (lineParity test_ecc) in
  let lDeltaPrime := Z.lxor (lineParityPrime read_ecc) (lineParityPrime test_ecc) in
  if Z.lor (Z.lor cDelta lDelta) lDeltaPrime =? 0 then (0, data, read_ecc)
  else if (lDelta =? unot 32 lDeltaPrime) && odd_pairs cDelta 21 then
    if nBytes <=? lDelta then (-1, data, read_ecc)
    else (1, flip_bit (Z.to_nat lDelta) (ecc_other_bit cDelta) data, read_ecc)
  else if yaffs_CountBits32 lDelta + yaffs_CountBits32 lDeltaPrime
          + yaffs_CountBits cDelta =? 1 then (1, data, test_ecc)
  else (-1, data, read_ecc).

(** ** Linearity of the scan *)

Definition padd (a b : parities) : parities :=
  Parities (Z.lxor (col_parity a) (col_parity b))
    (Z.lxor (line_parity a) (line_parity b))
    (Z.lxor (line_parity_prime a) (line_parity_prime b)).

Definition wf_parities (w : Z) (st : parities) : Prop :=
  wrap w (line_parity st) = line_parity st /\
  wrap w (line_parity_prime st) = line_parity_prime st.

(** What flipping bit [j] of byte [i] adds to the parities. *)
Definition flip_delta (w i j : Z) : parities :=
  Parities (parity_byte (2 ^ j)) (wrap w i) (wrap w (unot 32 i)).

Lemma zero_parities_wf w : wf_parities w zero_parities.
Proof. unfold wf_parities, wrap. simpl. by rewrite Zmod_0_l. Qed.

Lemma flip_delta_wf w i j : 0 <= w -> wf_parities w (flip_delta w i j).
Proof. intros. split; simpl; by apply wrap_wrap. Qed.

Lemma parity_step_wf w i b st :
  0 <= w -> wf_parities w st -> wf_parities w (parity_step w i b st).
Proof.
  intros Hw [H1 H2]. unfold parity_step. destruct (hasbits _ _); [|by split].
  split; simpl; by apply wrap_wrap.
Qed.

Lemma parity_step_padd w i b st d :
  0 <= w -> wf_parities w d ->
  parity_step w i b (padd st d) = padd (parity_step w i b st) d.
Proof.
  intros Hw [H1 H2]. unfold parity_step, padd. destruct (hasbits _ _); simpl; f_equal;
    rewrite ?wrap_lxor, ?H1, ?H2 by done;
    rewrite !Z.lxor_assoc; f_equal; apply Z.lxor_comm.
Qed.

Lemma parity_loop_padd w i l st d :
  0 <= w -> wf_parities w d ->
  parity_loop w i l (padd st d) = padd (parity_loop w i l st) d.
Proof.
  intros Hw Hd. revert i st. induction l as [|b l IH]; intros i st; simpl; [done|].
  rewrite parity_step_padd by done. apply IH.
Qed.

Lemma parity_loop_wf w i l st :
  0 <= w -> wf_parities w st -> wf_parities w (parity_loop w i l st).
Proof.
  intros Hw. revert i st. induction l as [|b l IH]; intros i st Hst; simpl; [done|].
  apply IH, parity_step_wf; done.
Qed.

Lemma parity_loop_app w i l1 l2 st :
  parity_loop w i (l1 ++ l2) st =
  parity_loop w (i + Z.of_nat (length l1)) l2 (parity_loop w i l1 st).
Proof.
  revert i st. induction l1 as [|b l1 IH]; intros i st; simpl.
  - by rewrite Z.add_0_r.
  - rewrite IH. f_equal. lia.
Qed.

(** The table is linear for single-bit changes, and a single bit is odd. *)
Lemma parity_byte_flip b j :
  0 <= b < 256 -> 0 <= j < 8 ->
  parity_byte (u8 (Z.lxor b (Z.shiftl 1 j))) = Z.lxor (parity_byte b) (parity_byte (2 ^ j)).
Proof.
  intros Hb Hj.
  assert (H : forallb (fun b => forallb (fun j =>
    parity_byte (u8 (Z.lxor b (Z.shiftl 1 j))) =? Z.lxor (parity_byte b) (parity_byte (2 ^ j)))
    (seqZ 0 8)) (seqZ 0 256) = true) by (vm_compute; reflexivity).
  apply forallb_range with (z := b) in H; [|done].
  apply forallb_range with (z := j) in H; [|done]. by apply Z.eqb_eq.
Qed.

Lemma parity_byte_odd j : 0 <= j < 8 -> Z.testbit (parity_byte (2 ^ j)) 0 = true.
Proof.
  intros Hj.
  apply (forallb_range (fun j => Z.testbit (parity_byte (2 ^ j)) 0) 8); [|done].
  vm_compute; reflexivity.
Qed.

Lemma parity_step_flip w i b j st :
  0 <= w -> wf_parities w st -> 0 <= b < 256 -> 0 <= j < 8 ->
  parity_step w i (u8 (Z.lxor b (Z.shiftl 1 j))) st = padd (parity_step w i b st) (flip_delta w i j).
Proof.
  intros Hw [H1 H2] Hb Hj. unfold parity_step.
  rewrite parity_byte_flip by done.
  change 1 with (2 ^ 0) at 1 2. rewrite !hasbits_pow2, Z.lxor_spec, parity_byte_odd by done.
  unfold padd, flip_delta.
  destruct (Z.testbit (parity_byte b) 0); simpl; f_equal;
    rewrite ?wrap_lxor, ?lxor_cancel_r, ?H1, ?H2, <- ?Z.lxor_assoc by done; done.
Qed.

Lemma flip_bit_split k j l b :
  l !! k = Some b ->
  flip_bit k j l = take k l ++ u8 (Z.lxor b (Z.shiftl 1 j)) :: drop (S k) l.
Proof.
  intros Hk. unfold flip_bit.
  assert (k < length l)%nat by (by eapply lookup_lt_Some).
  rewrite <- insert_take_drop by done.
  apply list_eq; intros i. destruct (decide (i = k)) as [->|].
  - rewrite list_lookup_alter_eq, Hk, list_lookup_insert_eq by done. done.
  - by rewrite list_lookup_alter_ne, list_lookup_insert_ne by done.
Qed.

(** Flipping one bit of the data adds [flip_delta] to the parities of the scan. *)
Lemma parity_loop_flip w k j l :
  0 <= w -> bytes l -> (k < length l)%nat -> 0 <= j < 8 ->
  parity_loop w 0 (flip_bit k j l) zero_parities =
  padd (parity_loop w 0 l zero_parities) (flip_delta w (Z.of_nat k) j).
Proof.
  intros Hw Hl Hk Hj. destruct (lookup_lt_is_Some_2 l k Hk) as [b Hb].
  rewrite (flip_bit_split k j l b Hb).
  rewrite <- (take_drop_middle l k b Hb) at 3.
  rewrite !parity_loop_app. simpl. rewrite length_take_le, Z.add_0_l by lia.
  rewrite parity_step_flip.
  - apply parity_loop_padd; [done|by apply flip_delta_wf].
  - done.
  - apply parity_loop_wf; [done|apply zero_parities_wf].
  - by apply (bytes_lookup l k).
  - done.
Qed.

Lemma flip_bit_length k j l : length (flip_bit k j l) = length l.
Proof. apply length_alter. Qed.

Lemma u8_flip_range b j : is_byte (u8 (Z.lxor b j)).
Proof. apply (wrap_range 8); lia. Qed.

Lemma flip_bit_bytes k j l : bytes l -> bytes (flip_bit k j l).
Proof.
  intros Hl. apply Forall_lookup_2. intros i b.
  unfold flip_bit. destruct (decide (i = k)) as [->|].
  - rewrite list_lookup_alter_eq. destruct (l !! k); simpl; [|done].
    intros [= <-]. apply u8_flip_range.
  - rewrite list_lookup_alter_ne by done. by apply bytes_lookup.
Qed.

Lemma flip_bit_involutive k j l :
  bytes l -> 0 <= j < 8 -> flip_bit k j (flip_bit k j l) = l.
Proof.
  intros Hl Hj. unfold flip_bit. apply list_eq; intros i.
  destruct (decide (i = k)) as [->|]; [|by rewrite !list_lookup_alter_ne by done].
  rewrite !list_lookup_alter_eq. destruct (l !! k) as [b|] eqn:Hb; [|done]. simpl. f_equal.
  assert (is_byte b) by (by apply (bytes_lookup l k)).
  rewrite wrap_lxor, wrap_wrap, wrap_lxor by done.
  rewrite lxor_cancel_r. by apply wrap_small.
Qed.

(** ** The code bytes as functions of the parities *)

Lemma or_if_testbit c k t n :
  0 <= k -> 0 <= n -> Z.testbit (or_if c (2 ^ k) t) n = (c && (n =? k)) || Z.testbit t n.
Proof.
  intros Hk Hn. unfold or_if. destruct c; simpl; [|done].
  rewrite Z.lor_spec, orb_comm, Z.pow2_bits_eqb by done. f_equal. apply Z.eqb_sym.
Qed.

(** Eight successive [or_if]s set the bits 7 to 0 to the eight conditions. *)
Definition pack8 (c7 c6 c5 c4 c3 c2 c1 c0 : bool) : Z :=
  or_if c0 1 (or_if c1 2 (or_if c2 4 (or_if c3 8
    (or_if c4 16 (or_if c5 32 (or_if c6 64 (or_if c7 128 0))))))).

Lemma pack8_testbit c7 c6 c5 c4 c3 c2 c1 c0 n :
  0 <= n -> Z.testbit (pack8 c7 c6 c5 c4 c3 c2 c1 c0) n =
  nth (Z.to_nat n) [c0; c1; c2; c3; c4; c5; c6; c7] false.
Proof.
  intros Hn. unfold pack8.
  change 128 with (2 ^ 7). change 64 with (2 ^ 6). change 32 with (2 ^ 5).
  change 16 with (2 ^ 4). change 8 with (2 ^ 3). change 4 with (2 ^ 2).
  change 2 with (2 ^ 1) at 1. change 1 with (2 ^ 0) at 1.
  rewrite !or_if_testbit, Z.bits_0, orb_false_r by lia.
  destruct (decide (n < 8)) as [Hlt|Hge].
  - assert (n = 0 \/ n = 1 \/ n = 2 \/ n = 3 \/ n = 4 \/ n = 5 \/ n = 6 \/ n = 7)
      as [-> | [-> | [-> | [-> | [-> | [-> | [-> | ->]]]]]]] by lia;
      destruct c7, c6, c5, c4, c3, c2, c1, c0; reflexivity.
  - rewrite nth_overflow by (simpl; lia).
    repeat (rewrite (proj2 (Z.eqb_neq n _)) by lia). by rewrite !andb_false_r.
Qed.

Lemma pack8_lxor a7 a6 a5 a4 a3 a2 a1 a0 b7 b6 b5 b4 b3 b2 b1 b0 :
  pack8 (xorb a7 b7) (xorb a6 b6) (xorb a5 b5) (xorb a4 b4)
        (xorb a3 b3) (xorb a2 b2) (xorb a1 b1) (xorb a0 b0) =
  Z.lxor (pack8 a7 a6 a5 a4 a3 a2 a1 a0) (pack8 b7 b6 b5 b4 b3 b2 b1 b0).
Proof.
  apply Z.bits_inj'; intros n Hn. rewrite Z.lxor_spec, !pack8_testbit by done.
  generalize (Z.to_nat n) as m; intros m.
  do 8 (destruct m as [|m]; [reflexivity|]). by destruct m.
Qed.

Lemma pack8_range c7 c6 c5 c4 c3 c2 c1 c0 : is_byte (pack8 c7 c6 c5 c4 c3 c2 c1 c0).
Proof. destruct c7, c6, c5, c4, c3, c2, c1, c0; unfold is_byte; vm_compute; split; congruence. Qed.

Lemma hasbits_lxor_pow2 a b n :
  0 <= n -> hasbits (Z.lxor a b) (2 ^ n) = xorb (hasbits a (2 ^ n)) (hasbits b (2 ^ n)).
Proof. intros. by rewrite !hasbits_pow2, Z.lxor_spec by done. Qed.

Lemma interleave_hi_lxor a b c d :
  interleave_hi (Z.lxor a c) (Z.lxor b d) = Z.lxor (interleave_hi a b) (interleave_hi c d).
Proof.
  etransitivity; [|apply pack8_lxor]. unfold interleave_hi, pack8.
  change 128 with (2 ^ 7); change 64 with (2 ^ 6); change 32 with (2 ^ 5); change 16 with (2 ^ 4).
  by rewrite !hasbits_lxor_pow2 by lia.
Qed.

Lemma interleave_lo_lxor a b c d :
  interleave_lo (Z.lxor a c) (Z.lxor b d) = Z.lxor (interleave_lo a b) (interleave_lo c d).
Proof.
  etransitivity; [|apply pack8_lxor]. unfold interleave_lo, pack8.
  change 8 with (2 ^ 3); change 4 with (2 ^ 2); change 2 with (2 ^ 1); change 1 with (2 ^ 0).
  by rewrite !hasbits_lxor_pow2 by lia.
Qed.

Lemma interleave_hi_range a b : is_byte (interleave_hi a b).
Proof. apply pack8_range. Qed.
Lemma interleave_lo_range a b : is_byte (interleave_lo a b).
Proof. apply pack8_range. Qed.

(** The differences of the code bytes depend on the difference of the parities only. *)
Lemma ecc_delta st d :
  ecc_of_parities (padd st d) = 
  Ecc3 (Z.lxor (ecc_0 (ecc_of_parities st)) (interleave_lo (line_parity d) (line_parity_prime d)))
       (Z.lxor (ecc_1 (ecc_of_parities st)) (interleave_hi (line_parity d) (line_parity_prime d)))
       (Z.lxor (ecc_2 (ecc_of_parities st)) (Z.land (u8 (col_parity d)) 252)).
Proof.
  unfold ecc_of_parities, padd; simpl. rewrite interleave_lo_lxor, interleave_hi_lxor.
  assert (Hn : forall a b, is_byte b -> unot 8 (Z.lxor a b) = Z.lxor (unot 8 a) b).
  { intros a b Hb. unfold unot. rewrite wrap_lxor by done.
    rewrite (wrap_small 8 b) by done. rewrite !Z.lxor_assoc. f_equal. apply Z.lxor_comm. }
  f_equal; [apply Hn, interleave_lo_range|apply Hn, interleave_hi_range|].
  unfold unot. rewrite wrap_lxor by done.
  change 252 with (Z.ldiff 255 3). change (Z.ones 8) with 255.
  apply Z.bits_inj'; intros n Hn'.
  rewrite !Z.lor_spec, !Z.lxor_spec, Z.lor_spec, Z.land_spec, Z.ldiff_spec, !Z.lxor_spec.
  destruct (Z.testbit (wrap 8 (col_parity st)) n); destruct (Z.testbit 255 n) eqn:H255;
    destruct (Z.testbit 3 n); destruct (Z.testbit (u8 (col_parity d)) n) eqn:Hd;
    try reflexivity;
    (assert (Z.testbit (u8 (col_parity d)) n = Z.testbit (Z.land (u8 (col_parity d)) 255) n) as Hd'
      by (f_equal; change 255 with (Z.ones 8); symmetry;
          apply range_ones; [done|apply wrap_range; done]);
     rewrite Hd, Z.land_spec, Hd, H255 in Hd'; discriminate).
Qed.

(** The three deltas [yaffs_ECCCorrect] computes, when the stored code is the one
    of [st] and the recomputed one is that of [padd st d]. *)
Definition ecc_deltas (d : parities) : ecc3 :=
  Ecc3 (interleave_lo (line_parity d) (line_parity_prime d))
       (interleave_hi (line_parity d) (line_parity_prime d))
       (Z.land (u8 (col_parity d)) 252).

(** [yaffs_ECCCorrect] as a function of the deltas. *)
Definition correct_by_deltas (data : list Z) (d : ecc3) (read_ecc test_ecc : ecc3)
    : Z * list Z * ecc3 :=
  if Z.lor (Z.lor (ecc_0 d) (ecc_1 d)) (ecc_2 d) =? 0 then (0, data, read_ecc)
  else if odd_pairs (ecc_0 d) 85 && odd_pairs (ecc_1 d) 85 && odd_pairs (ecc_2 d) 84 then
    (1, flip_bit (Z.to_nat (ecc_error_byte (ecc_0 d) (ecc_1 d))) (ecc_error_bit (ecc_2 d)) data,
     read_ecc)
  else if yaffs_CountBits (ecc_0 d) + yaffs_CountBits (ecc_1 d)
          + yaffs_CountBits (ecc_2 d) =? 1 then (1, data, test_ecc)
  else (-1, data, read_ecc).

Lemma ECCCorrect_padd data st d :
  yaffs_ECCCorrect data (ecc_of_parities st) (ecc_of_parities (padd st d)) =
  correct_by_deltas data (ecc_deltas d) (ecc_of_parities st) (ecc_of_parities (padd st d)).
Proof.
  unfold yaffs_ECCCorrect, correct_by_deltas, ecc_deltas. rewrite ecc_delta; simpl.
  by rewrite <- !Z.lxor_assoc, !Z.lxor_nilpotent, !Z.lxor_0_l.
Qed.

Lemma ECCCalculate_flip k j data :
  bytes data -> length data = 256%nat -> (k < 256)%nat -> 0 <= j < 8 ->
  yaffs_ECCCalculate (flip_bit k j data) =
  ecc_of_parities (padd (parity_loop 8 0 data zero_parities) (flip_delta 8 (Z.of_nat k) j)).
Proof.
  intros Hb Hl Hk Hj. unfold yaffs_ECCCalculate.
  rewrite take_ge by (rewrite flip_bit_length; lia).
  by rewrite parity_loop_flip by (done || lia).
Qed.

Lemma ECCCalculate_full data :
  length data = 256%nat ->
  yaffs_ECCCalculate data = ecc_of_parities (parity_loop 8 0 data zero_parities).
Proof. intros Hl. unfold yaffs_ECCCalculate. by rewrite take_ge by lia. Qed.

(** ** What the code corrects and detects *)

(** The decision of [yaffs_ECCCorrect] on the deltas of one flipped bit. *)
Lemma single_bit_deltas i j :
  0 <= i < 256 -> 0 <= j < 8 ->
  let d := ecc_deltas (flip_delta 8 i j) in
  Z.lor (Z.lor (ecc_0 d) (ecc_1 d)) (ecc_2 d) <> 0 /\
  odd_pairs (ecc_0 d) 85 && odd_pairs (ecc_1 d) 85 && odd_pairs (ecc_2 d) 84 = true /\
  ecc_error_byte (ecc_0 d) (ecc_1 d) = i /\ ecc_error_bit (ecc_2 d) = j.
Proof.
  intros Hi Hj.
  pose (P := fun i j => let d := ecc_deltas (flip_delta 8 i j) in
    negb (Z.lor (Z.lor (ecc_0 d) (ecc_1 d)) (ecc_2 d) =? 0) &&
    (odd_pairs (ecc_0 d) 85 && odd_pairs (ecc_1 d) 85 && odd_pairs (ecc_2 d) 84) &&
    (ecc_error_byte (ecc_0 d) (ecc_1 d) =? i) && (ecc_error_bit (ecc_2 d) =? j)).
  assert (H : forallb (fun i => forallb (P i) (seqZ 0 8)) (seqZ 0 256) = true)
    by (vm_compute; reflexivity).
  apply forallb_range with (z := i) in H; [|done].
  apply forallb_range with (z := j) in H; [|done].
  unfold P in H; cbv zeta in H |- *.
  rewrite !andb_true_iff, negb_true_iff, Z.eqb_neq, !Z.eqb_eq in H. 
  rewrite !andb_true_iff. tauto.
Qed.

Lemma ECCCorrect_single_bit_eq (data : list Z) (k : nat) (j : Z) :
  bytes data -> length data = 256%nat -> (k < 256)%nat -> 0 <= j < 8 ->
  yaffs_ECCCorrect (flip_bit k j data) (yaffs_ECCCalculate data)
    (yaffs_ECCCalculate (flip_bit k j data)) =
  (1, data, yaffs_ECCCalculate data).
Proof.
  intros Hb Hl Hk Hj.
  rewrite ECCCalculate_flip, ECCCalculate_full, ECCCorrect_padd by done.
  destruct (single_bit_deltas (Z.of_nat k) j) as (H0 & Hodd & Hbyte & Hbit); [lia|done|].
  unfold correct_by_deltas. rewrite (proj2 (Z.eqb_neq _ _) H0), Hodd, Hbyte, Hbit, Nat2Z.id.
  by rewrite flip_bit_involutive.
Qed.

(** C30. A single flipped bit in a 256-byte block of data is repaired: given the
    stored code of the original data and the code recomputed from the damaged
    data, [yaffs_ECCCorrect] reports a correction (1), restores the data and
    leaves the stored code alone, wherever the bit is. *)
Theorem ECCCorrect_single_bit (data : list Z) (k : nat) (j : Z)
    (Hb : bytes data) (Hl : length data = 256%nat) (Hk : (k < 256)%nat) (Hj : 0 <= j < 8) :
  yaffs_ECCCorrect (flip_bit k j data) (yaffs_ECCCalculate data)
    (yaffs_ECCCalculate (flip_bit k j data)) =
  (1, data, yaffs_ECCCalculate data).
Proof. by apply ECCCorrect_single_bit_eq. Qed.

Definition sample_data : list Z := map (fun i => (i * 37 + 11) mod 256) (seqZ 0 256).

Lemma sample_data_bytes : bytes sample_data.
Proof. apply Forall_forall. intros x (i & -> & _)%list_elem_of_fmap. apply Z.mod_pos_bound; lia. Qed.

Lemma ECCCorrect_single_bit_witness :
  yaffs_ECCCorrect (flip_bit 200 5 sample_data) (yaffs_ECCCalculate sample_data)
    (yaffs_ECCCalculate (flip_bit 200 5 sample_data)) =
  (1, sample_data, yaffs_ECCCalculate sample_data).
Proof.
  apply (ECCCorrect_single_bit sample_data 200 5);
    [exact sample_data_bytes|reflexivity|lia|lia].
Defined.

(** Two flips add up. *)
Lemma padd_assoc a b c : padd (padd a b) c = padd a (padd b c).
Proof. unfold padd; simpl. by rewrite !Z.lxor_assoc. Qed.

Lemma unot32_u8 k : 0 <= k < 256 -> u8 (unot 32 k) = unot 8 k.
Proof.
  intros Hk. apply Z.eqb_eq.
  apply (forallb_range (fun k => u8 (unot 32 k) =? unot 8 k) 256); [|done].
  vm_compute; reflexivity.
Qed.

(** The parities two flipped bits add: both line deltas are the same number. *)
Lemma double_flip_delta k1 k2 j1 j2 :
  0 <= k1 < 256 -> 0 <= k2 < 256 ->
  padd (flip_delta 8 k1 j1) (flip_delta 8 k2 j2) =
  Parities (Z.lxor (parity_byte (2 ^ j1)) (parity_byte (2 ^ j2))) (Z.lxor k1 k2) (Z.lxor k1 k2).
Proof.
  intros H1 H2. unfold padd, flip_delta; simpl.
  rewrite !unot32_u8, unot_lxor, !(wrap_small 8) by done. done.
Qed.

Lemma double_bit_deltas x j1 j2 :
  0 <= x < 256 -> 0 <= j1 < 8 -> 0 <= j2 < 8 -> x <> 0 \/ j1 <> j2 ->
  let d := ecc_deltas (Parities (Z.lxor (parity_byte (2 ^ j1)) (parity_byte (2 ^ j2))) x x) in
  Z.lor (Z.lor (ecc_0 d) (ecc_1 d)) (ecc_2 d) <> 0 /\
  odd_pairs (ecc_0 d) 85 && odd_pairs (ecc_1 d) 85 && odd_pairs (ecc_2 d) 84 = false /\
  yaffs_CountBits (ecc_0 d) + yaffs_CountBits (ecc_1 d) + yaffs_CountBits (ecc_2 d) <> 1.
Proof.
  intros Hx H1 H2 Hne.
  pose (P := fun j1 j2 x =>
    let d := ecc_deltas (Parities (Z.lxor (parity_byte (2 ^ j1)) (parity_byte (2 ^ j2))) x x) in
    ((x =? 0) && (j1 =? j2)) ||
    (negb (Z.lor (Z.lor (ecc_0 d) (ecc_1 d)) (ecc_2 d) =? 0) &&
     negb (odd_pairs (ecc_0 d) 85 && odd_pairs (ecc_1 d) 85 && odd_pairs (ecc_2 d) 84) &&
     negb (yaffs_CountBits (ecc_0 d) + yaffs_CountBits (ecc_1 d) + yaffs_CountBits (ecc_2 d) =? 1))).
  assert (H : forallb (fun j1 => forallb (fun j2 => forallb (P j1 j2) (seqZ 0 256)) (seqZ 0 8))
    (seqZ 0 8) = true) by (vm_compute; reflexivity).
  apply forallb_range with (z := j1) in H; [|done].
  apply forallb_range with (z := j2) in H; [|done].
  apply forallb_range with (z := x) in H; [|done].
  unfold P in H; cbv zeta in H |- *.
  rewrite orb_true_iff, !andb_true_iff, !negb_true_iff, !Z.eqb_neq, !Z.eqb_eq in H.
  destruct H as [[? ?]|[[? ?] ?]]; [lia|tauto].
Qed.

(** C31. Two flipped bits in a 256-byte block are always reported as unrecoverable:
    [yaffs_ECCCorrect] returns -1 and touches neither the data nor the code. *)
Theorem ECCCorrect_double_bit (data : list Z) (k1 k2 : nat) (j1 j2 : Z)
    (Hb : bytes data) (Hl : length data = 256%nat) (Hk1 : (k1 < 256)%nat) (Hk2 : (k2 < 256)%nat)
    (Hj1 : 0 <= j1 < 8) (Hj2 : 0 <= j2 < 8) (Hne : k1 <> k2 \/ j1 <> j2) :
  let bad := flip_bit k2 j2 (flip_bit k1 j1 data) in
  yaffs_ECCCorrect bad (yaffs_ECCCalculate data) (yaffs_ECCCalculate bad) =
  (-1, bad, yaffs_ECCCalculate data).
Proof.
  intros bad. unfold bad.
  rewrite (ECCCalculate_flip k2 j2) by (rewrite ?flip_bit_length; auto using flip_bit_bytes).
  rewrite (parity_loop_flip 8 k1 j1), padd_assoc by (done || lia).
  rewrite ECCCalculate_full, ECCCorrect_padd, double_flip_delta by (done || lia).
  destruct (double_bit_deltas (Z.lxor (Z.of_nat k1) (Z.of_nat k2)) j1 j2)
    as (H0 & Hodd & Hcount); try done.
  { apply (lxor_range 8); lia. }
  { destruct Hne; [left|by right]. rewrite Z.lxor_eq_0_iff. lia. }
  unfold correct_by_deltas.
  by rewrite (proj2 (Z.eqb_neq _ _) H0), Hodd, (proj2 (Z.eqb_neq _ _) Hcount).
Qed.

Lemma ECCCorrect_double_bit_witness :
  let bad := flip_bit 200 1 (flip_bit 7 1 sample_data) in
  yaffs_ECCCorrect bad (yaffs_ECCCalculate sample_data) (yaffs_ECCCalculate bad) =
  (-1, bad, yaffs_ECCCalculate sample_data).
Proof.
  apply (ECCCorrect_double_bit sample_data 7 200 1 1);
    [exact sample_data_bytes|reflexivity|lia|lia|lia|lia|left; lia].
Defined.

(** ** The code over any number of bytes *)

Lemma other_delta st d :
  let f st := Z.land (Z.shiftr (col_parity st) 2) 63 in
  f (padd st d) = Z.lxor (f st) (f d).
Proof.
  simpl. rewrite Z.shiftr_lxor. change 63 with (Z.ones 6).
  rewrite <- !wrap_land by done. by apply wrap_lxor.
Qed.

Lemma other_column_delta j :
  0 <= j < 8 ->
  let c := Z.land (Z.shiftr (parity_byte (2 ^ j)) 2) 63 in
  odd_pairs c 21 = true /\ ecc_other_bit c = j /\ c <> 0.
Proof.
  intros Hj. cbv zeta.
  pose (P := fun j => let c := Z.land (Z.shiftr (parity_byte (2 ^ j)) 2) 63 in
    odd_pairs c 21 && (ecc_other_bit c =? j) && negb (c =? 0)).
  assert (H : forallb P (seqZ 0 8) = true) by (vm_compute; reflexivity).
  apply forallb_range with (z := j) in H; [|done]. unfold P in H; cbv zeta in H.
  rewrite !andb_true_iff, negb_true_iff, Z.eqb_neq, Z.eqb_eq in H. tauto.
Qed.

Lemma unot_involutive w z : 0 <= w -> unot w (unot w z) = wrap w z.
Proof.
  intros. unfold unot at 1. rewrite wrap_unot by done. unfold unot. apply lxor_cancel_r.
Qed.

Lemma ECCCorrectOther_single_bit_eq (data : list Z) (k : nat) (j n : Z)
    (Hb : bytes data) (Hlen : Z.of_nat (length data) = n) (Hk : (k < length data)%nat)
    (Hj : 0 <= j < 8) (Hn : n <= 2 ^ 32) :
  yaffs_ECCCorrectOther (flip_bit k j data) n (yaffs_ECCCalculateOther data n)
    (yaffs_ECCCalculateOther (flip_bit k j data) n) =
  (1, data, yaffs_ECCCalculateOther data n).
Proof.
  subst n. unfold yaffs_ECCCalculateOther.
  rewrite !Nat2Z.id, !take_ge by (rewrite ?flip_bit_length; lia).
  rewrite parity_loop_flip by (done || lia). unfold yaffs_ECCCorrectOther.
  cbn [colParity lineParity lineParityPrime].
  rewrite other_delta, <- Z.lxor_assoc, Z.lxor_nilpotent, Z.lxor_0_l.
  unfold padd, flip_delta; cbn [line_parity line_parity_prime col_parity].
  rewrite <- !Z.lxor_assoc, !Z.lxor_nilpotent, !Z.lxor_0_l.
  destruct (other_column_delta j Hj) as (Hodd & Hbit & Hc).
  rewrite wrap_unot, unot_involutive, Z.eqb_refl, Hodd, Hbit by done.
  rewrite (proj2 (Z.eqb_neq (Z.lor _ _) 0)) by (rewrite !Z.lor_eq_0_iff; tauto).
  rewrite (wrap_small 32) by lia. simpl.
  destruct (Z.leb_spec (Z.of_nat (length data)) (Z.of_nat k)); [lia|].
  by rewrite Nat2Z.id, flip_bit_involutive.
Qed.

(** C32. The code over [n] bytes repairs any single flipped bit of the data, for any
    length that fits the 32-bit index: result 1, data restored, code untouched. *)
Theorem ECCCorrectOther_single_bit (data : list Z) (k : nat) (j : Z)
    (Hb : bytes data) (Hk : (k < length data)%nat) (Hj : 0 <= j < 8)
    (Hn : Z.of_nat (length data) <= 2 ^ 32) :
  let n := Z.of_nat (length data) in
  yaffs_ECCCorrectOther (flip_bit k j data) n (yaffs_ECCCalculateOther data n)
    (yaffs_ECCCalculateOther (flip_bit k j data) n) =
  (1, data, yaffs_ECCCalculateOther data n).
Proof. by apply ECCCorrectOther_single_bit_eq. Qed.

Lemma ECCCorrectOther_single_bit_witness :
  let n := Z.of_nat (length (take 16 sample_data)) in
  yaffs_ECCCorrectOther (flip_bit 9 7 (take 16 sample_data)) n
    (yaffs_ECCCalculateOther (take 16 sample_data) n)
    (yaffs_ECCCalculateOther (flip_bit 9 7 (take 16 sample_data)) n) =
  (1, take 16 sample_data, yaffs_ECCCalculateOther (take 16 sample_data) n).
Proof.
  apply (ECCCorrectOther_single_bit (take 16 sample_data) 9 7);
    [apply Forall_take, sample_data_bytes|simpl; lia|lia|simpl; lia].
Defined.

Lemma ECCCorrectOther_clean data n e : yaffs_ECCCorrectOther data n e e = (0, data, e).
Proof. unfold yaffs_ECCCorrectOther. by rewrite !Z.lxor_nilpotent. Qed.

Lemma ECCCorrect_clean data e : yaffs_ECCCorrect data e e = (0, data, e).
Proof. unfold yaffs_ECCCorrect. by rewrite !Z.lxor_nilpotent. Qed.

(** ** Counting bits *)

Lemma shiftr1_range w x : 0 <= x < 2 ^ Z.succ w -> 0 <= w -> 0 <= Z.shiftr x 1 < 2 ^ w.
Proof.
  intros Hx Hw. rewrite Z.shiftr_div_pow2 by done. rewrite Z.pow_succ_r in Hx by done.
  change (2 ^ 1) with 2. split; [apply Z.div_pos; lia|apply Z.div_lt_upper_bound; lia].
Qed.

(** More fuel than the width of the argument changes nothing: the loop has ended. *)
Lemma CountBits_exact fuel extra x r :
  0 <= x < 2 ^ Z.of_nat fuel -> CountBits_loop (fuel + extra) x r = CountBits_loop fuel x r.
Proof.
  revert x r. induction fuel as [|fuel IH]; intros x r Hx.
  - simpl in Hx. assert (x = 0) as -> by lia. by destruct extra.
  - simpl. destruct (x =? 0); [done|]. apply IH. apply shiftr1_range; [|lia].
    by rewrite <- Nat2Z.inj_succ.
Qed.
