(* ===== verification/Tags.v ===== *)
(** * Chunk tags: [yaffs_guts.h], [yaffs_tagsvalidity.c], [yaffs_packedtags1.c]
    and [yaffs_packedtags2.c]

    The in-memory tags of a chunk and the two packed forms that go to the spare
    area of a NAND page.  Unsigned ints are integers modulo [2^32]; a bit-field
    assignment truncates to the width of the field. *)
From S2P Require Import Prelude Ecc.

(** ** Extended tags *)

(** [yaffs_ECCResult] *)
Inductive ECCResult :=
  | ECC_RESULT_UNKNOWN
  | ECC_RESULT_NO_ERROR
  | ECC_RESULT_FIXED
  | ECC_RESULT_UNFIXED.
#[export] Instance ECCResult_eq_dec : EqDecision ECCResult.
Proof. solve_decision. Defined.

Definition ecc_result_code (r : ECCResult) : Z :=
  match r with
  | ECC_RESULT_UNKNOWN => 0
  | ECC_RESULT_NO_ERROR => 1
  | ECC_RESULT_FIXED => 2
  | ECC_RESULT_UNFIXED => 3
  end.

(** [yaffs_ObjectType], by number: the type is read back from four bits of flash,
    so it can be any number. *)
Definition OBJECT_TYPE_UNKNOWN : Z := 0.
Definition OBJECT_TYPE_FILE : Z := 1.
Definition OBJECT_TYPE_SYMLINK : Z := 2.
Definition OBJECT_TYPE_DIRECTORY : Z := 3.
Definition OBJECT_TYPE_HARDLINK : Z := 4.
Definition OBJECT_TYPE_SPECIAL : Z := 5.

(** [yaffs_ExtendedTags] *)
Record ExtendedTags := MkTags {
  validMarker0 : Z;
  chunkUsed : Z;
  objectId : Z;
  chunkId : Z;
  byteCount : Z;
  eccResult : ECCResult;
  blockBad : Z;
  chunkDeleted : Z;
  serialNumber : Z;
  sequenceNumber : Z;
  extraHeaderInfoAvailable : Z;
  extraParentObjectId : Z;
  extraIsShrinkHeader : Z;
  extraShadows : Z;
  extraObjectType : Z;
  extraFileLength : Z;
  extraEquivalentObjectId : Z;
  validMarker1 : Z
}.

#[export] Instance eta_ExtendedTags : EtaExpand ExtendedTags := fun t =>
  MkTags (validMarker0 t) (chunkUsed t) (objectId t) (chunkId t) (byteCount t) (eccResult t)
    (blockBad t) (chunkDeleted t) (serialNumber t) (sequenceNumber t)
    (extraHeaderInfoAvailable t) (extraParentObjectId t) (extraIsShrinkHeader t)
    (extraShadows t) (extraObjectType t) (extraFileLength t) (extraEquivalentObjectId t)
    (validMarker1 t).

#[export] Instance upd_validMarker0 : FieldUpdate validMarker0 := ltac:(build_field_update).
#[export] Instance upd_chunkUsed : FieldUpdate chunkUsed := ltac:(build_field_update).
#[export] Instance upd_objectId : FieldUpdate objectId := ltac:(build_field_update).
#[export] Instance upd_chunkId : FieldUpdate chunkId := ltac:(build_field_update).
#[export] Instance upd_byteCount : FieldUpdate byteCount := ltac:(build_field_update).
#[export] Instance upd_eccResult : FieldUpdate eccResult := ltac:(build_field_update).
#[export] Instance upd_blockBad : FieldUpdate blockBad := ltac:(build_field_update).
#[export] Instance upd_chunkDeleted : FieldUpdate chunkDeleted := ltac:(build_field_update).
#[export] Instance upd_serialNumber : FieldUpdate serialNumber := ltac:(build_field_update).
#[export] Instance upd_sequenceNumber : FieldUpdate sequenceNumber := ltac:(build_field_update).
#[export] Instance upd_extraHeaderInfoAvailable : FieldUpdate extraHeaderInfoAvailable :=
  ltac:(build_field_update).
#[export] Instance upd_extraParentObjectId : FieldUpdate extraParentObjectId :=
  ltac:(build_field_update).
#[export] Instance upd_extraIsShrinkHeader : FieldUpdate extraIsShrinkHeader :=
  ltac:(build_field_update).
#[export] Instance upd_extraShadows : FieldUpdate extraShadows := ltac:(build_field_update).
#[export] Instance upd_extraObjectType : FieldUpdate extraObjectType := ltac:(build_field_update).
#[export] Instance upd_extraFileLength : FieldUpdate extraFileLength := ltac:(build_field_update).
#[export] Instance upd_extraEquivalentObjectId : FieldUpdate extraEquivalentObjectId :=
  ltac:(build_field_update).
#[export] Instance upd_validMarker1 : FieldUpdate validMarker1 := ltac:(build_field_update).

(** Computes field selections and updates of tags, sharing as it goes. *)
Ltac norm_tags :=
  lazy beta iota zeta delta [field_update upd_validMarker0 upd_chunkUsed upd_objectId upd_chunkId
    upd_byteCount upd_eccResult upd_blockBad upd_chunkDeleted upd_serialNumber upd_sequenceNumber
    upd_extraHeaderInfoAvailable upd_extraParentObjectId upd_extraIsShrinkHeader upd_extraShadows
    upd_extraObjectType upd_extraEquivalentObjectId upd_extraFileLength upd_validMarker1
    validMarker0 chunkUsed objectId chunkId byteCount eccResult blockBad
    chunkDeleted serialNumber sequenceNumber extraHeaderInfoAvailable extraParentObjectId
    extraIsShrinkHeader extraShadows extraObjectType extraFileLength extraEquivalentObjectId
    validMarker1].

(** [memset(tags, 0, sizeof(yaffs_ExtendedTags))] *)
Definition zero_tags : ExtendedTags :=
  MkTags 0 0 0 0 0 ECC_RESULT_UNKNOWN 0 0 0 0 0 0 0 0 0 0 0 0.

(** [yaffs_InitialiseTags] and [yaffs_ValidateTags] *)
Definition yaffs_InitialiseTags : ExtendedTags :=
  zero_tags <| validMarker0 := 0xAAAAAAAA |> <| validMarker1 := 0x55555555 |>.

Definition yaffs_ValidateTags (tags : ExtendedTags) : bool :=
  (validMarker0 tags =? 0xAAAAAAAA) && (validMarker1 tags =? 0x55555555).

(** The C flag [x ? 1 : 0]. *)
Definition flag (b : bool) : Z := if b then 1 else 0.

(** ** YAFFS1 packed tags *)

(** [yaffs_PackedTags1]: bit-fields of 20, 2, 10, 18, 12, 1 and 1 bits and a word. *)
Record PackedTags1 := MkPT1 {
  pt1_chunkId : Z;
  pt1_serialNumber : Z;
  pt1_byteCount : Z;
  pt1_objectId : Z;
  pt1_ecc : Z;
  pt1_deleted : Z;
  pt1_unusedStuff : Z;
  pt1_shouldBeFF : Z
}.

(** [yaffs_PackTags1] *)
Definition yaffs_PackTags1 (t : ExtendedTags) : PackedTags1 :=
  MkPT1 (wrap 20 (chunkId t)) (wrap 2 (serialNumber t)) (wrap 10 (byteCount t))
    (wrap 18 (objectId t)) 0 (if ztrue (chunkDeleted t) then 0 else 1) 0 0xFFFFFFFF.

(** [memcmp(allFF, pt, 12) == 0]: every bit of the structure is one. *)
Definition pt1_allFF (pt : PackedTags1) : bool :=
  (pt1_chunkId pt =? 2 ^ 20 - 1) && (pt1_serialNumber pt =? 3) && (pt1_byteCount pt =? 1023) &&
  (pt1_objectId pt =? 2 ^ 18 - 1) && (pt1_ecc pt =? 4095) && (pt1_deleted pt =? 1) &&
  (pt1_unusedStuff pt =? 1) && (pt1_shouldBeFF pt =? 0xFFFFFFFF).

(** [yaffs_UnpackTags1]: the fields it does not set keep the values of [t]. *)
Definition yaffs_UnpackTags1 (t : ExtendedTags) (pt : PackedTags1) : ExtendedTags :=
  if negb (pt1_allFF pt) then
    let t := t <| blockBad := 0 |> in
    let t := if negb (pt1_shouldBeFF pt =? 0xFFFFFFFF) then t <| blockBad := 1 |> else t in
    t <| chunkUsed := 1 |>
      <| objectId := pt1_objectId pt |>
      <| chunkId := pt1_chunkId pt |>
      <| byteCount := pt1_byteCount pt |>
      <| eccResult := ECC_RESULT_NO_ERROR |>
      <| chunkDeleted := if ztrue (pt1_deleted pt) then 0 else 1 |>
      <| serialNumber := pt1_serialNumber pt |>
  else zero_tags.

(** ** YAFFS2 packed tags *)

(** [yaffs_PackedTags2TagsPart] *)
Record TagsPart := MkTagsPart {
  tp_sequenceNumber : Z;
  tp_objectId : Z;
  tp_chunkId : Z;
  tp_byteCount : Z
}.

(** [yaffs_PackedTags2] *)
Record PackedTags2 := MkPT2 { pt2_t : TagsPart; pt2_ecc : ECCOther }.

Definition EXTRA_HEADER_INFO_FLAG : Z := 0x80000000.
Definition EXTRA_SHRINK_FLAG : Z := 0x40000000.
Definition EXTRA_SHADOWS_FLAG : Z := 0x20000000.
Definition ALL_EXTRA_FLAGS : Z := 0xF0000000.
Definition EXTRA_OBJECT_TYPE_SHIFT : Z := 28.
Definition EXTRA_OBJECT_TYPE_MASK : Z := Z.shiftl 15 EXTRA_OBJECT_TYPE_SHIFT.

(** [(unsigned char * )&pt->t]: the four little-endian words of the tags part. *)
Definition tagspart_bytes (p : TagsPart) : list Z :=
  le_bytes 4 (tp_sequenceNumber p) ++ le_bytes 4 (tp_objectId p) ++
  le_bytes 4 (tp_chunkId p) ++ le_bytes 4 (tp_byteCount p).

Definition tagspart_of_bytes (l : list Z) : TagsPart :=
  MkTagsPart (le_value (take 4 l)) (le_value (take 4 (drop 4 l)))
    (le_value (take 4 (drop 8 l))) (le_value (take 4 (drop 12 l))).

(** The tags part that [yaffs_PackTags2] builds. *)
Definition pack_tags_part (t : ExtendedTags) : TagsPart :=
  if (chunkId t =? 0) && ztrue (extraHeaderInfoAvailable t) then
    let c := Z.lor EXTRA_HEADER_INFO_FLAG (extraParentObjectId t) in
    let c := if ztrue (extraIsShrinkHeader t) then Z.lor c EXTRA_SHRINK_FLAG else c in
    let c := if ztrue (extraShadows t) then Z.lor c EXTRA_SHADOWS_FLAG else c in
    let o := Z.land (objectId t) (unot 32 EXTRA_OBJECT_TYPE_MASK) in
    let o := Z.lor o (u32 (Z.shiftl (extraObjectType t) EXTRA_OBJECT_TYPE_SHIFT)) in
    let b := if extraObjectType t =? OBJECT_TYPE_HARDLINK then extraEquivalentObjectId t
             else if extraObjectType t =? OBJECT_TYPE_FILE then extraFileLength t
             else 0 in
    MkTagsPart (sequenceNumber t) o c b
  else MkTagsPart (sequenceNumber t) (objectId t) (chunkId t) (byteCount t).

(** [yaffs_PackTags2] *)
Definition yaffs_PackTags2 (t : ExtendedTags) : PackedTags2 :=
  let p := pack_tags_part t in
  MkPT2 p (yaffs_ECCCalculateOther (tagspart_bytes p) 16).

(** The [switch(result)] on the outcome of the correction. *)
Definition ecc_result_of (result : Z) : ECCResult :=
  if result =? 0 then ECC_RESULT_NO_ERROR
  else if result =? 1 then ECC_RESULT_FIXED
  else if result =? -1 then ECC_RESULT_UNFIXED
  else ECC_RESULT_UNKNOWN.

(** The extra header information unpacked from the (corrected) tags part. *)
Definition unpack_extra (p : TagsPart) (t : ExtendedTags) : ExtendedTags :=
  if hasbits (tp_chunkId p) EXTRA_HEADER_INFO_FLAG then
    let t := t <| chunkId := 0 |> <| byteCount := 0 |>
      <| extraHeaderInfoAvailable := 1 |>
      <| extraParentObjectId := Z.land (tp_chunkId p) (unot 32 ALL_EXTRA_FLAGS) |>
      <| extraIsShrinkHeader := flag (hasbits (tp_chunkId p) EXTRA_SHRINK_FLAG) |>
      <| extraShadows := flag (hasbits (tp_chunkId p) EXTRA_SHADOWS_FLAG) |>
      <| extraObjectType := Z.shiftr (tp_objectId p) EXTRA_OBJECT_TYPE_SHIFT |>
      <| objectId ::= fun o => Z.land o (unot 32 EXTRA_OBJECT_TYPE_MASK) |> in
    if extraObjectType t =? OBJECT_TYPE_HARDLINK then
      t <| extraEquivalentObjectId := tp_byteCount p |>
    else t <| extraFileLength := tp_byteCount p |>
  else t.

(** [yaffs_UnpackTags2]: the tags and the packed tags, whose parts the error
    correction may have changed. *)
Definition yaffs_UnpackTags2 (pt : PackedTags2) : ExtendedTags * PackedTags2 :=
  let t := yaffs_InitialiseTags in
  if negb (tp_sequenceNumber (pt2_t pt) =? 0xFFFFFFFF) then
    let ecc := yaffs_ECCCalculateOther (tagspart_bytes (pt2_t pt)) 16 in
    let '(result, data, read_ecc) :=
      yaffs_ECCCorrectOther (tagspart_bytes (pt2_t pt)) 16 (pt2_ecc pt) ecc in
    let pt := MkPT2 (tagspart_of_bytes data) read_ecc in
    let t := t <| eccResult := ecc_result_of result |>
      <| blockBad := 0 |> <| chunkUsed := 1 |>
      <| objectId := tp_objectId (pt2_t pt) |>
      <| chunkId := tp_chunkId (pt2_t pt) |>
      <| byteCount := tp_byteCount (pt2_t pt) |>
      <| chunkDeleted := 0 |> <| serialNumber := 0 |>
      <| sequenceNumber := tp_sequenceNumber (pt2_t pt) |> in
    (unpack_extra (pt2_t pt) t, pt)
  else (t, pt).

(** ** Round trips *)

Lemma ValidateTags_Initialise : yaffs_ValidateTags yaffs_InitialiseTags = true.
Proof. reflexivity. Qed.

(** The fields of the tags fit the bit-fields of the YAFFS1 layout. *)
Definition tags1_ok (t : ExtendedTags) : Prop :=
  0 <= chunkId t < 2 ^ 20 /\ 0 <= serialNumber t < 2 ^ 2 /\ 0 <= byteCount t < 2 ^ 10 /\
  0 <= objectId t < 2 ^ 18 /\ (chunkDeleted t = 0 \/ chunkDeleted t = 1).

(** C33. YAFFS1 packing loses nothing: unpacking into any tags structure what
    [yaffs_PackTags1] made of tags that fit the bit-fields gives back the object,
    chunk, byte count, serial number and deletion mark, and marks the chunk used,
    the block good and the ECC clean. *)
Theorem PackTags1_roundtrip (t t0 : ExtendedTags) (Hok : tags1_ok t) :
  yaffs_UnpackTags1 t0 (yaffs_PackTags1 t) =
  t0 <| blockBad := 0 |> <| chunkUsed := 1 |> <| objectId := objectId t |>
     <| chunkId := chunkId t |> <| byteCount := byteCount t |>
     <| eccResult := ECC_RESULT_NO_ERROR |> <| chunkDeleted := chunkDeleted t |>
     <| serialNumber := serialNumber t |>.
Proof.
  destruct Hok as (Hc & Hs & Hb & Ho & Hd).
  unfold yaffs_UnpackTags1, yaffs_PackTags1, pt1_allFF. simpl. rewrite !andb_false_r. simpl.
  rewrite !wrap_small by done.
  by destruct Hd as [-> | ->].
Qed.

Definition sample_tags1 : ExtendedTags :=
  yaffs_InitialiseTags <| chunkId := 77 |> <| serialNumber := 3 |> <| byteCount := 512 |>
    <| objectId := 300 |> <| chunkDeleted := 1 |>.

Lemma PackTags1_roundtrip_witness :
  objectId (yaffs_UnpackTags1 zero_tags (yaffs_PackTags1 sample_tags1)) = 300 /\
  yaffs_UnpackTags1 zero_tags (yaffs_PackTags1 sample_tags1) =
  zero_tags <| blockBad := 0 |> <| chunkUsed := 1 |> <| objectId := 300 |>
     <| chunkId := 77 |> <| byteCount := 512 |>
     <| eccResult := ECC_RESULT_NO_ERROR |> <| chunkDeleted := 1 |>
     <| serialNumber := 3 |>.
Proof.
  split; [reflexivity|]. apply (PackTags1_roundtrip sample_tags1 zero_tags).
  unfold tags1_ok; simpl; lia.
Defined.

(** *** The tags part as bytes *)

Definition part_ok (p : TagsPart) : Prop :=
  0 <= tp_sequenceNumber p < 2 ^ 32 /\ 0 <= tp_objectId p < 2 ^ 32 /\
  0 <= tp_chunkId p < 2 ^ 32 /\ 0 <= tp_byteCount p < 2 ^ 32.

Lemma tagspart_bytes_length p : length (tagspart_bytes p) = 16%nat.
Proof. reflexivity. Qed.

Lemma tagspart_bytes_bytes p : bytes (tagspart_bytes p).
Proof. unfold tagspart_bytes. rewrite !Forall_app. auto using le_bytes_bytes. Qed.

Lemma tagspart_of_bytes_of p : part_ok p -> tagspart_of_bytes (tagspart_bytes p) = p.
Proof.
  intros (H1 & H2 & H3 & H4). unfold tagspart_of_bytes.
  change (take 4 (tagspart_bytes p)) with (le_bytes 4 (tp_sequenceNumber p)).
  change (take 4 (drop 4 (tagspart_bytes p))) with (le_bytes 4 (tp_objectId p)).
  change (take 4 (drop 8 (tagspart_bytes p))) with (le_bytes 4 (tp_chunkId p)).
  change (take 4 (drop 12 (tagspart_bytes p))) with (le_bytes 4 (tp_byteCount p)).
  rewrite !le_value_bytes. change (8 * Z.of_nat 4) with 32.
  rewrite !wrap_small by done. by destruct p.
Qed.

Lemma tagspart_bytes_of (l : list Z) :
  bytes l -> length l = 16%nat -> tagspart_bytes (tagspart_of_bytes l) = l.
Proof.
  intros Hb Hl. unfold tagspart_bytes, tagspart_of_bytes; simpl tp_sequenceNumber;
    simpl tp_objectId; simpl tp_chunkId; simpl tp_byteCount.
  assert (H : forall i, (i + 4 <= 16)%nat ->
    le_bytes 4 (le_value (take 4 (drop i l))) = take 4 (drop i l)).
  { intros i Hi. replace 4%nat with (length (take 4 (drop i l))) at 1
      by (rewrite length_take, length_drop; lia).
    apply le_bytes_value. by apply Forall_take, Forall_drop. }
  pose proof (H 0%nat) as H0. rewrite drop_0 in H0. rewrite H0, !H by lia.
  clear H H0 Hb. do 16 (destruct l as [|? l]; [discriminate|]).
  by destruct l.
Qed.

(** Tags that the YAFFS2 layout can hold: the fields fit, and the sequence number is
    not the value that marks an unused page. *)
Record tags2_ok (t : ExtendedTags) : Prop := {
  t2_seq : 0 <= sequenceNumber t < 2 ^ 32 - 1;
  t2_obj : 0 <= objectId t < 2 ^ 28;
  t2_chunk : 0 <= chunkId t < 2 ^ 31;
  t2_count : 0 <= byteCount t < 2 ^ 32;
  t2_parent : 0 <= extraParentObjectId t < 2 ^ 28;
  t2_type : 0 <= extraObjectType t < 2 ^ 4;
  t2_length : 0 <= extraFileLength t < 2 ^ 32;
  t2_equiv : 0 <= extraEquivalentObjectId t < 2 ^ 32
}.

Definition has_extra (t : ExtendedTags) : bool :=
  (chunkId t =? 0) && ztrue (extraHeaderInfoAvailable t).

(** What reading back tags should give: the identification for every chunk, and the
    header information for an object header, with the length kept for files and the
    equivalent object for hard links. *)
Definition read_back (t : ExtendedTags) : ExtendedTags :=
  let r := yaffs_InitialiseTags <| eccResult := ECC_RESULT_NO_ERROR |> <| chunkUsed := 1 |>
    <| objectId := objectId t |> <| chunkId := chunkId t |>
    <| sequenceNumber := sequenceNumber t |> in
  if has_extra t then
    let r := r <| extraHeaderInfoAvailable := 1 |>
      <| extraParentObjectId := extraParentObjectId t |>
      <| extraIsShrinkHeader := flag (ztrue (extraIsShrinkHeader t)) |>
      <| extraShadows := flag (ztrue (extraShadows t)) |>
      <| extraObjectType := extraObjectType t |> in
    if extraObjectType t =? OBJECT_TYPE_HARDLINK then
      r <| extraEquivalentObjectId := extraEquivalentObjectId t |>
    else if extraObjectType t =? OBJECT_TYPE_FILE then
      r <| extraFileLength := extraFileLength t |>
    else r
  else r <| byteCount := byteCount t |>.

(** The chunk word of a header: the flags above 28 bits of parent id. *)
Definition header_word (parent shrink shadows : Z) : Z :=
  let c := Z.lor EXTRA_HEADER_INFO_FLAG parent in
  let c := if ztrue shrink then Z.lor c EXTRA_SHRINK_FLAG else c in
  if ztrue shadows then Z.lor c EXTRA_SHADOWS_FLAG else c.

Lemma header_word_testbit parent shrink shadows n :
  0 <= parent < 2 ^ 28 -> 28 <= n ->
  Z.testbit (header_word parent shrink shadows) n =
  (n =? 31) || (ztrue shrink && (n =? 30)) || (ztrue shadows && (n =? 29)).
Proof.
  intros Hp Hn. unfold header_word, EXTRA_HEADER_INFO_FLAG, EXTRA_SHRINK_FLAG, EXTRA_SHADOWS_FLAG.
  change 0x80000000 with (2 ^ 31). change 0x40000000 with (2 ^ 30). change 0x20000000 with (2 ^ 29).
  rewrite !(Z.eqb_sym n).
  destruct (ztrue shrink), (ztrue shadows);
    rewrite ?Z.lor_spec, !Z.pow2_bits_eqb, (testbit_above 28 parent n) by lia;
    by rewrite ?orb_false_r.
Qed.

Lemma header_word_parent parent shrink shadows :
  0 <= parent < 2 ^ 28 ->
  Z.land (header_word parent shrink shadows) (unot 32 ALL_EXTRA_FLAGS) = parent.
Proof.
  intros Hp. change (unot 32 ALL_EXTRA_FLAGS) with (Z.ones 28). unfold header_word.
  assert (H : forall c, c = EXTRA_HEADER_INFO_FLAG \/ c = EXTRA_SHRINK_FLAG \/
    c = EXTRA_SHADOWS_FLAG -> Z.land c (Z.ones 28) = 0) by (intros ? [-> | [-> | ->]]; reflexivity).
  destruct (ztrue shrink), (ztrue shadows);
    rewrite ?Z.land_lor_distr_l, !H, ?Z.lor_0_r, ?Z.lor_0_l by tauto; by apply land_ones_small.
Qed.

Lemma header_word_range parent shrink shadows :
  0 <= parent < 2 ^ 28 -> 0 <= header_word parent shrink shadows < 2 ^ 32.
Proof.
  intros Hp. unfold header_word, EXTRA_HEADER_INFO_FLAG, EXTRA_SHRINK_FLAG, EXTRA_SHADOWS_FLAG.
  destruct (ztrue shrink), (ztrue shadows); repeat apply lor_range; lia.
Qed.

Lemma pack_tags_part_ok t : tags2_ok t -> part_ok (pack_tags_part t).
Proof.
  intros []. unfold pack_tags_part, part_ok. destruct (_ && _);
    cbn [tp_sequenceNumber tp_objectId tp_chunkId tp_byteCount]; [|lia].
  change (unot 32 EXTRA_OBJECT_TYPE_MASK) with (Z.ones 28).
  rewrite land_ones_small by lia.
  split; [lia|]. split; [apply lor_range; [lia|lia|by apply (wrap_range 32)]|].
  split; [by apply (header_word_range (extraParentObjectId t) (extraIsShrinkHeader t)
      (extraShadows t))|].
  destruct (_ =? OBJECT_TYPE_HARDLINK); [done|]. destruct (_ =? OBJECT_TYPE_FILE); [done|lia].
Qed.

(** The flags of a header word, as the code tests them. *)
Lemma header_word_flags parent shrink shadows :
  0 <= parent < 2 ^ 28 ->
  hasbits (header_word parent shrink shadows) EXTRA_HEADER_INFO_FLAG = true /\
  hasbits (header_word parent shrink shadows) EXTRA_SHRINK_FLAG = ztrue shrink /\
  hasbits (header_word parent shrink shadows) EXTRA_SHADOWS_FLAG = ztrue shadows.
Proof.
  intros Hp. unfold EXTRA_HEADER_INFO_FLAG, EXTRA_SHRINK_FLAG, EXTRA_SHADOWS_FLAG.
  change 0x80000000 with (2 ^ 31). change 0x40000000 with (2 ^ 30). change 0x20000000 with (2 ^ 29).
  rewrite !hasbits_pow2, !header_word_testbit by lia.
  by destruct (ztrue shrink), (ztrue shadows).
Qed.

Lemma unpack_extra_pack t r :
  tags2_ok t -> has_extra t = true ->
  objectId r = tp_objectId (pack_tags_part t) ->
  extraFileLength r = 0 -> extraEquivalentObjectId r = 0 ->
  unpack_extra (pack_tags_part t) r =
  let r := r <| objectId := objectId t |> <| chunkId := 0 |> <| byteCount := 0 |>
    <| extraHeaderInfoAvailable := 1 |>
    <| extraParentObjectId := extraParentObjectId t |>
    <| extraIsShrinkHeader := flag (ztrue (extraIsShrinkHeader t)) |>
    <| extraShadows := flag (ztrue (extraShadows t)) |>
    <| extraObjectType := extraObjectType t |> in
  if extraObjectType t =? OBJECT_TYPE_HARDLINK then
    r <| extraEquivalentObjectId := extraEquivalentObjectId t |>
  else if extraObjectType t =? OBJECT_TYPE_FILE then r <| extraFileLength := extraFileLength t |>
  else r.
Proof.
  intros [] He Hobj Hlen Heq. unfold pack_tags_part, has_extra in *. rewrite He in *.
  fold (header_word (extraParentObjectId t) (extraIsShrinkHeader t) (extraShadows t)) in *.
  unfold unpack_extra. cbn [tp_chunkId tp_objectId tp_byteCount] in *.
  destruct (header_word_flags (extraParentObjectId t) (extraIsShrinkHeader t) (extraShadows t)
    ltac:(lia)) as (-> & -> & ->).
  rewrite header_word_parent by lia.
  change (unot 32 EXTRA_OBJECT_TYPE_MASK) with (Z.ones 28) in *.
  unfold EXTRA_OBJECT_TYPE_SHIFT in *.
  rewrite (land_ones_small 28 (objectId t)) in * by lia.
  assert (Hs : u32 (Z.shiftl (extraObjectType t) 28) = Z.shiftl (extraObjectType t) 28).
  { apply wrap_small. rewrite Z.shiftl_mul_pow2 by lia. lia. }
  rewrite Hs in *. clear Hs. destruct r; cbn in Hobj, Hlen, Heq; subst.
  rewrite field_high by lia.
  pose proof (field_low 28 (objectId t) (extraObjectType t) ltac:(lia) ltac:(lia)) as Hl.
  clear He. destruct t; cbn [objectId extraObjectType] in Hl; norm_tags.
  rewrite Hl. destruct (_ =? OBJECT_TYPE_HARDLINK); [reflexivity|].
  destruct (_ =? OBJECT_TYPE_FILE); reflexivity.
Qed.

(** Unpacking when the correction of the tags part ends with [p] and [result]. *)
Lemma UnpackTags2_corrected t pt result :
  tags2_ok t -> tp_sequenceNumber (pt2_t pt) <> 0xFFFFFFFF ->
  yaffs_ECCCorrectOther (tagspart_bytes (pt2_t pt)) 16 (pt2_ecc pt)
    (yaffs_ECCCalculateOther (tagspart_bytes (pt2_t pt)) 16) =
    (result, tagspart_bytes (pack_tags_part t), pt2_ecc (yaffs_PackTags2 t)) ->
  yaffs_UnpackTags2 pt =
  ((read_back t) <| eccResult := ecc_result_of result |>, yaffs_PackTags2 t).
Proof.
  intros Hok Hseq Hc. unfold yaffs_UnpackTags2.
  rewrite (proj2 (Z.eqb_neq _ _) Hseq), Hc. simpl negb. cbv iota.
  rewrite tagspart_of_bytes_of by (by apply pack_tags_part_ok).
  unfold yaffs_PackTags2 at 2. f_equal. cbn [pt2_t].
  destruct (has_extra t) eqn:He.
  - rewrite unpack_extra_pack by done. unfold read_back. rewrite He.
    unfold has_extra in He. apply andb_prop in He as He2. destruct He2 as [Hc0%Z.eqb_eq _].
    unfold pack_tags_part. unfold has_extra in He. rewrite He.
    destruct (extraObjectType t =? OBJECT_TYPE_HARDLINK); cbn; rewrite ?Hc0; [reflexivity|].
    destruct (extraObjectType t =? OBJECT_TYPE_FILE); cbn; rewrite ?Hc0; reflexivity.
  - unfold read_back, pack_tags_part, has_extra in *. rewrite He. unfold unpack_extra.
    cbn [tp_sequenceNumber tp_objectId tp_chunkId tp_byteCount].
    change EXTRA_HEADER_INFO_FLAG with (2 ^ 31).
    destruct Hok. rewrite hasbits_pow2, (testbit_above 31) by lia. reflexivity.
Qed.

Lemma read_back_clean t : (read_back t) <| eccResult := ecc_result_of 0 |> = read_back t.
Proof.
  unfold read_back. destruct (has_extra t); [|norm_tags; reflexivity].
  destruct (_ =? OBJECT_TYPE_HARDLINK); [norm_tags; reflexivity|].
  destruct (_ =? OBJECT_TYPE_FILE); norm_tags; reflexivity.
Qed.

(** C34. YAFFS2 packing loses nothing: unpacking packed tags gives [read_back t], for
    data chunks and for object headers carrying extra information, and leaves the
    packed tags unchanged. *)
Theorem PackTags2_roundtrip (t : ExtendedTags) (Hok : tags2_ok t) :
  yaffs_UnpackTags2 (yaffs_PackTags2 t) = (read_back t, yaffs_PackTags2 t).
Proof.
  rewrite (UnpackTags2_corrected t _ 0).
  - by rewrite read_back_clean.
  - done.
  - unfold yaffs_PackTags2, pack_tags_part. cbn [pt2_t].
    destruct (_ && _); cbn [tp_sequenceNumber]; destruct Hok; lia.
  - apply ECCCorrectOther_clean.
Qed.

Definition sample_tags2 : ExtendedTags :=
  yaffs_InitialiseTags <| objectId := 300 |> <| sequenceNumber := 4097 |>
    <| extraHeaderInfoAvailable := 1 |> <| extraParentObjectId := 1 |>
    <| extraShadows := 1 |> <| extraObjectType := 1 |> <| extraFileLength := 70000 |>.

Lemma sample_tags2_ok : tags2_ok sample_tags2.
Proof. constructor; simpl; lia. Qed.

Lemma PackTags2_roundtrip_witness :
  extraFileLength (fst (yaffs_UnpackTags2 (yaffs_PackTags2 sample_tags2))) = 70000 /\
  yaffs_UnpackTags2 (yaffs_PackTags2 sample_tags2) =
  (read_back sample_tags2, yaffs_PackTags2 sample_tags2).
Proof. split; [reflexivity|]. exact (PackTags2_roundtrip sample_tags2 sample_tags2_ok). Defined.

(** The packed tags with bit [j] of byte [k] of the tags part flipped on the medium. *)
Definition damage (k : nat) (j : Z) (pt : PackedTags2) : PackedTags2 :=
  MkPT2 (tagspart_of_bytes (flip_bit k j (tagspart_bytes (pt2_t pt)))) (pt2_ecc pt).

(** C35. Any single bit error in the stored tags part is repaired when the tags are
    read, unless it turns the sequence number into the mark of an unused page:
    the tags read are those written, flagged as fixed, and the packed tags are
    restored. *)
Theorem UnpackTags2_fixes_bit (t : ExtendedTags) (k : nat) (j : Z) (Hok : tags2_ok t)
    (Hk : (k < 16)%nat) (Hj : 0 <= j < 8)
    (Hseq : tp_sequenceNumber (pt2_t (damage k j (yaffs_PackTags2 t))) <> 0xFFFFFFFF) :
  yaffs_UnpackTags2 (damage k j (yaffs_PackTags2 t)) =
  ((read_back t) <| eccResult := ECC_RESULT_FIXED |>, yaffs_PackTags2 t).
Proof.
  apply (UnpackTags2_corrected t _ 1); [done..|].
  unfold damage, yaffs_PackTags2. cbn [pt2_t pt2_ecc].
  rewrite tagspart_bytes_of
    by (rewrite ?flip_bit_length; auto using flip_bit_bytes, tagspart_bytes_bytes).
  apply (ECCCorrectOther_single_bit_eq (tagspart_bytes (pack_tags_part t)) k j 16);
    [apply tagspart_bytes_bytes|reflexivity|simpl; lia|done|lia].
Qed.

Lemma UnpackTags2_fixes_bit_witness :
  yaffs_UnpackTags2 (damage 14 6 (yaffs_PackTags2 sample_tags2)) =
  ((read_back sample_tags2) <| eccResult := ECC_RESULT_FIXED |>, yaffs_PackTags2 sample_tags2).
Proof.
  apply (UnpackTags2_fixes_bit sample_tags2 14 6 sample_tags2_ok); [lia|lia|].
  vm_compute. discriminate.
Defined.
