(* ===== verification/Device.v ===== *)
(** * The device: [yaffs_guts.h] and the block and bitmap primitives of [yaffs_guts.c]

    [yaffs_Device] is split by what changes it.  [Config] holds the parameters
    and the geometry that [yaffs_GutsInitialise] computes once; the operations
    take it as an argument.  [Blocks] holds block information, chunk bitmap and
    allocator; [Checkpt] the checkpoint stream; [Stats] the counters.  [State]
    adds the NAND itself.  A block-information pointer is the number of its
    block; a dereference outside the table fails. *)
From S2P Require Import Prelude Monad Ecc Tags.

(** [yaffs_BlockState] *)
Inductive BlockState :=
  | BLOCK_STATE_UNKNOWN
  | BLOCK_STATE_SCANNING
  | BLOCK_STATE_NEEDS_SCANNING
  | BLOCK_STATE_EMPTY
  | BLOCK_STATE_ALLOCATING
  | BLOCK_STATE_FULL
  | BLOCK_STATE_DIRTY
  | BLOCK_STATE_CHECKPOINT
  | BLOCK_STATE_COLLECTING
  | BLOCK_STATE_DEAD.
#[export] Instance BlockState_eq_dec : EqDecision BlockState.
Proof. solve_decision. Defined.

Definition is_state (s1 s2 : BlockState) : bool := bool_decide (s1 = s2).

(** [yaffs_BlockInfo]: the two counters are signed fields of 10 bits, the strikes an
    unsigned field of 3 bits, the flags fields of one bit. *)
Record BlockInfo := MkBlockInfo {
  softDeletions : Z;
  pagesInUse : Z;
  blockState : BlockState;
  needsRetiring : bool;
  skipErasedCheck : bool;
  gcPrioritise : bool;
  chunkErrorStrikes : Z;
  hasShrinkHeader : bool;
  bi_sequenceNumber : Z
}.
#[export] Instance eta_BlockInfo : EtaExpand BlockInfo := fun r =>
  MkBlockInfo (softDeletions r) (pagesInUse r) (blockState r) (needsRetiring r)
    (skipErasedCheck r) (gcPrioritise r) (chunkErrorStrikes r) (hasShrinkHeader r)
    (bi_sequenceNumber r).
#[export] Instance upd_softDeletions : FieldUpdate softDeletions := ltac:(build_field_update).
#[export] Instance upd_pagesInUse : FieldUpdate pagesInUse := ltac:(build_field_update).
#[export] Instance upd_blockState : FieldUpdate blockState := ltac:(build_field_update).
#[export] Instance upd_needsRetiring : FieldUpdate needsRetiring := ltac:(build_field_update).
#[export] Instance upd_skipErasedCheck : FieldUpdate skipErasedCheck := ltac:(build_field_update).
#[export] Instance upd_gcPrioritise : FieldUpdate gcPrioritise := ltac:(build_field_update).
#[export] Instance upd_chunkErrorStrikes : FieldUpdate chunkErrorStrikes := ltac:(build_field_update).
#[export] Instance upd_hasShrinkHeader : FieldUpdate hasShrinkHeader := ltac:(build_field_update).
#[export] Instance upd_bi_sequenceNumber : FieldUpdate bi_sequenceNumber := ltac:(build_field_update).

(** A block as [memset] leaves it. *)
Definition zero_block : BlockInfo :=
  MkBlockInfo 0 0 BLOCK_STATE_UNKNOWN false false false 0 false 0.

(** Return codes. *)
Definition YAFFS_OK : Z := 1.
Definition YAFFS_FAIL : Z := 0.

(** The part of [yaffs_Device] that is fixed once the device is initialised, with two
    globals: [verifyErasure] is [(yaffs_traceMask & YAFFS_TRACE_ERASE) ||
    !yaffs_SkipVerification(dev)], [yaffs_wr_attempts] the limit of write attempts. *)
Record Config := MkConfig {
  nDataBytesPerChunk : Z;
  nChunksPerBlock : Z;
  startBlock : Z;
  endBlock : Z;
  nReservedBlocks : Z;
  nCheckpointReservedBlocks : Z;
  nShortOpCaches : Z;
  useNANDECC : bool;
  isYaffs2 : bool;
  hasSuperBlock : bool;
  wideTnodesDisabled : bool;
  skipCheckpointRead : bool;
  skipCheckpointWrite : bool;
  useHeaderFileSize : bool;
  verifyErasure : bool;
  yaffs_wr_attempts : Z;
  chunkGroupBits : Z;
  chunkGroupSize : Z;
  tnodeWidth : Z;
  tnodeMask : Z;
  crumbMask : Z;
  crumbShift : Z;
  crumbsPerChunk : Z;
  chunkShift : Z;
  chunkMask : Z;
  internalStartBlock : Z;
  internalEndBlock : Z;
  blockOffset : Z;
  chunkOffset : Z;
  chunkBitmapStride : Z
}.
#[export] Instance eta_Config : EtaExpand Config := fun r =>
  MkConfig (nDataBytesPerChunk r) (nChunksPerBlock r) (startBlock r) (endBlock r)
    (nReservedBlocks r) (nCheckpointReservedBlocks r) (nShortOpCaches r) (useNANDECC r)
    (isYaffs2 r) (hasSuperBlock r) (wideTnodesDisabled r) (skipCheckpointRead r)
    (skipCheckpointWrite r) (useHeaderFileSize r) (verifyErasure r) (yaffs_wr_attempts r)
    (chunkGroupBits r) (chunkGroupSize r) (tnodeWidth r) (tnodeMask r) (crumbMask r)
    (crumbShift r) (crumbsPerChunk r) (chunkShift r) (chunkMask r) (internalStartBlock r)
    (internalEndBlock r) (blockOffset r) (chunkOffset r) (chunkBitmapStride r).
#[export] Instance upd_nDataBytesPerChunk : FieldUpdate nDataBytesPerChunk := ltac:(build_field_update).
#[export] Instance upd_nChunksPerBlock : FieldUpdate nChunksPerBlock := ltac:(build_field_update).
#[export] Instance upd_startBlock : FieldUpdate startBlock := ltac:(build_field_update).
#[export] Instance upd_endBlock : FieldUpdate endBlock := ltac:(build_field_update).
#[export] Instance upd_nReservedBlocks : FieldUpdate nReservedBlocks := ltac:(build_field_update).
#[export] Instance upd_nCheckpointReservedBlocks : FieldUpdate nCheckpointReservedBlocks := ltac:(build_field_update).
#[export] Instance upd_nShortOpCaches : FieldUpdate nShortOpCaches := ltac:(build_field_update).
#[export] Instance upd_useNANDECC : FieldUpdate useNANDECC := ltac:(build_field_update).
#[export] Instance upd_isYaffs2 : FieldUpdate isYaffs2 := ltac:(build_field_update).
#[export] Instance upd_hasSuperBlock : FieldUpdate hasSuperBlock := ltac:(build_field_update).
#[export] Instance upd_wideTnodesDisabled : FieldUpdate wideTnodesDisabled := ltac:(build_field_update).
#[export] Instance upd_skipCheckpointRead : FieldUpdate skipCheckpointRead := ltac:(build_field_update).
#[export] Instance upd_skipCheckpointWrite : FieldUpdate skipCheckpointWrite := ltac:(build_field_update).
#[export] Instance upd_useHeaderFileSize : FieldUpdate useHeaderFileSize := ltac:(build_field_update).
#[export] Instance upd_verifyErasure : FieldUpdate verifyErasure := ltac:(build_field_update).
#[export] Instance upd_yaffs_wr_attempts : FieldUpdate yaffs_wr_attempts := ltac:(build_field_update).
#[export] Instance upd_chunkGroupBits : FieldUpdate chunkGroupBits := ltac:(build_field_update).
#[export] Instance upd_chunkGroupSize : FieldUpdate chunkGroupSize := ltac:(build_field_update).
#[export] Instance upd_tnodeWidth : FieldUpdate tnodeWidth := ltac:(build_field_update).
#[export] Instance upd_tnodeMask : FieldUpdate tnodeMask := ltac:(build_field_update).
#[export] Instance upd_crumbMask : FieldUpdate crumbMask := ltac:(build_field_update).
#[export] Instance upd_crumbShift : FieldUpdate crumbShift := ltac:(build_field_update).
#[export] Instance upd_crumbsPerChunk : FieldUpdate crumbsPerChunk := ltac:(build_field_update).
#[export] Instance upd_chunkShift : FieldUpdate chunkShift := ltac:(build_field_update).
#[export] Instance upd_chunkMask : FieldUpdate chunkMask := ltac:(build_field_update).
#[export] Instance upd_internalStartBlock : FieldUpdate internalStartBlock := ltac:(build_field_update).
#[export] Instance upd_internalEndBlock : FieldUpdate internalEndBlock := ltac:(build_field_update).
#[export] Instance upd_blockOffset : FieldUpdate blockOffset := ltac:(build_field_update).
#[export] Instance upd_chunkOffset : FieldUpdate chunkOffset := ltac:(build_field_update).
#[export] Instance upd_chunkBitmapStride : FieldUpdate chunkBitmapStride := ltac:(build_field_update).

(** Block information, chunk bitmap, allocator and garbage-collector state of [yaffs_Device]. *)
Record Blocks := MkBlocks {
  blockInfo : list BlockInfo;
  chunkBits : list Z;
  nErasedBlocks : Z;
  allocationBlock : Z;
  allocationPage : Z;
  allocationBlockFinder : Z;
  nFreeChunks : Z;
  currentDirtyChecker : Z;
  nonAggressiveSkip : Z;
  hasPendingPrioritisedGCs : bool;
  dev_sequenceNumber : Z;
  oldestDirtySequence : Z;
  isDoingGC : bool
}.
#[export] Instance eta_Blocks : EtaExpand Blocks := fun r =>
  MkBlocks (blockInfo r) (chunkBits r) (nErasedBlocks r) (allocationBlock r) (allocationPage r)
    (allocationBlockFinder r) (nFreeChunks r) (currentDirtyChecker r) (nonAggressiveSkip r)
    (hasPendingPrioritisedGCs r) (dev_sequenceNumber r) (oldestDirtySequence r) (isDoingGC r).
#[export] Instance upd_blockInfo : FieldUpdate blockInfo := ltac:(build_field_update).
#[export] Instance upd_chunkBits : FieldUpdate chunkBits := ltac:(build_field_update).
#[export] Instance upd_nErasedBlocks : FieldUpdate nErasedBlocks := ltac:(build_field_update).
#[export] Instance upd_allocationBlock : FieldUpdate allocationBlock := ltac:(build_field_update).
#[export] Instance upd_allocationPage : FieldUpdate allocationPage := ltac:(build_field_update).
#[export] Instance upd_allocationBlockFinder : FieldUpdate allocationBlockFinder := ltac:(build_field_update).
#[export] Instance upd_nFreeChunks : FieldUpdate nFreeChunks := ltac:(build_field_update).
#[export] Instance upd_currentDirtyChecker : FieldUpdate currentDirtyChecker := ltac:(build_field_update).
#[export] Instance upd_nonAggressiveSkip : FieldUpdate nonAggressiveSkip := ltac:(build_field_update).
#[export] Instance upd_hasPendingPrioritisedGCs : FieldUpdate hasPendingPrioritisedGCs := ltac:(build_field_update).
#[export] Instance upd_dev_sequenceNumber : FieldUpdate dev_sequenceNumber := ltac:(build_field_update).
#[export] Instance upd_oldestDirtySequence : FieldUpdate oldestDirtySequence := ltac:(build_field_update).
#[export] Instance upd_isDoingGC : FieldUpdate isDoingGC := ltac:(build_field_update).

(** Checkpoint stream of [yaffs_Device]; [superBlockDirty] is what [markSuperBlockDirty] sets. *)
Record Checkpt := MkCheckpt {
  isCheckpointed : bool;
  checkpointPageSequence : Z;
  checkpointByteCount : Z;
  checkpointByteOffset : Z;
  checkpointBuffer : option (list Z);
  checkpointOpenForWrite : bool;
  blocksInCheckpoint : Z;
  checkpointCurrentChunk : Z;
  checkpointCurrentBlock : Z;
  checkpointNextBlock : Z;
  checkpointBlockList : option (list Z);
  checkpointMaxBlocks : Z;
  checkpointSum : Z;
  checkpointXor : Z;
  superBlockDirty : bool
}.
#[export] Instance eta_Checkpt : EtaExpand Checkpt := fun r =>
  MkCheckpt (isCheckpointed r) (checkpointPageSequence r) (checkpointByteCount r)
    (checkpointByteOffset r) (checkpointBuffer r) (checkpointOpenForWrite r)
    (blocksInCheckpoint r) (checkpointCurrentChunk r) (checkpointCurrentBlock r)
    (checkpointNextBlock r) (checkpointBlockList r) (checkpointMaxBlocks r) (checkpointSum r)
    (checkpointXor r) (superBlockDirty r).
#[export] Instance upd_isCheckpointed : FieldUpdate isCheckpointed := ltac:(build_field_update).
#[export] Instance upd_checkpointPageSequence : FieldUpdate checkpointPageSequence := ltac:(build_field_update).
#[export] Instance upd_checkpointByteCount : FieldUpdate checkpointByteCount := ltac:(build_field_update).
#[export] Instance upd_checkpointByteOffset : FieldUpdate checkpointByteOffset := ltac:(build_field_update).
#[export] Instance upd_checkpointBuffer : FieldUpdate checkpointBuffer := ltac:(build_field_update).
#[export] Instance upd_checkpointOpenForWrite : FieldUpdate checkpointOpenForWrite := ltac:(build_field_update).
#[export] Instance upd_blocksInCheckpoint : FieldUpdate blocksInCheckpoint := ltac:(build_field_update).
#[export] Instance upd_checkpointCurrentChunk : FieldUpdate checkpointCurrentChunk := ltac:(build_field_update).
#[export] Instance upd_checkpointCurrentBlock : FieldUpdate checkpointCurrentBlock := ltac:(build_field_update).
#[export] Instance upd_checkpointNextBlock : FieldUpdate checkpointNextBlock := ltac:(build_field_update).
#[export] Instance upd_checkpointBlockList : FieldUpdate checkpointBlockList := ltac:(build_field_update).
#[export] Instance upd_checkpointMaxBlocks : FieldUpdate checkpointMaxBlocks := ltac:(build_field_update).
#[export] Instance upd_checkpointSum : FieldUpdate checkpointSum := ltac:(build_field_update).
#[export] Instance upd_checkpointXor : FieldUpdate checkpointXor := ltac:(build_field_update).
#[export] Instance upd_superBlockDirty : FieldUpdate superBlockDirty := ltac:(build_field_update).

(** Statistics of [yaffs_Device]. *)
Record Stats := MkStats {
  nPageWrites : Z;
  nPageReads : Z;
  nBlockErasures : Z;
  nErasureFailures : Z;
  nGCCopies : Z;
  garbageCollections : Z;
  passiveGarbageCollections : Z;
  nRetriedWrites : Z;
  nRetiredBlocks : Z;
  eccFixed : Z;
  eccUnfixed : Z;
  tagsEccFixed : Z;
  tagsEccUnfixed : Z;
  nDeletions : Z;
  nUnmarkedDeletions : Z
}.
#[export] Instance eta_Stats : EtaExpand Stats := fun r =>
  MkStats (nPageWrites r) (nPageReads r) (nBlockErasures r) (nErasureFailures r) (nGCCopies r)
    (garbageCollections r) (passiveGarbageCollections r) (nRetriedWrites r) (nRetiredBlocks r)
    (eccFixed r) (eccUnfixed r) (tagsEccFixed r) (tagsEccUnfixed r) (nDeletions r)
    (nUnmarkedDeletions r).
#[export] Instance upd_nPageWrites : FieldUpdate nPageWrites := ltac:(build_field_update).
#[export] Instance upd_nPageReads : FieldUpdate nPageReads := ltac:(build_field_update).
#[export] Instance upd_nBlockErasures : FieldUpdate nBlockErasures := ltac:(build_field_update).
#[export] Instance upd_nErasureFailures : FieldUpdate nErasureFailures := ltac:(build_field_update).
#[export] Instance upd_nGCCopies : FieldUpdate nGCCopies := ltac:(build_field_update).
#[export] Instance upd_garbageCollections : FieldUpdate garbageCollections := ltac:(build_field_update).
#[export] Instance upd_passiveGarbageCollections : FieldUpdate passiveGarbageCollections := ltac:(build_field_update).
#[export] Instance upd_nRetriedWrites : FieldUpdate nRetriedWrites := ltac:(build_field_update).
#[export] Instance upd_nRetiredBlocks : FieldUpdate nRetiredBlocks := ltac:(build_field_update).
#[export] Instance upd_eccFixed : FieldUpdate eccFixed := ltac:(build_field_update).
#[export] Instance upd_eccUnfixed : FieldUpdate eccUnfixed := ltac:(build_field_update).
#[export] Instance upd_tagsEccFixed : FieldUpdate tagsEccFixed := ltac:(build_field_update).
#[export] Instance upd_tagsEccUnfixed : FieldUpdate tagsEccUnfixed := ltac:(build_field_update).
#[export] Instance upd_nDeletions : FieldUpdate nDeletions := ltac:(build_field_update).
#[export] Instance upd_nUnmarkedDeletions : FieldUpdate nUnmarkedDeletions := ltac:(build_field_update).

Definition zero_stats : Stats := MkStats 0 0 0 0 0 0 0 0 0 0 0 0 0 0 0.

(** [yaffs_Spare], the spare area of a YAFFS1 page. *)
Record Spare := MkSpare {
  tagByte0 : Z; tagByte1 : Z; tagByte2 : Z; tagByte3 : Z;
  pageStatus : Z; spare_blockStatus : Z;
  tagByte4 : Z; tagByte5 : Z; spare_ecc1 : ecc3;
  tagByte6 : Z; tagByte7 : Z; spare_ecc2 : ecc3
}.

(** [struct yaffs_NANDSpare] *)
Record NANDSpare := MkNANDSpare { ns_spare : Spare; eccres1 : Z; eccres2 : Z }.

(** ** The NAND driver

    The function pointers of [yaffs_Device].  Result, data and tags come back
    with the new state of the medium; data and tags are passed in as well,
    because a driver may leave them alone.  The drivers talk to the kernel's MTD
    layer and are parameters of the model.  [stack_tags], [stack_spare],
    [stack_data], [stack_ecc] and [stack_unused] are what an uninitialised local variable or a
    reused temporary buffer holds. *)
Class NandDriver (N : Type) := {
  drv_initialise : N -> Z * N;
  drv_eraseBlock : Z -> N -> Z * N;
  drv_writeChunk : Z -> option (list Z) -> Spare -> N -> Z * N;
  drv_readChunk : Z -> option (list Z) -> NANDSpare -> N -> Z * option (list Z) * NANDSpare * N;
  drv_writeChunkWithTags : option (Z -> option (list Z) -> ExtendedTags -> N -> Z * N);
  drv_readChunkWithTags :
    option (Z -> option (list Z) -> ExtendedTags -> N -> Z * option (list Z) * ExtendedTags * N);
  drv_markBlockBad : option (Z -> N -> Z * N);
  drv_queryBlock : option (Z -> N -> Z * BlockState * Z * N);
  stack_tags : ExtendedTags;
  stack_spare : NANDSpare;
  stack_data : list Z;
  stack_ecc : ECCResult;
  stack_unused : Z
}.

(** The state of a mounted device on a medium of type [N]. *)
Record State (N : Type) := MkState {
  blks : Blocks;
  ckpt : Checkpt;
  stats : Stats;
  nand : N
}.
Arguments MkState {N}. Arguments blks {N}. Arguments ckpt {N}.
Arguments stats {N}. Arguments nand {N}.
#[export] Instance eta_State N : EtaExpand (State N) := fun r =>
  MkState (blks r) (ckpt r) (stats r) (nand r).
#[export] Instance upd_blks N : FieldUpdate (@blks N) := ltac:(build_field_update).
#[export] Instance upd_ckpt N : FieldUpdate (@ckpt N) := ltac:(build_field_update).
#[export] Instance upd_stats N : FieldUpdate (@stats N) := ltac:(build_field_update).
#[export] Instance upd_nand N : FieldUpdate (@nand N) := ltac:(build_field_update).

(** ** Access *)

Section device.
Context {N : Type} (cfg : Config).
Local Abbreviation St := (State N).

Definition getB {A} (f : Blocks -> A) : M St A := gets (fun s => f (blks s)).
Definition modB (f : Blocks -> Blocks) : M St unit := modify (fun s => s <| blks ::= f |>).
Definition getC {A} (f : Checkpt -> A) : M St A := gets (fun s => f (ckpt s)).
Definition modC (f : Checkpt -> Checkpt) : M St unit := modify (fun s => s <| ckpt ::= f |>).
Definition modS (f : Stats -> Stats) : M St unit := modify (fun s => s <| stats ::= f |>).

(** Running a driver function on the medium. *)
Definition on_nand {A} (f : N -> A * N) : M St A := fun s =>
  let '(a, n) := f (nand s) in Some (a, s <| nand := n |>).

(** [*yaffs_GetBlockInfo(dev, blk)], read and written.  A block number outside the
    device only prints a message and gives a pointer outside the table. *)
Definition yaffs_GetBlockInfo (blk : Z) : M St BlockInfo :=
  infos ← getB blockInfo;
  of_option (lookupZ (blk - internalStartBlock cfg) infos).

Definition set_block_info (blk : Z) (f : BlockInfo -> BlockInfo) : M St unit :=
  bi ← yaffs_GetBlockInfo blk;
  infos ← getB blockInfo;
  infos' ← of_option (updateZ (blk - internalStartBlock cfg) (f bi) infos);
  modB (fun b => b <| blockInfo := infos' |>).

(** ** Chunk bitmap *)

(** The offset in [chunkBits] of the first byte of a block's bits. *)
Definition yaffs_BlockBits (blk : Z) : Z :=
  chunkBitmapStride cfg * (blk - internalStartBlock cfg).

(** The accesses to [blkBits[i]]. *)
Definition read_bits (i : Z) : M St Z := bits ← getB chunkBits; of_option (lookupZ i bits).
Definition write_bits (i x : Z) : M St unit :=
  bits ← getB chunkBits;
  bits' ← of_option (updateZ i x bits);
  modB (fun b => b <| chunkBits := bits' |>).

Definition yaffs_ClearChunkBits (blk : Z) : M St unit :=
  for_each (seqZ (yaffs_BlockBits blk) (chunkBitmapStride cfg)) (fun i => write_bits i 0).

Definition yaffs_ClearChunkBit (blk chunk : Z) : M St unit :=
  let i := yaffs_BlockBits blk + Z.quot chunk 8 in
  x ← read_bits i;
  write_bits i (u8 (Z.land x (Z.lnot (Z.shiftl 1 (Z.land chunk 7))))).

Definition yaffs_SetChunkBit (blk chunk : Z) : M St unit :=
  let i := yaffs_BlockBits blk + Z.quot chunk 8 in
  x ← read_bits i;
  write_bits i (u8 (Z.lor x (Z.shiftl 1 (Z.land chunk 7)))).

Definition yaffs_CheckChunkBit (blk chunk : Z) : M St bool :=
  x ← read_bits (yaffs_BlockBits blk + Z.quot chunk 8);
  mret (hasbits x (Z.shiftl 1 (Z.land chunk 7))).

Definition yaffs_StillSomeChunkBits (blk : Z) : M St bool :=
  r ← for_break (seqZ (yaffs_BlockBits blk) (chunkBitmapStride cfg)) (fun i =>
    x ← read_bits i; mret (if ztrue x then Some tt else None));
  mret (match r with Some _ => true | None => false end).

(** The inner [while(x)] shifts a byte out, eight times at most. *)
Fixpoint count_byte (fuel : nat) (x n : Z) : Z :=
  match fuel with
  | O => n
  | S fuel =>
      if ztrue x then count_byte fuel (Z.shiftr x 1) (if hasbits x 1 then n + 1 else n) else n
  end.

Definition yaffs_CountChunkBits (blk : Z) : M St Z :=
  for_acc (seqZ (yaffs_BlockBits blk) (chunkBitmapStride cfg)) (fun i n =>
    x ← read_bits i; mret (count_byte 8 x n)) 0.

(** ** Errors on a block *)

Definition yaffs_HandleChunkError (blk : Z) : M St unit :=
  bi ← yaffs_GetBlockInfo blk;
  when (negb (gcPrioritise bi)) (
    _ ← set_block_info blk (fun bi => bi <| gcPrioritise := true |>);
    _ ← modB (fun b => b <| hasPendingPrioritisedGCs := true |>);
    _ ← set_block_info blk (fun bi => bi <| chunkErrorStrikes ::= fun n => wrap 3 (n + 1) |>);
    bi ← yaffs_GetBlockInfo blk;
    when (3 <? chunkErrorStrikes bi)
      (set_block_info blk (fun bi => bi <| needsRetiring := true |>))).

(** ** Geometry *)

(** [yaffs_AddrToChunk]: chunk and offset of a file address.  [None] is [YBUG] with
    both outputs unset. *)
Definition yaffs_AddrToChunk (addr : Z) : option (Z * Z) :=
  if ztrue (chunkShift cfg) then
    Some (u32 (Z.shiftr addr (chunkShift cfg)), u32 (Z.land addr (chunkMask cfg)))
  else if ztrue (crumbsPerChunk cfg) then
    let offset := u32 (Z.land addr (crumbMask cfg)) in
    let addr := Z.shiftr addr (crumbShift cfg) in
    let chunk := u32 addr / crumbsPerChunk cfg in
    Some (chunk, u32 (offset +
      Z.shiftl (addr - u32 (chunk * crumbsPerChunk cfg)) (crumbShift cfg)))
  else None.

Fixpoint ShiftsGE_loop (fuel : nat) (x extraBits nShifts : Z) : Z * Z :=
  match fuel with
  | O => (extraBits, nShifts)
  | S fuel =>
      if 1 <? x then
        ShiftsGE_loop fuel (Z.shiftr x 1)
          (if hasbits x 1 then extraBits + 1 else extraBits) (nShifts + 1)
      else (extraBits, nShifts)
  end.
Definition ShiftsGE (x : Z) : Z :=
  let '(extraBits, nShifts) := ShiftsGE_loop 32 x 0 0 in
  if ztrue extraBits then nShifts + 1 else nShifts.

Fixpoint ShiftDiv_loop (fuel : nat) (x nShifts : Z) : Z :=
  match fuel with
  | O => nShifts
  | S fuel =>
      if hasbits x 1 then nShifts else ShiftDiv_loop fuel (Z.shiftr x 1) (nShifts + 1)
  end.
Definition ShiftDiv (x : Z) : Z := if ztrue x then ShiftDiv_loop 32 x 0 else 0.
End device.

(** ** The geometry the operations rely on *)

(** What [yaffs_GutsInitialise] establishes (the chunk count per block fits the signed
    10-bit counters, the number of a chunk an [int]). *)
Record cfg_ok (cfg : Config) : Prop := {
  c_start : 1 <= internalStartBlock cfg;
  c_end : internalStartBlock cfg <= internalEndBlock cfg;
  c_npb : 1 <= nChunksPerBlock cfg < 512;
  c_stride : chunkBitmapStride cfg = (nChunksPerBlock cfg + 7) / 8;
  c_chunks : (internalEndBlock cfg + 1) * nChunksPerBlock cfg < 2 ^ 31;
  c_data : 0 < nDataBytesPerChunk cfg
}.

Definition nBlocks (cfg : Config) : Z := internalEndBlock cfg - internalStartBlock cfg + 1.

(** The block numbers of the device. *)
Definition valid_block (cfg : Config) (blk : Z) : Prop :=
  internalStartBlock cfg <= blk <= internalEndBlock cfg.

(** The bit of chunk [c] of the [k]-th block in a bitmap. *)
Definition chunk_bit (cfg : Config) (bits : list Z) (k c : Z) : bool :=
  match lookupZ (chunkBitmapStride cfg * k + c / 8) bits with
  | Some x => Z.testbit x (c mod 8)
  | None => false
  end.

(** The number of chunks in use in the [k]-th block, by the bitmap. *)
Definition used (cfg : Config) (bits : list Z) (k : Z) : Z :=
  sumZ (fun c => ind (chunk_bit cfg bits k c)) (seqZ 0 (nChunksPerBlock cfg)).

Lemma set_bit_testbit x j n :
  0 <= j < 8 -> 0 <= n < 8 ->
  Z.testbit (u8 (Z.lor x (Z.shiftl 1 j))) n = (n =? j) || Z.testbit x n.
Proof.
  intros Hj Hn. rewrite wrap_land, Z.land_spec, Z.lor_spec, Z.testbit_ones by lia.
  rewrite Z.shiftl_1_l, Z.pow2_bits_eqb, (Z.eqb_sym j) by lia.
  destruct (Z.leb_spec 0 n), (Z.ltb_spec n 8), (n =? j), (Z.testbit x n); simpl; lia.
Qed.

Lemma clear_bit_testbit x j n :
  0 <= j < 8 -> 0 <= n < 8 ->
  Z.testbit (u8 (Z.land x (Z.lnot (Z.shiftl 1 j)))) n = negb (n =? j) && Z.testbit x n.
Proof.
  intros Hj Hn. rewrite wrap_land, !Z.land_spec, Z.lnot_spec, Z.testbit_ones by lia.
  rewrite Z.shiftl_1_l, Z.pow2_bits_eqb, (Z.eqb_sym j) by lia.
  destruct (Z.leb_spec 0 n), (Z.ltb_spec n 8), (n =? j), (Z.testbit x n); simpl; lia.
Qed.

Section bitmap.
Context (cfg : Config) (Hcfg : cfg_ok cfg).
Let n := nChunksPerBlock cfg.
Let stride := chunkBitmapStride cfg.

Lemma stride_pos : 0 < stride.
Proof. unfold stride. destruct Hcfg as [? ? Hn -> _ _]. apply Z.div_str_pos. lia. Qed.

Lemma chunk_byte c : 0 <= c < n -> 0 <= c / 8 < stride.
Proof.
  intros Hc. unfold stride. destruct Hcfg as [? ? Hn -> _ _]. fold n in Hn |- *.
  split; [apply Z.div_pos; lia|]. apply Z.div_lt_upper_bound; [lia|].
  pose proof (Z.mod_pos_bound (n + 7) 8 ltac:(lia)) as Hm.
  pose proof (Z.div_mod (n + 7) 8 ltac:(lia)). lia.
Qed.

Lemma byte_index_inj k a k' a' :
  0 <= a < stride -> 0 <= a' < stride -> stride * k + a = stride * k' + a' -> k = k' /\ a = a'.
Proof. intros Ha Ha' H. assert (k = k') by nia. subst. lia. Qed.

Lemma chunk_quot c : 0 <= c -> Z.quot c 8 = c / 8 /\ Z.land c 7 = c mod 8.
Proof.
  intros Hc. split; [apply Z.quot_div_nonneg; lia|].
  change 7 with (Z.ones 3). by rewrite Z.land_ones by lia.
Qed.

Lemma byte_index_range (bits : list Z) k c :
  Z.of_nat (length bits) = stride * nBlocks cfg -> 0 <= k < nBlocks cfg -> 0 <= c < n ->
  0 <= stride * k + c / 8 < Z.of_nat (length bits).
Proof. intros -> Hk Hc%chunk_byte. pose proof stride_pos. nia. Qed.

(** Writing one byte of the bitmap changes at most the bits of that byte. *)
Lemma chunk_bit_write bits k c x k' c' :
  Z.of_nat (length bits) = stride * nBlocks cfg ->
  0 <= k < nBlocks cfg -> 0 <= c < n -> 0 <= k' < nBlocks cfg -> 0 <= c' < n ->
  chunk_bit cfg (<[Z.to_nat (stride * k + c / 8) := x]> bits) k' c' =
  if (k' =? k) && (c' / 8 =? c / 8) then Z.testbit x (c' mod 8) else chunk_bit cfg bits k' c'.
Proof.
  intros Hl Hk Hc Hk' Hc'. unfold chunk_bit, lookupZ. fold stride.
  pose proof (byte_index_range bits k c Hl Hk Hc) as Hr.
  pose proof (byte_index_range bits k' c' Hl Hk' Hc') as Hr'.
  rewrite (proj2 (Z.leb_le _ _)) by lia.
  destruct (Z.eqb_spec k' k) as [->|Hne]; [destruct (Z.eqb_spec (c' / 8) (c / 8)) as [->|Hne]|];
    simpl.
  - by rewrite list_lookup_insert_eq by lia.
  - rewrite list_lookup_insert_ne; [done|]. intros He. apply Hne. lia.
  - rewrite list_lookup_insert_ne; [done|]. intros He. apply Hne.
    apply (byte_index_inj k' (c' / 8) k (c / 8));
      [by apply chunk_byte|by apply chunk_byte|lia].
Qed.

Definition bit_at (k c k' c' : Z) : bool := (k' =? k) && (c' =? c).

Lemma same_byte_bit c c' : c' / 8 = c / 8 -> (c' mod 8 =? c mod 8) = (c' =? c).
Proof.
  intros H. pose proof (Z.div_mod c 8 ltac:(lia)). pose proof (Z.div_mod c' 8 ltac:(lia)).
  destruct (Z.eqb_spec (c' mod 8) (c mod 8)), (Z.eqb_spec c' c); subst; lia.
Qed.

(** Setting or clearing a bit changes that bit only. *)
Lemma chunk_bit_update bits k c x (v : bool) :
  Z.of_nat (length bits) = stride * nBlocks cfg ->
  0 <= k < nBlocks cfg -> 0 <= c < n ->
  lookupZ (stride * k + c / 8) bits = Some x ->
  let y := if v then u8 (Z.lor x (Z.shiftl 1 (c mod 8)))
           else u8 (Z.land x (Z.lnot (Z.shiftl 1 (c mod 8)))) in
  forall k' c', 0 <= k' < nBlocks cfg -> 0 <= c' < n ->
  chunk_bit cfg (<[Z.to_nat (stride * k + c / 8) := y]> bits) k' c' =
  if bit_at k c k' c' then v else chunk_bit cfg bits k' c'.
Proof.
  intros Hl Hk Hc Hx y k' c' Hk' Hc'. rewrite chunk_bit_write by done. unfold bit_at.
  destruct (Z.eqb_spec k' k) as [->|]; [|done].
  destruct (Z.eqb_spec (c' / 8) (c / 8)) as [He|Hne]; simpl.
  - assert (Hy : Z.testbit y (c' mod 8) =
      if c' mod 8 =? c mod 8 then v else Z.testbit x (c' mod 8)).
    { unfold y. destruct v.
      - rewrite set_bit_testbit by (apply Z.mod_pos_bound; lia). by destruct (_ =? _).
      - rewrite clear_bit_testbit by (apply Z.mod_pos_bound; lia). by destruct (_ =? _). }
    rewrite Hy, same_byte_bit by done. destruct (c' =? c); [done|].
    unfold chunk_bit. fold stride. by rewrite He, Hx.
  - destruct (Z.eqb_spec c' c) as [->|]; [done|done].
Qed.

Lemma used_ext bits bits' k :
  (forall c, 0 <= c < n -> chunk_bit cfg bits' k c = chunk_bit cfg bits k c) ->
  used cfg bits' k = used cfg bits k.
Proof.
  intros H. apply sumZ_ext. intros c Hc%elem_of_seqZ. by rewrite H by (fold n in Hc; lia).
Qed.

Lemma used_update bits bits' k c v :
  0 <= c < n ->
  (forall c', 0 <= c' < n ->
    chunk_bit cfg bits' k c' = if c' =? c then v else chunk_bit cfg bits k c') ->
  used cfg bits' k = used cfg bits k - ind (chunk_bit cfg bits k c) + ind v.
Proof.
  intros Hc H. unfold used. fold n.
  rewrite (sumZ_ext (fun c' => ind (chunk_bit cfg bits' k c'))
    (fun c' => ind (if c' =? c then v else chunk_bit cfg bits k c'))).
  - rewrite (sumZ_update _ (fun c' => ind (chunk_bit cfg bits k c')) _ c).
    + by rewrite Z.eqb_refl.
    + apply NoDup_seqZ.
    + apply elem_of_seqZ. lia.
    + intros y Hy. by rewrite (proj2 (Z.eqb_neq y c)).
  - intros c' Hc'%elem_of_seqZ. by rewrite H by lia.
Qed.

Lemma used_range bits k : 0 <= used cfg bits k <= n.
Proof.
  unfold used. split.
  - apply sumZ_nonneg. intros c _. apply ind_range.
  - transitivity (sumZ (fun _ : Z => 1) (seqZ 0 (nChunksPerBlock cfg))).
    + apply sumZ_le. intros c _. apply ind_range.
    + rewrite sumZ_const, length_seqZ. fold n. destruct Hcfg as [? ? Hn _ _ _]. fold n in Hn. lia.
Qed.

Lemma used_zero bits k :
  (forall c, 0 <= c < n -> chunk_bit cfg bits k c = false) -> used cfg bits k = 0.
Proof.
  intros H. unfold used. rewrite (sumZ_ext _ (fun _ => 0)).
  - rewrite sumZ_const. lia.
  - intros c Hc%elem_of_seqZ. by rewrite H by (fold n in Hc; lia).
Qed.

Lemma used_pos bits k c : 0 <= c < n -> chunk_bit cfg bits k c = true -> 1 <= used cfg bits k.
Proof.
  intros Hc Hb. unfold used.
  destruct (proj1 (list_elem_of_lookup (seqZ 0 (nChunksPerBlock cfg)) c)) as [i Hi].
  { apply elem_of_seqZ. fold n. lia. }
  apply (sumZ_lookup_le (fun c => ind (chunk_bit cfg bits k c))) in Hi.
  - rewrite Hb in Hi. exact Hi.
  - intros x _. apply ind_range.
Qed.

Lemma used_not_full bits k c :
  0 <= c < n -> chunk_bit cfg bits k c = false -> used cfg bits k < n.
Proof.
  intros Hc Hb. pose proof (sumZ_add (fun c => ind (chunk_bit cfg bits k c))
    (fun c => 1 - ind (chunk_bit cfg bits k c)) (seqZ 0 n)) as Hsum.
  rewrite (sumZ_ext _ (fun _ => 1)), sumZ_const, length_seqZ in Hsum by (intros; lia).
  destruct (proj1 (list_elem_of_lookup (seqZ 0 n) c)) as [i Hi].
  { apply elem_of_seqZ. lia. }
  apply (sumZ_lookup_le (fun c => 1 - ind (chunk_bit cfg bits k c))) in Hi.
  - rewrite Hb in Hi. simpl in Hi. unfold used. fold n. destruct Hcfg as [? ? Hn _ _ _].
    fold n in Hn. lia.
  - intros x _. pose proof (ind_range (chunk_bit cfg bits k x)). lia.
Qed.

Lemma used_zero_inv bits k c :
  used cfg bits k = 0 -> 0 <= c < n -> chunk_bit cfg bits k c = false.
Proof.
  intros Hu Hc. destruct (chunk_bit cfg bits k c) eqn:Hb; [|done].
  pose proof (used_pos bits k c Hc Hb). lia.
Qed.
End bitmap.

(** ** The primitives, by their effect on the state *)

Section prims.
Context {N : Type} (cfg : Config) (Hcfg : cfg_ok cfg).
Implicit Types (s : State N).
Let n := nChunksPerBlock cfg.

Definition with_bits (bits : list Z) (s : State N) : State N :=
  s <| blks ::= fun b => b <| chunkBits := bits |> |>.
Definition with_infos (infos : list BlockInfo) (s : State N) : State N :=
  s <| blks ::= fun b => b <| blockInfo := infos |> |>.

(** The tables have the sizes of the device. *)
Record tables_ok (b : Blocks) : Prop := {
  t_infos : Z.of_nat (length (blockInfo b)) = nBlocks cfg;
  t_bits : Z.of_nat (length (chunkBits b)) = chunkBitmapStride cfg * nBlocks cfg;
  t_bytes : bytes (chunkBits b)
}.

Definition index (blk : Z) : nat := Z.to_nat (blk - internalStartBlock cfg).

Lemma block_info_lookup b blk :
  tables_ok b -> valid_block cfg blk -> exists bi, blockInfo b !! index blk = Some bi.
Proof.
  intros [Hl _ _] Hv. apply lookup_lt_is_Some_2. unfold index, valid_block, nBlocks in *. lia.
Qed.

Lemma wp_on_nand {A} (f : N -> A * N) (Q : A -> State N -> Prop) s :
  Q (fst (f (nand s))) (s <| nand := snd (f (nand s)) |>) -> wp (on_nand f) Q s.
Proof. unfold wp, on_nand. by destruct (f (nand s)). Qed.

Lemma wp_GetBlockInfo blk bi (Q : BlockInfo -> State N -> Prop) s :
  internalStartBlock cfg <= blk -> blockInfo (blks s) !! index blk = Some bi ->
  Q bi s -> wp (yaffs_GetBlockInfo cfg blk) Q s.
Proof.
  intros Hv Hb HQ. unfold yaffs_GetBlockInfo, getB. wp_steps.
  apply wp_of_option with bi; [|done]. unfold lookupZ.
  by rewrite (proj2 (Z.leb_le _ _)) by lia.
Qed.

Lemma wp_set_block_info blk f bi (Q : unit -> State N -> Prop) s :
  internalStartBlock cfg <= blk -> blockInfo (blks s) !! index blk = Some bi ->
  Q tt (with_infos (<[index blk := f bi]> (blockInfo (blks s))) s) ->
  wp (set_block_info cfg blk f) Q s.
Proof.
  intros Hv Hb HQ. unfold set_block_info. apply wp_bind.
  apply wp_GetBlockInfo with bi; [done|done|].
  unfold getB, modB. wp_steps. apply lookup_lt_Some in Hb as Hl.
  eapply wp_of_option; [apply updateZ_Some; unfold index in Hl; lia|].
  wp_steps. exact HQ.
Qed.

Lemma bits_lookup b k c :
  tables_ok b -> 0 <= k < nBlocks cfg -> 0 <= c < n ->
  exists x, lookupZ (chunkBitmapStride cfg * k + c / 8) (chunkBits b) = Some x.
Proof. intros [_ Hl _] Hk Hc. apply lookupZ_Some. by apply byte_index_range. Qed.

Definition knum (blk : Z) : Z := blk - internalStartBlock cfg.

Lemma knum_range blk : valid_block cfg blk -> 0 <= knum blk < nBlocks cfg.
Proof. unfold valid_block, knum, nBlocks. lia. Qed.

(** The bitmaps before and after differ in one bit, which gets the value [v]. *)
Definition bit_changed (bits bits' : list Z) (blk c : Z) (v : bool) : Prop :=
  length bits' = length bits /\ bytes bits' /\
  forall k' c', 0 <= k' < nBlocks cfg -> 0 <= c' < n ->
    chunk_bit cfg bits' k' c' = if bit_at (knum blk) c k' c' then v else chunk_bit cfg bits k' c'.

Lemma wp_write_chunk_bit (v : bool) blk c (Q : unit -> State N -> Prop) s :
  tables_ok (blks s) -> valid_block cfg blk -> 0 <= c < n ->
  (forall bits', bit_changed (chunkBits (blks s)) bits' blk c v -> Q tt (with_bits bits' s)) ->
  wp (if v then yaffs_SetChunkBit cfg blk c else yaffs_ClearChunkBit cfg blk c) Q s.
Proof.
  intros Ht Hv Hc HQ. pose proof (knum_range blk Hv) as Hk.
  destruct (bits_lookup (blks s) (knum blk) c Ht Hk Hc) as [x Hx].
  pose proof (byte_index_range cfg Hcfg (chunkBits (blks s)) (knum blk) c (t_bits _ Ht) Hk Hc)
    as Hr.
  set (y := if v then u8 (Z.lor x (Z.shiftl 1 (c mod 8)))
            else u8 (Z.land x (Z.lnot (Z.shiftl 1 (c mod 8))))).
  assert (Hw : wp (x ← read_bits (yaffs_BlockBits cfg blk + Z.quot c 8);
    write_bits (yaffs_BlockBits cfg blk + Z.quot c 8)
      (if v then u8 (Z.lor x (Z.shiftl 1 (Z.land c 7)))
       else u8 (Z.land x (Z.lnot (Z.shiftl 1 (Z.land c 7)))))) Q s).
  { destruct (chunk_quot cfg c) as [-> ->]; [lia|].
    unfold read_bits, write_bits, getB, modB, yaffs_BlockBits. fold (knum blk).
    wp_steps. apply wp_of_option with x; [done|]. wp_steps.
    eapply wp_of_option; [by apply updateZ_Some|]. wp_steps. apply HQ.
    split; [apply length_insert|]. split.
    - apply Forall_insert; [apply Ht|]. destruct v; apply (wrap_range 8); lia.
    - intros k' c' Hk' Hc'. apply (chunk_bit_update cfg Hcfg _ (knum blk) c x v); auto; apply Ht. }
  destruct v; exact Hw.
Qed.

Lemma wp_CheckChunkBit blk c (Q : bool -> State N -> Prop) s :
  tables_ok (blks s) -> valid_block cfg blk -> 0 <= c < n ->
  Q (chunk_bit cfg (chunkBits (blks s)) (knum blk) c) s ->
  wp (yaffs_CheckChunkBit cfg blk c) Q s.
Proof.
  intros Ht Hv Hc HQ. pose proof (knum_range blk Hv) as Hk.
  destruct (bits_lookup (blks s) (knum blk) c Ht Hk Hc) as [x Hx].
  unfold yaffs_CheckChunkBit, read_bits, getB, yaffs_BlockBits.
  destruct (chunk_quot cfg c) as [-> ->]; [lia|]. fold (knum blk).
  wp_steps. apply wp_of_option with x; [done|]. wp_steps.
  unfold chunk_bit in HQ. rewrite Hx in HQ.
  rewrite Z.shiftl_1_l, hasbits_pow2 by (apply Z.mod_pos_bound; lia). done.
Qed.

(** Clearing all bits of a block leaves the other blocks alone. *)
Lemma wp_ClearChunkBits blk (Q : unit -> State N -> Prop) s :
  tables_ok (blks s) -> valid_block cfg blk ->
  (forall bits', length bits' = length (chunkBits (blks s)) -> bytes bits' ->
    (forall k' c', 0 <= k' < nBlocks cfg -> 0 <= c' < n ->
      chunk_bit cfg bits' k' c' =
      if k' =? knum blk then false else chunk_bit cfg (chunkBits (blks s)) k' c') ->
    Q tt (with_bits bits' s)) ->
  wp (yaffs_ClearChunkBits cfg blk) Q s.
Proof.
  intros Ht Hv HQ. pose proof (knum_range blk Hv) as Hk.
  pose proof (stride_pos cfg Hcfg) as Hs.
  set (lo := chunkBitmapStride cfg * knum blk). set (st := chunkBitmapStride cfg) in *.
  eapply wp_mono; [apply (wp_for_each (fun d s' => exists bits',
    s' = with_bits bits' s /\ length bits' = length (chunkBits (blks s)) /\ bytes bits' /\
    forall i, 0 <= i -> lookupZ i bits' =
      if (lo <=? i) && (i <? lo + Z.of_nat (length d)) then Some 0
      else lookupZ i (chunkBits (blks s))))|].
  - exists (chunkBits (blks s)). repeat split; [by destruct s as [[]]|apply Ht|].
    intros i Hi. simpl length. rewrite Z.add_0_r.
    by destruct (Z.leb_spec lo i), (Z.ltb_spec i lo); try lia.
  - intros d x r s' Hseq (bits' & -> & Hl & Hb & Hlk).
    assert (Hx : x = lo + Z.of_nat (length d) /\ Z.of_nat (length d) < st).
    { assert (Hn : seqZ (yaffs_BlockBits cfg blk) (chunkBitmapStride cfg) !! length d = Some x).
      { rewrite Hseq, lookup_app_r, Nat.sub_diag by lia. done. }
      apply lookup_seqZ in Hn as [-> ?]. done. }
    destruct Hx as [-> Hd]. unfold write_bits, getB, modB. wp_steps. simp_fields.
    assert (Hlen : 0 <= lo + Z.of_nat (length d) < Z.of_nat (length bits')).
    { rewrite Hl, (t_bits _ Ht). fold st. unfold lo. fold st. nia. }
    eapply wp_of_option; [by apply updateZ_Some|]. wp_steps.
    exists (<[Z.to_nat (lo + Z.of_nat (length d)) := 0]> bits').
    split; [by destruct s as [[]]|]. split; [by rewrite length_insert|].
    split; [by apply Forall_insert|]. intros i Hi. rewrite length_app. simpl length.
    unfold lookupZ. rewrite (proj2 (Z.leb_le 0 i)) by done.
    destruct (decide (i = lo + Z.of_nat (length d))) as [->|Hne].
    + rewrite list_lookup_insert_eq by lia.
      destruct (Z.leb_spec lo (lo + Z.of_nat (length d))),
        (Z.ltb_spec (lo + Z.of_nat (length d)) (lo + Z.of_nat (length d + 1))); simpl; lia || done.
    + rewrite list_lookup_insert_ne by lia. specialize (Hlk i Hi). unfold lookupZ in Hlk.
      rewrite (proj2 (Z.leb_le 0 i)) in Hlk by done. rewrite Hlk.
      destruct (Z.leb_spec lo i), (Z.ltb_spec i (lo + Z.of_nat (length d))),
        (Z.ltb_spec i (lo + Z.of_nat (length d + 1))); simpl; lia || done.
  - intros [] s' (bits' & -> & Hl & Hb & Hlk). apply HQ; [done|done|].
    intros k' c' Hk' Hc'. unfold chunk_bit. fold st.
    pose proof (chunk_byte cfg Hcfg c' Hc') as Hcb. fold st in Hcb.
    rewrite Hlk by nia. rewrite length_seqZ, Z2Nat.id by lia. fold st.
    destruct (Z.eqb_spec k' (knum blk)) as [->|Hne].
    + fold lo. rewrite (proj2 (Z.leb_le _ _)), (proj2 (Z.ltb_lt _ _)) by lia. simpl.
      apply Z.bits_0.
    + destruct (Z.leb_spec lo (st * k' + c' / 8)), (Z.ltb_spec (st * k' + c' / 8) (lo + st));
        simpl; try done. exfalso. apply Hne. unfold lo in *. nia.
Qed.
End prims.

(** A small device for examples: blocks 1 to 4 of four pages. *)
Definition sample_cfg : Config :=
  {| nDataBytesPerChunk := 512; nChunksPerBlock := 4; startBlock := 1; endBlock := 4;
     nReservedBlocks := 1; nCheckpointReservedBlocks := 0; nShortOpCaches := 2;
     useNANDECC := false; isYaffs2 := true; hasSuperBlock := true; wideTnodesDisabled := false;
     skipCheckpointRead := false; skipCheckpointWrite := false; useHeaderFileSize := false;
     verifyErasure := true; yaffs_wr_attempts := 320;
     chunkGroupBits := 0; chunkGroupSize := 1; tnodeWidth := 16; tnodeMask := 65535;
     crumbMask := 0; crumbShift := 0; crumbsPerChunk := 0; chunkShift := 9; chunkMask := 511;
     internalStartBlock := 1; internalEndBlock := 4; blockOffset := 0; chunkOffset := 0;
     chunkBitmapStride := 1 |}.

Lemma sample_cfg_ok : cfg_ok sample_cfg.
Proof. constructor; vm_compute; intuition discriminate. Qed.

Definition empty_block : BlockInfo :=
  zero_block <| blockState := BLOCK_STATE_EMPTY |> <| skipErasedCheck := true |>.

Definition sample_ckpt : Checkpt :=
  MkCheckpt false 0 0 0 None false 0 (-1) (-1) (-1) None 0 0 0 false.

(** All blocks erased. *)
Definition sample_blocks : Blocks :=
  MkBlocks [empty_block; empty_block; empty_block; empty_block] [0; 0; 0; 0] 4 (-1) 0 0 16
    0 0 false 4096 0 false.
