(* ===== verification/TagsCompat.v ===== *)
(** * YAFFS1 tags on the spare area: [yaffs_tagscompat.c]

    The eight tag bytes with their own error-correcting code, and the reading and
    writing of chunks on drivers that only know data and spare.  The static
    buffer [spareFF] is a constant here; the [NOTYET] code is not compiled. *)
From S2P Require Import Prelude Monad Ecc Tags Device.

(** [yaffs_countBitsTable] and [yaffs_CountBits] *)
Definition yaffs_countBitsTable : list Z := [
  0; 1; 1; 2; 1; 2; 2; 3; 1; 2; 2; 3; 2; 3; 3; 4;
  1; 2; 2; 3; 2; 3; 3; 4; 2; 3; 3; 4; 3; 4; 4; 5;
  1; 2; 2; 3; 2; 3; 3; 4; 2; 3; 3; 4; 3; 4; 4; 5;
  2; 3; 3; 4; 3; 4; 4; 5; 3; 4; 4; 5; 4; 5; 5; 6;
  1; 2; 2; 3; 2; 3; 3; 4; 2; 3; 3; 4; 3; 4; 4; 5;
  2; 3; 3; 4; 3; 4; 4; 5; 3; 4; 4; 5; 4; 5; 5; 6;
  2; 3; 3; 4; 3; 4; 4; 5; 3; 4; 4; 5; 4; 5; 5; 6;
  3; 4; 4; 5; 4; 5; 5; 6; 4; 5; 5; 6; 5; 6; 6; 7;
  1; 2; 2; 3; 2; 3; 3; 4; 2; 3; 3; 4; 3; 4; 4; 5;
  2; 3; 3; 4; 3; 4; 4; 5; 3; 4; 4; 5; 4; 5; 5; 6;
  2; 3; 3; 4; 3; 4; 4; 5; 3; 4; 4; 5; 4; 5; 5; 6;
  3; 4; 4; 5; 4; 5; 5; 6; 4; 5; 5; 6; 5; 6; 6; 7;
  2; 3; 3; 4; 3; 4; 4; 5; 3; 4; 4; 5; 4; 5; 5; 6;
  3; 4; 4; 5; 4; 5; 5; 6; 4; 5; 5; 6; 5; 6; 6; 7;
  3; 4; 4; 5; 4; 5; 5; 6; 4; 5; 5; 6; 5; 6; 6; 7;
  4; 5; 5; 6; 5; 6; 6; 7; 5; 6; 6; 7; 6; 7; 7; 8 ].

Definition yaffs_CountBits (x : Z) : Z := nth (Z.to_nat x) yaffs_countBitsTable 0.

(** ** Tags and their bytes *)

(** [yaffs_Tags]: bit-fields of 20, 2, 10, 18, 12 and 2 bits. *)
Record Tags1 := MkTags1 {
  t1_chunkId : Z;
  t1_serialNumber : Z;
  t1_byteCount : Z;
  t1_objectId : Z;
  t1_ecc : Z;
  t1_unusedStuff : Z
}.

(** [yaffs_TagsUnion]: the bit-fields fill two little-endian words from the low bit up. *)
Definition tags_word (t : Tags1) : Z :=
  Z.lor (t1_chunkId t) (Z.shiftl
    (Z.lor (t1_serialNumber t) (Z.shiftl
      (Z.lor (t1_byteCount t) (Z.shiftl
        (Z.lor (t1_objectId t) (Z.shiftl
          (Z.lor (t1_ecc t) (Z.shiftl (t1_unusedStuff t) 12)) 18)) 10)) 2)) 20).
Definition tags_of_word (w : Z) : Tags1 :=
  MkTags1 (wrap 20 w) (wrap 2 (Z.shiftr w 20)) (wrap 10 (Z.shiftr w 22))
    (wrap 18 (Z.shiftr w 32)) (wrap 12 (Z.shiftr w 50)) (wrap 2 (Z.shiftr w 62)).
Definition asBytes (t : Tags1) : list Z := le_bytes 8 (tags_word t).
Definition asTags (b : list Z) : Tags1 := tags_of_word (le_value b).
Definition set_ecc (ecc : Z) (t : Tags1) : Tags1 :=
  MkTags1 (t1_chunkId t) (t1_serialNumber t) (t1_byteCount t) (t1_objectId t) (wrap 12 ecc)
    (t1_unusedStuff t).

(** The body of the double loop of [yaffs_CalcTagsECC]. *)
Definition tags_ecc_bit (b : Z) (st : Z * Z) (j : Z) : Z * Z :=
  let bit := fst st + 1 in
  (bit, if hasbits b j then Z.lxor (snd st) bit else snd st).
Definition tags_ecc_byte (st : Z * Z) (b : Z) : Z * Z :=
  fold_left (tags_ecc_bit b) [1; 2; 4; 8; 16; 32; 64; 128] st.

Definition yaffs_CalcTagsECC (t : Tags1) : Tags1 :=
  let t := set_ecc 0 t in
  set_ecc (snd (fold_left tags_ecc_byte (asBytes t) (0, 0))) t.

(** [b[ecc / 8] ^= (1 << (ecc & 7))] on the bytes of the tags. *)
Definition flip_tags_bit (p : Z) (t : Tags1) : Tags1 :=
  asTags (alter (fun b => u8 (Z.lxor b (Z.shiftl 1 (Z.land p 7)))) (Z.to_nat (p / 8)) (asBytes t)).

(** [yaffs_CheckECCOnTags]: the result, and the tags as it leaves them. *)
Definition yaffs_CheckECCOnTags (t : Tags1) : Z * Tags1 :=
  let ecc := t1_ecc t in
  let t := yaffs_CalcTagsECC t in
  let ecc := Z.lxor ecc (t1_ecc t) in
  if ztrue ecc && (ecc <=? 64) then
    let ecc := ecc - 1 in
    (1, yaffs_CalcTagsECC (flip_tags_bit ecc t))
  else if ztrue ecc then (-1, t)
  else (0, t).

(** ** The spare area *)

(** [yaffs_CalcECC]: the codes of the two halves of 512 bytes of data. *)
Definition yaffs_CalcECC (data : list Z) (sp : Spare) : Spare :=
  MkSpare (tagByte0 sp) (tagByte1 sp) (tagByte2 sp) (tagByte3 sp) (pageStatus sp)
    (spare_blockStatus sp) (tagByte4 sp) (tagByte5 sp)
    (yaffs_ECCCalculate (take 256 data))
    (tagByte6 sp) (tagByte7 sp)
    (yaffs_ECCCalculate (take 256 (drop 256 data))).

Definition spare_tag_bytes (sp : Spare) : list Z :=
  [tagByte0 sp; tagByte1 sp; tagByte2 sp; tagByte3 sp;
   tagByte4 sp; tagByte5 sp; tagByte6 sp; tagByte7 sp].

(** [yaffs_LoadTagsIntoSpare] *)
Definition yaffs_LoadTagsIntoSpare (sp : Spare) (t : Tags1) : Spare :=
  let b i := nth i (asBytes (yaffs_CalcTagsECC t)) 0 in
  MkSpare (b 0%nat) (b 1%nat) (b 2%nat) (b 3%nat) (pageStatus sp) (spare_blockStatus sp)
    (b 4%nat) (b 5%nat) (spare_ecc1 sp) (b 6%nat) (b 7%nat) (spare_ecc2 sp).

(** [yaffs_SpareInitialise], also the value of [spareFF]. *)
Definition yaffs_SpareInitialise : Spare :=
  MkSpare 255 255 255 255 255 255 255 255 (Ecc3 255 255 255) 255 255 (Ecc3 255 255 255).

#[export] Instance ecc3_eq_dec : EqDecision ecc3.
Proof. solve_decision. Defined.
#[export] Instance Spare_eq_dec : EqDecision Spare.
Proof. solve_decision. Defined.

Definition set_pageStatus (v : Z) (sp : Spare) : Spare :=
  MkSpare (tagByte0 sp) (tagByte1 sp) (tagByte2 sp) (tagByte3 sp) v (spare_blockStatus sp)
    (tagByte4 sp) (tagByte5 sp) (spare_ecc1 sp) (tagByte6 sp) (tagByte7 sp) (spare_ecc2 sp).
Definition set_blockStatus (v : Z) (sp : Spare) : Spare :=
  MkSpare (tagByte0 sp) (tagByte1 sp) (tagByte2 sp) (tagByte3 sp) (pageStatus sp) v
    (tagByte4 sp) (tagByte5 sp) (spare_ecc1 sp) (tagByte6 sp) (tagByte7 sp) (spare_ecc2 sp).
Definition set_eccs (e1 e2 : ecc3) (sp : Spare) : Spare :=
  MkSpare (tagByte0 sp) (tagByte1 sp) (tagByte2 sp) (tagByte3 sp) (pageStatus sp)
    (spare_blockStatus sp) (tagByte4 sp) (tagByte5 sp) e1 (tagByte6 sp) (tagByte7 sp) e2.

Section compat.
Context {N : Type} {nd : NandDriver N} (cfg : Config).
Local Abbreviation St := (State N).

Definition yaffs_HandleReadDataError (chunkInNAND : Z) : M St unit :=
  set_block_info cfg (Z.quot chunkInNAND (nChunksPerBlock cfg))
    (fun bi => bi <| needsRetiring := true |>).

Definition yaffs_GetTagsFromSpare (sp : Spare) : M St Tags1 :=
  let '(result, t) := yaffs_CheckECCOnTags (asTags (spare_tag_bytes sp)) in
  _ ← (if 0 <? result then modS (fun s => s <| tagsEccFixed ::= Z.succ |>)
       else when (result <? 0) (modS (fun s => s <| tagsEccUnfixed ::= Z.succ |>)));
  mret t.

Definition yaffs_WriteChunkToNAND (chunkInNAND : Z) (data : option (list Z)) (sp : Spare)
    : M St Z :=
  if chunkInNAND <? startBlock cfg * nChunksPerBlock cfg then mret YAFFS_FAIL
  else
    _ ← modS (fun s => s <| nPageWrites ::= Z.succ |>);
    on_nand (drv_writeChunk chunkInNAND data sp).

(** Counting one correction result. *)
Definition count_ecc (result : Z) : M St unit :=
  if 0 <? result then modS (fun s => s <| eccFixed ::= Z.succ |>)
  else when (result <? 0) (modS (fun s => s <| eccUnfixed ::= Z.succ |>)).

Definition ecc_result_of_two (r1 r2 : Z) : ECCResult :=
  if (r1 <? 0) || (r2 <? 0) then ECC_RESULT_UNFIXED
  else if (0 <? r1) || (0 <? r2) then ECC_RESULT_FIXED
  else ECC_RESULT_NO_ERROR.

(** The software correction of a page: results and corrected data and spare.  Data
    shorter than two halves would be read past its end. *)
Definition correct_page (data : list Z) (sp : Spare) : option (Z * Z * list Z * Spare) :=
  if Z.of_nat (length data) <? 512 then None else
  let d1 := take 256 data in
  let '(r1, d1, e1) := yaffs_ECCCorrect d1 (spare_ecc1 sp) (yaffs_ECCCalculate d1) in
  let d2 := take 256 (drop 256 data) in
  let '(r2, d2, e2) := yaffs_ECCCorrect d2 (spare_ecc2 sp) (yaffs_ECCCalculate d2) in
  Some (r1, r2, d1 ++ d2 ++ drop 512 data, set_eccs e1 e2 sp).

(** [yaffs_ReadChunkFromNAND] with a spare buffer, as all callers have: the return
    value, data, spare and ECC result ([eccResult] is left alone without data). *)
Definition yaffs_ReadChunkFromNAND (chunkInNAND : Z) (data : option (list Z)) (sp : NANDSpare)
    (doErrorCorrection : bool) : M St (Z * option (list Z) * Spare * ECCResult) :=
  _ ← modS (fun s => s <| nPageReads ::= Z.succ |>);
  r ← on_nand (fun n =>
    let '(r, d, sp, n) := drv_readChunk chunkInNAND data sp n in ((r, d, sp), n));
  let '(retVal, data, nsp) := r in
  let sp := ns_spare nsp in
  match data with
  | Some d =>
      if negb doErrorCorrection then mret (retVal, data, sp, stack_ecc)
      else if negb (useNANDECC cfg) then
        c ← of_option (correct_page d sp);
        let '(r1, r2, d, sp) := c in
        _ ← count_ecc r1;
        _ ← count_ecc r2;
        _ ← when (ztrue r1 || ztrue r2) (yaffs_HandleReadDataError chunkInNAND);
        mret (retVal, Some d, sp, ecc_result_of_two r1 r2)
      else
        let r1 := eccres1 nsp in
        let r2 := eccres2 nsp in
        _ ← when (ztrue r1 || ztrue r2) (yaffs_HandleReadDataError chunkInNAND);
        mret (retVal, Some d, sp, ecc_result_of_two r1 r2)
  | None => mret (retVal, None, sp, stack_ecc)
  end.

(** The spare area that is written with a chunk. *)
Definition compat_spare (data : option (list Z)) (eTags : ExtendedTags) : Spare :=
  let sp := yaffs_SpareInitialise in
  if ztrue (chunkDeleted eTags) then set_pageStatus 0 sp
  else
    let t := MkTags1 (wrap 20 (chunkId eTags)) (wrap 2 (serialNumber eTags))
      (wrap 10 (byteCount eTags)) (wrap 18 (objectId eTags)) 0 stack_unused in
    let sp := match data with
      | Some d => if negb (useNANDECC cfg) then yaffs_CalcECC d sp else sp
      | None => sp
      end in
    yaffs_LoadTagsIntoSpare sp t.

Definition yaffs_TagsCompatabilityWriteChunkWithTagsToNAND (chunkInNAND : Z)
    (data : option (list Z)) (eTags : ExtendedTags) : M St Z :=
  yaffs_WriteChunkToNAND chunkInNAND data (compat_spare data eTags).

Definition yaffs_TagsCompatabilityReadChunkWithTagsFromNAND (chunkInNAND : Z)
    (data : option (list Z)) (eTags : ExtendedTags) : M St (Z * option (list Z) * ExtendedTags) :=
  r ← yaffs_ReadChunkFromNAND chunkInNAND data stack_spare true;
  let '(retVal, data, sp, ecc) := r in
  if ztrue retVal then
    let used := bool_decide (sp <> yaffs_SpareInitialise) in
    let eTags := eTags
      <| chunkDeleted := flag (yaffs_CountBits (pageStatus sp) <? 7) |>
      <| eccResult := ecc |>
      <| blockBad := 0 |>
      <| chunkUsed := flag used |> in
    if used then
      t ← yaffs_GetTagsFromSpare sp;
      mret (YAFFS_OK, data, eTags
        <| objectId := t1_objectId t |>
        <| chunkId := t1_chunkId t |>
        <| byteCount := t1_byteCount t |>
        <| serialNumber := t1_serialNumber t |>)
    else mret (YAFFS_OK, data, eTags)
  else mret (YAFFS_FAIL, data, eTags).

Definition yaffs_TagsCompatabilityMarkNANDBlockBad (blockInNAND : Z) : M St Z :=
  let sp := set_blockStatus 89 yaffs_SpareInitialise in
  _ ← yaffs_WriteChunkToNAND (blockInNAND * nChunksPerBlock cfg) None sp;
  _ ← yaffs_WriteChunkToNAND (blockInNAND * nChunksPerBlock cfg + 1) None sp;
  mret YAFFS_OK.

Definition yaffs_TagsCompatabilityQueryNANDBlock (blockNo : Z) : M St (Z * BlockState * Z) :=
  r0 ← yaffs_ReadChunkFromNAND (blockNo * nChunksPerBlock cfg) None stack_spare true;
  r1 ← yaffs_ReadChunkFromNAND (blockNo * nChunksPerBlock cfg + 1) None stack_spare true;
  let '(_, _, sp0, _) := r0 in
  let '(_, _, sp1, _) := r1 in
  mret (YAFFS_OK,
    (if yaffs_CountBits (Z.land (spare_blockStatus sp0) (spare_blockStatus sp1)) <? 7
     then BLOCK_STATE_DEAD
     else if bool_decide (yaffs_SpareInitialise = sp0) then BLOCK_STATE_EMPTY
     else BLOCK_STATE_NEEDS_SCANNING), 0).
End compat.

(** ** The bit-fields as a word *)

Lemma yaffs_CountBits_spec x :
  0 <= x < 256 -> yaffs_CountBits x = sumZ (fun n => ind (Z.testbit x n)) (seqZ 0 8).
Proof.
  intros Hx. apply Z.eqb_eq.
  apply (forallb_range (fun x => yaffs_CountBits x =? sumZ (fun n => ind (Z.testbit x n)) (seqZ 0 8))
    256); [vm_compute; reflexivity|done].
Qed.

Record tags1_fields_ok (t : Tags1) : Prop := {
  f_chunk : 0 <= t1_chunkId t < 2 ^ 20;
  f_serial : 0 <= t1_serialNumber t < 2 ^ 2;
  f_count : 0 <= t1_byteCount t < 2 ^ 10;
  f_object : 0 <= t1_objectId t < 2 ^ 18;
  f_ecc : 0 <= t1_ecc t < 2 ^ 12;
  f_unused : 0 <= t1_unusedStuff t < 2 ^ 2
}.

Lemma field_range w v a b :
  0 <= w -> 0 <= v -> 0 <= a < 2 ^ w -> 0 <= b < 2 ^ v -> 0 <= Z.lor a (Z.shiftl b w) < 2 ^ (w + v).
Proof.
  intros Hw Hv Ha Hb. apply lor_range; [lia|..]; rewrite Z.pow_add_r by lia.
  - assert (0 < 2 ^ v) by lia. nia.
  - rewrite Z.shiftl_mul_pow2 by lia. assert (0 < 2 ^ w) by lia. nia.
Qed.

Lemma tags_word_range t : tags1_fields_ok t -> 0 <= tags_word t < 2 ^ 64.
Proof.
  intros []. unfold tags_word.
  apply (field_range 20 44); [lia..|done|]. apply (field_range 2 42); [lia..|done|].
  apply (field_range 10 32); [lia..|done|]. apply (field_range 18 14); [lia..|done|].
  by apply (field_range 12 2); [lia..| |].
Qed.

Lemma wrap_field w a b : 0 <= w -> 0 <= a < 2 ^ w -> wrap w (Z.lor a (Z.shiftl b w)) = a.
Proof. intros. rewrite wrap_land by done. by apply field_low. Qed.

Lemma tags_of_word_of t : tags1_fields_ok t -> tags_of_word (tags_word t) = t.
Proof.
  intros []. unfold tags_of_word.
  replace 62 with (20 + 2 + 10 + 18 + 12) by lia. replace 50 with (20 + 2 + 10 + 18) by lia.
  replace 32 with (20 + 2 + 10) by lia. replace 22 with (20 + 2) by lia.
  rewrite <- !Z.shiftr_shiftr by lia. unfold tags_word.
  rewrite !field_high, !wrap_field by lia. rewrite wrap_small by lia. by destruct t.
Qed.

Lemma tags_of_word_ok w : tags1_fields_ok (tags_of_word w).
Proof. constructor; apply wrap_range; lia. Qed.

Lemma field_split w z : 0 <= w -> Z.lor (wrap w z) (Z.shiftl (Z.shiftr z w) w) = z.
Proof.
  intros Hw. rewrite wrap_land by done. apply Z.bits_inj'; intros n Hn.
  rewrite Z.lor_spec, Z.land_spec, Z.testbit_ones by done.
  rewrite (proj2 (Z.leb_le 0 n)) by done. destruct (Z.ltb_spec n w).
  - rewrite Z.shiftl_spec_low by done. by rewrite andb_true_r, orb_false_r.
  - rewrite Z.shiftl_spec, Z.shiftr_spec by lia. rewrite andb_false_r. simpl. f_equal. lia.
Qed.

Lemma tags_word_of_word w : 0 <= w < 2 ^ 64 -> tags_word (tags_of_word w) = w.
Proof.
  intros Hw. unfold tags_word, tags_of_word. cbn [t1_chunkId t1_serialNumber t1_byteCount
    t1_objectId t1_ecc t1_unusedStuff].
  replace 62 with (20 + 2 + 10 + 18 + 12) by lia. replace 50 with (20 + 2 + 10 + 18) by lia.
  replace 32 with (20 + 2 + 10) by lia. replace 22 with (20 + 2) by lia.
  rewrite <- !Z.shiftr_shiftr by lia.
  rewrite (wrap_small 2 (Z.shiftr (Z.shiftr (Z.shiftr (Z.shiftr (Z.shiftr w 20) 2) 10) 18) 12)).
  - by rewrite !field_split by lia.
  - rewrite !Z.shiftr_shiftr, Z.shiftr_div_pow2 by lia.
    split; [apply Z.div_pos; lia|]. apply Z.div_lt_upper_bound; lia.
Qed.

(** Clearing the code masks its twelve bits out of the word. *)
Definition data_mask : Z := Z.ones 50 + Z.shiftl 3 62.

Lemma tags_word_clear t :
  tags1_fields_ok t -> tags_word (set_ecc 0 t) = Z.land (tags_word t) data_mask.
Proof.
  intros []. unfold tags_word, set_ecc.
  cbn [t1_chunkId t1_serialNumber t1_byteCount t1_objectId t1_ecc t1_unusedStuff].
  change (wrap 12 0) with 0.
  assert (Hs : forall w a b m k, 0 <= w -> 0 <= a < 2 ^ w -> Z.land m (Z.ones w) = Z.ones w ->
    Z.shiftr m w = k ->
    Z.land (Z.lor a (Z.shiftl b w)) m = Z.lor a (Z.shiftl (Z.land b k) w)).
  { intros w a b m k Hw Ha Hm <-. rewrite Z.land_lor_distr_l. f_equal.
    - rewrite <- (land_ones_small w a) at 1 by done.
      rewrite <- Z.land_assoc, (Z.land_comm (Z.ones w)), Hm. by apply land_ones_small.
    - apply Z.bits_inj'; intros n Hn. rewrite Z.land_spec. destruct (Z.ltb_spec n w).
      + by rewrite !Z.shiftl_spec_low by done.
      + rewrite !Z.shiftl_spec, Z.land_spec, Z.shiftr_spec by lia. do 2 f_equal. lia. }
  rewrite (Hs 20 _ _ data_mask (Z.shiftr data_mask 20)) by (done || lia).
  rewrite (Hs 2 _ _ _ (Z.shiftr data_mask 22)) by (done || lia).
  rewrite (Hs 10 _ _ _ (Z.shiftr data_mask 32)) by (done || lia).
  rewrite (Hs 18 _ _ _ (Z.shiftr data_mask 50)) by (done || lia).
  do 8 f_equal. change (Z.shiftr data_mask 50) with (Z.shiftl 3 12).
  rewrite Z.land_lor_distr_l, <- Z.shiftl_land.
  change 3 with (Z.ones 2) at 2. rewrite (land_ones_small 2 (t1_unusedStuff t)) by lia. f_equal.
  apply Z.bits_inj'; intros n Hn. rewrite Z.land_spec, Z.bits_0. destruct (Z.ltb_spec n 12).
  - rewrite Z.shiftl_spec_low by done. by rewrite andb_false_r.
  - by rewrite (testbit_above 12 (t1_ecc t)) by lia.
Qed.

(** ** The code is linear *)

Fixpoint contrib (js : list Z) (k b : Z) : Z :=
  match js with
  | [] => 0
  | j :: js => Z.lxor (if hasbits b j then k + 1 else 0) (contrib js (k + 1) b)
  end.

Lemma tags_ecc_bits b js k e :
  fold_left (tags_ecc_bit b) js (k, e) =
  (k + Z.of_nat (length js), Z.lxor e (contrib js k b)).
Proof.
  revert k e. induction js as [|j js IH]; intros k e.
  - simpl. by rewrite Z.lxor_0_r, Z.add_0_r.
  - cbn [fold_left contrib]. unfold tags_ecc_bit at 2. cbn [fst snd]. rewrite IH.
    simpl length. f_equal; [lia|]. rewrite <- Z.lxor_assoc. f_equal.
    destruct (hasbits b j); [done|by rewrite Z.lxor_0_r].
Qed.

Definition bit_masks : list Z := [1; 2; 4; 8; 16; 32; 64; 128].

Lemma contrib_lxor js k b b' :
  (forall j, j ∈ js -> exists n, 0 <= n /\ j = 2 ^ n) ->
  contrib js k (Z.lxor b b') = Z.lxor (contrib js k b) (contrib js k b').
Proof.
  revert k. induction js as [|j js IH]; intros k Hj; [done|]. cbn [contrib].
  rewrite IH by (intros i Hi; apply Hj; by right).
  destruct (Hj j) as (n & Hn & ->); [by left|].
  rewrite lxor_shuffle. f_equal.
  rewrite hasbits_lxor_pow2 by done.
  destruct (hasbits b (2 ^ n)), (hasbits b' (2 ^ n)); simpl;
    by rewrite ?Z.lxor_nilpotent, ?Z.lxor_0_r, ?Z.lxor_0_l.
Qed.

Lemma bit_masks_pow2 j : j ∈ bit_masks -> exists n, 0 <= n /\ j = 2 ^ n.
Proof.
  unfold bit_masks. rewrite !elem_of_cons, elem_of_nil.
  intros [-> | [-> | [-> | [-> | [-> | [-> | [-> | [-> | []]]]]]]]];
    [by exists 0|by exists 1|by exists 2|by exists 3|by exists 4|by exists 5|by exists 6|by exists 7].
Qed.

Fixpoint contribs (k : Z) (bs : list Z) : Z :=
  match bs with
  | [] => 0
  | b :: bs => Z.lxor (contrib bit_masks k b) (contribs (k + 8) bs)
  end.

Lemma tags_ecc_bytes bs k e :
  snd (fold_left tags_ecc_byte bs (k, e)) = Z.lxor e (contribs k bs).
Proof.
  revert k e. induction bs as [|b bs IH]; intros k e; cbn [fold_left contribs].
  - by rewrite Z.lxor_0_r.
  - unfold tags_ecc_byte at 2. rewrite tags_ecc_bits. simpl length.
    rewrite IH, Z.lxor_assoc. reflexivity.
Qed.

Lemma contribs_lxor n k w v :
  contribs k (le_bytes n (Z.lxor w v)) = Z.lxor (contribs k (le_bytes n w)) (contribs k (le_bytes n v)).
Proof.
  revert k w v. induction n as [|n IH]; intros k w v; [done|]. cbn [le_bytes contribs].
  rewrite wrap_lxor, contrib_lxor by (lia || apply bit_masks_pow2).
  by rewrite Z.shiftr_lxor, IH, lxor_shuffle.
Qed.

(** The code of a word of tags. *)
Definition word_ecc (w : Z) : Z := contribs 0 (le_bytes 8 w).

Lemma word_ecc_lxor w v : word_ecc (Z.lxor w v) = Z.lxor (word_ecc w) (word_ecc v).
Proof. apply contribs_lxor. Qed.

Lemma word_ecc_bit p : 0 <= p < 64 -> word_ecc (2 ^ p) = p + 1.
Proof.
  intros Hp. apply Z.eqb_eq.
  apply (forallb_range (fun p => word_ecc (2 ^ p) =? p + 1) 64); [vm_compute; reflexivity|done].
Qed.

Lemma contrib_range js k b :
  0 <= k -> k + Z.of_nat (length js) < 128 -> 0 <= contrib js k b < 2 ^ 7.
Proof.
  revert k. induction js as [|j js IH]; intros k Hk Hl; [simpl; lia|].
  cbn [contrib]. simpl length in Hl. apply lxor_range; [lia| |apply IH; lia].
  destruct (hasbits b j); lia.
Qed.

Lemma word_ecc_small w : 0 <= word_ecc w < 2 ^ 7.
Proof.
  unfold word_ecc. cbn [le_bytes contribs].
  repeat (apply lxor_range; [lia|apply contrib_range; simpl; lia|]). lia.
Qed.

Lemma word_ecc_range w : 0 <= word_ecc w < 2 ^ 12.
Proof. pose proof (word_ecc_small w). lia. Qed.

Lemma CalcTagsECC_eq t :
  yaffs_CalcTagsECC t = set_ecc (word_ecc (tags_word (set_ecc 0 t))) (set_ecc 0 t).
Proof. unfold yaffs_CalcTagsECC. by rewrite tags_ecc_bytes, Z.lxor_0_l. Qed.

Lemma CalcTagsECC_ecc t : t1_ecc (yaffs_CalcTagsECC t) = word_ecc (tags_word (set_ecc 0 t)).
Proof. rewrite CalcTagsECC_eq. simpl. apply wrap_small, word_ecc_range. Qed.

Lemma set_ecc_ok e t : tags1_fields_ok t -> tags1_fields_ok (set_ecc e t).
Proof. intros []. constructor; simpl; auto. apply (wrap_range 12). lia. Qed.

Lemma CalcTagsECC_ok t : tags1_fields_ok t -> tags1_fields_ok (yaffs_CalcTagsECC t).
Proof. intros. rewrite CalcTagsECC_eq. by apply set_ecc_ok, set_ecc_ok. Qed.

Lemma set_ecc_twice e e' t : set_ecc e (set_ecc e' t) = set_ecc e t.
Proof. done. Qed.

Lemma CalcTagsECC_ext t t' : set_ecc 0 t = set_ecc 0 t' -> yaffs_CalcTagsECC t = yaffs_CalcTagsECC t'.
Proof. intros H. by rewrite !CalcTagsECC_eq, H. Qed.

(** ** Flipping bits *)

Lemma le_bytes_flip m k j w :
  0 <= j < 8 ->
  alter (fun b => u8 (Z.lxor b (Z.shiftl 1 j))) k (le_bytes m w) =
  if (k <? m)%nat then le_bytes m (Z.lxor w (2 ^ (8 * Z.of_nat k + j))) else le_bytes m w.
Proof.
  intros Hj. revert k w. induction m as [|m IH]; intros k w; [by destruct k|].
  destruct k as [|k].
  - cbn [le_bytes]. simpl alter. rewrite Z.shiftl_1_l. simpl Nat.ltb. cbv iota.
    replace (8 * Z.of_nat 0 + j) with j by lia.
    f_equal; [rewrite !wrap_lxor, wrap_wrap by lia; done|].
    f_equal. rewrite Z.shiftr_lxor, (Z.shiftr_div_pow2 (2 ^ j)) by lia.
    rewrite Z.div_small, Z.lxor_0_r; [done|]. split; [lia|]. apply Z.pow_lt_mono_r; lia.
  - change (alter (fun b => u8 (Z.lxor b (Z.shiftl 1 j))) (S k) (le_bytes (S m) w))
      with (u8 w :: alter (fun b => u8 (Z.lxor b (Z.shiftl 1 j))) k (le_bytes m (Z.shiftr w 8))).
    rewrite IH. change (S k <? S m)%nat with (k <? m)%nat.
    destruct (k <? m)%nat; [|done]. cbn [le_bytes].
    replace (2 ^ (8 * Z.of_nat (S k) + j)) with (Z.shiftl (2 ^ (8 * Z.of_nat k + j)) 8)
      by (rewrite Z.shiftl_mul_pow2, <- Z.pow_add_r by lia; f_equal; lia).
    f_equal.
    + rewrite wrap_lxor by lia. rewrite (wrap_land 8 (Z.shiftl _ _)) by lia.
      rewrite Z.land_ones, Z.shiftl_mul_pow2, Z_mod_mult by lia. by rewrite Z.lxor_0_r.
    + by rewrite Z.shiftr_lxor, Z.shiftr_shiftl_l, Z.sub_diag, Z.shiftl_0_r by lia.
Qed.

Lemma flip_tags_bit_word p t :
  0 <= p < 64 -> tags1_fields_ok t ->
  flip_tags_bit p t = tags_of_word (Z.lxor (tags_word t) (2 ^ p)).
Proof.
  intros Hp Ht. unfold flip_tags_bit, asTags, asBytes.
  change 7 with (Z.ones 3). rewrite Z.land_ones by lia. change (2 ^ 3) with 8.
  pose proof (Z.mod_pos_bound p 8 ltac:(lia)). pose proof (Z.div_mod p 8 ltac:(lia)).
  assert (0 <= p / 8 < 8) by (split; [apply Z.div_pos|apply Z.div_lt_upper_bound]; lia).
  rewrite le_bytes_flip by lia.
  rewrite (proj2 (Nat.ltb_lt _ _)) by lia.
  rewrite Z2Nat.id, <- Z.div_mod, le_value_bytes by lia.
  rewrite wrap_small; [done|]. apply lxor_range; [lia|by apply tags_word_range|].
  split; [lia|]. apply Z.pow_lt_mono_r; lia.
Qed.

(** What flipping bit [p] does to the fields: data bits move the word, code bits the code. *)
Lemma flip_word_facts p t :
  0 <= p < 64 -> tags1_fields_ok t ->
  let t' := flip_tags_bit p t in
  tags1_fields_ok t' /\ tags_word t' = Z.lxor (tags_word t) (2 ^ p) /\
  tags_word (set_ecc 0 t') = Z.lxor (tags_word (set_ecc 0 t)) (Z.land (2 ^ p) data_mask) /\
  t1_ecc t' = Z.lxor (t1_ecc t) (wrap 12 (Z.shiftr (2 ^ p) 50)).
Proof.
  intros Hp Ht t'. unfold t'. rewrite flip_tags_bit_word by done.
  assert (Hr : 0 <= Z.lxor (tags_word t) (2 ^ p) < 2 ^ 64).
  { apply lxor_range; [lia|by apply tags_word_range|]. split; [lia|]. apply Z.pow_lt_mono_r; lia. }
  split; [apply tags_of_word_ok|]. split; [by apply tags_word_of_word|]. split.
  - rewrite !tags_word_clear, tags_word_of_word by (done || apply tags_of_word_ok).
    apply Z.bits_inj'; intros n _. rewrite Z.lxor_spec, !Z.land_spec, Z.lxor_spec.
    by destruct (Z.testbit (tags_word t) n), (Z.testbit (2 ^ p) n), (Z.testbit data_mask n).
  - unfold tags_of_word at 1. cbn [t1_ecc]. rewrite Z.shiftr_lxor, wrap_lxor by lia. f_equal.
    rewrite <- (tags_of_word_of t Ht) at 2. done.
Qed.

Lemma data_mask_bit p :
  0 <= p < 64 ->
  (p < 50 \/ 62 <= p -> Z.land (2 ^ p) data_mask = 2 ^ p /\ wrap 12 (Z.shiftr (2 ^ p) 50) = 0) /\
  (50 <= p < 62 -> Z.land (2 ^ p) data_mask = 0 /\ wrap 12 (Z.shiftr (2 ^ p) 50) = 2 ^ (p - 50)).
Proof.
  intros Hp.
  assert (H : (if (p <? 50) || (62 <=? p)
    then (Z.land (2 ^ p) data_mask =? 2 ^ p) && (wrap 12 (Z.shiftr (2 ^ p) 50) =? 0)
    else (Z.land (2 ^ p) data_mask =? 0) && (wrap 12 (Z.shiftr (2 ^ p) 50) =? 2 ^ (p - 50))) = true).
  { apply (forallb_range (fun p => if (p <? 50) || (62 <=? p)
      then (Z.land (2 ^ p) data_mask =? 2 ^ p) && (wrap 12 (Z.shiftr (2 ^ p) 50) =? 0)
      else (Z.land (2 ^ p) data_mask =? 0) && (wrap 12 (Z.shiftr (2 ^ p) 50) =? 2 ^ (p - 50))) 64);
      [vm_compute; reflexivity|done]. }
  split; intros Hq.
  - replace ((p <? 50) || (62 <=? p)) with true in H
      by (symmetry; apply orb_true_iff; rewrite Z.ltb_lt, Z.leb_le; lia).
    apply andb_prop in H as [H1%Z.eqb_eq H2%Z.eqb_eq]. done.
  - replace ((p <? 50) || (62 <=? p)) with false in H
      by (symmetry; apply orb_false_iff; rewrite Z.ltb_ge, Z.leb_gt; lia).
    apply andb_prop in H as [H1%Z.eqb_eq H2%Z.eqb_eq]. done.
Qed.

(** Two tags that agree in their words agree. *)
Lemma tags_word_inj t t' :
  tags1_fields_ok t -> tags1_fields_ok t' -> tags_word t = tags_word t' -> t = t'.
Proof. intros H H' Hw. rewrite <- (tags_of_word_of t H), <- (tags_of_word_of t' H'). by rewrite Hw. Qed.

(** Tags whose code is the one [yaffs_CalcTagsECC] computes. *)
Definition tags1_coded (t : Tags1) : Prop :=
  tags1_fields_ok t /\ t1_ecc t = word_ecc (tags_word (set_ecc 0 t)).

Lemma CalcTagsECC_coded t : tags1_fields_ok t -> tags1_coded (yaffs_CalcTagsECC t).
Proof.
  intros Ht. split; [by apply CalcTagsECC_ok|]. rewrite CalcTagsECC_ecc.
  by rewrite CalcTagsECC_eq, !set_ecc_twice.
Qed.

Lemma CalcTagsECC_fix t : tags1_coded t -> yaffs_CalcTagsECC t = t.
Proof.
  intros [Ht He]. rewrite CalcTagsECC_eq, <- He. destruct t; simpl in *. unfold set_ecc; simpl.
  rewrite wrap_small; [done|]. by destruct Ht.
Qed.

(** C36. Any single bit error in the stored YAFFS1 tags outside the code itself is
    repaired: the check reports a recovered error and leaves the tags as they
    were written. *)
Theorem CheckECCOnTags_fixes_bit (t : Tags1) (p : Z) (Ht : tags1_coded t)
    (Hp : 0 <= p < 50 \/ 62 <= p < 64) :
  yaffs_CheckECCOnTags (flip_tags_bit p t) = (1, t).
Proof.
  destruct Ht as [Ht He].
  destruct (flip_word_facts p t) as (Hok & Hw & Hc & Hecc); [lia|done|].
  destruct (data_mask_bit p) as [[Hm Hz] _]; [lia|lia|]. rewrite Hm in Hc.
  rewrite Hz, Z.lxor_0_r in Hecc. set (t' := flip_tags_bit p t) in *.
  unfold yaffs_CheckECCOnTags. rewrite CalcTagsECC_ecc, Hecc, He, Hc, word_ecc_lxor, word_ecc_bit by lia.
  rewrite <- Z.lxor_assoc, Z.lxor_nilpotent, Z.lxor_0_l.
  unfold ztrue. rewrite (proj2 (Z.eqb_neq _ _)), (proj2 (Z.leb_le _ _)) by lia. cbn [negb andb].
  f_equal. replace (p + 1 - 1) with p by lia. transitivity (yaffs_CalcTagsECC t);
    [|by apply CalcTagsECC_fix].
  pose proof (CalcTagsECC_ok t' Hok) as Hck.
  destruct (flip_word_facts p (yaffs_CalcTagsECC t')) as (Hok2 & _ & Hc2 & _); [lia|done|].
  apply CalcTagsECC_ext, tags_word_inj; [by apply set_ecc_ok..|].
  rewrite Hc2, Hm, CalcTagsECC_eq, !set_ecc_twice, Hc.
  by rewrite Z.lxor_assoc, Z.lxor_nilpotent, Z.lxor_0_r.
Qed.

Definition sample_tags : Tags1 := yaffs_CalcTagsECC (MkTags1 77 2 512 300 0 3).

Lemma sample_tags_coded : tags1_coded sample_tags.
Proof. apply CalcTagsECC_coded. constructor; simpl; lia. Qed.

Lemma CheckECCOnTags_fixes_bit_witness :
  t1_objectId (flip_tags_bit 33 sample_tags) = 302 /\
  yaffs_CheckECCOnTags (flip_tags_bit 33 sample_tags) = (1, sample_tags).
Proof.
  split; [reflexivity|]. apply (CheckECCOnTags_fixes_bit sample_tags 33 sample_tags_coded). lia.
Defined.

(** C37. An error in one of the seven low bits of the stored code is taken for an error
    in a data bit: the check reports a recovered error but hands out tags that
    differ from those written in bit [2^m - 1]. *)
Theorem CheckECCOnTags_miscorrects (t : Tags1) (m : Z) (Ht : tags1_coded t) (Hm : 0 <= m < 7) :
  exists t', yaffs_CheckECCOnTags (flip_tags_bit (50 + m) t) = (1, t') /\
    tags_word (set_ecc 0 t') =
    Z.lxor (tags_word (set_ecc 0 t)) (Z.land (2 ^ (2 ^ m - 1)) data_mask) /\
    t' <> t.
Proof.
  destruct Ht as [Ht He].
  destruct (flip_word_facts (50 + m) t) as (Hok & Hw & Hc & Hecc); [lia|done|].
  destruct (data_mask_bit (50 + m)) as [_ [Hz1 Hz]]; [lia|lia|].
  rewrite Hz1, Z.lxor_0_r in Hc. rewrite Hz in Hecc. replace (50 + m - 50) with m in Hecc by lia.
  set (t1 := flip_tags_bit (50 + m) t) in *.
  assert (Hpow : 1 <= 2 ^ m <= 64).
  { pose proof (Z.pow_le_mono_r 2 0 m ltac:(lia) ltac:(lia)).
    pose proof (Z.pow_le_mono_r 2 m 6 ltac:(lia) ltac:(lia)). lia. }
  assert (Hd : Z.land (2 ^ (2 ^ m - 1)) data_mask = 2 ^ (2 ^ m - 1)).
  { destruct (data_mask_bit (2 ^ m - 1)) as [H1 _]; [lia|]. apply H1.
    destruct (Z.eq_dec m 6) as [->|]; [lia|].
    pose proof (Z.pow_le_mono_r 2 m 5 ltac:(lia) ltac:(lia)). lia. }
  unfold yaffs_CheckECCOnTags. rewrite CalcTagsECC_ecc, Hecc, He, Hc.
  rewrite Z.lxor_assoc, (Z.lxor_comm (2 ^ m)), <- Z.lxor_assoc, Z.lxor_nilpotent, Z.lxor_0_l.
  unfold ztrue. rewrite (proj2 (Z.eqb_neq _ _)), (proj2 (Z.leb_le _ _)) by lia. cbn [negb andb].
  pose proof (CalcTagsECC_ok t1 Hok) as Hck.
  destruct (flip_word_facts (2 ^ m - 1) (yaffs_CalcTagsECC t1)) as (_ & _ & Hc2 & _); [lia|done|].
  eexists. split; [done|].
  assert (Hword : tags_word (set_ecc 0 (yaffs_CalcTagsECC (flip_tags_bit (2 ^ m - 1)
    (yaffs_CalcTagsECC t1)))) =
    Z.lxor (tags_word (set_ecc 0 t)) (Z.land (2 ^ (2 ^ m - 1)) data_mask)).
  { rewrite CalcTagsECC_eq, !set_ecc_twice, Hc2. by rewrite CalcTagsECC_eq, !set_ecc_twice, Hc. }
  split; [done|]. intros Heq. rewrite Heq, Hd in Hword.
  apply (f_equal (Z.lxor (tags_word (set_ecc 0 t)))) in Hword.
  rewrite <- Z.lxor_assoc, Z.lxor_nilpotent, Z.lxor_0_l in Hword. lia.
Qed.

Lemma CheckECCOnTags_miscorrects_witness :
  exists t', yaffs_CheckECCOnTags (flip_tags_bit 55 sample_tags) = (1, t') /\
    tags_word (set_ecc 0 t') =
    Z.lxor (tags_word (set_ecc 0 sample_tags)) (Z.land (2 ^ (2 ^ 5 - 1)) data_mask) /\
    t' <> sample_tags.
Proof. apply (CheckECCOnTags_miscorrects sample_tags 5 sample_tags_coded). lia. Defined.

(** ** Reading back what was written *)

Section read_back.
Context {N : Type} {nd : NandDriver N} (cfg : Config).

Lemma nth_le_bytes w : map (fun i => nth i (le_bytes 8 w) 0) (seq 0 8) = le_bytes 8 w.
Proof. reflexivity. Qed.

Lemma asTags_asBytes t : tags1_fields_ok t -> asTags (asBytes t) = t.
Proof.
  intros Ht. unfold asTags, asBytes. rewrite le_value_bytes.
  rewrite wrap_small; [by apply tags_of_word_of|by apply tags_word_range].
Qed.

Lemma CheckECCOnTags_clean t : tags1_coded t -> yaffs_CheckECCOnTags t = (0, t).
Proof.
  intros Ht. unfold yaffs_CheckECCOnTags.
  rewrite CalcTagsECC_fix, Z.lxor_nilpotent by done. done.
Qed.

(** The tags that [compat_spare] codes. *)
Definition compat_tags (eTags : ExtendedTags) : Tags1 :=
  yaffs_CalcTagsECC (MkTags1 (wrap 20 (chunkId eTags)) (wrap 2 (serialNumber eTags))
    (wrap 10 (byteCount eTags)) (wrap 18 (objectId eTags)) 0 stack_unused).

Lemma compat_tags_coded eTags : 0 <= stack_unused < 4 -> tags1_coded (compat_tags eTags).
Proof.
  intros Hu. apply CalcTagsECC_coded.
  constructor; cbn; try (apply wrap_range; lia); lia.
Qed.

Lemma compat_spare_tags data eTags :
  chunkDeleted eTags = 0 ->
  spare_tag_bytes (compat_spare cfg data eTags) = asBytes (compat_tags eTags) /\
  pageStatus (compat_spare cfg data eTags) = 255.
Proof. intros Hd. unfold compat_spare. rewrite Hd. by destruct data as [d|]; [destruct (useNANDECC cfg)|]. Qed.

Lemma compat_spare_eccs d eTags :
  chunkDeleted eTags = 0 -> useNANDECC cfg = false ->
  spare_ecc1 (compat_spare cfg (Some d) eTags) = yaffs_ECCCalculate (take 256 d) /\
  spare_ecc2 (compat_spare cfg (Some d) eTags) = yaffs_ECCCalculate (take 256 (drop 256 d)).
Proof. intros Hd Hn. unfold compat_spare. rewrite Hd, Hn. done. Qed.

(** No written tags look like a blank spare area: the code never has all bits set. *)
Lemma written_not_blank data eTags :
  chunkDeleted eTags = 0 -> 0 <= stack_unused < 4 ->
  compat_spare cfg data eTags <> yaffs_SpareInitialise.
Proof.
  intros Hd Hu Heq. destruct (compat_spare_tags data eTags Hd) as [Hb _].
  rewrite Heq in Hb. destruct (compat_tags_coded eTags Hu) as [Hok He].
  apply (f_equal asTags) in Hb. rewrite asTags_asBytes in Hb by done.
  apply (f_equal t1_ecc) in Hb. rewrite He in Hb. change 4095 with (2 ^ 12 - 1) in Hb.
  pose proof (word_ecc_small (tags_word (set_ecc 0 (compat_tags eTags)))) as Hs.
  rewrite <- Hb in Hs. vm_compute in Hs. destruct Hs as [_ Hs]. discriminate.
Qed.

Lemma compat_tags_fields eTags :
  tags1_ok eTags ->
  t1_objectId (compat_tags eTags) = objectId eTags /\
  t1_chunkId (compat_tags eTags) = chunkId eTags /\
  t1_byteCount (compat_tags eTags) = byteCount eTags /\
  t1_serialNumber (compat_tags eTags) = serialNumber eTags.
Proof.
  intros (Hc & Hs & Hb & Ho & _). unfold compat_tags. rewrite CalcTagsECC_eq.
  cbn [t1_objectId t1_chunkId t1_byteCount t1_serialNumber set_ecc].
  by rewrite !wrap_small.
Qed.

Lemma flip_bit_app_l k j (l1 l2 : list Z) :
  (k < length l1)%nat -> flip_bit k j (l1 ++ l2) = flip_bit k j l1 ++ l2.
Proof. intros. unfold flip_bit. by rewrite alter_app_l. Qed.
Lemma flip_bit_app_r k j (l1 l2 : list Z) :
  flip_bit (length l1 + k) j (l1 ++ l2) = l1 ++ flip_bit k j l2.
Proof. unfold flip_bit. apply alter_app_r. Qed.

Lemma set_eccs_same e1 e2 sp : spare_ecc1 sp = e1 -> spare_ecc2 sp = e2 -> set_eccs e1 e2 sp = sp.
Proof. by destruct sp; simpl; intros -> ->. Qed.

(** One flipped bit anywhere in the page is corrected. *)
Lemma correct_page_single_bit (d : list Z) (k : nat) (j : Z) sp :
  bytes d -> length d = 512%nat -> (k < 512)%nat -> 0 <= j < 8 ->
  spare_ecc1 sp = yaffs_ECCCalculate (take 256 d) ->
  spare_ecc2 sp = yaffs_ECCCalculate (take 256 (drop 256 d)) ->
  exists r1 r2, correct_page (flip_bit k j d) sp = Some (r1, r2, d, sp) /\
    ((r1 = 1 /\ r2 = 0) \/ (r1 = 0 /\ r2 = 1)).
Proof.
  intros Hb Hl Hk Hj He1 He2.
  set (l1 := take 256 d) in *. set (l2 := drop 256 d) in *.
  assert (Hd : d = l1 ++ l2) by (symmetry; apply take_drop).
  assert (Hl1 : length l1 = 256%nat) by (unfold l1; rewrite length_take; lia).
  assert (Hl2 : length l2 = 256%nat) by (unfold l2; rewrite length_drop; lia).
  assert (Hb1 : bytes l1) by (by apply Forall_take).
  assert (Hb2 : bytes l2) by (by apply Forall_drop).
  assert (Hcut : forall m1 m2 : list Z, length m1 = 256%nat -> length m2 = 256%nat ->
    take 256 (m1 ++ m2) = m1 /\ drop 256 (m1 ++ m2) = m2 /\ take 256 m2 = m2 /\
    drop 512 (m1 ++ m2) = []).
  { intros m1 m2 H1 H2. rewrite take_app_length', drop_app_length' by done.
    repeat split; [by rewrite take_ge by lia|].
    apply drop_ge. rewrite length_app. lia. }
  rewrite (take_ge l2) in He2 by lia.
  unfold correct_page. rewrite flip_bit_length, Hl. cbn [Z.ltb]. rewrite Hd.
  destruct (decide (k < 256)%nat) as [Hk1|Hk1].
  - rewrite flip_bit_app_l by lia.
    destruct (Hcut (flip_bit k j l1) l2) as (-> & -> & -> & ->);
      [by rewrite flip_bit_length|done|].
    rewrite He1, He2, ECCCorrect_single_bit_eq, ECCCorrect_clean by done.
    exists 1, 0. rewrite app_nil_r, set_eccs_same by done. split; [done|by left].
  - replace k with (length l1 + (k - 256))%nat by lia. rewrite flip_bit_app_r.
    destruct (Hcut l1 (flip_bit (k - 256) j l2)) as (-> & -> & -> & ->);
      [done|by rewrite flip_bit_length|].
    rewrite He1, He2, ECCCorrect_clean, ECCCorrect_single_bit_eq by (done || lia).
    exists 0, 1. rewrite app_nil_r, set_eccs_same by done. split; [done|by right].
Qed.

(** A page written by the compatibility layer with software ECC and read back with one
    data bit flipped by the medium comes back as written, flagged as fixed; the block of the
    chunk number the layer was given is marked for retirement. *)
Lemma compat_read_fixes (chunk : Z) (d : list Z) (k : nat) (j : Z) (eTags t0 : ExtendedTags)
    (data0 : option (list Z)) (r e1 e2 : Z) (n' : N) (s : State N) (bi : BlockInfo)
    (Hecc : useNANDECC cfg = false) (Hdel : chunkDeleted eTags = 0) (Htags : tags1_ok eTags)
    (Hu : 0 <= stack_unused < 4)
    (Hb : bytes d) (Hl : length d = 512%nat) (Hk : (k < 512)%nat) (Hj : 0 <= j < 8)
    (Hr : r <> 0)
    (Hblk : internalStartBlock cfg <= Z.quot chunk (nChunksPerBlock cfg))
    (Hbi : blockInfo (blks s) !! index cfg (Z.quot chunk (nChunksPerBlock cfg)) = Some bi)
    (Hdrv : drv_readChunk chunk data0 stack_spare (nand s) =
      (r, Some (flip_bit k j d), MkNANDSpare (compat_spare cfg (Some d) eTags) e1 e2, n')) :
  wp (yaffs_TagsCompatabilityReadChunkWithTagsFromNAND cfg chunk data0 t0)
    (fun '(res, data, t) s' =>
      res = YAFFS_OK /\ data = Some d /\
      objectId t = objectId eTags /\ chunkId t = chunkId eTags /\
      byteCount t = byteCount eTags /\ serialNumber t = serialNumber eTags /\
      chunkUsed t = 1 /\ chunkDeleted t = 0 /\ eccResult t = ECC_RESULT_FIXED /\
      eccFixed (stats s') = eccFixed (stats s) + 1 /\
      blockInfo (blks s') = <[index cfg (Z.quot chunk (nChunksPerBlock cfg)) :=
        bi <| needsRetiring := true |>]> (blockInfo (blks s))) s.
Proof.
  destruct (compat_spare_tags (Some d) eTags Hdel) as [Hbytes Hps].
  destruct (compat_spare_eccs d eTags Hdel Hecc) as [He1 He2].
  set (sp := compat_spare cfg (Some d) eTags) in *.
  destruct (compat_tags_fields eTags Htags) as (Ho & Hc & Hcnt & Hser).
  pose proof (written_not_blank (Some d) eTags Hdel Hu) as Hblank.
  destruct (correct_page_single_bit d k j sp Hb Hl Hk Hj He1 He2) as (r1 & r2 & Hcp & Hrr).
  unfold yaffs_TagsCompatabilityReadChunkWithTagsFromNAND, yaffs_ReadChunkFromNAND, modS.
  wp_steps. apply wp_on_nand. simp_fields. rewrite Hdrv. cbn [fst snd ns_spare].
  rewrite Hecc. cbn [negb]. wp_steps. apply wp_of_option with (r1, r2, d, sp); [done|].
  destruct Hrr as [[-> ->] | [-> ->]]; cbn [ztrue Z.eqb negb orb when];
    unfold count_ecc, modS, yaffs_HandleReadDataError; cbn [Z.ltb Z.compare when];
    wp_steps; (apply wp_set_block_info with bi; [done|by simp_fields|]); wp_steps;
    unfold ztrue; rewrite (proj2 (Z.eqb_neq r 0) Hr); cbn [negb];
    (rewrite bool_decide_true by done);
    unfold yaffs_GetTagsFromSpare;
    rewrite Hbytes, asTags_asBytes, CheckECCOnTags_clean
      by (by apply compat_tags_coded); cbn [Z.ltb Z.compare]; wp_steps;
    rewrite Hps; simp_fields; repeat (split; [done|]); done.
Qed.
End read_back.

(** A medium of one page that reads back what it holds, for the example. *)
Definition page_driver : NandDriver (list Z * Spare) := {|
  drv_initialise n := (1, n);
  drv_eraseBlock _ n := (1, n);
  drv_writeChunk _ data sp n := (1, (default (fst n) data, sp));
  drv_readChunk _ _ _ n := (1, Some (fst n), MkNANDSpare (snd n) 0 0, n);
  drv_writeChunkWithTags := None;
  drv_readChunkWithTags := None;
  drv_markBlockBad := None;
  drv_queryBlock := None;
  stack_tags := zero_tags;
  stack_spare := MkNANDSpare yaffs_SpareInitialise 0 0;
  stack_data := [];
  stack_ecc := ECC_RESULT_UNKNOWN;
  stack_unused := 2
|}.

Definition sample_page : list Z := map (fun i => (i * 37 + 11) mod 256) (seqZ 0 512).

Lemma sample_page_bytes : bytes sample_page.
Proof. apply Forall_forall. intros x (i & -> & _)%list_elem_of_fmap. apply Z.mod_pos_bound; lia. Qed.

Definition sample_etags : ExtendedTags := sample_tags1 <| chunkDeleted := 0 |>.

(** The page at chunk 9 with bit 6 of byte 300 flipped. *)
Definition sample_damaged : State (list Z * Spare) :=
  MkState sample_blocks sample_ckpt zero_stats
    (flip_bit 300 6 sample_page,
     @compat_spare _ page_driver sample_cfg (Some sample_page) sample_etags).
