(* ===== verification/Nand.v ===== *)
(** * The NAND access layer: [yaffs_nand.c]

    Every chunk and block number is realigned by the device's offsets, and the
    driver's tag-aware functions are used where it has them, the compatibility
    layer of [TagsCompat] where it has not.  [NandFrame] is what the rest of the
    file system relies on: reading, writing and marking never fail and leave the
    allocation state alone, except for the flags that note an error. *)
From S2P Require Import Prelude Monad Ecc Tags Device TagsCompat.

(** [eccResult > YAFFS_ECC_RESULT_NO_ERROR] *)
Definition ecc_is_error (r : ECCResult) : bool := 1 <? ecc_result_code r.

Section nand.
Context {N : Type} {nd : NandDriver N} (cfg : Config).
Local Abbreviation St := (State N).

(** Result, data and tags. *)
Definition yaffs_ReadChunkWithTagsFromNAND (chunkInNAND : Z) (buffer : option (list Z))
    (tags : ExtendedTags) : M St (Z * option (list Z) * ExtendedTags) :=
  let realignedChunkInNAND := chunkInNAND - chunkOffset cfg in
  r ← match drv_readChunkWithTags with
      | Some f => on_nand (fun n =>
          let '(r, d, t, n) := f realignedChunkInNAND buffer tags n in ((r, d, t), n))
      | None =>
          yaffs_TagsCompatabilityReadChunkWithTagsFromNAND cfg realignedChunkInNAND buffer tags
      end;
  _ ← when (ecc_is_error (eccResult (snd r)))
        (yaffs_HandleChunkError cfg (Z.quot chunkInNAND (nChunksPerBlock cfg)));
  mret r.

(** Result, and the tags with what the function stores in them.  Uninitialised tags
    are reported but written all the same. *)
Definition yaffs_WriteChunkWithTagsToNAND (chunkInNAND : Z) (buffer : option (list Z))
    (tags : ExtendedTags) : M St (Z * ExtendedTags) :=
  let chunkInNAND := chunkInNAND - chunkOffset cfg in
  seq ← getB dev_sequenceNumber;
  let tags := tags <| sequenceNumber := seq |> <| chunkUsed := 1 |> in
  r ← match drv_writeChunkWithTags with
      | Some f => on_nand (f chunkInNAND buffer tags)
      | None => yaffs_TagsCompatabilityWriteChunkWithTagsToNAND cfg chunkInNAND buffer tags
      end;
  mret (r, tags).

Definition yaffs_MarkBlockBad (blockNo : Z) : M St Z :=
  let blockNo := blockNo - blockOffset cfg in
  match drv_markBlockBad with
  | Some f => on_nand (f blockNo)
  | None => yaffs_TagsCompatabilityMarkNANDBlockBad cfg blockNo
  end.

(** Result, state and sequence number. *)
Definition yaffs_QueryInitialBlockState (blockNo : Z) : M St (Z * BlockState * Z) :=
  let blockNo := blockNo - blockOffset cfg in
  match drv_queryBlock with
  | Some f => on_nand (fun n =>
      let '(r, st, seq, n) := f blockNo n in ((r, st, seq), n))
  | None => yaffs_TagsCompatabilityQueryNANDBlock cfg blockNo
  end.

Definition yaffs_EraseBlockInNAND (blockInNAND : Z) : M St Z :=
  let blockInNAND := blockInNAND - blockOffset cfg in
  _ ← modS (fun s => s <| nBlockErasures ::= Z.succ |>);
  on_nand (drv_eraseBlock blockInNAND).

Definition yaffs_InitialiseNAND : M St Z := on_nand drv_initialise.
End nand.

(** ** What these operations leave alone *)

(** A block whose error flags and strikes may have changed, but nothing else. *)
Record block_same (b b' : BlockInfo) : Prop := {
  bs_soft : softDeletions b' = softDeletions b;
  bs_pages : pagesInUse b' = pagesInUse b;
  bs_state : blockState b' = blockState b;
  bs_skip : skipErasedCheck b' = skipErasedCheck b;
  bs_shrink : hasShrinkHeader b' = hasShrinkHeader b;
  bs_seq : bi_sequenceNumber b' = bi_sequenceNumber b
}.

#[export] Instance block_same_refl : Reflexive block_same.
Proof. by constructor. Qed.
#[export] Instance block_same_trans : Transitive block_same.
Proof. intros a b c [] []. constructor; congruence. Qed.

(** The allocation state is the same. *)
Record frame {N} (s s' : State N) : Prop := {
  fr_infos : Forall2 block_same (blockInfo (blks s)) (blockInfo (blks s'));
  fr_bits : chunkBits (blks s') = chunkBits (blks s);
  fr_erased : nErasedBlocks (blks s') = nErasedBlocks (blks s);
  fr_ablock : allocationBlock (blks s') = allocationBlock (blks s);
  fr_apage : allocationPage (blks s') = allocationPage (blks s);
  fr_finder : allocationBlockFinder (blks s') = allocationBlockFinder (blks s);
  fr_free : nFreeChunks (blks s') = nFreeChunks (blks s);
  fr_dirty : currentDirtyChecker (blks s') = currentDirtyChecker (blks s);
  fr_skip : nonAggressiveSkip (blks s') = nonAggressiveSkip (blks s);
  fr_seq : dev_sequenceNumber (blks s') = dev_sequenceNumber (blks s);
  fr_oldest : oldestDirtySequence (blks s') = oldestDirtySequence (blks s);
  fr_gc : isDoingGC (blks s') = isDoingGC (blks s);
  fr_ckpt : ckpt s' = ckpt s
}.

#[export] Instance frame_refl {N} : Reflexive (@frame N).
Proof. constructor; done. Qed.
#[export] Instance frame_trans {N} : Transitive (@frame N).
Proof. intros a b c [] []. constructor; try congruence. by etransitivity. Qed.

(** States that agree in blocks and checkpoint are in frame. *)
Lemma frame_eq {N} (s s' : State N) : blks s' = blks s -> ckpt s' = ckpt s -> frame s s'.
Proof. intros Hb Hc. constructor; by rewrite ?Hb. Qed.

Lemma frame_with_info {N} (cfg : Config) blk bi bi' (s : State N) :
  blockInfo (blks s) !! index cfg blk = Some bi -> block_same bi bi' ->
  frame s (with_infos (<[index cfg blk := bi']> (blockInfo (blks s))) s).
Proof.
  intros Hb Hs. constructor; try done. unfold with_infos. simp_fields.
  apply Forall2_same_length_lookup. split; [by rewrite length_insert|].
  intros i x y Hx Hy. apply list_lookup_insert_Some in Hy as [(<- & <- & _)|[_ Hy]].
  - by simplify_eq.
  - by simplify_eq.
Qed.

Lemma frame_tables {N} cfg (s s' : State N) :
  frame s s' -> tables_ok cfg (blks s) -> tables_ok cfg (blks s').
Proof.
  intros [] [Hi Hb Hy]. constructor; rewrite ?fr_bits0; try done.
  rewrite <- Hi. f_equal. symmetry. by eapply Forall2_length.
Qed.

Lemma frame_lookup {N} (s s' : State N) i b :
  frame s s' -> blockInfo (blks s) !! i = Some b ->
  exists b', blockInfo (blks s') !! i = Some b' /\ block_same b b'.
Proof. intros [] Hb. by eapply Forall2_lookup_l in Hb. Qed.

(** The chunk numbers of the device. *)
Definition valid_chunk (cfg : Config) (c : Z) : Prop :=
  internalStartBlock cfg * nChunksPerBlock cfg <= c <
  (internalEndBlock cfg + 1) * nChunksPerBlock cfg.

Lemma valid_chunk_block cfg c :
  cfg_ok cfg -> valid_chunk cfg c -> valid_block cfg (Z.quot c (nChunksPerBlock cfg)) /\
  Z.quot c (nChunksPerBlock cfg) = c / nChunksPerBlock cfg /\
  Z.rem c (nChunksPerBlock cfg) = c mod nChunksPerBlock cfg.
Proof.
  intros [Hs He Hn _ _ _] [H1 H2].
  assert (0 <= c) by nia.
  rewrite Z.quot_div_nonneg, Z.rem_mod_nonneg by lia. split; [|done]. split.
  - apply Z.div_le_lower_bound; lia.
  - pose proof (Z.div_lt_upper_bound c (nChunksPerBlock cfg) (internalEndBlock cfg + 1)). lia.
Qed.

(** The allocation state is the same, and only one block can have new flags. *)
Definition frame_at {N} (cfg : Config) (blk : Z) (s s' : State N) : Prop :=
  frame s s' /\
  forall i, i <> index cfg blk -> blockInfo (blks s') !! i = blockInfo (blks s) !! i.

#[export] Instance frame_at_refl {N} cfg blk : Reflexive (@frame_at N cfg blk).
Proof. by split. Qed.
#[export] Instance frame_at_trans {N} cfg blk : Transitive (@frame_at N cfg blk).
Proof.
  intros a b c [Hf1 H1] [Hf2 H2]. split; [by etransitivity|].
  intros i Hi. by rewrite H2, H1.
Qed.

Lemma frame_at_eq {N} cfg blk (s s' : State N) :
  blks s' = blks s -> ckpt s' = ckpt s -> frame_at cfg blk s s'.
Proof. intros Hb Hc. split; [by apply frame_eq|]. by rewrite Hb. Qed.

(** A buffer of the size of a chunk, or none. *)
Definition buffer_ok (cfg : Config) (buffer : option (list Z)) : Prop :=
  forall b, buffer = Some b -> Z.of_nat (length b) = nDataBytesPerChunk cfg.

(** Two buffers of one length, or none. *)
Definition same_size (a b : option (list Z)) : Prop :=
  option_map (@length Z) a = option_map (@length Z) b.

(** The interface to the NAND layer: reading only leaves error flags on the block that
    was read and fills the buffer it is given; writing ends in success or failure, and
    writing and marking touch neither blocks nor checkpoint. *)
Class NandFrame {N} {nd : NandDriver N} (cfg : Config) : Prop := {
  nf_read : forall chunk buffer tags (s : State N),
    tables_ok cfg (blks s) -> valid_chunk cfg chunk -> buffer_ok cfg buffer ->
    wp (yaffs_ReadChunkWithTagsFromNAND cfg chunk buffer tags) (fun r s' =>
      frame_at cfg (Z.quot chunk (nChunksPerBlock cfg)) s s' /\
      same_size (snd (fst r)) buffer) s;
  nf_write : forall chunk buffer tags (s : State N),
    wp (yaffs_WriteChunkWithTagsToNAND cfg chunk buffer tags) (fun r s' =>
      (fst r = YAFFS_OK \/ fst r = YAFFS_FAIL) /\ blks s' = blks s /\ ckpt s' = ckpt s) s;
  nf_mark : forall blk (s : State N),
    wp (yaffs_MarkBlockBad cfg blk) (fun _ s' => blks s' = blks s /\ ckpt s' = ckpt s) s
}.
Arguments NandFrame {N} nd cfg.

Section frames.
Context {N : Type} {nd : NandDriver N} (cfg : Config) (Hcfg : cfg_ok cfg).
Implicit Types (s : State N).

(** Marking a block never touches anything but its flags. *)
Lemma wp_flag blk f bi s :
  internalStartBlock cfg <= blk -> blockInfo (blks s) !! index cfg blk = Some bi ->
  block_same bi (f bi) ->
  wp (set_block_info cfg blk f)
    (fun _ s' => frame_at cfg blk s s' /\ blockInfo (blks s') !! index cfg blk = Some (f bi)) s.
Proof.
  intros Hv Hb Hf. apply wp_set_block_info with bi; [done..|]. split; [split|].
  - by apply frame_with_info with bi.
  - intros i Hi. unfold with_infos. simp_fields. by rewrite list_lookup_insert_ne.
  - exact (list_lookup_insert_eq _ _ _ (lookup_lt_Some _ _ _ Hb)).
Qed.

Lemma HandleChunkError_frame blk s :
  tables_ok cfg (blks s) -> valid_block cfg blk ->
  wp (yaffs_HandleChunkError cfg blk) (fun _ s' => frame_at cfg blk s s') s.
Proof.
  intros Ht Hv. destruct (block_info_lookup cfg _ blk Ht Hv) as [bi Hbi].
  unfold valid_block in Hv. unfold yaffs_HandleChunkError, modB.
  apply wp_bind, wp_GetBlockInfo with bi; [lia|done|]. apply wp_when.
  destruct (gcPrioritise bi); simpl negb; [done|].
  eapply wp_seq; [eapply wp_flag; [lia|done|done]|].
  intros [] s1 [Hf1 Hb1]. wp_step. wp_step.
  set (s2 := s1 <| blks ::= fun b => b <| hasPendingPrioritisedGCs := true |> |>).
  assert (Hf2 : frame_at cfg blk s1 s2) by (by split; [constructor|]).
  eapply wp_seq.
  { eapply (wp_flag blk (fun bi => bi <| chunkErrorStrikes ::= fun n => wrap 3 (n + 1) |>) _ s2);
      [lia|exact Hb1|done]. }
  intros [] s3 [Hf3 Hb3]. apply wp_bind.
  eapply wp_GetBlockInfo; [lia|exact Hb3|]. apply wp_when.
  assert (Hf : frame_at cfg blk s s3) by (etransitivity; [|done]; by etransitivity).
  destruct (3 <? _); [|done].
  eapply wp_mono; [eapply wp_flag; [lia|done|by constructor]|].
  intros [] s4 [Hf4 _]. by etransitivity.
Qed.

Lemma on_nand_eq {A} (f : N -> A * N) s :
  wp (on_nand f) (fun _ s' => blks s' = blks s /\ ckpt s' = ckpt s) s.
Proof. by apply wp_on_nand. Qed.

(** The driver reports success or failure. *)
Definition reports_result : Prop := forall chunk data sp n,
  fst (drv_writeChunk chunk data sp n) = YAFFS_OK \/
  fst (drv_writeChunk chunk data sp n) = YAFFS_FAIL.

Lemma WriteChunkToNAND_eq chunk data sp s :
  reports_result ->
  wp (yaffs_WriteChunkToNAND cfg chunk data sp) (fun r s' =>
    (r = YAFFS_OK \/ r = YAFFS_FAIL) /\ blks s' = blks s /\ ckpt s' = ckpt s) s.
Proof.
  intros Hres. unfold yaffs_WriteChunkToNAND, modS. apply wp_if.
  destruct (_ <? _); [by split; [right|]|].
  wp_step. wp_step. apply wp_on_nand. split; [apply Hres|done].
Qed.

(** The error handling that follows a read. *)
Lemma read_error_frame chunk e s0 s :
  tables_ok cfg (blks s0) -> valid_chunk cfg chunk ->
  frame_at cfg (Z.quot chunk (nChunksPerBlock cfg)) s0 s ->
  wp (when (ecc_is_error e) (yaffs_HandleChunkError cfg (Z.quot chunk (nChunksPerBlock cfg))))
    (fun _ s' => frame_at cfg (Z.quot chunk (nChunksPerBlock cfg)) s0 s') s.
Proof.
  intros Ht Hc Hf. destruct (valid_chunk_block cfg chunk Hcfg Hc) as [Hv _].
  apply wp_when. destruct (ecc_is_error _); [|done].
  eapply wp_mono; [apply HandleChunkError_frame; [eapply frame_tables; [apply Hf|done]|done]|].
  intros [] s2 Hf2. by etransitivity.
Qed.

(** A driver that reads, writes and marks with tags, fills the buffer it is given and
    reports success or failure. *)
Definition tag_aware : Prop :=
  (exists f, drv_readChunkWithTags = Some f /\
    forall c b t n, same_size (snd (fst (fst (f c b t n)))) b) /\
  (exists f, drv_writeChunkWithTags = Some f /\
    forall c b t n, fst (f c b t n) = YAFFS_OK \/ fst (f c b t n) = YAFFS_FAIL) /\
  is_Some drv_markBlockBad.

(** The interface holds on any tag-aware driver, whatever the driver answers. *)
Lemma tag_aware_frame : tag_aware -> NandFrame nd cfg.
Proof.
  intros ((fr & Hr & Hsize) & (fw & Hw & Hres) & [fm Hm]). constructor.
  - intros chunk buffer tags s Ht Hc Hbuf.
    unfold yaffs_ReadChunkWithTagsFromNAND. rewrite Hr.
    specialize (Hsize (chunk - chunkOffset cfg) buffer tags (nand s)).
    apply wp_bind, wp_on_nand.
    destruct (fr (chunk - chunkOffset cfg) buffer tags (nand s)) as [[[r d] t] n].
    cbn [fst snd] in *. eapply wp_seq; [by apply (read_error_frame chunk _ s); [..|apply frame_at_eq]|].
    intros [] s1 Hf. apply wp_ret. done.
  - intros chunk buffer tags s. unfold yaffs_WriteChunkWithTagsToNAND, getB. rewrite Hw.
    wp_steps. apply wp_on_nand. wp_steps. split; [apply Hres|done].
  - intros blk s. unfold yaffs_MarkBlockBad. rewrite Hm. apply on_nand_eq.
Qed.

(** The compatibility layer keeps the interface on a device without offsets whose
    chunks have the 512 bytes of the code, if the driver fills the buffer and reports
    success or failure. *)
Definition fills_buffer : Prop := forall chunk data sp n,
  same_size (snd (fst (fst (drv_readChunk chunk data sp n)))) data.

Lemma HandleReadDataError_frame chunk s :
  tables_ok cfg (blks s) -> valid_chunk cfg chunk ->
  wp (yaffs_HandleReadDataError cfg chunk)
    (fun _ s' => frame_at cfg (Z.quot chunk (nChunksPerBlock cfg)) s s') s.
Proof.
  intros Ht Hc. destruct (valid_chunk_block cfg chunk Hcfg Hc) as [Hv _].
  destruct (block_info_lookup cfg _ _ Ht Hv) as [bi Hbi]. unfold valid_block in Hv.
  eapply wp_mono; [by eapply wp_flag; [lia|done|]|]. by intros [] s' [Hf _].
Qed.

Lemma count_ecc_eq r s :
  wp (count_ecc r) (fun _ s' => blks s' = blks s /\ ckpt s' = ckpt s) s.
Proof.
  unfold count_ecc, modS. apply wp_if. destruct (0 <? r); [done|].
  apply wp_when. by destruct (r <? 0).
Qed.

Lemma ECCCorrect_length d e1 e2 : length (snd (fst (yaffs_ECCCorrect d e1 e2))) = length d.
Proof.
  unfold yaffs_ECCCorrect. repeat case_match; simpl; try done. apply flip_bit_length.
Qed.

Lemma correct_page_total d sp :
  512 <= Z.of_nat (length d) ->
  exists r1 r2 d' sp', correct_page d sp = Some (r1, r2, d', sp') /\ length d' = length d.
Proof.
  intros Hl. unfold correct_page. rewrite (proj2 (Z.ltb_ge _ _)) by done.
  pose proof (ECCCorrect_length (take 256 d) (spare_ecc1 sp) (yaffs_ECCCalculate (take 256 d))) as H1.
  pose proof (ECCCorrect_length (take 256 (drop 256 d)) (spare_ecc2 sp)
    (yaffs_ECCCalculate (take 256 (drop 256 d)))) as H2.
  destruct (yaffs_ECCCorrect (take 256 d) _ _) as [[r1 d1] e1].
  destruct (yaffs_ECCCorrect (take 256 (drop 256 d)) _ _) as [[r2 d2] e2].
  cbn [fst snd] in *. eexists _, _, _, _. split; [done|].
  rewrite length_take in H1. rewrite length_take, length_drop in H2.
  rewrite !length_app, length_drop. lia.
Qed.

Lemma compat_read_frame chunk data sp s :
  fills_buffer -> 512 <= nDataBytesPerChunk cfg -> buffer_ok cfg data ->
  tables_ok cfg (blks s) -> valid_chunk cfg chunk ->
  wp (yaffs_ReadChunkFromNAND cfg chunk data sp true) (fun r s' =>
    frame_at cfg (Z.quot chunk (nChunksPerBlock cfg)) s s' /\
    same_size (snd (fst (fst r))) data) s.
Proof.
  intros Hfill Hn Hbuf Ht Hc. unfold yaffs_ReadChunkFromNAND, modS. wp_step. wp_step. wp_step.
  apply wp_on_nand. simp_fields. pose proof (Hfill chunk data sp (nand s)) as Hsize.
  destruct (drv_readChunk chunk data sp (nand s)) as [[[r d] nsp] n]. cbn [fst snd] in *.
  set (s1 := _ <| nand := n |>).
  set (blk := Z.quot chunk (nChunksPerBlock cfg)).
  assert (Hf1 : frame_at cfg blk s s1) by (by apply frame_at_eq).
  assert (Herr : forall r1 r2 (s2 : State N), frame_at cfg blk s s2 ->
    wp (when (ztrue r1 || ztrue r2) (yaffs_HandleReadDataError cfg chunk))
      (fun _ s' => frame_at cfg blk s s') s2).
  { intros r1 r2 s2 Hf. apply wp_when. destruct (_ || _); [|done].
    eapply wp_mono; [apply HandleReadDataError_frame; [eapply frame_tables; [apply Hf|done]|done]|].
    intros [] s3 Hf3. by etransitivity. }
  destruct d as [d|]; [|done]. cbn [negb].
  assert (Hd : 512 <= Z.of_nat (length d)).
  { destruct data as [b|]; [|done]. specialize (Hbuf b eq_refl). injection Hsize as ->. lia. }
  destruct (useNANDECC cfg); cbn [negb].
  - eapply wp_seq; [by apply Herr|]. intros [] s2 Hf2. by apply wp_ret.
  - destruct (correct_page_total d (ns_spare nsp) Hd) as (r1 & r2 & d' & sp' & Hcp & Hl).
    wp_step. apply wp_of_option with (r1, r2, d', sp'); [done|].
    eapply wp_seq; [apply count_ecc_eq|]. intros [] s2 [Hb2 Hc2].
    eapply wp_seq; [apply count_ecc_eq|]. intros [] s3 [Hb3 Hc3].
    eapply wp_seq.
    { apply (Herr r1 r2). etransitivity; [exact Hf1|]. apply frame_at_eq; congruence. }
    intros [] s4 Hf4. apply wp_ret. split; [done|].
    unfold same_size in *. cbn [fst snd option_map] in *. congruence.
Qed.

Lemma compat_frame :
  drv_readChunkWithTags = None -> drv_writeChunkWithTags = None -> drv_markBlockBad = None ->
  chunkOffset cfg = 0 -> 512 <= nDataBytesPerChunk cfg -> fills_buffer -> reports_result ->
  NandFrame nd cfg.
Proof.
  intros Hr Hw Hm Hoff Hn Hfill Hres. constructor.
  - intros chunk buffer tags s Ht Hc Hbuf. set (blk := Z.quot chunk (nChunksPerBlock cfg)).
    unfold yaffs_ReadChunkWithTagsFromNAND. rewrite Hr, Hoff, Z.sub_0_r.
    apply (wp_seq _ _ (fun r s' => frame_at cfg blk s s' /\ same_size (snd (fst r)) buffer)).
    { unfold yaffs_TagsCompatabilityReadChunkWithTagsFromNAND.
      eapply wp_seq; [by apply compat_read_frame|]. intros [[[r d] sp] e] s1 [Hf1 Hd].
      destruct (ztrue r); [|done]. destruct (bool_decide _); [|done].
      apply (wp_seq _ _ (fun _ s' => frame_at cfg blk s s')); [|by intros t s2 Hf2].
      unfold yaffs_GetTagsFromSpare. destruct (yaffs_CheckECCOnTags _) as [res t].
      unfold modS. destruct (0 <? res); [wp_steps; etransitivity; [exact Hf1|by apply frame_at_eq]|].
      wp_step. wp_step.
      destruct (res <? 0); wp_steps; [etransitivity; [exact Hf1|by apply frame_at_eq]|done]. }
    intros r s1 [Hf1 Hd].
    eapply wp_seq; [by apply (read_error_frame chunk _ s)|].
    intros [] s2 Hf. apply wp_ret. done.
  - intros chunk buffer tags s. unfold yaffs_WriteChunkWithTagsToNAND, getB. rewrite Hw.
    wp_step. wp_step. unfold yaffs_TagsCompatabilityWriteChunkWithTagsToNAND.
    eapply wp_seq; [by apply WriteChunkToNAND_eq|]. intros r s1 Hf. by apply wp_ret.
  - intros blk s. unfold yaffs_MarkBlockBad, yaffs_TagsCompatabilityMarkNANDBlockBad. rewrite Hm.
    eapply wp_seq; [by apply WriteChunkToNAND_eq|]. intros r s1 (_ & H1 & H1').
    eapply wp_seq; [by apply WriteChunkToNAND_eq|]. intros r' s2 (_ & H2 & H2').
    apply wp_ret. split; congruence.
Qed.

Lemma EraseBlock_eq blk s :
  wp (yaffs_EraseBlockInNAND cfg blk) (fun _ s' => blks s' = blks s /\ ckpt s' = ckpt s) s.
Proof. unfold yaffs_EraseBlockInNAND, modS. wp_step. wp_step. by apply wp_on_nand. Qed.
End frames.

(** ** A flipped bit on a device without an own reader *)

(** The bookkeeping of an error on a block. *)
Definition struck (bi : BlockInfo) : BlockInfo :=
  if gcPrioritise bi then bi else
  let bi := bi <| gcPrioritise := true |> <| chunkErrorStrikes ::= fun n => wrap 3 (n + 1) |> in
  if 3 <? chunkErrorStrikes bi then bi <| needsRetiring := true |> else bi.

Section corrects.
Context {N : Type} {nd : NandDriver N} (cfg : Config).
Implicit Types (s : State N).

Lemma HandleChunkError_eq blk bi s :
  internalStartBlock cfg <= blk -> blockInfo (blks s) !! index cfg blk = Some bi ->
  wp (yaffs_HandleChunkError cfg blk) (fun _ s' => stats s' = stats s /\
    blockInfo (blks s') = alter struck (index cfg blk) (blockInfo (blks s))) s.
Proof.
  intros Hv Hbi. unfold yaffs_HandleChunkError, modB.
  assert (Hl : (index cfg blk < length (blockInfo (blks s)))%nat) by (by eapply lookup_lt_Some).
  assert (Halt : alter struck (index cfg blk) (blockInfo (blks s)) =
    <[index cfg blk := struck bi]> (blockInfo (blks s))).
  { apply list_eq. intros i. rewrite list_lookup_alter. destruct (decide (i = index cfg blk)) as [->|Hne].
    - rewrite decide_True, list_lookup_insert_eq, Hbi by done. done.
    - rewrite decide_False, list_lookup_insert_ne by done. done. }
  rewrite Halt. apply wp_bind, wp_GetBlockInfo with bi; [done..|]. apply wp_when. unfold struck.
  destruct (gcPrioritise bi); simpl negb; cbv iota.
  { split; [done|]. by rewrite list_insert_id. }
  apply wp_bind, wp_set_block_info with bi; [done..|]. apply wp_bind, wp_modify.
  apply wp_bind. eapply wp_set_block_info; [done|by apply list_lookup_insert_eq|].
  apply wp_bind. eapply wp_GetBlockInfo; [done| |].
  { unfold with_infos. simp_fields. apply list_lookup_insert_eq. by rewrite length_insert. }
  apply wp_when. cbv zeta. destruct (3 <? _).
  - eapply wp_set_block_info; [done|unfold with_infos; simp_fields; apply list_lookup_insert_eq; by rewrite !length_insert|].
    split; [done|]. unfold with_infos. simp_fields. by rewrite !list_insert_insert_eq.
  - split; [done|]. unfold with_infos. simp_fields. by rewrite list_insert_insert_eq.
Qed.

(** C38. On a device that reads through the YAFFS1 compatibility layer with software ECC, a
    page that was written by that layer and comes back with one data bit flipped by the
    medium is read as written: the data, the identification and the serial number, with the
    result flagged as fixed.  The block of the chunk gets a strike and is prioritised for
    collection; and the block of the number the driver was given, [chunkOffset] less, is
    marked for retirement.  On a device without an offset that is the block of the chunk;
    on a device with an offset it is an earlier one. *)
Theorem TagsCompat_read_corrects (chunk : Z) (d : list Z) (k : nat) (j : Z) (eTags t0 : ExtendedTags)
    (data0 : option (list Z)) (r e1 e2 : Z) (n' : N) (s : State N) :
  let own := Z.quot chunk (nChunksPerBlock cfg) in
  let marked := Z.quot (chunk - chunkOffset cfg) (nChunksPerBlock cfg) in
  drv_readChunkWithTags = None -> useNANDECC cfg = false ->
  tables_ok cfg (blks s) -> valid_block cfg own -> valid_block cfg marked ->
  chunkDeleted eTags = 0 -> tags1_ok eTags -> 0 <= stack_unused < 4 ->
  bytes d -> length d = 512%nat -> (k < 512)%nat -> 0 <= j < 8 -> r <> 0 ->
  drv_readChunk (chunk - chunkOffset cfg) data0 stack_spare (nand s) =
    (r, Some (flip_bit k j d), MkNANDSpare (compat_spare cfg (Some d) eTags) e1 e2, n') ->
  wp (yaffs_ReadChunkWithTagsFromNAND cfg chunk data0 t0) (fun '(res, data, t) s' =>
    res = YAFFS_OK /\ data = Some d /\
    objectId t = objectId eTags /\ chunkId t = chunkId eTags /\
    byteCount t = byteCount eTags /\ serialNumber t = serialNumber eTags /\
    chunkUsed t = 1 /\ chunkDeleted t = 0 /\ eccResult t = ECC_RESULT_FIXED /\
    eccFixed (stats s') = eccFixed (stats s) + 1 /\
    blockInfo (blks s') = alter struck (index cfg own)
      (alter (fun bi => bi <| needsRetiring := true |>) (index cfg marked) (blockInfo (blks s))) /\
    (chunkOffset cfg = 0 -> exists bi, blockInfo (blks s') !! index cfg own = Some bi /\
      needsRetiring bi = true)) s.
Proof.
  intros own marked Hno Hecc Htab Hown Hmark Hdel Htags Hu Hb Hl Hk Hj Hr Hdrv.
  destruct (block_info_lookup cfg _ _ Htab Hown) as [bo Hbo].
  destruct (block_info_lookup cfg _ _ Htab Hmark) as [bm Hbm].
  unfold yaffs_ReadChunkWithTagsFromNAND. rewrite Hno.
  eapply wp_seq; [apply (compat_read_fixes cfg (chunk - chunkOffset cfg) d k j eTags t0 data0 r e1 e2 n' s bm);
    try done; unfold valid_block in *; tauto|].
  intros [[res data] t] s1 (-> & -> & Ho & Hc & Hcnt & Hser & Hus & Hcd & He & Hst & Hbs).
  fold marked in Hbs. cbn [snd]. rewrite He. change (ecc_is_error ECC_RESULT_FIXED) with true.
  set (mark := fun bi => bi <| needsRetiring := true |>).
  assert (Halt : blockInfo (blks s1) = alter mark (index cfg marked) (blockInfo (blks s))).
  { rewrite Hbs. apply list_eq. intros i. rewrite list_lookup_alter.
    destruct (decide (i = index cfg marked)) as [->|Hne].
    - rewrite decide_True, list_lookup_insert_eq, Hbm by (done || by eapply lookup_lt_Some). done.
    - by rewrite decide_False, list_lookup_insert_ne by done. }
  assert (Hown1 : exists b1, blockInfo (blks s1) !! index cfg own = Some b1 /\
    (chunkOffset cfg = 0 -> needsRetiring b1 = true)).
  { rewrite Halt, list_lookup_alter. destruct (decide (index cfg marked = index cfg own)) as [Heq|Hne].
    - rewrite Hbm. by eexists.
    - exists bo. split; [done|]. intros H0. destruct Hne. unfold own, marked.
      by rewrite H0, Z.sub_0_r. }
  destruct Hown1 as (b1 & Hb1 & Hret).
  eapply wp_seq; [apply (HandleChunkError_eq own b1 s1); [unfold valid_block in Hown; lia|done]|].
  intros [] s2 [Hst2 Hbs2]. apply wp_ret. rewrite Hst2. do 10 (split; [done|]).
  rewrite Hbs2. split; [by rewrite Halt|]. intros H0. rewrite list_lookup_alter, decide_True, Hb1 by done.
  eexists. split; [done|]. specialize (Hret H0). unfold struck.
  destruct (gcPrioritise b1); [done|]. simp_fields. by destruct (3 <? _).
Qed.
End corrects.

Lemma TagsCompat_read_corrects_witness :
  wp (@yaffs_ReadChunkWithTagsFromNAND _ page_driver sample_cfg 9 None zero_tags)
    (fun '(res, data, t) s' =>
      res = YAFFS_OK /\ data = Some sample_page /\
      objectId t = objectId sample_etags /\ chunkId t = chunkId sample_etags /\
      byteCount t = byteCount sample_etags /\ serialNumber t = serialNumber sample_etags /\
      chunkUsed t = 1 /\ chunkDeleted t = 0 /\ eccResult t = ECC_RESULT_FIXED /\
      eccFixed (stats s') = eccFixed (stats sample_damaged) + 1 /\
      blockInfo (blks s') = alter struck 1%nat (alter (fun bi => bi <| needsRetiring := true |>) 1%nat
        (blockInfo (blks sample_damaged))) /\
      (chunkOffset sample_cfg = 0 -> exists bi, blockInfo (blks s') !! 1%nat = Some bi /\
        needsRetiring bi = true))
    sample_damaged.
Proof.
  apply (@TagsCompat_read_corrects _ page_driver sample_cfg 9 sample_page 300 6
    sample_etags zero_tags None 1 0 0 (nand sample_damaged) sample_damaged).
  - reflexivity.
  - reflexivity.
  - constructor; [reflexivity|reflexivity|repeat constructor; vm_compute; congruence].
  - unfold valid_block. vm_compute. by split.
  - unfold valid_block. vm_compute. by split.
  - reflexivity.
  - unfold tags1_ok, sample_etags, sample_tags1; simp_fields. simpl. lia.
  - simpl. lia.
  - exact sample_page_bytes.
  - reflexivity.
  - lia.
  - lia.
  - lia.
  - reflexivity.
Defined.
