(* ===== verification/Sim.v ===== *)
(** * A simulated medium

    A driver on which the examples of the other files run: a map from page numbers
    to data and tags, with blocks of [sim_pages] pages.  It stands for no code of
    the repository; it shows that the interface [NandFrame] can be met. *)
From S2P Require Import Prelude Monad Tags Device TagsCompat Nand.

Definition Flash : Type := gmap Z (list Z * ExtendedTags).
Definition sim_pages : Z := 4.

Definition sim_read (c : Z) (buffer : option (list Z)) (t : ExtendedTags) (f : Flash)
    : Z * option (list Z) * ExtendedTags * Flash :=
  match f !! c with
  | Some (d, t') => (1, (fun b => resize (length b) 255 d) <$> buffer,
      t' <| eccResult := ECC_RESULT_NO_ERROR |>, f)
  | None => (1, (fun b => replicate (length b) 255) <$> buffer,
      zero_tags <| eccResult := ECC_RESULT_NO_ERROR |> <| sequenceNumber := 0xFFFFFFFF |>, f)
  end.

Definition sim_write (c : Z) (buffer : option (list Z)) (t : ExtendedTags) (f : Flash) : Z * Flash :=
  (1, <[c := (default [] buffer, t)]> f).

Definition sim_erase (blk : Z) (f : Flash) : Z * Flash :=
  (1, foldr (fun c => delete c) f (seqZ (blk * sim_pages) sim_pages)).

#[export] Instance sim_driver : NandDriver Flash := {|
  drv_initialise f := (1, f);
  drv_eraseBlock := sim_erase;
  drv_writeChunk _ _ _ f := (0, f);
  drv_readChunk _ data sp f := (0, data, sp, f);
  drv_writeChunkWithTags := Some sim_write;
  drv_readChunkWithTags := Some sim_read;
  drv_markBlockBad := Some (fun _ f => (1, f));
  drv_queryBlock := Some (fun _ f => (1, BLOCK_STATE_EMPTY, 0, f));
  stack_tags := zero_tags;
  stack_spare := MkNANDSpare yaffs_SpareInitialise 0 0;
  stack_data := [];
  stack_ecc := ECC_RESULT_UNKNOWN;
  stack_unused := 0
|}.

Lemma sim_tag_aware : tag_aware (nd := sim_driver).
Proof.
  split; [|split]; [exists sim_read|exists sim_write|by eexists]; split; try done.
  - intros c b t f. unfold sim_read, same_size.
    destruct (f !! c) as [[d t']|]; destruct b as [b|]; simpl; try done.
    + by rewrite length_resize.
    + by rewrite length_replicate.
  - intros c b t f. by left.
Qed.

#[export] Instance sim_frame : NandFrame sim_driver sample_cfg.
Proof. apply tag_aware_frame; [apply sample_cfg_ok|apply sim_tag_aware]. Qed.

Lemma sim_can_mark : is_Some (drv_markBlockBad (NandDriver := sim_driver)).
Proof. by eexists. Qed.

(** The sample device on an erased medium. *)
Definition sample_state : State Flash := MkState sample_blocks sample_ckpt zero_stats ∅.
