(* ===== verification/BlockInv.v ===== *)
(** * The allocation invariant

    What every operation on blocks and chunks keeps: the tables have the sizes of
    the device, each block's count of pages in use is the number of its bits in
    the bitmap, the counters of erased blocks and of free chunks are the sums over
    the blocks, and the allocator points at the one block being filled.  [pe] and
    [pf] are by how many erased blocks and free chunks the counters run ahead of the
    blocks, while a checkpoint is being written (its blocks are subtracted only when
    it is closed) and while a block that became dirty is being erased. *)
From S2P Require Import Prelude Monad Tags Device Nand.

(** A block state that the counters of free chunks include. *)
Definition counted_state (st : BlockState) : bool :=
  match st with
  | BLOCK_STATE_EMPTY | BLOCK_STATE_ALLOCATING | BLOCK_STATE_COLLECTING | BLOCK_STATE_FULL => true
  | _ => false
  end.

(** The states of a block of a mounted device. *)
Definition runtime_state (st : BlockState) : bool :=
  match st with
  | BLOCK_STATE_CHECKPOINT | BLOCK_STATE_DEAD | BLOCK_STATE_DIRTY => true
  | _ => counted_state st
  end.

Section inv.
Context (cfg : Config) (Hcfg : cfg_ok cfg).
Let n := nChunksPerBlock cfg.

(** The soft deletions that count: the collector takes those of the block it works on off
    the free chunks before it starts, and a dirty or a dead block keeps a stale number. *)
Definition soft_of (bi : BlockInfo) : Z :=
  match blockState bi with
  | BLOCK_STATE_COLLECTING | BLOCK_STATE_DIRTY | BLOCK_STATE_DEAD => 0
  | _ => softDeletions bi
  end.

(** The free chunks a block contributes. *)
Definition free_of (bi : BlockInfo) : Z :=
  if counted_state (blockState bi) then n - pagesInUse bi + soft_of bi else 0.
Definition empty_ind (bi : BlockInfo) : Z := ind (is_state (blockState bi) BLOCK_STATE_EMPTY).

(** A block whose bitmap has [u] bits set. *)
Record block_ok (u : Z) (bi : BlockInfo) : Prop := {
  bk_pages : pagesInUse bi = u;
  bk_soft : 0 <= soft_of bi <= pagesInUse bi;
  bk_empty : blockState bi = BLOCK_STATE_EMPTY \/ blockState bi = BLOCK_STATE_CHECKPOINT \/
    blockState bi = BLOCK_STATE_DIRTY \/ blockState bi = BLOCK_STATE_DEAD -> pagesInUse bi = 0;
  bk_state : runtime_state (blockState bi) = true
}.

(** The allocator: the block being filled is the only one in that state, and the
    chunks it has not handed out yet are free. *)
Record allocator_ok (b : Blocks) : Prop := {
  al_block : allocationBlock b = -1 \/ valid_block cfg (allocationBlock b);
  al_state : forall blk bi, valid_block cfg blk -> blockInfo b !! index cfg blk = Some bi ->
    (blockState bi = BLOCK_STATE_ALLOCATING <-> blk = allocationBlock b);
  al_page : valid_block cfg (allocationBlock b) -> 0 <= allocationPage b < n;
  al_free : valid_block cfg (allocationBlock b) -> forall c, allocationPage b <= c < n ->
    chunk_bit cfg (chunkBits b) (knum cfg (allocationBlock b)) c = false
}.

Record blocks_ok (pe pf : Z) (b : Blocks) : Prop := {
  ok_tables : tables_ok cfg b;
  ok_block : forall blk bi, valid_block cfg blk -> blockInfo b !! index cfg blk = Some bi ->
    block_ok (used cfg (chunkBits b) (knum cfg blk)) bi;
  ok_alloc : allocator_ok b;
  ok_erased : nErasedBlocks b = sumZ empty_ind (blockInfo b) + pe;
  ok_free : nFreeChunks b = sumZ free_of (blockInfo b) + pf
}.

(** ** Indices *)

Lemma index_inj blk blk' :
  valid_block cfg blk -> valid_block cfg blk' -> index cfg blk = index cfg blk' -> blk = blk'.
Proof. unfold valid_block, index. lia. Qed.

Lemma lookup_index b i bi :
  tables_ok cfg b -> blockInfo b !! i = Some bi ->
  valid_block cfg (internalStartBlock cfg + Z.of_nat i) /\
  index cfg (internalStartBlock cfg + Z.of_nat i) = i.
Proof.
  intros [Hl _ _] Hi%lookup_lt_Some. unfold valid_block, index, nBlocks in *. lia.
Qed.

Lemma lookup_insert_block (l : list BlockInfo) blk bi bi' blk' x :
  valid_block cfg blk -> valid_block cfg blk' -> l !! index cfg blk = Some bi ->
  <[index cfg blk := bi']> l !! index cfg blk' = Some x ->
  (blk' = blk /\ x = bi') \/ (blk' <> blk /\ l !! index cfg blk' = Some x).
Proof.
  intros Hv Hv' Hb Hx. apply list_lookup_insert_Some in Hx as [(He & <- & _)|[Hne Hx]].
  - left. by apply index_inj in He as ->.
  - right. split; [|done]. by intros ->.
Qed.

(** ** Changing one block *)

(** The bits of the other blocks are the same. *)
Definition other_bits (bits bits' : list Z) (blk : Z) : Prop :=
  length bits' = length bits /\ bytes bits' /\
  forall k c, 0 <= k < nBlocks cfg -> 0 <= c < n -> k <> knum cfg blk ->
    chunk_bit cfg bits' k c = chunk_bit cfg bits k c.

Lemma other_bits_refl b blk : tables_ok cfg b -> other_bits (chunkBits b) (chunkBits b) blk.
Proof. intros [_ _ Hb]. by split. Qed.

Lemma bit_changed_other bits bits' blk c v :
  bit_changed cfg bits bits' blk c v -> other_bits bits bits' blk.
Proof.
  intros (Hl & Hb & Hc). split; [done|]. split; [done|]. intros k c' Hk Hc' Hne.
  rewrite Hc by done. unfold bit_at. by rewrite (proj2 (Z.eqb_neq _ _) Hne).
Qed.

Lemma blocks_ok_change pe pe' pf pf' b b' blk bi bi' :
  blocks_ok pe pf b -> valid_block cfg blk -> blockInfo b !! index cfg blk = Some bi ->
  blockInfo b' = <[index cfg blk := bi']> (blockInfo b) ->
  other_bits (chunkBits b) (chunkBits b') blk ->
  block_ok (used cfg (chunkBits b') (knum cfg blk)) bi' ->
  nErasedBlocks b' = nErasedBlocks b - empty_ind bi + empty_ind bi' + (pe' - pe) ->
  nFreeChunks b' = nFreeChunks b - free_of bi + free_of bi' + (pf' - pf) ->
  allocator_ok b' -> blocks_ok pe' pf' b'.
Proof.
  intros Hok Hv Hbi Hinfos (Hlen & Hbytes & Hbits) Hblk He Hf Ha.
  destruct Hok as [[Htl Htb Hty] Hblocks _ Herased Hfree].
  constructor; [| |done|..].
  - constructor; [by rewrite Hinfos, length_insert|by rewrite Hlen|done].
  - intros blk' x Hv' Hx. rewrite Hinfos in Hx.
    apply (lookup_insert_block _ _ bi) in Hx as [[-> ->]|[Hne Hx]]; try done.
    assert (Hu : used cfg (chunkBits b') (knum cfg blk') = used cfg (chunkBits b) (knum cfg blk')).
    { apply used_ext. intros c Hc. apply Hbits; [by apply knum_range|done|].
      unfold knum. intros H. apply Hne. lia. }
    rewrite Hu. by apply Hblocks.
  - rewrite He, Hinfos, (sumZ_insert _ _ _ _ _ Hbi), Herased. lia.
  - rewrite Hf, Hinfos, (sumZ_insert _ _ _ _ _ Hbi), Hfree. lia.
Qed.

(** The allocator part when the changed block is not, and does not become, the block
    being filled. *)
Lemma allocator_ok_change b b' blk bi bi' :
  allocator_ok b -> valid_block cfg blk -> blockInfo b !! index cfg blk = Some bi ->
  blockInfo b' = <[index cfg blk := bi']> (blockInfo b) ->
  other_bits (chunkBits b) (chunkBits b') blk ->
  allocationBlock b' = allocationBlock b -> allocationPage b' = allocationPage b ->
  blockState bi <> BLOCK_STATE_ALLOCATING -> blockState bi' <> BLOCK_STATE_ALLOCATING ->
  allocator_ok b'.
Proof.
  intros [Hb Hs Hp Hf] Hv Hbi Hinfos (_ & _ & Hbits) Hab Hap Hn Hn'.
  assert (Hne : allocationBlock b <> blk).
  { intros <-. by apply Hn, (Hs _ bi Hv). }
  constructor; rewrite ?Hab, ?Hap; try done.
  - intros blk' x Hv' Hx. rewrite Hinfos in Hx.
    apply (lookup_insert_block _ _ bi) in Hx as [[-> ->]|[Hne' Hx]]; try done.
    by apply Hs.
  - intros Hva c Hc. rewrite Hbits; [by apply Hf|by apply knum_range| |].
    + destruct (Hp Hva). lia.
    + unfold knum. intros H. apply Hne. lia.
Qed.

(** The allocator part when a block keeps its state and bits are only cleared. *)
Lemma allocator_ok_clear b b' blk bi bi' :
  allocator_ok b -> valid_block cfg blk -> blockInfo b !! index cfg blk = Some bi ->
  blockInfo b' = <[index cfg blk := bi']> (blockInfo b) -> blockState bi' = blockState bi ->
  (forall k c, 0 <= k < nBlocks cfg -> 0 <= c < n ->
    chunk_bit cfg (chunkBits b) k c = false -> chunk_bit cfg (chunkBits b') k c = false) ->
  allocationBlock b' = allocationBlock b -> allocationPage b' = allocationPage b ->
  allocator_ok b'.
Proof.
  intros [Hb Hs Hp Hf] Hv Hbi Hinfos Hst Hbits Hab Hap.
  constructor; rewrite ?Hab, ?Hap; try done.
  - intros blk' x Hv' Hx. rewrite Hinfos in Hx.
    apply (lookup_insert_block _ _ bi) in Hx as [[-> ->]|[Hne' Hx]]; try done.
    + rewrite Hst. by apply Hs.
    + by apply Hs.
  - intros Hva c Hc. apply Hbits; [by apply knum_range| |by apply Hf].
    destruct (Hp Hva). lia.
Qed.

(** Moving the counters alone. *)
Lemma blocks_ok_counters pe pe' pf pf' b b' :
  blocks_ok pe pf b -> blockInfo b' = blockInfo b -> chunkBits b' = chunkBits b ->
  allocationBlock b' = allocationBlock b -> allocationPage b' = allocationPage b ->
  nErasedBlocks b' = nErasedBlocks b + (pe' - pe) ->
  nFreeChunks b' = nFreeChunks b + (pf' - pf) -> blocks_ok pe' pf' b'.
Proof.
  intros [[T1 T2 T3] Hb [A1 A2 A3 A4] He Hf] Hi Hc Hab Hap He' Hf'.
  constructor; rewrite ?Hi, ?Hc; try done; try lia.
  - by constructor; rewrite ?Hi, ?Hc.
  - by constructor; rewrite ?Hi, ?Hc, ?Hab, ?Hap.
Qed.

(** The invariant speaks of nothing that an error flag touches. *)
Lemma block_same_ok u bi bi' : block_same bi bi' -> block_ok u bi -> block_ok u bi'.
Proof. intros [Hs Hp Hst _ _ _] []. unfold soft_of in *. constructor; unfold soft_of; by rewrite ?Hs, ?Hp, ?Hst. Qed.

Lemma sumZ_Forall2 {A} (R : A -> A -> Prop) (f : A -> Z) l l' :
  (forall x y, R x y -> f x = f y) -> Forall2 R l l' -> sumZ f l = sumZ f l'.
Proof. intros Hf. induction 1 as [|x y l l' Hx _ IH]; [done|]. by rewrite !sumZ_cons, IH, (Hf x y). Qed.

Lemma frame_ok {N} pe pf (s s' : State N) :
  frame s s' -> blocks_ok pe pf (blks s) -> blocks_ok pe pf (blks s').
Proof.
  intros Hfr [Ht Hb [Ab As Ap Af] He Hf].
  assert (Hback : forall i b', blockInfo (blks s') !! i = Some b' ->
    exists b, blockInfo (blks s) !! i = Some b /\ block_same b b').
  { intros i b' Hi. by eapply Forall2_lookup_r in Hi; [|apply Hfr]. }
  constructor.
  - by eapply frame_tables.
  - intros blk bi' Hv Hi. destruct (Hback _ _ Hi) as (bi & Hbi & Hs).
    rewrite (fr_bits _ _ Hfr). eapply block_same_ok; [done|]. by apply Hb.
  - constructor; rewrite ?(fr_bits _ _ Hfr), ?(fr_ablock _ _ Hfr), ?(fr_apage _ _ Hfr); try done.
    intros blk bi' Hv Hi. destruct (Hback _ _ Hi) as (bi & Hbi & Hs).
    rewrite (bs_state _ _ Hs). by apply (As blk bi).
  - rewrite (fr_erased _ _ Hfr), He. f_equal. eapply sumZ_Forall2; [|apply Hfr].
    intros x y [_ _ Hst _ _ _]. unfold empty_ind. by rewrite Hst.
  - rewrite (fr_free _ _ Hfr), Hf. f_equal. eapply sumZ_Forall2; [|apply Hfr].
    intros x y [Hs Hp Hst _ _ _]. unfold free_of, soft_of. by rewrite Hst, Hp, Hs.
Qed.

(** A block that is counted as free has chunks to give. *)
Lemma pages_range pe pf b blk bi :
  blocks_ok pe pf b -> valid_block cfg blk -> blockInfo b !! index cfg blk = Some bi ->
  0 <= pagesInUse bi <= n.
Proof.
  intros Hok Hv Hb. rewrite (bk_pages _ _ (ok_block _ _ _ Hok blk bi Hv Hb)).
  by apply used_range.
Qed.

Lemma get_block pe pf b blk :
  blocks_ok pe pf b -> valid_block cfg blk -> exists bi, blockInfo b !! index cfg blk = Some bi.
Proof. intros Hok Hv. by apply block_info_lookup, Hv; apply Hok. Qed.
End inv.
