(* ===== verification/Checkptrw.v ===== *)
(** * The checkpoint stream: [yaffs_checkptrw.c]

    A checkpoint is a stream of bytes kept in blocks of its own.  The functions
    call the driver directly, so a driver without the tag-aware functions makes
    them fail; [yaffs_CheckpointOpen] refuses such a driver. *)
From S2P Require Import Prelude Monad Tags Device Nand BlockInv.

Definition YAFFS_SEQUENCE_CHECKPOINT_DATA : Z := 0x21.

Section checkptrw.
Context {N : Type} {nd : NandDriver N} (cfg : Config).
Local Abbreviation St := (State N).

Definition yaffs_CheckpointSpaceOk : M St bool :=
  erased ← getB nErasedBlocks;
  let blocksAvailable := erased - nReservedBlocks cfg in
  mret (negb (blocksAvailable <=? 0)).

(** One block of the loop of [yaffs_CheckpointErase]. *)
Definition checkpoint_erase_block (i : Z) : M St unit :=
  bi ← yaffs_GetBlockInfo cfg i;
  when (is_state (blockState bi) BLOCK_STATE_CHECKPOINT) (
    erased ← on_nand (drv_eraseBlock (i - blockOffset cfg));
    if ztrue erased then
      _ ← set_block_info cfg i (fun bi => bi <| blockState := BLOCK_STATE_EMPTY |>);
      _ ← modB (fun b => b <| nErasedBlocks ::= Z.succ |>);
      modB (fun b => b <| nFreeChunks ::= fun f => f + nChunksPerBlock cfg |>)
    else
      mark ← of_option drv_markBlockBad;
      _ ← on_nand (mark i);
      set_block_info cfg i (fun bi => bi <| blockState := BLOCK_STATE_DEAD |>)).

Definition yaffs_CheckpointErase : M St Z :=
  _ ← for_each (seqZ (internalStartBlock cfg) (nBlocks cfg)) checkpoint_erase_block;
  _ ← modC (fun c => c <| blocksInCheckpoint := 0 |>);
  mret 1.

Definition yaffs_CheckpointFindNextErasedBlock : M St unit :=
  erased ← getB nErasedBlocks;
  next ← getC checkpointNextBlock;
  let blocksAvailable := erased - nReservedBlocks cfg in
  let none :=
    modC (fun c => c <| checkpointNextBlock := -1 |> <| checkpointCurrentBlock := -1 |>) in
  if (0 <=? next) && (next <=? internalEndBlock cfg) && (0 <? blocksAvailable) then
    r ← for_break (seqZ next (internalEndBlock cfg + 1 - next)) (fun i =>
      bi ← yaffs_GetBlockInfo cfg i;
      if is_state (blockState bi) BLOCK_STATE_EMPTY then
        _ ← modC (fun c => c <| checkpointNextBlock := i + 1 |>
                             <| checkpointCurrentBlock := i |>);
        mret (Some tt)
      else mret None);
    match r with Some _ => mret tt | None => none end
  else none.

Definition yaffs_CheckpointFindNextCheckpointBlock : M St unit :=
  count ← getC blocksInCheckpoint;
  max ← getC checkpointMaxBlocks;
  next ← getC checkpointNextBlock;
  let none :=
    modC (fun c => c <| checkpointNextBlock := -1 |> <| checkpointCurrentBlock := -1 |>) in
  if count <? max then
    r ← for_break (seqZ next (internalEndBlock cfg + 1 - next)) (fun i =>
      let realignedChunk := i * nChunksPerBlock cfg - chunkOffset cfg in
      read ← of_option drv_readChunkWithTags;
      rd ← on_nand (fun n =>
        let '(r, d, t, n) := read realignedChunk None stack_tags n in ((r, d, t), n));
      let tags := snd rd in
      if sequenceNumber tags =? YAFFS_SEQUENCE_CHECKPOINT_DATA then
        _ ← modC (fun c => c <| checkpointNextBlock := i32 (objectId tags) |>
                             <| checkpointCurrentBlock := i |>);
        lst ← getC checkpointBlockList;
        lst ← of_option lst;
        k ← getC blocksInCheckpoint;
        lst ← of_option (updateZ k i lst);
        _ ← modC (fun c => c <| checkpointBlockList := Some lst |>
                             <| blocksInCheckpoint ::= Z.succ |>);
        mret (Some tt)
      else mret None);
    match r with Some _ => mret tt | None => none end
  else none.

(** [yaffs_CheckpointOpen]; [buf] and [lst] are what the two allocations give, [None]
    for a null pointer. *)
Definition yaffs_CheckpointOpen (forWriting : bool) (buf lst : option (list Z)) : M St Z :=
  match drv_writeChunkWithTags, drv_readChunkWithTags, drv_markBlockBad with
  | Some _, Some _, Some _ =>
      ok ← yaffs_CheckpointSpaceOk;
      if forWriting && negb ok then mret 0 else
      old ← getC checkpointBuffer;
      let buffer := match old with Some b => Some b | None => buf end in
      _ ← modC (fun c => c <| checkpointBuffer := buffer |>);
      match buffer with
      | None => mret 0
      | Some b =>
          _ ← modC (fun c => c <| checkpointPageSequence := 0 |>
              <| checkpointOpenForWrite := forWriting |>
              <| checkpointByteCount := 0 |>
              <| checkpointSum := 0 |> <| checkpointXor := 0 |>
              <| checkpointCurrentBlock := -1 |> <| checkpointCurrentChunk := -1 |>
              <| checkpointNextBlock := internalStartBlock cfg |>);
          if forWriting then
            _ ← modC (fun c => c <| checkpointBuffer :=
                  Some (replicate (Z.to_nat (nDataBytesPerChunk cfg)) 0) |>
                  <| checkpointByteOffset := 0 |>);
            yaffs_CheckpointErase
          else
            let max := Z.quot (internalEndBlock cfg - internalStartBlock cfg) 16 + 2 in
            _ ← modC (fun c => c <| checkpointByteOffset := nDataBytesPerChunk cfg |>
                <| blocksInCheckpoint := 0 |> <| checkpointMaxBlocks := max |>);
            _ ← of_option lst;
            _ ← modC (fun c => c <| checkpointBlockList :=
                  Some (replicate (Z.to_nat max) (-1)) |>);
            mret 1
      end
  | _, _, _ => mret 0
  end.

Definition yaffs_GetCheckpointSum : M St Z :=
  sum ← getC checkpointSum;
  xor ← getC checkpointXor;
  mret (Z.lor (u32 (Z.shiftl sum 8)) (Z.land xor 255)).

Definition yaffs_CheckpointFlushBuffer : M St Z :=
  cur ← getC checkpointCurrentBlock;
  _ ← when (cur <? 0) (
    _ ← yaffs_CheckpointFindNextErasedBlock;
    modC (fun c => c <| checkpointCurrentChunk := 0 |>));
  cur ← getC checkpointCurrentBlock;
  if cur <? 0 then mret 0 else
  next ← getC checkpointNextBlock;
  seq ← getC checkpointPageSequence;
  chunk ← getC checkpointCurrentChunk;
  let tags := stack_tags <| chunkDeleted := 0 |> <| objectId := u32 next |>
    <| chunkId := u32 (seq + 1) |>
    <| sequenceNumber := YAFFS_SEQUENCE_CHECKPOINT_DATA |>
    <| byteCount := nDataBytesPerChunk cfg |> in
  _ ← when (chunk =? 0) (
    _ ← set_block_info cfg cur (fun bi => bi <| blockState := BLOCK_STATE_CHECKPOINT |>);
    modC (fun c => c <| blocksInCheckpoint ::= Z.succ |>));
  let realignedChunk := cur * nChunksPerBlock cfg + chunk - chunkOffset cfg in
  write ← of_option drv_writeChunkWithTags;
  buf ← getC checkpointBuffer;
  _ ← on_nand (write realignedChunk buf tags);
  _ ← modC (fun c => c <| checkpointByteOffset := 0 |> <| checkpointPageSequence ::= Z.succ |>
      <| checkpointCurrentChunk ::= Z.succ |>);
  _ ← when (nChunksPerBlock cfg <=? chunk + 1)
    (modC (fun c => c <| checkpointCurrentChunk := 0 |> <| checkpointCurrentBlock := -1 |>));
  _ ← modC (fun c => c <| checkpointBuffer :=
        Some (replicate (Z.to_nat (nDataBytesPerChunk cfg)) 0) |>);
  mret 1.

(** One byte of [yaffs_CheckpointWrite]: the new [ok]. *)
Definition checkpoint_put (byte : Z) : M St Z :=
  buf ← getC checkpointBuffer;
  buf ← of_option buf;
  off ← getC checkpointByteOffset;
  buf ← of_option (updateZ off byte buf);
  _ ← modC (fun c => c <| checkpointBuffer := Some buf |>
      <| checkpointSum ::= fun x => u32 (x + byte) |>
      <| checkpointXor ::= fun x => Z.lxor x byte |>
      <| checkpointByteOffset := off + 1 |>
      <| checkpointByteCount ::= Z.succ |>);
  if (off + 1 <? 0) || (nDataBytesPerChunk cfg <=? off + 1) then yaffs_CheckpointFlushBuffer
  else mret 1.

Fixpoint checkpoint_write_loop (data : list Z) (i : Z) : M St Z :=
  match data with
  | [] => mret i
  | byte :: data =>
      ok ← checkpoint_put byte;
      if ztrue ok then checkpoint_write_loop data (i + 1) else mret (i + 1)
  end.

Definition yaffs_CheckpointWrite (data : list Z) : M St Z :=
  buf ← getC checkpointBuffer;
  w ← getC checkpointOpenForWrite;
  match buf with
  | None => mret 0
  | Some _ => if negb w then mret (-1) else checkpoint_write_loop data 0
  end.

(** Fetching the next page when the buffer is used up: the new [ok]. *)
Definition checkpoint_fetch : M St Z :=
  off ← getC checkpointByteOffset;
  if negb ((off <? 0) || (nDataBytesPerChunk cfg <=? off)) then mret 1 else
  cur ← getC checkpointCurrentBlock;
  _ ← when (cur <? 0) (
    _ ← yaffs_CheckpointFindNextCheckpointBlock;
    modC (fun c => c <| checkpointCurrentChunk := 0 |>));
  cur ← getC checkpointCurrentBlock;
  if cur <? 0 then mret 0 else
  chunk ← getC checkpointCurrentChunk;
  seq ← getC checkpointPageSequence;
  let realignedChunk := cur * nChunksPerBlock cfg + chunk - chunkOffset cfg in
  read ← of_option drv_readChunkWithTags;
  buf ← getC checkpointBuffer;
  rd ← on_nand (fun n =>
    let '(r, d, t, n) := read realignedChunk buf stack_tags n in ((r, d, t), n));
  let '(_, data, tags) := rd in
  _ ← modC (fun c => c <| checkpointBuffer := data |> <| checkpointByteOffset := 0 |>
      <| checkpointPageSequence ::= Z.succ |> <| checkpointCurrentChunk ::= Z.succ |>);
  _ ← when (nChunksPerBlock cfg <=? chunk + 1)
    (modC (fun c => c <| checkpointCurrentBlock := -1 |>));
  mret (flag (negb (negb (chunkId tags =? u32 (seq + 1)) ||
    negb (sequenceNumber tags =? YAFFS_SEQUENCE_CHECKPOINT_DATA)))).

(** Reading [n] bytes: how many were read, and which. *)
Fixpoint checkpoint_read_loop (n : nat) (acc : list Z) : M St (list Z) :=
  match n with
  | O => mret acc
  | S n =>
      ok ← checkpoint_fetch;
      if negb (ztrue ok) then mret acc else
      buf ← getC checkpointBuffer;
      buf ← of_option buf;
      off ← getC checkpointByteOffset;
      byte ← of_option (lookupZ off buf);
      _ ← modC (fun c => c <| checkpointSum ::= fun x => u32 (x + byte) |>
          <| checkpointXor ::= fun x => Z.lxor x byte |>
          <| checkpointByteOffset := off + 1 |>
          <| checkpointByteCount ::= Z.succ |>);
      checkpoint_read_loop n (acc ++ [byte])
  end.

Definition yaffs_CheckpointRead (nBytes : nat) : M St (Z * list Z) :=
  buf ← getC checkpointBuffer;
  w ← getC checkpointOpenForWrite;
  match buf with
  | None => mret (0, [])
  | Some _ =>
      if (w : bool) then mret (-1, [])
      else
        bytes ← checkpoint_read_loop nBytes [];
        mret (Z.of_nat (length bytes), bytes)
  end.

(** The blocks of a checkpoint that was read are marked as such, up to the first
    negative entry of the list. *)
Definition checkpoint_mark_read (lst : list Z) (i : Z) : M St (option unit) :=
  blk ← of_option (lookupZ i lst);
  if blk <? 0 then mret (Some tt)
  else
    bi ← yaffs_GetBlockInfo cfg blk;
    _ ← when (is_state (blockState bi) BLOCK_STATE_EMPTY)
      (set_block_info cfg blk (fun bi => bi <| blockState := BLOCK_STATE_CHECKPOINT |>));
    mret None.

Definition yaffs_CheckpointClose : M St Z :=
  w ← getC checkpointOpenForWrite;
  _ ← (if (w : bool) then
         off ← getC checkpointByteOffset;
         when (ztrue off) (_ ← yaffs_CheckpointFlushBuffer; mret tt)
       else
         count ← getC blocksInCheckpoint;
         lst ← getC checkpointBlockList;
         _ ← for_break (seqZ 0 count) (fun i =>
           lst ← of_option lst; checkpoint_mark_read lst i);
         modC (fun c => c <| checkpointBlockList := None |>));
  count ← getC blocksInCheckpoint;
  _ ← modB (fun b => b <| nFreeChunks ::= fun f => f - count * nChunksPerBlock cfg |>
      <| nErasedBlocks ::= fun e => e - count |>);
  buf ← getC checkpointBuffer;
  match buf with
  | Some _ => _ ← modC (fun c => c <| checkpointBuffer := None |>); mret 1
  | None => mret 0
  end.

Definition yaffs_CheckpointInvalidateStream : M St Z :=
  ok ← yaffs_CheckpointSpaceOk;
  if negb ok then mret 0 else yaffs_CheckpointErase.
End checkptrw.

(** ** Erasing a checkpoint *)

(** Only checkpoint blocks changed, to empty or dead. *)
Definition cp_block (bi bi' : BlockInfo) : Prop :=
  bi' = bi \/ (blockState bi = BLOCK_STATE_CHECKPOINT /\
    (bi' = bi <| blockState := BLOCK_STATE_EMPTY |> \/
     bi' = bi <| blockState := BLOCK_STATE_DEAD |>)).

Record cp_frame {N} (s s' : State N) : Prop := {
  cf_infos : Forall2 cp_block (blockInfo (blks s)) (blockInfo (blks s'));
  cf_bits : chunkBits (blks s') = chunkBits (blks s);
  cf_ablock : allocationBlock (blks s') = allocationBlock (blks s);
  cf_apage : allocationPage (blks s') = allocationPage (blks s);
  cf_finder : allocationBlockFinder (blks s') = allocationBlockFinder (blks s);
  cf_pending : hasPendingPrioritisedGCs (blks s') = hasPendingPrioritisedGCs (blks s);
  cf_seq : dev_sequenceNumber (blks s') = dev_sequenceNumber (blks s);
  cf_gc : isDoingGC (blks s') = isDoingGC (blks s)
}.

Lemma cp_block_refl bi : cp_block bi bi.
Proof. by left. Qed.
#[export] Instance cp_block_trans : Transitive cp_block.
Proof.
  intros a b c [-> | [Ha Hb]] Hc; [done|]. right. split; [done|].
  destruct Hc as [-> | [Hs _]]; [done|]. by destruct Hb as [-> | ->].
Qed.
#[export] Instance cp_frame_refl {N} : Reflexive (@cp_frame N).
Proof. constructor; try done. apply Forall2_same_length_lookup_2; [done|]. intros. simplify_eq. by left. Qed.
#[export] Instance cp_frame_trans {N} : Transitive (@cp_frame N).
Proof. intros a b c [] []. constructor; try congruence. by etransitivity. Qed.

Lemma cp_frame_lookup {N} (s s' : State N) i b :
  cp_frame s s' -> blockInfo (blks s) !! i = Some b ->
  exists b', blockInfo (blks s') !! i = Some b' /\ cp_block b b'.
Proof. intros [] Hb. by eapply Forall2_lookup_l in Hb. Qed.

(** A block that is not in the checkpoint is untouched. *)
Lemma cp_frame_same {N} (s s' : State N) i b :
  cp_frame s s' -> blockInfo (blks s) !! i = Some b -> blockState b <> BLOCK_STATE_CHECKPOINT ->
  blockInfo (blks s') !! i = Some b.
Proof.
  intros Hf Hb Hs. destruct (cp_frame_lookup _ _ _ _ Hf Hb) as (b' & Hb' & [-> | [Hc _]]); done.
Qed.

Lemma cp_frame_eq {N} (s s' : State N) : blks s' = blks s -> cp_frame s s'.
Proof.
  intros Hb. constructor; rewrite Hb; try done.
  apply Forall2_same_length_lookup_2; [done|]. intros. simplify_eq. by left.
Qed.

Lemma cp_frame_same_infos {N} (s s' : State N) :
  blockInfo (blks s') = blockInfo (blks s) -> chunkBits (blks s') = chunkBits (blks s) ->
  allocationBlock (blks s') = allocationBlock (blks s) ->
  allocationPage (blks s') = allocationPage (blks s) ->
  allocationBlockFinder (blks s') = allocationBlockFinder (blks s) ->
  hasPendingPrioritisedGCs (blks s') = hasPendingPrioritisedGCs (blks s) ->
  dev_sequenceNumber (blks s') = dev_sequenceNumber (blks s) ->
  isDoingGC (blks s') = isDoingGC (blks s) -> cp_frame s s'.
Proof.
  intros Hb. intros. constructor; try done. rewrite Hb.
  apply Forall2_same_length_lookup_2; [done|]. intros. simplify_eq. by left.
Qed.

Section erase.
Context {N : Type} {nd : NandDriver N} (cfg : Config) (Hcfg : cfg_ok cfg).
Context (Hmark : is_Some drv_markBlockBad).
Implicit Types (s : State N).

Lemma with_infos_cp blk bi bi' s :
  blockInfo (blks s) !! index cfg blk = Some bi -> cp_block bi bi' ->
  cp_frame s (with_infos (<[index cfg blk := bi']> (blockInfo (blks s))) s).
Proof.
  intros Hb Hs. constructor; try done. unfold with_infos. simp_fields.
  apply Forall2_same_length_lookup. split; [by rewrite length_insert|].
  intros i x y Hx Hy. apply list_lookup_insert_Some in Hy as [(<- & <- & _)|[_ Hy]];
    simplify_eq; [done|by left].
Qed.

(** A checkpoint block holds no pages that the bitmap knows of. *)
Lemma checkpoint_block_blank pe pf b blk bi :
  blocks_ok cfg pe pf b -> valid_block cfg blk -> blockInfo b !! index cfg blk = Some bi ->
  blockState bi = BLOCK_STATE_CHECKPOINT ->
  pagesInUse bi = 0 /\ softDeletions bi = 0 /\ used cfg (chunkBits b) (knum cfg blk) = 0.
Proof.
  intros Hok Hv Hb Hs. destruct (ok_block _ _ _ _ Hok blk bi Hv Hb) as [Hp Hsoft He _].
  specialize (He (or_intror (or_introl Hs))). unfold soft_of in Hsoft. rewrite Hs in Hsoft. lia.
Qed.

(** Moving a checkpoint block to another state keeps the books if the counters follow. *)
Lemma leave_checkpoint pe pf b b' blk bi st :
  blocks_ok cfg pe pf b -> valid_block cfg blk -> blockInfo b !! index cfg blk = Some bi ->
  blockState bi = BLOCK_STATE_CHECKPOINT ->
  st = BLOCK_STATE_EMPTY \/ st = BLOCK_STATE_DEAD ->
  blockInfo b' = <[index cfg blk := bi <| blockState := st |>]> (blockInfo b) ->
  chunkBits b' = chunkBits b ->
  nErasedBlocks b' = nErasedBlocks b + ind (is_state st BLOCK_STATE_EMPTY) ->
  nFreeChunks b' = nFreeChunks b + (if is_state st BLOCK_STATE_EMPTY then nChunksPerBlock cfg else 0) ->
  allocationBlock b' = allocationBlock b -> allocationPage b' = allocationPage b ->
  blocks_ok cfg pe pf b'.
Proof.
  intros Hok Hv Hb Hs Hst Hi Hbits He Hf Hab Hap.
  destruct (checkpoint_block_blank pe pf b blk bi Hok Hv Hb Hs) as (Hp & Hsoft & Hu).
  assert (Ho : other_bits cfg (chunkBits b) (chunkBits b') blk)
    by (rewrite Hbits; apply other_bits_refl, Hok).
  apply (blocks_ok_change cfg pe pe pf pf b b' blk bi (bi <| blockState := st |>)); try done.
  - rewrite Hbits, Hu. constructor; unfold soft_of; simp_fields; try done;
      by destruct Hst as [-> | ->]; rewrite ?Hp, ?Hsoft.
  - rewrite He. unfold empty_ind. simp_fields. rewrite Hs. simpl. lia.
  - rewrite Hf. unfold free_of, soft_of. simp_fields. rewrite Hs, Hp, Hsoft.
    destruct Hst as [-> | ->]; simpl; lia.
  - apply (allocator_ok_change cfg b b' blk bi (bi <| blockState := st |>)); try done;
      [apply Hok|by rewrite Hs|simp_fields; by destruct Hst as [-> | ->]].
Qed.

Lemma checkpoint_erase_block_spec pe pf blk s :
  blocks_ok cfg pe pf (blks s) -> valid_block cfg blk ->
  wp (checkpoint_erase_block cfg blk) (fun _ s' =>
    blocks_ok cfg pe pf (blks s') /\ cp_frame s s' /\
    (exists bi, blockInfo (blks s') !! index cfg blk = Some bi /\
      blockState bi <> BLOCK_STATE_CHECKPOINT)) s.
Proof.
  intros Hok Hv. destruct (get_block cfg pe pf (blks s) blk Hok Hv) as [bi Hb].
  assert (Hlen : (index cfg blk < length (blockInfo (blks s)))%nat) by (by eapply lookup_lt_Some).
  destruct Hmark as [mark Hm]. assert (Hlo : internalStartBlock cfg <= blk) by apply Hv.
  unfold checkpoint_erase_block, modB. apply wp_bind, wp_GetBlockInfo with bi; [done|done|].
  apply wp_when. unfold is_state at 1. destruct (bool_decide_reflect (blockState bi =
    BLOCK_STATE_CHECKPOINT)) as [Hs|Hs]; [|split; [done|]; split; [done|]; by exists bi].
  apply wp_bind, wp_on_nand. set (s1 := s <| nand := _ |>).
  assert (Hb1 : blockInfo (blks s1) !! index cfg blk = Some bi) by done.
  destruct (ztrue _).
  - apply wp_bind. eapply wp_set_block_info; [done|exact Hb1|]. wp_steps.
    unfold with_infos. simp_fields.
    split; [|split].
    + eapply leave_checkpoint with (st := BLOCK_STATE_EMPTY);
        [exact Hok|exact Hv|exact Hb|exact Hs|by left|..]; by simp_fields.
    + etransitivity; [apply (with_infos_cp blk bi (bi <| blockState := BLOCK_STATE_EMPTY |>) s Hb);
        right; split; [done|by left]|]. by apply cp_frame_same_infos.
    + exists (bi <| blockState := BLOCK_STATE_EMPTY |>). split; [|done].
      exact (list_lookup_insert_eq _ _ _ Hlen).
  - rewrite Hm. apply wp_bind, wp_of_option with mark; [done|]. apply wp_bind, wp_on_nand.
    eapply wp_set_block_info; [done|exact Hb1|]. unfold with_infos. simp_fields.
    split; [|split].
    + eapply leave_checkpoint with (st := BLOCK_STATE_DEAD);
        [exact Hok|exact Hv|exact Hb|exact Hs|by right|..]; simp_fields; simpl; lia || done.
    + etransitivity; [apply (with_infos_cp blk bi (bi <| blockState := BLOCK_STATE_DEAD |>) s Hb);
        right; split; [done|by right]|]. by apply cp_frame_same_infos.
    + exists (bi <| blockState := BLOCK_STATE_DEAD |>). split; [|done].
      exact (list_lookup_insert_eq _ _ _ Hlen).
Qed.

(** Erasing the checkpoint keeps the books and leaves no checkpoint block. *)
Lemma CheckpointErase_spec pe pf s :
  blocks_ok cfg pe pf (blks s) ->
  wp (yaffs_CheckpointErase cfg) (fun r s' =>
    r = 1 /\ blocks_ok cfg pe pf (blks s') /\ cp_frame s s' /\
    blocksInCheckpoint (ckpt s') = 0 /\
    (forall blk bi, valid_block cfg blk -> blockInfo (blks s') !! index cfg blk = Some bi ->
      blockState bi <> BLOCK_STATE_CHECKPOINT)) s.
Proof.
  intros Hok. unfold yaffs_CheckpointErase, modC.
  eapply wp_seq.
  { apply (wp_for_each (fun d s' => blocks_ok cfg pe pf (blks s') /\ cp_frame s s' /\
      forall blk, blk ∈ d -> exists bi, blockInfo (blks s') !! index cfg blk = Some bi /\
        blockState bi <> BLOCK_STATE_CHECKPOINT)).
    - split; [done|]. split; [done|]. intros blk Hb. by apply not_elem_of_nil in Hb.
    - intros d x r s1 Hseq (Hok1 & Hf1 & Hd).
      assert (Hx : valid_block cfg x).
      { assert (Hin : x ∈ seqZ (internalStartBlock cfg) (nBlocks cfg)).
        { rewrite Hseq. apply elem_of_app. right. by left. }
        apply elem_of_seqZ in Hin. unfold valid_block, nBlocks in *. lia. }
      eapply wp_mono; [by apply checkpoint_erase_block_spec|].
      intros [] s2 (Hok2 & Hf2 & Hx2). split; [done|]. split; [by etransitivity|].
      intros blk Hb. apply elem_of_app in Hb as [Hb|Hb].
      + destruct (Hd blk Hb) as (bi & Hbi & Hs). exists bi. split; [|done].
        by eapply cp_frame_same.
      + apply list_elem_of_singleton in Hb as ->. done. }
  intros [] s1 (Hok1 & Hf1 & Hall). wp_steps. split; [done|]. split; [done|].
  split; [etransitivity; [exact Hf1|by apply cp_frame_eq]|]. split; [done|].
  intros blk bi Hv Hb. destruct (Hall blk) as (bi' & Hb' & Hs).
  - apply elem_of_seqZ. unfold valid_block, nBlocks in *. lia.
  - simp_fields_in Hb. rewrite Hb in Hb'. by simplify_eq.
Qed.

Lemma CheckpointInvalidateStream_spec pe pf s :
  blocks_ok cfg pe pf (blks s) ->
  wp (yaffs_CheckpointInvalidateStream cfg) (fun _ s' =>
    blocks_ok cfg pe pf (blks s') /\ cp_frame s s') s.
Proof.
  intros Hok. unfold yaffs_CheckpointInvalidateStream, yaffs_CheckpointSpaceOk, getB. wp_steps.
  destruct (negb (negb _)); [by wp_steps|].
  eapply wp_mono; [by apply CheckpointErase_spec|]. by intros r s' (_ & ? & ? & _).
Qed.
End erase.
