(* ===== verification/Stream.v ===== *)
(** * What is written to a checkpoint is read back ([yaffs_checkptrw.c])
    The stream is a list of pages in blocks that were empty; the first page of each of them says
    where the search for the next begins.  A reader that finds these blocks reads the bytes that
    were written, and the sums agree. *)
From S2P Require Import Prelude Monad Tags Device Nand Sim BlockInv Checkptrw.

(** The marks that the stream needs in the tags of a page. *)
Definition same_marks (t t' : ExtendedTags) : Prop :=
  objectId t' = objectId t /\ chunkId t' = chunkId t /\ sequenceNumber t' = sequenceNumber t.

(** The first hit of a search through numbers. *)
Lemma wp_search {S A} (I : S -> Prop) (Q : option A -> S -> Prop) (body : Z -> M S (option A)) lo hi tgt s :
  lo <= tgt <= hi -> I s ->
  (forall i s', lo <= i < tgt -> I s' -> wp (body i) (fun r s'' => r = None /\ I s'') s') ->
  (forall s', I s' -> wp (body tgt) (fun r s'' => exists x, r = Some x /\ Q (Some x) s'') s') ->
  wp (for_break (seqZ lo (hi + 1 - lo)) body) Q s.
Proof.
  intros Hr HI Hno Hyes. remember (Z.to_nat (tgt - lo)) as k eqn:Ek. revert lo s Hr HI Hno Ek.
  induction k as [|k IH]; intros lo s Hr HI Hno Ek; rewrite seqZ_cons by lia; cbn [for_break].
  - assert (lo = tgt) as -> by lia. eapply wp_seq; [by apply Hyes|]. intros r s' (x & -> & HQ). by apply wp_ret.
  - eapply wp_seq; [apply Hno; [lia|done]|]. intros r s' [-> HI'].
    replace (Z.pred (hi + 1 - lo)) with (hi + 1 - Z.succ lo) by lia.
    apply IH; [lia|done| |lia]. intros i s2 Hi. apply Hno. lia.
Qed.

(** A part of a range of numbers is in ascending order. *)
Lemma filter_seqZ_sorted (P : Z -> Prop) `{!forall x, Decision (P x)} a k i j x y :
  filter P (seqZ a k) !! i = Some x -> filter P (seqZ a k) !! j = Some y -> (i < j)%nat -> x < y.
Proof.
  remember (Z.to_nat k) as q eqn:Eq. revert a k i j Eq. induction q as [|q IH]; intros a k i j Eq.
  - rewrite seqZ_nil by lia. done.
  - rewrite seqZ_cons by lia. cbn [filter list_filter]. destruct (decide (P a)) as [Ha|]; [|apply IH; lia].
    destruct j as [|j]; [lia|]. destruct i as [|i].
    + intros [= <-] Hy _. change (filter P (seqZ (Z.succ a) (Z.pred k)) !! j = Some y) in Hy. apply list_elem_of_lookup_2, list_elem_of_filter in Hy as [_ Hy]. apply elem_of_seqZ in Hy. lia.
    + intros Hx Hy Hij. apply (IH (Z.succ a) (Z.pred k) i j); [lia|done|done|lia].
Qed.

(** ** Pages *)

(** The interface to a medium that works: [page m c] is what page [c] of the driver holds. *)
Class PageStore {N} (nd : NandDriver N) (cfg : Config) := {
  page : N -> Z -> option (list Z * ExtendedTags);
  ps_write : forall w c d t m, drv_writeChunkWithTags = Some w -> Z.of_nat (length d) = nDataBytesPerChunk cfg ->
    (exists t', page (snd (w c (Some d) t m)) c = Some (d, t') /\ same_marks t t') /\
    forall c', c' <> c -> page (snd (w c (Some d) t m)) c' = page m c';
  ps_read : forall r c b t m, drv_readChunkWithTags = Some r ->
    let '(_, d', t', m') := r c b t m in
    (forall c', page m' c' = page m c') /\
    match page m c with
    | Some (d, t0) => same_marks t0 t' /\ (buffer_ok cfg b -> d' = (fun _ => d) <$> b)
    | None => sequenceNumber t' <> YAFFS_SEQUENCE_CHECKPOINT_DATA
    end;
  ps_erase : forall blk m, valid_block cfg blk ->
    ztrue (fst (drv_eraseBlock (blk - blockOffset cfg) m)) = true /\
    forall b j, valid_block cfg b -> 0 <= j < nChunksPerBlock cfg ->
      page (snd (drv_eraseBlock (blk - blockOffset cfg) m)) (b * nChunksPerBlock cfg + j - chunkOffset cfg) =
        if b =? blk then None else page m (b * nChunksPerBlock cfg + j - chunkOffset cfg)
}.

Section stream.
Context {N : Type} {nd : NandDriver N} (cfg : Config) (Hcfg : cfg_ok cfg).
Context {ps : PageStore nd cfg}.
Context wr (Hwr : drv_writeChunkWithTags = Some wr) rd (Hrd : drv_readChunkWithTags = Some rd).
Implicit Types (s : State N) (m : N).
Let n := nDataBytesPerChunk cfg.
Let B := Z.to_nat (nChunksPerBlock cfg).

(** Page [j] of block [b], as the driver numbers it. *)
Definition page_at (b j : Z) : Z := b * nChunksPerBlock cfg + j - chunkOffset cfg.

Lemma B_pos : (0 < B)%nat.
Proof. unfold B. pose proof (c_npb cfg Hcfg). lia. Qed.

Lemma B_Z : Z.of_nat B = nChunksPerBlock cfg.
Proof. unfold B. pose proof (c_npb cfg Hcfg). lia. Qed.

(** Block [b] begins with a page of a checkpoint. *)
Definition marked m (b : Z) : Prop := exists d t,
  page m (page_at b 0) = Some (d, t) /\ sequenceNumber t = YAFFS_SEQUENCE_CHECKPOINT_DATA.

(** Page [k] of the stream is [d], in block [b]. *)
Definition stream_page m (b : Z) (k : nat) (d : list Z) : Prop := exists t,
  page m (page_at b (Z.of_nat (k mod B))) = Some (d, t) /\ sequenceNumber t = YAFFS_SEQUENCE_CHECKPOINT_DATA /\
  chunkId t = u32 (Z.of_nat k + 1) /\ objectId t = u32 (b + 1).

(** The number of blocks that [k] pages are in. *)
Definition blocks_of (k : nat) : nat := (k + B - 1) / B.

(** The pages [ds] in the blocks [bl], and no other block looks like one of a checkpoint. *)
Record stored m (bl : list Z) (ds : list (list Z)) : Prop := {
  sr_pages : forall k d, ds !! k = Some d -> exists b, bl !! (k / B)%nat = Some b /\ stream_page m b k d;
  sr_blocks : length bl = blocks_of (length ds);
  sr_sorted : forall i j a b, bl !! i = Some a -> bl !! j = Some b -> (i < j)%nat -> a < b;
  sr_valid : forall b, b ∈ bl -> valid_block cfg b;
  sr_marked : forall b, valid_block cfg b -> marked m b -> b ∈ bl;
  sr_size : Forall (fun d => Z.of_nat (length d) = n) ds
}.

(** The pages of the device are as before. *)
Definition same_pages m m' : Prop := forall c, page m' c = page m c.

Lemma same_pages_marked m m' b : same_pages m m' -> marked m' b -> marked m b.
Proof. intros H (d & t & Hp & Ht). exists d, t. by rewrite <- H. Qed.

Lemma stored_same m m' bl ds : same_pages m m' -> stored m bl ds -> stored m' bl ds.
Proof.
  intros H [H1 H2 H3 H4 H5 H6]. split; try done.
  - intros k d Hk. destruct (H1 k d Hk) as (b & Hb & t & Ht). exists b. split; [done|]. exists t. by rewrite H.
  - intros b Hv Hm. apply H5; [done|]. by apply (same_pages_marked m m').
Qed.

(** The first page of a block of the stream. *)
Lemma stored_first m bl ds i b : stored m bl ds -> bl !! i = Some b -> exists d, stream_page m b (i * B) d.
Proof.
  intros Hst Hb. pose proof B_pos. assert (Hi : (i < length bl)%nat) by (by eapply lookup_lt_Some).
  rewrite (sr_blocks _ _ _ Hst) in Hi. unfold blocks_of in Hi.
  assert (Hlt : (i * B < length ds)%nat).
  { pose proof (Nat.div_mod (length ds + B - 1) B ltac:(lia)). pose proof (Nat.mod_upper_bound (length ds + B - 1) B ltac:(lia)). nia. }
  destruct (lookup_lt_is_Some_2 ds (i * B)%nat Hlt) as [d Hd].
  destruct (sr_pages _ _ _ Hst _ _ Hd) as (b' & Hb' & Hp). rewrite Nat.div_mul in Hb' by lia.
  exists d. congruence.
Qed.

(** ** Reading *)

(** The list of the reader begins with the first [k] blocks and has room for all. *)
Definition listed s (bl : list Z) (k : nat) : Prop := exists lst, checkpointBlockList (ckpt s) = Some lst /\
  Z.of_nat (length lst) = checkpointMaxBlocks (ckpt s) /\ (length bl <= length lst)%nat /\
  forall i b, (i < k)%nat -> bl !! i = Some b -> lst !! i = Some b.

(** [k] pages were fetched; byte [off] of the last of them is next. *)
Record reading s (bl : list Z) (ds : list (list Z)) (k : nat) (off : Z) : Prop := {
  rg_stored : stored (nand s) bl ds;
  rg_mode : checkpointOpenForWrite (ckpt s) = false;
  rg_pages : (k <= length ds)%nat;
  rg_seq : checkpointPageSequence (ckpt s) = Z.of_nat k;
  rg_off : checkpointByteOffset (ckpt s) = off /\ 0 <= off <= n /\ (k = O -> off = n);
  rg_buf : exists b, checkpointBuffer (ckpt s) = Some b /\ Z.of_nat (length b) = n /\
    forall k', k = S k' -> ds !! k' = Some b;
  rg_cur : if (k mod B =? 0)%nat then checkpointCurrentBlock (ckpt s) < 0
           else bl !! (k / B)%nat = Some (checkpointCurrentBlock (ckpt s)) /\
             checkpointCurrentChunk (ckpt s) = Z.of_nat (k mod B);
  rg_next : match blocks_of k with
    | O => checkpointNextBlock (ckpt s) = internalStartBlock cfg
    | S i => exists b, bl !! i = Some b /\ checkpointNextBlock (ckpt s) = b + 1
    end;
  rg_found : blocksInCheckpoint (ckpt s) = Z.of_nat (blocks_of k);
  rg_list : listed s bl (blocks_of k)
}.

(** A block, found by its first page. *)
Lemma first_not_marked m b r t : ~ marked m b -> forall d' t' m',
  rd (page_at b 0) None t m = (r, d', t', m') -> sequenceNumber t' <> YAFFS_SEQUENCE_CHECKPOINT_DATA /\ same_pages m m'.
Proof.
  intros Hno d' t' m' Hr. pose proof (ps_read rd (page_at b 0) None t m Hrd) as H. rewrite Hr in H.
  destruct H as [Hs H]. split; [|done]. destruct (page m (page_at b 0)) as [[d t0]|] eqn:Ep; [|done].
  destruct H as [(_ & _ & Hseq) _]. rewrite Hseq. intros Hm. apply Hno. by exists d, t0.
Qed.

Lemma blocks_of_S_new k : (k mod B = 0)%nat -> blocks_of (S k) = S (blocks_of k) /\ blocks_of k = (k / B)%nat.
Proof.
  intros Hk. pose proof B_pos. unfold blocks_of. apply Nat.Div0.mod_divides in Hk as [q ->]; [|lia..].
  replace (S (B * q) + B - 1)%nat with (0 + (1 + q) * B)%nat by lia. rewrite Nat.div_add by lia.
  replace (B * q + B - 1)%nat with (B - 1 + q * B)%nat by lia. rewrite Nat.div_add by lia.
  rewrite (Nat.div_small (B - 1)) by lia. rewrite (Nat.mul_comm B), Nat.div_mul by lia. rewrite Nat.Div0.div_0_l. lia.
Qed.

Lemma blocks_of_S_old k : (k mod B <> 0)%nat -> blocks_of (S k) = blocks_of k /\ blocks_of k = S (k / B)%nat.
Proof.
  intros Hk. pose proof B_pos. unfold blocks_of.
  pose proof (Nat.div_mod k B ltac:(lia)) as Hd. pose proof (Nat.mod_upper_bound k B ltac:(lia)).
  set (q := (k / B)%nat) in *. set (r := (k mod B)%nat) in *. rewrite Hd.
  replace (S (B * q + r) + B - 1)%nat with (r + (1 + q) * B)%nat by lia.
  replace (B * q + r + B - 1)%nat with (r - 1 + (1 + q) * B)%nat by lia.
  rewrite !Nat.div_add by lia. rewrite !Nat.div_small by lia. lia.
Qed.

(** Only the state of the driver may differ, and no page. *)
Definition only_pages s s' : Prop := same_pages (nand s) (nand s') /\ s' = s <| nand := nand s' |>.

Lemma only_pages_refl s : only_pages s s.
Proof. split; [done|by destruct s]. Qed.

(** Where the search for block [i] of the stream starts, and that it gets there. *)
Lemma search_range m bl ds i b next : stored m bl ds -> bl !! i = Some b ->
  match i with O => next = internalStartBlock cfg | S j => exists b', bl !! j = Some b' /\ next = b' + 1 end ->
  next <= b <= internalEndBlock cfg /\ internalStartBlock cfg <= next /\
  forall x, next <= x < b -> ~ marked m x.
Proof.
  intros Hst Hb Hn. pose proof (sr_valid _ _ _ Hst b ltac:(by eapply list_elem_of_lookup_2)) as Hv. unfold valid_block in Hv.
  assert (Hlo : internalStartBlock cfg <= next <= b /\ forall j x, (j < i)%nat -> bl !! j = Some x -> x < next).
  { destruct i as [|j]; [subst next; split; [lia|intros; lia]|]. destruct Hn as (b' & Hb' & ->).
    pose proof (sr_valid _ _ _ Hst b' ltac:(by eapply list_elem_of_lookup_2)) as Hv'. unfold valid_block in Hv'.
    pose proof (sr_sorted _ _ _ Hst j (S j) b' b Hb' Hb ltac:(lia)). split; [lia|].
    intros j' x Hj Hx. destruct (decide (j' = j)) as [->|]; [simplify_eq; lia|].
    pose proof (sr_sorted _ _ _ Hst j' j x b' Hx Hb' ltac:(lia)). lia. }
  destruct Hlo as [Hlo Hbefore]. split; [lia|]. split; [lia|]. intros x Hx Hm.
  assert (Hin : x ∈ bl) by (apply (sr_marked _ _ _ Hst); [unfold valid_block; lia|done]).
  apply list_elem_of_lookup in Hin as [j Hj]. destruct (decide (j < i)%nat).
  - pose proof (Hbefore j x ltac:(lia) Hj). lia.
  - destruct (decide (j = i)) as [->|]; [simplify_eq; lia|]. pose proof (sr_sorted _ _ _ Hst i j b x Hb Hj ltac:(lia)). lia.
Qed.

(** The parts of the stream's state that the search for a block leaves. *)
Record same_stream (c c' : Checkpt) : Prop := {
  ss_mode : checkpointOpenForWrite c' = checkpointOpenForWrite c;
  ss_seq : checkpointPageSequence c' = checkpointPageSequence c;
  ss_off : checkpointByteOffset c' = checkpointByteOffset c;
  ss_buf : checkpointBuffer c' = checkpointBuffer c;
  ss_max : checkpointMaxBlocks c' = checkpointMaxBlocks c;
  ss_sum : checkpointSum c' = checkpointSum c;
  ss_xor : checkpointXor c' = checkpointXor c
}.

(** Block [b] was found as block [i] of the stream. *)
Record block_found s s' (bl : list Z) (i : nat) (b : Z) : Prop := {
  bf_pages : same_pages (nand s) (nand s');
  bf_next : checkpointNextBlock (ckpt s') = b + 1;
  bf_cur : checkpointCurrentBlock (ckpt s') = b;
  bf_count : blocksInCheckpoint (ckpt s') = Z.of_nat (S i);
  bf_list : listed s' bl (S i);
  bf_rest : same_stream (ckpt s) (ckpt s')
}.

Lemma FindNextCheckpointBlock_spec s bl ds k off : reading s bl ds k off -> (k mod B = 0)%nat -> (k < length ds)%nat ->
  wp (yaffs_CheckpointFindNextCheckpointBlock cfg) (fun _ s' => exists b, bl !! (k / B)%nat = Some b /\
    block_found s s' bl (k / B) b) s.
Proof.
  intros Hr Hk Hlt. destruct (blocks_of_S_new k Hk) as [_ Hbk]. pose proof (rg_stored _ _ _ _ _ Hr) as Hst.
  assert (Hib : (k / B < length bl)%nat).
  { rewrite (sr_blocks _ _ _ Hst). pose proof B_pos. unfold blocks_of. apply Nat.Div0.mod_divides in Hk as [q ->]; [|lia..].
    rewrite (Nat.mul_comm B), Nat.div_mul by lia. apply Nat.div_le_lower_bound; nia. }
  destruct (lookup_lt_is_Some_2 bl _ Hib) as [b Hb].
  destruct (rg_list _ _ _ _ _ Hr) as (lst & Hlst & Hmax & Hlen & Hfirst). rewrite Hbk in Hfirst.
  pose proof (rg_found _ _ _ _ _ Hr) as Hfound. pose proof (rg_next _ _ _ _ _ Hr) as Hnext. rewrite Hbk in Hfound, Hnext.
  destruct (search_range (nand s) bl ds (k / B) b (checkpointNextBlock (ckpt s)) Hst Hb Hnext) as (Hrange & Hstart & Hno).
  destruct (stored_first (nand s) bl ds (k / B) b Hst Hb) as (d & t & Hp & Hseq & _ & Hobj).
  pose proof B_pos. rewrite Nat.Div0.mod_mul in Hp.
  unfold yaffs_CheckpointFindNextCheckpointBlock, getC, modC. apply wp_bind, wp_gets, wp_bind, wp_gets, wp_bind, wp_gets.
  cbv zeta. rewrite (proj2 (Z.ltb_lt _ _)) by lia.
  eapply wp_seq; [apply (wp_search (only_pages s) (fun r s' => r = Some tt /\ block_found s s' bl (k / B) b) _ (checkpointNextBlock (ckpt s)) (internalEndBlock cfg) b); [lia|apply only_pages_refl|..]|].
  - intros i s1 Hi [Hsp Hs1]. apply wp_bind, wp_of_option with rd; [done|]. apply wp_bind, wp_on_nand.
    replace (i * nChunksPerBlock cfg - chunkOffset cfg) with (page_at i 0) by (unfold page_at; lia).
    destruct (rd (page_at i 0) None stack_tags (nand s1)) as [[[r d'] t'] m'] eqn:Er. cbn [fst snd].
    assert (Hnm : ~ marked (nand s1) i) by (intros Hm; apply (Hno i Hi); by apply (same_pages_marked (nand s) (nand s1))).
    destruct (first_not_marked (nand s1) i r stack_tags Hnm d' t' m' Er) as [Hne Hsp'].
    rewrite (proj2 (Z.eqb_neq _ _)) by done. apply wp_ret. split; [done|]. split.
    + intros c. cbn. rewrite Hsp'. apply Hsp.
    + rewrite Hs1. done.
  - intros s1 [Hsp Hs1]. apply wp_bind, wp_of_option with rd; [done|]. apply wp_bind, wp_on_nand.
    replace (b * nChunksPerBlock cfg - chunkOffset cfg) with (page_at b 0) by (unfold page_at; lia).
    destruct (rd (page_at b 0) None stack_tags (nand s1)) as [[[r d'] t'] m'] eqn:Er. cbn [fst snd].
    pose proof (ps_read rd (page_at b 0) None stack_tags (nand s1) Hrd) as Hread. rewrite Er in Hread.
    rewrite (Hsp (page_at b 0)) in Hread. change (Z.of_nat 0) with 0 in Hp. rewrite Hp in Hread.
    destruct Hread as [Hsp' [(Ho' & _ & Hs') _]]. rewrite Hs', Hseq, Z.eqb_refl.
    assert (Hnext1 : i32 (objectId t') = b + 1).
    { pose proof (c_chunks cfg Hcfg). pose proof (c_npb cfg Hcfg). pose proof (c_start cfg Hcfg).
      assert (0 <= b + 1 < 2 ^ 31) by nia. rewrite Ho', Hobj, (wrap_small 32) by lia. apply swrap_small; lia. }
    rewrite Hnext1, Hs1. apply wp_bind, wp_modify. wp_step. wp_step. simp_fields. rewrite Hlst.
    apply wp_bind, wp_of_option with lst; [done|]. wp_step. wp_step. simp_fields. rewrite Hfound.
    apply wp_bind. eapply wp_of_option; [apply updateZ_Some; lia|]. apply wp_bind, wp_modify, wp_ret.
    exists tt. split; [done|]. split; [done|]. split; simp_fields; try done.
    + intros c. rewrite Hsp'. apply Hsp.
    + lia.
    + exists (<[Z.to_nat (Z.of_nat (k / B)) := b]> lst). simp_fields. rewrite length_insert, Nat2Z.id.
      split; [done|]. split; [done|]. split; [done|]. intros i x Hi Hx. destruct (decide (i = k / B)%nat) as [->|Hne].
      * assert (x = b) as -> by congruence. apply list_lookup_insert_eq. lia.
      * rewrite list_lookup_insert_ne by done. apply Hfirst; [lia|done].
  - intros r s1 [-> H1]. apply wp_ret. by exists b.
Qed.

(** The block of the page that is next, found or not. *)
Definition at_block s (b : Z) (k : nat) : Prop :=
  checkpointCurrentBlock (ckpt s) = b /\ checkpointCurrentChunk (ckpt s) = Z.of_nat (k mod B) /\
  checkpointNextBlock (ckpt s) = b + 1 /\ blocksInCheckpoint (ckpt s) = Z.of_nat (S (k / B)).

Lemma find_if_needed s bl ds k off : reading s bl ds k off -> (k < length ds)%nat ->
  wp (when (checkpointCurrentBlock (ckpt s) <? 0) (
        _ ← yaffs_CheckpointFindNextCheckpointBlock cfg;
        modC (fun c => c <| checkpointCurrentChunk := 0 |>)))
    (fun _ s' => exists b, bl !! (k / B)%nat = Some b /\ at_block s' b k /\ same_pages (nand s) (nand s') /\
      same_stream (ckpt s) (ckpt s') /\ listed s' bl (S (k / B))) s.
Proof.
  intros Hr Hlt. pose proof (rg_cur _ _ _ _ _ Hr) as Hcur. pose proof (rg_stored _ _ _ _ _ Hr) as Hst.
  apply wp_when. destruct (Nat.eqb_spec (k mod B) 0) as [Hk|Hk].
  - rewrite (proj2 (Z.ltb_lt _ _)) by done.
    eapply wp_seq; [by apply (FindNextCheckpointBlock_spec s bl ds k off)|]. intros _ s1 (b & Hb & Hbf). unfold modC. wp_step.
    exists b. split; [done|]. destruct Hbf as [H1 H2 H3 H4 Hl []].
    split; [split; [done|split; [by rewrite Hk|done]]|]. split; [done|]. split; [by split|]. exact Hl.
  - destruct Hcur as [Hb Hchunk]. set (b := checkpointCurrentBlock (ckpt s)) in *.
    pose proof (sr_valid _ _ _ Hst b ltac:(by eapply list_elem_of_lookup_2)) as Hv. unfold valid_block in Hv.
    pose proof (c_start cfg Hcfg). rewrite (proj2 (Z.ltb_ge _ _)) by lia.
    destruct (blocks_of_S_old k Hk) as [_ Hbk]. pose proof (rg_next _ _ _ _ _ Hr) as Hnext. rewrite Hbk in Hnext.
    destruct Hnext as (b' & Hb' & Hnext). assert (b' = b) as -> by congruence.
    pose proof (rg_found _ _ _ _ _ Hr) as Hf. rewrite Hbk in Hf. pose proof (rg_list _ _ _ _ _ Hr) as Hl. rewrite Hbk in Hl.
    exists b. split; [done|]. split; [done|]. split; [done|]. split; [by split|]. exact Hl.
Qed.

Lemma blocks_of_S k : blocks_of (S k) = S (k / B).
Proof.
  destruct (decide (k mod B = 0)%nat) as [Hk|Hk].
  - destruct (blocks_of_S_new k Hk) as [-> ->]. done.
  - by destruct (blocks_of_S_old k Hk) as [-> ->].
Qed.

(** The last page of a block, and the others. *)
Lemma next_in_block k : if (B <=? k mod B + 1)%nat then (S k mod B = 0)%nat
  else (S k mod B = S (k mod B))%nat /\ (S k / B = k / B)%nat.
Proof.
  pose proof B_pos. pose proof (Nat.div_mod k B ltac:(lia)) as Hd. pose proof (Nat.mod_upper_bound k B ltac:(lia)).
  set (q := (k / B)%nat) in *. set (r := (k mod B)%nat) in *. destruct (Nat.leb_spec B (r + 1)).
  - replace (S k) with ((1 + q) * B)%nat by nia. by rewrite Nat.Div0.mod_mul.
  - replace (S k) with (S r + q * B)%nat by lia.
    rewrite Nat.Div0.mod_add, Nat.div_add by lia. rewrite Nat.mod_small, Nat.div_small by lia. lia.
Qed.

Lemma reading_next s bl ds k b d : stored (nand s) bl ds -> ds !! k = Some d -> bl !! (k / B)%nat = Some b ->
  checkpointOpenForWrite (ckpt s) = false -> checkpointPageSequence (ckpt s) = Z.of_nat (S k) ->
  checkpointByteOffset (ckpt s) = 0 -> checkpointBuffer (ckpt s) = Some d -> checkpointNextBlock (ckpt s) = b + 1 ->
  blocksInCheckpoint (ckpt s) = Z.of_nat (S (k / B)) ->
  listed s bl (S (k / B)) ->
  (if (B <=? k mod B + 1)%nat then checkpointCurrentBlock (ckpt s) = -1
   else checkpointCurrentBlock (ckpt s) = b /\ checkpointCurrentChunk (ckpt s) = Z.of_nat (S (k mod B))) ->
  reading s bl ds (S k) 0.
Proof.
  intros Hst Hd Hb Hm Hseq Hoff Hbuf Hnext Hcount Hlst Hcur.
  pose proof (proj1 (Forall_lookup _ _) (sr_size _ _ _ Hst) k d Hd) as Hlen. cbv beta in Hlen.
  assert (Hk : (k < length ds)%nat) by (by eapply lookup_lt_Some). pose proof (next_in_block k) as Hn.
  split; try done.
  - split; [done|]. split; [unfold n; lia|lia].
  - exists d. split; [done|]. split; [done|]. by intros k' [= ->].
  - destruct (B <=? k mod B + 1)%nat.
    + rewrite Hn. cbn. lia.
    + destruct Hn as [-> ->]. destruct Hcur as [-> ->]. cbn. done.
  - rewrite blocks_of_S. by exists b.
  - by rewrite blocks_of_S.
  - by rewrite blocks_of_S.
Qed.

Lemma fetch_spec s bl ds k : reading s bl ds k n -> (k < length ds)%nat ->
  wp (checkpoint_fetch cfg) (fun ok s' => ok = 1 /\ reading s' bl ds (S k) 0 /\
    checkpointSum (ckpt s') = checkpointSum (ckpt s) /\ checkpointXor (ckpt s') = checkpointXor (ckpt s)) s.
Proof.
  intros Hr Hlt. pose proof (rg_stored _ _ _ _ _ Hr) as Hst. pose proof B_pos as HB. pose proof B_Z as HBZ.
  destruct (lookup_lt_is_Some_2 ds k Hlt) as [d Hd].
  pose proof (proj1 (Forall_lookup _ _) (sr_size _ _ _ Hst) k d Hd) as Hlen.
  destruct (rg_buf _ _ _ _ _ Hr) as (b0 & Hb0 & Hlb0 & _).
  unfold checkpoint_fetch, getC, modC. wp_step. wp_step. rewrite (proj1 (rg_off _ _ _ _ _ Hr)).
  fold n. rewrite (proj2 (Z.leb_le n n)), orb_true_r by lia. cbn [negb]. wp_step. wp_step.
  eapply wp_seq; [by apply (find_if_needed s bl ds k n)|].
  intros [] s1 (b & Hb & (Hc1 & Hc2 & Hc3 & Hc4) & Hsp & Hss & lst & Hl1 & Hl2 & Hl3 & Hl4).
  pose proof (sr_valid _ _ _ Hst b ltac:(by eapply list_elem_of_lookup_2)) as Hv. unfold valid_block in Hv.
  pose proof (c_start cfg Hcfg). wp_step. wp_step. rewrite Hc1, (proj2 (Z.ltb_ge _ _)) by lia.
  wp_step. wp_step. wp_step. wp_step. cbv zeta. apply wp_bind, wp_of_option with rd; [done|]. wp_step. wp_step.
  apply wp_bind, wp_on_nand. rewrite Hc2.
  replace (b * nChunksPerBlock cfg + Z.of_nat (k mod B) - chunkOffset cfg) with (page_at b (Z.of_nat (k mod B))) by done.
  destruct (sr_pages _ _ _ Hst k d Hd) as (b' & Hb' & t & Hp & Hseq & Hcid & Hobj). assert (b' = b) as -> by congruence.
  destruct (rd _ _ _ (nand s1)) as [[[r d'] t'] m'] eqn:Er. cbn [fst snd].
  pose proof (ps_read rd (page_at b (Z.of_nat (k mod B))) (checkpointBuffer (ckpt s1)) stack_tags (nand s1) Hrd) as Hread. rewrite Er in Hread.
  rewrite (Hsp (page_at b _)), Hp in Hread. destruct Hread as [Hsp' [(_ & Hcid' & Hseq') Hdata]].
  assert (Hbuf1 : checkpointBuffer (ckpt s1) = Some b0) by (by rewrite (ss_buf _ _ Hss)).
  assert (Hd' : d' = Some d).
  { rewrite Hdata; [by rewrite Hbuf1|]. intros x Hx. rewrite Hbuf1 in Hx. by injection Hx as <-. }
  pose proof (rg_seq _ _ _ _ _ Hr) as Hseqk.
  wp_step. wp_step. wp_step. wp_step. rewrite Hcid', Hcid, Hseq', Hseq, (ss_seq _ _ Hss), Hseqk, !Z.eqb_refl. cbn [negb orb flag].
  assert (Hsame : same_pages (nand s) m') by (intros c; rewrite Hsp'; apply Hsp).
  assert (Hlst : forall s', checkpointBlockList (ckpt s') = checkpointBlockList (ckpt s1) ->
    checkpointMaxBlocks (ckpt s') = checkpointMaxBlocks (ckpt s1) -> listed s' bl (S (k / B))).
  { intros s' E1 E2. exists lst. by rewrite E1, E2. }
  assert (Hmode : checkpointOpenForWrite (ckpt s1) = false) by (rewrite (ss_mode _ _ Hss); apply Hr).
  assert (Hst' : stored m' bl ds) by (by apply (stored_same (nand s))).
  assert (HleB : (nChunksPerBlock cfg <=? Z.of_nat (k mod B) + 1) = (B <=? k mod B + 1)%nat).
  { destruct (Nat.leb_spec B (k mod B + 1)); [apply Z.leb_le|apply Z.leb_gt]; lia. }
  rewrite HleB. destruct (B <=? k mod B + 1)%nat eqn:EB; wp_steps; (split; [done|]; split; [|split; simp_fields; apply Hss]);
    apply (reading_next _ bl ds k b d); simp_fields; rewrite ?EB, ?(ss_seq _ _ Hss), ?Hl1; try done; try (by apply Hlst); try lia.
Qed.

(** The sums over the bytes. *)
Definition add_sum (x : Z) (l : list Z) : Z := foldl (fun x byte => u32 (x + byte)) x l.
Definition add_xor (x : Z) (l : list Z) : Z := foldl Z.lxor x l.
Definition sums_added s s' (l : list Z) : Prop :=
  checkpointSum (ckpt s') = add_sum (checkpointSum (ckpt s)) l /\ checkpointXor (ckpt s') = add_xor (checkpointXor (ckpt s)) l.

(** The bytes [rest] are still to be read. *)
Definition to_read s (bl : list Z) (ds : list (list Z)) (rest : list Z) : Prop := exists k off b,
  reading s bl ds k off /\ checkpointBuffer (ckpt s) = Some b /\ rest = drop (Z.to_nat off) b ++ concat (drop k ds).

(** The buffer has the next byte then. *)
Lemma fetch_byte s bl ds x rest : to_read s bl ds (x :: rest) ->
  wp (checkpoint_fetch cfg) (fun ok s' => ok = 1 /\ sums_added s s' [] /\
    exists k off b, reading s' bl ds k off /\ 0 <= off < n /\ checkpointBuffer (ckpt s') = Some b /\
      x :: rest = drop (Z.to_nat off) b ++ concat (drop k ds)) s.
Proof.
  intros (k & off & b & Hr & Hb & Hrest). destruct (rg_off _ _ _ _ _ Hr) as (Hoff & Hrange & Hk0).
  destruct (rg_buf _ _ _ _ _ Hr) as (b' & Hb' & Hlen & _). assert (b' = b) as -> by congruence.
  destruct (decide (off < n)) as [Hlt|Hge].
  - unfold checkpoint_fetch, getC. wp_step. wp_step. rewrite Hoff. fold n.
    rewrite (proj2 (Z.ltb_ge off 0)), (proj2 (Z.leb_gt n off)) by lia. cbn [orb negb]. apply wp_ret.
    split; [done|]. split; [done|]. exists k, off, b. split; [done|]. split; [lia|done].
  - assert (off = n) as -> by lia. rewrite drop_ge in Hrest by lia. cbn [app] in Hrest.
    assert (Hk : (k < length ds)%nat).
    { destruct (decide (k < length ds)%nat); [done|]. rewrite drop_ge in Hrest by lia. done. }
    eapply wp_mono; [by apply (fetch_spec s bl ds k)|]. intros ok s' (-> & Hr' & Hs & Hx).
    split; [done|]. split; [done|]. destruct (rg_buf _ _ _ _ _ Hr') as (d & Hbuf & Hd & Hds).
    exists (S k), 0, d. split; [done|]. pose proof (c_data cfg Hcfg). split; [unfold n; lia|]. split; [done|].
    rewrite Hrest. rewrite (drop_S ds d k) by (by apply Hds). done.
Qed.

Lemma stream_read_loop (m : nat) : forall s bl ds rest acc, to_read s bl ds rest -> (m <= length rest)%nat ->
  wp (checkpoint_read_loop cfg m acc) (fun r s' => r = acc ++ take m rest /\ to_read s' bl ds (drop m rest) /\
    sums_added s s' (take m rest)) s.
Proof.
  induction m as [|m IH]; intros s bl ds rest acc Hr Hm; cbn [checkpoint_read_loop].
  - apply wp_ret. by rewrite app_nil_r.
  - destruct rest as [|x rest]; [cbn in Hm; lia|].
    eapply wp_seq; [by apply (fetch_byte s bl ds x rest)|].
    intros ok s1 (-> & [Hs1 Hx1] & k & off & b & Hr1 & Hoff & Hb & Hrest). change (ztrue 1) with true. cbn [negb].
    unfold getC, modC. wp_step. wp_step. rewrite Hb. apply wp_bind, wp_of_option with b; [done|].
    wp_step. wp_step. destruct (rg_off _ _ _ _ _ Hr1) as (Ho1 & _). rewrite Ho1.
    destruct (rg_buf _ _ _ _ _ Hr1) as (b' & Hb' & Hlen & Hds). assert (b' = b) as -> by congruence.
    assert (Hx : b !! Z.to_nat off = Some x).
    { destruct (drop (Z.to_nat off) b) as [|y l] eqn:E; [apply (f_equal length) in E; rewrite length_drop in E; cbn in E; lia|].
      injection Hrest as -> _. rewrite <- (Nat.add_0_r (Z.to_nat off)), <- lookup_drop, E. done. }
    apply wp_bind, wp_of_option with x; [unfold lookupZ; rewrite (proj2 (Z.leb_le 0 off)) by lia; done|].
    wp_step. wp_step. set (s2 := s1 <| ckpt ::= _ |>).
    assert (Hr2 : to_read s2 bl ds rest).
    { exists k, (off + 1), b. split; [|split; [done|]].
      - destruct Hr1 as [A1 A2 A3 A4 A5 A6 A7 A8 A9 A10]. split; try done.
        split; [done|]. split; [lia|]. intros ->. destruct A5 as (_ & _ & A5). specialize (A5 eq_refl). lia.
      - rewrite (drop_S b x) in Hrest by done. injection Hrest as Hrest.
        by replace (Z.to_nat (off + 1)) with (S (Z.to_nat off)) by lia. }
    eapply wp_mono; [apply (IH s2 bl ds rest (acc ++ [x]) Hr2); cbn in Hm; lia|].
    intros r s' (-> & Hr' & Hs' & Hx'). split; [by rewrite <- app_assoc|]. split; [done|].
    change (checkpointSum (ckpt s2)) with (u32 (checkpointSum (ckpt s1) + x)) in Hs'.
    change (checkpointXor (ckpt s2)) with (Z.lxor (checkpointXor (ckpt s1)) x) in Hx'.
    rewrite Hs1 in Hs'. rewrite Hx1 in Hx'. by split.
Qed.

Lemma CheckpointRead_spec s bl ds rest (m : nat) : to_read s bl ds rest -> (m <= length rest)%nat ->
  wp (yaffs_CheckpointRead cfg m) (fun r s' => r = (Z.of_nat m, take m rest) /\ to_read s' bl ds (drop m rest) /\
    sums_added s s' (take m rest)) s.
Proof.
  intros Hr Hm. pose proof Hr as (k & off & b & Hrd' & Hb & _).
  unfold yaffs_CheckpointRead, getC. wp_step. wp_step. wp_step. wp_step. rewrite Hb, (rg_mode _ _ _ _ _ Hrd').
  eapply wp_seq; [by apply (stream_read_loop m s bl ds rest [])|].
  intros r s' (-> & H1 & H2). apply wp_ret. cbn [app]. split; [|done]. by rewrite length_take, Nat.min_l.
Qed.

(** ** Writing *)

Definition as_checkpoint (bi : BlockInfo) : BlockInfo := bi <| blockState := BLOCK_STATE_CHECKPOINT |>.

Section tables.
(** The tables when the stream was opened. *)
Context (b0 : Blocks).

(** Only the states of the blocks [bl] are different since then. *)
Record tables_since (b : Blocks) (bl : list Z) : Prop := {
  ts_books : b = b0 <| blockInfo := blockInfo b |>;
  ts_len : length (blockInfo b) = length (blockInfo b0);
  ts_infos : forall blk bi, valid_block cfg blk -> blockInfo b0 !! index cfg blk = Some bi ->
    blockInfo b !! index cfg blk = Some (if decide (blk ∈ bl) then as_checkpoint bi else bi);
  ts_empty : forall blk bi, blk ∈ bl -> blockInfo b0 !! index cfg blk = Some bi -> blockState bi = BLOCK_STATE_EMPTY
}.

(** The stream has the pages [ds] in the blocks [bl]; [free] are the empty blocks that are left. *)
Record writing s (bl free : list Z) (ds : list (list Z)) : Prop := {
  wg_stored : stored (nand s) bl ds;
  wg_mode : checkpointOpenForWrite (ckpt s) = true;
  wg_seq : checkpointPageSequence (ckpt s) = Z.of_nat (length ds);
  wg_cur : if (length ds mod B =? 0)%nat then checkpointCurrentBlock (ckpt s) < 0
           else bl !! (length ds / B)%nat = Some (checkpointCurrentBlock (ckpt s)) /\
             checkpointCurrentChunk (ckpt s) = Z.of_nat (length ds mod B);
  wg_next : match length bl with
    | O => checkpointNextBlock (ckpt s) = internalStartBlock cfg
    | S i => exists b, bl !! i = Some b /\ checkpointNextBlock (ckpt s) = b + 1
    end;
  wg_free : forall b bi, valid_block cfg b -> checkpointNextBlock (ckpt s) <= b ->
    blockInfo (blks s) !! index cfg b = Some bi -> (blockState bi = BLOCK_STATE_EMPTY <-> b ∈ free);
  wg_rest : forall i b, free !! i = Some b -> valid_block cfg b /\ checkpointNextBlock (ckpt s) <= b /\
    forall j b', free !! j = Some b' -> (i < j)%nat -> b < b';
  wg_spare : 0 < nErasedBlocks (blks s) - nReservedBlocks cfg;
  wg_count : blocksInCheckpoint (ckpt s) = Z.of_nat (length bl);
  wg_infos : Z.of_nat (length (blockInfo (blks s))) = nBlocks cfg;
  wg_tables : tables_since (blks s) bl
}.

Lemma info_at s b : Z.of_nat (length (blockInfo (blks s))) = nBlocks cfg -> valid_block cfg b ->
  exists bi, blockInfo (blks s) !! index cfg b = Some bi.
Proof. intros Hl Hv. apply lookup_lt_is_Some_2. unfold index, valid_block, nBlocks in *. lia. Qed.

Lemma FindNextErasedBlock_spec s bl b free ds : writing s bl (b :: free) ds ->
  wp (yaffs_CheckpointFindNextErasedBlock cfg) (fun _ s' =>
    s' = s <| ckpt ::= fun c => c <| checkpointNextBlock := b + 1 |> <| checkpointCurrentBlock := b |> |>) s.
Proof.
  intros Hw. destruct (wg_rest _ _ _ _ Hw 0%nat b eq_refl) as (Hv & Hnext & Hsort). pose proof Hv as [Hv1 Hv2].
  assert (Hn0 : internalStartBlock cfg <= checkpointNextBlock (ckpt s)).
  { pose proof (wg_next _ _ _ _ Hw) as Hx. destruct (length bl) as [|i]; [lia|]. destruct Hx as (b' & Hb' & ->).
    pose proof (sr_valid _ _ _ (wg_stored _ _ _ _ Hw) b' ltac:(by eapply list_elem_of_lookup_2)) as [? _]. lia. }
  pose proof (c_start cfg Hcfg). pose proof (wg_spare _ _ _ _ Hw).
  unfold yaffs_CheckpointFindNextErasedBlock, getB, getC, modC. wp_step. wp_step. wp_step. wp_step. cbv zeta.
  rewrite (proj2 (Z.leb_le 0 _)), (proj2 (Z.leb_le _ (internalEndBlock cfg))), (proj2 (Z.ltb_lt 0 _)) by lia. cbn [andb].
  eapply wp_seq; [apply (wp_search (fun s' => s' = s) (fun r s' => r = Some tt /\
      s' = s <| ckpt ::= fun c => c <| checkpointNextBlock := b + 1 |> <| checkpointCurrentBlock := b |> |>)
      _ (checkpointNextBlock (ckpt s)) (internalEndBlock cfg) b); [lia|done|..]|].
  - intros i s1 Hi ->. assert (Hvi : valid_block cfg i) by (unfold valid_block; lia).
    destruct (info_at s i (wg_infos _ _ _ _ Hw) Hvi) as [bi Hbi].
    apply wp_bind, wp_GetBlockInfo with bi; [lia|done|].
    assert (Hne : is_state (blockState bi) BLOCK_STATE_EMPTY = false).
    { unfold is_state. apply bool_decide_eq_false_2. intros He.
      apply (wg_free _ _ _ _ Hw i bi Hvi) in He; [|lia|done]. rewrite elem_of_cons in He. destruct He as [->|He]; [lia|].
      apply list_elem_of_lookup in He as [j Hj]. pose proof (Hsort (S j) i Hj ltac:(lia)). lia. }
    rewrite Hne. by apply wp_ret.
  - intros s1 ->. destruct (info_at s b (wg_infos _ _ _ _ Hw) Hv) as [bi Hbi].
    apply wp_bind, wp_GetBlockInfo with bi; [lia|done|].
    assert (He : is_state (blockState bi) BLOCK_STATE_EMPTY = true).
    { unfold is_state. apply bool_decide_eq_true_2. apply (wg_free _ _ _ _ Hw b bi Hv); [lia|done|by left]. }
    rewrite He. wp_step. wp_step. apply wp_ret. by exists tt.
  - intros r s1 [-> ->]. by apply wp_ret.
Qed.

(** Pages of different places are different. *)
Lemma page_at_inj b b' j j' : 0 <= j < nChunksPerBlock cfg -> 0 <= j' < nChunksPerBlock cfg ->
  page_at b j = page_at b' j' -> b = b' /\ j = j'.
Proof. intros Hj Hj' H. unfold page_at in H. assert (b = b') as -> by nia. split; [done|lia]. Qed.

(** A page is added to the stream. *)
Lemma stored_add m m' bl ds b d t : stored m bl ds -> Z.of_nat (length d) = n ->
  (if (length ds mod B =? 0)%nat then valid_block cfg b /\ forall x, x ∈ bl -> x < b
   else bl !! (length ds / B)%nat = Some b) ->
  page m' (page_at b (Z.of_nat (length ds mod B))) = Some (d, t) ->
  (forall c, c <> page_at b (Z.of_nat (length ds mod B)) -> page m' c = page m c) ->
  sequenceNumber t = YAFFS_SEQUENCE_CHECKPOINT_DATA -> chunkId t = u32 (Z.of_nat (length ds) + 1) -> objectId t = u32 (b + 1) ->
  stored m' (if (length ds mod B =? 0)%nat then bl ++ [b] else bl) (ds ++ [d]).
Proof.
  intros Hst Hd Hb Hp Hother Hseq Hcid Hobj. pose proof B_pos as HB. pose proof B_Z as HBZ. set (L := length ds) in *.
  set (bl' := if (L mod B =? 0)%nat then bl ++ [b] else bl).
  assert (Hsub : forall i x, bl !! i = Some x -> bl' !! i = Some x).
  { intros i x Hx. unfold bl'. destruct (L mod B =? 0)%nat; [|done]. rewrite lookup_app_l; [done|by eapply lookup_lt_Some]. }
  assert (Hlb : length bl = blocks_of L) by apply Hst.
  assert (Hin : bl' !! (L / B)%nat = Some b).
  { unfold bl'. destruct (Nat.eqb_spec (L mod B) 0) as [H0|H0]; [|done].
    destruct (blocks_of_S_new L H0) as [_ HL]. rewrite HL in Hlb. rewrite lookup_app_r by lia. by rewrite Hlb, Nat.sub_diag. }
  assert (Hmod : forall k, 0 <= Z.of_nat (k mod B) < nChunksPerBlock cfg).
  { intros k. pose proof (Nat.mod_upper_bound k B ltac:(lia)). lia. }
  split.
  - intros k dk Hk. destruct (decide (k < L)%nat) as [Hlt|Hge].
    + rewrite lookup_app_l in Hk by done. destruct (sr_pages _ _ _ Hst k dk Hk) as (bk & Hbk & tk & Hpk & Hrest).
      exists bk. split; [by apply Hsub|]. exists tk. split; [|done]. rewrite Hother; [done|]. intros Heq.
      apply page_at_inj in Heq as [-> Hmm]; [|apply Hmod..].
      assert (Hq : (k / B = L / B)%nat).
      { destruct (Nat.eq_dec (k / B)%nat (L / B)%nat) as [|Hne]; [done|exfalso].
        destruct (Nat.lt_total (k / B)%nat (L / B)%nat) as [Hl|[Hl|Hl]]; [|done|].
        - destruct (Nat.eqb_spec (L mod B) 0) as [H0|H0].
          + destruct Hb as [_ Hb]. pose proof (Hb b ltac:(by eapply list_elem_of_lookup_2)). lia.
          + pose proof (sr_sorted _ _ _ Hst _ _ _ _ Hbk Hb Hl). lia.
        - pose proof (Nat.Div0.div_le_mono k L B ltac:(lia)). lia. }
      pose proof (Nat.div_mod k B ltac:(lia)). pose proof (Nat.div_mod L B ltac:(lia)). nia.
    + assert (k = L) as ->.
      { apply lookup_lt_Some in Hk. rewrite length_app in Hk. cbn in Hk. fold L in Hk. lia. }
      rewrite lookup_app_r in Hk by done. fold L in Hk. rewrite Nat.sub_diag in Hk. injection Hk as <-.
      exists b. split; [done|]. by exists t.
  - rewrite length_app, Nat.add_1_r. fold L. unfold bl'. destruct (Nat.eqb_spec (L mod B) 0) as [H0|H0].
    + rewrite length_app, Nat.add_1_r, Hlb. by destruct (blocks_of_S_new L H0) as [-> _].
    + by destruct (blocks_of_S_old L H0) as [-> _].
  - intros i j x y Hx Hy Hij. unfold bl' in Hx, Hy. destruct (L mod B =? 0)%nat eqn:E0; [|by apply (sr_sorted _ _ _ Hst i j)].
    apply lookup_app_Some in Hx as [Hx|[Hi1 Hx]], Hy as [Hy|[Hj1 Hy]].
    + by apply (sr_sorted _ _ _ Hst i j).
    + apply list_lookup_singleton_Some in Hy as [_ <-]. destruct Hb as [_ Hb]. apply Hb. by eapply list_elem_of_lookup_2.
    + apply lookup_lt_Some in Hy. lia.
    + apply list_lookup_singleton_Some in Hx as [Hx _], Hy as [Hy _]. lia.
  - intros x Hx. unfold bl' in Hx. destruct (L mod B =? 0)%nat; [|by apply Hst].
    apply elem_of_app in Hx as [Hx|Hx%list_elem_of_singleton]; [by apply Hst|]. subst x. apply Hb.
  - intros x Hv (dx & tx & Hpx & Hsx).
    destruct (decide (page_at x 0 = page_at b (Z.of_nat (L mod B)))) as [Heq|Hne].
    + apply page_at_inj in Heq as [-> _]; [by eapply list_elem_of_lookup_2|pose proof (c_npb cfg Hcfg); lia|apply Hmod].
    + rewrite Hother in Hpx by done. assert (Hxin : x ∈ bl) by (apply (sr_marked _ _ _ Hst); [done|by exists dx, tx]).
      apply list_elem_of_lookup in Hxin as [i Hi]. by eapply list_elem_of_lookup_2, Hsub.
  - apply Forall_app. split; [apply Hst|by apply list.Forall_singleton].
Qed.

(** The block and the page that the buffer goes to: block [b] is new, or the one in use. *)
Record located s s' (bl bl' free free' : list Z) (ds : list (list Z)) (b : Z) : Prop := {
  lc_new : if (length ds mod B =? 0)%nat then free = b :: free' /\ bl' = bl ++ [b]
           else free' = free /\ bl' = bl /\ bl !! (length ds / B)%nat = Some b;
  lc_cur : checkpointCurrentBlock (ckpt s') = b;
  lc_chunk : checkpointCurrentChunk (ckpt s') = Z.of_nat (length ds mod B);
  lc_next : checkpointNextBlock (ckpt s') = b + 1;
  lc_nand : nand s' = nand s;
  lc_blks : blks s' = blks s;
  lc_count : blocksInCheckpoint (ckpt s') = blocksInCheckpoint (ckpt s);
  lc_rest : same_stream (ckpt s) (ckpt s')
}.

Lemma locate_spec s bl free ds : writing s bl free ds -> (length ds < (length bl + length free) * B)%nat ->
  wp (when (checkpointCurrentBlock (ckpt s) <? 0) (
        _ ← yaffs_CheckpointFindNextErasedBlock cfg;
        modC (fun c => c <| checkpointCurrentChunk := 0 |>)))
    (fun _ s' => exists b bl' free', located s s' bl bl' free free' ds b) s.
Proof.
  intros Hw Hroom. pose proof (wg_cur _ _ _ _ Hw) as Hcur. pose proof (wg_stored _ _ _ _ Hw) as Hst.
  pose proof B_pos. pose proof (sr_blocks _ _ _ Hst) as Hlb. apply wp_when.
  destruct (Nat.eqb_spec (length ds mod B) 0) as [H0|H0].
  - rewrite (proj2 (Z.ltb_lt _ _)) by done. destruct free as [|b free].
    { exfalso. destruct (blocks_of_S_new _ H0) as [_ Hq]. rewrite Hq in Hlb. cbn [length] in Hroom.
      pose proof (Nat.div_mod (length ds) B ltac:(lia)). nia. }
    eapply wp_seq; [by apply (FindNextErasedBlock_spec s bl b free ds)|]. intros [] s1 ->. unfold modC. wp_step.
    exists b, (bl ++ [b]), free. split; simp_fields; try done; [|by rewrite H0].
    by rewrite H0.
  - destruct Hcur as [Hb Hchunk]. set (b := checkpointCurrentBlock (ckpt s)) in *.
    pose proof (sr_valid _ _ _ Hst b ltac:(by eapply list_elem_of_lookup_2)) as Hv. unfold valid_block in Hv.
    pose proof (c_start cfg Hcfg). rewrite (proj2 (Z.ltb_ge _ _)) by lia.
    exists b, bl, free. destruct (blocks_of_S_old _ H0) as [_ Hq]. rewrite Hq in Hlb.
    pose proof (wg_next _ _ _ _ Hw) as Hnext. rewrite Hlb in Hnext. destruct Hnext as (b' & Hb' & Hnext).
    assert (b' = b) as -> by congruence.
    split; try done. by rewrite (proj2 (Nat.eqb_neq _ _)) by done.
Qed.

(** The first page of a block makes it a block of the checkpoint. *)
Definition block_marked (b1 b2 : Blocks) (ds : list (list Z)) (b : Z) : Prop :=
  if (length ds mod B =? 0)%nat then exists bi, blockInfo b1 !! index cfg b = Some bi /\
    b2 = b1 <| blockInfo := <[index cfg b := as_checkpoint bi]> (blockInfo b1) |>
  else b2 = b1.

Lemma block_marked_infos b1 b2 ds b : block_marked b1 b2 ds b ->
  length (blockInfo b2) = length (blockInfo b1) /\ nErasedBlocks b2 = nErasedBlocks b1 /\
  forall i, i <> index cfg b -> blockInfo b2 !! i = blockInfo b1 !! i.
Proof.
  unfold block_marked. destruct (length ds mod B =? 0)%nat; [|by intros ->].
  intros (bi & Hbi & ->). simp_fields. rewrite length_insert. split; [done|]. split; [done|].
  intros i Hi. apply list_lookup_insert_ne. congruence.
Qed.

(** What a flush of page [d] to block [b] leaves. *)
Record flushed s s' (ds : list (list Z)) (b : Z) (d : list Z) : Prop := {
  fl_page : exists t, page (nand s') (page_at b (Z.of_nat (length ds mod B))) = Some (d, t) /\
    sequenceNumber t = YAFFS_SEQUENCE_CHECKPOINT_DATA /\ chunkId t = u32 (Z.of_nat (length ds) + 1) /\ objectId t = u32 (b + 1);
  fl_others : forall c, c <> page_at b (Z.of_nat (length ds mod B)) -> page (nand s') c = page (nand s) c;
  fl_blks : block_marked (blks s) (blks s') ds b;
  fl_mode : checkpointOpenForWrite (ckpt s') = true;
  fl_seq : checkpointPageSequence (ckpt s') = Z.of_nat (S (length ds));
  fl_cur : if (B <=? length ds mod B + 1)%nat then checkpointCurrentBlock (ckpt s') = -1
    else checkpointCurrentBlock (ckpt s') = b /\ checkpointCurrentChunk (ckpt s') = Z.of_nat (S (length ds mod B));
  fl_next : checkpointNextBlock (ckpt s') = b + 1;
  fl_count : blocksInCheckpoint (ckpt s') = blocksInCheckpoint (ckpt s) + (if (length ds mod B =? 0)%nat then 1 else 0)
}.

(** The blocks that are still free, whether the page opened a new one or not. *)
Lemma free_next s s1 bl bl' free free' ds b : writing s bl free ds -> located s s1 bl bl' free free' ds b ->
  valid_block cfg b /\ checkpointNextBlock (ckpt s) <= b + 1 /\ (forall x, x ∈ bl -> x <= b) /\
  (forall x, b + 1 <= x -> x ∈ free <-> x ∈ free') /\
  (forall i x, free' !! i = Some x -> b + 1 <= x) /\
  (forall i j x y, free' !! i = Some x -> free' !! j = Some y -> (i < j)%nat -> x < y) /\
  (forall x, x ∈ free' -> x ∈ free).
Proof.
  intros Hw Hl. pose proof (lc_new _ _ _ _ _ _ _ _ Hl) as Hn. pose proof (wg_stored _ _ _ _ Hw) as Hst.
  pose proof (wg_next _ _ _ _ Hw) as Hnx. pose proof (sr_blocks _ _ _ Hst) as Hlb.
  assert (Hall : forall x i last, length bl = S i -> bl !! i = Some last -> x ∈ bl -> x <= last).
  { intros x i last Hi Hlast Hx. apply list_elem_of_lookup in Hx as [j Hj].
    destruct (decide (j = i)) as [->|]; [simplify_eq; lia|]. apply lookup_lt_Some in Hj as Hjl.
    pose proof (sr_sorted _ _ _ Hst j i x last Hj Hlast ltac:(lia)). lia. }
  destruct (Nat.eqb_spec (length ds mod B) 0) as [H0|H0].
  - destruct Hn as [-> ->]. destruct (wg_rest _ _ _ _ Hw 0%nat b eq_refl) as (Hv & Hge & Hsort).
    split; [done|]. split; [lia|]. split.
    { intros x Hx. destruct (length bl) as [|i] eqn:E; [apply list_elem_of_lookup in Hx as [j Hj]; apply lookup_lt_Some in Hj; lia|].
      destruct Hnx as (last & Hlast & Hnx). pose proof (Hall x i last eq_refl Hlast Hx). lia. }
    split. { intros x Hx. rewrite elem_of_cons. split; [intros [->|]; [lia|done]|by right]. }
    split. { intros i x Hx. pose proof (Hsort (S i) x Hx ltac:(lia)). lia. }
    split; [|by right]. intros i j x y Hx Hy Hij. destruct (wg_rest _ _ _ _ Hw (S i) x Hx) as (_ & _ & Hs).
    apply (Hs (S j) y Hy). lia.
  - destruct Hn as (-> & -> & Hb). destruct (blocks_of_S_old _ H0) as [_ Hq]. rewrite Hq in Hlb. rewrite Hlb in Hnx.
    destruct Hnx as (b' & Hb' & Hnx). assert (b' = b) as -> by congruence.
    split; [apply (sr_valid _ _ _ Hst); by eapply list_elem_of_lookup_2|]. split; [lia|].
    split; [intros x Hx; by apply (Hall x (length ds / B)%nat)|]. split; [done|].
    split. { intros i x Hx. destruct (wg_rest _ _ _ _ Hw i x Hx) as (_ & ? & _). lia. }
    split; [|done]. intros i j x y Hx Hy Hij. destruct (wg_rest _ _ _ _ Hw i x Hx) as (_ & _ & Hs). by apply (Hs j y).
Qed.

Lemma tables_next s s1 bl bl' free free' ds b b2 : writing s bl free ds -> located s s1 bl bl' free free' ds b ->
  block_marked (blks s) b2 ds b -> tables_since b2 bl'.
Proof.
  intros Hw Hl Hm. pose proof (wg_tables _ _ _ _ Hw) as [H1 H2 H3 H4].
  destruct (free_next _ _ _ _ _ _ _ _ Hw Hl) as (Hv & _). pose proof (lc_new _ _ _ _ _ _ _ _ Hl) as Hnew.
  unfold block_marked in Hm. destruct (length ds mod B =? 0)%nat.
  2: { destruct Hnew as (_ & -> & _). subst b2. by split. }
  destruct Hnew as [-> ->], Hm as (bi & Hbi & ->). destruct (wg_rest _ _ _ _ Hw 0%nat b eq_refl) as (_ & Hge & _).
  assert (He : blockState bi = BLOCK_STATE_EMPTY) by (apply (wg_free _ _ _ _ Hw b bi Hv Hge Hbi); by left).
  assert (Hb0 : exists bi0, blockInfo b0 !! index cfg b = Some bi0).
  { apply lookup_lt_is_Some_2. rewrite <- H2. by eapply lookup_lt_Some. }
  destruct Hb0 as [bi0 Hb0]. pose proof (H3 b bi0 Hv Hb0) as Hb. rewrite Hbi in Hb.
  destruct (decide (b ∈ bl)) as [Hin|Hin]; [injection Hb as ->; done|]. injection Hb as ->.
  split; simp_fields.
  - rewrite H1 at 1. done.
  - by rewrite length_insert.
  - intros blk bi Hvb Hbb. destruct (decide (blk = b)) as [->|Hne].
    + rewrite list_lookup_insert_eq by (by eapply lookup_lt_Some). rewrite decide_True by (apply elem_of_app; right; by left). congruence.
    + rewrite list_lookup_insert_ne by (unfold index, valid_block in *; lia). rewrite (H3 blk bi Hvb Hbb). do 2 f_equal.
      apply decide_ext. rewrite elem_of_app, list_elem_of_singleton. tauto.
  - intros blk bi Hin' Hbb. apply elem_of_app in Hin' as [Hin'|Hin'%list_elem_of_singleton]; [by apply (H4 blk)|]. congruence.
Qed.

Lemma writing_next s s1 s' bl bl' free free' ds b d : writing s bl free ds -> located s s1 bl bl' free free' ds b ->
  flushed s s' ds b d -> Z.of_nat (length d) = n -> writing s' bl' free' (ds ++ [d]).
Proof.
  intros Hw Hl Hf Hd. pose proof B_pos. pose proof B_Z. pose proof (wg_stored _ _ _ _ Hw) as Hst.
  destruct (free_next _ _ _ _ _ _ _ _ Hw Hl) as (Hv & Hnb & Hbl & Hiff & Hlow & Hsort & Hsub).
  pose proof (lc_new _ _ _ _ _ _ _ _ Hl) as Hnew. destruct (fl_page _ _ _ _ _ Hf) as (t & Hp & Ht1 & Ht2 & Ht3).
  destruct (block_marked_infos _ _ _ _ (fl_blks _ _ _ _ _ Hf)) as (Hil & Hie & Hio). pose proof (fl_next _ _ _ _ _ Hf) as Hnx.
  assert (Hbl' : bl' = if (length ds mod B =? 0)%nat then bl ++ [b] else bl) by (destruct (length ds mod B =? 0)%nat; tauto).
  assert (Hst' : stored (nand s') bl' (ds ++ [d])).
  { rewrite Hbl'. apply (stored_add (nand s) (nand s') bl ds b d t); try done; [|by apply (fl_others _ _ _ _ _ Hf)].
    destruct (length ds mod B =? 0)%nat eqn:E0; [|tauto]. split; [done|]. intros x Hx. destruct Hnew as [-> _].
    destruct (wg_rest _ _ _ _ Hw 0%nat b eq_refl) as (_ & Hge & _). pose proof (wg_next _ _ _ _ Hw) as Hnext.
    apply list_elem_of_lookup in Hx as [i Hi]. apply lookup_lt_Some in Hi as Hil'.
    destruct (length bl) as [|l] eqn:El; [lia|]. destruct Hnext as (last & Hlast & Hnext).
    destruct (decide (i = l)) as [->|]; [simplify_eq; lia|].
    pose proof (sr_sorted _ _ _ Hst i l x last Hi Hlast ltac:(lia)). lia. }
  assert (Hlen : length (ds ++ [d]) = S (length ds)) by (rewrite length_app; cbn; lia).
  assert (Hin : bl' !! (length ds / B)%nat = Some b).
  { rewrite Hbl'. destruct (Nat.eqb_spec (length ds mod B) 0) as [Hz|Hz]; [|tauto].
    destruct (blocks_of_S_new _ Hz) as [_ Hq]. rewrite <- Hq, <- (sr_blocks _ _ _ Hst).
    rewrite lookup_app_r by lia. by rewrite Nat.sub_diag. }
  pose proof (next_in_block (length ds)) as Hib.
  split; try rewrite Hlen; try done; try apply Hf.
  - pose proof (fl_cur _ _ _ _ _ Hf) as Hc. destruct (B <=? length ds mod B + 1)%nat.
    + rewrite Hib. cbn. lia.
    + destruct Hib as [-> ->]. destruct Hc as [-> ->]. cbn. done.
  - rewrite (sr_blocks _ _ _ Hst'), Hlen, blocks_of_S. by exists b.
  - intros x bi Hvx Hge Hbi. rewrite Hnx in Hge.
    rewrite Hio in Hbi by (unfold index, valid_block in *; lia).
    rewrite (wg_free _ _ _ _ Hw x bi Hvx) by (done || lia). by apply Hiff.
  - intros i x Hx. assert (Hin' : x ∈ free) by (apply Hsub; by eapply list_elem_of_lookup_2).
    apply list_elem_of_lookup in Hin' as [k Hk]. destruct (wg_rest _ _ _ _ Hw k x Hk) as (Hvx & _ & _).
    split; [done|]. split; [rewrite Hnx; by apply (Hlow i)|]. intros j y Hy Hij. by apply (Hsort i j).
  - rewrite Hie. apply Hw.
  - rewrite (fl_count _ _ _ _ _ Hf), (wg_count _ _ _ _ Hw), Hbl'.
    destruct (length ds mod B =? 0)%nat; [rewrite length_app; cbn; lia|lia].
  - rewrite Hil. apply Hw.
  - apply (tables_next s s1 bl bl' free free' ds b); [done|done|apply Hf].
Qed.

Lemma mark_block_spec s s1 bl bl' free free' ds b : writing s bl free ds -> located s s1 bl bl' free free' ds b ->
  wp (when (checkpointCurrentChunk (ckpt s1) =? 0) (
        _ ← set_block_info cfg b (fun bi => bi <| blockState := BLOCK_STATE_CHECKPOINT |>);
        modC (fun c => c <| blocksInCheckpoint ::= Z.succ |>)))
    (fun _ s' => nand s' = nand s1 /\ same_stream (ckpt s1) (ckpt s') /\ block_marked (blks s) (blks s') ds b /\
      checkpointCurrentBlock (ckpt s') = b /\ checkpointCurrentChunk (ckpt s') = Z.of_nat (length ds mod B) /\
      checkpointNextBlock (ckpt s') = b + 1 /\
      blocksInCheckpoint (ckpt s') = blocksInCheckpoint (ckpt s1) + (if (length ds mod B =? 0)%nat then 1 else 0)) s1.
Proof.
  intros Hw Hl. destruct (free_next _ _ _ _ _ _ _ _ Hw Hl) as (Hv & _). pose proof B_pos. destruct Hl as [_ E1 E2 E3 _ E4 _ _].
  apply wp_when. rewrite E2, <- E4. unfold block_marked.
  replace (Z.of_nat (length ds mod B) =? 0) with (length ds mod B =? 0)%nat
    by (destruct (Nat.eqb_spec (length ds mod B) 0) as [->|]; [done|symmetry; apply Z.eqb_neq; lia]).
  destruct (length ds mod B =? 0)%nat; [|split; [done|]; split; [by split|]; repeat split; try done; lia].
  destruct (info_at s1 b) as [bi Hbi]; [rewrite E4; apply Hw|done|].
  set (infos := <[index cfg b := as_checkpoint bi]> (blockInfo (blks s1))).
  apply wp_bind. eapply wp_set_block_info; [apply Hv|done|]. unfold as_checkpoint in infos. fold infos.
  unfold modC, with_infos. wp_step. simp_fields. split; [done|]. split; [by split|]. split; [by exists bi|].
  repeat split; lia || done.
Qed.

Lemma FlushBuffer_spec s bl free ds d : writing s bl free ds -> checkpointBuffer (ckpt s) = Some d ->
  Z.of_nat (length d) = n -> (length ds < (length bl + length free) * B)%nat ->
  wp (yaffs_CheckpointFlushBuffer cfg) (fun ok s' => ok = 1 /\ sums_added s s' [] /\
    checkpointBuffer (ckpt s') = Some (replicate (Z.to_nat n) 0) /\ checkpointByteOffset (ckpt s') = 0 /\
    exists bl' free', writing s' bl' free' (ds ++ [d]) /\ (length bl' + length free' = length bl + length free)%nat /\
      bl ⊆ bl') s.
Proof.
  intros Hw Hbuf Hd Hroom. pose proof B_pos as HB. pose proof B_Z as HBZ.
  unfold yaffs_CheckpointFlushBuffer, getC. wp_step. wp_step.
  eapply wp_seq; [by apply (locate_spec s bl free ds)|]. intros [] s1 (b & bl' & free' & Hl).
  destruct (free_next _ _ _ _ _ _ _ _ Hw Hl) as ([Hv1 Hv2] & _). pose proof (c_start cfg Hcfg).
  wp_step. wp_step. rewrite (lc_cur _ _ _ _ _ _ _ _ Hl), (proj2 (Z.ltb_ge _ _)) by lia.
  wp_step. wp_step. wp_step. wp_step. wp_step. wp_step. cbv zeta.
  eapply wp_seq; [by apply (mark_block_spec s s1 bl bl' free free' ds b)|].
  intros [] s2 (Hn2 & Hss2 & Hbm & Hcb & Hcc & Hnx & Hct2).
  apply wp_bind, wp_of_option with wr; [done|]. wp_step. wp_step. apply wp_bind, wp_on_nand.
  rewrite (ss_buf _ _ Hss2), (ss_buf _ _ (lc_rest _ _ _ _ _ _ _ _ Hl)), Hbuf, (lc_chunk _ _ _ _ _ _ _ _ Hl), (lc_next _ _ _ _ _ _ _ _ Hl).
  replace (b * nChunksPerBlock cfg + Z.of_nat (length ds mod B) - chunkOffset cfg) with (page_at b (Z.of_nat (length ds mod B))) by done.
  set (tags := stack_tags <| chunkDeleted := 0 |> <| objectId := _ |> <| chunkId := _ |> <| sequenceNumber := _ |> <| byteCount := _ |>).
  pose proof (ps_write wr (page_at b (Z.of_nat (length ds mod B))) d tags (nand s2) Hwr Hd) as [(t' & Hp & Ho & Hc & Hsq) Hother].
  set (m' := snd (wr (page_at b (Z.of_nat (length ds mod B))) (Some d) tags (nand s2))) in *.
  rewrite Hn2, (lc_nand _ _ _ _ _ _ _ _ Hl) in Hother.
  pose proof (ss_seq _ _ (lc_rest _ _ _ _ _ _ _ _ Hl)) as Hsq1. rewrite (wg_seq _ _ _ _ Hw) in Hsq1.
  assert (Hfl : forall s', nand s' = m' -> blks s' = blks s2 -> checkpointOpenForWrite (ckpt s') = true ->
    checkpointPageSequence (ckpt s') = Z.of_nat (S (length ds)) -> checkpointNextBlock (ckpt s') = b + 1 ->
    blocksInCheckpoint (ckpt s') = blocksInCheckpoint (ckpt s2) ->
    (if (B <=? length ds mod B + 1)%nat then checkpointCurrentBlock (ckpt s') = -1
     else checkpointCurrentBlock (ckpt s') = b /\ checkpointCurrentChunk (ckpt s') = Z.of_nat (S (length ds mod B))) ->
    exists bl' free', writing s' bl' free' (ds ++ [d]) /\ (length bl' + length free' = length bl + length free)%nat /\ bl ⊆ bl').
  { intros s' E1 E2 E3 E4 E5 E6 E7. exists bl', free'. split.
    - apply (writing_next s s1 s' bl bl' free free' ds b d); try done. split; rewrite ?E1, ?E2, ?E6; try done.
      + exists t'. split; [done|]. split; [done|]. split; [by rewrite Hc, <- Hsq1|by rewrite Ho].
      + by rewrite Hct2, (lc_count _ _ _ _ _ _ _ _ Hl).
    - pose proof (lc_new _ _ _ _ _ _ _ _ Hl) as Hnew. destruct (length ds mod B =? 0)%nat.
      + destruct Hnew as [-> ->]. rewrite length_app. cbn. split; [lia|]. intros y Hy. apply elem_of_app. by left.
      + by destruct Hnew as (-> & -> & _). }
  assert (HleB : (nChunksPerBlock cfg <=? Z.of_nat (length ds mod B) + 1) = (B <=? length ds mod B + 1)%nat).
  { destruct (Nat.leb_spec B (length ds mod B + 1)); [apply Z.leb_le|apply Z.leb_gt]; lia. }
  assert (Hms : checkpointOpenForWrite (ckpt s2) = true).
  { rewrite (ss_mode _ _ Hss2), (ss_mode _ _ (lc_rest _ _ _ _ _ _ _ _ Hl)). apply Hw. }
  assert (Hsq2 : checkpointPageSequence (ckpt s2) = Z.of_nat (length ds)) by (by rewrite (ss_seq _ _ Hss2)).
  assert (Hsum : checkpointSum (ckpt s2) = checkpointSum (ckpt s) /\ checkpointXor (ckpt s2) = checkpointXor (ckpt s)).
  { destruct Hss2, (lc_rest _ _ _ _ _ _ _ _ Hl). split; congruence. }
  unfold modC. rewrite HleB. destruct (B <=? length ds mod B + 1)%nat eqn:EB; wp_steps; (split; [done|]); (split; [done|]);
    (split; [done|]); (split; [done|]); apply Hfl; simp_fields; try done; rewrite ?Hsq2, ?Hcc; try lia.
Qed.

(** The bytes [all] were written: pages that are full, in the blocks [bl], and the part of one in
    the buffer.  [K] blocks are used or free. *)
Definition written s (bl : list Z) (K : nat) (all : list Z) : Prop := exists free ds part,
  writing s bl free ds /\ (length bl + length free = K)%nat /\ all = concat ds ++ part /\
  checkpointBuffer (ckpt s) = Some (part ++ replicate (Z.to_nat n - length part) 0) /\
  checkpointByteOffset (ckpt s) = Z.of_nat (length part) /\ Z.of_nat (length part) < n.
(** So they are now, in these blocks and perhaps more. *)
Definition written_on s (bl : list Z) (K : nat) (all : list Z) : Prop := exists bl', bl ⊆ bl' /\ written s bl' K all.

Lemma written_here s bl K all : written s bl K all -> written_on s bl K all.
Proof. intros H. by exists bl. Qed.

Lemma written_on_sub s bl bl' K all : bl ⊆ bl' -> written_on s bl' K all -> written_on s bl K all.
Proof. intros Hs (bl2 & Hs2 & H). exists bl2. split; [by etransitivity|done]. Qed.

Lemma pages_length (ds : list (list Z)) : Forall (fun d => Z.of_nat (length d) = n) ds -> length (concat ds) = (length ds * Z.to_nat n)%nat.
Proof.
  induction 1 as [|d ds Hd _ IH]; [done|]. cbn [concat length]. rewrite length_app, IH. lia.
Qed.

(** As many bytes as fit leave a block for the page. *)
Lemma room_for_page bl free ds m (extra : nat) : stored m bl ds -> (0 < extra)%nat ->
  (length (concat ds) + extra <= (length bl + length free) * B * Z.to_nat n)%nat ->
  (length ds < (length bl + length (free : list Z)) * B)%nat.
Proof.
  intros Hst Hx Hle. rewrite (pages_length ds) in Hle by apply Hst. pose proof (c_data cfg Hcfg). unfold n in *. nia.
Qed.

Lemma writing_frame s s' bl free ds : writing s bl free ds -> nand s' = nand s -> blks s' = blks s ->
  checkpointOpenForWrite (ckpt s') = checkpointOpenForWrite (ckpt s) ->
  checkpointPageSequence (ckpt s') = checkpointPageSequence (ckpt s) ->
  checkpointCurrentBlock (ckpt s') = checkpointCurrentBlock (ckpt s) ->
  checkpointCurrentChunk (ckpt s') = checkpointCurrentChunk (ckpt s) ->
  checkpointNextBlock (ckpt s') = checkpointNextBlock (ckpt s) ->
  blocksInCheckpoint (ckpt s') = blocksInCheckpoint (ckpt s) -> writing s' bl free ds.
Proof. intros [] E1 E2 E3 E4 E5 E6 E7 E8. split; rewrite ?E1, ?E2, ?E3, ?E4, ?E5, ?E6, ?E7, ?E8; done. Qed.

Lemma put_spec s bl (K : nat) all byte : written s bl K all -> (length all < K * B * Z.to_nat n)%nat ->
  wp (checkpoint_put cfg byte) (fun ok s' => ok = 1 /\ written_on s' bl K (all ++ [byte]) /\ sums_added s s' [byte]) s.
Proof.
  intros (free & ds & part & Hw & HK & -> & Hbuf & Hoff & Hlt) Hroom.
  set (pad := (Z.to_nat n - length part)%nat) in *.
  assert (Hpad : pad = S (pad - 1)) by lia.
  unfold checkpoint_put, getC, modC. wp_step. wp_step. rewrite Hbuf. eapply wp_bind, wp_of_option; [done|].
  wp_step. wp_step. rewrite Hoff.
  set (full := part ++ byte :: replicate (pad - 1) 0).
  apply wp_bind, wp_of_option with full.
  { rewrite updateZ_Some by (rewrite length_app, length_replicate; lia). unfold full.
    rewrite Nat2Z.id, Hpad. rewrite insert_app_r_alt, Nat.sub_diag by lia. cbn [replicate]. by rewrite Hpad at 1. }
  wp_step. wp_step. fold n. rewrite (proj2 (Z.ltb_ge _ 0)) by lia. cbn [orb].
  set (s1 := s <| ckpt ::= _ |>).
  assert (Hw1 : writing s1 bl free ds) by (by apply (writing_frame s)).
  assert (Hall : (concat ds ++ part) ++ [byte] = concat ds ++ (part ++ [byte])) by (by rewrite app_assoc).
  destruct (Z.leb_spec n (Z.of_nat (length part) + 1)).
  - assert (Hfull : full = part ++ [byte]) by (unfold full; by replace (pad - 1)%nat with 0%nat by lia).
    eapply wp_mono; [apply (FlushBuffer_spec s1 bl free ds full Hw1)|]; [done|..].
    + rewrite Hfull, length_app. cbn. lia.
    + eapply (room_for_page bl free ds (nand s) 1); [apply Hw|lia|]. rewrite HK. rewrite length_app in Hroom. lia.
    + intros ok s' (-> & [Hsum Hxor] & Hbuf' & Hoff' & bl' & free' & Hw' & HK' & Hsub). split; [done|]. split; [|split].
      * exists bl'. split; [done|]. exists free', (ds ++ [full]), []. split; [done|]. split; [lia|]. split.
        { rewrite Hall, concat_app, Hfull. cbn. by rewrite !app_nil_r. }
        cbn [length app]. rewrite Nat.sub_0_r. split; [done|]. split; [done|]. pose proof (c_data cfg Hcfg). unfold n. lia.
      * by rewrite Hsum.
      * by rewrite Hxor.
  - apply wp_ret. split; [done|]. split; [|split; done].
    apply written_here. exists free, ds, (part ++ [byte]). split; [done|]. split; [done|]. split; [done|].
    rewrite length_app. cbn [length]. split; [|split; [|lia]].
    + unfold s1. simp_fields. unfold full. rewrite <- app_assoc. cbn [app]. do 4 f_equal. lia.
    + unfold s1. simp_fields. lia.
Qed.

Lemma sums_app s s1 s2 l l' : sums_added s s1 l -> sums_added s1 s2 l' -> sums_added s s2 (l ++ l').
Proof. intros [H1 H2] [H3 H4]. unfold sums_added, add_sum, add_xor in *. rewrite !foldl_app. split; congruence. Qed.

Lemma stream_write_loop data : forall s bl (K : nat) all i, written s bl K all ->
  (length all + length data <= K * B * Z.to_nat n)%nat ->
  wp (checkpoint_write_loop cfg data i) (fun r s' => r = i + Z.of_nat (length data) /\ written_on s' bl K (all ++ data) /\
    sums_added s s' data) s.
Proof.
  induction data as [|byte data IH]; intros s bl K all i Hw Hroom; cbn [checkpoint_write_loop length] in *.
  - apply wp_ret. rewrite app_nil_r. split; [lia|]. split; [by apply written_here|done].
  - eapply wp_seq; [apply (put_spec s bl K all byte Hw); lia|]. intros ok s1 (-> & (bl1 & Hsub & Hw1) & Hs1).
    change (ztrue 1) with true. cbv iota.
    eapply wp_mono; [apply (IH s1 bl1 K (all ++ [byte]) (i + 1) Hw1); rewrite length_app; cbn; lia|].
    intros r s2 (-> & Hw2 & Hs2). split; [lia|]. rewrite <- app_assoc in Hw2. split; [by apply (written_on_sub _ _ bl1)|].
    by apply (sums_app s s1 s2 [byte] data).
Qed.

Lemma CheckpointWrite_spec s bl (K : nat) all data : written s bl K all ->
  (length all + length data <= K * B * Z.to_nat n)%nat ->
  wp (yaffs_CheckpointWrite cfg data) (fun r s' => r = Z.of_nat (length data) /\ written_on s' bl K (all ++ data) /\
    sums_added s s' data) s.
Proof.
  intros Hw Hroom. pose proof Hw as (free & ds & part & Hwr' & _ & _ & Hbuf & _).
  unfold yaffs_CheckpointWrite, getC. wp_step. wp_step. wp_step. wp_step. rewrite Hbuf, (wg_mode _ _ _ _ Hwr'). cbn [negb].
  by apply (stream_write_loop data s bl K all 0).
Qed.

(** The counters after [k] blocks went to the checkpoint. *)
Definition counted_out (k : Z) (b : Blocks) : Blocks :=
  b <| nFreeChunks ::= fun f => f - k * nChunksPerBlock cfg |> <| nErasedBlocks ::= fun e => e - k |>.

(** Closing writes what is left in the buffer. *)
Lemma CheckpointClose_written s bl (K : nat) all : written s bl K all -> (length all <= K * B * Z.to_nat n)%nat ->
  wp (yaffs_CheckpointClose cfg) (fun r s' => r = 1 /\ checkpointBuffer (ckpt s') = None /\
    exists bl' ds pad b, bl ⊆ bl' /\ stored (nand s') bl' ds /\ concat ds = all ++ pad /\
      (length ds * Z.to_nat n < length all + Z.to_nat n)%nat /\
      tables_since b bl' /\ blks s' = counted_out (Z.of_nat (length bl')) b) s.
Proof.
  intros (free & ds & part & Hw & HK & -> & Hbuf & Hoff & Hlt) Hroom.
  unfold yaffs_CheckpointClose, getC, modC, getB, modB. wp_step. wp_step. rewrite (wg_mode _ _ _ _ Hw).
  pose proof (c_data cfg Hcfg) as Hn. fold n in Hn.
  assert (Hpl : length (concat ds) = (length ds * Z.to_nat n)%nat) by (apply pages_length, Hw).
  apply wp_bind. wp_step. wp_step. rewrite Hoff. apply wp_when. unfold ztrue. destruct part as [|x part].
  - cbn [length]. change (Z.of_nat 0 =? 0) with true. cbn [negb]. wp_steps. simp_fields. rewrite Hbuf. wp_steps.
    split; [done|]. split; [done|]. exists bl, ds, [], (blks s). split; [done|]. split; [apply Hw|].
    rewrite !app_nil_r. split; [done|]. split; [lia|]. split; [apply Hw|]. simp_fields. by rewrite (wg_count _ _ _ _ Hw).
  - rewrite (proj2 (Z.eqb_neq _ _)) by (cbn [length]; lia). cbn [negb]. set (part' := x :: part) in *.
    apply wp_bind. eapply wp_mono; [apply (FlushBuffer_spec s bl free ds _ Hw Hbuf)|].
    + rewrite length_app, length_replicate. lia.
    + apply (room_for_page bl free ds (nand s) (length part')); [apply Hw|cbn; lia|]. rewrite HK. rewrite length_app in Hroom. lia.
    + intros ok s1 (-> & _ & Hbuf1 & _ & bl' & free' & Hw' & _ & Hsub). wp_steps. simp_fields. rewrite Hbuf1. wp_steps.
      split; [done|]. split; [done|]. exists bl', (ds ++ [part' ++ replicate (Z.to_nat n - length part') 0]),
        (replicate (Z.to_nat n - length part') 0), (blks s1).
      split; [done|]. split; [apply Hw'|]. rewrite concat_app. cbn [concat]. rewrite app_nil_r, app_assoc. split; [done|].
      split; [rewrite !length_app, Hpl; unfold part'; cbn [length]; lia|]. split; [apply Hw'|].
      simp_fields. by rewrite (wg_count _ _ _ _ Hw').
Qed.
End tables.

(** ** Opening for writing *)

(** The blocks that a new checkpoint can use: the empty ones and those of the old one. *)
Definition usable s (b : Z) : bool :=
  match blockInfo (blks s) !! index cfg b with
  | Some bi => is_state (blockState bi) BLOCK_STATE_EMPTY || is_state (blockState bi) BLOCK_STATE_CHECKPOINT
  | None => false
  end.
Definition room s : list Z :=
  filter (fun b => usable s b = true) (seqZ (internalStartBlock cfg) (nBlocks cfg)).

(** The blocks that begin with a page of a checkpoint are known as such. *)
Definition checkpoint_known s : Prop := forall b bi, valid_block cfg b -> marked (nand s) b ->
  blockInfo (blks s) !! index cfg b = Some bi -> blockState bi = BLOCK_STATE_CHECKPOINT.

(** The blocks of [l] were looked at and erased if they are the checkpoint's. *)
Record erased_to (l : list Z) s s' : Prop := {
  et_ckpt : ckpt s' = ckpt s;
  et_count : nErasedBlocks (blks s) <= nErasedBlocks (blks s');
  et_len : length (blockInfo (blks s')) = length (blockInfo (blks s));
  et_infos : forall b bi, valid_block cfg b -> blockInfo (blks s) !! index cfg b = Some bi ->
    blockInfo (blks s') !! index cfg b = Some (if decide (b ∈ l /\ blockState bi = BLOCK_STATE_CHECKPOINT)
      then bi <| blockState := BLOCK_STATE_EMPTY |> else bi);
  et_rest : blks s' = (blks s) <| blockInfo := blockInfo (blks s') |> <| nErasedBlocks := nErasedBlocks (blks s') |>
    <| nFreeChunks := nFreeChunks (blks s') |>;
  et_marked : forall b bi, valid_block cfg b -> blockInfo (blks s) !! index cfg b = Some bi -> marked (nand s') b ->
    marked (nand s) b /\ ~ (b ∈ l /\ blockState bi = BLOCK_STATE_CHECKPOINT)
}.

Lemma erased_to_skip l x bi s s' : erased_to l s s' -> blockInfo (blks s) !! index cfg x = Some bi ->
  blockState bi <> BLOCK_STATE_CHECKPOINT -> erased_to (l ++ [x]) s s'.
Proof.
  intros [H1 H2 H3 H4 H6 H5] Hbi Hne. split; try done.
  - intros b bi0 Hv Hb. rewrite (H4 b bi0 Hv Hb). f_equal. apply decide_ext. rewrite elem_of_app, list_elem_of_singleton.
    split; [tauto|]. intros [[?| ->] Hc]; [done|]. simplify_eq.
  - intros b bi0 Hv Hb Hm. destruct (H5 b bi0 Hv Hb Hm) as [? Hn]. split; [done|].
    rewrite elem_of_app, list_elem_of_singleton. intros [[?| ->] Hc]; [tauto|]. simplify_eq.
Qed.

Lemma erase_one_spec l x s s1 : Z.of_nat (length (blockInfo (blks s))) = nBlocks cfg -> valid_block cfg x -> x ∉ l ->
  erased_to l s s1 -> wp (checkpoint_erase_block cfg x) (fun _ s' => erased_to (l ++ [x]) s s') s1.
Proof.
  intros Hlen Hv Hx He. destruct (info_at s x Hlen Hv) as [bi Hbi].
  pose proof (et_infos _ _ _ He x bi Hv Hbi) as Hbi1. rewrite decide_False in Hbi1 by tauto.
  unfold checkpoint_erase_block. apply wp_bind, wp_GetBlockInfo with bi; [apply Hv|done|]. apply wp_when.
  unfold is_state at 1. destruct (bool_decide_reflect (blockState bi = BLOCK_STATE_CHECKPOINT)) as [Hs|Hs];
    [|by apply (erased_to_skip l x bi)].
  apply wp_bind, wp_on_nand. destruct (ps_erase x (nand s1) Hv) as [-> Hpages].
  set (m' := snd (drv_eraseBlock (x - blockOffset cfg) (nand s1))) in *. set (s2 := s1 <| nand := m' |>).
  apply wp_bind. eapply wp_set_block_info; [apply Hv|exact Hbi1|].
  set (bi2 := bi <| blockState := BLOCK_STATE_EMPTY |>). unfold with_infos, modB. wp_steps. simp_fields.
  destruct He as [H1 H2 H3 H4 H6 H5]. split; simp_fields; try change (blks s2) with (blks s1); try change (nand s2) with m'; try done.
  - lia.
  - by rewrite length_insert.
  - intros b bi0 Hvb Hb. destruct (decide (b = x)) as [->|Hne].
    + rewrite list_lookup_insert_eq by (by eapply lookup_lt_Some).
      assert (bi0 = bi) as -> by congruence. rewrite decide_True; [done|]. rewrite elem_of_app, list_elem_of_singleton. tauto.
    + rewrite list_lookup_insert_ne by (unfold index, valid_block in *; lia). rewrite (H4 b bi0 Hvb Hb). f_equal.
      apply decide_ext. rewrite elem_of_app, list_elem_of_singleton. tauto.
  - rewrite H6 at 1. done.
  - intros b bi0 Hvb Hb (d & t & Hp & Ht). unfold page_at in Hp.
    rewrite Hpages in Hp by (done || pose proof (c_npb cfg Hcfg); lia).
    destruct (Z.eqb_spec b x); [done|]. destruct (H5 b bi0 Hvb Hb) as [Hm Hn]; [by exists d, t|].
    split; [done|]. rewrite elem_of_app, list_elem_of_singleton. tauto.
Qed.

Lemma erase_all_spec s : Z.of_nat (length (blockInfo (blks s))) = nBlocks cfg ->
  wp (for_each (seqZ (internalStartBlock cfg) (nBlocks cfg)) (checkpoint_erase_block cfg))
    (fun _ s' => erased_to (seqZ (internalStartBlock cfg) (nBlocks cfg)) s s') s.
Proof.
  intros Hlen. apply (wp_for_each (fun l s' => erased_to l s s')).
  - split; try done.
    + by destruct (blks s).
    + intros b bi Hv Hb Hm. split; [done|]. intros [H _]. by apply elem_of_nil in H.
  - intros l x rest s' Heq He. apply erase_one_spec; [done| | |done].
    + assert (Hin : x ∈ seqZ (internalStartBlock cfg) (nBlocks cfg)) by (rewrite Heq; apply elem_of_app; right; by left).
      apply elem_of_seqZ in Hin. unfold valid_block, nBlocks in *. lia.
    + pose proof (NoDup_seqZ (internalStartBlock cfg) (nBlocks cfg)) as Hnd. rewrite Heq in Hnd.
      apply NoDup_app in Hnd as (_ & Hd & _). intros Hx. apply (Hd x Hx). by left.
Qed.

Lemma room_spec s b : b ∈ room s <-> valid_block cfg b /\ usable s b = true.
Proof. unfold room. rewrite list_elem_of_filter, elem_of_seqZ. unfold valid_block, nBlocks. split; intros []; split; lia || done. Qed.

Lemma room_sorted s i j x y : room s !! i = Some x -> room s !! j = Some y -> (i < j)%nat -> x < y.
Proof. apply filter_seqZ_sorted. Qed.

(** Opening changes states of blocks and the counts of those that are free. *)
Record opened (b b' : Blocks) : Prop := {
  op_rest : b' = b <| blockInfo := blockInfo b' |> <| nErasedBlocks := nErasedBlocks b' |> <| nFreeChunks := nFreeChunks b' |>;
  op_infos : forall blk bi, valid_block cfg blk -> blockInfo b !! index cfg blk = Some bi ->
    blockInfo b' !! index cfg blk = Some bi \/ blockInfo b' !! index cfg blk = Some (bi <| blockState := BLOCK_STATE_EMPTY |>)
}.

(** Nothing is written yet. *)
Lemma Open_to_write s buf : Z.of_nat (length (blockInfo (blks s))) = nBlocks cfg -> checkpoint_known s ->
  0 < nErasedBlocks (blks s) - nReservedBlocks cfg -> is_Some drv_markBlockBad ->
  wp (yaffs_CheckpointOpen cfg true (Some buf) None) (fun r s' => r = 1 /\ written (blks s') s' [] (length (room s)) [] /\
    opened (blks s) (blks s') /\ checkpointSum (ckpt s') = 0 /\ checkpointXor (ckpt s') = 0) s.
Proof.
  intros Hlen Hknown Hspare [mark Hmark]. pose proof B_pos. pose proof (c_start cfg Hcfg). pose proof (c_data cfg Hcfg) as Hn.
  unfold yaffs_CheckpointOpen. rewrite Hwr, Hrd, Hmark. unfold yaffs_CheckpointSpaceOk, getB, getC, modC.
  apply wp_bind. wp_steps. rewrite (proj2 (Z.leb_gt _ 0)) by lia. cbn [negb andb]. wp_step. wp_step. wp_step. wp_step.
  set (buffer := match checkpointBuffer (ckpt s) with Some b => Some b | None => Some buf end).
  assert (Hb : exists b, buffer = Some b) by (unfold buffer; destruct (checkpointBuffer (ckpt s)); eauto).
  destruct Hb as [b ->]. wp_step. wp_step. wp_step. wp_step. unfold yaffs_CheckpointErase, modC.
  match goal with |- wp _ _ ?x => set (s1 := x) end.
  assert (Hbl1 : blks s1 = blks s) by done. assert (Hn1 : nand s1 = nand s) by done.
  eapply wp_seq; [apply erase_all_spec; by rewrite Hbl1|]. intros [] s2 He. wp_steps. simp_fields. rewrite !(et_ckpt _ _ _ He).
  split; [done|]. split; [|split; [|done]].
  2: { split; simp_fields; rewrite <- Hbl1; [apply He|]. intros x bi Hv Hbi. rewrite (et_infos _ _ _ He x bi Hv Hbi).
       destruct (decide _); [by right|by left]. }
  exists (room s), [], []. split; [|split; [done|]; split; [done|]; split; [|split; [|cbn; unfold n; lia]]];
    simp_fields; rewrite ?(et_ckpt _ _ _ He); [|by cbn [app length]; rewrite Nat.sub_0_r|done].
  assert (Hnone : forall b, valid_block cfg b -> ~ marked (nand s2) b).
  { intros x Hv Hm. destruct (info_at s1 x) as [bi Hbi]; [by rewrite Hbl1|done|].
    destruct (et_marked _ _ _ He x bi Hv Hbi Hm) as [Hm1 Hno]. apply Hno. split.
    - apply elem_of_seqZ. unfold valid_block, nBlocks in *. lia.
    - apply (Hknown x bi Hv); [by rewrite <- Hn1|by rewrite <- Hbl1]. }
  split; simp_fields; rewrite ?(et_ckpt _ _ _ He); try done.
  - split; try done.
    + cbn. unfold blocks_of. cbn [length]. rewrite Nat.div_small by lia. done.
    + intros x Hx. by apply elem_of_nil in Hx.
    + intros x Hv Hm. by destruct (Hnone x Hv).
  - cbn [length]. by rewrite Nat.Div0.mod_0_l.
  - intros x bi Hv _ Hbi. rewrite room_spec. destruct (info_at s1 x) as [bi0 Hbi0]; [by rewrite Hbl1|done|].
    pose proof (et_infos _ _ _ He x bi0 Hv Hbi0) as Hbi'. assert (Hst := Hbi). rewrite Hbi' in Hst. injection Hst as <-.
    assert (Hin : x ∈ seqZ (internalStartBlock cfg) (nBlocks cfg)) by (apply elem_of_seqZ; unfold valid_block, nBlocks in *; lia).
    unfold usable, is_state. rewrite Hbl1 in Hbi0. rewrite Hbi0, orb_true_iff, !bool_decide_eq_true.
    destruct (decide (x ∈ _ /\ blockState bi0 = BLOCK_STATE_CHECKPOINT)); simp_fields; tauto.
  - intros i x Hx. assert (Hin : x ∈ room s) by (by eapply list_elem_of_lookup_2). apply room_spec in Hin as [Hv _].
    split; [done|]. split; [apply Hv|]. intros j y Hy Hij. by apply (room_sorted s i j).
  - pose proof (et_count _ _ _ He). rewrite Hbl1 in *. lia.
  - by rewrite (et_len _ _ _ He), Hbl1.
  - split; simp_fields; try done; [by destruct (blks s2)|]. intros x bi Hx. by apply elem_of_nil in Hx.
Qed.

(** The reader starts at the first page. *)
Lemma Open_to_read s bl ds b1 l1 : stored (nand s) bl ds -> checkpointBuffer (ckpt s) = None -> Z.of_nat (length b1) = n ->
  Z.of_nat (length bl) <= Z.quot (internalEndBlock cfg - internalStartBlock cfg) 16 + 2 -> is_Some drv_markBlockBad ->
  wp (yaffs_CheckpointOpen cfg false (Some b1) (Some l1)) (fun r s' => r = 1 /\ to_read s' bl ds (concat ds) /\
    checkpointSum (ckpt s') = 0 /\ checkpointXor (ckpt s') = 0) s.
Proof.
  intros Hst Hnone Hb1 Hmax [mark Hmark]. pose proof B_pos. pose proof (c_data cfg Hcfg) as Hn.
  pose proof (c_end cfg Hcfg). pose proof (Z.quot_pos (internalEndBlock cfg - internalStartBlock cfg) 16 ltac:(lia) ltac:(lia)).
  unfold yaffs_CheckpointOpen. rewrite Hwr, Hrd, Hmark. unfold yaffs_CheckpointSpaceOk, getB, getC, modC.
  apply wp_bind. wp_steps. cbn [andb]. wp_step. wp_step. wp_step. wp_step. rewrite Hnone. wp_step. wp_step. wp_step. wp_step.
  apply wp_bind. eapply wp_of_option; [done|]. wp_steps. split; [done|]. split; [|by split].
  match goal with |- to_read ?x _ _ _ => set (s1 := x) end.
  assert (E : nand s1 = nand s /\ checkpointOpenForWrite (ckpt s1) = false /\ checkpointPageSequence (ckpt s1) = 0 /\
    checkpointByteOffset (ckpt s1) = n /\ checkpointBuffer (ckpt s1) = Some b1) by (unfold s1; repeat split).
  assert (F : checkpointCurrentBlock (ckpt s1) = -1 /\ checkpointNextBlock (ckpt s1) = internalStartBlock cfg /\
    blocksInCheckpoint (ckpt s1) = 0 /\
    checkpointMaxBlocks (ckpt s1) = Z.quot (internalEndBlock cfg - internalStartBlock cfg) 16 + 2 /\
    checkpointBlockList (ckpt s1) =
      Some (replicate (Z.to_nat (Z.quot (internalEndBlock cfg - internalStartBlock cfg) 16 + 2)) (-1)))
    by (unfold s1; repeat split).
  clearbody s1. destruct E as (E1 & E2 & E3 & E4 & E5), F as (F1 & F2 & F3 & F4 & F5).
  assert (Hz : blocks_of 0 = 0%nat) by (unfold blocks_of; rewrite Nat.div_small by lia; done).
  exists 0%nat, n, b1. split; [|split; [done|rewrite drop_ge by lia; done]].
  split; try done; try lia.
  - by rewrite E1.
  - by exists b1.
  - rewrite Nat.Div0.mod_0_l. cbn. lia.
  - by rewrite Hz.
  - exists (replicate (Z.to_nat (Z.quot (internalEndBlock cfg - internalStartBlock cfg) 16 + 2)) (-1)).
    rewrite length_replicate. split; [done|]. split; [lia|]. split; [lia|]. intros i b Hi. rewrite Hz in Hi. lia.
Qed.

(** ** Sessions *)

Definition write_stream (buf : option (list Z)) (pieces : list (list Z)) : M (State N) (Z * list Z * Z * Z) :=
  ok ← yaffs_CheckpointOpen cfg true buf None;
  counts ← mapM (yaffs_CheckpointWrite cfg) pieces;
  sum ← yaffs_GetCheckpointSum;
  closed ← yaffs_CheckpointClose cfg;
  mret (ok, counts, sum, closed).

Definition read_stream (buf lst : option (list Z)) (sizes : list nat) : M (State N) (Z * list (Z * list Z) * Z) :=
  ok ← yaffs_CheckpointOpen cfg false buf lst;
  pieces ← mapM (yaffs_CheckpointRead cfg) sizes;
  sum ← yaffs_GetCheckpointSum;
  mret (ok, pieces, sum).

Lemma write_pieces_spec b0 pieces : forall s bl (K : nat) all, written b0 s bl K all ->
  (length all + length (concat pieces) <= K * B * Z.to_nat n)%nat ->
  wp (mapM (yaffs_CheckpointWrite cfg) pieces) (fun r s' => r = (fun p => Z.of_nat (length p)) <$> pieces /\
    written_on b0 s' bl K (all ++ concat pieces) /\ sums_added s s' (concat pieces)) s.
Proof.
  induction pieces as [|p pieces IH]; intros s bl K all Hw Hroom; cbn [mapM concat] in *.
  - apply wp_ret. rewrite app_nil_r. split; [done|]. split; [by apply written_here|done].
  - rewrite length_app in Hroom. eapply wp_seq; [apply (CheckpointWrite_spec b0 s bl K all p Hw); lia|].
    intros r s1 (-> & (bl1 & Hsub & Hw1) & Hs1).
    eapply wp_seq; [apply (IH s1 bl1 K (all ++ p) Hw1); rewrite length_app; lia|]. intros rs s2 (-> & Hw2 & Hs2).
    apply wp_ret. rewrite app_assoc. split; [done|]. split; [by apply (written_on_sub b0 _ _ bl1)|]. by apply (sums_app s s1).
Qed.

Lemma read_pieces_spec pieces : forall s bl ds pad, to_read s bl ds (concat pieces ++ pad) ->
  wp (mapM (yaffs_CheckpointRead cfg) (length <$> pieces)) (fun r s' =>
    r = (fun p => (Z.of_nat (length p), p)) <$> pieces /\ sums_added s s' (concat pieces)) s.
Proof.
  induction pieces as [|p pieces IH]; intros s bl ds pad Hr; cbn [concat] in *.
  - by apply wp_ret.
  - cbn. rewrite <- app_assoc in Hr.
    eapply wp_seq; [apply (CheckpointRead_spec s bl ds _ (length p) Hr); rewrite length_app; lia|].
    intros r s1 (-> & Hr1 & Hs1). rewrite take_app_length in Hs1 |- *. rewrite drop_app_length in Hr1.
    eapply wp_seq; [by apply (IH s1 bl ds pad)|]. intros rs s2 (-> & Hs2).
    apply wp_ret. split; [done|]. by apply (sums_app s s1).
Qed.

Definition sum_of (l : list Z) : Z := Z.lor (u32 (Z.shiftl (add_sum 0 l) 8)) (Z.land (add_xor 0 l) 255).

Lemma CheckpointSum_spec s s' l : checkpointSum (ckpt s) = 0 -> checkpointXor (ckpt s) = 0 -> sums_added s s' l ->
  wp yaffs_GetCheckpointSum (fun r s'' => r = sum_of l /\ s'' = s') s'.
Proof. intros H1 H2 [Hs Hx]. unfold yaffs_GetCheckpointSum, getC. wp_steps. by rewrite Hs, Hx, H1, H2. Qed.

(** The number of blocks for a number of bytes. *)
Lemma blocks_fit (k total : nat) (most : Z) : (k * Z.to_nat n < total + Z.to_nat n)%nat ->
  Z.of_nat total <= most * nChunksPerBlock cfg * n -> Z.of_nat (blocks_of k) <= most.
Proof.
  intros Hk Hfit. pose proof (c_data cfg Hcfg) as Hn. fold n in Hn. pose proof B_pos. pose proof B_Z as HB. rewrite <- HB in Hfit.
  assert (0 <= most) by nia. assert (Hle : (k <= Z.to_nat most * B)%nat) by nia.
  assert (blocks_of k < S (Z.to_nat most))%nat; [|lia]. unfold blocks_of. apply Nat.Div0.div_lt_upper_bound. nia.
Qed.
End stream.

Section roundtrip.
Context {N : Type} {nd : NandDriver N} (cfg : Config) (Hcfg : cfg_ok cfg).
Context {ps : PageStore nd cfg}.
Implicit Types (s : State N).

(** The bytes that [k] blocks take. *)
Definition capacity (k : Z) : Z := k * nChunksPerBlock cfg * nDataBytesPerChunk cfg.

(** C7. What a session of the checkpoint stream writes ([yaffs_CheckpointOpen] for writing, any
    number of [yaffs_CheckpointWrite], [yaffs_GetCheckpointSum], [yaffs_CheckpointClose]) is what
    a later session reads, after any change of the state in memory: every read gives all the
    bytes of the corresponding write, in pages found through the hints in the tags, and the
    check sum that the reader computes is the writer's.  The data must fit in the blocks that
    are empty or were the old checkpoint's, and in the number of blocks that a reader accepts;
    the blocks that look like a checkpoint's must be known as such, so that they are erased first. *)
Theorem checkpoint_stream_roundtrip s pieces b0 :
  is_Some drv_writeChunkWithTags -> is_Some drv_readChunkWithTags -> is_Some drv_markBlockBad ->
  Z.of_nat (length (blockInfo (blks s))) = nBlocks cfg -> checkpoint_known cfg s ->
  0 < nErasedBlocks (blks s) - nReservedBlocks cfg ->
  Z.of_nat (length (concat pieces)) <= capacity (Z.of_nat (length (room cfg s))) ->
  wp (write_stream cfg (Some b0) pieces) (fun r s' => exists sum,
    r = (1, (fun p => Z.of_nat (length p)) <$> pieces, sum, 1) /\
    forall s2 b1 l1, nand s2 = nand s' -> checkpointBuffer (ckpt s2) = None ->
      Z.of_nat (length b1) = nDataBytesPerChunk cfg ->
      Z.of_nat (length (concat pieces)) <= capacity (Z.quot (internalEndBlock cfg - internalStartBlock cfg) 16 + 2) ->
      wp (read_stream cfg (Some b1) (Some l1) (length <$> pieces)) (fun r' _ =>
        r' = (1, (fun p => (Z.of_nat (length p), p)) <$> pieces, sum)) s2) s.
Proof.
  intros [wr Hwr] [rd Hrd] Hmark Hlen Hknown Hspare Hfit. pose proof (c_data cfg Hcfg) as Hn. pose proof (c_npb cfg Hcfg) as HB.
  unfold capacity in *. unfold write_stream.
  eapply wp_seq; [by apply (Open_to_write cfg Hcfg wr Hwr rd Hrd s b0)|]. intros ok s1 (-> & Hw1 & _ & Hs1 & Hx1).
  eapply wp_seq; [apply (write_pieces_spec cfg Hcfg wr Hwr (blks s1) pieces s1 [] _ [] Hw1); cbn [length]; nia|].
  intros counts s2 (-> & (bl2 & _ & Hw2) & Hsum). cbn [app] in Hw2.
  eapply wp_seq; [by apply (CheckpointSum_spec s1 s2 (concat pieces))|]. intros sum s3 [-> ->].
  eapply wp_seq; [apply (CheckpointClose_written cfg Hcfg wr Hwr (blks s1) s2 _ _ _ Hw2); nia|].
  intros closed s3 (-> & _ & bl & ds & pad & b & _ & Hst & Hcat & Hds & _). apply wp_ret. exists (sum_of (concat pieces)). split; [done|].
  intros t b1 l1 Hnand Hnone Hb1 Hmax. rewrite <- Hnand in Hst. unfold read_stream.
  eapply wp_seq; [apply (Open_to_read cfg Hcfg wr Hwr rd Hrd t bl ds b1 l1 Hst Hnone Hb1); [|done]|].
  - rewrite (sr_blocks _ _ _ _ Hst). by apply (blocks_fit cfg Hcfg _ (length (concat pieces))).
  - intros ok t1 (-> & Hr1 & Ht1 & Hu1). rewrite Hcat in Hr1.
    eapply wp_seq; [by apply (read_pieces_spec cfg Hcfg rd Hrd pieces t1 bl ds pad)|]. intros rs t2 (-> & Hsum2).
    eapply wp_seq; [by apply (CheckpointSum_spec t1 t2 (concat pieces))|]. intros sum t3 [-> ->]. by apply wp_ret.
Qed.
End roundtrip.

(** ** The simulated medium *)

(** A page of the simulated medium, at its full length. *)
Definition sim_page (f : Flash) (c : Z) : option (list Z * ExtendedTags) :=
  (fun p => (resize 512 255 (fst p), snd p)) <$> f !! c.

Lemma deleted_lookup l (f : Flash) c : foldr (fun c => delete c) f l !! c = if decide (c ∈ l) then None else f !! c.
Proof.
  induction l as [|x l IH]; [by rewrite decide_False by (apply not_elem_of_nil)|]. cbn [foldr].
  destruct (decide (x = c)) as [->|Hne].
  - rewrite decide_True by (by left). apply (lookup_delete_eq (M := gmap Z)).
  - etransitivity; [by apply (lookup_delete_ne (M := gmap Z))|]. etransitivity; [exact IH|]. apply decide_ext. rewrite elem_of_cons.
    split; [by right|]. intros [->|]; [by destruct Hne|done].
Qed.

#[export] Instance sim_store : PageStore sim_driver sample_cfg.
Proof.
  refine {| page := sim_page |}.
  - intros w c d t m [= <-] Hd. change (nDataBytesPerChunk sample_cfg) with 512 in Hd. unfold sim_page, sim_write. cbn [snd default].
    split.
    + exists t. split; [|done].
      etransitivity; [apply f_equal, (lookup_insert_eq (M := gmap Z))|]. cbn. do 2 f_equal. apply resize_all_alt. lia.
    + intros c' Hc. apply f_equal. by apply (lookup_insert_ne (M := gmap Z)).
  - intros r c b t m [= <-]. unfold sim_read, sim_page. destruct (m !! c) as [[d t']|].
    + split; [done|]. cbn. split; [done|]. intros Hb. destruct b as [b|]; [|done]. cbn. f_equal.
      specialize (Hb b eq_refl). change (nDataBytesPerChunk sample_cfg) with 512 in Hb.
      replace (length b) with 512%nat by lia. done.
    + split; [done|]. by vm_compute.
  - intros blk m Hv. split; [done|]. intros b j Hb Hj.
    change (nChunksPerBlock sample_cfg) with 4 in *. change (chunkOffset sample_cfg) with 0.
    change (blockOffset sample_cfg) with 0. unfold drv_eraseBlock, sim_driver, sim_erase. cbn [snd].
    unfold sim_page. rewrite deleted_lookup. unfold sim_pages. destruct (Z.eqb_spec b blk) as [->|Hne].
    + rewrite decide_True; [done|]. apply elem_of_seqZ. lia.
    + rewrite decide_False; [done|]. rewrite elem_of_seqZ. lia.
Defined.

(** Block 2 has an old checkpoint. *)
Definition checkpointed_state : State Flash :=
  sample_state <| nand := <[8 := ([], zero_tags <| sequenceNumber := YAFFS_SEQUENCE_CHECKPOINT_DATA |>)]> (∅ : Flash) |>
    <| blks ::= fun b => b <| blockInfo :=
      [empty_block; empty_block <| blockState := BLOCK_STATE_CHECKPOINT |>; empty_block; empty_block] |>
      <| nErasedBlocks := 3 |> |>.

Lemma checkpointed_known : checkpoint_known sample_cfg checkpointed_state.
Proof.
  intros b bi Hv (d & t & Hp & Ht) Hbi. destruct (decide (b = 2)) as [->|Hne].
  - by injection Hbi as <-.
  - exfalso. unfold page_at in Hp. change (nChunksPerBlock sample_cfg) with 4 in Hp. change (chunkOffset sample_cfg) with 0 in Hp.
    assert (Hn : forall c, c <> 8 -> sim_page (nand checkpointed_state) c = None).
    { intros c Hc. unfold sim_page. apply fmap_None. etransitivity; [by apply (lookup_insert_ne (M := gmap Z)), not_eq_sym|]. done. }
    change (sim_page (nand checkpointed_state) (b * 4 + 0 - 0) = Some (d, t)) in Hp. by rewrite Hn in Hp by lia.
Qed.

Lemma checkpoint_stream_roundtrip_witness :
  let pieces := [[1; 2; 3]; replicate 1200 7; [9]] in
  wp (write_stream sample_cfg (Some []) pieces) (fun r s' => exists sum,
    r = (1, (fun p => Z.of_nat (length p)) <$> pieces, sum, 1) /\
    forall s2 b1 l1, nand s2 = nand s' -> checkpointBuffer (ckpt s2) = None -> Z.of_nat (length b1) = 512 ->
      Z.of_nat (length (concat pieces)) <= capacity sample_cfg (Z.quot (4 - 1) 16 + 2) ->
      wp (read_stream sample_cfg (Some b1) (Some l1) (length <$> pieces)) (fun r' _ =>
        r' = (1, (fun p => (Z.of_nat (length p), p)) <$> pieces, sum)) s2) checkpointed_state.
Proof.
  intros pieces. apply (checkpoint_stream_roundtrip sample_cfg sample_cfg_ok (ps := sim_store) checkpointed_state pieces []).
  - by eexists.
  - by eexists.
  - by eexists.
  - reflexivity.
  - exact checkpointed_known.
  - reflexivity.
  - vm_compute. discriminate.
Defined.

Section overrun.
Context {N : Type} {nd : NandDriver N} (cfg : Config).
Implicit Types (s : State N).

(** The session has used up its blocks: none from the next one on is empty.  (The count
    of erased blocks, which the code compares with the reserve, does not change before
    the session is closed.) *)
Definition used_up s : Prop :=
  (checkpointNextBlock (ckpt s) < 0 \/ internalStartBlock cfg <= checkpointNextBlock (ckpt s)) /\
  forall blk bi, checkpointNextBlock (ckpt s) <= blk <= internalEndBlock cfg ->
    blockInfo (blks s) !! index cfg blk = Some bi -> blockState bi <> BLOCK_STATE_EMPTY.

Lemma FindNextErasedBlock_none s : tables_ok cfg (blks s) -> used_up s ->
  wp (yaffs_CheckpointFindNextErasedBlock cfg) (fun _ s' => checkpointCurrentBlock (ckpt s') = -1 /\
    s' = s <| ckpt := (ckpt s) <| checkpointNextBlock := -1 |> <| checkpointCurrentBlock := -1 |> |>) s.
Proof.
  intros Ht [Hrange Hnone]. unfold yaffs_CheckpointFindNextErasedBlock, getB, getC, modC.
  apply wp_bind, wp_gets, wp_bind, wp_gets. cbv zeta. apply wp_if.
  destruct ((0 <=? _) && _ && _) eqn:Hb; [|apply wp_modify; by split].
  apply andb_true_iff in Hb as [[H0%Z.leb_le H1%Z.leb_le]%andb_true_iff _].
  apply (wp_seq _ _ (fun r s1 => r = None /\ s1 = s)).
  - apply (wp_for_break (fun _ s1 => s1 = s)); [done| |done].
    intros d blk rest s1 Hl ->.
    assert (Hin : checkpointNextBlock (ckpt s) <= blk <= internalEndBlock cfg).
    { assert (blk ∈ seqZ (checkpointNextBlock (ckpt s))
        (internalEndBlock cfg + 1 - checkpointNextBlock (ckpt s))) as Hin%elem_of_seqZ; [|lia].
      rewrite Hl. apply elem_of_app. right. by left. }
    destruct (block_info_lookup cfg (blks s) blk Ht) as [bi Hbi]; [unfold valid_block; lia|].
    apply wp_bind, wp_GetBlockInfo with bi; [lia|done|]. apply wp_if.
    destruct (is_state _ _) eqn:He; [|done]. unfold is_state in He. apply bool_decide_eq_true in He.
    by destruct (Hnone blk bi Hin Hbi).
  - intros r s1 [-> ->]. apply wp_modify. by split.
Qed.

(** C39. When the blocks of a session are used up and the last byte of a write fills the
    buffer, [yaffs_CheckpointWrite] does not tell: it reports that all was written, and the
    next write puts its first byte behind the end of the buffer, which is undefined
    behaviour. *)
Theorem CheckpointWrite_overruns s b x :
  tables_ok cfg (blks s) -> used_up s ->
  checkpointOpenForWrite (ckpt s) = true -> checkpointBuffer (ckpt s) = Some b ->
  0 < nDataBytesPerChunk cfg -> Z.of_nat (length b) = nDataBytesPerChunk cfg ->
  checkpointByteOffset (ckpt s) = nDataBytesPerChunk cfg - 1 -> checkpointCurrentBlock (ckpt s) < 0 ->
  exists s', yaffs_CheckpointWrite cfg [x] s = Some (1, s') /\ forall y data, yaffs_CheckpointWrite cfg (y :: data) s' = None.
Proof.
  intros Ht Hup Hw Hb Hn Hl Hoff Hcur.
  assert (H : wp (yaffs_CheckpointWrite cfg [x]) (fun r s' => r = 1 /\ checkpointOpenForWrite (ckpt s') = true /\
    checkpointByteOffset (ckpt s') = nDataBytesPerChunk cfg /\
    exists b', checkpointBuffer (ckpt s') = Some b' /\ length b' = length b) s).
  { unfold yaffs_CheckpointWrite, getC. wp_step. wp_step. wp_step. wp_step. rewrite Hb, Hw. cbn [negb checkpoint_write_loop].
    unfold checkpoint_put, getC, modC. wp_step. wp_step. wp_step. rewrite Hb. apply wp_bind, wp_of_option with b; [done|]. wp_step. wp_step. rewrite Hoff.
    apply wp_bind. eapply wp_of_option; [apply updateZ_Some; lia|]. wp_step. wp_step.
    rewrite (proj2 (Z.ltb_ge _ 0)), (proj2 (Z.leb_le _ (nDataBytesPerChunk cfg - 1 + 1))) by lia. cbn [orb].
    unfold yaffs_CheckpointFlushBuffer, getC, modC. wp_step. wp_step. rewrite (proj2 (Z.ltb_lt _ 0)) by (simp_fields; done). cbn [when].
    apply wp_bind, wp_bind. eapply wp_mono; [by apply FindNextErasedBlock_none|]. intros _ s1 [_ ->].
    wp_steps. simp_fields. change (-1 <? 0) with true. cbv iota. wp_steps.
    change (ztrue 0) with false. cbv iota. wp_steps. simp_fields. split; [done|]. split; [done|]. split; [lia|].
    eexists. split; [done|]. by rewrite length_insert. }
  destruct (wp_run _ _ _ H) as (r & s' & Hrun & -> & Hw' & Hoff' & b' & Hb' & Hl'). exists s'. split; [done|].
  intros y data. unfold yaffs_CheckpointWrite, getC, gets, mbind, M_bind. cbv beta iota. rewrite Hb', Hw'. cbn [negb checkpoint_write_loop].
  unfold checkpoint_put, getC, gets, of_option, mbind, M_bind. cbv beta iota. rewrite Hb'. cbv beta iota. rewrite Hoff'.
  assert (Hu : updateZ (nDataBytesPerChunk cfg) y b' = None).
  { unfold updateZ. rewrite (proj2 (Z.ltb_ge _ _)) by lia. by rewrite andb_false_r. }
  by rewrite Hu.
Qed.
End overrun.

(** A session that has filled the 16 pages of the four blocks, and but for one byte the
    buffer. *)
Definition long_session : M (State Flash) (Z * Z) :=
  r ← yaffs_CheckpointOpen sample_cfg true (Some []) None;
  n ← yaffs_CheckpointWrite sample_cfg (replicate (16 * 512 + 511) 7);
  mret (r, n).
Definition full_state : State Flash := run_state long_session sample_state.

Lemma full_used_up : used_up sample_cfg full_state.
Proof.
  split; [right; vm_compute; discriminate|].
  assert (Hnext : checkpointNextBlock (ckpt full_state) = 5) by (vm_compute; reflexivity).
  intros blk bi Hblk _. rewrite Hnext in Hblk. change (internalEndBlock sample_cfg) with 4 in Hblk. lia.
Qed.

Lemma CheckpointWrite_overruns_witness :
  fst <$> long_session sample_state = Some (1, 16 * 512 + 511) /\
  exists s', yaffs_CheckpointWrite sample_cfg [9] full_state = Some (1, s') /\
    forall y data, yaffs_CheckpointWrite sample_cfg (y :: data) s' = None.
Proof.
  split; [vm_compute; reflexivity|].
  apply (CheckpointWrite_overruns sample_cfg full_state (replicate 511 7 ++ [0]) 9).
  - constructor; [vm_compute; reflexivity|vm_compute; reflexivity|].
    assert (Hb : chunkBits (blks full_state) = [0; 0; 0; 0]) by (vm_compute; reflexivity).
    rewrite Hb. repeat constructor; vm_compute; congruence.
  - exact full_used_up.
  - vm_compute. reflexivity.
  - vm_compute. reflexivity.
  - vm_compute. reflexivity.
  - vm_compute. reflexivity.
  - vm_compute. reflexivity.
  - vm_compute. reflexivity.
Defined.
