(* ===== verification/Blocks.v ===== *)
(** * Blocks and chunks: the block management and page allocation of [yaffs_guts.c]

    Retiring and erasing blocks, choosing the next block, handing out, deleting
    and writing chunks, and the count of free space. *)
From S2P Require Import Prelude Monad Tags Device Nand Sim BlockInv Checkptrw.

Section blocks.
Context {N : Type} {nd : NandDriver N} (cfg : Config).
Local Abbreviation St := (State N).

Definition yaffs_InvalidateCheckpoint : M St unit :=
  c ← getC isCheckpointed;
  n ← getC blocksInCheckpoint;
  when (c || (0 <? n)) (
    _ ← modC (fun c => c <| isCheckpointed := false |>);
    _ ← yaffs_CheckpointInvalidateStream cfg;
    when (hasSuperBlock cfg) (modC (fun c => c <| superBlockDirty := true |>))).

Definition yaffs_RetireBlock (blockInNAND : Z) : M St unit :=
  _ ← yaffs_GetBlockInfo cfg blockInNAND;
  _ ← yaffs_InvalidateCheckpoint;
  _ ← yaffs_MarkBlockBad cfg blockInNAND;
  _ ← set_block_info cfg blockInNAND (fun bi =>
    bi <| blockState := BLOCK_STATE_DEAD |> <| gcPrioritise := false |>
       <| needsRetiring := false |>);
  modS (fun s => s <| nRetiredBlocks ::= Z.succ |>).

(** [yaffs_CheckFF]: [None] reads past the buffer. *)
Fixpoint CheckFF_loop (n : nat) (buffer : list Z) : option bool :=
  match n, buffer with
  | O, _ => Some true
  | S _, [] => None
  | S n, b :: buffer => if b =? 255 then CheckFF_loop n buffer else Some false
  end.
Definition yaffs_CheckFF (buffer : list Z) (nBytes : Z) : option bool :=
  CheckFF_loop (Z.to_nat nBytes) buffer.

(** What [yaffs_GetTempBuffer] hands out: a chunk-sized buffer of unknown contents. *)
Definition temp_buffer : list Z := resize (Z.to_nat (nDataBytesPerChunk cfg)) 0 stack_data.

Definition yaffs_CheckChunkErased (chunkInNAND : Z) : M St Z :=
  r ← yaffs_ReadChunkWithTagsFromNAND cfg chunkInNAND (Some temp_buffer) stack_tags;
  let '(_, data, tags) := r in
  let retval := if ecc_is_error (eccResult tags) then YAFFS_FAIL else YAFFS_OK in
  data ← of_option data;
  ff ← of_option (yaffs_CheckFF data (nDataBytesPerChunk cfg));
  mret (if negb ff || ztrue (chunkUsed tags) then YAFFS_FAIL else retval).

Definition yaffs_BlockBecameDirty (blockNo : Z) : M St unit :=
  bi ← yaffs_GetBlockInfo cfg blockNo;
  _ ← set_block_info cfg blockNo (fun bi => bi <| blockState := BLOCK_STATE_DIRTY |>);
  erasedOk ← (
    if needsRetiring bi then mret 0
    else
      _ ← yaffs_InvalidateCheckpoint;
      erasedOk ← yaffs_EraseBlockInNAND cfg blockNo;
      _ ← when (negb (ztrue erasedOk)) (modS (fun s => s <| nErasureFailures ::= Z.succ |>));
      mret erasedOk);
  _ ← when (ztrue erasedOk && verifyErasure cfg)
    (for_each (seqZ 0 (nChunksPerBlock cfg)) (fun i =>
      _ ← yaffs_CheckChunkErased (blockNo * nChunksPerBlock cfg + i); mret tt));
  if ztrue erasedOk then
    _ ← set_block_info cfg blockNo (fun bi => bi <| blockState := BLOCK_STATE_EMPTY |>);
    _ ← modB (fun b => b <| nErasedBlocks ::= Z.succ |>);
    _ ← set_block_info cfg blockNo (fun bi =>
      bi <| pagesInUse := 0 |> <| softDeletions := 0 |> <| hasShrinkHeader := false |>
         <| skipErasedCheck := true |> <| gcPrioritise := false |>);
    yaffs_ClearChunkBits cfg blockNo
  else
    _ ← modB (fun b => b <| nFreeChunks ::= fun f => f - nChunksPerBlock cfg |>);
    yaffs_RetireBlock blockNo.

(** The search position moves on, round the device. *)
Definition advance_finder : M St Z :=
  _ ← modB (fun b => b <| allocationBlockFinder ::= Z.succ |>);
  f ← getB allocationBlockFinder;
  _ ← when ((f <? internalStartBlock cfg) || (internalEndBlock cfg <? f))
    (modB (fun b => b <| allocationBlockFinder := internalStartBlock cfg |>));
  getB allocationBlockFinder.

(** An empty block is taken over for allocation. *)
Definition take_block (f : Z) : M St unit :=
  _ ← set_block_info cfg f (fun bi => bi <| blockState := BLOCK_STATE_ALLOCATING |>);
  _ ← modB (fun b => b <| dev_sequenceNumber ::= fun q => u32 (q + 1) |>);
  seq ← getB dev_sequenceNumber;
  _ ← set_block_info cfg f (fun bi => bi <| bi_sequenceNumber := seq |>);
  modB (fun b => b <| nErasedBlocks ::= Z.pred |>).

Definition yaffs_FindBlockForAllocation : M St Z :=
  erased ← getB nErasedBlocks;
  if erased <? 1 then mret (-1) else
  r ← for_break (seqZ (internalStartBlock cfg) (nBlocks cfg)) (fun _ =>
    f ← advance_finder;
    bi ← yaffs_GetBlockInfo cfg f;
    if is_state (blockState bi) BLOCK_STATE_EMPTY then _ ← take_block f; mret (Some f)
    else mret None);
  mret (default (-1) r).

Definition yaffs_CheckSpaceForAllocation : M St bool :=
  inCheckpoint ← getC blocksInCheckpoint;
  let checkpointBlocks := nCheckpointReservedBlocks cfg - inCheckpoint in
  let checkpointBlocks := if checkpointBlocks <? 0 then 0 else checkpointBlocks in
  let reservedChunks := (nReservedBlocks cfg + checkpointBlocks) * nChunksPerBlock cfg in
  free ← getB nFreeChunks;
  mret (reservedChunks <? free).

(** "Get next block to allocate off" *)
Definition next_allocation_block : M St unit :=
  a ← getB allocationBlock;
  when (a <? 0) (
    blk ← yaffs_FindBlockForAllocation;
    modB (fun b => b <| allocationBlock := blk |> <| allocationPage := 0 |>)).

(** "Next page please": the page of block [a] that is next. *)
Definition take_page (a : Z) : M St Z :=
  page ← getB allocationPage;
  _ ← set_block_info cfg a (fun bi => bi <| pagesInUse ::= fun p => swrap 10 (p + 1) |>);
  _ ← yaffs_SetChunkBit cfg a page;
  _ ← modB (fun b => b <| allocationPage ::= fun p => u32 (p + 1) |> <| nFreeChunks ::= Z.pred |>);
  page' ← getB allocationPage;
  _ ← when (u32 (nChunksPerBlock cfg) <=? page') (
    _ ← set_block_info cfg a (fun bi => bi <| blockState := BLOCK_STATE_FULL |>);
    modB (fun b => b <| allocationBlock := -1 |>));
  mret (i32 (u32 (u32 (a * nChunksPerBlock cfg) + page))).

(** The chunk, and the block whose information is handed out (-1 if none). *)
Definition yaffs_AllocateChunk (useReserve : bool) : M St (Z * Z) :=
  _ ← next_allocation_block;
  space ← yaffs_CheckSpaceForAllocation;
  if negb useReserve && negb space then mret (-1, -1) else
  a ← getB allocationBlock;
  if 0 <=? a then chunk ← take_page a; mret (chunk, a) else mret (-1, -1).

Definition yaffs_GetErasedChunks : M St Z :=
  erased ← getB nErasedBlocks;
  a ← getB allocationBlock;
  page ← getB allocationPage;
  let n := erased * nChunksPerBlock cfg in
  mret (if 0 <? a then i32 (u32 (u32 n + u32 (u32 (nChunksPerBlock cfg) - page))) else n).

Definition yaffs_DeleteChunk (chunkId : Z) (markNAND : bool) : M St unit :=
  if chunkId <=? 0 then mret tt else
  _ ← modS (fun s => s <| nDeletions ::= Z.succ |>);
  let block := Z.quot chunkId (nChunksPerBlock cfg) in
  let page := Z.rem chunkId (nChunksPerBlock cfg) in
  _ ← yaffs_CheckChunkBit cfg block page;
  bi ← yaffs_GetBlockInfo cfg block;
  _ ← (if markNAND && negb (is_state (blockState bi) BLOCK_STATE_COLLECTING) &&
          negb (isYaffs2 cfg) then
         let tags := yaffs_InitialiseTags <| chunkDeleted := 1 |> in
         _ ← yaffs_WriteChunkWithTagsToNAND cfg chunkId None tags;
         mret tt
       else modS (fun s => s <| nUnmarkedDeletions ::= Z.succ |>));
  let st := blockState bi in
  when (is_state st BLOCK_STATE_ALLOCATING || is_state st BLOCK_STATE_FULL ||
        is_state st BLOCK_STATE_NEEDS_SCANNING || is_state st BLOCK_STATE_COLLECTING) (
    _ ← modB (fun b => b <| nFreeChunks ::= Z.succ |>);
    _ ← yaffs_ClearChunkBit cfg block page;
    _ ← set_block_info cfg block (fun bi => bi <| pagesInUse ::= fun p => swrap 10 (p - 1) |>);
    bi ← yaffs_GetBlockInfo cfg block;
    when ((pagesInUse bi =? 0) && negb (hasShrinkHeader bi) &&
          negb (is_state (blockState bi) BLOCK_STATE_ALLOCATING) &&
          negb (is_state (blockState bi) BLOCK_STATE_NEEDS_SCANNING))
      (yaffs_BlockBecameDirty block)).

Definition yaffs_HandleWriteChunkError (chunkInNAND : Z) (erasedOk : bool) : M St unit :=
  let blockInNAND := Z.quot chunkInNAND (nChunksPerBlock cfg) in
  _ ← yaffs_GetBlockInfo cfg blockInNAND;
  _ ← yaffs_HandleChunkError cfg blockInNAND;
  _ ← when erasedOk
    (set_block_info cfg blockInNAND (fun bi => bi <| needsRetiring := true |>));
  yaffs_DeleteChunk chunkInNAND true.

(** One pass of the loop of [yaffs_WriteNewChunkWithTagsToNAND] from its local
    variables [attempts], [writeOk] and [tags]; a pass that does not write leaves
    [writeOk] as it is. *)
Inductive attempt :=
  | NoSpace
  | Tried (chunk writeOk attempts : Z) (tags : ExtendedTags).

Definition write_attempt (data : option (list Z)) (useReserve : bool) (attempts writeOk : Z)
    (tags : ExtendedTags) : M St attempt :=
  c ← yaffs_AllocateChunk useReserve;
  let '(chunk, blk) := c in
  if chunk <? 0 then mret NoSpace else
  bi ← yaffs_GetBlockInfo cfg blk;
  if gcPrioritise bi then
    _ ← yaffs_DeleteChunk chunk true;
    mret (Tried chunk writeOk attempts tags)
  else
    let attempts := attempts + 1 in
    erasedOk ← (if skipErasedCheck bi then mret 0 else yaffs_CheckChunkErased chunk);
    if negb (skipErasedCheck bi) && negb (erasedOk =? YAFFS_OK) then
      mret (Tried chunk writeOk attempts tags)
    else
      _ ← when (negb (skipErasedCheck bi))
        (set_block_info cfg blk (fun bi => bi <| skipErasedCheck := true |>));
      w ← yaffs_WriteChunkWithTagsToNAND cfg chunk data tags;
      let '(writeOk, tags) := w in
      _ ← when (negb (writeOk =? YAFFS_OK)) (yaffs_HandleWriteChunkError chunk (ztrue erasedOk));
      mret (Tried chunk writeOk attempts tags).

(** The loop; [fuel] bounds the passes. *)
Fixpoint write_loop (fuel : nat) (data : option (list Z)) (useReserve : bool)
    (attempts writeOk : Z) (tags : ExtendedTags) : M St (Z * Z) :=
  match fuel with
  | O => fail
  | S fuel =>
      a ← write_attempt data useReserve attempts writeOk tags;
      match a with
      | NoSpace => mret (-1, attempts)
      | Tried chunk writeOk attempts tags =>
          if negb (writeOk =? YAFFS_OK) &&
             ((yaffs_wr_attempts cfg <=? 0) || (attempts <=? yaffs_wr_attempts cfg)) then
            write_loop fuel data useReserve attempts writeOk tags
          else mret (if ztrue writeOk then chunk else -1, attempts)
      end
  end.

(** Enough passes for the attempts allowed: between two attempts at most every chunk of
    the device and of the block being filled is skipped. *)
Definition write_fuel : nat :=
  Z.to_nat ((yaffs_wr_attempts cfg + 2) * ((nBlocks cfg + 1) * nChunksPerBlock cfg + 1)).

Definition yaffs_WriteNewChunkWithTagsToNAND (data : option (list Z)) (tags : ExtendedTags)
    (useReserve : bool) : M St Z :=
  _ ← yaffs_InvalidateCheckpoint;
  r ← write_loop write_fuel data useReserve 0 0 tags;
  let '(chunk, attempts) := r in
  _ ← when (1 <? attempts)
    (modS (fun s => s <| nRetriedWrites ::= fun n => n + (attempts - 1) |>));
  mret chunk.

Definition yaffs_CountFreeChunks : M St Z :=
  for_acc (seqZ (internalStartBlock cfg) (nBlocks cfg)) (fun b nFree =>
    blk ← yaffs_GetBlockInfo cfg b;
    mret (match blockState blk with
      | BLOCK_STATE_EMPTY | BLOCK_STATE_ALLOCATING | BLOCK_STATE_COLLECTING | BLOCK_STATE_FULL =>
          nFree + (nChunksPerBlock cfg - pagesInUse blk + softDeletions blk)
      | _ => nFree
      end)) 0.

(** [yaffs_GetNumberOfFreeChunks]; [nDeletedFiles] and the [dirty] marks of the cache
    are fields of the device that the block layer does not touch. *)
Definition yaffs_GetNumberOfFreeChunks (nDeletedFiles : Z) (dirty : list bool) : M St Z :=
  nFree ← getB nFreeChunks;
  inCheckpoint ← getC blocksInCheckpoint;
  let nDirtyCacheChunks := sumZ ind (take (Z.to_nat (nShortOpCaches cfg)) dirty) in
  let nFree := nFree + nDeletedFiles - nDirtyCacheChunks in
  let nFree := nFree - (nReservedBlocks cfg + 1) * nChunksPerBlock cfg in
  let blocksForCheckpoint := nCheckpointReservedBlocks cfg - inCheckpoint in
  let blocksForCheckpoint := if blocksForCheckpoint <? 0 then 0 else blocksForCheckpoint in
  let nFree := nFree - blocksForCheckpoint * nChunksPerBlock cfg in
  mret (if nFree <? 0 then 0 else nFree).

(** [yaffs_InitialiseBlocks] with both allocations granted: all-zero tables. *)
Definition yaffs_InitialiseBlocks : M St Z :=
  _ ← modB (fun b => b <| allocationBlock := -1 |>
    <| blockInfo := replicate (Z.to_nat (nBlocks cfg)) zero_block |>
    <| chunkBits := replicate (Z.to_nat (chunkBitmapStride cfg * nBlocks cfg)) 0 |>);
  mret YAFFS_OK.
End blocks.

(** ** Erasing and retiring *)

Section dirty.
Context {N : Type} {nd : NandDriver N} (cfg : Config) (Hcfg : cfg_ok cfg).
Context {nf : NandFrame nd cfg} (Hmark : is_Some drv_markBlockBad).
Implicit Types (s : State N).
Let n := nChunksPerBlock cfg.

(** Everything but one block and the bitmap: the other blocks can only leave the
    checkpoint, and the allocator stands still. *)
Record step_at (blk : Z) (s s' : State N) : Prop := {
  sa_infos : forall i b, i <> index cfg blk -> blockInfo (blks s) !! i = Some b ->
    exists b', blockInfo (blks s') !! i = Some b' /\ cp_block b b';
  sa_ablock : allocationBlock (blks s') = allocationBlock (blks s);
  sa_apage : allocationPage (blks s') = allocationPage (blks s);
  sa_gc : isDoingGC (blks s') = isDoingGC (blks s)
}.

Lemma step_at_refl blk s : step_at blk s s.
Proof. constructor; try done. intros i b _ Hb. exists b. split; [done|by left]. Qed.

Lemma step_at_trans blk s1 s2 s3 : step_at blk s1 s2 -> step_at blk s2 s3 -> step_at blk s1 s3.
Proof.
  intros [H1 A1 P1 G1] [H2 A2 P2 G2]. constructor; try congruence.
  intros i b Hi Hb. destruct (H1 i b Hi Hb) as (b' & Hb' & Hc).
  destruct (H2 i b' Hi Hb') as (b'' & Hb'' & Hc'). exists b''. split; [done|by etransitivity].
Qed.

Lemma cp_frame_step blk s s' : cp_frame s s' -> step_at blk s s'.
Proof.
  intros Hf. constructor; [|apply Hf..]. intros i b _ Hb. by apply (cp_frame_lookup _ _ _ _ Hf).
Qed.

Lemma frame_at_step blk s s' : frame_at cfg blk s s' -> step_at blk s s'.
Proof.
  intros [Hf Hi]. constructor; [|apply Hf..]. intros i b Hne Hb. exists b.
  rewrite Hi by done. split; [done|by left].
Qed.

Lemma with_infos_step blk bi s :
  step_at blk s (with_infos (<[index cfg blk := bi]> (blockInfo (blks s))) s).
Proof.
  constructor; try done. intros i b Hi Hb. exists b. unfold with_infos. simp_fields.
  rewrite list_lookup_insert_ne by done. split; [done|by left].
Qed.

(** Changes that leave blocks and allocator alone. *)
Lemma step_at_eq blk s s' :
  blockInfo (blks s') = blockInfo (blks s) -> allocationBlock (blks s') = allocationBlock (blks s) ->
  allocationPage (blks s') = allocationPage (blks s) -> isDoingGC (blks s') = isDoingGC (blks s) ->
  step_at blk s s'.
Proof. intros Hb. intros. constructor; try done. rewrite Hb. intros i b _ Hi. exists b. split; [done|by left]. Qed.

Lemma InvalidateCheckpoint_spec pe pf s :
  blocks_ok cfg pe pf (blks s) ->
  wp (yaffs_InvalidateCheckpoint cfg) (fun _ s' =>
    blocks_ok cfg pe pf (blks s') /\ cp_frame s s') s.
Proof.
  intros Hok. unfold yaffs_InvalidateCheckpoint, getC, modC. wp_steps.
  destruct (_ || _); [|done]. wp_step. wp_step.
  set (s1 := s <| ckpt ::= fun c => c <| isCheckpointed := false |> |>).
  eapply wp_seq; [apply (CheckpointInvalidateStream_spec cfg Hmark pe pf s1); exact Hok|].
  intros r s2 [Hok2 Hf2]. apply wp_when.
  assert (Hf : cp_frame s s2) by (etransitivity; [by apply (cp_frame_eq s s1)|done]).
  destruct (hasSuperBlock cfg); [|done]. apply wp_modify. split; [done|].
  etransitivity; [exact Hf|by apply cp_frame_eq].
Qed.

(** The state of a block, whatever its flags. *)
Definition block_in (s : State N) (blk : Z) (p : BlockInfo -> Prop) : Prop :=
  exists bi, blockInfo (blks s) !! index cfg blk = Some bi /\ p bi.

Lemma RetireBlock_spec blk s bi :
  blocks_ok cfg 0 0 (blks s) -> valid_block cfg blk ->
  blockInfo (blks s) !! index cfg blk = Some bi -> blockState bi = BLOCK_STATE_DIRTY ->
  wp (yaffs_RetireBlock cfg blk) (fun _ s' =>
    blocks_ok cfg 0 0 (blks s') /\ step_at blk s s' /\
    chunkBits (blks s') = chunkBits (blks s) /\
    block_in s' blk (fun bi => blockState bi = BLOCK_STATE_DEAD)) s.
Proof.
  intros Hok Hv Hb Hs. assert (Hlo : internalStartBlock cfg <= blk) by apply Hv.
  unfold yaffs_RetireBlock, modS. apply wp_bind. eapply wp_GetBlockInfo; [done|exact Hb|].
  eapply wp_seq; [by apply (InvalidateCheckpoint_spec 0 0 s)|]. intros [] s1 [Hok1 Hf1].
  assert (Hb1 : blockInfo (blks s1) !! index cfg blk = Some bi).
  { eapply cp_frame_same; [exact Hf1|exact Hb|by rewrite Hs]. }
  eapply wp_seq; [apply nf_mark|]. intros r s2 [Hbl2 Hc2].
  apply wp_bind. eapply wp_set_block_info; [done|by rewrite Hbl2; exact Hb1|]. wp_steps.
  rewrite Hbl2. set (bi' := bi <| blockState := _ |> <| gcPrioritise := _ |> <| needsRetiring := _ |>).
  unfold with_infos. simp_fields. rewrite Hbl2.
  destruct (ok_block _ _ _ _ Hok1 blk bi Hv Hb1) as [Hp Hsoft He _].
  split; [|split; [|split]].
  - eapply (blocks_ok_change cfg 0 0 0 0 _ _ blk bi bi'); [exact Hok1|done|done|done|..];
      simp_fields; try done.
    + apply other_bits_refl, Hok1.
    + constructor; [exact Hp|change (0 <= 0 <= pagesInUse bi); rewrite (He (or_intror (or_intror (or_introl Hs)))); lia|intros _; apply He; auto|reflexivity].
    + unfold empty_ind. simp_fields. rewrite Hs. change (blockState bi') with BLOCK_STATE_DEAD.
      simpl. lia.
    + unfold free_of. rewrite Hs. simpl. lia.
    + eapply (allocator_ok_change cfg _ _ blk bi bi'); [apply Hok1|done|done|done|..];
        simp_fields; try done; [apply other_bits_refl, Hok1|by rewrite Hs].
  - eapply step_at_trans; [by apply cp_frame_step|]. constructor; simp_fields; try (by rewrite Hbl2).
    intros i b Hi Hib. exists b. rewrite list_lookup_insert_ne by done. split; [done|by left].
  - apply Hf1.
  - exists bi'. split; [|done]. exact (list_lookup_insert_eq _ _ _ (lookup_lt_Some _ _ _ Hb1)).
Qed.

Lemma temp_buffer_ok : buffer_ok cfg (Some (temp_buffer cfg)).
Proof.
  intros b [= <-]. unfold temp_buffer. rewrite length_resize.
  destruct Hcfg. lia.
Qed.

Lemma CheckFF_total m l : (m <= length l)%nat -> exists r, CheckFF_loop m l = Some r.
Proof.
  revert l. induction m as [|m IH]; intros [|b l] Hl; simpl in *; [by eexists..|lia|].
  destruct (b =? 255); [apply IH; lia|by eexists].
Qed.

Lemma CheckChunkErased_spec chunk s :
  tables_ok cfg (blks s) -> valid_chunk cfg chunk ->
  wp (yaffs_CheckChunkErased cfg chunk)
    (fun _ s' => frame_at cfg (Z.quot chunk n) s s') s.
Proof.
  intros Ht Hc. unfold yaffs_CheckChunkErased.
  eapply wp_seq; [by apply (nf_read chunk); [..|apply temp_buffer_ok]|].
  intros [[r d] t] s1 [Hf Hd]. cbn [fst snd] in *.
  destruct d as [d|]; [|done]. wp_step. apply wp_of_option with d; [done|].
  unfold same_size in Hd. injection Hd as Hd.
  destruct (CheckFF_total (Z.to_nat (nDataBytesPerChunk cfg)) d) as [ff Hff].
  { rewrite Hd. pose proof (temp_buffer_ok _ eq_refl). lia. }
  wp_step. apply wp_of_option with ff; [done|]. by apply wp_ret.
Qed.

Lemma block_chunk blk i :
  valid_block cfg blk -> 0 <= i < n ->
  valid_chunk cfg (blk * n + i) /\ Z.quot (blk * n + i) n = blk /\ Z.rem (blk * n + i) n = i.
Proof.
  intros [H1 H2] Hi. fold n. destruct Hcfg as [Hs _ Hn _ _ _]. fold n in Hn.
  assert (Hv : valid_chunk cfg (blk * n + i)) by (unfold valid_chunk; fold n; nia).
  split; [done|]. rewrite Z.quot_div_nonneg, Z.rem_mod_nonneg by nia.
  rewrite Z.add_comm, Z.div_add, Z.mod_add, Z.div_small, Z.mod_small by lia. lia.
Qed.

(** Checking all chunks of a block only leaves flags on it. *)
Lemma check_all_spec blk s :
  tables_ok cfg (blks s) -> valid_block cfg blk ->
  wp (for_each (seqZ 0 n) (fun i => _ ← yaffs_CheckChunkErased cfg (blk * n + i); mret tt))
    (fun _ s' => frame_at cfg blk s s') s.
Proof.
  intros Ht Hv. apply (wp_for_each (fun _ s' => frame_at cfg blk s s')); [done|].
  intros d i r s1 Hseq Hf.
  assert (Hi : 0 <= i < n).
  { assert (Hin : i ∈ seqZ 0 n) by (rewrite Hseq; apply elem_of_app; right; by left).
    apply elem_of_seqZ in Hin. lia. }
  destruct (block_chunk blk i Hv Hi) as (Hc & Hq & _).
  eapply wp_seq; [apply CheckChunkErased_spec; [eapply frame_tables; [apply Hf|done]|done]|].
  intros res s2 Hf2. cbv beta in Hf2. rewrite Hq in Hf2. apply wp_ret. by etransitivity.
Qed.
Definition bits_eq (bits bits' : list Z) : Prop :=
  forall k c, 0 <= k < nBlocks cfg -> 0 <= c < n -> chunk_bit cfg bits' k c = chunk_bit cfg bits k c.

(** The attempt to erase a block that was marked dirty. *)
Lemma erase_part_spec blk s bi :
  blocks_ok cfg 0 n (blks s) -> blockInfo (blks s) !! index cfg blk = Some bi ->
  blockState bi = BLOCK_STATE_DIRTY ->
  wp (_ ← yaffs_InvalidateCheckpoint cfg;
      erasedOk ← yaffs_EraseBlockInNAND cfg blk;
      _ ← when (negb (ztrue erasedOk)) (modS (fun x => x <| nErasureFailures ::= Z.succ |>));
      mret erasedOk) (fun _ s' => blocks_ok cfg 0 n (blks s') /\ cp_frame s s') s.
Proof.
  intros Hok Hb Hs. eapply wp_seq; [by apply InvalidateCheckpoint_spec|].
  intros [] s1 [Hok1 Hf1]. eapply wp_seq; [apply EraseBlock_eq|]. intros e s2 [Hbl2 Hc2].
  assert (H2 : blocks_ok cfg 0 n (blks s2) /\ cp_frame s s2).
  { rewrite Hbl2. split; [done|]. etransitivity; [exact Hf1|by apply cp_frame_eq]. }
  unfold modS. wp_step. wp_step. destruct (negb _); wp_steps; [|done].
  split; [apply H2|]. etransitivity; [apply H2|by apply cp_frame_eq].
Qed.

(** The block becomes empty: the bookkeeping after a successful erasure. *)
Lemma clean_up_spec blk s bi :
  blocks_ok cfg 0 n (blks s) -> valid_block cfg blk ->
  blockInfo (blks s) !! index cfg blk = Some bi -> blockState bi = BLOCK_STATE_DIRTY ->
  wp (_ ← set_block_info cfg blk (fun bi => bi <| blockState := BLOCK_STATE_EMPTY |>);
      _ ← modB (fun b => b <| nErasedBlocks ::= Z.succ |>);
      _ ← set_block_info cfg blk (fun bi =>
        bi <| pagesInUse := 0 |> <| softDeletions := 0 |> <| hasShrinkHeader := false |>
           <| skipErasedCheck := true |> <| gcPrioritise := false |>);
      yaffs_ClearChunkBits cfg blk) (fun _ s' =>
    blocks_ok cfg 0 0 (blks s') /\ step_at blk s s' /\
    bits_eq (chunkBits (blks s)) (chunkBits (blks s')) /\
    block_in s' blk (fun bi => blockState bi = BLOCK_STATE_EMPTY /\ gcPrioritise bi = false)) s.
Proof.
  intros Hok Hv Hb Hs. assert (Hlo : internalStartBlock cfg <= blk) by apply Hv.
  pose proof (lookup_lt_Some _ _ _ Hb) as Hlen.
  destruct (ok_block _ _ _ _ Hok blk bi Hv Hb) as [Hp Hsoft He _].
  assert (Hp0 : pagesInUse bi = 0) by (apply He; auto).
  unfold modB. apply wp_bind. eapply wp_set_block_info; [done|exact Hb|]. wp_step. wp_step.
  apply wp_bind. eapply wp_set_block_info; [done| |].
  { unfold with_infos. simp_fields. exact (list_lookup_insert_eq _ _ _ Hlen). }
  set (bi' := _ <| gcPrioritise := false |>).
  set (s1 := with_infos _ _). unfold with_infos in s1.
  assert (Hinfos : blockInfo (blks s1) = <[index cfg blk := bi']> (blockInfo (blks s))).
  { unfold s1. simp_fields. by rewrite list_insert_insert_eq. }
  assert (Ht1 : tables_ok cfg (blks s1)).
  { destruct (ok_tables _ _ _ _ Hok) as [H1 H2 H3].
    constructor; [by rewrite Hinfos, length_insert|exact H2|exact H3]. }
  apply (wp_ClearChunkBits cfg Hcfg); [done|done|].
  intros bits' Hl Hy Hbits. unfold with_bits.
  assert (Heq : bits_eq (chunkBits (blks s)) bits').
  { intros k c Hk Hc. rewrite Hbits by done. destruct (Z.eqb_spec k (knum cfg blk)) as [->|]; [|done].
    symmetry. apply used_zero_inv; [|done]. by rewrite <- Hp. }
  assert (Ho : other_bits cfg (chunkBits (blks s)) bits' blk).
  { split; [exact Hl|]. split; [done|]. intros k c Hk Hc _. by apply Heq. }
  split; [|split; [|split]].
  - eapply (blocks_ok_change cfg 0 0 n 0 _ _ blk bi bi'); [exact Hok|done|done|exact Hinfos|exact Ho|..].
    + assert (Hu : used cfg bits' (knum cfg blk) = 0).
      { rewrite <- Hp0, Hp. apply used_ext. intros c Hc. apply Heq; [by apply knum_range|done]. }
      constructor; [symmetry; exact Hu|done|done|done].
    + simp_fields. unfold s1. simp_fields. unfold empty_ind. rewrite Hs.
      change (blockState bi') with BLOCK_STATE_EMPTY. simpl. lia.
    + simp_fields. unfold s1. simp_fields. unfold free_of, soft_of. rewrite Hs.
      change (blockState bi') with BLOCK_STATE_EMPTY.
      change (pagesInUse bi') with 0. change (softDeletions bi') with 0. simpl. fold n. lia.
    + eapply (allocator_ok_change cfg _ _ blk bi bi');
        [apply Hok|done|done|exact Hinfos|exact Ho|done|done|by rewrite Hs|done].
  - constructor; try done. intros i b Hi Hib. simp_fields. rewrite Hinfos.
    rewrite list_lookup_insert_ne by done. exists b. split; [done|by left].
  - exact Heq.
  - exists bi'. split; [|done]. simp_fields. rewrite Hinfos.
    exact (list_lookup_insert_eq _ _ _ Hlen).
Qed.

(** A block whose last page went becomes empty, or dead if it could not be erased. *)
Lemma BlockBecameDirty_spec blk s bi :
  blocks_ok cfg 0 0 (blks s) -> valid_block cfg blk ->
  blockInfo (blks s) !! index cfg blk = Some bi ->
  blockState bi = BLOCK_STATE_FULL \/ blockState bi = BLOCK_STATE_COLLECTING ->
  pagesInUse bi = 0 ->
  wp (yaffs_BlockBecameDirty cfg blk) (fun _ s' =>
    blocks_ok cfg 0 0 (blks s') /\ step_at blk s s' /\
    bits_eq (chunkBits (blks s)) (chunkBits (blks s')) /\
    block_in s' blk (fun bi =>
      (blockState bi = BLOCK_STATE_EMPTY /\ gcPrioritise bi = false) \/
      blockState bi = BLOCK_STATE_DEAD)) s.
Proof.
  intros Hok Hv Hb Hs Hp0. assert (Hlo : internalStartBlock cfg <= blk) by apply Hv.
  pose proof (lookup_lt_Some _ _ _ Hb) as Hlen.
  destruct (ok_block _ _ _ _ Hok blk bi Hv Hb) as [Hp Hsoft He _].
  unfold yaffs_BlockBecameDirty. apply wp_bind. eapply wp_GetBlockInfo; [done|exact Hb|].
  apply wp_bind. eapply wp_set_block_info; [done|exact Hb|].
  set (bi1 := bi <| blockState := BLOCK_STATE_DIRTY |>). set (s1 := with_infos _ _).
  assert (Hb1 : blockInfo (blks s1) !! index cfg blk = Some bi1)
    by exact (list_lookup_insert_eq _ _ _ Hlen).
  assert (Ho1 : other_bits cfg (chunkBits (blks s)) (chunkBits (blks s1)) blk)
    by exact (other_bits_refl cfg (blks s) blk (ok_tables _ _ _ _ Hok)).
  assert (Hok1 : blocks_ok cfg 0 n (blks s1)).
  { apply (blocks_ok_change cfg 0 0 0 n (blks s) _ blk bi bi1); try done.
    - constructor; [exact Hp| |intros _; exact Hp0|done]. change (0 <= 0 <= pagesInUse bi). lia.
    - unfold s1, with_infos, empty_ind. simp_fields. change (blockState bi1) with BLOCK_STATE_DIRTY.
      destruct Hs as [-> | ->]; simpl; lia.
    - unfold s1, with_infos. simp_fields. unfold free_of. change (blockState bi1) with BLOCK_STATE_DIRTY.
      assert (Hz : soft_of bi = 0) by lia. rewrite Hz, Hp0. destruct Hs as [-> | ->]; simpl; fold n; lia.
    - apply (allocator_ok_change cfg (blks s) _ blk bi bi1); try done;
        [apply Hok|by destruct Hs as [-> | ->]]. }
  assert (Hst1 : step_at blk s s1) by apply with_infos_step.
  eapply (wp_seq _ _ (fun _ s' => blocks_ok cfg 0 n (blks s') /\ cp_frame s1 s')).
  { destruct (needsRetiring bi); [by wp_steps|]. by eapply erase_part_spec. }
  intros erasedOk s2 [Hok2 Hf2].
  assert (Hb2 : blockInfo (blks s2) !! index cfg blk = Some bi1) by (by eapply cp_frame_same).
  eapply (wp_seq _ _ (fun _ s' => frame_at cfg blk s2 s')).
  { apply wp_when. destruct (_ && _); [|done]. apply check_all_spec; [apply Hok2|done]. }
  intros [] s3 Hf3. cbv beta in Hf3. destruct Hf3 as [Hf3 Hi3].
  destruct (frame_lookup _ _ _ _ Hf3 Hb2) as (bi3 & Hb3 & Hs3).
  pose proof (frame_ok cfg 0 n _ _ Hf3 Hok2) as Hok3.
  assert (Hd3 : blockState bi3 = BLOCK_STATE_DIRTY) by apply Hs3.
  assert (Hst3 : step_at blk s s3).
  { eapply step_at_trans; [exact Hst1|]. eapply step_at_trans; [by apply cp_frame_step|].
    by apply frame_at_step. }
  assert (Hbits3 : chunkBits (blks s3) = chunkBits (blks s))
    by (rewrite (fr_bits _ _ Hf3), (cf_bits _ _ Hf2); done).
  destruct (ztrue erasedOk).
  - eapply wp_mono; [by eapply clean_up_spec|]. intros [] s4 (Hok4 & Hst4 & Hbits4 & bi4 & Hb4 & H4).
    split; [done|]. split; [by eapply step_at_trans|]. split; [by rewrite Hbits3 in Hbits4|].
    exists bi4. split; [done|by left].
  - unfold modB. wp_step. wp_step. set (s4 := s3 <| blks ::= _ |>).
    assert (Hok4 : blocks_ok cfg 0 0 (blks s4)).
    { apply (blocks_ok_counters cfg 0 0 n 0 (blks s3)); try done.
      unfold s4. simp_fields. fold n. lia. }
    eapply wp_mono; [by eapply (RetireBlock_spec blk s4 bi3)|].
    intros [] s5 (Hok5 & Hst5 & Hbits5 & bi5 & Hb5 & H5).
    split; [done|]. split.
    { eapply step_at_trans; [exact Hst3|]. eapply step_at_trans; [|exact Hst5]. by apply step_at_eq. }
    split; [|exists bi5; split; [done|by right]].
    intros k c Hk Hc. rewrite Hbits5. unfold s4. simp_fields. by rewrite Hbits3.
Qed.
(** ** Deleting a chunk *)

Definition in_use_state (st : BlockState) : bool :=
  is_state st BLOCK_STATE_ALLOCATING || is_state st BLOCK_STATE_FULL ||
  is_state st BLOCK_STATE_COLLECTING.

(** What became of the block whose chunk was deleted. *)
Definition after_delete (bi bi' : BlockInfo) : Prop :=
  bi' = bi <| pagesInUse := pagesInUse bi - 1 |> \/
  (blockState bi' = BLOCK_STATE_EMPTY /\ gcPrioritise bi' = false) \/
  blockState bi' = BLOCK_STATE_DEAD.

(** The bitmap without one bit. *)
Definition bit_cleared (bits bits' : list Z) (blk c : Z) : Prop :=
  forall k' c', 0 <= k' < nBlocks cfg -> 0 <= c' < n ->
    chunk_bit cfg bits' k' c' =
    if bit_at (knum cfg blk) c k' c' then false else chunk_bit cfg bits k' c'.

Lemma swrap10 p : 0 <= p < 512 -> swrap 10 p = p.
Proof. intros. apply swrap_small; lia. Qed.

(** The bookkeeping of a deletion, before the block is looked at again. *)
Lemma release_page_ok blk c s bi bits' :
  blocks_ok cfg 0 0 (blks s) -> valid_block cfg blk -> 0 <= c < n ->
  blockInfo (blks s) !! index cfg blk = Some bi -> in_use_state (blockState bi) = true ->
  chunk_bit cfg (chunkBits (blks s)) (knum cfg blk) c = true ->
  soft_of bi < pagesInUse bi ->
  bit_changed cfg (chunkBits (blks s)) bits' blk c false ->
  forall b', blockInfo b' = <[index cfg blk := bi <| pagesInUse := pagesInUse bi - 1 |>]>
      (blockInfo (blks s)) -> chunkBits b' = bits' ->
    nErasedBlocks b' = nErasedBlocks (blks s) -> nFreeChunks b' = nFreeChunks (blks s) + 1 ->
    allocationBlock b' = allocationBlock (blks s) -> allocationPage b' = allocationPage (blks s) ->
    blocks_ok cfg 0 0 b'.
Proof.
  intros Hok Hv Hc Hb Hs Hbit Hsoft Hch b' Hi Hbits He Hf Hab Hap.
  destruct (ok_block _ _ _ _ Hok blk bi Hv Hb) as [Hp Hsf Hem Hrt].
  pose proof (bit_changed_other cfg _ _ _ _ _ Hch) as Ho.
  assert (Hu : used cfg bits' (knum cfg blk) = pagesInUse bi - 1).
  { rewrite Hp. rewrite (used_update cfg (chunkBits (blks s)) bits' (knum cfg blk) c false).
    - rewrite Hbit. simpl. lia.
    - done.
    - intros c' Hc'. destruct Hch as (_ & _ & Hch). rewrite Hch by (done || by apply knum_range).
      unfold bit_at. by rewrite Z.eqb_refl. }
  apply (blocks_ok_change cfg 0 0 0 0 (blks s) b' blk bi (bi <| pagesInUse := pagesInUse bi - 1 |>));
    try done.
  - by rewrite Hbits.
  - rewrite Hbits, Hu. constructor; simp_fields; [done| | |done].
    { change (0 <= soft_of bi <= pagesInUse bi - 1). lia. }
    intros [Hx | [Hx | [Hx | Hx]]]; rewrite Hx in Hs; done.
  - rewrite He. unfold empty_ind. simp_fields. lia.
  - rewrite Hf. unfold free_of. simp_fields. change (soft_of (_ <| pagesInUse := _ |>)) with (soft_of bi).
    assert (Hcs : counted_state (blockState bi) = true).
    { unfold in_use_state, is_state in Hs. destruct (blockState bi); done. }
    rewrite Hcs. lia.
  - eapply (allocator_ok_clear cfg (blks s) b' blk bi); [apply Hok|done|done|done|done| |done|done].
    intros k' c' Hk' Hc' Hfalse. rewrite Hbits. destruct Hch as (_ & _ & Hch).
    rewrite Hch, Hfalse by done. by destruct (bit_at _ _ _ _).
Qed.

Lemma DeleteChunk_spec blk c markNAND s bi :
  blocks_ok cfg 0 0 (blks s) -> valid_block cfg blk -> 0 <= c < n ->
  blockInfo (blks s) !! index cfg blk = Some bi -> in_use_state (blockState bi) = true ->
  chunk_bit cfg (chunkBits (blks s)) (knum cfg blk) c = true ->
  soft_of bi < pagesInUse bi ->
  wp (yaffs_DeleteChunk cfg (blk * n + c) markNAND) (fun _ s' =>
    blocks_ok cfg 0 0 (blks s') /\ step_at blk s s' /\
    bit_cleared (chunkBits (blks s)) (chunkBits (blks s')) blk c /\
    block_in s' blk (after_delete bi)) s.
Proof.
  intros Hok Hv Hc Hb Hs Hbit Hsoft. assert (Hlo : internalStartBlock cfg <= blk) by apply Hv.
  pose proof (lookup_lt_Some _ _ _ Hb) as Hlen.
  destruct (block_chunk blk c Hv Hc) as (Hvc & Hq & Hr).
  destruct (ok_block _ _ _ _ Hok blk bi Hv Hb) as [Hp Hsf Hem Hrt].
  assert (Hpos : 0 < blk * n + c).
  { destruct Hcfg as [H1 _ H2 _ _ _]. fold n in H2. nia. }
  unfold yaffs_DeleteChunk, modS, modB. rewrite (proj2 (Z.leb_gt _ _)) by done.
  fold n. rewrite Hq, Hr. wp_step. wp_step.
  apply wp_bind, wp_CheckChunkBit; [done|apply Hok|done|done|].
  apply wp_bind. eapply wp_GetBlockInfo; [done|exact Hb|].
  set (s1 := s <| stats ::= _ |>).
  eapply (wp_seq _ _ (fun _ s' => blks s' = blks s)).
  { destruct (_ && negb (isYaffs2 cfg)); [|done].
    eapply wp_seq; [apply nf_write|]. intros [r t] s2 (_ & H2 & _). apply wp_ret. by rewrite H2. }
  intros [] s2 Hbl2. cbv beta in Hbl2. apply wp_when.
  assert (Hcond : is_state (blockState bi) BLOCK_STATE_ALLOCATING ||
    is_state (blockState bi) BLOCK_STATE_FULL ||
    is_state (blockState bi) BLOCK_STATE_NEEDS_SCANNING ||
    is_state (blockState bi) BLOCK_STATE_COLLECTING = true).
  { unfold in_use_state, is_state in *. destruct (blockState bi); done. }
  rewrite Hcond. wp_step. wp_step. apply wp_bind.
  set (s3 := s2 <| blks ::= _ |>).
  assert (Hbl3 : blks s3 = (blks s) <| nFreeChunks ::= Z.succ |>)
    by (unfold s3; simp_fields; by rewrite Hbl2).
  apply (wp_write_chunk_bit cfg Hcfg false blk c); [rewrite Hbl3|done|done|].
  { destruct (ok_tables _ _ _ _ Hok) as [T1 T2 T3]. by constructor. }
  intros bits' Hch. rewrite Hbl3 in Hch. simp_fields_in Hch. set (s4 := with_bits bits' s3).
  assert (Hi4 : blockInfo (blks s4) = blockInfo (blks s)).
  { unfold s4, with_bits. simp_fields. by rewrite Hbl3. }
  apply wp_bind. eapply wp_set_block_info; [done|by rewrite Hi4; exact Hb|].
  cbv beta. rewrite Hi4.
  assert (Hsw : bi <| pagesInUse ::= fun p => swrap 10 (p - 1) |> =
    bi <| pagesInUse := pagesInUse bi - 1 |>).
  { pose proof (used_range cfg Hcfg (chunkBits (blks s)) (knum cfg blk)) as Hur.
    destruct Hcfg as [_ _ Hn _ _ _]. destruct bi. simpl in *.
    unfold field_update, upd_pagesInUse. cbn. by rewrite swrap10 by lia. }
  rewrite Hsw. set (bi' := bi <| pagesInUse := pagesInUse bi - 1 |>). set (s5 := with_infos _ s4).
  assert (Hb5 : blockInfo (blks s5) !! index cfg blk = Some bi')
    by exact (list_lookup_insert_eq _ _ _ Hlen).
  assert (Hok5 : blocks_ok cfg 0 0 (blks s5)).
  { eapply (release_page_ok blk c s bi bits'); try done; unfold s5, s4, with_infos, with_bits;
      simp_fields; rewrite Hbl3; done. }
  assert (Hst5 : step_at blk s s5).
  { constructor; unfold s5, s4, with_infos, with_bits; simp_fields; try (by rewrite Hbl3).
    intros i b Hi Hib. rewrite list_lookup_insert_ne by done. exists b. split; [done|by left]. }
  assert (Hbits5 : bit_cleared (chunkBits (blks s)) (chunkBits (blks s5)) blk c).
  { destruct Hch as (_ & _ & Hch). exact Hch. }
  apply wp_bind. eapply wp_GetBlockInfo; [done|exact Hb5|]. apply wp_when.
  destruct ((pagesInUse bi' =? 0) && _ && _ && _) eqn:Hdirty.
  - rewrite !andb_true_iff in Hdirty. destruct Hdirty as [[[Hz%Z.eqb_eq _] Hna] _].
    eapply wp_mono.
    { eapply (BlockBecameDirty_spec blk s5 bi'); [done|done|done| |done].
      change (blockState bi') with (blockState bi) in *.
      unfold in_use_state, is_state in *. destruct (blockState bi); try done; auto. }
    intros [] s6 (Hok6 & Hst6 & Hbits6 & bi6 & Hb6 & H6).
    split; [done|]. split; [by eapply step_at_trans|]. split.
    + intros k' c' Hk' Hc'. rewrite Hbits6 by done. by apply Hbits5.
    + exists bi6. split; [done|by right].
  - split; [done|]. split; [done|]. split; [done|]. exists bi'. split; [done|by left].
Qed.
(** ** Finding a block to allocate from *)

(** The next position of [allocationBlockFinder]. *)
Definition next_finder (f : Z) : Z :=
  if (f + 1 <? internalStartBlock cfg) || (internalEndBlock cfg <? f + 1)
  then internalStartBlock cfg else f + 1.
Definition finder_at (f : Z) (i : nat) : Z := Nat.iter i next_finder f.

Lemma next_finder_valid f : valid_block cfg (next_finder f).
Proof.
  unfold next_finder, valid_block. pose proof (c_end _ Hcfg).
  destruct (Z.ltb_spec (f + 1) (internalStartBlock cfg)), (Z.ltb_spec (internalEndBlock cfg) (f + 1));
    simpl; lia.
Qed.

(** From its first step on the finder goes round the device. *)
Lemma finder_at_mod f j :
  finder_at f (S j) = internalStartBlock cfg +
    (next_finder f - internalStartBlock cfg + Z.of_nat j) mod nBlocks cfg.
Proof.
  pose proof (c_end _ Hcfg) as He. assert (Hn : 0 < nBlocks cfg) by (unfold nBlocks; lia).
  induction j as [|j IH].
  - pose proof (next_finder_valid f) as Hv. unfold valid_block in Hv.
    change (finder_at f 1) with (next_finder f). change (Z.of_nat 0) with 0.
    rewrite Z.add_0_r, Z.mod_small by (unfold nBlocks; lia). lia.
  - change (finder_at f (S (S j))) with (next_finder (finder_at f (S j))). rewrite IH.
    rewrite Nat2Z.inj_succ, <- Z.add_1_r, Z.add_assoc.
    set (a := next_finder f - internalStartBlock cfg + Z.of_nat j).
    pose proof (Z.mod_pos_bound a (nBlocks cfg) Hn) as Hm.
    rewrite <- (Z.add_mod_idemp_l a 1) by lia. unfold next_finder.
    rewrite (proj2 (Z.ltb_ge _ _)) by lia. simpl.
    destruct (Z.ltb_spec (internalEndBlock cfg) (internalStartBlock cfg + a mod nBlocks cfg + 1)).
    + replace (a mod nBlocks cfg + 1) with (nBlocks cfg) by (unfold nBlocks in *; lia).
      rewrite Z.mod_same by lia. lia.
    + rewrite (Z.mod_small (a mod nBlocks cfg + 1)) by (unfold nBlocks in *; lia). lia.
Qed.

Lemma finder_reaches f blk :
  valid_block cfg blk -> exists j, (j < Z.to_nat (nBlocks cfg))%nat /\ finder_at f (S j) = blk.
Proof.
  intros Hv. pose proof (c_end _ Hcfg) as He.
  assert (Hn : 0 < nBlocks cfg) by (unfold nBlocks; lia).
  set (g := next_finder f). set (j := (blk - g) mod nBlocks cfg).
  pose proof (Z.mod_pos_bound (blk - g) (nBlocks cfg) Hn) as Hj. fold j in Hj.
  exists (Z.to_nat j). split; [lia|]. rewrite finder_at_mod, Z2Nat.id by lia. fold g.
  unfold j. rewrite Z.add_mod_idemp_r by lia.
  replace (g - internalStartBlock cfg + (blk - g)) with (blk - internalStartBlock cfg) by lia.
  unfold valid_block in Hv. rewrite Z.mod_small; unfold nBlocks; lia.
Qed.

Definition with_finder (f : Z) (s : State N) : State N :=
  s <| blks ::= fun b => b <| allocationBlockFinder := f |> |>.

(** The block found, taken over for allocation. *)
Definition block_taken (s s' : State N) (blk : Z) : Prop :=
  exists bi q, blockInfo (blks s) !! index cfg blk = Some bi /\
    blockState bi = BLOCK_STATE_EMPTY /\
    blockInfo (blks s') = <[index cfg blk :=
      bi <| blockState := BLOCK_STATE_ALLOCATING |> <| bi_sequenceNumber := q |>]>
      (blockInfo (blks s)) /\
    chunkBits (blks s') = chunkBits (blks s) /\
    nErasedBlocks (blks s') = nErasedBlocks (blks s) - 1 /\
    nFreeChunks (blks s') = nFreeChunks (blks s) /\
    isDoingGC (blks s') = isDoingGC (blks s) /\ ckpt s' = ckpt s.

Lemma advance_finder_spec s :
  wp (advance_finder cfg) (fun f s' =>
    f = next_finder (allocationBlockFinder (blks s)) /\ s' = with_finder f s) s.
Proof.
  unfold advance_finder, modB, getB. wp_steps. simp_fields. unfold next_finder.
  set (f := allocationBlockFinder (blks s)). change (Z.succ f) with (f + 1).
  destruct (_ || _); wp_steps; simp_fields; by destruct s as [[]].
Qed.

Lemma take_block_spec f bi s :
  valid_block cfg f -> blockInfo (blks s) !! index cfg f = Some bi ->
  blockState bi = BLOCK_STATE_EMPTY ->
  wp (take_block cfg f) (fun _ s' => block_taken s s' f) s.
Proof.
  intros Hv Hb Hs. assert (Hlo : internalStartBlock cfg <= f) by apply Hv.
  pose proof (lookup_lt_Some _ _ _ Hb) as Hlen. unfold take_block, modB, getB.
  apply wp_bind. eapply wp_set_block_info; [done|exact Hb|]. wp_step. wp_step. wp_step. wp_step.
  apply wp_bind. eapply wp_set_block_info; [done| |].
  { unfold with_infos. simp_fields. exact (list_lookup_insert_eq _ _ _ Hlen). }
  wp_steps. exists bi. eexists. unfold with_infos. simp_fields. rewrite list_insert_insert_eq.
  split; [done|]. split; [done|]. split; [done|]. split; [done|]. split; [lia|]. split; [done|]. by split.
Qed.

Lemma block_taken_finder f s s' blk :
  block_taken (with_finder f s) s' blk -> block_taken s s' blk.
Proof. done. Qed.

Lemma FindBlockForAllocation_spec s :
  blocks_ok cfg 0 0 (blks s) ->
  wp (yaffs_FindBlockForAllocation cfg) (fun r s' =>
    (r = -1 /\ nErasedBlocks (blks s) < 1 /\ s' = s) \/
    (valid_block cfg r /\ block_taken s s' r)) s.
Proof.
  intros Hok. unfold yaffs_FindBlockForAllocation, getB. wp_step. wp_step.
  destruct (Z.ltb_spec (nErasedBlocks (blks s)) 1) as [Hlt|Hge]; [by apply wp_ret; left|].
  set (f0 := allocationBlockFinder (blks s)).
  eapply wp_seq.
  { apply (wp_for_break (fun d s' => s' = with_finder (finder_at f0 (length d)) s /\
        forall i, (i < length d)%nat -> ~ block_in s (finder_at f0 (S i))
          (fun bi => blockState bi = BLOCK_STATE_EMPTY))
      (fun r s' => match r with
        | Some r => valid_block cfg r /\ block_taken s s' r
        | None => False end)).
    - split; [by destruct s as [[]]|]. intros i Hi. simpl in Hi. lia.
    - intros d x rest s' _ [-> Hd]. eapply wp_seq; [apply advance_finder_spec|].
      intros f s' [-> ->]. unfold with_finder. simp_fields.
      change (next_finder (finder_at f0 (length d))) with (finder_at f0 (S (length d))).
      set (f := finder_at f0 (S (length d))).
      assert (Hv : valid_block cfg f) by apply next_finder_valid.
      destruct (get_block cfg 0 0 (blks s) f Hok Hv) as [bi Hb].
      apply wp_bind. eapply wp_GetBlockInfo; [apply Hv|exact Hb|].
      unfold is_state. destruct (bool_decide_reflect (blockState bi = BLOCK_STATE_EMPTY)) as [He|He].
      + eapply wp_seq; [by eapply take_block_spec|]. intros [] s2 H2. by apply wp_ret.
      + apply wp_ret. rewrite length_app, Nat.add_1_r. split; [by destruct s as [[]]|].
        intros i Hi. destruct (decide (i = length d)) as [->|]; [|apply Hd; lia].
        intros (bi' & Hb' & He'). fold f in Hb'. rewrite Hb in Hb'. by simplify_eq.
    - intros s' [_ Hall].
      destruct (sumZ_pos_elem (fun bi => is_state (blockState bi) BLOCK_STATE_EMPTY)
        (blockInfo (blks s))) as (i & bi & Hi & He).
      { rewrite (ok_erased _ _ _ _ Hok) in Hge. unfold empty_ind in Hge.
        change (0 < sumZ (empty_ind) (blockInfo (blks s))). unfold empty_ind. lia. }
      destruct (lookup_index cfg _ i bi (ok_tables _ _ _ _ Hok) Hi) as [Hv Hidx].
      destruct (finder_reaches f0 _ Hv) as (j & Hj & Hf).
      apply (Hall j); [by rewrite length_seqZ|]. exists bi. rewrite Hf, Hidx. split; [done|].
      apply (bool_decide_eq_true_1 _ He). }
  intros [r|] s' Hr; [|done]. apply wp_ret. by right.
Qed.
(** ** Handing out chunks *)

Lemma minus_one_invalid : ~ valid_block cfg (-1).
Proof. unfold valid_block. pose proof (c_start _ Hcfg). lia. Qed.

Lemma allocator_none b :
  allocator_ok cfg b -> ~ valid_block cfg (allocationBlock b) ->
  allocationBlock b = -1 /\ forall blk bi, valid_block cfg blk ->
    blockInfo b !! index cfg blk = Some bi -> blockState bi <> BLOCK_STATE_ALLOCATING.
Proof.
  intros [Hb Hs _ _] Hn. split; [by destruct Hb|]. intros blk bi Hv Hi He.
  apply (Hs blk bi Hv Hi) in He. by subst.
Qed.

(** Taking an empty block over for allocation keeps the books. *)
Lemma take_block_ok s s' blk :
  blocks_ok cfg 0 0 (blks s) -> ~ valid_block cfg (allocationBlock (blks s)) ->
  valid_block cfg blk -> block_taken s s' blk ->
  forall b', b' = (blks s') <| allocationBlock := blk |> <| allocationPage := 0 |> ->
  blocks_ok cfg 0 0 b'.
Proof.
  intros Hok Hnone Hv (bi & q & Hb & Hs & Hi & Hbits & He & Hf & _) b' ->.
  destruct (allocator_none _ (ok_alloc _ _ _ _ Hok) Hnone) as [Hab Hno].
  destruct (ok_block _ _ _ _ Hok blk bi Hv Hb) as [Hp Hsf Hem Hrt].
  assert (Hp0 : pagesInUse bi = 0) by (apply Hem; auto).
  set (bi' := bi <| blockState := BLOCK_STATE_ALLOCATING |> <| bi_sequenceNumber := q |>) in *.
  apply (blocks_ok_change cfg 0 0 0 0 (blks s) _ blk bi bi'); try done; simp_fields.
  - rewrite Hbits. apply other_bits_refl, Hok.
  - rewrite Hbits. constructor; [exact Hp| |by intros [|[|[|]]]|done].
    unfold soft_of in Hsf. rewrite Hs in Hsf. exact Hsf.
  - rewrite He. unfold empty_ind. rewrite Hs. change (blockState bi') with BLOCK_STATE_ALLOCATING.
    simpl. lia.
  - rewrite Hf. unfold free_of, soft_of. rewrite Hs. change (blockState bi') with BLOCK_STATE_ALLOCATING.
    change (pagesInUse bi') with (pagesInUse bi). change (softDeletions bi') with (softDeletions bi).
    simpl. lia.
  - constructor; simp_fields; [by right| | |].
    + intros blk' x Hv' Hx. rewrite Hi in Hx.
      apply (lookup_insert_block cfg _ _ bi) in Hx as [[-> ->]|[Hne Hx]]; try done.
      split; [|done]. intros Hxa. by apply (Hno blk' x) in Hxa.
    + intros _. destruct Hcfg as [_ _ Hn _ _ _]. fold n in Hn. fold n. lia.
    + intros _ c Hc. rewrite Hbits. fold n in Hc. apply used_zero_inv; [by rewrite <- Hp|done].
Qed.

(** The block to allocate from, when there is one. *)
Definition ready (s s1 : State N) : Prop :=
  blocks_ok cfg 0 0 (blks s1) /\ chunkBits (blks s1) = chunkBits (blks s) /\
  isDoingGC (blks s1) = isDoingGC (blks s) /\
  nFreeChunks (blks s1) = nFreeChunks (blks s) /\ ckpt s1 = ckpt s /\
  ((blks s1 = blks s /\ 0 <= allocationBlock (blks s)) \/
   (~ valid_block cfg (allocationBlock (blks s)) /\ allocationPage (blks s1) = 0 /\
    valid_block cfg (allocationBlock (blks s1)) /\
    exists bi q, blockInfo (blks s) !! index cfg (allocationBlock (blks s1)) = Some bi /\
      blockState bi = BLOCK_STATE_EMPTY /\
      blockInfo (blks s1) = <[index cfg (allocationBlock (blks s1)) :=
        bi <| blockState := BLOCK_STATE_ALLOCATING |> <| bi_sequenceNumber := q |>]>
        (blockInfo (blks s))) \/
   (~ valid_block cfg (allocationBlock (blks s)) /\ allocationBlock (blks s1) = -1 /\
    nErasedBlocks (blks s) < 1 /\ blockInfo (blks s1) = blockInfo (blks s))).

Lemma get_ready s :
  blocks_ok cfg 0 0 (blks s) ->
  wp (next_allocation_block cfg) (fun _ s1 => ready s s1) s.
Proof.
  intros Hok. unfold next_allocation_block, getB, modB. wp_step. wp_step. wp_step.
  destruct (Z.ltb_spec (allocationBlock (blks s)) 0) as [Hlt|Hge].
  - assert (Hnv : ~ valid_block cfg (allocationBlock (blks s))).
    { unfold valid_block. pose proof (c_start _ Hcfg). lia. }
    eapply wp_seq; [by apply FindBlockForAllocation_spec|].
    intros r s1 [(-> & He & ->)|[Hv Ht]]; wp_steps.
    + split; [|split; [done|split; [done|split; [done|split; [done|by right; right]]]]].
      destruct (allocator_none _ (ok_alloc _ _ _ _ Hok) Hnv) as [Hab Hno].
      destruct Hok as [[T1 T2 T3] Hb _ He' Hf]. constructor; try done.
      constructor; simp_fields; [by left| |by intros ?%minus_one_invalid..].
      intros blk bi Hv Hx. split; [by intros ?%(Hno blk bi Hv Hx)|].
      intros ->. by apply minus_one_invalid in Hv.
    + split; [by eapply (take_block_ok s s1 r)|].
      destruct Ht as (bi & q & Hb & Hs & Hi & Hbits & He & Hf & Hgc & Hck).
      split; [exact Hbits|]. split; [exact Hgc|]. split; [exact Hf|]. split; [exact Hck|]. right. left.
      split; [done|]. split; [done|]. split; [done|]. by exists bi, q.
  - split; [done|]. split; [done|]. split; [done|]. split; [done|]. split; [done|]. by left.
Qed.

(** No block is being filled, and none is erased. *)
Definition no_room (s : State N) : Prop :=
  ~ valid_block cfg (allocationBlock (blks s)) /\ nErasedBlocks (blks s) < 1.

(** More chunks are free than are reserved: for the collection, and for the part of the
    checkpoint that is not written. *)
Definition has_space (s : State N) : Prop :=
  (nReservedBlocks cfg + Z.max 0 (nCheckpointReservedBlocks cfg - blocksInCheckpoint (ckpt s))) * n
    < nFreeChunks (blks s).

Lemma CheckSpace_reflects s :
  wp (yaffs_CheckSpaceForAllocation cfg) (fun b s' => s' = s /\ (b = true <-> has_space s)) s.
Proof.
  unfold yaffs_CheckSpaceForAllocation, getB, getC, has_space. wp_steps. split; [done|]. fold n.
  rewrite Z.ltb_lt. destruct (Z.ltb_spec (nCheckpointReservedBlocks cfg - blocksInCheckpoint (ckpt s)) 0);
    [rewrite (Z.max_l 0) by lia|rewrite (Z.max_r 0) by lia]; done.
Qed.

Lemma has_space_same s s' : nFreeChunks (blks s') = nFreeChunks (blks s) -> ckpt s' = ckpt s ->
  has_space s' <-> has_space s.
Proof. unfold has_space. by intros -> ->. Qed.

Lemma no_room_left s s1 : blocks_ok cfg 0 0 (blks s) -> blocks_ok cfg 0 0 (blks s1) ->
  allocationBlock (blks s1) = -1 -> blockInfo (blks s1) = blockInfo (blks s) -> nErasedBlocks (blks s) < 1 -> no_room s1.
Proof.
  intros Hok Hok1 Ha Hi He. split; [rewrite Ha; apply minus_one_invalid|].
  pose proof (ok_erased _ _ _ _ Hok) as E. pose proof (ok_erased _ _ _ _ Hok1) as E1. rewrite Hi in E1. lia.
Qed.

(** A chunk was handed out. *)
Record allocated (s s' : State N) (chunk blk page : Z) : Prop := {
  ac_block : valid_block cfg blk;
  ac_page : 0 <= page < n;
  ac_chunk : chunk = blk * n + page;
  ac_was_free : chunk_bit cfg (chunkBits (blks s)) (knum cfg blk) page = false;
  ac_bits : bit_changed cfg (chunkBits (blks s)) (chunkBits (blks s')) blk page true;
  ac_info : exists bi bi', blockInfo (blks s) !! index cfg blk = Some bi /\
    blockInfo (blks s') = <[index cfg blk := bi']> (blockInfo (blks s)) /\
    ((blockState bi = BLOCK_STATE_EMPTY /\ ~ valid_block cfg (allocationBlock (blks s)) /\ page = 0) \/
     (blockState bi = BLOCK_STATE_ALLOCATING /\ allocationBlock (blks s) = blk /\
      page = allocationPage (blks s))) /\
    blockState bi' = (if n <=? page + 1 then BLOCK_STATE_FULL else BLOCK_STATE_ALLOCATING) /\
    pagesInUse bi' = pagesInUse bi + 1 /\ softDeletions bi' = softDeletions bi /\
    gcPrioritise bi' = gcPrioritise bi /\ skipErasedCheck bi' = skipErasedCheck bi;
  ac_next : allocationBlock (blks s') = if n <=? page + 1 then -1 else blk;
  ac_next_page : allocationPage (blks s') = page + 1;
  ac_free : nFreeChunks (blks s') = nFreeChunks (blks s) - 1
}.

Lemma chunk_number blk page :
  valid_block cfg blk -> 0 <= page < n -> i32 (u32 (u32 (blk * n) + page)) = blk * n + page.
Proof.
  intros [H1 H2] Hp. destruct Hcfg as [Hs He Hn _ Hc _]. fold n in Hn, Hc.
  assert (0 <= blk * n + page < 2 ^ 31) by nia.
  rewrite (wrap_small 32 (blk * n)) by nia. rewrite wrap_small by lia.
  apply swrap_small; lia.
Qed.
(** Handing out the next page of the block being filled. *)
Definition page_taken (s s' : State N) (blk page : Z) (bi : BlockInfo) : Prop :=
  exists bi', blockInfo (blks s') = <[index cfg blk := bi']> (blockInfo (blks s)) /\
    blockState bi' = (if n <=? page + 1 then BLOCK_STATE_FULL else BLOCK_STATE_ALLOCATING) /\
    pagesInUse bi' = pagesInUse bi + 1 /\ softDeletions bi' = softDeletions bi /\
    gcPrioritise bi' = gcPrioritise bi /\ skipErasedCheck bi' = skipErasedCheck bi /\
    bit_changed cfg (chunkBits (blks s)) (chunkBits (blks s')) blk page true /\
    nErasedBlocks (blks s') = nErasedBlocks (blks s) /\
    nFreeChunks (blks s') = nFreeChunks (blks s) - 1 /\
    allocationBlock (blks s') = (if n <=? page + 1 then -1 else blk) /\
    allocationPage (blks s') = page + 1 /\ isDoingGC (blks s') = isDoingGC (blks s).

Lemma take_page_spec s blk bi :
  tables_ok cfg (blks s) -> valid_block cfg blk -> allocationBlock (blks s) = blk ->
  blockInfo (blks s) !! index cfg blk = Some bi -> blockState bi = BLOCK_STATE_ALLOCATING ->
  0 <= allocationPage (blks s) < n -> 0 <= pagesInUse bi < n ->
  wp (take_page cfg blk) (fun c s' =>
    c = blk * n + allocationPage (blks s) /\ page_taken s s' blk (allocationPage (blks s)) bi) s.
Proof.
  intros Ht Hv Hab Hb Hs Hp Hu. assert (Hlo : internalStartBlock cfg <= blk) by apply Hv.
  pose proof (lookup_lt_Some _ _ _ Hb) as Hlen.
  assert (Hn : n < 512) by (destruct Hcfg as [_ _ Hn _ _ _]; fold n in Hn; lia).
  set (page := allocationPage (blks s)) in *.
  unfold take_page, getB, modB. wp_step. wp_step. fold page.
  apply wp_bind. eapply wp_set_block_info; [done|exact Hb|].
  set (bi1 := bi <| pagesInUse ::= _ |>). set (s1 := with_infos _ s).
  assert (Hpages : pagesInUse bi1 = pagesInUse bi + 1)
    by (unfold bi1; simp_fields; apply swrap10; lia).
  apply wp_bind. apply (wp_write_chunk_bit cfg Hcfg true blk page); [|done|done|].
  { destruct Ht as [T1 T2 T3]. constructor; try done. unfold s1, with_infos. simp_fields.
    by rewrite length_insert. }
  intros bits' Hch. change (chunkBits (blks s1)) with (chunkBits (blks s)) in Hch.
  set (s2 := with_bits bits' s1). wp_step. wp_step. wp_step. wp_step. simp_fields.
  change (allocationPage (blks s2)) with page.
  fold n. rewrite (wrap_small 32 n) by lia. rewrite (wrap_small 32 (page + 1)) by lia.
  rewrite chunk_number by done. wp_step. wp_step.
  set (s3 := s2 <| blks ::= _ |>).
  assert (Hp3 : allocationPage (blks s3) = page + 1).
  { unfold s3. simp_fields. change (allocationPage (blks s2)) with page. apply wrap_small. lia. }
  destruct (n <=? page + 1) eqn:Hfull.
  - apply wp_bind. eapply wp_set_block_info; [done|exact (list_lookup_insert_eq _ _ _ Hlen)|].
    wp_steps. split; [done|]. exists (bi1 <| blockState := BLOCK_STATE_FULL |>).
    rewrite Hfull. unfold with_infos. simp_fields. unfold s3, s2, s1, with_infos, with_bits. simp_fields.
    rewrite list_insert_insert_eq. repeat (split; [done || exact Hp3|]). done.
  - wp_steps. split; [done|]. exists bi1. rewrite Hfull.
    unfold s3, s2, s1, with_infos, with_bits. simp_fields.
    repeat (split; [done || exact Hp3 || exact Hs|]). done.
Qed.

Lemma page_taken_ok s s' blk bi :
  blocks_ok cfg 0 0 (blks s) -> valid_block cfg blk -> allocationBlock (blks s) = blk ->
  blockInfo (blks s) !! index cfg blk = Some bi -> blockState bi = BLOCK_STATE_ALLOCATING ->
  page_taken s s' blk (allocationPage (blks s)) bi -> blocks_ok cfg 0 0 (blks s').
Proof.
  intros Hok Hv Hab Hb Hs (bi' & Hi & Hst & Hpg & Hsoft & _ & _ & Hch & He & Hf & Hab' & Hap & _).
  destruct (ok_block _ _ _ _ Hok blk bi Hv Hb) as [Hp Hsf _ _].
  destruct (ok_alloc _ _ _ _ Hok) as [_ As Ap Af]. rewrite Hab in Ap, Af.
  specialize (Ap Hv). specialize (Af Hv). set (page := allocationPage (blks s)) in *.
  pose proof (bit_changed_other cfg _ _ _ _ _ Hch) as Ho.
  assert (Hne : blockState bi' <> BLOCK_STATE_EMPTY) by (rewrite Hst; by destruct (_ <=? _)).
  assert (Hcount : counted_state (blockState bi') = true) by (rewrite Hst; by destruct (_ <=? _)).
  assert (Hsame : soft_of bi' = soft_of bi).
  { unfold soft_of. rewrite Hst, Hs, Hsoft. by destruct (_ <=? _). }
  apply (blocks_ok_change cfg 0 0 0 0 (blks s) _ blk bi bi'); try done.
  - assert (Hu : used cfg (chunkBits (blks s')) (knum cfg blk) = pagesInUse bi + 1).
    { rewrite Hp, (used_update cfg (chunkBits (blks s)) _ (knum cfg blk) page true).
      - rewrite (Af page) by lia. simpl. lia.
      - done.
      - intros c' Hc'. destruct Hch as (_ & _ & Hch). rewrite Hch by (done || by apply knum_range).
        unfold bit_at. by rewrite Z.eqb_refl. }
    rewrite Hu. constructor; [done|rewrite Hsame; lia| |rewrite Hst; by destruct (_ <=? _)].
    intros [Hx|[Hx|[Hx|Hx]]]; rewrite Hst in Hx; by destruct (_ <=? _).
  - rewrite He. unfold empty_ind, is_state. rewrite Hs, (bool_decide_false _ Hne). simpl. lia.
  - rewrite Hf. unfold free_of. rewrite Hcount, Hs, Hsame. simpl. lia.
  - constructor; rewrite ?Hab', ?Hap.
    + destruct (_ <=? _); [by left|by right].
    + intros blk' x Hv' Hx. rewrite Hi in Hx.
      apply (lookup_insert_block cfg _ _ bi) in Hx as [[-> ->]|[Hne' Hx]]; try done.
      * rewrite Hst. destruct (_ <=? _); [|done]. split; [done|].
        intros ->. by apply minus_one_invalid in Hv.
      * rewrite (As blk' x Hv' Hx), Hab. destruct (_ <=? _); [|done].
        split; [done|]. intros ->. by apply minus_one_invalid in Hv'.
    + destruct (Z.leb_spec n (page + 1)); [by intros ?%minus_one_invalid|]. intros _. fold n. lia.
    + destruct (Z.leb_spec n (page + 1)); [by intros ?%minus_one_invalid|]. intros _ c Hc.
      destruct Hch as (_ & _ & Hch). fold n in Hc. rewrite Hch by (by apply knum_range || lia).
      unfold bit_at. rewrite (proj2 (Z.eqb_neq c page)), andb_false_r by lia. apply Af. lia.
Qed.

(** [yaffs_AllocateChunk] keeps the books; it hands out a free chunk, or none when the
    device has no erased block left or only its reserve. *)
Lemma AllocateChunk_spec useReserve s :
  blocks_ok cfg 0 0 (blks s) ->
  wp (yaffs_AllocateChunk cfg useReserve) (fun r s' =>
    blocks_ok cfg 0 0 (blks s') /\ isDoingGC (blks s') = isDoingGC (blks s) /\
    ((fst r = -1 /\ chunkBits (blks s') = chunkBits (blks s) /\
      nFreeChunks (blks s') = nFreeChunks (blks s) /\
      ((no_room s /\ no_room s') \/ (useReserve = false /\ ~ has_space s)) /\ ready s s') \/
     exists page, allocated s s' (fst r) (snd r) page /\ (useReserve = true \/ has_space s) /\ ~ no_room s)) s.
Proof.
  intros Hok. unfold yaffs_AllocateChunk.
  eapply wp_seq; [by apply get_ready|]. intros [] s1 Hready.
  pose proof Hready as (Hok1 & Hbits1 & Hgc1 & Hf1 & Hck1 & Hcase).
  eapply wp_seq; [apply CheckSpace_reflects|].
  intros space s2 [-> Hspace]. rewrite (has_space_same s s1 Hf1 Hck1) in Hspace.
  destruct (negb useReserve && negb space) eqn:Hres.
  { apply wp_ret. split; [done|]. split; [done|]. left. split; [done|]. split; [done|].
    split; [done|]. split; [right|done]. destruct useReserve, space; try done.
    split; [done|]. by intros ?%Hspace. }
  assert (Hmay : useReserve = true \/ has_space s).
  { destruct useReserve; [by left|right]. apply Hspace. by destruct space. }
  unfold getB. wp_step. wp_step. destruct (ok_alloc _ _ _ _ Hok1) as [Ab As Ap Af].
  destruct (Z.leb_spec 0 (allocationBlock (blks s1))) as [Hge|Hlt].
  - assert (Hv : valid_block cfg (allocationBlock (blks s1))) by (destruct Ab; [lia|done]).
    set (blk := allocationBlock (blks s1)) in *.
    destruct (get_block cfg 0 0 (blks s1) blk Hok1 Hv) as [bi Hb].
    assert (Hs : blockState bi = BLOCK_STATE_ALLOCATING) by (by apply (As blk bi)).
    destruct (ok_block _ _ _ _ Hok1 blk bi Hv Hb) as [Hp Hsf _ _].
    specialize (Ap Hv). specialize (Af Hv). set (page := allocationPage (blks s1)) in *.
    assert (Hlt : 0 <= pagesInUse bi < n).
    { rewrite Hp. split; [apply (used_range cfg Hcfg)|].
      apply (used_not_full cfg Hcfg _ _ page); [fold n; lia|apply Af; lia]. }
    eapply wp_seq; [by apply (take_page_spec s1 blk bi); [apply Hok1|..]|].
    intros c s3 [-> Ht]. apply wp_ret. pose proof (page_taken_ok s1 s3 blk bi Hok1 Hv eq_refl Hb Hs Ht) as Hok3.
    destruct Ht as (bi' & Hi & Hst & Hpg & Hsoft & Hgp & Hsk & Hch & He & Hf & Hab' & Hap & Hgc).
    split; [done|]. split; [by rewrite Hgc|]. right. exists page. cbn [fst snd].
    split; [|split; [done|]].
    2: { intros [Hn1 Hn2]. destruct Hcase as [[Hsame Hg0]|[(_ & _ & _ & bi0 & q & Hb0 & Hs0 & _)|(_ & Hno & _)]].
      - apply Hn1. by rewrite <- Hsame.
      - pose proof (ok_erased _ _ _ _ Hok) as E.
        assert (1 <= sumZ empty_ind (blockInfo (blks s))); [|lia].
        etransitivity; [|apply (sumZ_lookup_le empty_ind _ (index cfg blk) bi0); [|exact Hb0]].
        + unfold empty_ind. by rewrite Hs0.
        + intros x _. unfold empty_ind. apply ind_range.
      - fold blk in Hno. lia. }
    constructor; try done; try congruence.
    + rewrite <- Hbits1. apply Af. lia.
    + by rewrite <- Hbits1.
    + destruct Hcase as [[Hsame _]|[(Hnv & Hpage & _ & bi0 & q & Hb0 & Hs0 & Hi0)|(_ & Hno & _)]].
      * exists bi, bi'. rewrite <- Hsame. split; [done|]. split; [done|]. split; [|done]. by right.
      * exists bi0, bi'. split; [done|]. fold blk in Hi0.
        split; [by rewrite Hi, Hi0, list_insert_insert_eq|].
        split; [by left|]. rewrite Hi0 in Hb.
        rewrite list_lookup_insert_eq in Hb by (by eapply lookup_lt_Some). injection Hb as <-. done.
      * exfalso. fold blk in Hno. subst blk. lia.
  - apply wp_ret. split; [done|]. split; [done|]. left. split; [done|]. split; [done|].
    split; [done|]. split; [|done]. left.
    destruct Hcase as [[Hsame Hge]|[(_ & _ & Hv & _)|(Hnv & Ha1 & He & Hi1)]];
      [exfalso|exfalso|by split; [split|apply (no_room_left s)]].
    + rewrite Hsame in Hlt. lia.
    + unfold valid_block in Hv. pose proof (c_start _ Hcfg). lia.
Qed.
(** ** Writing a new chunk *)

(** No page in use is lost. *)
Definition grows (bits bits' : list Z) : Prop :=
  forall k c, 0 <= k < nBlocks cfg -> 0 <= c < n ->
    chunk_bit cfg bits k c = true -> chunk_bit cfg bits' k c = true.

Lemma grows_refl bits : grows bits bits.
Proof. by intros k c. Qed.
Lemma grows_trans b1 b2 b3 : grows b1 b2 -> grows b2 b3 -> grows b1 b3.
Proof. intros H1 H2 k c Hk Hc Hb. apply H2; auto. Qed.

(** What bounds the passes that skip a chunk: the pages that prioritised blocks can
    still hand out. *)
Definition prio_block (bi : BlockInfo) : Z :=
  if gcPrioritise bi && (is_state (blockState bi) BLOCK_STATE_EMPTY ||
                         is_state (blockState bi) BLOCK_STATE_CHECKPOINT) then n else 0.
Definition prio_alloc (b : Blocks) : Z :=
  if allocationBlock b <? 0 then 0 else
  match blockInfo b !! index cfg (allocationBlock b) with
  | Some bi => if gcPrioritise bi then n - allocationPage b else 0
  | None => 0
  end.
Definition prio (b : Blocks) : Z := sumZ prio_block (blockInfo b) + prio_alloc b.

Lemma prio_block_range bi : 0 <= prio_block bi <= n.
Proof.
  unfold prio_block. destruct Hcfg as [_ _ Hn _ _ _]. fold n in Hn.
  destruct (_ && _); lia.
Qed.

Lemma prio_alloc_range b : allocator_ok cfg b -> 0 <= prio_alloc b <= n.
Proof.
  intros [Ab _ Ap _]. unfold prio_alloc. destruct Hcfg as [_ _ Hn _ _ _]. fold n in Hn.
  destruct (Z.ltb_spec (allocationBlock b) 0); [lia|].
  assert (Hv : valid_block cfg (allocationBlock b)) by (destruct Ab; [lia|done]).
  specialize (Ap Hv). fold n in Ap. destruct (_ !! _) as [bi|]; [|lia].
  destruct (gcPrioritise bi); lia.
Qed.

Lemma prio_range b : tables_ok cfg b -> allocator_ok cfg b -> 0 <= prio b <= (nBlocks cfg + 1) * n.
Proof.
  intros Ht Ha. unfold prio. pose proof (prio_alloc_range b Ha).
  pose proof (sumZ_nonneg prio_block (blockInfo b) (fun x _ => proj1 (prio_block_range x))).
  pose proof (sumZ_le prio_block (fun _ => n) (blockInfo b) (fun x _ => proj2 (prio_block_range x))) as Hu.
  rewrite sumZ_const, (t_infos _ _ Ht) in Hu. lia.
Qed.

Lemma prio_block_not bi :
  blockState bi <> BLOCK_STATE_EMPTY -> blockState bi <> BLOCK_STATE_CHECKPOINT -> prio_block bi = 0.
Proof.
  intros H1 H2. unfold prio_block, is_state. rewrite !bool_decide_false by done.
  by rewrite andb_false_r.
Qed.

(** Handing out a chunk of a prioritised block uses up one of these pages. *)
Lemma prio_allocated s s' chunk blk page bi :
  blocks_ok cfg 0 0 (blks s) -> allocated s s' chunk blk page ->
  blockInfo (blks s') !! index cfg blk = Some bi -> gcPrioritise bi = true ->
  prio (blks s') <= prio (blks s) - 1.
Proof.
  intros Hok [Hv Hp _ _ _ (bi0 & bi' & Hb0 & Hi & Hcase & Hst & _ & _ & Hgp & _) Hab Hap _] Hb Hg.
  rewrite Hi, list_lookup_insert_eq in Hb by (by eapply lookup_lt_Some). injection Hb as <-.
  assert (Hlo : 1 <= blk) by (pose proof (c_start _ Hcfg); unfold valid_block in Hv; lia).
  assert (Ha' : prio_alloc (blks s') = if n <=? page + 1 then 0 else n - (page + 1)).
  { unfold prio_alloc. rewrite Hab. destruct (Z.leb_spec n (page + 1)); [done|].
    rewrite (proj2 (Z.ltb_ge _ _)), Hi, list_lookup_insert_eq by (by eapply lookup_lt_Some || lia).
    by rewrite Hg, Hap. }
  assert (Hb' : prio_block bi' = 0) by (apply prio_block_not; rewrite Hst; by destruct (_ <=? _)).
  unfold prio. rewrite Hi, (sumZ_insert _ _ _ _ _ Hb0), Hb', Ha'.
  pose proof (prio_alloc_range (blks s) (ok_alloc _ _ _ _ Hok)) as Har.
  destruct Hcase as [(Hs & Hnv & ->)|(Hs & Hab0 & ->)].
  - assert (Hpb : prio_block bi0 = n).
    { unfold prio_block. rewrite <- Hgp, Hg, Hs. done. }
    rewrite Hpb. destruct (Z.leb_spec n (0 + 1)); lia.
  - rewrite (prio_block_not bi0) by (by rewrite Hs).
    assert (Ha : prio_alloc (blks s) = n - allocationPage (blks s)).
    { unfold prio_alloc. rewrite Hab0, (proj2 (Z.ltb_ge _ _)), Hb0, <- Hgp, Hg by lia. done. }
    rewrite Ha. destruct (Z.leb_spec n (allocationPage (blks s) + 1)); lia.
Qed.

(** Deleting a chunk adds none. *)
Lemma prio_deleted s s' blk bi :
  blocks_ok cfg 0 0 (blks s) -> blocks_ok cfg 0 0 (blks s') -> valid_block cfg blk ->
  blockInfo (blks s) !! index cfg blk = Some bi -> in_use_state (blockState bi) = true ->
  step_at blk s s' -> block_in s' blk (after_delete bi) -> prio (blks s') <= prio (blks s).
Proof.
  intros Hok Hok' Hv Hb Hs [Hi Hab Hap _] (bi' & Hb' & Hd).
  assert (Hsum : sumZ prio_block (blockInfo (blks s')) <= sumZ prio_block (blockInfo (blks s))).
  { apply sumZ_le_lookup.
    - pose proof (t_infos _ _ (ok_tables _ _ _ _ Hok)).
      pose proof (t_infos _ _ (ok_tables _ _ _ _ Hok')). lia.
    - intros i x y Hx Hy. destruct (decide (i = index cfg blk)) as [->|Hne].
      + rewrite Hb' in Hx. injection Hx as <-. pose proof (prio_block_range y).
        assert (Hz : prio_block bi' = 0); [|lia].
        destruct Hd as [-> | [[He Hg] | Hx]].
        * apply prio_block_not; simp_fields; intros Hx; by rewrite Hx in Hs.
        * unfold prio_block. by rewrite Hg.
        * apply prio_block_not; by rewrite Hx.
      + destruct (Hi i y Hne Hy) as (b' & Hb'' & Hc). rewrite Hx in Hb''. injection Hb'' as <-.
        destruct Hc as [-> | [Hck [-> | ->]]]; [done|..]; unfold prio_block; simp_fields;
          rewrite ?Hck; destruct (gcPrioritise y); simpl; try lia.
        pose proof (c_npb _ Hcfg) as Hnp. fold n in Hnp. lia. }
  enough (prio_alloc (blks s') = prio_alloc (blks s)) by (unfold prio; lia).
  unfold prio_alloc. rewrite Hab, Hap.
  destruct (Z.ltb_spec (allocationBlock (blks s)) 0) as [|Hge]; [done|].
  assert (Hva : valid_block cfg (allocationBlock (blks s))).
  { destruct (al_block _ _ (ok_alloc _ _ _ _ Hok)); [lia|done]. }
  destruct (get_block cfg 0 0 (blks s) _ Hok Hva) as [x Hx]. rewrite Hx.
  pose proof (proj2 (al_state _ _ (ok_alloc _ _ _ _ Hok) _ x Hva Hx) eq_refl) as Hxs.
  destruct (decide (allocationBlock (blks s) = blk)) as [He|Hne].
  - rewrite He in *. rewrite Hb' in *. rewrite Hb in Hx. injection Hx as <-.
    assert (Hs' : blockState bi' = BLOCK_STATE_ALLOCATING).
    { apply (al_state _ _ (ok_alloc _ _ _ _ Hok') blk bi' Hv Hb'). by rewrite Hab. }
    destruct Hd as [-> | [[Hx _] | Hx]]; [done|congruence|congruence].
  - destruct (Hi (index cfg (allocationBlock (blks s))) x) as (x' & Hx' & Hc).
    { intros Hidx. by apply index_inj in Hidx. }
    { done. }
    rewrite Hx'. destruct Hc as [-> | [Hck _]]; [done|congruence].
Qed.
(** A chunk that was free in [s] and is now in use. *)
Record fresh (s s' : State N) (chunk blk page : Z) : Prop := {
  fh_ok : blocks_ok cfg 0 0 (blks s');
  fh_block : valid_block cfg blk;
  fh_page : 0 <= page < n;
  fh_chunk : chunk = blk * n + page;
  fh_free : chunk_bit cfg (chunkBits (blks s)) (knum cfg blk) page = false;
  fh_bits : bit_changed cfg (chunkBits (blks s)) (chunkBits (blks s')) blk page true;
  fh_info : block_in s' blk (fun bi =>
    in_use_state (blockState bi) = true /\ soft_of bi < pagesInUse bi);
  fh_gc : isDoingGC (blks s') = isDoingGC (blks s)
}.

Lemma allocated_fresh s s' chunk blk page :
  blocks_ok cfg 0 0 (blks s) -> blocks_ok cfg 0 0 (blks s') ->
  isDoingGC (blks s') = isDoingGC (blks s) ->
  allocated s s' chunk blk page -> fresh s s' chunk blk page.
Proof.
  intros Hok Hok' Hgc [Hv Hp Hc Hfr Hb (bi & bi' & Hb0 & Hi & Hwas & Hst & Hpg & Hsf & _) _ _ _].
  constructor; try done. exists bi'.
  split; [rewrite Hi; apply list_lookup_insert_eq; by eapply lookup_lt_Some|].
  destruct (ok_block _ _ _ _ Hok blk bi Hv Hb0) as [_ Hs _ _].
  split; [rewrite Hst; by destruct (_ <=? _)|].
  unfold soft_of in *. rewrite Hst, Hpg, Hsf.
  destruct Hwas as [[Hw _]|[Hw _]]; rewrite Hw in Hs; destruct (_ <=? _); lia.
Qed.

Lemma fresh_frame s s1 s2 chunk blk page :
  fresh s s1 chunk blk page -> frame_at cfg blk s1 s2 -> fresh s s2 chunk blk page.
Proof.
  intros [Hok Hv Hp Hc Hfr Hb (bi & Hbi & Hs & Hu) Hgc] [Hf _].
  destruct (frame_lookup _ _ _ _ Hf Hbi) as (bi' & Hbi' & [Es Ep Est _ _ _]).
  constructor; try done.
  - by eapply frame_ok.
  - by rewrite (fr_bits _ _ Hf).
  - exists bi'. split; [done|]. unfold soft_of. by rewrite Est, Es, Ep.
  - by rewrite (fr_gc _ _ Hf).
Qed.

Lemma fresh_skip s s1 chunk blk page bi :
  fresh s s1 chunk blk page -> blockInfo (blks s1) !! index cfg blk = Some bi ->
  fresh s (with_infos (<[index cfg blk := bi <| skipErasedCheck := true |>]>
    (blockInfo (blks s1))) s1) chunk blk page.
Proof.
  intros [Hok Hv Hp Hc Hfr Hb (bi' & Hbi & Hs & Hu) Hgc] Hi. rewrite Hi in Hbi. injection Hbi as <-.
  constructor; try done; unfold with_infos; simp_fields.
  - destruct (ok_block _ _ _ _ Hok blk bi Hv Hi) as [B1 B2 B3 B4].
    apply (blocks_ok_change cfg 0 0 0 0 (blks s1) _ blk bi (bi <| skipErasedCheck := true |>));
      try done; simp_fields.
    + exact (other_bits_refl cfg _ blk (ok_tables _ _ _ _ Hok)).
    + change (empty_ind (bi <| skipErasedCheck := true |>)) with (empty_ind bi). lia.
    + change (free_of cfg (bi <| skipErasedCheck := true |>)) with (free_of cfg bi). lia.
    + eapply (allocator_ok_clear cfg (blks s1) _ blk bi); [apply Hok|done|done|done|done|done|done|done].
  - exists (bi <| skipErasedCheck := true |>). split; [|done].
    exact (list_lookup_insert_eq _ _ _ (lookup_lt_Some _ _ _ Hi)).
Qed.

Lemma fresh_grows s s' chunk blk page :
  fresh s s' chunk blk page -> grows (chunkBits (blks s)) (chunkBits (blks s')).
Proof.
  intros [_ _ _ _ _ (_ & _ & Hb) _ _] k c Hk Hc Ht. rewrite Hb by done.
  by destruct (bit_at _ _ _ _).
Qed.

Lemma fresh_used s s' chunk blk page :
  fresh s s' chunk blk page -> chunk_bit cfg (chunkBits (blks s')) (knum cfg blk) page = true.
Proof.
  intros [_ Hv Hp _ _ (_ & _ & Hb) _ _]. rewrite Hb by (done || by apply knum_range).
  unfold bit_at. by rewrite !Z.eqb_refl.
Qed.

Lemma fresh_delete s s1 chunk blk page markNAND :
  fresh s s1 chunk blk page ->
  wp (yaffs_DeleteChunk cfg chunk markNAND) (fun _ s2 =>
    blocks_ok cfg 0 0 (blks s2) /\ grows (chunkBits (blks s)) (chunkBits (blks s2)) /\
    isDoingGC (blks s2) = isDoingGC (blks s) /\ prio (blks s2) <= prio (blks s1)) s1.
Proof.
  intros Hfr. pose proof (fresh_used _ _ _ _ _ Hfr) as Hbit.
  destruct Hfr as [Hok Hv Hp -> Hfree (Hl & _ & Hb) (bi & Hbi & Hs & Hu) Hgc].
  eapply wp_mono; [by apply (DeleteChunk_spec blk page markNAND s1 bi)|].
  intros [] s2 (Hok2 & Hst & Hbits & Hin). split; [done|]. split; [|split].
  - intros k c Hk Hc Ht. rewrite Hbits by done. unfold bit_at.
    destruct (Z.eqb_spec k (knum cfg blk)) as [->|Hne]; simpl.
    + destruct (Z.eqb_spec c page) as [->|Hne]; [congruence|].
      rewrite Hb by done. unfold bit_at. by rewrite Ht, (proj2 (Z.eqb_neq _ _) Hne), andb_false_r.
    + rewrite Hb by done. unfold bit_at. by rewrite Ht, (proj2 (Z.eqb_neq _ _) Hne).
  - by rewrite (sa_gc _ _ _ Hst), Hgc.
  - by eapply prio_deleted.
Qed.

(** Tags that differ in nothing but what a write stores in them. *)
Definition stamped (tags t : ExtendedTags) : Prop :=
  exists seq used, t = tags <| sequenceNumber := seq |> <| chunkUsed := used |>.

Lemma stamped_refl tags : stamped tags tags.
Proof. exists (sequenceNumber tags), (chunkUsed tags). by destruct tags. Qed.

Lemma stamped_trans t1 t2 t3 : stamped t1 t2 -> stamped t2 t3 -> stamped t1 t3.
Proof. intros (q & u & ->) (q' & u' & ->). by exists q', u'. Qed.

Lemma write_stamps chunk data tags s :
  pc (yaffs_WriteChunkWithTagsToNAND cfg chunk data tags) (fun r _ => stamped tags (snd r)) s.
Proof.
  unfold yaffs_WriteChunkWithTagsToNAND, getB. pc_steps. intros r s1 _. apply pc_ret.
  by exists (dev_sequenceNumber (blks s)), 1.
Qed.

(** The write that made a chunk hold [data] under [tags]: the last thing that happened to
    the medium. *)
Definition written (data : option (list Z)) (tags : ExtendedTags) (chunk : Z) (s' : State N) : Prop :=
  exists s0 t t', stamped tags t /\
    yaffs_WriteChunkWithTagsToNAND cfg chunk data t s0 = Some ((YAFFS_OK, t'), s').

(** No page may be handed out: there is none, or only the reserve is left. *)
Definition out_of_space (useReserve : bool) (s : State N) : Prop :=
  no_room s \/ (useReserve = false /\ ~ has_space s).

(** What one pass of the write loop does. *)
Definition attempt_result (useReserve : bool) (data : option (list Z)) (tags : ExtendedTags) (attempts writeOk : Z) (s : State N)
    (a : attempt) (s' : State N) : Prop :=
  blocks_ok cfg 0 0 (blks s') /\ grows (chunkBits (blks s)) (chunkBits (blks s')) /\
  isDoingGC (blks s') = isDoingGC (blks s) /\
  match a with
  | NoSpace => out_of_space useReserve s'
  | Tried chunk writeOk' attempts' tags' =>
      stamped tags tags' /\
      ((writeOk' = writeOk /\ attempts' = attempts /\ prio (blks s') <= prio (blks s) - 1) \/
      (attempts' = attempts + 1 /\
       (writeOk' = writeOk \/ writeOk' = YAFFS_FAIL \/
        (writeOk' = YAFFS_OK /\ written data tags chunk s' /\ exists blk page, fresh s s' chunk blk page))))
  end.

Lemma HandleWriteChunkError_spec s s1 chunk blk page erasedOk :
  fresh s s1 chunk blk page ->
  wp (yaffs_HandleWriteChunkError cfg chunk erasedOk) (fun _ s2 =>
    blocks_ok cfg 0 0 (blks s2) /\ grows (chunkBits (blks s)) (chunkBits (blks s2)) /\
    isDoingGC (blks s2) = isDoingGC (blks s)) s1.
Proof.
  intros Hfr. pose proof Hfr as [Hok Hv Hp Hc _ _ _ _].
  destruct (block_chunk blk page Hv Hp) as (_ & Hq & _).
  unfold yaffs_HandleWriteChunkError. fold n. rewrite Hc, Hq, <- Hc.
  destruct (get_block cfg 0 0 (blks s1) blk Hok Hv) as [bi Hb].
  assert (Hlo : internalStartBlock cfg <= blk) by apply Hv.
  apply wp_bind. eapply wp_GetBlockInfo; [done|exact Hb|].
  eapply wp_seq; [apply HandleChunkError_frame; [apply Hok|done]|]. intros [] s2 Hf2. cbv beta in Hf2.
  apply (wp_seq _ _ (fun _ s' => frame_at cfg blk s1 s')).
  { apply wp_when. destruct erasedOk; [|done].
    destruct (frame_lookup _ _ _ _ (proj1 Hf2) Hb) as (bi2 & Hb2 & _).
    eapply wp_mono; [by eapply (wp_flag cfg blk); [done|exact Hb2|]|].
    intros [] s3 [Hf3 _]. by etransitivity. }
  intros [] s3 Hf3. cbv beta in Hf3.
  eapply wp_mono; [apply (fresh_delete s s3 chunk blk page); by eapply fresh_frame|].
  intros [] s4 (H1 & H2 & H3 & _). done.
Qed.

Lemma write_attempt_spec data useReserve attempts writeOk tags s :
  blocks_ok cfg 0 0 (blks s) ->
  wp (write_attempt cfg data useReserve attempts writeOk tags)
    (attempt_result useReserve data tags attempts writeOk s) s.
Proof.
  intros Hok. unfold write_attempt.
  eapply wp_seq; [by apply AllocateChunk_spec|].
  intros [chunk blk] s1 (Hok1 & Hgc1 & [(Hc & Hbits & Hf1 & Hout & Hready)|(page & Hal & _)]); cbn [fst snd] in *.
  { subst chunk. apply wp_ret. split; [done|]. split; [rewrite Hbits; apply grows_refl|]. split; [done|].
    destruct Hout as [[_ Hout]|[Hur Hout]]; [by left|right]. split; [done|].
    rewrite (has_space_same s s1); [done..|apply Hready]. }
  pose proof (allocated_fresh s s1 chunk blk page Hok Hok1 Hgc1 Hal) as Hfr.
  pose proof Hfr as [_ Hv Hp Hc _ _ _ _].
  assert (Hlo : internalStartBlock cfg <= blk) by apply Hv.
  destruct (block_chunk blk page Hv Hp) as (Hvc & Hq & _). rewrite <- Hc in Hvc, Hq.
  assert (Hpos : (chunk <? 0) = false).
  { apply Z.ltb_ge. rewrite Hc. pose proof (c_start _ Hcfg). nia. }
  rewrite Hpos. destruct (get_block cfg 0 0 (blks s1) blk Hok1 Hv) as [bi Hb].
  apply wp_bind. eapply wp_GetBlockInfo; [done|exact Hb|].
  destruct (gcPrioritise bi) eqn:Hg.
  { eapply wp_seq; [by apply (fresh_delete s s1 chunk blk page)|]. intros [] s2 (Hok2 & Hgr & Hgc & Hpr).
    apply wp_ret. split; [done|]. split; [done|]. split; [done|]. split; [apply stamped_refl|]. left. split; [done|].
    split; [done|]. pose proof (prio_allocated s s1 chunk blk page bi Hok Hal Hb Hg). lia. }
  apply (wp_seq _ _ (fun _ s' => frame_at cfg blk s1 s')).
  { destruct (skipErasedCheck bi); [done|].
    eapply wp_mono; [apply CheckChunkErased_spec; [apply Hok1|done]|].
    intros r s2 Hf. cbv beta in Hf. fold n in Hf. by rewrite Hq in Hf. }
  intros erasedOk s2 Hf2. cbv beta in Hf2.
  pose proof (fresh_frame _ _ _ _ _ _ Hfr Hf2) as Hfr2.
  destruct (negb (skipErasedCheck bi) && negb (erasedOk =? YAFFS_OK)).
  { apply wp_ret. split; [apply Hfr2|]. split; [by eapply fresh_grows|].
    split; [apply Hfr2|]. split; [apply stamped_refl|]. right. split; [done|]. by left. }
  apply (wp_seq _ _ (fun _ s' => fresh s s' chunk blk page)).
  { apply wp_when. destruct (negb _); [|done].
    destruct (frame_lookup _ _ _ _ (proj1 Hf2) Hb) as (bi2 & Hb2 & _).
    eapply wp_set_block_info; [done|exact Hb2|]. by apply (fresh_skip s s2 chunk blk page bi2). }
  intros [] s3 Hfr3. cbv beta in Hfr3.
  destruct (wp_run _ _ _ (nf_write chunk data tags s3)) as ([w tags'] & s4 & Hrun & Hres & Hbl & Hck).
  cbn [fst] in Hres. pose proof (write_stamps chunk data tags s3 _ _ Hrun) as Hst. cbn [snd] in Hst.
  apply wp_bind, (wp_of_run _ _ _ _ _ Hrun).
  assert (Hfr4 : fresh s s4 chunk blk page)
    by (eapply fresh_frame; [exact Hfr3|by apply frame_at_eq]).
  destruct (Z.eqb_spec w YAFFS_OK) as [->|Hne]; cbn [negb].
  - apply wp_bind. apply wp_ret, wp_ret. split; [apply Hfr4|]. split; [by eapply fresh_grows|].
    split; [apply Hfr4|]. split; [done|]. right. split; [done|]. right. right. split; [done|].
    split; [exists s3, tags, tags'; split; [apply stamped_refl|done]|by exists blk, page].
  - eapply wp_seq; [by eapply HandleWriteChunkError_spec|]. intros [] s5 (H1 & H2 & H3).
    apply wp_ret. split; [done|]. split; [done|]. split; [done|]. split; [done|]. right. split; [done|].
    right. left. by destruct Hres.
Qed.
(** A chunk that was free holds [data] now, and nothing was written after it. *)
Definition wrote (data : option (list Z)) (tags : ExtendedTags) (chunk : Z) (s s' : State N) : Prop :=
  exists blk page s1, valid_block cfg blk /\ 0 <= page < n /\ chunk = blk * n + page /\
    chunk_bit cfg (chunkBits (blks s)) (knum cfg blk) page = false /\
    chunk_bit cfg (chunkBits (blks s')) (knum cfg blk) page = true /\
    written data tags chunk s1 /\ nand s' = nand s1.

Lemma wrote_grows data tags chunk s s1 s2 :
  grows (chunkBits (blks s)) (chunkBits (blks s1)) -> wrote data tags chunk s1 s2 -> wrote data tags chunk s s2.
Proof.
  intros Hg (blk & page & s3 & Hv & Hp & Hc & Hf & Hu & Hw & Hn).
  exists blk, page, s3. repeat (split; [done|]). split; [|done].
  destruct (chunk_bit cfg (chunkBits (blks s)) (knum cfg blk) page) eqn:Hb; [|done].
  rewrite Hg in Hf; [done|by apply knum_range|done|done].
Qed.

Lemma write_loop_spec data useReserve fuel attempts tags0 tags s :
  stamped tags0 tags -> 0 < yaffs_wr_attempts cfg -> 0 <= attempts <= yaffs_wr_attempts cfg ->
  blocks_ok cfg 0 0 (blks s) ->
  (yaffs_wr_attempts cfg + 1 - attempts) * ((nBlocks cfg + 1) * n + 1) + prio (blks s) < Z.of_nat fuel ->
  wp (write_loop cfg fuel data useReserve attempts YAFFS_FAIL tags) (fun r s' =>
    blocks_ok cfg 0 0 (blks s') /\ grows (chunkBits (blks s)) (chunkBits (blks s')) /\
    isDoingGC (blks s') = isDoingGC (blks s) /\
    ((fst r = -1 /\ (out_of_space useReserve s' \/ yaffs_wr_attempts cfg < snd r)) \/ wrote data tags0 (fst r) s s')) s.
Proof.
  intros Hst0 Hwr. revert attempts tags s Hst0.
  induction fuel as [|fuel IH]; intros attempts tags s Hst0 Hat Hok Hfuel.
  { pose proof (prio_range (blks s) (ok_tables _ _ _ _ Hok) (ok_alloc _ _ _ _ Hok)).
    destruct Hcfg as [_ He Hn _ _ _]. fold n in Hn. unfold nBlocks in *. nia. }
  cbn [write_loop]. eapply wp_seq; [by apply write_attempt_spec|].
  intros a s1 (Hok1 & Hg1 & Hgc1 & Ha). destruct a as [|chunk writeOk attempts' tags'].
  { apply wp_ret. split; [done|]. split; [done|]. split; [done|]. left. split; [done|by left]. }
  destruct Ha as [Hst' Ha]. assert (Hst1 : stamped tags0 tags') by (by eapply stamped_trans).
  pose proof (prio_range (blks s1) (ok_tables _ _ _ _ Hok1) (ok_alloc _ _ _ _ Hok1)) as Hpr1.
  assert (Hloop : attempts' <= yaffs_wr_attempts cfg -> writeOk = YAFFS_FAIL ->
    0 <= attempts' /\ (yaffs_wr_attempts cfg + 1 - attempts') * ((nBlocks cfg + 1) * n + 1) +
      prio (blks s1) < Z.of_nat fuel ->
    wp (write_loop cfg fuel data useReserve attempts' writeOk tags') (fun r s' =>
      blocks_ok cfg 0 0 (blks s') /\ grows (chunkBits (blks s)) (chunkBits (blks s')) /\
      isDoingGC (blks s') = isDoingGC (blks s) /\
      ((fst r = -1 /\ (out_of_space useReserve s' \/ yaffs_wr_attempts cfg < snd r)) \/ wrote data tags0 (fst r) s s')) s1).
  { intros Hle -> [H0 Hf]. eapply wp_mono; [by apply IH|].
    intros r s2 (Hok2 & Hg2 & Hgc2 & Hr). split; [done|].
    split; [by eapply grows_trans|]. split; [congruence|].
    destruct Hr as [Hr|Hr]; [by left|right; by eapply wrote_grows]. }
  assert (Hstop : yaffs_wr_attempts cfg < attempts' -> writeOk = YAFFS_FAIL -> wp (mret (if ztrue writeOk then chunk else -1, attempts'))
    (fun r s' => blocks_ok cfg 0 0 (blks s') /\ grows (chunkBits (blks s)) (chunkBits (blks s')) /\
      isDoingGC (blks s') = isDoingGC (blks s) /\
      ((fst r = -1 /\ (out_of_space useReserve s' \/ yaffs_wr_attempts cfg < snd r)) \/ wrote data tags0 (fst r) s s')) s1).
  { intros Hlt ->. apply wp_ret. split; [done|]. split; [done|]. split; [done|]. left. split; [done|by right]. }
  assert (Hfail : writeOk = YAFFS_FAIL -> 0 <= attempts' /\
    (attempts' <= yaffs_wr_attempts cfg ->
    (yaffs_wr_attempts cfg + 1 - attempts') * ((nBlocks cfg + 1) * n + 1) + prio (blks s1) < Z.of_nat fuel) ->
    wp (if negb (writeOk =? YAFFS_OK) &&
           ((yaffs_wr_attempts cfg <=? 0) || (attempts' <=? yaffs_wr_attempts cfg))
        then write_loop cfg fuel data useReserve attempts' writeOk tags'
        else mret (if ztrue writeOk then chunk else -1, attempts')) (fun r s' =>
      blocks_ok cfg 0 0 (blks s') /\ grows (chunkBits (blks s)) (chunkBits (blks s')) /\
      isDoingGC (blks s') = isDoingGC (blks s) /\
      ((fst r = -1 /\ (out_of_space useReserve s' \/ yaffs_wr_attempts cfg < snd r)) \/ wrote data tags0 (fst r) s s')) s1).
  { intros -> [H0 Hf]. rewrite (proj2 (Z.leb_gt _ 0)) by done. cbn [orb andb negb Z.eqb YAFFS_FAIL YAFFS_OK].
    destruct (Z.leb_spec attempts' (yaffs_wr_attempts cfg)) as [|Hgt]; [|by apply Hstop].
    apply Hloop; [done|done|]. split; [done|]. by apply Hf. }
  destruct Ha as [(-> & -> & Hpr)|(-> & Hw)].
  - apply Hfail; [done|]. split; [lia|]. intros _. lia.
  - assert (Hstep : 0 <= attempts + 1 /\ (attempts + 1 <= yaffs_wr_attempts cfg ->
      (yaffs_wr_attempts cfg + 1 - (attempts + 1)) * ((nBlocks cfg + 1) * n + 1) + prio (blks s1)
      < Z.of_nat fuel)).
    { split; [lia|]. intros _.
      pose proof (prio_range (blks s) (ok_tables _ _ _ _ Hok) (ok_alloc _ _ _ _ Hok)). nia. }
    destruct Hw as [-> | [-> | (-> & Hwritten & blk & page & Hfr)]]; [by apply Hfail|by apply Hfail|].
    cbn [Z.eqb YAFFS_OK negb andb ztrue]. apply wp_ret. split; [done|]. split; [done|].
    split; [done|]. right. exists blk, page, s1. pose proof Hfr as [_ Hv Hp Hc Hfree _ _ _].
    repeat (split; [done|]). split; [by eapply fresh_used|]. split; [|done].
    destruct Hwritten as (s0 & t & t' & Ht & Hrun). exists s0, t, t'.
    split; [exact (stamped_trans _ _ _ Hst0 Ht)|done].
Qed.

(** The write was tried as often as it may be, and failed each time. *)
Definition gave_up (data : option (list Z)) (tags : ExtendedTags) (useReserve : bool) (s : State N) : Prop :=
  exists s1 attempts s2, yaffs_InvalidateCheckpoint cfg s = Some (tt, s1) /\
    write_loop cfg (write_fuel cfg) data useReserve 0 0 tags s1 = Some ((-1, attempts), s2) /\
    yaffs_wr_attempts cfg < attempts.

Lemma WriteNewChunk_spec data tags useReserve s :
  0 < yaffs_wr_attempts cfg -> blocks_ok cfg 0 0 (blks s) ->
  wp (yaffs_WriteNewChunkWithTagsToNAND cfg data tags useReserve) (fun chunk s' =>
    blocks_ok cfg 0 0 (blks s') /\ grows (chunkBits (blks s)) (chunkBits (blks s')) /\
    isDoingGC (blks s') = isDoingGC (blks s) /\
    ((chunk = -1 /\ (out_of_space useReserve s' \/ gave_up data tags useReserve s)) \/ wrote data tags chunk s s')) s.
Proof.
  intros Hwr Hok. unfold yaffs_WriteNewChunkWithTagsToNAND.
  destruct (wp_run _ _ _ (InvalidateCheckpoint_spec 0 0 s Hok)) as ([] & s1 & Hrun1 & Hok1 & Hf1).
  apply wp_bind, (wp_of_run _ _ _ _ _ Hrun1).
  assert (Hloop : wp (write_loop cfg (write_fuel cfg) data useReserve 0 0 tags) (fun r s' =>
    blocks_ok cfg 0 0 (blks s') /\ grows (chunkBits (blks s1)) (chunkBits (blks s')) /\
    isDoingGC (blks s') = isDoingGC (blks s1) /\
    ((fst r = -1 /\ (out_of_space useReserve s' \/ yaffs_wr_attempts cfg < snd r)) \/ wrote data tags (fst r) s1 s')) s1).
  { apply (write_loop_spec data useReserve (write_fuel cfg) 0 tags tags s1 (stamped_refl tags) Hwr); [lia|done|].
    pose proof (prio_range (blks s1) (ok_tables _ _ _ _ Hok1) (ok_alloc _ _ _ _ Hok1)).
    unfold write_fuel. fold n. destruct Hcfg as [_ He Hn _ _ _]. fold n in Hn. unfold nBlocks in *. nia. }
  destruct (wp_run _ _ _ Hloop) as ([chunk attempts] & s2 & Hrun2 & Hok2 & Hg2 & Hgc2 & Hr).
  cbn [fst snd] in Hr. apply wp_bind, (wp_of_run _ _ _ _ _ Hrun2).
  rewrite (cf_bits _ _ Hf1) in Hg2. rewrite (cf_gc _ _ Hf1) in Hgc2.
  assert (Hr' : (chunk = -1 /\ (out_of_space useReserve s2 \/ gave_up data tags useReserve s)) \/ wrote data tags chunk s s2).
  { destruct Hr as [[-> Hr]|Hr]; [left|right].
    - split; [done|]. destruct Hr as [Hr|Hr]; [by left|right]. by exists s1, attempts, s2.
    - eapply wrote_grows; [|exact Hr]. rewrite (cf_bits _ _ Hf1). apply grows_refl. }
  unfold modS. wp_step. wp_step. destruct (1 <? attempts); wp_steps; done.
Qed.

(** Device [s'] is what a write to a new page left that failed: no page may be handed out, or
    the write was tried as often as it may be. *)
Definition no_page (useReserve : bool) (s' : State N) : Prop := exists s d tags,
  yaffs_WriteNewChunkWithTagsToNAND cfg (Some d) tags useReserve s = Some (-1, s') /\
  (out_of_space useReserve s' \/ gave_up (Some d) tags useReserve s).

Lemma write_failed s s' d tags useReserve : 0 < yaffs_wr_attempts cfg -> blocks_ok cfg 0 0 (blks s) ->
  yaffs_WriteNewChunkWithTagsToNAND cfg (Some d) tags useReserve s = Some (-1, s') -> no_page useReserve s'.
Proof.
  intros Hwr Hok Hrun. exists s, d, tags. split; [done|].
  pose proof (WriteNewChunk_spec (Some d) tags useReserve s Hwr Hok) as Hw.
  unfold wp in Hw. rewrite Hrun in Hw. destruct Hw as (_ & _ & _ & [[_ Hr]|Hw]); [done|].
  destruct Hw as (blk & page & s1 & [Hv _] & Hp & Heq & _). pose proof (c_start _ Hcfg). pose proof (c_npb _ Hcfg). nia.
Qed.
End dirty.

(** ** The properties *)

Lemma sample_valid blk : valid_block sample_cfg blk -> blk = 1 \/ blk = 2 \/ blk = 3 \/ blk = 4.
Proof. unfold valid_block. simpl. lia. Qed.

Lemma sample_ok : blocks_ok sample_cfg 0 0 sample_blocks.
Proof.
  assert (Hinfo : forall blk bi, valid_block sample_cfg blk ->
    blockInfo sample_blocks !! index sample_cfg blk = Some bi -> bi = empty_block).
  { intros blk bi Hv Hb. destruct (sample_valid blk Hv) as [-> | [-> | [-> | ->]]];
      vm_compute in Hb; by injection Hb as <-. }
  constructor; [| | |reflexivity|reflexivity].
  - constructor; [reflexivity|reflexivity|]. repeat constructor; unfold is_byte; lia.
  - intros blk bi Hv Hb. rewrite (Hinfo blk bi Hv Hb).
    assert (Hu : used sample_cfg (chunkBits sample_blocks) (knum sample_cfg blk) = 0).
    { destruct (sample_valid blk Hv) as [-> | [-> | [-> | ->]]]; reflexivity. }
    rewrite Hu. constructor; [reflexivity|unfold soft_of; simpl; lia|reflexivity|reflexivity].
  - constructor.
    + left. reflexivity.
    + intros blk bi Hv Hb. rewrite (Hinfo blk bi Hv Hb). split; [discriminate|].
      intros ->. by apply (minus_one_invalid sample_cfg sample_cfg_ok) in Hv.
    + intros Hv. by apply (minus_one_invalid sample_cfg sample_cfg_ok) in Hv.
    + intros Hv. by apply (minus_one_invalid sample_cfg sample_cfg_ok) in Hv.
Qed.

(** C15. Writing a new chunk is safe and ends: with a limit on the attempts, whatever
    the driver answers, the function returns; the books of the blocks balance
    again; no chunk that was in use is lost; and the chunk returned was free
    before, is in use now and holds the data, its write being the last thing that
    reached the medium.  Otherwise it returns -1. *)
Theorem WriteNewChunk_safe {N : Type} {nd : NandDriver N} (cfg : Config) (data : option (list Z))
    (tags : ExtendedTags) (useReserve : bool) (s : State N)
    (Hcfg : cfg_ok cfg) (nf : NandFrame nd cfg) (Hmark : is_Some drv_markBlockBad)
    (Hwr : 0 < yaffs_wr_attempts cfg) (Hok : blocks_ok cfg 0 0 (blks s)) :
  wp (yaffs_WriteNewChunkWithTagsToNAND cfg data tags useReserve) (fun chunk s' =>
    blocks_ok cfg 0 0 (blks s') /\ grows cfg (chunkBits (blks s)) (chunkBits (blks s')) /\
    (chunk = -1 \/ wrote cfg data tags chunk s s')) s.
Proof.
  eapply wp_mono; [by apply WriteNewChunk_spec|].
  intros chunk s' (H1 & H2 & _ & [[H3 _]|H3]); (split; [done|split; [done|]]); [by left|by right].
Qed.

Lemma WriteNewChunk_safe_witness :
  fst <$> yaffs_WriteNewChunkWithTagsToNAND sample_cfg (Some [7]) yaffs_InitialiseTags false sample_state
    = Some 4 /\
  wp (yaffs_WriteNewChunkWithTagsToNAND sample_cfg (Some [7]) yaffs_InitialiseTags false)
    (fun chunk s' => blocks_ok sample_cfg 0 0 (blks s') /\
      grows sample_cfg (chunkBits (blks sample_state)) (chunkBits (blks s')) /\
      (chunk = -1 \/ wrote sample_cfg (Some [7]) yaffs_InitialiseTags chunk sample_state s')) sample_state.
Proof.
  split; [vm_compute; reflexivity|].
  apply (WriteNewChunk_safe sample_cfg (Some [7]) yaffs_InitialiseTags false sample_state);
    [exact sample_cfg_ok|exact sim_frame|exact sim_can_mark|reflexivity|exact sample_ok].
Defined.

(** C17. Deleting a chunk of a block in use clears its bit and no other, and keeps the
    books, whether the block keeps other pages, is erased (and then empty), or
    could not be erased (and then retired); the other blocks stay as they are,
    except that blocks of a stale checkpoint may be released. *)
Theorem DeleteChunk_frees {N : Type} {nd : NandDriver N} (cfg : Config) (blk page : Z)
    (markNAND : bool) (s : State N) (bi : BlockInfo)
    (Hcfg : cfg_ok cfg) (nf : NandFrame nd cfg) (Hmark : is_Some drv_markBlockBad)
    (Hok : blocks_ok cfg 0 0 (blks s)) (Hv : valid_block cfg blk)
    (Hp : 0 <= page < nChunksPerBlock cfg)
    (Hbi : blockInfo (blks s) !! index cfg blk = Some bi)
    (Hst : in_use_state (blockState bi) = true)
    (Hbit : chunk_bit cfg (chunkBits (blks s)) (knum cfg blk) page = true)
    (Hsoft : soft_of bi < pagesInUse bi) :
  wp (yaffs_DeleteChunk cfg (blk * nChunksPerBlock cfg + page) markNAND) (fun _ s' =>
    blocks_ok cfg 0 0 (blks s') /\
    bit_cleared cfg (chunkBits (blks s)) (chunkBits (blks s')) blk page /\
    block_in cfg s' blk (after_delete bi) /\
    step_at cfg blk s s') s.
Proof.
  eapply wp_mono; [by apply DeleteChunk_spec|]. by intros [] s' (? & ? & ? & ?).
Qed.

(** The sample device after one write: chunk 4 is in use. *)
Definition used_state : State Flash :=
  run_state (yaffs_WriteNewChunkWithTagsToNAND sample_cfg (Some [7]) yaffs_InitialiseTags false)
    sample_state.

Lemma used_state_ok : blocks_ok sample_cfg 0 0 (blks used_state).
Proof.
  apply (run_state_wp _ _ (fun s => blocks_ok sample_cfg 0 0 (blks s)) sample_state
    (WriteNewChunk_spec sample_cfg sample_cfg_ok sim_can_mark (Some [7]) yaffs_InitialiseTags
      false sample_state eq_refl sample_ok)).
  by intros c s [H _].
Qed.

Definition used_block : BlockInfo :=
  empty_block <| blockState := BLOCK_STATE_ALLOCATING |> <| bi_sequenceNumber := 4097 |>
    <| pagesInUse := 1 |>.

Lemma DeleteChunk_frees_witness :
  wp (yaffs_DeleteChunk sample_cfg (1 * nChunksPerBlock sample_cfg + 0) true) (fun _ s' =>
    blocks_ok sample_cfg 0 0 (blks s') /\
    bit_cleared sample_cfg (chunkBits (blks used_state)) (chunkBits (blks s')) 1 0 /\
    block_in sample_cfg s' 1 (after_delete used_block) /\
    step_at sample_cfg 1 used_state s') used_state.
Proof.
  apply (DeleteChunk_frees sample_cfg 1 0 true used_state used_block);
    [exact sample_cfg_ok|exact sim_frame|exact sim_can_mark|exact used_state_ok
    |unfold valid_block; simpl; lia|simpl; lia|vm_compute; reflexivity..].
Defined.

(** C19. As long as the counter of erased blocks is positive, a block to allocate from
    is found: the search goes once round the device and takes over a block that
    was empty, giving it the next sequence number and nothing else a change. *)
Theorem FindBlockForAllocation_finds {N : Type} {nd : NandDriver N} (cfg : Config) (s : State N)
    (Hcfg : cfg_ok cfg) (Hok : blocks_ok cfg 0 0 (blks s)) (He : 1 <= nErasedBlocks (blks s)) :
  wp (yaffs_FindBlockForAllocation cfg) (fun blk s' =>
    valid_block cfg blk /\ block_taken cfg s s' blk) s.
Proof.
  eapply wp_mono; [by apply FindBlockForAllocation_spec|].
  intros r s' [(_ & Hlt & _)|H]; [lia|done].
Qed.

Lemma FindBlockForAllocation_finds_witness :
  wp (yaffs_FindBlockForAllocation sample_cfg) (fun blk s' =>
    valid_block sample_cfg blk /\ block_taken sample_cfg sample_state s' blk) sample_state.
Proof.
  apply (FindBlockForAllocation_finds sample_cfg sample_state);
    [exact sample_cfg_ok|exact sample_ok|simpl; lia].
Defined.



(** While no block is being collected, the running count of free chunks is the one
    a recount of all blocks gives, and the recount changes nothing. *)
Theorem CountFreeChunks_agrees {N : Type} (cfg : Config) (s : State N)
    (Hcfg : cfg_ok cfg) (Hok : blocks_ok cfg 0 0 (blks s))
    (Hgc : Forall (fun bi => blockState bi <> BLOCK_STATE_COLLECTING) (blockInfo (blks s))) :
  yaffs_CountFreeChunks cfg s = Some (nFreeChunks (blks s), s).
Proof.
  set (infos := blockInfo (blks s)).
  assert (Hlen : length (seqZ (internalStartBlock cfg) (nBlocks cfg)) = length infos).
  { rewrite length_seqZ. pose proof (t_infos _ _ (ok_tables _ _ _ _ Hok)). fold infos in H. lia. }
  assert (H : wp (yaffs_CountFreeChunks cfg) (fun r s' => r = nFreeChunks (blks s) /\ s' = s) s).
  { eapply wp_mono; [apply (wp_for_acc (fun d r s' => r = sumZ (free_of cfg) (take (length d) infos) /\ s' = s))|].
    - done.
    - intros d b rest nFree s' Hseq [-> ->].
      assert (Hb : b = internalStartBlock cfg + Z.of_nat (length d) /\ (length d < length infos)%nat).
      { assert (Hn : seqZ (internalStartBlock cfg) (nBlocks cfg) !! length d = Some b).
        { rewrite Hseq, lookup_app_r, Nat.sub_diag by lia. done. }
        apply lookup_seqZ in Hn as [-> Hn]. split; [done|]. rewrite length_seqZ in Hlen. lia. }
      destruct Hb as [-> Hlt]. destruct (lookup_lt_is_Some_2 infos (length d) Hlt) as [bi Hbi].
      apply wp_bind. eapply wp_GetBlockInfo; [lia| |].
      { unfold index. rewrite Z.add_simpl_l, Nat2Z.id. exact Hbi. }
      apply wp_ret. split; [|done]. rewrite length_app, Nat.add_1_r.
      rewrite (take_S_r _ _ _ Hbi), sumZ_app, sumZ_cons, sumZ_nil.
      pose proof (proj1 (Forall_lookup _ _) Hgc _ _ Hbi) as Hnc. cbv beta in Hnc.
      generalize (sumZ (free_of cfg) (take (length d) infos)). intros z. unfold free_of, soft_of.
      destruct (blockState bi); simpl; lia || done.
    - intros r s' [-> ->]. split; [|done]. rewrite Hlen, take_ge by done.
      rewrite (ok_free _ _ _ _ Hok). unfold infos. lia. }
  destruct (wp_run _ _ _ H) as (r & s' & Hr & -> & ->). done.
Qed.

Lemma CountFreeChunks_agrees_witness :
  yaffs_CountFreeChunks sample_cfg used_state = Some (nFreeChunks (blks used_state), used_state).
Proof.
  apply (CountFreeChunks_agrees sample_cfg used_state sample_cfg_ok used_state_ok).
  refine (bool_decide_unpack (Forall _ _) _). vm_compute. exact I.
Defined.
