(* ===== verification/Medium.v ===== *)
(** * What the medium holds

    The interface [NandMedium] says what the pages of the medium hold and what a working
    driver promises of it: reading gives what a page holds and leaves it, writing changes one
    page, erasing and marking one block.  Against it the block layer is shown to keep every
    page in use: checkpoints and dirty blocks are erased, chunks written, written again
    after an error and deleted, and the pages of all other chunks in use still hold what they
    held. *)
From S2P Require Import Prelude Monad Tags Device Nand Sim BlockInv Checkptrw Blocks.

(** Tags that name the same chunk. *)
Definition same_chunk (t t' : ExtendedTags) : Prop :=
  objectId t' = objectId t /\ chunkId t' = chunkId t /\ chunkDeleted t' = chunkDeleted t /\
  (chunkId t <> 0 -> byteCount t' = byteCount t).

#[export] Instance same_chunk_refl : Reflexive same_chunk.
Proof. by repeat split. Qed.
#[export] Instance same_chunk_trans : Transitive same_chunk.
Proof.
  intros a b c (A1 & A2 & A3 & A4) (B1 & B2 & B3 & B4). repeat split; try congruence.
  intros H. rewrite B4, A4; [done|done|congruence].
Qed.

Lemma stamped_chunk tags t : stamped tags t -> same_chunk tags t.
Proof. intros (q & u & ->). by repeat split. Qed.

(** The tags that every format of the spare area has room for (18 bits of object number and
    20 of chunk number are those of YAFFS1). *)
Definition fits (cfg : Config) (t : ExtendedTags) : Prop :=
  0 <= objectId t < 2 ^ 18 /\ 0 <= chunkId t < 2 ^ 20 /\
  (chunkId t <> 0 -> 0 <= byteCount t <= nDataBytesPerChunk cfg) /\ chunkDeleted t = 0.

Lemma fits_same_chunk cfg t t' : same_chunk t t' -> fits cfg t -> fits cfg t'.
Proof.
  intros (H1 & H2 & H3 & H4) (F1 & F2 & F3 & F4). unfold fits. rewrite H1, H2, H3.
  split; [done|]. split; [done|]. split; [|done]. intros Hne. rewrite H4 by done. by apply F3.
Qed.

Lemma fits_stamped cfg tags t : stamped tags t -> fits cfg tags -> fits cfg t.
Proof. intros (q & u & ->) H. exact H. Qed.

(** The medium: what page [c] holds, the data and the tags. *)
Class NandMedium {N} (nd : NandDriver N) (cfg : Config) := {
  content : N -> Z -> option (list Z * ExtendedTags);
  nm_read : forall chunk buffer tags (s : State N),
    pc (yaffs_ReadChunkWithTagsFromNAND cfg chunk buffer tags) (fun r s' =>
      (forall c, content (nand s') c = content (nand s) c) /\
      forall d t, buffer_ok cfg buffer -> content (nand s) chunk = Some (d, t) ->
        fst (fst r) = YAFFS_OK /\ snd (fst r) = (fun _ => d) <$> buffer /\
        same_chunk t (snd r)) s;
  nm_write : forall chunk buffer tags (s : State N),
    pc (yaffs_WriteChunkWithTagsToNAND cfg chunk buffer tags) (fun r s' =>
      (forall c, c <> chunk -> content (nand s') c = content (nand s) c) /\
      forall d, buffer = Some d -> Z.of_nat (length d) = nDataBytesPerChunk cfg ->
        fits cfg tags -> fst r = YAFFS_OK ->
        exists t, content (nand s') chunk = Some (d, t) /\ same_chunk tags t) s;
  nm_erase : forall blk n c, valid_chunk cfg c ->
    Z.quot c (nChunksPerBlock cfg) <> blk ->
    content (snd (drv_eraseBlock (blk - blockOffset cfg) n)) c = content n c;
  nm_mark : forall mark blk n c, drv_markBlockBad = Some mark -> valid_chunk cfg c ->
    Z.quot c (nChunksPerBlock cfg) <> blk + blockOffset cfg ->
    content (snd (mark blk n)) c = content n c
}.

(** A block of the checkpoint that cannot be erased is marked without the block offset: then
    another block is hit.  It does not happen where there is no offset or erasing never fails. *)
Definition marks_aligned {N} (nd : NandDriver N) (cfg : Config) : Prop :=
  blockOffset cfg = 0 \/ forall blk n, ztrue (fst (drv_eraseBlock (NandDriver := nd) blk n)) = true.

Section medium.
Context {N : Type} {nd : NandDriver N} (cfg : Config) (Hcfg : cfg_ok cfg).
Context {nf : NandFrame nd cfg} {nm : NandMedium nd cfg}.
Context (Haware : is_Some drv_markBlockBad) (Halign : marks_aligned nd cfg).
Implicit Types (s : State N).
Let n := nChunksPerBlock cfg.

(** Chunk [c] is in use, by the bitmap. *)
Definition in_use (s : State N) (c : Z) : Prop :=
  chunk_bit cfg (chunkBits (blks s)) (knum cfg (Z.quot c n)) (Z.rem c n) = true.

(** No block counts more soft deletions than before. *)
Definition soft_le (s s' : State N) : Prop := forall blk bi', valid_block cfg blk ->
  blockInfo (blks s') !! index cfg blk = Some bi' ->
  exists bi, blockInfo (blks s) !! index cfg blk = Some bi /\ soft_of bi' <= Z.max 0 (soft_of bi).

Lemma soft_le_trans s1 s2 s3 : soft_le s1 s2 -> soft_le s2 s3 -> soft_le s1 s3.
Proof.
  intros H1 H2 blk b3 Hv Hb3. destruct (H2 blk b3 Hv Hb3) as (b2 & Hb2 & L2).
  destruct (H1 blk b2 Hv Hb2) as (b1 & Hb1 & L1). exists b1. split; [done|lia].
Qed.

Lemma soft_le_same s s' : blockInfo (blks s') = blockInfo (blks s) -> soft_le s s'.
Proof. intros Hi blk bi Hv Hb. rewrite Hi in Hb. exists bi. split; [done|lia]. Qed.

Lemma soft_le_info blk bi bi' s s' :
  blockInfo (blks s) !! index cfg blk = Some bi -> valid_block cfg blk ->
  blockInfo (blks s') = <[index cfg blk := bi']> (blockInfo (blks s)) ->
  soft_of bi' <= Z.max 0 (soft_of bi) -> soft_le s s'.
Proof.
  intros Hb Hv Hi Hle b x Hvb Hx. rewrite Hi in Hx.
  apply (lookup_insert_block cfg _ _ bi) in Hx as [[-> ->]|[_ Hx]]; [by exists bi|exists x|done..].
  split; [done|lia].
Qed.

Lemma soft_le_frame s s' : frame s s' -> soft_le s s'.
Proof.
  intros Hf blk bi' Hv Hi. eapply Forall2_lookup_r in Hi as (bi & Hi & Hbs); [|apply Hf].
  destruct Hbs as [Hs _ Hst _ _ _]. exists bi. split; [done|]. unfold soft_of. rewrite Hst, Hs. lia.
Qed.

(** Every chunk in use but [ex] stays so and holds what it held, and no block gets more soft
    deletions. *)
Record kept_but (ex : Z) (s s' : State N) : Prop := {
  kb_chunks : forall c, valid_chunk cfg c -> c <> ex -> in_use s c ->
    in_use s' c /\ content (nand s') c = content (nand s) c;
  kb_soft : soft_le s s'
}.
Definition kept : State N -> State N -> Prop := kept_but (-1).

Lemma kept_but_refl ex s : kept_but ex s s.
Proof. split; [by intros c|by apply soft_le_same]. Qed.

Lemma kept_but_trans ex s1 s2 s3 : kept_but ex s1 s2 -> kept_but ex s2 s3 -> kept_but ex s1 s3.
Proof.
  intros [H1 L1] [H2 L2]. split; [|by eapply soft_le_trans].
  intros c Hc He Hu. destruct (H1 c Hc He Hu) as [Hu2 Hc2].
  destruct (H2 c Hc He Hu2) as [Hu3 Hc3]. split; [done|congruence].
Qed.

Lemma kept_any ex s s' : kept s s' -> kept_but ex s s'.
Proof.
  intros [H L]. split; [|done]. intros c Hc _. apply H; [done|]. intros ->. destruct Hc as [Hc _].
  destruct Hcfg as [Hs _ Hn _ _ _]. nia.
Qed.

Lemma kept_content ex s s' :
  chunkBits (blks s') = chunkBits (blks s) -> soft_le s s' ->
  (forall c, valid_chunk cfg c -> c <> ex -> in_use s c -> content (nand s') c = content (nand s) c) ->
  kept_but ex s s'.
Proof.
  intros Hb Hl Hn. split; [|done]. intros c Hc He Hu. split; [|by apply Hn].
  unfold in_use. by rewrite Hb.
Qed.

Lemma kept_same ex s s' :
  chunkBits (blks s') = chunkBits (blks s) -> nand s' = nand s -> soft_le s s' -> kept_but ex s s'.
Proof. intros Hb Hn Hl. apply kept_content; [done|done|]. intros c _ _ _. by rewrite Hn. Qed.

(** The place of a chunk. *)
Lemma chunk_place c :
  valid_chunk cfg c -> valid_block cfg (Z.quot c n) /\ 0 <= Z.rem c n < n /\
    c = Z.quot c n * n + Z.rem c n.
Proof.
  intros Hc. destruct (valid_chunk_block cfg c Hcfg Hc) as (Hv & Hq & Hr). fold n in Hv, Hq, Hr.
  destruct Hcfg as [_ _ Hn _ _ _]. fold n in Hn. split; [done|].
  pose proof (Z.mod_pos_bound c n ltac:(lia)). pose proof (Z.div_mod c n ltac:(lia)).
  rewrite Hq, Hr. lia.
Qed.

(** ** States in which no block with pages in use can be taken for a blank one *)

Record calm (s : State N) : Prop := {
  cm_tables : tables_ok cfg (blks s);
  cm_pages : forall blk bi, valid_block cfg blk -> blockInfo (blks s) !! index cfg blk = Some bi ->
    pagesInUse bi = used cfg (chunkBits (blks s)) (knum cfg blk);
  cm_blank : forall blk bi, valid_block cfg blk -> blockInfo (blks s) !! index cfg blk = Some bi ->
    blockState bi = BLOCK_STATE_CHECKPOINT -> pagesInUse bi = 0
}.

Lemma calm_ok pe pf s : blocks_ok cfg pe pf (blks s) -> calm s.
Proof.
  intros [Ht Hb _ _ _]. split; [done|..]; intros blk bi Hv Hi; destruct (Hb blk bi Hv Hi); auto.
Qed.

Lemma calm_same s s' :
  blockInfo (blks s') = blockInfo (blks s) -> chunkBits (blks s') = chunkBits (blks s) ->
  calm s -> calm s'.
Proof. intros Hi Hb [[T1 T2 T3] C1 C2]. by constructor; [constructor|..]; rewrite ?Hi, ?Hb. Qed.

Lemma calm_frame s s' : frame s s' -> calm s -> calm s'.
Proof.
  intros Hf [Ht C1 C2]. split; [by eapply frame_tables|..]; intros blk bi' Hv Hi;
    eapply Forall2_lookup_r in Hi as (bi & Hi & Hs); try apply Hf; rewrite (bs_pages _ _ Hs).
  - rewrite (fr_bits _ _ Hf). by apply C1.
  - rewrite (bs_state _ _ Hs). by eapply C2.
Qed.

Lemma calm_info blk bi f s :
  calm s -> valid_block cfg blk -> blockInfo (blks s) !! index cfg blk = Some bi ->
  pagesInUse (f bi) = pagesInUse bi ->
  (blockState (f bi) = BLOCK_STATE_CHECKPOINT -> pagesInUse bi = 0) ->
  calm (with_infos (<[index cfg blk := f bi]> (blockInfo (blks s))) s).
Proof.
  intros [[T1 T2 T3] C1 C2] Hv Hb Hp Hc. unfold with_infos. split; simp_fields.
  - split; simp_fields; [by rewrite length_insert|done..].
  - intros blk' x Hv' Hx. apply (lookup_insert_block cfg _ _ bi) in Hx as [[-> ->]|[_ Hx]]; auto.
    rewrite Hp. auto.
  - intros blk' x Hv' Hx. apply (lookup_insert_block cfg _ _ bi) in Hx as [[-> ->]|[_ Hx]]; auto.
    + rewrite Hp. auto.
    + eauto.
Qed.

(** ** Primitive steps *)

Lemma pc_GetBlockInfo blk (Q : BlockInfo -> State N -> Prop) s :
  (forall bi, internalStartBlock cfg <= blk ->
    blockInfo (blks s) !! index cfg blk = Some bi -> Q bi s) ->
  pc (yaffs_GetBlockInfo cfg blk) Q s.
Proof.
  intros H. unfold yaffs_GetBlockInfo, getB. pc_steps. apply pc_of_option. intros bi Hb.
  unfold lookupZ in Hb. destruct (Z.leb_spec 0 (blk - internalStartBlock cfg)); [|done].
  apply H; [lia|done].
Qed.

Lemma pc_set_block_info blk f (Q : unit -> State N -> Prop) s :
  (forall bi, internalStartBlock cfg <= blk -> blockInfo (blks s) !! index cfg blk = Some bi ->
    Q tt (with_infos (<[index cfg blk := f bi]> (blockInfo (blks s))) s)) ->
  pc (set_block_info cfg blk f) Q s.
Proof.
  intros H. unfold set_block_info. apply pc_bind, pc_GetBlockInfo. intros bi Hlo Hb.
  apply pc_wp. apply lookup_lt_Some in Hb as Hl. unfold getB, modB. wp_steps.
  eapply wp_of_option; [apply updateZ_Some; unfold index in Hl; lia|]. wp_steps. by apply H.
Qed.

Lemma pc_on_nand {A} (f : N -> A * N) (Q : A -> State N -> Prop) s :
  Q (fst (f (nand s))) (s <| nand := snd (f (nand s)) |>) -> pc (on_nand f) Q s.
Proof. intros H. by apply pc_wp, wp_on_nand. Qed.

(** A step that keeps the bitmap, and the content of the chunks in use but [ex]. *)
Definition safe (ex : Z) (s s' : State N) : Prop :=
  calm s' /\ chunkBits (blks s') = chunkBits (blks s) /\ kept_but ex s s'.

Lemma safe_refl ex s : calm s -> safe ex s s.
Proof. intros H. split; [done|split; [done|apply kept_but_refl]]. Qed.
Lemma safe_trans ex s1 s2 s3 : safe ex s1 s2 -> safe ex s2 s3 -> safe ex s1 s3.
Proof. 
  intros (_ & B1 & H1) (H2 & B2 & H3). split; [done|].
  split; [congruence|by eapply kept_but_trans].
Qed.
Lemma safe_any ex s s' : safe (-1) s s' -> safe ex s s'.
Proof. intros (H1 & H2 & H3). split; [done|]. split; [done|by apply kept_any]. Qed.

Lemma safe_same ex s s' :
  blockInfo (blks s') = blockInfo (blks s) -> chunkBits (blks s') = chunkBits (blks s) ->
  nand s' = nand s -> calm s -> safe ex s s'.
Proof. intros Hi Hb Hn Hc. split; [by eapply calm_same|].
  split; [done|apply kept_same; [done..|by apply soft_le_same]].
Qed.

Lemma safe_info ex blk bi f s :
  calm s -> valid_block cfg blk -> blockInfo (blks s) !! index cfg blk = Some bi ->
  pagesInUse (f bi) = pagesInUse bi ->
  (blockState (f bi) = BLOCK_STATE_CHECKPOINT -> pagesInUse bi = 0) ->
  soft_of (f bi) <= Z.max 0 (soft_of bi) ->
  safe ex s (with_infos (<[index cfg blk := f bi]> (blockInfo (blks s))) s).
Proof.
  intros Hc Hv Hb Hp Hs Hl. split; [by apply calm_info|].
  split; [done|apply kept_same; [done..|by apply (soft_le_info blk bi (f bi))]].
Qed.

(** The same when other fields change with the information. *)
Lemma safe_set ex blk bi f s s' :
  calm s -> valid_block cfg blk -> blockInfo (blks s) !! index cfg blk = Some bi ->
  blockInfo (blks s') = <[index cfg blk := f bi]> (blockInfo (blks s)) ->
  chunkBits (blks s') = chunkBits (blks s) -> nand s' = nand s ->
  pagesInUse (f bi) = pagesInUse bi ->
  (blockState (f bi) = BLOCK_STATE_CHECKPOINT -> pagesInUse bi = 0) ->
  soft_of (f bi) <= Z.max 0 (soft_of bi) -> safe ex s s'.
Proof.
  intros Hc Hv Hb Hi Hbits Hn Hp Hs Hl. eapply safe_trans; [by eapply (safe_info ex blk bi f)|].
  apply safe_same; [done..|]. by apply calm_info.
Qed.

(** Erasing or marking a block in which no page is in use. *)
Lemma safe_erase ex blk s n' :
  calm s -> valid_block cfg blk -> used cfg (chunkBits (blks s)) (knum cfg blk) = 0 ->
  (forall c, valid_chunk cfg c -> Z.quot c n <> blk -> content n' c = content (nand s) c) ->
  safe ex s (s <| nand := n' |>).
Proof.
  intros Hc Hv Hu Hn. split; [by apply (calm_same s)|]. split; [done|]. apply kept_content; [done|by apply soft_le_same|].
  intros c Hvc _ Huse. simp_fields. apply Hn; [done|]. intros Hq. unfold in_use in Huse.
  destruct (chunk_place c Hvc) as (_ & Hr & _). rewrite Hq in Huse.
  by rewrite (used_zero_inv cfg _ _ _ Hu Hr) in Huse.
Qed.

Lemma safe_read chunk buffer tags s :
  calm s -> valid_chunk cfg chunk -> buffer_ok cfg buffer ->
  pc (yaffs_ReadChunkWithTagsFromNAND cfg chunk buffer tags) (fun _ s' => safe (-1) s s') s.
Proof.
  intros Hc Hv Hb. eapply pc_mono; [apply pc_and; [|apply (nm_read chunk buffer tags s)]|].
  { apply pc_wp, nf_read; [apply Hc|done|done]. }
  intros r s' [[[Hf _] _] [Hn _]]. split; [by eapply calm_frame|].
  split; [apply Hf|]. apply kept_content; [apply Hf|by apply soft_le_frame|]. intros c _ _ _. apply Hn.
Qed.

Lemma safe_write chunk buffer tags s :
  calm s -> pc (yaffs_WriteChunkWithTagsToNAND cfg chunk buffer tags) (fun _ s' => safe chunk s s') s.
Proof.
  intros Hc. eapply pc_mono; [apply pc_and; [|apply (nm_write chunk buffer tags s)]|].
  { apply pc_wp, nf_write. }
  intros r s' [(_ & Hb & _) [Hn _]]. split; [eapply calm_same; [..|exact Hc]; by rewrite Hb|].
  split; [by rewrite Hb|].
  apply kept_content; [by rewrite Hb|apply soft_le_same; by rewrite Hb|]. intros c _ Hne _. by apply Hn.
Qed.

(** ** The checkpoint *)

Lemma checkpoint_erase_block_safe i s :
  calm s -> valid_block cfg i -> pc (checkpoint_erase_block cfg i) (fun _ s' => safe (-1) s s') s.
Proof.
  intros Hc Hv. unfold checkpoint_erase_block, modB. apply pc_bind, pc_GetBlockInfo. intros bi _ Hb.
  apply pc_when. destruct (is_state _ _) eqn:Hs; [|by apply safe_refl].
  apply bool_decide_eq_true in Hs. pose proof (cm_blank s Hc i bi Hv Hb Hs) as Hp.
  pose proof (cm_pages s Hc i bi Hv Hb) as Hu. rewrite Hp in Hu.
  apply pc_bind, pc_on_nand. set (e := drv_eraseBlock _ _).
  assert (H1 : safe (-1) s (s <| nand := snd e |>)).
  { eapply safe_erase; [done|done|done|]. intros c Hvc Hq. by apply nm_erase. }
  destruct (ztrue (fst e)) eqn:He.
  - apply pc_bind, pc_set_block_info. intros bi' _ Hb'. simp_fields_in Hb'. rewrite Hb in Hb'. injection Hb' as <-.
    pc_steps. eapply safe_trans; [exact H1|].
    apply (safe_set (-1) i bi (fun bi => bi <| blockState := BLOCK_STATE_EMPTY |>));
      [apply H1|done|exact Hb|done..|unfold soft_of; simp_fields; rewrite Hs; lia].
  - apply pc_bind, pc_of_option. intros mark Hm. apply pc_bind, pc_on_nand. simp_fields.
    assert (Hoff : blockOffset cfg = 0).
    { destruct Halign as [H|H]; [done|]. unfold e in He. by rewrite H in He. }
    apply pc_set_block_info. intros bi' _ Hb'. simp_fields_in Hb'. rewrite Hb in Hb'. injection Hb' as <-.
    eapply safe_trans; [exact H1|]. set (s1 := s <| nand := snd e |>) in *.
    assert (H2 : safe (-1) s1 (s1 <| nand := snd (mark i (snd e)) |>)).
    { eapply safe_erase; [apply H1|exact Hv|done|]. intros c Hvc Hq. unfold s1. simp_fields.
      apply nm_mark; [done|done|]. by rewrite Hoff, Z.add_0_r. }
    eapply safe_trans; [exact H2|].
    apply (safe_info (-1) i bi (fun bi => bi <| blockState := BLOCK_STATE_DEAD |>));
      [apply H2|done|exact Hb|done..|apply Z.le_max_l].
Qed.

Lemma CheckpointErase_safe s :
  calm s -> pc (yaffs_CheckpointErase cfg) (fun _ s' => safe (-1) s s') s.
Proof.
  intros Hc. unfold yaffs_CheckpointErase, modC.
  eapply pc_seq; [apply (pc_for_each (fun s' => safe (-1) s s')); [by apply safe_refl|]|].
  - intros i s' Hi%elem_of_seqZ Hs'. eapply pc_mono.
    { apply checkpoint_erase_block_safe; [apply Hs'|unfold valid_block, nBlocks in *; lia]. }
    intros [] s'' Hs''. by eapply safe_trans.
  - intros [] s' Hs'. pc_steps. eapply safe_trans; [exact Hs'|]. apply safe_same; [done..|apply Hs'].
Qed.

Lemma InvalidateCheckpoint_safe s :
  calm s -> pc (yaffs_InvalidateCheckpoint cfg) (fun _ s' => safe (-1) s s') s.
Proof.
  intros Hc. unfold yaffs_InvalidateCheckpoint, getC, modC. do 5 pc_step.
  destruct (_ || _); [|by apply safe_refl]. apply pc_bind, pc_modify.
  set (s1 := s <| ckpt ::= _ |>). assert (Hc1 : safe (-1) s s1) by (by apply safe_same).
  apply (pc_seq _ _ (fun _ s' => safe (-1) s s')).
  - unfold yaffs_CheckpointInvalidateStream, yaffs_CheckpointSpaceOk, getB. do 2 pc_step. pc_step.
    pc_step. apply pc_if. destruct (negb _); [by apply pc_ret|].
    eapply pc_mono; [apply CheckpointErase_safe, Hc1|]. intros r s' Hs'. by eapply safe_trans.
  - intros r s' Hs'. apply pc_when. destruct (hasSuperBlock cfg); [|done]. apply pc_modify.
    eapply safe_trans; [exact Hs'|]. apply safe_same; [done..|apply Hs'].
Qed.

(** ** Dirty blocks *)

Lemma RetireBlock_safe blk s :
  calm s -> valid_block cfg blk -> used cfg (chunkBits (blks s)) (knum cfg blk) = 0 ->
  pc (yaffs_RetireBlock cfg blk) (fun _ s' => safe (-1) s s') s.
Proof.
  intros Hc Hv Hu. unfold yaffs_RetireBlock, modS. apply pc_bind, pc_GetBlockInfo. intros _ _ _.
  eapply pc_seq; [by apply InvalidateCheckpoint_safe|]. intros [] s1 H1.
  apply (pc_seq _ _ (fun _ s' => safe (-1) s s')).
  - destruct Haware as [mark Hm]. unfold yaffs_MarkBlockBad. rewrite Hm. apply pc_on_nand.
    eapply safe_trans; [exact H1|]. destruct H1 as (Hc1 & Hb1 & _).
    eapply safe_erase; [done|exact Hv|by rewrite Hb1|]. intros c Hvc Hq.
    apply nm_mark; [done|done|]. by rewrite Z.sub_add.
  - intros r s2 H2. apply pc_bind, pc_set_block_info. intros bi _ Hb. pc_steps.
    eapply safe_trans; [exact H2|]. eapply (safe_set (-1) blk bi (fun bi => bi
      <| blockState := BLOCK_STATE_DEAD |> <| gcPrioritise := false |> <| needsRetiring := false |>));
      [apply H2|exact Hv|exact Hb|done..|apply Z.le_max_l].
Qed.

Lemma CheckChunkErased_safe chunk s :
  calm s -> valid_chunk cfg chunk ->
  pc (yaffs_CheckChunkErased cfg chunk) (fun _ s' => safe (-1) s s') s.
Proof.
  intros Hc Hv. unfold yaffs_CheckChunkErased.
  eapply pc_seq; [apply safe_read; [done|done|by apply temp_buffer_ok]|].
  intros [[r d] t] s1 H1. apply pc_bind, pc_of_option. intros d' _.
  apply pc_bind, pc_of_option. intros ff _. by apply pc_ret.
Qed.

(** Clearing the bits of a block that has none set. *)
Lemma clear_bits_safe blk s :
  calm s -> valid_block cfg blk -> used cfg (chunkBits (blks s)) (knum cfg blk) = 0 ->
  pc (yaffs_ClearChunkBits cfg blk) (fun _ s' => calm s' /\ kept s s') s.
Proof.
  intros Hc Hv Hu. apply pc_wp, (wp_ClearChunkBits cfg Hcfg); [apply Hc|done|].
  intros bits' Hl Hy Hbits.
  assert (Heq : forall k c, 0 <= k < nBlocks cfg -> 0 <= c < n ->
    chunk_bit cfg bits' k c = chunk_bit cfg (chunkBits (blks s)) k c).
  { intros k c Hk Hcn. rewrite Hbits by done. destruct (Z.eqb_spec k (knum cfg blk)) as [->|]; [|done].
    symmetry. by apply used_zero_inv. }
  unfold with_bits. split.
  - destruct Hc as [[T1 T2 T3] C1 C2]. split; simp_fields; [split; simp_fields; congruence| |done].
    intros b bi Hvb Hb. rewrite (C1 b bi Hvb Hb). symmetry. apply used_ext. intros c Hcn.
    apply Heq; [by apply knum_range|done].
  - split; [|by apply soft_le_same]. intros c Hvc _ Huse. split; [|done].
    destruct (chunk_place c Hvc) as (Hvb & Hr & _).
    unfold in_use. simp_fields. rewrite Heq; [done|by apply knum_range|done].
Qed.

Lemma BlockBecameDirty_safe blk s :
  calm s -> valid_block cfg blk -> used cfg (chunkBits (blks s)) (knum cfg blk) = 0 ->
  pc (yaffs_BlockBecameDirty cfg blk) (fun _ s' => calm s' /\ kept s s') s.
Proof.
  intros Hc Hv Hu. unfold yaffs_BlockBecameDirty. apply pc_bind, pc_GetBlockInfo. intros bi _ Hb.
  apply pc_bind, pc_set_block_info. intros bi' _ Hb'. rewrite Hb in Hb'. injection Hb' as <-.
  set (s1 := with_infos _ s).
  assert (H1 : safe (-1) s s1) by by (apply (safe_info (-1) blk bi); [done..|apply Z.le_max_l]).
  apply (pc_seq _ _ (fun _ s' => safe (-1) s s')).
  { destruct (needsRetiring bi); [by apply pc_ret|].
    eapply pc_seq; [apply InvalidateCheckpoint_safe, H1|]. intros [] s2 H2.
    unfold yaffs_EraseBlockInNAND, modS. apply pc_bind, pc_bind, pc_modify, pc_on_nand.
    set (s3 := s2 <| stats ::= _ |>). assert (H3 : safe (-1) s s3).
    { eapply safe_trans; [exact H1|]. eapply safe_trans; [exact H2|]. by apply safe_same; [..|apply H2]. }
    simp_fields. set (s4 := s3 <| nand := _ |>). assert (H4 : safe (-1) s s4).
    { eapply safe_trans; [exact H3|]. destruct H3 as (Hc3 & Hb3 & _).
      eapply safe_erase; [done|exact Hv|by rewrite Hb3|]. intros c Hvc Hq. by apply nm_erase. }
    pc_steps. destruct (negb _); pc_steps; [|done].
    eapply safe_trans; [exact H4|]. by apply safe_same; [..|apply H4]. }
  intros erasedOk s2 H2. apply (pc_seq _ _ (fun _ s' => safe (-1) s s')).
  { apply pc_when. destruct (_ && _); [|done]. apply (pc_for_each (fun s' => safe (-1) s s')); [done|].
    intros i s3 Hi%elem_of_seqZ H3. eapply pc_seq; [apply CheckChunkErased_safe; [apply H3|]|].
    { apply (block_chunk cfg Hcfg blk i); [done|lia]. }
    intros r s4 H4. apply pc_ret. by eapply safe_trans. }
  intros [] s3 H3. pose proof H3 as (Hc3 & Hb3 & Hk3). apply pc_if. destruct (ztrue erasedOk).
  - apply pc_bind, pc_set_block_info. intros b3 _ Hi3. unfold modB. apply pc_bind, pc_modify.
    set (s4 := _ <| blks ::= _ |>).
    assert (Hp3 : pagesInUse b3 = 0) by (by rewrite (cm_pages s3 Hc3 blk b3 Hv Hi3), Hb3).
    apply pc_bind, pc_set_block_info. intros b4 _ Hi4.
    assert (Hb4 : b4 = b3 <| blockState := BLOCK_STATE_EMPTY |>).
    { unfold s4, with_infos in Hi4. simp_fields_in Hi4.
      rewrite list_lookup_insert_eq in Hi4 by (by eapply lookup_lt_Some). by injection Hi4. }
    set (s5 := with_infos _ s4). assert (H5 : safe (-1) s3 s5).
    { apply (safe_set (-1) blk b3 (fun bi => bi <| blockState := BLOCK_STATE_EMPTY |> <| pagesInUse := 0 |>
        <| softDeletions := 0 |> <| hasShrinkHeader := false |> <| skipErasedCheck := true |>
        <| gcPrioritise := false |>)); try done; [|apply Z.le_max_l].
      unfold s5, s4, with_infos. simp_fields. by rewrite list_insert_insert_eq, Hb4. }
    eapply pc_mono; [apply (clear_bits_safe blk s5); [apply H5|done|]|].
    + by rewrite (proj1 (proj2 H5)), Hb3.
    + intros [] s6 [Hc6 Hk6]. split; [done|]. eapply kept_but_trans; [exact Hk3|].
      eapply kept_but_trans; [apply H5|done].
  - unfold modB. apply pc_bind, pc_modify. set (s4 := s3 <| blks ::= _ |>).
    assert (H4 : safe (-1) s3 s4) by (by apply safe_same).
    eapply pc_mono; [apply (RetireBlock_safe blk s4); [apply H4|done|]|].
    + by rewrite (proj1 (proj2 H4)), Hb3.
    + intros [] s5 H5. split; [apply H5|]. eapply kept_but_trans; [exact Hk3|].
      eapply kept_but_trans; [apply H4|apply H5].
Qed.

(** Taking a chunk out of the bitmap and out of the count of its block. *)
Lemma clear_bit_calm blk c s s3 b4 bits' :
  calm s3 -> chunkBits (blks s3) = chunkBits (blks s) -> kept_but (blk * n + c) s s3 ->
  valid_block cfg blk -> 0 <= c < n -> blockInfo (blks s3) !! index cfg blk = Some b4 ->
  chunk_bit cfg (chunkBits (blks s)) (knum cfg blk) c = true ->
  bit_changed cfg (chunkBits (blks s3)) bits' blk c false ->
  let s5 := with_infos (<[index cfg blk := b4 <| pagesInUse ::= fun p => swrap 10 (p - 1) |>]>
    (blockInfo (blks s3))) (with_bits bits' s3) in
  calm s5 /\ kept_but (blk * n + c) s s5.
Proof.
  intros Hc3 Hb3 Hk3 Hv Hcn Hi4 Hbit Hch s5.
  pose proof (bit_changed_other cfg _ _ _ _ _ Hch) as (Hl & Hby & Hother).
  destruct Hch as (_ & _ & Hch). pose proof (cm_pages s3 Hc3 blk b4 Hv Hi4) as Hp4.
  assert (Hu : used cfg bits' (knum cfg blk) = pagesInUse b4 - 1).
  { rewrite Hp4, (used_update cfg (chunkBits (blks s3)) bits' (knum cfg blk) c false).
    - rewrite Hb3, Hbit. simpl. lia.
    - done.
    - intros c' Hc'. rewrite Hch by (done || by apply knum_range). unfold bit_at. by rewrite Z.eqb_refl. }
  assert (Hp : swrap 10 (pagesInUse b4 - 1) = pagesInUse b4 - 1).
  { pose proof (used_range cfg Hcfg bits' (knum cfg blk)) as Hur. fold n in Hur. apply swrap_small; [|lia].
    destruct Hcfg as [_ _ Hn _ _ _]. fold n in Hn. change (2 ^ (10 - 1)) with 512. lia. }
  split.
  - destruct Hc3 as [[T1 T2 T3] C1 C2]. unfold s5, with_infos, with_bits. split; simp_fields.
    + split; simp_fields; [by rewrite length_insert|by rewrite Hl|done].
    + intros b x Hvb Hx. apply (lookup_insert_block cfg _ _ b4) in Hx as [[-> ->]|[Hne Hx]]; [..|done|done|done].
      * simp_fields. by rewrite Hp, Hu.
      * rewrite (C1 b x Hvb Hx). symmetry. apply used_ext. intros c' Hc'.
        apply Hother; [by apply knum_range|done|]. unfold knum. lia.
    + intros b x Hvb Hx. apply (lookup_insert_block cfg _ _ b4) in Hx as [[-> ->]|[Hne Hx]]; [..|done|done|done].
      * simp_fields. intros Hs. rewrite Hp, <- Hu. pose proof (C2 blk b4 Hv Hi4 Hs) as H0.
        rewrite Hp4 in H0. by rewrite <- Hb3, (used_zero_inv cfg _ _ c H0) in Hbit.
      * by apply (C2 b).
  - eapply kept_but_trans; [exact Hk3|]. split;
      [|by apply (soft_le_info blk b4 _ s3 s5 Hi4 Hv eq_refl), (Z.le_max_r 0 (soft_of b4))].
    intros c' Hvc Hne Huse. split; [|done].
    destruct (chunk_place c' Hvc) as (Hvb & Hr & Hc'). unfold in_use, s5, with_infos, with_bits. simp_fields.
    rewrite Hch by (done || by apply knum_range). unfold bit_at.
    destruct (Z.eqb_spec (knum cfg (Z.quot c' n)) (knum cfg blk)) as [Hk|]; [|done].
    destruct (Z.eqb_spec (Z.rem c' n) c) as [Hcc|]; [|done]. exfalso. apply Hne.
    assert (Z.quot c' n = blk) by (unfold knum in Hk; lia). lia.
Qed.

(** Deleting a chunk is felt by no other. *)
Lemma DeleteChunk_safe blk c markNAND s bi :
  calm s -> valid_block cfg blk -> 0 <= c < n ->
  blockInfo (blks s) !! index cfg blk = Some bi ->
  chunk_bit cfg (chunkBits (blks s)) (knum cfg blk) c = true ->
  pc (yaffs_DeleteChunk cfg (blk * n + c) markNAND) (fun _ s' =>
    calm s' /\ kept_but (blk * n + c) s s') s.
Proof.
  intros Hc Hv Hcn Hb Hbit. destruct (block_chunk cfg Hcfg blk c Hv Hcn) as (Hvc & Hq & Hr).
  fold n in Hvc, Hq, Hr. set (chunk := blk * n + c) in *.
  unfold yaffs_DeleteChunk, modS, modB. apply pc_if. destruct (chunk <=? 0).
  { apply pc_ret. split; [done|apply kept_but_refl]. }
  fold n. rewrite Hq, Hr. apply pc_bind, pc_modify. set (s1 := s <| stats ::= _ |>).
  assert (H1 : safe chunk s s1) by (by apply safe_same).
  apply pc_bind, pc_wp, wp_CheckChunkBit; [done|apply H1|done|done|].
  apply pc_bind, pc_GetBlockInfo. intros bi1 _ Hb1. change (blockInfo (blks s1)) with (blockInfo (blks s)) in Hb1.
  apply (pc_seq _ _ (fun _ s' => safe chunk s s')).
  { apply pc_if. destruct (_ && negb (isYaffs2 cfg)).
    - eapply pc_seq; [apply safe_write, H1|]. intros [r t] s2 H2. apply pc_ret. exact (safe_trans _ _ _ _ H1 H2).
    - apply pc_modify. eapply safe_trans; [exact H1|]. by apply safe_same; [..|apply H1]. }
  intros [] s2 H2. apply pc_when. destruct (_ || _); [|split; apply H2].
  apply pc_bind, pc_modify. set (s3 := s2 <| blks ::= _ |>).
  assert (H3 : safe chunk s s3) by (eapply safe_trans; [exact H2|]; by apply safe_same; [..|apply H2]).
  destruct H3 as (Hc3 & Hb3 & Hk3). apply pc_bind, pc_wp.
  apply (wp_write_chunk_bit cfg Hcfg false blk c); [apply Hc3|done|done|]. intros bits' Hch.
  apply pc_bind, pc_set_block_info. intros b4 _ Hi4. change (blockInfo (blks (with_bits bits' s3))) with (blockInfo (blks s3)) in Hi4 |- *.
  set (s5 := with_infos _ _).
  assert (H5 : calm s5 /\ kept_but chunk s s5) by (by apply (clear_bit_calm blk c s s3 b4 bits')).
  apply pc_bind, pc_GetBlockInfo. intros b5 _ Hi5. apply pc_when.
  destruct ((pagesInUse b5 =? 0) && _ && _ && _) eqn:Hd; [|done].
  rewrite !andb_true_iff in Hd. destruct Hd as [[[Hz%Z.eqb_eq _] _] _]. destruct H5 as [Hc5 Hk5].
  eapply pc_mono; [apply (BlockBecameDirty_safe blk s5 Hc5 Hv)|].
  - by rewrite <- (cm_pages s5 Hc5 blk b5 Hv Hi5).
  - intros [] s6 [Hc6 Hk6]. split; [done|]. eapply kept_but_trans; [exact Hk5|by apply kept_any].
Qed.

(** ** Writing *)

(** Handing out a chunk does not touch the medium. *)
Definition same_nand (f : N) (s' : State N) : Prop := nand s' = f.

Lemma set_block_info_nand f blk g s :
  same_nand f s -> pc (set_block_info cfg blk g) (fun _ => same_nand f) s.
Proof. intros Hs. by apply pc_set_block_info. Qed.

Lemma take_block_nand f b s : same_nand f s -> pc (take_block cfg b) (fun _ => same_nand f) s.
Proof.
  intros Hs. unfold take_block, modB, getB.
  eapply pc_seq; [by apply set_block_info_nand|]. intros [] s1 H1. do 4 pc_step.
  eapply pc_seq; [by apply set_block_info_nand|]. intros [] s2 H2. by apply pc_modify.
Qed.

Lemma FindBlockForAllocation_nand f s :
  same_nand f s -> pc (yaffs_FindBlockForAllocation cfg) (fun _ => same_nand f) s.
Proof.
  intros Hs. unfold yaffs_FindBlockForAllocation, getB. do 2 pc_step. apply pc_if.
  destruct (_ <? 1); [by apply pc_ret|].
  eapply pc_seq; [apply (pc_for_break (same_nand f)); [done|]|by intros [r|] s1 H1; apply pc_ret].
  intros x s' _ Hs'. unfold advance_finder, getB, modB. pc_steps.
  destruct (_ || _); pc_steps; (apply pc_GetBlockInfo; intros bi _ _; apply pc_if;
    destruct (is_state _ _); [|by apply pc_ret];
    eapply pc_seq; [by apply take_block_nand|]; intros [] s2 H2; by apply pc_ret).
Qed.

Lemma take_page_nand f a s : same_nand f s -> pc (take_page cfg a) (fun _ => same_nand f) s.
Proof.
  intros Hs. unfold take_page, getB, modB. do 2 pc_step.
  eapply pc_seq; [by apply set_block_info_nand|]. intros [] s2 H2.
  apply (pc_seq _ _ (fun _ => same_nand f)).
  { unfold yaffs_SetChunkBit, read_bits, write_bits, getB, modB. pc_steps.
    apply pc_of_option. intros x _. pc_steps. apply pc_of_option. intros l _. by pc_steps. }
  intros [] s3 H3. do 4 pc_step.
  apply (pc_seq _ _ (fun _ => same_nand f)); [|by intros [] s4 H4; apply pc_ret].
  apply pc_when. destruct (_ <=? _); [|done].
  eapply pc_seq; [by apply set_block_info_nand|]. intros [] s4 H4. by apply pc_modify.
Qed.

Lemma AllocateChunk_nand f useReserve s :
  same_nand f s -> pc (yaffs_AllocateChunk cfg useReserve) (fun _ => same_nand f) s.
Proof.
  intros Hs. unfold yaffs_AllocateChunk. apply (pc_seq _ _ (fun _ => same_nand f)).
  { unfold next_allocation_block, getB, modB. do 3 pc_step. destruct (_ <? _); [|done].
    eapply pc_seq; [by apply FindBlockForAllocation_nand|]. intros b s1 H1. by apply pc_modify. }
  intros [] s1 H1. unfold yaffs_CheckSpaceForAllocation, getB, getC. pc_steps.
  apply pc_if. destruct (_ && _); [by apply pc_ret|]. pc_steps. apply pc_if.
  destruct (0 <=? _); [|by apply pc_ret].
  eapply pc_seq; [by apply take_page_nand|]. intros c s2 H2. by apply pc_ret.
Qed.

(** A chunk that was handed out is none of those in use before. *)
Lemma kept_fresh s s1 s2 chunk blk page :
  fresh cfg s s1 chunk blk page -> kept s s1 -> kept_but chunk s1 s2 -> kept s s2.
Proof.
  intros [_ Hv Hp Hc Hfree _ _ _] [H1 L1] [H2 L2]. split; [|by eapply soft_le_trans].
  intros c Hvc He Huse. destruct (H1 c Hvc He Huse) as [Hu1 Hc1].
  destruct (H2 c Hvc) as [Hu2 Hc2]; [|done|split; [done|congruence]].
  intros ->. destruct (block_chunk cfg Hcfg blk page Hv Hp) as (_ & Hq & Hr). fold n in Hq, Hr, Hc.
  unfold in_use in Huse. fold n in Hfree. rewrite Hc, Hq, Hr in Huse. congruence.
Qed.

Lemma fresh_kept s s1 chunk blk page :
  fresh cfg s s1 chunk blk page -> nand s1 = nand s -> soft_le s s1 -> kept s s1.
Proof.
  intros Hfr Hn Hl. split; [|done]. intros c Hvc _ Huse. split; [|by rewrite Hn]. destruct (chunk_place c Hvc) as (Hv & Hr & _).
  eapply (fresh_grows cfg); [exact Hfr|by apply knum_range|done|done].
Qed.

(** The chunk that was handed out is deleted again. *)
Lemma fresh_delete_kept s s1 chunk blk page markNAND :
  fresh cfg s s1 chunk blk page -> kept s s1 ->
  pc (yaffs_DeleteChunk cfg chunk markNAND) (fun _ s2 => kept s s2) s1.
Proof.
  intros Hfr Hk. pose proof (fresh_used _ _ _ _ _ _ Hfr) as Hbit.
  pose proof Hfr as [Hok Hv Hp Hc _ _ (bi & Hb & _) _]. rewrite Hc.
  eapply pc_mono; [eapply (DeleteChunk_safe blk page markNAND s1 bi)|];
    [by eapply calm_ok|done|done|done|done|].
  intros [] s2 [_ Hk2]. fold n in Hc. rewrite <- Hc in Hk2. by eapply kept_fresh.
Qed.

Lemma HandleChunkError_nand f blk s :
  same_nand f s -> pc (yaffs_HandleChunkError cfg blk) (fun _ => same_nand f) s.
Proof.
  intros Hs. unfold yaffs_HandleChunkError, modB. apply pc_bind, pc_GetBlockInfo. intros bi _ _.
  apply pc_when. destruct (negb _); [|done].
  eapply pc_seq; [by apply set_block_info_nand|]. intros [] s1 H1. do 2 pc_step.
  eapply pc_seq; [by apply set_block_info_nand|]. intros [] s2 H2.
  apply pc_bind, pc_GetBlockInfo. intros bi' _ _. apply pc_when. destruct (3 <? _); [|done].
  by apply set_block_info_nand.
Qed.

Lemma kept_frame s s1 s2 : kept s s1 -> frame s1 s2 -> nand s2 = nand s1 -> kept s s2.
Proof. intros Hk Hf Hn. 
  eapply kept_but_trans; [exact Hk|]. apply kept_same; [apply Hf|done|by apply soft_le_frame].
Qed.

Lemma HandleWriteChunkError_kept s s1 chunk blk page erasedOk :
  fresh cfg s s1 chunk blk page -> kept s s1 ->
  pc (yaffs_HandleWriteChunkError cfg chunk erasedOk) (fun _ s2 => kept s s2) s1.
Proof.
  intros Hfr Hk. pose proof Hfr as [Hok Hv Hp Hc _ _ _ _].
  destruct (block_chunk cfg Hcfg blk page Hv Hp) as (_ & Hq & _). fold n in Hq, Hc.
  unfold yaffs_HandleWriteChunkError. fold n. rewrite Hc, Hq, <- Hc.
  apply pc_bind, pc_GetBlockInfo. intros bi Hlo Hb.
  eapply pc_seq.
  { apply pc_and; [apply pc_wp, (HandleChunkError_frame cfg blk s1); [apply Hok|done]|].
    by apply (HandleChunkError_nand (nand s1)). }
  intros [] s2 [Hf2 Hn2].
  apply (pc_seq _ _ (fun _ s3 => frame_at cfg blk s1 s3 /\ nand s3 = nand s1)).
  { apply pc_when. destruct erasedOk; [|done].
    destruct (frame_lookup _ _ _ _ (proj1 Hf2) Hb) as (bi2 & Hb2 & _).
    eapply pc_mono; [apply pc_and; [apply pc_wp; by eapply (wp_flag cfg blk); [done|exact Hb2|]|
      by apply (set_block_info_nand (nand s1))]|].
    intros [] s3 [[Hf3 _] Hn3]. split; [by etransitivity|done]. }
  intros [] s3 [Hf3 Hn3]. apply (fresh_delete_kept s s3 chunk blk page).
  - by eapply fresh_frame.
  - eapply kept_frame; [exact Hk|apply Hf3|done].
Qed.

(** Soft deletions while a chunk is handed out. *)
Lemma allocated_soft s s1 chunk blk page : allocated cfg s s1 chunk blk page -> soft_le s s1.
Proof.
  intros [Hv _ _ _ _ (bi & bi' & Hb & Hi & Hst & Hst' & _ & Hs & _) _ _ _].
  apply (soft_le_info blk bi bi'); [done..|]. unfold soft_of. rewrite Hst', Hs.
  destruct Hst as [[-> _]|[-> _]]; destruct (_ <=? _); lia.
Qed.

Lemma ready_soft s s1 : ready cfg s s1 -> soft_le s s1.
Proof.
  intros (_ & _ & _ & _ & _ & [[Hb _]|[(_ & _ & Hv & bi & q & Hb & Hs & Hi)|(_ & _ & _ & Hi)]]).
  - apply soft_le_same. by rewrite Hb.
  - eapply soft_le_info; [exact Hb|done|exact Hi|]. unfold soft_of. rewrite Hs. apply Z.le_max_r.
  - by apply soft_le_same.
Qed.

(** One pass of the write loop keeps every chunk that was in use. *)
Lemma write_attempt_kept data useReserve attempts writeOk tags s :
  blocks_ok cfg 0 0 (blks s) ->
  pc (write_attempt cfg data useReserve attempts writeOk tags) (fun _ s' => kept s s') s.
Proof.
  intros Hok. unfold write_attempt.
  eapply pc_seq; [apply pc_and; [by apply pc_wp, (AllocateChunk_spec cfg Hcfg)|
    by apply (AllocateChunk_nand (nand s))]|].
  intros [chunk blk] s1 [(Hok1 & Hgc1 & [(Hc & Hbits & _ & _ & Hrd)|(page & Hal & _)]) Hn1]; cbn [fst snd] in *.
  { subst chunk. apply pc_ret. apply kept_same; [done..|by apply ready_soft]. }
  pose proof (allocated_fresh cfg s s1 chunk blk page Hok Hok1 Hgc1 Hal) as Hfr.
  pose proof (fresh_kept _ _ _ _ _ Hfr Hn1 (allocated_soft _ _ _ _ _ Hal)) as Hk1. pose proof Hfr as [_ Hv Hp Hc _ _ _ _].
  destruct (block_chunk cfg Hcfg blk page Hv Hp) as (Hvc & Hq & _). fold n in Hvc, Hq, Hc.
  rewrite <- Hc in Hvc, Hq.
  apply pc_if. destruct (chunk <? 0); [by apply pc_ret|].
  apply pc_bind, pc_GetBlockInfo. intros bi Hlo Hb. apply pc_if. destruct (gcPrioritise bi).
  { eapply pc_seq; [by eapply fresh_delete_kept|]. intros [] s2 Hk2. by apply pc_ret. }
  cbv zeta. apply (pc_seq _ _ (fun _ s' => frame_at cfg blk s1 s' /\ kept s s')).
  { apply pc_if. destruct (skipErasedCheck bi); [by apply pc_ret|].
    eapply pc_mono; [apply pc_and; [apply pc_wp, (CheckChunkErased_spec cfg Hcfg chunk s1); [apply Hok1|done]|
      apply CheckChunkErased_safe; [by eapply calm_ok|done]]|].
    intros r s2 [Hf (_ & _ & Hk2)]. cbv beta in Hf. fold n in Hf. rewrite Hq in Hf.
    split; [done|by eapply kept_but_trans]. }
  intros erasedOk s2 [Hf2 Hk2]. pose proof (fresh_frame cfg _ _ _ _ _ _ Hfr Hf2) as Hfr2.
  apply pc_if. destruct (_ && _); [by apply pc_ret|].
  apply (pc_seq _ _ (fun _ s' => fresh cfg s s' chunk blk page /\ kept s s')).
  { apply pc_when. destruct (negb _); [|done]. apply pc_set_block_info. intros bi2 _ Hb2.
    split; [by apply (fresh_skip cfg s s2)|]. eapply kept_but_trans; [exact Hk2|].
    apply kept_same; [done..|]. eapply (soft_le_info blk bi2); [done..|apply (Z.le_max_r 0 (soft_of bi2))]. }
  intros [] s3 [Hfr3 Hk3].
  eapply pc_seq; [apply pc_and; [apply pc_wp, (nf_write chunk data tags s3)|
    apply (safe_write chunk data tags s3); eapply calm_ok, Hfr3]|].
  intros [w tags'] s4 [(_ & Hb4 & Hck4) (_ & _ & Hk4)].
  pose proof (kept_fresh _ _ _ _ _ _ Hfr3 Hk3 Hk4) as Hk4'.
  apply (pc_seq _ _ (fun _ s' => kept s s')); [|by intros [] s5 Hk5; apply pc_ret].
  apply pc_when. destruct (negb _); [|done]. apply (HandleWriteChunkError_kept s s4 chunk blk page); [|done].
  eapply fresh_frame; [exact Hfr3|by apply frame_at_eq].
Qed.

Lemma write_loop_kept data useReserve fuel attempts writeOk tags s :
  blocks_ok cfg 0 0 (blks s) ->
  pc (write_loop cfg fuel data useReserve attempts writeOk tags) (fun _ s' => kept s s') s.
Proof.
  revert attempts writeOk tags s. induction fuel as [|fuel IH]; intros attempts writeOk tags s Hok.
  { apply pc_fail. }
  cbn [write_loop]. eapply pc_seq; [apply pc_and; [by apply pc_wp, (write_attempt_spec cfg Hcfg)|
    by apply write_attempt_kept]|].
  intros [|chunk writeOk' attempts' tags'] s1 [(Hok1 & _) Hk1]; [by apply pc_ret|].
  apply pc_if. destruct (_ && _); [|by apply pc_ret].
  eapply pc_mono; [by apply IH|]. intros r s2 Hk2. by eapply kept_but_trans.
Qed.

Lemma WriteNewChunk_kept data tags useReserve s :
  blocks_ok cfg 0 0 (blks s) ->
  pc (yaffs_WriteNewChunkWithTagsToNAND cfg data tags useReserve) (fun _ s' => kept s s') s.
Proof.
  intros Hok. unfold yaffs_WriteNewChunkWithTagsToNAND, modS.
  eapply pc_seq; [apply pc_and; [by apply pc_wp, (InvalidateCheckpoint_spec cfg Haware 0 0)|
    by eapply InvalidateCheckpoint_safe, calm_ok]|].
  intros [] s1 [[Hok1 _] (_ & _ & Hk1)]. eapply pc_seq; [by apply write_loop_kept|].
  intros [chunk attempts] s2 Hk2.
  apply (pc_seq _ _ (fun _ s' => kept s s')); [|by intros [] s3 Hk3; apply pc_ret].
  apply pc_when. destruct (1 <? attempts); [apply pc_modify|];
    (eapply kept_but_trans; [exact Hk1|]; eapply kept_but_trans; [exact Hk2|apply kept_same; [done..|by apply soft_le_same]]).
Qed.

(** Chunk [c] is in use and holds [d] under tags that name the chunk [tags] does. *)
Definition stores (s : State N) (c : Z) (d : list Z) (tags : ExtendedTags) : Prop :=
  valid_chunk cfg c /\ in_use s c /\
  exists t, content (nand s) c = Some (d, t) /\ same_chunk tags t.

Lemma stores_kept ex s s' c d tags : kept_but ex s s' -> c <> ex -> stores s c d tags -> stores s' c d tags.
Proof.
  intros Hk He (Hv & Hu & t & Hc & Ht). destruct (kb_chunks _ _ _ Hk c Hv He Hu) as [Hu' Hc'].
  split; [done|]. split; [done|]. exists t. by rewrite Hc'.
Qed.

(** The chunk that was written was free, and holds the data now. *)
Definition now_stores (s s' : State N) (c : Z) (d : list Z) (tags : ExtendedTags) : Prop :=
  ~ in_use s c /\ stores s' c d tags.

Lemma wrote_stores d tags chunk s s' :
  wrote cfg (Some d) tags chunk s s' -> Z.of_nat (length d) = nDataBytesPerChunk cfg -> fits cfg tags ->
  now_stores s s' chunk d tags.
Proof.
  intros (blk & page & s1 & Hv & Hp & Hc & Hfree & Huse & (s0 & t & t' & Ht & Hrun) & Hn) Hd Hfit.
  destruct (block_chunk cfg Hcfg blk page Hv Hp) as (Hvc & Hq & Hr). rewrite <- Hc in Hvc, Hq, Hr.
  unfold now_stores, stores, in_use. fold n in Hq, Hr. rewrite Hq, Hr.
  split; [by rewrite Hfree|]. split; [done|]. split; [done|]. rewrite Hn.
  destruct (nm_write chunk (Some d) t s0 _ _ Hrun) as [_ Hw].
  destruct (Hw d) as (t2 & Hc2 & Ht2); [done|done|by eapply fits_stamped|done|].
  exists t2. split; [done|]. transitivity t; [by apply stamped_chunk|done].
Qed.

Lemma WriteNewChunk_kept_spec d tags useReserve s :
  0 < yaffs_wr_attempts cfg -> blocks_ok cfg 0 0 (blks s) ->
  Z.of_nat (length d) = nDataBytesPerChunk cfg -> fits cfg tags ->
  wp (yaffs_WriteNewChunkWithTagsToNAND cfg (Some d) tags useReserve) (fun chunk s' =>
    blocks_ok cfg 0 0 (blks s') /\ kept s s' /\ isDoingGC (blks s') = isDoingGC (blks s) /\
    (chunk = -1 \/ now_stores s s' chunk d tags)) s.
Proof.
  intros Hwr Hok Hd Hfit.
  eapply wp_mono; [apply wp_pc; [by apply (WriteNewChunk_spec cfg Hcfg Haware)|by apply WriteNewChunk_kept]|].
  intros chunk s' [(Hok' & _ & Hgc & Hw) Hk]. repeat (split; [done|]).
  destruct Hw as [[Hw _]|Hw]; [by left|right]. by apply wrote_stores.
Qed.

Lemma DeleteChunk_kept_spec blk c markNAND s bi :
  blocks_ok cfg 0 0 (blks s) -> valid_block cfg blk -> 0 <= c < n ->
  blockInfo (blks s) !! index cfg blk = Some bi -> in_use_state (blockState bi) = true ->
  chunk_bit cfg (chunkBits (blks s)) (knum cfg blk) c = true -> soft_of bi < pagesInUse bi ->
  wp (yaffs_DeleteChunk cfg (blk * n + c) markNAND) (fun _ s' =>
    blocks_ok cfg 0 0 (blks s') /\ step_at cfg blk s s' /\
    bit_cleared cfg (chunkBits (blks s)) (chunkBits (blks s')) blk c /\
    block_in cfg s' blk (after_delete bi) /\ kept_but (blk * n + c) s s') s.
Proof.
  intros Hok Hv Hc Hb Hs Hbit Hsoft.
  eapply wp_mono; [apply wp_pc; [by apply (DeleteChunk_spec cfg Hcfg Haware)|
    by eapply DeleteChunk_safe; [eapply calm_ok|..]]|].
  intros [] s' [(H1 & H2 & H3 & H4) [_ H5]]. done.
Qed.

(** ** Soft deletions *)

(** How many chunks of a block are in the set [D] of the soft-deleted ones. *)
Definition soft_count (D : gset Z) (blk : Z) : Z :=
  sumZ (fun c => ind (bool_decide (blk * n + c ∈ D))) (seqZ 0 n).

(** The books are right, and the blocks' counts of soft deletions are covered by chunks
    of [D], all of them in use. *)
Record media_ok (D : gset Z) (s : State N) : Prop := {
  mo_blocks : blocks_ok cfg 0 0 (blks s);
  mo_gone : forall c, c ∈ D -> valid_chunk cfg c /\ in_use s c;
  mo_soft : forall blk bi, valid_block cfg blk -> blockInfo (blks s) !! index cfg blk = Some bi ->
    soft_of bi <= soft_count D blk
}.

Lemma media_kept D ex s s' :
  media_ok D s -> kept_but ex s s' -> ex ∉ D -> blocks_ok cfg 0 0 (blks s') -> media_ok D s'.
Proof.
  intros [_ Hg Hs] [Hk Hl] He Hok. split; [done|..].
  - intros c Hc. destruct (Hg c Hc) as [Hv Hu]. split; [done|]. apply Hk; [done| |done]. by intros ->.
  - intros blk bi' Hv Hb. destruct (Hl blk bi' Hv Hb) as (bi & Hb0 & Hle).
    pose proof (Hs blk bi Hv Hb0). assert (0 <= soft_count D blk); [|lia].
    apply sumZ_nonneg. intros c _. apply ind_range.
Qed.

(** A block with a page in use is being filled, full or being collected. *)
Lemma block_in_use s blk bi :
  blocks_ok cfg 0 0 (blks s) -> valid_block cfg blk -> blockInfo (blks s) !! index cfg blk = Some bi ->
  1 <= pagesInUse bi -> in_use_state (blockState bi) = true.
Proof.
  intros Hok Hv Hb Hp. destruct (ok_block _ _ _ _ Hok blk bi Hv Hb) as [_ _ He Hr].
  unfold in_use_state, is_state. unfold runtime_state in Hr.
  destruct (blockState bi); try done; exfalso; assert (pagesInUse bi = 0) by auto; lia.
Qed.

(** A chunk in use that is not soft deleted can be deleted. *)
Lemma live_chunk D s c :
  media_ok D s -> valid_chunk cfg c -> in_use s c -> c ∉ D ->
  exists bi, blockInfo (blks s) !! index cfg (Z.quot c n) = Some bi /\
    in_use_state (blockState bi) = true /\ soft_of bi < pagesInUse bi.
Proof.
  intros [Hok Hg Hs] Hvc Hu Hc. destruct (chunk_place c Hvc) as (Hv & Hr & Hcq).
  set (blk := Z.quot c n) in *. destruct (get_block cfg 0 0 _ blk Hok Hv) as [bi Hb]. exists bi.
  pose proof (bk_pages _ _ (ok_block _ _ _ _ Hok blk bi Hv Hb)) as Hp.
  assert (Hlt : soft_count D blk + 1 <= used cfg (chunkBits (blks s)) (knum cfg blk)).
  { transitivity (soft_count D blk + sumZ (fun x => ind (x =? Z.rem c n)) (seqZ 0 n)).
    - destruct (proj1 (list_elem_of_lookup (seqZ 0 n) (Z.rem c n))) as [i Hi]; [apply elem_of_seqZ; lia|].
      apply (sumZ_lookup_le (fun x => ind (x =? Z.rem c n))) in Hi; [|intros; apply ind_range].
      rewrite Z.eqb_refl in Hi. change (ind true) with 1 in Hi. lia.
    - unfold soft_count, used. rewrite <- sumZ_add. fold n. apply sumZ_le. intros x Hx%elem_of_seqZ.
      destruct (Z.eqb_spec x (Z.rem c n)) as [->|Hne].
      + rewrite <- Hcq, bool_decide_false by done. unfold in_use in Hu. fold blk in Hu. by rewrite Hu.
      + destruct (bool_decide_reflect (blk * n + x ∈ D)) as [Hin|]; simpl; [|destruct (chunk_bit _ _ _ _); simpl; lia].
        destruct (Hg _ Hin) as [_ Hux]. unfold in_use in Hux.
        destruct (block_chunk cfg Hcfg blk x Hv) as (_ & Hq & Hrx); [fold n; lia|]. fold n in Hq, Hrx.
        rewrite Hq, Hrx in Hux. by rewrite Hux. }
  split; [done|]. pose proof (Hs blk bi Hv Hb).
  assert (0 <= soft_count D blk) by (apply sumZ_nonneg; intros; apply ind_range).
  split; [|lia]. eapply block_in_use; [done..|lia].
Qed.

(** Deleting such a chunk. *)
Lemma DeleteChunk_media D c markNAND s :
  media_ok D s -> valid_chunk cfg c -> in_use s c -> c ∉ D ->
  wp (yaffs_DeleteChunk cfg c markNAND) (fun _ s' =>
    media_ok D s' /\ kept_but c s s' /\ ~ in_use s' c /\ isDoingGC (blks s') = isDoingGC (blks s)) s.
Proof.
  intros Hm Hvc Hu Hc. destruct (chunk_place c Hvc) as (Hv & Hr & Hcq).
  destruct (live_chunk D s c Hm Hvc Hu Hc) as (bi & Hb & Hst & Hsoft).
  rewrite Hcq at 1. eapply wp_mono; [by apply (DeleteChunk_kept_spec (Z.quot c n) (Z.rem c n) markNAND s bi); [apply Hm|..]|].
  intros [] s' (Hok' & Hstep & Hbits & _ & Hk). rewrite <- Hcq in Hk.
  split; [by eapply media_kept|]. split; [done|]. split; [|by apply Hstep].
  unfold in_use. rewrite Hbits by (done || by apply knum_range). unfold bit_at. by rewrite !Z.eqb_refl.
Qed.

Lemma WriteNewChunk_media D d tags useReserve s :
  0 < yaffs_wr_attempts cfg -> media_ok D s ->
  Z.of_nat (length d) = nDataBytesPerChunk cfg -> fits cfg tags ->
  wp (yaffs_WriteNewChunkWithTagsToNAND cfg (Some d) tags useReserve) (fun chunk s' =>
    media_ok D s' /\ kept s s' /\ isDoingGC (blks s') = isDoingGC (blks s) /\
    (chunk = -1 \/ now_stores s s' chunk d tags)) s.
Proof.
  intros Hwr Hm Hd Hfit. eapply wp_mono; [by apply WriteNewChunk_kept_spec; [|apply Hm|..]|].
  intros chunk s' (Hok & Hk & Hrest). split; [|done]. eapply media_kept; [exact Hm|exact Hk| |done].
  intros [[H _] _]%(mo_gone _ _ Hm). destruct Hcfg as [? _ Hn _ _ _]. nia.
Qed.

(** A read gives back what is stored and disturbs nothing. *)
Lemma Read_media D c buffer tags0 s :
  media_ok D s -> valid_chunk cfg c -> buffer_ok cfg buffer ->
  wp (yaffs_ReadChunkWithTagsFromNAND cfg c buffer tags0) (fun r s' =>
    media_ok D s' /\ kept s s' /\ isDoingGC (blks s') = isDoingGC (blks s) /\
    chunkBits (blks s') = chunkBits (blks s) /\
    (forall c', content (nand s') c' = content (nand s) c') /\
    same_size (snd (fst r)) buffer /\
    forall d t, content (nand s) c = Some (d, t) ->
      fst (fst r) = YAFFS_OK /\ snd (fst r) = (fun _ => d) <$> buffer /\ same_chunk t (snd r)) s.
Proof.
  intros Hm Hv Hb. eapply wp_mono.
  { apply wp_pc; [by apply (nf_read c buffer tags0 s); [apply Hm|..]|].
    apply pc_and; [by apply (safe_read c buffer tags0 s); [eapply calm_ok, Hm|..]|apply nm_read]. }
  intros r s' [[[Hf _] Hsz] [(Hc' & Hbits & Hk) [Hcont Hrd]]].
  assert (Hok : blocks_ok cfg 0 0 (blks s')) by (eapply frame_ok; [exact Hf|apply Hm]).
  split.
  { eapply media_kept; [exact Hm|exact Hk| |done].
    intros [[H _] _]%(mo_gone _ _ Hm). destruct Hcfg as [? _ Hn _ _ _]. nia. }
  split; [done|]. split; [apply Hf|]. split; [done|]. split; [done|]. split; [done|].
  intros d t Hcd. by apply Hrd.
Qed.
End medium.

(** ** Drivers that work with tags *)

(** What a driver promises of its pages, [held]. *)
Record medium_driver {N} (nd : NandDriver N) (cfg : Config)
    (held : N -> Z -> option (list Z * ExtendedTags)) : Prop := {
  md_read : exists f, drv_readChunkWithTags = Some f /\ forall c b t n,
    (forall c', held (snd (f c b t n)) c' = held n c') /\
    forall d t', buffer_ok cfg b -> held n c = Some (d, t') ->
      fst (fst (fst (f c b t n))) = YAFFS_OK /\ snd (fst (fst (f c b t n))) = (fun _ => d) <$> b /\
      same_chunk t' (snd (fst (f c b t n)));
  md_write : exists f, drv_writeChunkWithTags = Some f /\ forall c b t n,
    (forall c', c' <> c -> held (snd (f c b t n)) c' = held n c') /\
    forall d, b = Some d -> Z.of_nat (length d) = nDataBytesPerChunk cfg -> fits cfg t ->
      fst (f c b t n) = YAFFS_OK -> exists t', held (snd (f c b t n)) c = Some (d, t') /\ same_chunk t t';
  md_erase : forall blk n c, 0 <= c -> Z.quot c (nChunksPerBlock cfg) <> blk ->
    held (snd (drv_eraseBlock blk n)) c = held n c;
  md_mark : forall mark blk n c, drv_markBlockBad = Some mark -> 0 <= c ->
    Z.quot c (nChunksPerBlock cfg) <> blk -> held (snd (mark blk n)) c = held n c
}.

(** Moving a chunk by the offsets moves its block. *)
Lemma realigned_block cfg c :
  cfg_ok cfg -> chunkOffset cfg = blockOffset cfg * nChunksPerBlock cfg ->
  0 <= blockOffset cfg <= internalStartBlock cfg -> valid_chunk cfg c ->
  0 <= c - chunkOffset cfg /\
  Z.quot (c - chunkOffset cfg) (nChunksPerBlock cfg) = Z.quot c (nChunksPerBlock cfg) - blockOffset cfg.
Proof.
  intros Hcfg Ho Hb [H1 H2]. destruct Hcfg as [Hs _ Hn _ _ _].
  assert (Hc : 0 <= c - chunkOffset cfg) by nia. split; [done|].
  rewrite !Z.quot_div_nonneg by nia. rewrite Ho.
  replace (c - blockOffset cfg * nChunksPerBlock cfg)
    with (c + (- blockOffset cfg) * nChunksPerBlock cfg) by lia.
  rewrite Z.div_add by lia. lia.
Qed.

Lemma medium_of {N} (nd : NandDriver N) (cfg : Config) held :
  cfg_ok cfg -> chunkOffset cfg = blockOffset cfg * nChunksPerBlock cfg ->
  0 <= blockOffset cfg <= internalStartBlock cfg -> medium_driver nd cfg held -> NandMedium nd cfg.
Proof.
  intros Hcfg Ho Hb Hmd.
  refine {| content n c := held n (c - chunkOffset cfg) |}.
  - destruct (md_read _ _ _ Hmd) as (fr & Hr & Lr).
    intros chunk buffer tags s. unfold yaffs_ReadChunkWithTagsFromNAND. rewrite Hr.
    destruct (Lr (chunk - chunkOffset cfg) buffer tags (nand s)) as [L1 L2].
    apply pc_bind, pc_wp, wp_on_nand.
    destruct (fr (chunk - chunkOffset cfg) buffer tags (nand s)) as [[[r d] t] n'].
    cbn [fst snd] in *. set (s1 := s <| nand := n' |>).
    apply (pc_seq _ _ (fun _ s' => nand s' = n')).
    { apply pc_when. destruct (ecc_is_error _); [|done]. by apply (HandleChunkError_nand cfg n'). }
    intros [] s2 Hn2. apply pc_ret. rewrite Hn2. split; [intros c; apply L1|exact L2].
  - destruct (md_write _ _ _ Hmd) as (fw & Hw & Lw).
    intros chunk buffer tags s. unfold yaffs_WriteChunkWithTagsToNAND, getB. rewrite Hw.
    apply pc_bind, pc_gets, pc_bind, pc_wp, wp_on_nand.
    set (t := tags <| sequenceNumber := _ |> <| chunkUsed := 1 |>).
    destruct (Lw (chunk - chunkOffset cfg) buffer t (nand s)) as [L1 L2]. apply pc_ret. simp_fields. split.
    + intros c Hc. apply L1. lia.
    + intros d Hbuf Hd Hfit HOK. destruct (L2 d Hbuf Hd) as (t' & H1 & H2); [exact Hfit|exact HOK|].
      by exists t'.
  - intros blk n' c Hc Hq. destruct (realigned_block cfg c Hcfg Ho Hb Hc) as [H0 Hq'].
    apply (md_erase _ _ _ Hmd); [done|]. rewrite Hq'. lia.
  - intros mark blk n' c Hm Hc Hq. destruct (realigned_block cfg c Hcfg Ho Hb Hc) as [H0 Hq'].
    apply (md_mark _ _ _ Hmd); [done|done|]. rewrite Hq'. lia.
Defined.

(** The simulated medium keeps whole chunks. *)
Definition sim_held (f : Flash) (c : Z) : option (list Z * ExtendedTags) :=
  match f !! c with
  | Some (d, t) => if decide (length d = 512%nat) then Some (d, t) else None
  | None => None
  end.

Lemma sim_erase_other blk f c :
  0 <= c -> Z.quot c 4 <> blk -> snd (sim_erase blk f) !! c = f !! c.
Proof.
  intros Hc Hq. unfold sim_erase, sim_pages. cbn [snd].
  assert (H : forall l, (forall x, x ∈ l -> x <> c) -> foldr (fun c => delete c) f l !! c = f !! c).
  { induction l as [|x l IH]; intros Hl; [done|]. cbn [foldr].
    etransitivity; [apply (lookup_delete_ne (M := gmap Z)), Hl; by left|].
    apply IH. intros y Hy. apply Hl. by right. }
  apply H. intros x Hx%elem_of_seqZ ->. apply Hq. rewrite Z.quot_div_nonneg by lia.
  symmetry. apply Z.div_unique with (c - blk * 4); lia.
Qed.

Lemma sim_medium : medium_driver sim_driver sample_cfg sim_held.
Proof.
  split.
  - exists sim_read. split; [done|]. intros c b t f. unfold sim_read, sim_held.
    destruct (f !! c) as [[d t']|] eqn:Hc; cbn [fst snd]; (split; [done|]); [|done].
    intros d0 t0 Hb H. destruct (decide _) as [Hl|]; [|done]. injection H as <- <-.
    split; [done|]. split; [|by repeat split].
    destruct b as [b|]; [|done]. simpl. f_equal. specialize (Hb b eq_refl).
    change (nDataBytesPerChunk sample_cfg) with 512 in Hb.
    replace (length b) with (length d) by lia. apply resize_all.
  - exists sim_write. split; [done|]. intros c b t f. unfold sim_write, sim_held, Flash. cbn [fst snd]. split.
    + intros c' Hne. by rewrite lookup_insert_ne.
    + intros d -> Hd _ _. exists t. rewrite lookup_insert_eq. simpl. split; [|done].
      rewrite decide_True; [done|]. change (nDataBytesPerChunk sample_cfg) with 512 in Hd. lia.
  - intros blk f c Hc Hq. unfold sim_held.
    change (drv_eraseBlock blk f) with (sim_erase blk f). by rewrite (sim_erase_other blk f c).
  - intros mark blk f c [= <-] _ _. done.
Qed.

#[export] Instance sim_nand : NandMedium sim_driver sample_cfg :=
  medium_of sim_driver sample_cfg sim_held sample_cfg_ok eq_refl (conj (Z.le_refl 0) Z.le_0_1) sim_medium.

Lemma sim_aligned : marks_aligned sim_driver sample_cfg.
Proof. by left. Qed.

(** ** The properties *)

(** C13. Writing a new chunk, through errors, retries, retired blocks and an erased
    checkpoint, loses nothing: every chunk that was in use still is and holds what it held.
    The chunk that is returned was free and holds the data now, under tags that name the
    object's chunk. *)
Theorem WriteNewChunk_stores {N : Type} {nd : NandDriver N} (cfg : Config) {nf : NandFrame nd cfg}
    {nm : NandMedium nd cfg} (d : list Z) (tags : ExtendedTags) (useReserve : bool) (s : State N)
    (Hcfg : cfg_ok cfg) (Haware : is_Some drv_markBlockBad) (Halign : marks_aligned nd cfg)
    (Hwr : 0 < yaffs_wr_attempts cfg) (Hok : blocks_ok cfg 0 0 (blks s))
    (Hd : Z.of_nat (length d) = nDataBytesPerChunk cfg) (Hfit : fits cfg tags) :
  wp (yaffs_WriteNewChunkWithTagsToNAND cfg (Some d) tags useReserve) (fun chunk s' =>
    kept cfg s s' /\ (chunk = -1 \/ now_stores cfg s s' chunk d tags)) s.
Proof.
  eapply wp_mono; [by apply WriteNewChunk_kept_spec|]. by intros chunk s' (_ & H1 & _ & H2).
Qed.

Definition sample_tags (object chunk : Z) : ExtendedTags :=
  yaffs_InitialiseTags <| objectId := object |> <| chunkId := chunk |> <| byteCount := 512 |>.
Definition sample_data (x : Z) : list Z := replicate 512 x.

Lemma sample_fits object chunk :
  0 <= object < 2 ^ 18 -> 0 <= chunk < 2 ^ 20 -> fits sample_cfg (sample_tags object chunk).
Proof. intros. split; [done|]. split; [done|]. split; [simpl; lia|done]. Qed.

Lemma WriteNewChunk_stores_witness :
  wp (yaffs_WriteNewChunkWithTagsToNAND sample_cfg (Some (sample_data 7)) (sample_tags 257 1) false)
    (fun chunk s' => kept sample_cfg sample_state s' /\
      (chunk = -1 \/ now_stores sample_cfg sample_state s' chunk (sample_data 7) (sample_tags 257 1)))
    sample_state.
Proof.
  apply (WriteNewChunk_stores sample_cfg (sample_data 7) (sample_tags 257 1) false sample_state);
    [exact sample_cfg_ok|exact sim_can_mark|exact sim_aligned|reflexivity|exact sample_ok|reflexivity
    |apply sample_fits; lia].
Defined.

(** C14. Deleting a chunk that is in use and not soft deleted, and erasing its block if it was
    the last one there, disturbs no other chunk in use, and the chunk is free afterwards. *)
Theorem DeleteChunk_spares {N : Type} {nd : NandDriver N} (cfg : Config) {nf : NandFrame nd cfg}
    {nm : NandMedium nd cfg} (D : gset Z) (c : Z) (markNAND : bool) (s : State N)
    (Hcfg : cfg_ok cfg) (Haware : is_Some drv_markBlockBad) (Halign : marks_aligned nd cfg)
    (Hm : media_ok cfg D s) (Hv : valid_chunk cfg c) (Hu : in_use cfg s c) (Hc : c ∉ D) :
  wp (yaffs_DeleteChunk cfg c markNAND) (fun _ s' =>
    media_ok cfg D s' /\ kept_but cfg c s s' /\ ~ in_use cfg s' c) s.
Proof.
  eapply wp_mono; [by apply DeleteChunk_media|]. by intros [] s' (H1 & H2 & H3 & _).
Qed.

Lemma used_media : media_ok sample_cfg ∅ used_state.
Proof.
  split; [exact used_state_ok|by intros c ?%not_elem_of_empty|].
  intros blk bi Hv Hb. destruct (sample_valid blk Hv) as [-> | [-> | [-> | ->]]];
    vm_compute in Hb; injection Hb as <-; vm_compute; discriminate.
Qed.

Lemma DeleteChunk_spares_witness :
  wp (yaffs_DeleteChunk sample_cfg 4 true) (fun _ s' =>
    media_ok sample_cfg ∅ s' /\ kept_but sample_cfg 4 used_state s' /\ ~ in_use sample_cfg s' 4) used_state.
Proof.
  apply (DeleteChunk_spares sample_cfg ∅ 4 true used_state);
    [exact sample_cfg_ok|exact sim_can_mark|exact sim_aligned|exact used_media
    |unfold valid_chunk; simpl; lia|vm_compute; reflexivity|by apply not_elem_of_empty].
Defined.
