(* ===== verification/Blank.v ===== *)
(** * What is erased

    The other half of what the medium holds: the pages that can still be handed out are
    erased.  [NandBlank] says what a working driver promises of erased pages.  The block layer
    then never finds a page that it takes for erased and is not, so a write either gives a page
    that was free or leaves the set of pages in use as it was. *)
From S2P Require Import Prelude Monad Tags Device Nand Sim BlockInv Checkptrw Blocks Medium.

(** Erased pages: an erasure that is reported makes them, reading shows them and leaves them,
    writing, erasing and marking touch one page or one block. *)
Class NandBlank {N} (nd : NandDriver N) (cfg : Config) := {
  blank : N -> Z -> Prop;
  nb_read : forall chunk buffer tags (s : State N),
    pc (yaffs_ReadChunkWithTagsFromNAND cfg chunk buffer tags) (fun r s' =>
      (forall c, blank (nand s) c -> blank (nand s') c) /\
      (blank (nand s) chunk -> buffer_ok cfg buffer ->
        snd (fst r) = (fun b => replicate (length b) 255) <$> buffer /\
        chunkUsed (snd r) = 0 /\ ecc_is_error (eccResult (snd r)) = false)) s;
  nb_write : forall chunk buffer tags (s : State N),
    pc (yaffs_WriteChunkWithTagsToNAND cfg chunk buffer tags) (fun _ s' =>
      forall c, c <> chunk -> blank (nand s) c -> blank (nand s') c) s;
  nb_erase : forall blk n c, valid_chunk cfg c -> Z.quot c (nChunksPerBlock cfg) <> blk ->
    blank n c -> blank (snd (drv_eraseBlock (blk - blockOffset cfg) n)) c;
  nb_erased : forall blk n c, valid_chunk cfg c -> Z.quot c (nChunksPerBlock cfg) = blk ->
    ztrue (fst (drv_eraseBlock (blk - blockOffset cfg) n)) = true ->
    blank (snd (drv_eraseBlock (blk - blockOffset cfg) n)) c;
  nb_mark : forall mark blk n c, drv_markBlockBad = Some mark -> valid_chunk cfg c ->
    Z.quot c (nChunksPerBlock cfg) <> blk + blockOffset cfg ->
    blank n c -> blank (snd (mark blk n)) c
}.

Section blank.
Context {N : Type} {nd : NandDriver N} (cfg : Config) (Hcfg : cfg_ok cfg).
Context {nf : NandFrame nd cfg} {nm : NandMedium nd cfg} {nb : NandBlank nd cfg}.
Context (Haware : is_Some drv_markBlockBad) (Halign : marks_aligned nd cfg).
Implicit Types (s : State N).
Let n := nChunksPerBlock cfg.

(** Chunk [c] can still be handed out: its block is empty, or is being filled and has not
    come to it. *)
Definition allocatable (s : State N) (c : Z) : Prop :=
  (exists bi, blockInfo (blks s) !! index cfg (Z.quot c n) = Some bi /\ blockState bi = BLOCK_STATE_EMPTY) \/
  (Z.quot c n = allocationBlock (blks s) /\ allocationPage (blks s) <= Z.rem c n).

Definition block_blank (s : State N) (blk : Z) : Prop :=
  forall c, valid_chunk cfg c -> Z.quot c n = blk -> blank (nand s) c.

(** What can be handed out is erased. *)
Record stocked (s : State N) : Prop := {
  sk_blank : forall c, valid_chunk cfg c -> allocatable s c -> blank (nand s) c;
  sk_alloc : forall bi, valid_block cfg (allocationBlock (blks s)) ->
    blockInfo (blks s) !! index cfg (allocationBlock (blks s)) = Some bi ->
    blockState bi = BLOCK_STATE_ALLOCATING
}.

(** No chunk has come into use. *)
Definition none_new (s s' : State N) : Prop :=
  forall c, valid_chunk cfg c -> in_use cfg s' c -> in_use cfg s c.
Definition tidy (s s' : State N) : Prop := stocked s' /\ none_new s s'.

Lemma tidy_refl s : stocked s -> tidy s s.
Proof. intros H. split; [done|]. by intros c. Qed.
Lemma tidy_trans s1 s2 s3 : tidy s1 s2 -> tidy s2 s3 -> tidy s1 s3.
Proof. intros [_ H1] [K2 H2]. split; [done|]. intros c Hv Hc. apply H1, H2; done. Qed.

Lemma none_new_bits s s' : chunkBits (blks s') = chunkBits (blks s) -> none_new s s'.
Proof. intros Hb c _. unfold in_use. by rewrite Hb. Qed.

(** Steps that change neither blocks nor allocator. *)
Lemma tidy_nand s s' :
  stocked s -> blockInfo (blks s') = blockInfo (blks s) ->
  allocationBlock (blks s') = allocationBlock (blks s) ->
  allocationPage (blks s') = allocationPage (blks s) -> chunkBits (blks s') = chunkBits (blks s) ->
  (forall c, valid_chunk cfg c -> allocatable s c -> blank (nand s) c -> blank (nand s') c) -> tidy s s'.
Proof.
  intros [Hb Ha] Hi Hab Hap Hbits Hn. split; [|by apply none_new_bits]. split.
  - intros c Hv. unfold allocatable. rewrite Hi, Hab, Hap. intros Hc. apply Hn; [done|exact Hc|].
    apply Hb; [done|exact Hc].
  - rewrite Hi, Hab. exact Ha.
Qed.

Lemma tidy_same s s' :
  stocked s -> blockInfo (blks s') = blockInfo (blks s) ->
  allocationBlock (blks s') = allocationBlock (blks s) ->
  allocationPage (blks s') = allocationPage (blks s) -> chunkBits (blks s') = chunkBits (blks s) ->
  nand s' = nand s -> tidy s s'.
Proof. intros H Hi Hab Hap Hb Hn. apply tidy_nand; try done. by rewrite Hn. Qed.

(** New information on one block. *)
Lemma tidy_info blk bi bi' s s' :
  stocked s -> valid_block cfg blk -> blockInfo (blks s) !! index cfg blk = Some bi ->
  blockInfo (blks s') = <[index cfg blk := bi']> (blockInfo (blks s)) ->
  allocationBlock (blks s') = allocationBlock (blks s) ->
  allocationPage (blks s') = allocationPage (blks s) -> chunkBits (blks s') = chunkBits (blks s) ->
  nand s' = nand s ->
  (blockState bi' = BLOCK_STATE_EMPTY -> blockState bi = BLOCK_STATE_EMPTY \/ block_blank s blk) ->
  (blockState bi = BLOCK_STATE_ALLOCATING -> blockState bi' = BLOCK_STATE_ALLOCATING) -> tidy s s'.
Proof.
  intros [Hbl Ha] Hv Hb Hi Hab Hap Hbits Hn He Hal. split; [|by apply none_new_bits]. split.
  - intros c Hvc. rewrite Hn. unfold allocatable. rewrite Hi, Hab, Hap.
    intros [(x & Hx & Hxe)|Hc]; [|apply Hbl; [done|by right]].
    destruct (chunk_place cfg Hcfg c Hvc) as (Hvb & _).
    apply (lookup_insert_block cfg _ _ bi) in Hx as [[Hq ->]|[_ Hx]]; [..|done|done|done].
    + destruct (He Hxe) as [He'|He']; [|by apply He'].
      apply Hbl; [done|]. left. exists bi. by rewrite Hq.
    + apply Hbl; [done|]. left. by exists x.
  - rewrite Hi, Hab. intros x Hva Hx.
    apply (lookup_insert_block cfg _ _ bi) in Hx as [[Hq ->]|[_ Hx]]; [..|done|done|done]; [|by apply Ha].
    apply Hal, Ha; [done|by rewrite Hq].
Qed.

(** Error flags. *)
Lemma tidy_frame s s' :
  stocked s -> frame s s' -> (forall c, blank (nand s) c -> blank (nand s') c) -> tidy s s'.
Proof.
  intros [Hbl Ha] Hf Hn. split; [|by apply none_new_bits, Hf].
  assert (Hback : forall i x, blockInfo (blks s') !! i = Some x ->
    exists y, blockInfo (blks s) !! i = Some y /\ blockState x = blockState y).
  { intros i x Hx. eapply Forall2_lookup_r in Hx as (y & Hy & Hs); [|apply Hf].
    exists y. split; [done|apply Hs]. }
  split.
  - intros c Hv Hc. apply Hn, Hbl; [done|]. unfold allocatable in *.
    rewrite (fr_ablock _ _ Hf), (fr_apage _ _ Hf) in Hc. destruct Hc as [(x & Hx & He)|Hc]; [left|by right].
    destruct (Hback _ _ Hx) as (y & Hy & Hst). exists y. by rewrite <- Hst.
  - rewrite (fr_ablock _ _ Hf). intros x Hv Hx. destruct (Hback _ _ Hx) as (y & Hy & ->). by apply Ha.
Qed.

(** A block that is neither empty nor being filled can be erased or marked. *)
Definition out_of_stock (s : State N) (blk : Z) : Prop :=
  blk <> allocationBlock (blks s) /\
  forall bi, blockInfo (blks s) !! index cfg blk = Some bi -> blockState bi <> BLOCK_STATE_EMPTY.

Lemma tidy_block blk s n' :
  stocked s -> out_of_stock s blk ->
  (forall c, valid_chunk cfg c -> Z.quot c n <> blk -> blank (nand s) c -> blank n' c) ->
  tidy s (s <| nand := n' |>).
Proof.
  intros Hs [Ho1 Ho2] Hn. apply tidy_nand; try done. intros c Hv Hc Hb. simp_fields. apply Hn; [done| |done].
  intros Hq. unfold allocatable in Hc. rewrite Hq in Hc. destruct Hc as [(x & Hx & He)|[He _]]; [|done].
  by apply (Ho2 x).
Qed.

(** A block in another state is not the one being filled. *)
Lemma out_of_stock_state s blk bi :
  stocked s -> valid_block cfg blk -> blockInfo (blks s) !! index cfg blk = Some bi ->
  blockState bi <> BLOCK_STATE_ALLOCATING -> blockState bi <> BLOCK_STATE_EMPTY -> out_of_stock s blk.
Proof.
  intros [_ Ha] Hv Hb H1 H2. split.
  - intros ->. by apply H1, Ha.
  - intros x Hx. rewrite Hb in Hx. by injection Hx as <-.
Qed.

(** ** The checkpoint *)

Lemma checkpoint_erase_block_tidy i s :
  stocked s -> valid_block cfg i -> pc (checkpoint_erase_block cfg i) (fun _ s' => tidy s s') s.
Proof.
  intros Hc Hv. unfold checkpoint_erase_block, modB. apply pc_bind, pc_GetBlockInfo. intros bi _ Hb.
  apply pc_when. destruct (is_state _ _) eqn:Hs; [|by apply tidy_refl].
  apply bool_decide_eq_true in Hs.
  assert (Hout : out_of_stock s i) by (by eapply out_of_stock_state; [..|rewrite Hs|rewrite Hs]).
  apply pc_bind, pc_on_nand. set (e := drv_eraseBlock _ _).
  assert (H1 : tidy s (s <| nand := snd e |>)).
  { eapply tidy_block; [done|exact Hout|]. intros c Hvc Hq. by apply nb_erase. }
  destruct (ztrue (fst e)) eqn:He.
  - apply pc_bind, pc_set_block_info. intros bi' _ Hb'. simp_fields_in Hb'. rewrite Hb in Hb'. injection Hb' as <-.
    pc_steps. eapply tidy_trans; [exact H1|].
    apply (tidy_info i bi (bi <| blockState := BLOCK_STATE_EMPTY |>)); try done; [apply H1| |by rewrite Hs].
    intros _. right. intros c Hvc Hq. by apply nb_erased.
  - apply pc_bind, pc_of_option. intros mark Hm. apply pc_bind, pc_on_nand. simp_fields.
    assert (Hoff : blockOffset cfg = 0).
    { destruct Halign as [H|H]; [done|]. unfold e in He. by rewrite H in He. }
    apply pc_set_block_info. intros bi' _ Hb'. simp_fields_in Hb'. rewrite Hb in Hb'. injection Hb' as <-.
    eapply tidy_trans; [exact H1|]. set (s1 := s <| nand := snd e |>) in *.
    assert (H2 : tidy s1 (s1 <| nand := snd (mark i (snd e)) |>)).
    { eapply (tidy_block i); [apply H1|exact Hout|]. intros c Hvc Hq. unfold s1. simp_fields.
      apply nb_mark; [done|done|]. by rewrite Hoff, Z.add_0_r. }
    eapply tidy_trans; [exact H2|].
    apply (tidy_info i bi (bi <| blockState := BLOCK_STATE_DEAD |>)); try done; [apply H2|by rewrite Hs].
Qed.

Lemma CheckpointErase_tidy s :
  stocked s -> pc (yaffs_CheckpointErase cfg) (fun _ s' => tidy s s') s.
Proof.
  intros Hc. unfold yaffs_CheckpointErase, modC.
  eapply pc_seq; [apply (pc_for_each (fun s' => tidy s s')); [by apply tidy_refl|]|].
  - intros i s' Hi%elem_of_seqZ Hs'. eapply pc_mono.
    { apply checkpoint_erase_block_tidy; [apply Hs'|unfold valid_block, nBlocks in *; lia]. }
    intros [] s'' Hs''. by eapply tidy_trans.
  - intros [] s' Hs'. pc_steps. eapply tidy_trans; [exact Hs'|]. apply tidy_same; [apply Hs'|done..].
Qed.

Lemma InvalidateCheckpoint_tidy s :
  stocked s -> pc (yaffs_InvalidateCheckpoint cfg) (fun _ s' => tidy s s') s.
Proof.
  intros Hc. unfold yaffs_InvalidateCheckpoint, getC, modC. do 5 pc_step.
  destruct (_ || _); [|by apply tidy_refl]. apply pc_bind, pc_modify.
  set (s1 := s <| ckpt ::= _ |>). assert (Hc1 : tidy s s1) by (by apply tidy_same).
  apply (pc_seq _ _ (fun _ s' => tidy s s')).
  - unfold yaffs_CheckpointInvalidateStream, yaffs_CheckpointSpaceOk, getB. do 2 pc_step. pc_step.
    pc_step. apply pc_if. destruct (negb _); [by apply pc_ret|].
    eapply pc_mono; [apply CheckpointErase_tidy, Hc1|]. intros r s' Hs'. by eapply tidy_trans.
  - intros r s' Hs'. apply pc_when. destruct (hasSuperBlock cfg); [|done]. apply pc_modify.
    eapply tidy_trans; [exact Hs'|]. apply tidy_same; [apply Hs'|done..].
Qed.

(** Only blocks of the checkpoint change. *)
Definition block_is (blk : Z) (bi : BlockInfo) (s : State N) : Prop :=
  blockInfo (blks s) !! index cfg blk = Some bi.

Lemma checkpoint_erase_block_other i blk bi s :
  valid_block cfg i -> valid_block cfg blk -> block_is blk bi s -> blockState bi <> BLOCK_STATE_CHECKPOINT ->
  pc (checkpoint_erase_block cfg i) (fun _ => block_is blk bi) s.
Proof.
  intros Hi Hv Hb Hne. unfold checkpoint_erase_block, modB, block_is in *. apply pc_bind, pc_GetBlockInfo. intros bi0 _ Hb0.
  apply pc_when. destruct (is_state _ _) eqn:Hs; [|done]. apply bool_decide_eq_true in Hs.
  assert (Hidx : index cfg i <> index cfg blk) by (intros He; rewrite He, Hb in Hb0; by injection Hb0 as <-).
  apply pc_bind, pc_on_nand. destruct (ztrue _).
  - apply pc_bind, pc_set_block_info. intros bi' _ Hb'. pc_steps. unfold with_infos. simp_fields.
    by rewrite list_lookup_insert_ne.
  - apply pc_bind, pc_of_option. intros mark _. apply pc_bind, pc_on_nand. apply pc_set_block_info.
    intros bi' _ Hb'. unfold with_infos. simp_fields. by rewrite list_lookup_insert_ne.
Qed.

Lemma InvalidateCheckpoint_other blk bi s :
  valid_block cfg blk -> block_is blk bi s -> blockState bi <> BLOCK_STATE_CHECKPOINT ->
  pc (yaffs_InvalidateCheckpoint cfg) (fun _ => block_is blk bi) s.
Proof.
  intros Hv Hb Hne. unfold yaffs_InvalidateCheckpoint, getC, modC. do 5 pc_step.
  destruct (_ || _); [|done]. apply pc_bind, pc_modify.
  apply (pc_seq _ _ (fun _ => block_is blk bi)).
  - unfold yaffs_CheckpointInvalidateStream, yaffs_CheckpointSpaceOk, getB, yaffs_CheckpointErase, modC.
    do 2 pc_step. pc_step. pc_step. apply pc_if. destruct (negb _); [by apply pc_ret|].
    eapply pc_seq; [apply (pc_for_each (block_is blk bi)); [done|]|].
    + intros i s' Hi%elem_of_seqZ Hs'.
      apply checkpoint_erase_block_other; [unfold valid_block, nBlocks in *; lia|done..].
    + intros [] s' Hs'. by pc_steps.
  - intros r s' Hs'. apply pc_when. destruct (hasSuperBlock cfg); [by apply pc_modify|done].
Qed.

(** ** Dirty blocks *)

Lemma dirty_out s blk bi :
  stocked s -> valid_block cfg blk -> block_is blk bi s -> blockState bi = BLOCK_STATE_DIRTY ->
  out_of_stock s blk.
Proof. intros Hs Hv Hb Hd. by eapply out_of_stock_state; [..|rewrite Hd|rewrite Hd]. Qed.

Lemma RetireBlock_tidy blk s bi :
  stocked s -> valid_block cfg blk -> block_is blk bi s -> blockState bi = BLOCK_STATE_DIRTY ->
  pc (yaffs_RetireBlock cfg blk) (fun _ s' => tidy s s') s.
Proof.
  intros Hc Hv Hb Hs. unfold yaffs_RetireBlock, modS. apply pc_bind, pc_GetBlockInfo. intros _ _ _.
  eapply pc_seq; [apply pc_and; [by apply InvalidateCheckpoint_tidy|
    apply (InvalidateCheckpoint_other blk bi); [done|done|by rewrite Hs]]|].
  intros [] s1 [H1 Hb1]. apply (pc_seq _ _ (fun _ s' => tidy s s' /\ block_is blk bi s')).
  - destruct Haware as [mark Hm]. unfold yaffs_MarkBlockBad. rewrite Hm. apply pc_on_nand.
    split; [|done]. eapply tidy_trans; [exact H1|].
    eapply (tidy_block blk); [apply H1|by eapply dirty_out; [apply H1|..]|]. intros c Hvc Hq.
    apply nb_mark; [done|done|]. by rewrite Z.sub_add.
  - intros r s2 [H2 Hb2]. apply pc_bind, pc_set_block_info. intros bi2 _ Hb2'. pc_steps.
    unfold block_is in Hb2. rewrite Hb2 in Hb2'. injection Hb2' as <-.
    eapply tidy_trans; [exact H2|]. eapply (tidy_info blk bi); [apply H2|exact Hv|exact Hb2|done..|by rewrite Hs].
Qed.

Lemma CheckFF_all m : CheckFF_loop m (replicate m 255) = Some true.
Proof. induction m as [|m IH]; [done|]. exact IH. Qed.

(** An erased page passes the check. *)
Lemma CheckChunkErased_tidy chunk s :
  stocked s -> tables_ok cfg (blks s) -> valid_chunk cfg chunk ->
  pc (yaffs_CheckChunkErased cfg chunk) (fun r s' => tidy s s' /\ frame s s' /\
    (forall c, blank (nand s) c -> blank (nand s') c) /\ (blank (nand s) chunk -> r = YAFFS_OK)) s.
Proof.
  intros Hc Ht Hv. unfold yaffs_CheckChunkErased.
  eapply pc_seq; [apply pc_and; [apply pc_wp, (nf_read chunk _ _ s); [done|done|by apply temp_buffer_ok]|
    apply nb_read]|].
  intros [[r d] t] s1 [[[Hf _] _] [Hbl Hrd]]; cbn [fst snd] in *. apply pc_bind, pc_of_option. intros d' Hd.
  apply pc_bind, pc_of_option. intros ff Hff. apply pc_ret. split; [by apply tidy_frame|].
  split; [done|]. split; [done|]. intros Hb. destruct (Hrd Hb) as (Hd2 & Hu & He); [by apply temp_buffer_ok|].
  rewrite Hd2 in Hd. injection Hd as <-. unfold yaffs_CheckFF in Hff.
  assert (Hl : length (temp_buffer cfg) = Z.to_nat (nDataBytesPerChunk cfg)) by (unfold temp_buffer; by rewrite length_resize).
  rewrite Hl, CheckFF_all in Hff. injection Hff as <-. by rewrite Hu, He.
Qed.

Lemma ClearChunkBits_none_new blk s :
  tables_ok cfg (blks s) -> valid_block cfg blk -> stocked s ->
  pc (yaffs_ClearChunkBits cfg blk) (fun _ s' => tidy s s') s.
Proof.
  intros Ht Hv Hs. apply pc_wp, (wp_ClearChunkBits cfg Hcfg); [done|done|]. intros bits' _ _ Hbits.
  unfold with_bits. split; [destruct Hs as [Hb Ha]; split; [exact Hb|exact Ha]|].
  intros c Hvc. destruct (chunk_place cfg Hcfg c Hvc) as (Hvb & Hr & _). unfold in_use. simp_fields.
  rewrite Hbits by (done || by apply knum_range). by destruct (_ =? _).
Qed.

Lemma BlockBecameDirty_tidy blk s bi :
  calm cfg s -> stocked s -> valid_block cfg blk -> block_is blk bi s ->
  blockState bi <> BLOCK_STATE_ALLOCATING -> used cfg (chunkBits (blks s)) (knum cfg blk) = 0 ->
  pc (yaffs_BlockBecameDirty cfg blk) (fun _ s' => tidy s s') s.
Proof.
  intros Hcalm Hc Hv Hb Hst Hu. unfold yaffs_BlockBecameDirty. apply pc_bind, pc_GetBlockInfo.
  intros bi_ _ Hb_. unfold block_is in Hb. rewrite Hb in Hb_. injection Hb_ as <-.
  apply pc_bind, pc_set_block_info. intros bi' _ Hb'. rewrite Hb in Hb'. injection Hb' as <-.
  set (bi1 := bi <| blockState := BLOCK_STATE_DIRTY |>). set (s1 := with_infos _ s).
  assert (H1 : tidy s s1) by (by apply (tidy_info blk bi bi1)).
  assert (K1 : block_is blk bi1 s1).
  { unfold block_is, s1, with_infos. simp_fields. exact (list_lookup_insert_eq _ _ _ (lookup_lt_Some _ _ _ Hb)). }
  assert (C1 : calm cfg s1) by by apply (calm_info cfg blk bi (fun x => x <| blockState := BLOCK_STATE_DIRTY |>)).
  apply (pc_seq _ _ (fun e s' => tidy s s' /\ block_is blk bi1 s' /\ calm cfg s' /\ (ztrue e = true -> block_blank s' blk))).
  { destruct (needsRetiring bi); [by apply pc_ret|].
    eapply pc_seq; [apply pc_and; [apply pc_and; [apply InvalidateCheckpoint_tidy, H1|
      by apply (InvalidateCheckpoint_other blk bi1)]|by apply (InvalidateCheckpoint_safe cfg Hcfg Halign)]|].
    intros [] s2 [[H2 K2] (C2 & _)].
    unfold yaffs_EraseBlockInNAND, modS. apply pc_bind, pc_bind, pc_modify, pc_on_nand.
    set (s3 := s2 <| stats ::= _ |>). assert (H3 : tidy s s3).
    { eapply tidy_trans; [exact H1|]. eapply tidy_trans; [exact H2|]. by apply tidy_same; [apply H2|..]. }
    assert (K3 : block_is blk bi1 s3) by exact K2.
    simp_fields. set (e := drv_eraseBlock _ _). set (s4 := s3 <| nand := _ |>). assert (H4 : tidy s s4).
    { eapply tidy_trans; [exact H3|]. eapply (tidy_block blk); [apply H3|by eapply dirty_out; [apply H3|..]|].
      intros c Hvc Hq. by apply nb_erase. }
    assert (B4 : ztrue (fst e) = true -> block_blank s4 blk) by (intros He c Hvc Hq; by apply nb_erased).
    pc_steps. destruct (negb _) eqn:He; pc_steps.
    - split; [|split; [exact K3|split; [by apply (calm_same cfg s2)|]]].
      + eapply tidy_trans; [exact H4|]. by apply tidy_same; [apply H4|..].
      + by intros H; rewrite H in He.
    - split; [exact H4|]. split; [exact K3|]. split; [by apply (calm_same cfg s2)|]. exact B4. }
  intros erasedOk s2 (H2 & K2 & C2 & B2).
  apply (pc_seq _ _ (fun _ s' => tidy s s' /\ frame s2 s' /\ (forall c, blank (nand s2) c -> blank (nand s') c))).
  { apply pc_when. destruct (_ && _); [|done].
    apply (pc_for_each (fun s' => tidy s s' /\ frame s2 s' /\ (forall c, blank (nand s2) c -> blank (nand s') c))); [done|].
    intros i s3 Hi%elem_of_seqZ (H3 & F3 & B3). eapply pc_seq; [apply CheckChunkErased_tidy; [apply H3| |]|].
    { eapply frame_tables; [exact F3|apply C2]. }
    { apply (block_chunk cfg Hcfg blk i); [done|lia]. }
    intros r s4 (H4 & F4 & B4 & _). apply pc_ret. split; [by eapply tidy_trans|]. split; [by etransitivity|]. auto. }
  intros [] s3 (H3 & F3 & B3). destruct (frame_lookup _ _ _ _ F3 K2) as (b3 & K3 & Hs3).
  assert (D3 : blockState b3 = BLOCK_STATE_DIRTY) by (by rewrite (bs_state _ _ Hs3)).
  assert (C3 : calm cfg s3) by (by eapply calm_frame). apply pc_if. destruct (ztrue erasedOk).
  - apply pc_bind, pc_set_block_info. intros b3' _ Hi3. rewrite K3 in Hi3. injection Hi3 as <-.
    unfold modB. apply pc_bind, pc_modify. set (s4 := _ <| blks ::= _ |>).
    apply pc_bind, pc_set_block_info. intros b4 _ Hi4.
    assert (Hb4 : b4 = b3 <| blockState := BLOCK_STATE_EMPTY |>).
    { unfold s4, with_infos in Hi4. simp_fields_in Hi4.
      rewrite list_lookup_insert_eq in Hi4 by (by eapply lookup_lt_Some). by injection Hi4. }
    set (s5 := with_infos _ s4). assert (H5 : tidy s3 s5).
    { eapply (tidy_info blk b3); [apply H3|exact Hv|exact K3| |done..| |by rewrite D3].
      - unfold s5, s4, with_infos. simp_fields. by rewrite list_insert_insert_eq, Hb4.
      - intros _. right. intros c Hvc Hq. apply B3, B2; [done..|exact Hvc|exact Hq]. }
    eapply pc_mono; [apply ClearChunkBits_none_new; [|done|apply H5]|].
    + destruct C3 as [[T1 T2 T3] _ _]. unfold s5, s4, with_infos. constructor; simp_fields; [|done|done].
      by rewrite list_insert_insert_eq, length_insert.
    + intros [] s6 H6. eapply tidy_trans; [exact H3|]. exact (tidy_trans _ _ _ H5 H6).
  - unfold modB. apply pc_bind, pc_modify. set (s4 := s3 <| blks ::= _ |>).
    assert (H4 : tidy s s4) by (eapply tidy_trans; [exact H3|]; by apply tidy_same; [apply H3|..]).
    eapply pc_mono; [apply (RetireBlock_tidy blk s4 b3); [apply H4|done|exact K3|done]|].
    intros [] s5 H5. by eapply tidy_trans.
Qed.

(** ** Deleting *)

Lemma clear_bit_tidy blk c s s' b4 bits' :
  stocked s -> valid_block cfg blk -> blockInfo (blks s) !! index cfg blk = Some b4 ->
  bit_changed cfg (chunkBits (blks s)) bits' blk c false ->
  s' = with_infos (<[index cfg blk := b4 <| pagesInUse ::= fun p => swrap 10 (p - 1) |>]> (blockInfo (blks s)))
    (with_bits bits' s) -> tidy s s'.
Proof.
  intros Hs Hv Hb (_ & _ & Hch) ->.
  set (b4' := b4 <| pagesInUse ::= fun p => swrap 10 (p - 1) |>).
  destruct (tidy_info blk b4 b4' s (with_infos (<[index cfg blk := b4']> (blockInfo (blks s))) s)) as [[Hbl Ha] _]; try done.
  { by left. }
  split; [split; [exact Hbl|exact Ha]|].
  intros c' Hvc. destruct (chunk_place cfg Hcfg c' Hvc) as (Hvb & Hr & _).
  unfold in_use, with_infos, with_bits. simp_fields. rewrite Hch by (done || by apply knum_range).
  by destruct (bit_at _ _ _ _).
Qed.

Lemma DeleteChunk_tidy blk c markNAND s bi :
  calm cfg s -> stocked s -> valid_block cfg blk -> 0 <= c < n -> block_is blk bi s ->
  chunk_bit cfg (chunkBits (blks s)) (knum cfg blk) c = true -> ~ allocatable s (blk * n + c) ->
  pc (yaffs_DeleteChunk cfg (blk * n + c) markNAND) (fun _ s' => tidy s s') s.
Proof.
  intros Hcalm Hc Hv Hcn Hb Hbit Hna. destruct (block_chunk cfg Hcfg blk c Hv Hcn) as (Hvc & Hq & Hr).
  fold n in Hvc, Hq, Hr. set (chunk := blk * n + c) in *.
  unfold yaffs_DeleteChunk, modS, modB. apply pc_if. destruct (chunk <=? 0).
  { by apply pc_ret, tidy_refl. }
  fold n. rewrite Hq, Hr. apply pc_bind, pc_modify. set (s1 := s <| stats ::= _ |>).
  apply pc_bind, pc_wp, wp_CheckChunkBit; [done|apply Hcalm|done|done|].
  apply pc_bind, pc_GetBlockInfo. intros bi1 _ Hb1. change (blockInfo (blks s1)) with (blockInfo (blks s)) in Hb1.
  unfold block_is in Hb. rewrite Hb in Hb1. injection Hb1 as <-.
  apply (pc_seq _ _ (fun _ s' => tidy s s' /\ blks s' = blks s)).
  { apply pc_if. destruct (_ && negb (isYaffs2 cfg)).
    - eapply pc_seq; [apply pc_and; [apply pc_wp, nf_write|apply nb_write]|].
      intros [r t] s2 [(_ & Hb2 & _) Hn2]. apply pc_ret. split; [|by rewrite Hb2].
      apply tidy_nand; [done|by rewrite Hb2..|]. intros c' _ Hc' Hbl. apply Hn2; [|exact Hbl].
      by intros ->.
    - apply pc_modify. split; [by apply tidy_same|done]. }
  intros [] s2 [H2 B2]. apply pc_when. destruct (_ || _); [|done].
  apply pc_bind, pc_modify. set (s3 := s2 <| blks ::= _ |>).
  assert (H3 : tidy s s3) by (eapply tidy_trans; [exact H2|]; by apply tidy_same; [apply H2|..]).
  assert (C3 : calm cfg s3).
  { apply (calm_same cfg s); [..|done]; unfold s3; simp_fields; by rewrite B2. }
  apply pc_bind, pc_wp.
  apply (wp_write_chunk_bit cfg Hcfg false blk c); [apply C3|done|done|]. intros bits' Hch.
  apply pc_bind, pc_set_block_info. intros b4 _ Hi4.
  change (blockInfo (blks (with_bits bits' s3))) with (blockInfo (blks s3)) in Hi4 |- *.
  assert (Hbs : b4 = bi).
  { change (blockInfo (blks s3)) with (blockInfo (blks s2)) in Hi4. rewrite B2, Hb in Hi4. by injection Hi4. }
  subst b4. set (s5 := with_infos _ _).
  assert (H5 : tidy s3 s5) by (by eapply (clear_bit_tidy blk c s3 s5 bi bits'); [apply H3|..]).
  assert (C5 : calm cfg s5 /\ kept_but cfg chunk s3 s5).
  { apply (clear_bit_calm cfg Hcfg blk c s3 s3 bi bits'); try done; [apply kept_but_refl|].
    change (chunkBits (blks s3)) with (chunkBits (blks s2)). by rewrite B2. }
  apply pc_bind, pc_GetBlockInfo. intros b5 _ Hi5. apply pc_when.
  assert (Hb5 : b5 = bi <| pagesInUse ::= fun p => swrap 10 (p - 1) |>).
  { unfold s5, with_infos in Hi5. simp_fields_in Hi5.
    rewrite list_lookup_insert_eq in Hi5 by (by eapply lookup_lt_Some). by injection Hi5. }
  destruct ((pagesInUse b5 =? 0) && _ && _ && _) eqn:Hd; [|by eapply tidy_trans].
  rewrite !andb_true_iff in Hd. destruct Hd as [[[Hz%Z.eqb_eq _] Hst] _].
  eapply pc_mono; [apply (BlockBecameDirty_tidy blk s5 b5); [apply C5|apply H5|done|exact Hi5| |]|].
  - intros Hx. unfold is_state in Hst. by rewrite Hx in Hst.
  - rewrite <- Hz. symmetry. by apply (cm_pages cfg s5 (proj1 C5)).
  - intros [] s6 H6. eapply tidy_trans; [exact H3|]. exact (tidy_trans _ _ _ H5 H6).
Qed.

(** ** Handing out a chunk *)

(** Chunk [r] may have come into use. *)
Definition none_new_but (r : Z) (s s' : State N) : Prop :=
  forall c, valid_chunk cfg c -> in_use cfg s' c -> in_use cfg s c \/ c = r.

Lemma in_use_not_allocatable s c :
  blocks_ok cfg 0 0 (blks s) -> valid_chunk cfg c -> in_use cfg s c -> ~ allocatable s c.
Proof.
  intros Hok Hvc Hu. destruct (chunk_place cfg Hcfg c Hvc) as (Hv & Hr & _). fold n in Hr, Hv.
  unfold in_use in Hu. fold n in Hu. intros [(bi & Hb & He)|[Hq Hp]].
  - destruct (ok_block _ _ _ _ Hok _ bi Hv Hb) as [Hpg _ Hem _].
    rewrite Hem in Hpg by (by left). by rewrite (used_zero_inv cfg _ _ (Z.rem c n) (eq_sym Hpg) Hr) in Hu.
  - destruct (ok_alloc _ _ _ _ Hok) as [_ _ _ Af]. rewrite <- Hq in Af.
    rewrite Af in Hu; [done|done|fold n; lia].
Qed.

Lemma stocked_alloc s :
  blocks_ok cfg 0 0 (blks s) -> (forall c, valid_chunk cfg c -> allocatable s c -> blank (nand s) c) -> stocked s.
Proof.
  intros Hok Hb. split; [done|]. intros bi Hv Hi. by apply (al_state _ _ (ok_alloc _ _ _ _ Hok) _ bi Hv Hi).
Qed.

(** The chunk handed out was erased, and what is left in stock was in stock before. *)
Lemma allocated_stock s s1 chunk blk page :
  blocks_ok cfg 0 0 (blks s) -> blocks_ok cfg 0 0 (blks s1) -> stocked s -> nand s1 = nand s ->
  allocated cfg s s1 chunk blk page ->
  stocked s1 /\ blank (nand s1) chunk /\ none_new_but chunk s s1 /\ ~ allocatable s1 chunk.
Proof.
  intros Hok Hok1 Hst Hn Hal.
  pose proof Hal as [Hv Hp Hc Hfree (_ & _ & Hch) (bi & bi' & Hb & Hi & Hcase & Hst' & _) Hab Hap _].
  destruct (block_chunk cfg Hcfg blk page Hv Hp) as (Hvc & Hq & Hr). fold n in Hvc, Hq, Hr, Hp, Hc.
  rewrite <- Hc in Hvc, Hq, Hr.
  assert (Hback : forall c, valid_chunk cfg c -> (Z.quot c n = blk -> page <= Z.rem c n) ->
    Z.quot c n = blk \/ allocatable s1 c -> allocatable s c).
  { intros c Hvc' Hpg Hc'. destruct (chunk_place cfg Hcfg c Hvc') as (Hvb & _). unfold allocatable in *.
    destruct (decide (Z.quot c n = blk)) as [Heq|Hne].
    - rewrite Heq. destruct Hcase as [(He & _ & _)|(_ & Hab0 & Hpg0)].
      + left. by exists bi.
      + right. split; [done|]. rewrite <- Hpg0. by apply Hpg.
    - destruct Hc' as [?|[(x & Hx & He)|[Hx _]]]; [done| |].
      + left. exists x. split; [|done]. rewrite Hi in Hx.
        by apply (lookup_insert_block cfg _ _ bi) in Hx as [[? _]|[_ Hx]].
      + exfalso. fold n in Hab. rewrite Hab in Hx. destruct (n <=? page + 1); [|done].
        fold n in Hvb. rewrite Hx in Hvb. by apply minus_one_invalid in Hvb. }
  assert (Hfull : forall x, blockInfo (blks s1) !! index cfg blk = Some x -> blockState x <> BLOCK_STATE_EMPTY).
  { intros x Hx. rewrite Hi, list_lookup_insert_eq in Hx by (by eapply lookup_lt_Some). injection Hx as <-.
    rewrite Hst'. by destruct (_ <=? _). }
  split; [|split; [|split]].
  - apply (stocked_alloc s1 Hok1). intros c Hvc' Hc'. rewrite Hn. apply (sk_blank s Hst); [done|].
    apply Hback; [done| |by right]. intros Heq. unfold allocatable in Hc'. rewrite Heq in Hc'.
    destruct Hc' as [(x & Hx & He)|[Hx Hle]]; [by apply Hfull in Hx|]. lia.
  - rewrite Hn. apply (sk_blank s Hst); [done|]. apply Hback; [done|lia|by left].
  - intros c Hvc' Hu. destruct (chunk_place cfg Hcfg c Hvc') as (Hvb & Hrc & Hcc). fold n in Hrc, Hcc.
    unfold in_use in *. fold n in Hu |- *. rewrite Hch in Hu by (done || by apply knum_range).
    unfold bit_at in Hu. destruct (Z.eqb_spec (knum cfg (Z.quot c n)) (knum cfg blk)) as [Hk|]; [|by left].
    destruct (Z.eqb_spec (Z.rem c n) page) as [Hpg|]; [|by left]. right.
    assert (Z.quot c n = blk) by (unfold knum in Hk; lia). lia.
  - apply in_use_not_allocatable; [done|done|]. unfold in_use. fold n. rewrite Hq, Hr.
    rewrite Hch by (done || by apply knum_range). unfold bit_at. by rewrite !Z.eqb_refl.
Qed.

Lemma ready_stock s s1 :
  ready cfg s s1 -> stocked s -> nand s1 = nand s -> tidy s s1.
Proof.
  intros (Hok1 & Hbits & _ & _ & _ & Hcase) Hst Hn. split; [|by apply none_new_bits].
  apply (stocked_alloc s1 Hok1). intros c Hvc Hc. rewrite Hn. apply (sk_blank s Hst); [done|].
  unfold allocatable in *. destruct (chunk_place cfg Hcfg c Hvc) as (Hvb & _).
  destruct Hcase as [[Hb _]|[(_ & Hpg & Hv & bi & q & Hb & He & Hi)|(_ & Hab & _ & Hi)]].
  - by rewrite Hb in Hc.
  - rewrite Hi in Hc. destruct Hc as [(x & Hx & Hxe)|[Hq _]].
    + apply (lookup_insert_block cfg _ _ bi) in Hx as [[_ ->]|[_ Hx]]; [done| |done..]. left. by exists x.
    + left. exists bi. by rewrite Hq.
  - rewrite Hi in Hc. destruct Hc as [Hc|[Hq _]]; [by left|]. fold n in Hvb. rewrite Hq, Hab in Hvb.
    by apply minus_one_invalid in Hvb.
Qed.

Lemma none_new_but_then r s1 s2 s3 : none_new_but r s1 s2 -> none_new s2 s3 -> none_new_but r s1 s3.
Proof. intros H1 H2 c Hv Hc. apply H1; [done|]. by apply H2. Qed.

(** The chunk that was handed out is deleted again. *)
Lemma fresh_delete_tidy s s1 chunk blk page markNAND :
  fresh cfg s s1 chunk blk page -> none_new_but chunk s s1 -> stocked s1 ->
  pc (yaffs_DeleteChunk cfg chunk markNAND) (fun _ s2 => tidy s s2) s1.
Proof.
  intros Hfr Hsh Hst. pose proof (fresh_used _ _ _ _ _ _ Hfr) as Hbit.
  pose proof Hfr as [Hok Hv Hp Hc _ _ (bi & Hb & Hin & Hsoft) _]. rewrite Hc. fold n in Hp, Hc.
  destruct (block_chunk cfg Hcfg blk page Hv Hp) as (Hvc & Hq & Hr). fold n in Hvc, Hq, Hr.
  assert (Huse : in_use cfg s1 (blk * n + page)) by (unfold in_use; fold n; by rewrite Hq, Hr).
  eapply pc_mono.
  { apply pc_and; [apply (DeleteChunk_tidy blk page markNAND s1 bi); try done|
      apply pc_wp, (DeleteChunk_spec cfg Hcfg Haware blk page markNAND s1 bi); done].
    - by eapply calm_ok.
    - by apply in_use_not_allocatable. }
  intros [] s2 [[Hst2 Hsh2] (_ & _ & Hcl & _)]. split; [done|]. intros c Hvc' Hu.
  destruct (Hsh c Hvc') as [H|H]; [by apply Hsh2|done|]. exfalso. rewrite H, Hc in Hu.
  unfold in_use in Hu. fold n in Hu. rewrite Hq, Hr in Hu.
  rewrite Hcl in Hu by (done || by apply knum_range). unfold bit_at in Hu. by rewrite !Z.eqb_refl in Hu.
Qed.

(** ** Writing *)

Lemma none_new_any r s s' : none_new s s' -> none_new_but r s s'.
Proof. intros H c Hv Hc. left. by apply H. Qed.

Lemma none_new_but_first r s1 s2 s3 : none_new s1 s2 -> none_new_but r s2 s3 -> none_new_but r s1 s3.
Proof. intros H1 H2 c Hv Hc. destruct (H2 c Hv Hc); [left; by apply H1|by right]. Qed.

Lemma HandleWriteChunkError_tidy s s1 chunk blk page erasedOk :
  fresh cfg s s1 chunk blk page -> none_new_but chunk s s1 -> stocked s1 ->
  pc (yaffs_HandleWriteChunkError cfg chunk erasedOk) (fun _ s2 => tidy s s2) s1.
Proof.
  intros Hfr Hsh Hst. pose proof Hfr as [Hok Hv Hp Hc _ _ _ _].
  destruct (block_chunk cfg Hcfg blk page Hv Hp) as (_ & Hq & _). fold n in Hq, Hc.
  unfold yaffs_HandleWriteChunkError. fold n. rewrite Hc, Hq, <- Hc.
  apply pc_bind, pc_GetBlockInfo. intros bi Hlo Hb.
  eapply pc_seq.
  { apply pc_and; [apply pc_wp, (HandleChunkError_frame cfg blk s1); [apply Hok|done]|].
    by apply (HandleChunkError_nand cfg (nand s1)). }
  intros [] s2 [Hf2 Hn2].
  apply (pc_seq _ _ (fun _ s3 => frame_at cfg blk s1 s3 /\ nand s3 = nand s1)).
  { apply pc_when. destruct erasedOk; [|done].
    destruct (frame_lookup _ _ _ _ (proj1 Hf2) Hb) as (bi2 & Hb2 & _).
    eapply pc_mono; [apply pc_and; [apply pc_wp; by eapply (wp_flag cfg blk); [done|exact Hb2|]|
      by apply (set_block_info_nand cfg (nand s1))]|].
    intros [] s3 [[Hf3 _] Hn3]. split; [by etransitivity|done]. }
  intros [] s3 [Hf3 Hn3]. apply (fresh_delete_tidy s s3 chunk blk page).
  - by eapply fresh_frame.
  - eapply none_new_but_then; [exact Hsh|apply none_new_bits, Hf3].
  - apply (tidy_frame s1 s3 Hst (proj1 Hf3)). intros c. by rewrite Hn3.
Qed.

Definition attempt_tidy (s : State N) (a : attempt) (s' : State N) : Prop :=
  stocked s' /\ match a with
  | NoSpace => none_new s s'
  | Tried chunk writeOk _ _ => if writeOk =? YAFFS_OK then none_new_but chunk s s' else none_new s s'
  end.

(** A pass of the write loop takes no page but the one it writes. *)
Lemma write_attempt_tidy data useReserve attempts tags s :
  blocks_ok cfg 0 0 (blks s) -> stocked s ->
  pc (write_attempt cfg data useReserve attempts YAFFS_FAIL tags) (attempt_tidy s) s.
Proof.
  intros Hok Hs. unfold write_attempt.
  eapply pc_seq; [apply pc_and; [by apply pc_wp, (AllocateChunk_spec cfg Hcfg)|
    by apply (AllocateChunk_nand cfg (nand s))]|].
  intros [chunk blk] s1 [(Hok1 & Hgc1 & [(Hc & Hbits & _ & _ & Hrd)|(page & Hal & _)]) Hn1]; cbn [fst snd] in *.
  { subst chunk. apply pc_ret. by apply ready_stock. }
  pose proof (allocated_fresh cfg s s1 chunk blk page Hok Hok1 Hgc1 Hal) as Hfr.
  destruct (allocated_stock s s1 chunk blk page Hok Hok1 Hs Hn1 Hal) as (Hst1 & Hbl1 & Hsh1 & Hna1).
  pose proof Hfr as [_ Hv Hp Hc _ _ _ _].
  destruct (block_chunk cfg Hcfg blk page Hv Hp) as (Hvc & Hq & _). fold n in Hvc, Hq, Hc.
  rewrite <- Hc in Hvc, Hq.
  assert (Hpos : (chunk <? 0) = false).
  { apply Z.ltb_ge. destruct Hvc. pose proof (c_start _ Hcfg). pose proof (c_npb _ Hcfg). nia. }
  rewrite Hpos. apply pc_bind, pc_GetBlockInfo. intros bi Hlo Hb. apply pc_if. destruct (gcPrioritise bi).
  { eapply pc_seq; [by eapply fresh_delete_tidy|]. intros [] s2 H2. apply pc_ret. exact H2. }
  cbv zeta. apply (pc_seq _ _ (fun r s' => frame_at cfg blk s1 s' /\ tidy s1 s' /\
    (skipErasedCheck bi = true \/ r = YAFFS_OK))).
  { apply pc_if. destruct (skipErasedCheck bi).
    { apply pc_ret. split; [done|]. split; [by apply tidy_refl|by left]. }
    eapply pc_mono; [apply pc_and; [apply pc_wp, (CheckChunkErased_spec cfg Hcfg chunk s1); [apply Hok1|done]|
      apply CheckChunkErased_tidy; [done|apply Hok1|done]]|].
    intros r s2 [Hf (Ht & _ & _ & Hr)]. cbv beta in Hf. fold n in Hf. rewrite Hq in Hf.
    split; [done|]. split; [done|]. right. by apply Hr. }
  intros erasedOk s2 (Hf2 & Ht2 & Her). pose proof (fresh_frame cfg _ _ _ _ _ _ Hfr Hf2) as Hfr2.
  assert (Hcond : negb (skipErasedCheck bi) && negb (erasedOk =? YAFFS_OK) = false).
  { destruct Her as [-> | ->]; [done|]. by rewrite andb_false_r. }
  rewrite Hcond.
  apply (pc_seq _ _ (fun _ s' => fresh cfg s s' chunk blk page /\ tidy s1 s')).
  { apply pc_when. destruct (negb _); [|done]. apply pc_set_block_info. intros bi2 _ Hb2.
    split; [by apply (fresh_skip cfg s s2)|]. eapply tidy_trans; [exact Ht2|].
    eapply (tidy_info blk bi2); [apply Ht2|exact Hv|exact Hb2|done..| |done]. by left. }
  intros [] s3 [Hfr3 Ht3].
  assert (Hsh3 : none_new_but chunk s s3) by (eapply none_new_but_then; [exact Hsh1|apply Ht3]).
  assert (Hna3 : ~ allocatable s3 chunk).
  { pose proof (fresh_used _ _ _ _ _ _ Hfr3) as Hbit. apply in_use_not_allocatable; [apply Hfr3|done|].
    unfold in_use. destruct (block_chunk cfg Hcfg blk page Hv Hp) as (_ & Hq' & Hr').
    fold n in Hq', Hr' |- *. by rewrite Hc, Hq', Hr'. }
  eapply pc_seq; [apply pc_and; [apply pc_wp, (nf_write chunk data tags s3)|
    apply (nb_write chunk data tags s3)]|].
  intros [w tags'] s4 [(Hw & Hb4 & Hck4) Hn4]. cbn [fst] in Hw.
  assert (Hfr4 : fresh cfg s s4 chunk blk page) by (eapply fresh_frame; [exact Hfr3|by apply frame_at_eq]).
  assert (Ht4 : tidy s3 s4).
  { apply tidy_nand; [apply Ht3|by rewrite Hb4..|]. intros c _ Hc' Hbl. apply Hn4; [|done]. by intros ->. }
  assert (Hsh4 : none_new_but chunk s s4) by (eapply none_new_but_then; [exact Hsh3|apply Ht4]).
  destruct (Z.eqb_spec w YAFFS_OK) as [->|Hne]; cbn [negb].
  - apply pc_bind, pc_ret, pc_ret. split; [apply Ht4|exact Hsh4].
  - eapply pc_seq; [by apply (HandleWriteChunkError_tidy s s4 chunk blk page); [..|apply Ht4]|].
    intros [] s5 H5. apply pc_ret. split; [apply H5|]. rewrite (proj2 (Z.eqb_neq w _)) by done. apply H5.
Qed.

Lemma write_loop_tidy data useReserve fuel attempts tags s :
  blocks_ok cfg 0 0 (blks s) -> stocked s ->
  pc (write_loop cfg fuel data useReserve attempts YAFFS_FAIL tags)
    (fun r s' => stocked s' /\ none_new_but (fst r) s s') s.
Proof.
  revert attempts tags s. induction fuel as [|fuel IH]; intros attempts tags s Hok Hs.
  { apply pc_fail. }
  cbn [write_loop]. eapply pc_seq; [apply pc_and; [by apply pc_wp, (write_attempt_spec cfg Hcfg Haware)|
    by apply write_attempt_tidy]|].
  intros a s1 [(Hok1 & _ & _ & Ha) [Hs1 Ht]]. destruct a as [|chunk writeOk attempts' tags'].
  { apply pc_ret. split; [done|by apply none_new_any]. }
  assert (Hw : writeOk = YAFFS_FAIL \/ writeOk = YAFFS_OK).
  { destruct Ha as [_ [(-> & _)|(_ & [-> | [-> | (-> & _)]])]]; auto. }
  destruct Hw as [-> | ->].
  - apply pc_if. destruct (_ && _); [|by apply pc_ret; split; [done|by apply none_new_any]].
    eapply pc_mono; [by apply IH|]. intros r s2 [Hs2 H2]. split; [done|]. exact (none_new_but_first _ _ _ _ Ht H2).
  - cbn [Z.eqb YAFFS_OK negb andb ztrue]. apply pc_ret. by split.
Qed.

Lemma WriteNewChunk_tidy data tags useReserve s :
  blocks_ok cfg 0 0 (blks s) -> stocked s ->
  pc (yaffs_WriteNewChunkWithTagsToNAND cfg data tags useReserve) (fun chunk s' =>
    stocked s' /\ none_new_but chunk s s') s.
Proof.
  intros Hok Hs. unfold yaffs_WriteNewChunkWithTagsToNAND, modS.
  eapply pc_seq; [apply pc_and; [by apply pc_wp, (InvalidateCheckpoint_spec cfg Haware 0 0)|
    by apply InvalidateCheckpoint_tidy]|].
  intros [] s1 [[Hok1 _] [Hs1 Hsh1]]. eapply pc_seq; [by apply write_loop_tidy|].
  intros [chunk attempts] s2 [Hs2 Hsh2]. cbn [fst] in Hsh2.
  apply (pc_seq _ _ (fun _ s' => tidy s2 s')).
  - apply pc_when. destruct (1 <? attempts); [apply pc_modify; by apply tidy_same|by apply tidy_refl].
  - intros [] s3 H3. apply pc_ret. split; [apply H3|]. eapply none_new_but_first; [exact Hsh1|].
    eapply none_new_but_then; [exact Hsh2|apply H3].
Qed.

(** ** The medium as a whole *)

(** The books of blocks and soft deletions are right, and what can be handed out is erased. *)
Record flash_ok (D : gset Z) (s : State N) : Prop := {
  fl_media : media_ok cfg D s;
  fl_stock : stocked s
}.

Lemma DeleteChunk_flash D c markNAND s :
  flash_ok D s -> valid_chunk cfg c -> in_use cfg s c -> c ∉ D ->
  wp (yaffs_DeleteChunk cfg c markNAND) (fun _ s' =>
    flash_ok D s' /\ kept_but cfg c s s' /\ ~ in_use cfg s' c /\
    isDoingGC (blks s') = isDoingGC (blks s) /\ none_new s s') s.
Proof.
  intros [Hm Hst] Hvc Hu Hc. destruct (chunk_place cfg Hcfg c Hvc) as (Hv & Hr & Hcq). fold n in Hv, Hr, Hcq.
  destruct (live_chunk cfg Hcfg D s c Hm Hvc Hu Hc) as (bi & Hb & _ & _).
  eapply wp_mono; [apply wp_pc; [by apply (DeleteChunk_media cfg Hcfg Haware Halign D c markNAND s)|]|].
  { rewrite Hcq. apply (DeleteChunk_tidy (Z.quot c n) (Z.rem c n) markNAND s bi); try done.
    - eapply calm_ok, Hm.
    - rewrite <- Hcq. by apply in_use_not_allocatable; [apply Hm|..]. }
  intros [] s' [(H1 & H2 & H3 & H4) [H5 H6]]. split; [by split|]. split; [exact H2|]. split; [exact H3|]. split; [exact H4|exact H6].
Qed.

Lemma WriteNewChunk_flash D d tags useReserve s :
  0 < yaffs_wr_attempts cfg -> flash_ok D s ->
  Z.of_nat (length d) = nDataBytesPerChunk cfg -> fits cfg tags ->
  wp (yaffs_WriteNewChunkWithTagsToNAND cfg (Some d) tags useReserve) (fun chunk s' =>
    flash_ok D s' /\ kept cfg s s' /\ isDoingGC (blks s') = isDoingGC (blks s) /\
    none_new_but chunk s s' /\ (chunk = -1 \/ now_stores cfg s s' chunk d tags)) s.
Proof.
  intros Hwr [Hm Hst] Hd Hfit.
  eapply wp_mono; [apply wp_pc; [by apply (WriteNewChunk_media cfg Hcfg Haware Halign D)|
    by apply WriteNewChunk_tidy; [apply Hm|]]|].
  intros chunk s' [(H1 & H2 & H3 & H4) [H5 H6]]. done.
Qed.

Lemma Read_flash D c buffer tags0 s :
  flash_ok D s -> valid_chunk cfg c -> buffer_ok cfg buffer ->
  wp (yaffs_ReadChunkWithTagsFromNAND cfg c buffer tags0) (fun r s' =>
    flash_ok D s' /\ kept cfg s s' /\ isDoingGC (blks s') = isDoingGC (blks s) /\
    chunkBits (blks s') = chunkBits (blks s) /\
    (forall c', content (nand s') c' = content (nand s) c') /\
    same_size (snd (fst r)) buffer /\
    forall d t, content (nand s) c = Some (d, t) ->
      fst (fst r) = YAFFS_OK /\ snd (fst r) = (fun _ => d) <$> buffer /\ same_chunk t (snd r)) s.
Proof.
  intros [Hm Hst] Hv Hb.
  eapply wp_mono; [apply wp_and; [by apply (Read_media cfg Hcfg D c buffer tags0 s)|apply wp_pc;
    [by apply (nf_read c buffer tags0 s); [apply Hm|..]|apply (nb_read c buffer tags0 s)]]|].
  intros r s' [(H1 & H2) [[[Hf _] _] [Hbl _]]]. split; [|done]. split; [done|]. by apply (tidy_frame s s').
Qed.
End blank.

(** ** Drivers that work with tags *)

Record blank_driver {N} (nd : NandDriver N) (cfg : Config) (erased : N -> Z -> Prop) : Prop := {
  bd_read : exists f, drv_readChunkWithTags = Some f /\ forall c b t n,
    (forall c', erased n c' -> erased (snd (f c b t n)) c') /\
    (erased n c -> buffer_ok cfg b ->
      snd (fst (fst (f c b t n))) = (fun b => replicate (length b) 255) <$> b /\
      chunkUsed (snd (fst (f c b t n))) = 0 /\ ecc_is_error (eccResult (snd (fst (f c b t n)))) = false);
  bd_write : exists f, drv_writeChunkWithTags = Some f /\ forall c b t n c', c' <> c ->
    erased n c' -> erased (snd (f c b t n)) c';
  bd_erase : forall blk n c, 0 <= c -> Z.quot c (nChunksPerBlock cfg) <> blk ->
    erased n c -> erased (snd (drv_eraseBlock blk n)) c;
  bd_erased : forall blk n c, 0 <= c -> Z.quot c (nChunksPerBlock cfg) = blk ->
    ztrue (fst (drv_eraseBlock blk n)) = true -> erased (snd (drv_eraseBlock blk n)) c;
  bd_mark : forall mark blk n c, drv_markBlockBad = Some mark -> 0 <= c ->
    Z.quot c (nChunksPerBlock cfg) <> blk -> erased n c -> erased (snd (mark blk n)) c
}.

Lemma blank_of {N} (nd : NandDriver N) (cfg : Config) erased :
  cfg_ok cfg -> chunkOffset cfg = blockOffset cfg * nChunksPerBlock cfg ->
  0 <= blockOffset cfg <= internalStartBlock cfg -> blank_driver nd cfg erased -> NandBlank nd cfg.
Proof.
  intros Hcfg Ho Hb Hmd.
  refine {| blank n c := erased n (c - chunkOffset cfg) |}.
  - destruct (bd_read _ _ _ Hmd) as (fr & Hr & Lr).
    intros chunk buffer tags s. unfold yaffs_ReadChunkWithTagsFromNAND. rewrite Hr.
    destruct (Lr (chunk - chunkOffset cfg) buffer tags (nand s)) as [L1 L2].
    apply pc_bind, pc_wp, wp_on_nand.
    destruct (fr (chunk - chunkOffset cfg) buffer tags (nand s)) as [[[r d] t] n'].
    cbn [fst snd] in *. set (s1 := s <| nand := n' |>).
    apply (pc_seq _ _ (fun _ s' => nand s' = n')).
    { apply pc_when. destruct (ecc_is_error _); [|done]. by apply (HandleChunkError_nand cfg n'). }
    intros [] s2 Hn2. apply pc_ret. rewrite Hn2. split; [intros c; apply L1|exact L2].
  - destruct (bd_write _ _ _ Hmd) as (fw & Hw & Lw).
    intros chunk buffer tags s. unfold yaffs_WriteChunkWithTagsToNAND, getB. rewrite Hw.
    apply pc_bind, pc_gets, pc_bind, pc_wp, wp_on_nand. apply pc_ret. simp_fields.
    intros c Hc. apply Lw. lia.
  - intros blk n' c Hc Hq. destruct (realigned_block cfg c Hcfg Ho Hb Hc) as [H0 Hq'].
    apply (bd_erase _ _ _ Hmd); [done|]. rewrite Hq'. lia.
  - intros blk n' c Hc Hq. destruct (realigned_block cfg c Hcfg Ho Hb Hc) as [H0 Hq'].
    apply (bd_erased _ _ _ Hmd); [done|]. rewrite Hq'. lia.
  - intros mark blk n' c Hm Hc Hq. destruct (realigned_block cfg c Hcfg Ho Hb Hc) as [H0 Hq'].
    apply (bd_mark _ _ _ Hmd); [done|done|]. rewrite Hq'. lia.
Defined.

(** The simulated medium: a page without an entry is erased. *)
Definition sim_erased (f : Flash) (c : Z) : Prop := f !! c = None.

Lemma sim_erase_gone blk f c : 0 <= c -> Z.quot c 4 = blk -> snd (sim_erase blk f) !! c = None.
Proof.
  intros Hc Hq. unfold sim_erase, sim_pages. cbn [snd].
  assert (H : forall l, c ∈ l -> foldr (fun c => delete c) f l !! c = None).
  { induction l as [|x l IH]; intros Hl; [by apply elem_of_nil in Hl|]. cbn [foldr].
    destruct (decide (x = c)) as [->|Hne]; [apply (lookup_delete_eq (M := gmap Z))|].
    etransitivity; [by apply (lookup_delete_ne (M := gmap Z))|]. apply IH.
    apply elem_of_cons in Hl as [->|Hl]; done. }
  apply H. apply elem_of_seqZ. rewrite Z.quot_div_nonneg in Hq by lia.
  pose proof (Z.div_mod c 4 ltac:(lia)). pose proof (Z.mod_pos_bound c 4 ltac:(lia)). lia.
Qed.

Lemma sim_blanks : blank_driver sim_driver sample_cfg sim_erased.
Proof.
  split.
  - exists sim_read. split; [done|]. intros c b t f. unfold sim_read, sim_erased.
    split; [by intros c'; destruct (f !! c) as [[d t']|]|]. intros Hc _. rewrite Hc. done.
  - exists sim_write. split; [done|]. intros c b t f c' Hne. unfold sim_write, sim_erased. cbn [snd].
    intros H. etransitivity; [by apply (lookup_insert_ne (M := gmap Z))|]. exact H.
  - intros blk f c Hc Hq. unfold sim_erased. intros H.
    change (drv_eraseBlock blk f) with (sim_erase blk f). by rewrite (sim_erase_other blk f c).
  - intros blk f c Hc Hq _. by apply sim_erase_gone.
  - intros mark blk f c [= <-] _ _ H. exact H.
Qed.

#[export] Instance sim_nand_blank : NandBlank sim_driver sample_cfg :=
  blank_of sim_driver sample_cfg sim_erased sample_cfg_ok eq_refl (conj (Z.le_refl 0) Z.le_0_1) sim_blanks.
