(* ===== verification/Tnode.v ===== *)
(** * Tnodes: allocation and level-0 entries ([yaffs_guts.c])

    A tnode is a block of [tnodeWidth * 16 / 32] machine words: seen as an internal
    node its first eight words are pointers, seen as a level-0 node it is a packed
    array of sixteen entries of [tnodeWidth] bits.  On this 32-bit machine both views
    are over the same words, and the code relies on it, so the model keeps a store
    from addresses to word lists, with 0 the null pointer.  Unused tnodes are chained
    through their first word.  The kernel's allocator is a parameter. *)
From S2P Require Import Prelude Monad Device.

(** The kernel's allocator: an address or 0, and what uninitialised memory holds. *)
Class Kmalloc (K : Type) := {
  ymalloc : Z -> K -> Z * K;
  yfree : Z -> K -> K;
  garbage : K -> Z -> Z
}.

(** The tnode part of [yaffs_Device]. *)
Record Tnodes (K : Type) := MkTnodes {
  tnodes : gmap Z (list Z);
  freeTnodes : Z;
  nFreeTnodes : Z;
  nTnodesCreated : Z;
  allocatedTnodeList : list Z;
  heap : K
}.
Arguments MkTnodes {K}. Arguments tnodes {K}. Arguments freeTnodes {K}.
Arguments nFreeTnodes {K}. Arguments nTnodesCreated {K}.
Arguments allocatedTnodeList {K}. Arguments heap {K}.
#[export] Instance eta_Tnodes K : EtaExpand (Tnodes K) := fun r =>
  MkTnodes (tnodes r) (freeTnodes r) (nFreeTnodes r) (nTnodesCreated r)
    (allocatedTnodeList r) (heap r).
#[export] Instance upd_tnodes K : FieldUpdate (@tnodes K) := ltac:(build_field_update).
#[export] Instance upd_freeTnodes K : FieldUpdate (@freeTnodes K) := ltac:(build_field_update).
#[export] Instance upd_nFreeTnodes K : FieldUpdate (@nFreeTnodes K) := ltac:(build_field_update).
#[export] Instance upd_nTnodesCreated K : FieldUpdate (@nTnodesCreated K) := ltac:(build_field_update).
#[export] Instance upd_allocatedTnodeList K : FieldUpdate (@allocatedTnodeList K) := ltac:(build_field_update).
#[export] Instance upd_heap K : FieldUpdate (@heap K) := ltac:(build_field_update).

Abbreviation YAFFS_NTNODES_LEVEL0 := 16.
Abbreviation YAFFS_TNODES_LEVEL0_BITS := 4.
Abbreviation YAFFS_TNODES_LEVEL0_MASK := 15.
Abbreviation YAFFS_NTNODES_INTERNAL := 8.
Abbreviation YAFFS_TNODES_INTERNAL_BITS := 3.
Abbreviation YAFFS_TNODES_INTERNAL_MASK := 7.
Abbreviation YAFFS_TNODES_MAX_LEVEL := 6.
Abbreviation YAFFS_MAX_CHUNK_ID := 0xFFFFF.
Abbreviation YAFFS_ALLOCATION_NTNODES := 100.

Section tnode.
Context {K : Type} `{!Kmalloc K} (cfg : Config).
Local Abbreviation St := (Tnodes K).

(** Bytes and words of a tnode. *)
Definition tnodeSize : Z := Z.quot (tnodeWidth cfg * YAFFS_NTNODES_LEVEL0) 8.
Definition tnodeWords : Z := Z.quot tnodeSize 4.

(** [tn->internal[i]] and [map[i]], read and written. *)
Definition get_word (tn i : Z) : M St Z :=
  mem ← gets tnodes;
  ws ← of_option (mem !! tn);
  of_option (lookupZ i ws).
Definition put_word (tn i x : Z) : M St unit :=
  mem ← gets tnodes;
  ws ← of_option (mem !! tn);
  ws' ← of_option (updateZ i x ws);
  modify (fun s => s <| tnodes := <[tn := ws']> mem |>).

(** [YMALLOC] *)
Definition YMALLOC (n : Z) : M St Z := fun s =>
  let '(p, k) := ymalloc n (heap s) in Some (p, s <| heap := k |>).

(** The words of the uninitialised tnode at address [p]. *)
Definition raw_words (k : K) (p : Z) : list Z :=
  (fun w => u32 (garbage k (p + 4 * w))) <$> seqZ 0 tnodeWords.

Definition yaffs_CreateTnodes (nTnodes : Z) : M St Z :=
  if nTnodes <? 1 then mret YAFFS_OK else
  mem ← YMALLOC (nTnodes * tnodeSize);
  if mem =? 0 then mret YAFFS_FAIL else
  _ ← for_each (seqZ 0 nTnodes) (fun i => modify (fun s =>
    s <| tnodes ::= <[mem + i * tnodeSize := raw_words (heap s) (mem + i * tnodeSize)]> |>));
  _ ← for_each (seqZ 0 (nTnodes - 1)) (fun i =>
    put_word (mem + i * tnodeSize) 0 (mem + (i + 1) * tnodeSize));
  free ← gets freeTnodes;
  _ ← put_word (mem + (nTnodes - 1) * tnodeSize) 0 free;
  _ ← modify (fun s => s <| freeTnodes := mem |>);
  _ ← modify (fun s => s <| nFreeTnodes ::= Z.add nTnodes |>);
  _ ← modify (fun s => s <| nTnodesCreated ::= Z.add nTnodes |>);
  tnl ← YMALLOC 8;
  if tnl =? 0 then mret YAFFS_FAIL else
  _ ← modify (fun s => s <| allocatedTnodeList ::= cons mem |>);
  mret YAFFS_OK.

Definition yaffs_GetTnodeRaw : M St Z :=
  free ← gets freeTnodes;
  _ ← when (free =? 0) (_ ← yaffs_CreateTnodes YAFFS_ALLOCATION_NTNODES; mret tt);
  free ← gets freeTnodes;
  if ztrue free then
    next ← get_word free 0;
    _ ← modify (fun s => s <| freeTnodes := next |>);
    _ ← modify (fun s => s <| nFreeTnodes ::= Z.pred |>);
    mret free
  else mret 0.

(** [memset(tn, 0, ...)] *)
Definition clear_tnode (tn : Z) : M St unit :=
  mem ← gets tnodes;
  _ ← of_option (mem !! tn);
  modify (fun s => s <| tnodes := <[tn := replicate (Z.to_nat tnodeWords) 0]> mem |>).

Definition yaffs_GetTnode : M St Z :=
  tn ← yaffs_GetTnodeRaw;
  _ ← when (ztrue tn) (clear_tnode tn);
  mret tn.

Definition yaffs_FreeTnode (tn : Z) : M St unit :=
  when (ztrue tn) (
    free ← gets freeTnodes;
    _ ← put_word tn 0 free;
    _ ← modify (fun s => s <| freeTnodes := tn |>);
    modify (fun s => s <| nFreeTnodes ::= Z.succ |>)).

(** The words of a freed bunch stay in the store, where nothing points to them. *)
Definition YFREE (p : Z) : M St unit := modify (fun s => s <| heap ::= yfree p |>).

Definition yaffs_DeinitialiseTnodes : M St unit :=
  bunches ← gets allocatedTnodeList;
  _ ← for_each bunches (fun newTnodes =>
    _ ← YFREE newTnodes;
    modify (fun s => s <| allocatedTnodeList ::= tail |>));
  _ ← modify (fun s => s <| freeTnodes := 0 |>);
  modify (fun s => s <| nFreeTnodes := 0 |>).

Definition yaffs_InitialiseTnodes : M St unit :=
  _ ← modify (fun s => s <| allocatedTnodeList := [] |>);
  _ ← modify (fun s => s <| freeTnodes := 0 |>);
  _ ← modify (fun s => s <| nFreeTnodes := 0 |>);
  modify (fun s => s <| nTnodesCreated := 0 |>).

(** ** Entries of a level-0 tnode *)

(** [map[w] &= ~mask; map[w] |= (mask & bits);] *)
Definition put_masked (tn w mask bits : Z) : M St unit :=
  x ← get_word tn w;
  _ ← put_word tn w (Z.land x (unot 32 mask));
  x ← get_word tn w;
  put_word tn w (Z.lor x (Z.land mask bits)).

Definition yaffs_PutLevel0Tnode (tn pos val : Z) : M St unit :=
  let pos := Z.land pos YAFFS_TNODES_LEVEL0_MASK in
  let val := Z.shiftr val (chunkGroupBits cfg) in
  let bitInMap := u32 (pos * tnodeWidth cfg) in
  let wordInMap := bitInMap / 32 in
  let bitInWord := Z.land bitInMap (32 - 1) in
  _ ← put_masked tn wordInMap (u32 (Z.shiftl (tnodeMask cfg) bitInWord))
        (u32 (Z.shiftl val bitInWord));
  when (32 - bitInWord <? tnodeWidth cfg) (
    let bitInWord := 32 - bitInWord in
    let wordInMap := wordInMap + 1 in
    put_masked tn wordInMap (Z.shiftr (tnodeMask cfg) bitInWord) (Z.shiftr val bitInWord)).

Definition yaffs_GetChunkGroupBase (tn pos : Z) : M St Z :=
  let pos := Z.land pos YAFFS_TNODES_LEVEL0_MASK in
  let bitInMap := u32 (pos * tnodeWidth cfg) in
  let wordInMap := bitInMap / 32 in
  let bitInWord := Z.land bitInMap (32 - 1) in
  x ← get_word tn wordInMap;
  let val := Z.shiftr x bitInWord in
  val ← (if 32 - bitInWord <? tnodeWidth cfg then
    let bitInWord := 32 - bitInWord in
    let wordInMap := wordInMap + 1 in
    y ← get_word tn wordInMap;
    mret (Z.lor val (u32 (Z.shiftl y bitInWord)))
  else mret val);
  let val := Z.land val (tnodeMask cfg) in
  mret (u32 (Z.shiftl val (chunkGroupBits cfg))).
End tnode.

(** ** Geometry *)

(** What [yaffs_GutsInitialise] makes of the width (see [Init]). *)
Record tn_cfg_ok (cfg : Config) : Prop := {
  tn_width : 16 <= tnodeWidth cfg < 32;
  tn_even : Z.Even (tnodeWidth cfg);
  tn_mask : tnodeMask cfg = Z.ones (tnodeWidth cfg);
  tn_group : 0 <= chunkGroupBits cfg < 32
}.

Definition is_u32 (x : Z) : Prop := 0 <= x < 2 ^ 32.

Section geometry.
Context (cfg : Config) (Hcfg : tn_cfg_ok cfg).

Lemma tnodeWords_eq : tnodeWords cfg = tnodeWidth cfg / 2.
Proof.
  destruct Hcfg as [Hw [k Hk] _ _]. unfold tnodeWords, tnodeSize.
  rewrite !Z.quot_div_nonneg by (try apply Z.quot_pos; lia).
  rewrite Z.div_div by lia. rewrite Hk.
  rewrite (Z.mul_comm 2 k), Z.div_mul by lia.
  replace (k * 2 * 16) with (k * (8 * 4)) by lia. by rewrite Z.div_mul.
Qed.

Lemma tnodeWords_range : 8 <= tnodeWords cfg < 16.
Proof. destruct Hcfg as [Hw [k Hk] _ _]. rewrite tnodeWords_eq, Hk, Z.mul_comm, Z.div_mul; lia. Qed.

Lemma tnodeSize_eq : tnodeSize cfg = 4 * tnodeWords cfg.
Proof.
  destruct Hcfg as [Hw [k Hk] _ _]. rewrite tnodeWords_eq. unfold tnodeSize. rewrite Hk.
  rewrite (Z.mul_comm 2 k), Z.div_mul by lia.
  rewrite Z.quot_div_nonneg by lia. replace (k * 2 * 16) with (4 * k * 8) by lia.
  by rewrite Z.div_mul.
Qed.
End geometry.

(** ** Bits of a word list *)

(** Bit [b] of the words, the first word lowest. *)
Definition tn_bit (ws : list Z) (b : Z) : bool :=
  Z.testbit (default 0 (lookupZ (b / 32) ws)) (b mod 32).

(** Bit [j] of entry [pos] is bit [pos * w + j] of the words. *)
Definition entry_bit (w : Z) (ws : list Z) (pos j : Z) : bool := tn_bit ws (pos * w + j).

Lemma tn_bit_at ws q r x :
  0 <= r < 32 -> lookupZ q ws = Some x -> tn_bit ws (q * 32 + r) = Z.testbit x r.
Proof.
  intros Hr Hx. unfold tn_bit.
  replace ((q * 32 + r) / 32) with q by (apply Z.div_unique with r; lia).
  replace ((q * 32 + r) mod 32) with r by (apply Z.mod_unique with q; lia).
  by rewrite Hx.
Qed.

Lemma tn_bit_insert ws q x b :
  0 <= q < Z.of_nat (length ws) -> 0 <= b ->
  tn_bit (<[Z.to_nat q := x]> ws) b = if b / 32 =? q then Z.testbit x (b mod 32) else tn_bit ws b.
Proof.
  intros Hq Hb. unfold tn_bit, lookupZ.
  pose proof (Z.div_pos b 32 Hb ltac:(lia)) as Hd. rewrite (proj2 (Z.leb_le _ _)) by done.
  destruct (Z.eqb_spec (b / 32) q) as [->|Hne].
  - by rewrite list_lookup_insert_eq by lia.
  - by rewrite list_lookup_insert_ne by lia.
Qed.

Lemma testbit_unot w x j :
  0 <= j < w -> Z.testbit (unot w x) j = negb (Z.testbit x j).
Proof.
  intros Hj. unfold unot. rewrite Z.lxor_spec, wrap_land, Z.land_spec, !Z.testbit_ones by lia.
  rewrite (proj2 (Z.leb_le 0 j)), (proj2 (Z.ltb_lt j w)) by lia.
  by rewrite andb_true_r, xorb_true_r.
Qed.

Lemma testbit_wrap w x j : 0 <= w -> 0 <= j -> Z.testbit (wrap w x) j = (j <? w) && Z.testbit x j.
Proof.
  intros Hw Hj. rewrite wrap_land, Z.land_spec, Z.testbit_ones by done.
  rewrite (proj2 (Z.leb_le 0 j)) by lia. apply andb_comm.
Qed.

Lemma testbit_ones_at w j : 0 <= w -> 0 <= j -> Z.testbit (Z.ones w) j = (j <? w).
Proof. intros. rewrite Z.testbit_ones by done. by rewrite (proj2 (Z.leb_le 0 j)) by lia. Qed.

(** The word that [put_masked] leaves. *)
Definition masked (x mask bits : Z) : Z :=
  Z.lor (Z.land x (unot 32 mask)) (Z.land mask bits).

Lemma masked_testbit x mask bits j :
  0 <= j < 32 ->
  Z.testbit (masked x mask bits) j =
  if Z.testbit mask j then Z.testbit bits j else Z.testbit x j.
Proof.
  intros Hj. unfold masked. rewrite Z.lor_spec, !Z.land_spec, testbit_unot by lia.
  by destruct (Z.testbit mask j), (Z.testbit x j), (Z.testbit bits j).
Qed.

Lemma masked_u32 x mask bits : is_u32 x -> is_u32 mask -> is_u32 (masked x mask bits).
Proof.
  intros Hx Hm. unfold masked. apply lor_range; [lia|..]; apply land_range; (done || lia).
Qed.

(** ** Reading and writing words *)

Section words.
Context {K : Type} `{!Kmalloc K} (cfg : Config) (Hcfg : tn_cfg_ok cfg).
Implicit Types (s : Tnodes K).
Let w := tnodeWidth cfg.

Definition with_tnode (tn : Z) (ws : list Z) (s : Tnodes K) : Tnodes K :=
  s <| tnodes ::= <[tn := ws]> |>.

(** The contents of a tnode have the right shape. *)
Definition words_ok (ws : list Z) : Prop :=
  Z.of_nat (length ws) = tnodeWords cfg /\ Forall is_u32 ws.

Definition word (mem : gmap Z (list Z)) (tn i : Z) : Z :=
  default 0 (mem !! tn ≫= lookupZ i).

Lemma lookupZ_default (ws : list Z) i :
  0 <= i < Z.of_nat (length ws) -> lookupZ i ws = Some (default 0 (lookupZ i ws)).
Proof. intros Hi. destruct (lookupZ_Some i ws Hi) as [x Hx]. by rewrite Hx. Qed.

Lemma words_u32 ws i : Forall is_u32 ws -> is_u32 (default 0 (lookupZ i ws)).
Proof.
  intros Hws. destruct (lookupZ i ws) as [x|] eqn:Hx; simpl; [|by unfold is_u32].
  apply lookupZ_Some_inv in Hx as [_ Hx]. by eapply Forall_lookup_1 in Hws.
Qed.

Lemma wp_get_word tn i ws (Q : Z -> Tnodes K -> Prop) s :
  tnodes s !! tn = Some ws -> 0 <= i < Z.of_nat (length ws) ->
  Q (default 0 (lookupZ i ws)) s -> wp (get_word tn i) Q s.
Proof.
  intros Hw Hi HQ. unfold get_word. wp_steps. apply wp_of_option with ws; [done|].
  by eapply wp_of_option; [by apply lookupZ_default|].
Qed.

Lemma wp_put_word tn i x ws (Q : unit -> Tnodes K -> Prop) s :
  tnodes s !! tn = Some ws -> 0 <= i < Z.of_nat (length ws) ->
  Q tt (with_tnode tn (<[Z.to_nat i := x]> ws) s) -> wp (put_word tn i x) Q s.
Proof.
  intros Hw Hi HQ. unfold put_word. wp_steps. apply wp_of_option with ws; [done|].
  wp_steps. eapply wp_of_option; [by apply updateZ_Some|]. wp_steps.
  by destruct s.
Qed.

Lemma with_tnode_twice tn ws ws' s : with_tnode tn ws' (with_tnode tn ws s) = with_tnode tn ws' s.
Proof. destruct s. unfold with_tnode, field_update, upd_tnodes. simpl. by rewrite insert_insert_eq. Qed.

Lemma tnodes_with_tnode tn ws s : tnodes (with_tnode tn ws s) !! tn = Some ws.
Proof. apply lookup_insert_eq. Qed.

Lemma wp_put_masked tn i mask bits ws (Q : unit -> Tnodes K -> Prop) s :
  tnodes s !! tn = Some ws -> 0 <= i < Z.of_nat (length ws) ->
  Q tt (with_tnode tn
    (<[Z.to_nat i := masked (default 0 (lookupZ i ws)) mask bits]> ws) s) ->
  wp (put_masked tn i mask bits) Q s.
Proof.
  intros Hw Hi HQ. unfold put_masked.
  apply wp_bind, (wp_get_word tn i ws); [done|done|].
  apply wp_bind, (wp_put_word tn i _ ws); [done|done|].
  eapply wp_bind, wp_get_word; [apply tnodes_with_tnode|by rewrite length_insert|].
  eapply wp_put_word; [apply tnodes_with_tnode|by rewrite length_insert|].
  rewrite with_tnode_twice, list_insert_insert_eq.
  unfold lookupZ at 1. rewrite (proj2 (Z.leb_le 0 i)), list_lookup_insert_eq by lia. exact HQ.
Qed.

(** ** The position of an entry *)

Definition epos (pos : Z) : Z := pos mod 16 * w.

Lemma land_pos pos : Z.land pos YAFFS_TNODES_LEVEL0_MASK = pos mod 16.
Proof. change 15 with (Z.ones 4). by rewrite Z.land_ones. Qed.

Lemma epos_range pos : 0 <= epos pos /\ epos pos + w <= 32 * tnodeWords cfg /\ epos pos < 2 ^ 32.
Proof.
  pose proof (Z.mod_pos_bound pos 16 ltac:(lia)) as Hp.
  pose proof (tn_width _ Hcfg) as Hw. pose proof (tn_even _ Hcfg) as [k Hk].
  rewrite tnodeWords_eq by done. unfold epos. fold w in Hw, Hk |- *.
  rewrite Hk, (Z.mul_comm 2 k), Z.div_mul by lia. change (2 ^ 32) with 4294967296. nia.
Qed.

Lemma epos_word pos : u32 (Z.land pos YAFFS_TNODES_LEVEL0_MASK * tnodeWidth cfg) = epos pos.
Proof. rewrite land_pos. apply wrap_small. pose proof (epos_range pos). unfold epos in *. fold w. lia. Qed.

Lemma land_31 b : Z.land b (32 - 1) = b mod 32.
Proof. change (32 - 1) with (Z.ones 5). by rewrite Z.land_ones. Qed.

(** The first word of an entry, the bit it starts at, and whether it goes on. *)
Lemma epos_split pos :
  let q := epos pos / 32 in let r := epos pos mod 32 in
  0 <= r < 32 /\ epos pos = q * 32 + r /\ 0 <= q < tnodeWords cfg /\
  (32 - r < w -> q + 1 < tnodeWords cfg).
Proof.
  intros q r. pose proof (epos_range pos) as (H0 & H1 & _).
  pose proof (Z.div_mod (epos pos) 32 ltac:(lia)). pose proof (Z.mod_pos_bound (epos pos) 32 ltac:(lia)).
  pose proof (tn_width _ Hcfg) as Hw. fold w in Hw.
  assert (0 <= q) by (apply Z.div_pos; lia). unfold q, r in *. lia.
Qed.

(** ** Writing an entry *)

Definition in_entry (pos b : Z) : bool := (epos pos <=? b) && (b <? epos pos + w).

Lemma mask_low r j :
  0 <= r < 32 -> 0 <= j < 32 ->
  Z.testbit (u32 (Z.shiftl (tnodeMask cfg) r)) j = (r <=? j) && (j <? r + w).
Proof.
  intros Hr Hj. pose proof (tn_width _ Hcfg) as Hw.
  rewrite testbit_wrap, Z.shiftl_spec, tn_mask by (done || lia). fold w in Hw |- *.
  rewrite (proj2 (Z.ltb_lt j 32)) by lia. simpl.
  destruct (Z.leb_spec r j); simpl.
  - rewrite testbit_ones_at by lia. destruct (Z.ltb_spec (j - r) w), (Z.ltb_spec j (r + w)); lia || done.
  - by rewrite Z.testbit_neg_r by lia.
Qed.

Lemma mask_high c j :
  0 <= c -> 0 <= j -> Z.testbit (Z.shiftr (tnodeMask cfg) c) j = (j + c <? w).
Proof.
  intros Hc Hj. pose proof (tn_width _ Hcfg). rewrite Z.shiftr_spec, tn_mask, testbit_ones_at by (done || lia).
  done.
Qed.

Lemma mask_u32 r : is_u32 (u32 (Z.shiftl (tnodeMask cfg) r)).
Proof. apply (wrap_range 32). lia. Qed.

Lemma mask_shiftr_u32 c : 0 <= c -> is_u32 (Z.shiftr (tnodeMask cfg) c).
Proof.
  intros Hc. pose proof (tn_width _ Hcfg) as Hw. rewrite tn_mask by done.
  rewrite Z.shiftr_div_pow2, Z.ones_equiv by done. unfold is_u32.
  assert (0 < 2 ^ tnodeWidth cfg <= 2 ^ 32) by (split; [|apply Z.pow_le_mono_r]; lia).
  assert (0 < 2 ^ c) by lia.
  split; [apply Z.div_pos; lia|]. apply Z.div_lt_upper_bound; nia.
Qed.

Lemma words_ok_insert ws i x : words_ok ws -> is_u32 x -> words_ok (<[i := x]> ws).
Proof. intros [Hl Hu] Hx. split; [by rewrite length_insert|by apply Forall_insert]. Qed.

(** The bits after a masked write. *)
Lemma masked_bits ws i mask bits b :
  0 <= i < Z.of_nat (length ws) -> 0 <= b ->
  tn_bit (<[Z.to_nat i := masked (default 0 (lookupZ i ws)) mask bits]> ws) b =
  if (b / 32 =? i) && Z.testbit mask (b mod 32) then Z.testbit bits (b mod 32) else tn_bit ws b.
Proof.
  intros Hi Hb. rewrite tn_bit_insert by done.
  destruct (Z.eqb_spec (b / 32) i) as [<-|]; [simpl|done].
  rewrite masked_testbit by (apply Z.mod_pos_bound; lia). done.
Qed.

(** An entry is the masked bits of its first word and, if it goes on, of the next. *)
Lemma in_entry_first pos b :
  let q := epos pos / 32 in let r := epos pos mod 32 in
  b / 32 = q -> in_entry pos b = (r <=? b mod 32) && (b mod 32 <? r + w).
Proof.
  intros q r Hbq. pose proof (Z.div_mod b 32 ltac:(lia)).
  destruct (epos_split pos) as (_ & He & _). fold q r in He. unfold in_entry.
  f_equal; apply eq_true_iff_eq; rewrite ?Z.leb_le, ?Z.ltb_lt; lia.
Qed.

Lemma in_entry_second pos b :
  let q := epos pos / 32 in let r := epos pos mod 32 in
  b / 32 = q + 1 -> in_entry pos b = (b mod 32 + (32 - r) <? w).
Proof.
  intros q r Hbq. pose proof (Z.div_mod b 32 ltac:(lia)). pose proof (Z.mod_pos_bound b 32 ltac:(lia)).
  destruct (epos_split pos) as (? & He & _). fold q r in He, H1. unfold in_entry.
  rewrite (proj2 (Z.leb_le _ _)) by lia. simpl.
  apply eq_true_iff_eq; rewrite ?Z.ltb_lt; lia.
Qed.

Lemma in_entry_else pos b :
  let q := epos pos / 32 in let r := epos pos mod 32 in
  b / 32 <> q -> (32 - r < w -> b / 32 <> q + 1) -> in_entry pos b = false.
Proof.
  intros q r Hbq Hbq1. pose proof (Z.div_mod b 32 ltac:(lia)).
  pose proof (Z.mod_pos_bound b 32 ltac:(lia)).
  destruct (epos_split pos) as (? & He & _). fold q r in He, H1.
  pose proof (tn_width _ Hcfg) as Hw. fold w in Hw. unfold in_entry.
  apply andb_false_iff. rewrite Z.leb_gt, Z.ltb_ge. lia.
Qed.

Lemma wp_PutLevel0Tnode tn pos val ws (Q : unit -> Tnodes K -> Prop) s :
  tnodes s !! tn = Some ws -> words_ok ws ->
  (forall ws', words_ok ws' ->
    (forall b, 0 <= b -> tn_bit ws' b =
      if in_entry pos b then Z.testbit (Z.shiftr val (chunkGroupBits cfg)) (b - epos pos)
      else tn_bit ws b) ->
    Q tt (with_tnode tn ws' s)) ->
  wp (yaffs_PutLevel0Tnode cfg tn pos val) Q s.
Proof.
  intros Htn [Hl Hu] HQ. unfold yaffs_PutLevel0Tnode. rewrite epos_word, land_31.
  destruct (epos_split pos) as (Hr & He & Hq & Hq1).
  pose proof (tn_width _ Hcfg) as Hw. fold w in Hw |- *.
  pose proof (in_entry_first pos) as Hin1. pose proof (in_entry_second pos) as Hin2.
  pose proof (in_entry_else pos) as Hin0. cbv zeta in Hin1, Hin2, Hin0 |- *.
  set (q := epos pos / 32) in *. set (r := epos pos mod 32) in *.
  set (v := Z.shiftr val (chunkGroupBits cfg)) in *.
  apply wp_bind, (wp_put_masked tn q _ _ ws); [done|lia|]. set (ws1 := <[Z.to_nat q := _]> ws).
  assert (Hws1 : words_ok ws1).
  { apply words_ok_insert; [done|]. apply masked_u32; [by apply words_u32|apply mask_u32]. }
  assert (Hb1 : forall b, 0 <= b -> tn_bit ws1 b =
    if in_entry pos b && (b / 32 =? q) then Z.testbit v (b - epos pos) else tn_bit ws b).
  { intros b Hb. unfold ws1. rewrite masked_bits, mask_low by (lia || apply Z.mod_pos_bound; lia).
    pose proof (Z.div_mod b 32 ltac:(lia)). pose proof (Z.mod_pos_bound b 32 ltac:(lia)).
    destruct (Z.eqb_spec (b / 32) q) as [Hbq|]; [|by rewrite andb_false_r].
    rewrite andb_true_r, Hin1 by done.
    destruct (Z.leb_spec r (b mod 32)), (Z.ltb_spec (b mod 32) (r + w)); simpl; try done.
    rewrite testbit_wrap, Z.shiftl_spec, (proj2 (Z.ltb_lt _ _)) by lia. simpl. f_equal. lia. }
  apply wp_when. destruct (Z.ltb_spec (32 - r) w) as [Hlt|Hge].
  - eapply wp_put_masked; [apply tnodes_with_tnode|destruct Hws1; lia|].
    rewrite with_tnode_twice. apply HQ.
    + apply words_ok_insert; [done|]. apply masked_u32; [apply words_u32, Hws1|].
      apply mask_shiftr_u32. lia.
    + intros b Hb. rewrite masked_bits, mask_high, Hb1
        by (try (destruct Hws1; lia); try apply Z.mod_pos_bound; lia).
      destruct (Z.eqb_spec (b / 32) (q + 1)) as [Hbq|Hne].
      * rewrite (proj2 (Z.eqb_neq _ q)), andb_false_r, Hin2 by (done || lia). simpl.
        destruct (_ <? w); [|done]. pose proof (Z.div_mod b 32 ltac:(lia)).
        pose proof (Z.mod_pos_bound b 32 ltac:(lia)). rewrite Z.shiftr_spec by lia. f_equal. lia.
      * simpl. destruct (Z.eqb_spec (b / 32) q); [by rewrite andb_true_r|].
        by rewrite Hin0, andb_false_r by done.
  - apply HQ; [done|]. intros b Hb. rewrite Hb1 by done.
    destruct (Z.eqb_spec (b / 32) q); [by rewrite andb_true_r|].
    by rewrite Hin0, andb_false_r by (done || lia).
Qed.

(** ** Reading an entry *)

(** What [yaffs_GetChunkGroupBase] computes from the words. *)
Definition entry_of (ws : list Z) (pos : Z) : Z :=
  let q := epos pos / 32 in let r := epos pos mod 32 in
  let val := Z.shiftr (default 0 (lookupZ q ws)) r in
  Z.land (if 32 - r <? w then
    Z.lor val (u32 (Z.shiftl (default 0 (lookupZ (q + 1) ws)) (32 - r))) else val)
    (tnodeMask cfg).
Definition group_of (ws : list Z) (pos : Z) : Z :=
  u32 (Z.shiftl (entry_of ws pos) (chunkGroupBits cfg)).

Lemma wp_GetChunkGroupBase tn pos ws (Q : Z -> Tnodes K -> Prop) s :
  tnodes s !! tn = Some ws -> words_ok ws -> Q (group_of ws pos) s ->
  wp (yaffs_GetChunkGroupBase cfg tn pos) Q s.
Proof.
  intros Htn [Hl Hu] HQ. unfold yaffs_GetChunkGroupBase. rewrite epos_word, land_31. fold w.
  destruct (epos_split pos) as (Hr & He & Hq & Hq1).
  apply wp_bind, (wp_get_word tn _ ws); [done|lia|]. cbv zeta. apply wp_bind, wp_if.
  unfold group_of, entry_of in HQ. destruct (Z.ltb_spec (32 - epos pos mod 32) w).
  - apply wp_bind, (wp_get_word tn _ ws); [done|lia|]. by wp_steps.
  - by wp_steps.
Qed.

Lemma entry_of_testbit ws pos j :
  words_ok ws -> 0 <= j ->
  Z.testbit (entry_of ws pos) j = (j <? w) && tn_bit ws (epos pos + j).
Proof.
  intros [Hl Hu] Hj. unfold entry_of. cbv zeta.
  destruct (epos_split pos) as (Hr & He & Hq & Hq1).
  pose proof (tn_width _ Hcfg) as Hw.
  rewrite Z.land_spec, tn_mask, testbit_ones_at by (done || lia). fold w in Hw |- *.
  set (q := epos pos / 32) in *. set (r := epos pos mod 32) in *.
  destruct (Z.ltb_spec j w) as [Hjw|]; [|by rewrite andb_false_r]. rewrite andb_true_r. simpl.
  destruct (decide (j + r < 32)).
  - rewrite He, <- Z.add_assoc, (tn_bit_at ws q (r + j) (default 0 (lookupZ q ws)))
      by (lia || apply lookupZ_default; lia).
    destruct (Z.ltb_spec (32 - r) w).
    + rewrite Z.lor_spec, testbit_wrap, Z.shiftl_spec_low by lia.
      rewrite andb_false_r, orb_false_r, Z.shiftr_spec by lia. f_equal. lia.
    + rewrite Z.shiftr_spec by lia. f_equal. lia.
  - rewrite (proj2 (Z.ltb_lt (32 - r) w)) by lia.
    replace (epos pos + j) with ((q + 1) * 32 + (r + j - 32)) by lia.
    rewrite (tn_bit_at ws (q + 1) _ (default 0 (lookupZ (q + 1) ws)))
      by (lia || apply lookupZ_default; lia).
    rewrite Z.lor_spec, testbit_wrap, Z.shiftl_spec, Z.shiftr_spec by lia.
    rewrite (testbit_above 32 _ (j + r)), (proj2 (Z.ltb_lt j 32)) by (lia || by apply words_u32).
    simpl. f_equal. lia.
Qed.

Lemma epos_other pos pos' b :
  pos mod 16 <> pos' mod 16 -> 0 <= b < w -> in_entry pos (epos pos' + b) = false.
Proof.
  intros Hne Hb. unfold in_entry, epos.
  destruct (Z.leb_spec (pos mod 16 * w) (pos' mod 16 * w + b)),
    (Z.ltb_spec (pos' mod 16 * w + b) (pos mod 16 * w + w)); simpl; try done.
  exfalso. apply Hne. nia.
Qed.

(** Writing an entry and reading any entry back. *)
Lemma entry_of_put ws ws' pos val pos' :
  words_ok ws -> words_ok ws' ->
  (forall b, 0 <= b -> tn_bit ws' b =
    if in_entry pos b then Z.testbit val (b - epos pos) else tn_bit ws b) ->
  entry_of ws' pos' =
  if pos' mod 16 =? pos mod 16 then Z.land val (Z.ones w) else entry_of ws pos'.
Proof.
  intros Hws Hws' Hb. apply Z.bits_inj'; intros j Hj.
  rewrite entry_of_testbit by done. pose proof (tn_width _ Hcfg) as Hw. fold w in Hw.
  pose proof (epos_range pos') as (He & _).
  destruct (Z.eqb_spec (pos' mod 16) (pos mod 16)) as [Heq|Hne].
  - rewrite Z.land_spec, testbit_ones_at by lia. rewrite Hb by lia.
    unfold epos in *. rewrite Heq in *. unfold in_entry, epos.
    destruct (Z.ltb_spec j w); [|by rewrite andb_false_r].
    rewrite (proj2 (Z.leb_le _ _)), (proj2 (Z.ltb_lt _ _)) by lia. simpl.
    rewrite andb_true_r. f_equal. lia.
  - rewrite entry_of_testbit by done. destruct (Z.ltb_spec j w); [|done]. simpl.
    rewrite Hb by lia. by rewrite epos_other by done.
Qed.

Lemma entry_of_range ws pos : words_ok ws -> 0 <= entry_of ws pos < 2 ^ w.
Proof.
  intros Hws. pose proof (tn_width _ Hcfg) as Hw. fold w in Hw.
  apply range_ones; [lia|]. apply Z.bits_inj'; intros j Hj.
  rewrite Z.land_spec, testbit_ones_at, entry_of_testbit by (done || lia).
  by destruct (j <? w), (tn_bit ws (epos pos + j)).
Qed.

(** A cleared tnode holds no chunk. *)
Lemma group_of_zero pos : group_of (replicate (Z.to_nat (tnodeWords cfg)) 0) pos = 0.
Proof.
  pose proof (tnodeWords_range cfg Hcfg) as Hn.
  assert (Hz : words_ok (replicate (Z.to_nat (tnodeWords cfg)) 0)).
  { split; [rewrite length_replicate; lia|]. apply Forall_replicate. by unfold is_u32. }
  unfold group_of. replace (entry_of _ pos) with 0; [by rewrite Z.shiftl_0_l|].
  apply Z.bits_inj'; intros j Hj. rewrite entry_of_testbit, Z.bits_0 by done.
  unfold tn_bit. unfold lookupZ. destruct (0 <=? _); [|by rewrite Z.bits_0, andb_false_r].
  destruct (replicate _ _ !! _) as [x|] eqn:Hx; simpl; [|by rewrite Z.bits_0, andb_false_r].
  apply lookup_replicate in Hx as [-> _]. by rewrite Z.bits_0, andb_false_r.
Qed.
End words.

(** ** The free list *)

(** The allocator gives out addresses nobody owns and takes back only the block it is
    given. *)
Class KmallocLaws (K : Type) `{!Kmalloc K} := {
  owned : K -> Z -> Prop;
  in_block : K -> Z -> Z -> Prop;
  ymalloc_keeps n k a : owned k a -> owned (snd (ymalloc n k)) a;
  ymalloc_fresh n k :
    let p := fst (ymalloc n k) in
    p <> 0 -> 0 < p /\ p + n <= 2 ^ 32 /\
      forall a, p <= a < p + n -> ~ owned k a /\ owned (snd (ymalloc n k)) a;
  ymalloc_block n k p a :
    in_block (snd (ymalloc n k)) p a ->
    (p = fst (ymalloc n k) /\ p <= a < p + n) \/ in_block k p a;
  yfree_keeps p k a : owned k a -> ~ in_block k p a -> owned (yfree p k) a;
  owned_block k p a : in_block k p a -> owned k p
}.

Section store.
Context {K : Type} `{!Kmalloc K} `{!KmallocLaws K} (cfg : Config) (Hcfg : tn_cfg_ok cfg).
Implicit Types (s : Tnodes K).

(** The list starting at [p] runs through [l]. *)
Fixpoint chain (mem : gmap Z (list Z)) (p : Z) (l : list Z) : Prop :=
  match l with
  | [] => p = 0
  | q :: l => p = q /\ chain mem (word mem q 0) l
  end.

Definition node_ok (mem : gmap Z (list Z)) (p : Z) : Prop :=
  0 < p < 2 ^ 32 /\ exists ws, mem !! p = Some ws /\ words_ok cfg ws.

(** [U] are the tnodes in use, [l] the free ones: the books of the tnode store. *)
Record store_ok (s : Tnodes K) (U : gset Z) (l : list Z) : Prop := {
  so_chain : chain (tnodes s) (freeTnodes s) l;
  so_nodup : NoDup l;
  so_disj : forall p, p ∈ l -> p ∉ U;
  so_used : forall p, p ∈ U -> node_ok (tnodes s) p;
  so_free : forall p, p ∈ l -> node_ok (tnodes s) p;
  so_count : nFreeTnodes s = Z.of_nat (length l);
  so_owned : forall p, is_Some (tnodes s !! p) -> owned (heap s) p
}.

Lemma word_lookup mem p i ws : mem !! p = Some ws -> word mem p i = default 0 (lookupZ i ws).
Proof. unfold word. by intros ->. Qed.

Lemma word_frame mem mem' p i : mem' !! p = mem !! p -> word mem' p i = word mem p i.
Proof. unfold word. by intros ->. Qed.

Lemma chain_frame mem mem' p l :
  (forall q, q ∈ l -> mem' !! q = mem !! q) -> chain mem p l -> chain mem' p l.
Proof.
  revert p. induction l as [|q l IH]; intros p Hf; simpl; [done|].
  intros [-> Hc]. split; [done|]. rewrite (word_frame mem mem') by (apply Hf; by left).
  apply IH; [|done]. intros q' Hq'. apply Hf. by right.
Qed.

Lemma node_ok_frame mem mem' p : mem' !! p = mem !! p -> node_ok mem p -> node_ok mem' p.
Proof. unfold node_ok. by intros ->. Qed.

Lemma node_ok_same mem p ws : words_ok cfg ws -> node_ok mem p -> node_ok (<[p := ws]> mem) p.
Proof. intros Hws [Hp _]. split; [done|]. exists ws. by rewrite lookup_insert_eq. Qed.

Lemma node_ok_insert mem p q ws :
  words_ok cfg ws -> node_ok mem q -> node_ok (<[p := ws]> mem) q.
Proof.
  intros Hws Hq. destruct (decide (p = q)) as [->|Hne]; [by apply node_ok_same|].
  eapply node_ok_frame; [|done]. by apply lookup_insert_ne.
Qed.

(** Writing a tnode in use. *)
Lemma store_ok_write s U l p ws :
  store_ok s U l -> p ∈ U -> words_ok cfg ws -> store_ok (with_tnode p ws s) U l.
Proof.
  intros [Hc Hnd Hd Hu Hf Hn Ho] Hp Hws. unfold with_tnode.
  split; simp_fields; try done.
  - eapply chain_frame; [|done]. intros q Hq. apply lookup_insert_ne. intros ->. by apply (Hd q).
  - intros q Hq. apply node_ok_insert; auto.
  - intros q Hq. apply node_ok_insert; auto.
  - intros q [ws' Hq]. apply Ho. apply lookup_insert_Some in Hq as [[<- _]|[_ Hq]]; [|by eexists].
    destruct (Hu p Hp) as [_ (ws0 & -> & _)]. by eexists.
Qed.

Lemma store_lookup s U l p :
  store_ok s U l -> p ∈ U -> exists ws, tnodes s !! p = Some ws /\ words_ok cfg ws.
Proof. intros Hs Hp. destruct (so_used _ _ _ Hs p Hp) as [_ H]. exact H. Qed.

Lemma words_len ws i : words_ok cfg ws -> 0 <= i < 8 -> 0 <= i < Z.of_nat (length ws).
Proof. intros [-> _] Hi. pose proof (tnodeWords_range cfg Hcfg). lia. Qed.

Lemma wp_get_ptr s U l p i (Q : Z -> Tnodes K -> Prop) :
  store_ok s U l -> p ∈ U -> 0 <= i < 8 -> Q (word (tnodes s) p i) s -> wp (get_word p i) Q s.
Proof.
  intros Hs Hp Hi HQ. destruct (store_lookup s U l p Hs Hp) as (ws & Hws & Hok).
  apply wp_get_word with ws; [done|by apply words_len|]. by rewrite <- (word_lookup (tnodes s) p).
Qed.

(** [yaffs_FreeTnode] moves a tnode from the used ones to the head of the free list. *)
Lemma FreeTnode_spec s U l p :
  store_ok s U l -> p ∈ U ->
  wp (yaffs_FreeTnode p) (fun _ s' =>
    store_ok s' (U ∖ {[p]}) (p :: l) /\ (forall q, q <> p -> tnodes s' !! q = tnodes s !! q)) s.
Proof.
  intros Hs Hp. destruct (store_lookup s U l p Hs Hp) as (ws & Hws & Hok).
  pose proof (so_used _ _ _ Hs p Hp) as [Hp0 _].
  destruct Hs as [Hc Hnd Hd Hu Hf Hn Ho].
  assert (Hfree : is_u32 (freeTnodes s)).
  { destruct l as [|q l]; simpl in Hc; [rewrite Hc; by unfold is_u32|].
    destruct Hc as [-> _]. destruct (Hf q) as [? _]; [by left|]. unfold is_u32. lia. }
  unfold yaffs_FreeTnode, ztrue. rewrite (proj2 (Z.eqb_neq p 0)) by lia. simpl.
  wp_steps. eapply wp_put_word; [done|apply words_len; [done|lia]|].
  set (ws' := <[Z.to_nat 0 := freeTnodes s]> ws).
  assert (Hws' : words_ok cfg ws') by (apply words_ok_insert; [done|done]).
  wp_steps. unfold with_tnode. split.
  - assert (Hne : forall q, q ∈ l -> q <> p) by (intros q Hq ->; by apply (Hd p)).
    split; simp_fields.
    + split; [done|]. rewrite (word_lookup _ p 0 ws') by apply lookup_insert_eq.
      replace (default 0 (lookupZ 0 ws')) with (freeTnodes s).
      * eapply chain_frame; [|done]. intros q Hq. apply lookup_insert_ne. intros <-. by apply (Hne p).
      * unfold ws', lookupZ. simpl. rewrite list_lookup_insert_eq; [done|].
        destruct Hok as [Hl _]. pose proof (tnodeWords_range cfg Hcfg). lia.
    + constructor; [|done]. intros Hpl. by apply (Hne p).
    + intros q [->|Hq]%elem_of_cons; [by rewrite elem_of_difference, elem_of_singleton; intros []|].
      intros [Hq' _]%elem_of_difference. by apply (Hd q Hq).
    + intros q [Hq _]%elem_of_difference. apply node_ok_insert; auto.
    + intros q [->|Hq]%elem_of_cons; apply node_ok_insert; auto.
    + rewrite Hn. simpl length. lia.
    + intros q [x Hq]. apply Ho. apply lookup_insert_Some in Hq as [[<- _]|[_ Hq]]; by eexists.
  - intros q Hq. simp_fields. by apply lookup_insert_ne.
Qed.

Lemma raw_words_ok (k : K) p : words_ok cfg (raw_words cfg k p).
Proof.
  pose proof (tnodeWords_range cfg Hcfg). split.
  - unfold raw_words. rewrite length_fmap, length_seqZ. lia.
  - apply Forall_fmap, Forall_forall. intros x _. apply (wrap_range 32). lia.
Qed.

Lemma seqZ_split a n d x r : seqZ a n = d ++ x :: r -> x = a + Z.of_nat (length d) /\ Z.of_nat (length d) < n.
Proof.
  intros H. assert (Hx : seqZ a n !! length d = Some x).
  { by rewrite H, lookup_app_r, Nat.sub_diag by lia. }
  by apply lookup_seqZ in Hx.
Qed.

(** The tnodes of a new bunch. *)
Definition bunch (mem n : Z) : list Z := (fun i => mem + i * tnodeSize cfg) <$> seqZ 0 n.

Lemma bunch_inj mem i j : mem + i * tnodeSize cfg = mem + j * tnodeSize cfg -> i = j.
Proof.
  pose proof (tnodeWords_range cfg Hcfg). rewrite (tnodeSize_eq cfg Hcfg). nia.
Qed.

Lemma elem_of_bunch mem n p : p ∈ bunch mem n <-> exists i, p = mem + i * tnodeSize cfg /\ 0 <= i < n.
Proof.
  unfold bunch. rewrite list_elem_of_fmap. split; intros (i & -> & Hi); exists i; split; try done.
  - apply elem_of_seqZ in Hi. lia.
  - apply elem_of_seqZ. lia.
Qed.

Lemma chain_app mem p q l l' :
  (forall i, (i < length l)%nat -> word mem (default 0 (l !! i)) 0 = default q ((l ++ [q]) !! S i)) ->
  default q (l !! 0%nat) = p -> chain mem q l' -> chain mem p (l ++ l').
Proof.
  revert p. induction l as [|x l IH]; intros p Hw Hp Hc; simpl in *; [by subst|].
  split; [done|]. apply IH; [intros i Hi; apply (Hw (S i)); lia| |done].
  specialize (Hw 0%nat ltac:(lia)). simpl in Hw. rewrite Hw. by destruct l.
Qed.
(** The loop that makes the memory of a new bunch, and the one that chains it. *)
Lemma carve_spec mem n s :
  wp (for_each (seqZ 0 n) (fun i => modify (fun s : Tnodes K =>
    s <| tnodes ::= <[mem + i * tnodeSize cfg :=
      raw_words cfg (heap s) (mem + i * tnodeSize cfg)]> |>)))
  (fun _ s' => exists tns, s' = s <| tnodes := tns |> /\
    (forall p, p ∈ bunch mem n -> exists ws, tns !! p = Some ws /\ words_ok cfg ws) /\
    (forall p, p ∉ bunch mem n -> tns !! p = tnodes s !! p)) s.
Proof.
  eapply wp_mono; [apply (wp_for_each (fun d s' => exists tns, s' = s <| tnodes := tns |> /\
    (forall p, p ∈ bunch mem (Z.of_nat (length d)) -> exists ws, tns !! p = Some ws /\ words_ok cfg ws) /\
    (forall p, p ∉ bunch mem (Z.of_nat (length d)) -> tns !! p = tnodes s !! p)))|].
  - exists (tnodes s). split; [by destruct s|]. split; [|done].
    intros p (i & -> & Hi)%elem_of_bunch. simpl in Hi. lia.
  - intros d x r s' Hseq (tns & -> & Hin & Hout). apply seqZ_split in Hseq as [-> Hd].
    wp_steps. simp_fields.
    exists (<[mem + (0 + Z.of_nat (length d)) * tnodeSize cfg :=
      raw_words cfg (heap s) (mem + (0 + Z.of_nat (length d)) * tnodeSize cfg)]> tns).
    split; [by destruct s|]. rewrite length_app. simpl length. split.
    + intros p (i & -> & Hi)%elem_of_bunch.
      destruct (decide (i = Z.of_nat (length d))) as [->|Hne].
      * rewrite Z.add_0_l, lookup_insert_eq. eexists. split; [done|apply raw_words_ok].
      * rewrite lookup_insert_ne by (intros He%bunch_inj; lia).
        apply Hin, elem_of_bunch. exists i. split; [done|lia].
    + intros p Hp. rewrite lookup_insert_ne.
      * apply Hout. intros (i & -> & Hi)%elem_of_bunch. apply Hp, elem_of_bunch.
        exists i. split; [done|lia].
      * intros <-. apply Hp, elem_of_bunch. exists (Z.of_nat (length d)). split; [done|lia].
  - intros [] s' (tns & -> & Hin & Hout). exists tns. split; [done|].
    rewrite length_seqZ in Hin, Hout. destruct (decide (0 <= n)) as [Hn|Hn].
    + rewrite Z2Nat.id in Hin, Hout by done. done.
    + replace (Z.of_nat (Z.to_nat n)) with 0 in Hin, Hout by lia. split; intros p Hp.
      * apply elem_of_bunch in Hp as (i & _ & ?). lia.
      * apply Hout. intros (i & _ & ?)%elem_of_bunch. lia.
Qed.

Lemma link_spec mem n s :
  (forall p, p ∈ bunch mem n -> exists ws, tnodes s !! p = Some ws /\ words_ok cfg ws) ->
  0 < mem -> mem + n * tnodeSize cfg <= 2 ^ 32 ->
  wp (for_each (seqZ 0 (n - 1)) (fun i =>
    put_word (mem + i * tnodeSize cfg) 0 (mem + (i + 1) * tnodeSize cfg)))
  (fun _ s' => exists tns, s' = s <| tnodes := tns |> /\
    (forall i, 0 <= i < n -> exists ws, tns !! (mem + i * tnodeSize cfg) = Some ws /\
      words_ok cfg ws /\
      (i < n - 1 -> default 0 (lookupZ 0 ws) = mem + (i + 1) * tnodeSize cfg)) /\
    (forall p, p ∉ bunch mem n -> tns !! p = tnodes s !! p)) s.
Proof.
  intros Hb Hm Hend. pose proof (tnodeWords_range cfg Hcfg) as Hn8.
  eapply wp_mono; [apply (wp_for_each (fun d s' => exists tns, s' = s <| tnodes := tns |> /\
    (forall i, 0 <= i < n -> exists ws, tns !! (mem + i * tnodeSize cfg) = Some ws /\
      words_ok cfg ws /\
      (i < Z.of_nat (length d) -> default 0 (lookupZ 0 ws) = mem + (i + 1) * tnodeSize cfg)) /\
    (forall p, p ∉ bunch mem n -> tns !! p = tnodes s !! p)))|].
  - exists (tnodes s). split; [by destruct s|]. split; [|done]. intros i Hi.
    destruct (Hb (mem + i * tnodeSize cfg)) as (ws & Hws & Hok);
      [apply elem_of_bunch; by exists i|].
    exists ws. split; [done|]. split; [done|]. simpl. lia.
  - intros d x r s' Hseq (tns & -> & Hin & Hout). apply seqZ_split in Hseq as [-> Hd].
    set (k := Z.of_nat (length d)) in *. rewrite Z.add_0_l.
    destruct (Hin k) as (ws & Hws & Hok & _); [lia|].
    eapply wp_put_word; [exact Hws|apply words_len; [done|lia]|].
    exists (<[mem + k * tnodeSize cfg := <[Z.to_nat 0 := mem + (k + 1) * tnodeSize cfg]> ws]> tns).
    split; [by destruct s|]. rewrite length_app. simpl length. split.
    + intros i Hi. destruct (decide (i = k)) as [->|Hne].
      * rewrite lookup_insert_eq. eexists. split; [done|]. split.
        -- apply words_ok_insert; [done|]. unfold is_u32.
           rewrite (tnodeSize_eq cfg Hcfg) in *. nia.
        -- intros _. unfold lookupZ. simpl. rewrite list_lookup_insert_eq; [done|].
           destruct Hok. lia.
      * rewrite lookup_insert_ne by (intros He%bunch_inj; lia).
        destruct (Hin i Hi) as (ws' & Hws' & Hok' & Hlt). exists ws'.
        split; [done|]. split; [done|]. intros. apply Hlt. lia.
    + intros p Hp. rewrite lookup_insert_ne; [by apply Hout|].
      intros <-. apply Hp, elem_of_bunch. exists k. split; [done|lia].
  - intros [] s' (tns & -> & Hin & Hout). exists tns. split; [done|]. split; [|done].
    intros i Hi. destruct (Hin i Hi) as (ws & Hws & Hok & Hlt). exists ws. split; [done|].
    split; [done|]. intros Hi'. apply Hlt. rewrite length_seqZ. lia.
Qed.

(** A chained bunch in memory that nobody owned goes in front of the free list. *)
Lemma bunch_store s U l mem n t k tc al :
  store_ok s U l -> 0 < n -> 0 < mem -> mem + n * tnodeSize cfg <= 2 ^ 32 ->
  (forall p, p ∈ bunch mem n -> ~ owned (heap s) p /\ owned k p) ->
  (forall p, owned (heap s) p -> owned k p) ->
  (forall p, p ∉ bunch mem n -> t !! p = tnodes s !! p) ->
  (forall i, 0 <= i < n -> exists ws, t !! (mem + i * tnodeSize cfg) = Some ws /\
    words_ok cfg ws /\ default 0 (lookupZ 0 ws) =
      if decide (i = n - 1) then freeTnodes s else mem + (i + 1) * tnodeSize cfg) ->
  store_ok (MkTnodes t mem (n + nFreeTnodes s) tc al k) U (bunch mem n ++ l).
Proof.
  intros [Hc Hnd Hd Hu Hf Hcnt Ho] Hn Hm Hend Hown Hkeep Hold Hb.
  pose proof (tnodeWords_range cfg Hcfg) as Hn8.
  assert (Hnode : forall p, node_ok (tnodes s) p -> p ∉ bunch mem n).
  { intros p [_ (ws & Hws & _)] Hp. apply (Hown p Hp), Ho. by exists ws. }
  assert (Hbl : forall p, p ∈ bunch mem n -> node_ok t p).
  { intros p (i & -> & Hi)%elem_of_bunch. destruct (Hb i Hi) as (ws & Hws & Hok & _).
    split; [|by exists ws]. rewrite (tnodeSize_eq cfg Hcfg) in *. nia. }
  assert (Hlen : length (bunch mem n) = Z.to_nat n).
  { unfold bunch. by rewrite length_fmap, length_seqZ. }
  assert (Hat : forall i, (i < Z.to_nat n)%nat ->
    bunch mem n !! i = Some (mem + Z.of_nat i * tnodeSize cfg)).
  { intros i Hi. unfold bunch. rewrite list_lookup_fmap, lookup_seqZ_lt by lia. done. }
  split; cbn [tnodes freeTnodes nFreeTnodes heap].
  - apply chain_app with (freeTnodes s).
    + intros i Hi. rewrite Hlen in Hi. rewrite Hat by done. simpl.
      destruct (Hb (Z.of_nat i)) as (ws & Hws & _ & Hw0); [lia|].
      rewrite (word_lookup _ _ _ _ Hws), Hw0. destruct (decide (Z.of_nat i = n - 1)).
      * rewrite lookup_app_r, Hlen by lia. by replace (S i - Z.to_nat n)%nat with 0%nat by lia.
      * rewrite lookup_app_l by (rewrite Hlen; lia). rewrite Hat by lia. simpl. lia.
    + rewrite Hat by lia. simpl. lia.
    + eapply chain_frame; [|done]. intros q Hq. apply Hold. by apply Hnode, Hf.
  - apply NoDup_app. split; [|split; [|done]].
    + unfold bunch. apply NoDup_fmap_2; [intros i j; apply bunch_inj|apply NoDup_seqZ].
    + intros p Hp Hpl. by apply (Hnode p (Hf p Hpl)).
  - intros p [Hp|Hp]%elem_of_app; [|by apply Hd]. intros HpU. by apply (Hnode p (Hu p HpU)).
  - intros p Hp. eapply node_ok_frame; [|by apply Hu]. by apply Hold, Hnode, Hu.
  - intros p [Hp|Hp]%elem_of_app; [by apply Hbl|].
    eapply node_ok_frame; [|by apply Hf]. by apply Hold, Hnode, Hf.
  - rewrite length_app, Hlen, Hcnt. lia.
  - intros p Hp. destruct (decide (p ∈ bunch mem n)) as [Hb'|Hb']; [by apply Hown|].
    rewrite Hold in Hp by done. auto.
Qed.

Lemma YMALLOC_run sz s : YMALLOC sz s =
  Some (fst (ymalloc sz (heap s)), s <| heap := snd (ymalloc sz (heap s)) |>).
Proof. unfold YMALLOC. by destruct (ymalloc sz (heap s)). Qed.

Lemma free_u32 s U l : store_ok s U l -> is_u32 (freeTnodes s).
Proof.
  intros [Hc _ _ _ Hf _ _]. destruct l as [|q l]; simpl in Hc; [rewrite Hc; by unfold is_u32|].
  destruct Hc as [-> _]. destruct (Hf q) as [? _]; [by left|]. unfold is_u32. lia.
Qed.

(** The kernel refuses the memory of [n] tnodes. *)
Definition refused (n : Z) (s : Tnodes K) : Prop :=
  fst (ymalloc (n * tnodeSize cfg) (heap s)) = 0.

(** [yaffs_CreateTnodes] adds a chained bunch of [n] tnodes in front of the free list, or
    nothing when the kernel refuses their memory. *)
Lemma CreateTnodes_spec s U l n :
  store_ok s U l -> 0 < n ->
  wp (yaffs_CreateTnodes cfg n) (fun r s' =>
    (exists new, store_ok s' U (new ++ l) /\ (new = [] <-> refused n s) /\
      (r = YAFFS_OK -> Z.of_nat (length new) = n)) /\
    (forall q, q ∈ U -> tnodes s' !! q = tnodes s !! q)) s.
Proof.
  intros Hs Hn. pose proof (tnodeWords_range cfg Hcfg) as Hn8.
  unfold yaffs_CreateTnodes. rewrite (proj2 (Z.ltb_ge n 1)) by lia.
  apply wp_bind. eapply wp_of_run; [apply YMALLOC_run|].
  set (mem := fst (ymalloc (n * tnodeSize cfg) (heap s))).
  set (k1 := snd (ymalloc (n * tnodeSize cfg) (heap s))).
  apply wp_if. destruct (Z.eqb_spec mem 0) as [H0|Hne].
  { apply wp_ret. split; [|intros; by simp_fields]. exists []. split; [|by unfold refused; fold mem].
    destruct Hs. split; simp_fields; try done. intros p Hp. apply ymalloc_keeps; auto. }
  destruct (ymalloc_fresh (n * tnodeSize cfg) (heap s) Hne) as (Hm & Hend & Hfresh).
  fold mem k1 in Hm, Hend, Hfresh.
  assert (Hown : forall p, p ∈ bunch mem n -> ~ owned (heap s) p /\ owned k1 p).
  { intros p (i & -> & Hi)%elem_of_bunch. apply Hfresh. rewrite (tnodeSize_eq cfg Hcfg). nia. }
  eapply wp_seq; [apply (carve_spec mem n)|]. intros [] s1 (t1 & -> & Hin1 & Hout1).
  simp_fields_in Hout1.
  eapply wp_seq; [apply (link_spec mem n); [done|lia|lia]|].
  intros [] s2 (t2 & -> & Hin2 & Hout2). simp_fields_in Hout2.
  apply wp_bind, wp_gets. simp_fields.
  destruct (Hin2 (n - 1)) as (wsl & Hwsl & Hokl & _); [lia|].
  apply wp_bind. eapply wp_put_word; [exact Hwsl|apply words_len; [done|lia]|]. simp_fields.
  set (t3 := <[mem + (n - 1) * tnodeSize cfg := <[Z.to_nat 0 := freeTnodes s]> wsl]> t2).
  assert (Hold : forall p, p ∉ bunch mem n -> t3 !! p = tnodes s !! p).
  { intros p Hp. unfold t3. rewrite lookup_insert_ne; [by rewrite Hout2, Hout1|].
    intros <-. apply Hp, elem_of_bunch. exists (n - 1). split; [done|lia]. }
  assert (Hst : forall k tc al, (forall p, owned k1 p -> owned k p) ->
    store_ok (MkTnodes t3 mem (n + nFreeTnodes s) tc al k) U (bunch mem n ++ l)).
  { intros k tc al Hk. apply bunch_store; try done.
    - intros p Hp. destruct (Hown p Hp). auto.
    - intros p Hp. apply Hk. by apply ymalloc_keeps.
    - intros i Hi. unfold t3. destruct (decide (i = n - 1)) as [->|Hne'].
      + rewrite lookup_insert_eq. eexists. split; [done|].
        split; [by eapply words_ok_insert, free_u32|].
        unfold lookupZ. simpl. rewrite list_lookup_insert_eq; [done|]. destruct Hokl. lia.
      + rewrite lookup_insert_ne by (intros He%bunch_inj; lia).
        destruct (Hin2 i Hi) as (ws & Hws & Hok & Hlt). exists ws. split; [done|].
        split; [done|]. apply Hlt. lia. }
  assert (Hframe : forall q, q ∈ U -> t3 !! q = tnodes s !! q).
  { intros q Hq. apply Hold. intros Hb. apply (Hown q Hb), (so_owned _ _ _ Hs).
    destruct (store_lookup _ _ _ _ Hs Hq) as (ws & -> & _). by exists ws. }
  assert (Hlen : Z.of_nat (length (bunch mem n)) = n).
  { unfold bunch. rewrite length_fmap, length_seqZ. lia. }
  do 3 apply wp_bind, wp_modify. apply wp_bind. eapply wp_of_run; [apply YMALLOC_run|].
  apply wp_if. match goal with |- context [fst ?x =? 0] => destruct (Z.eqb_spec (fst x) 0) end;
    [|apply wp_bind, wp_modify];
    (apply wp_ret; split; [|exact Hframe]; exists (bunch mem n);
     split; [apply Hst; intros p; apply ymalloc_keeps|split; [|done]];
     unfold refused; fold mem; split; [intros He; rewrite He in Hlen; simpl in Hlen; lia|done]).
Qed.

(** [yaffs_GetTnode] gives a cleared tnode nobody uses, or 0: exactly when there is none
    left and the kernel refuses the memory for another bunch. *)
Definition got_tnode (s : Tnodes K) (U : gset Z) (l : list Z) (tn : Z) (s' : Tnodes K) : Prop :=
  (forall q, q ∈ U -> tnodes s' !! q = tnodes s !! q) /\
  (tn = 0 <-> l = [] /\ refused YAFFS_ALLOCATION_NTNODES s) /\
  ((tn = 0 /\ l = [] /\ store_ok s' U []) \/
   (tn <> 0 /\ (tn ∉ U) /\ tnodes s' !! tn = Some (replicate (Z.to_nat (tnodeWords cfg)) 0) /\
    exists l', store_ok s' ({[tn]} ∪ U) l' /\ (length l <= S (length l'))%nat)).

Lemma zero_words_ok : words_ok cfg (replicate (Z.to_nat (tnodeWords cfg)) 0).
Proof.
  pose proof (tnodeWords_range cfg Hcfg). split; [rewrite length_replicate; lia|].
  apply Forall_replicate. by unfold is_u32.
Qed.

(** Taking the head of the free list into use. *)
Lemma store_ok_take s U p l ws :
  store_ok s U (p :: l) -> words_ok cfg ws ->
  store_ok ((s <| tnodes ::= <[p := ws]> |>) <| freeTnodes := word (tnodes s) p 0 |>
    <| nFreeTnodes ::= Z.pred |>) ({[p]} ∪ U) l.
Proof.
  intros [[Hp Hc] [Hpl Hnd]%NoDup_cons Hd Hu Hf Hn Ho] Hws. split; simp_fields.
  - eapply chain_frame; [|exact Hc]. intros q Hq. apply lookup_insert_ne. by intros ->.
  - done.
  - intros q Hq. rewrite elem_of_union, elem_of_singleton. intros [->|HqU]; [done|].
    apply (Hd q); [by right|done].
  - intros q [->%elem_of_singleton|Hq]%elem_of_union; apply node_ok_insert; auto.
    apply Hf. by left.
  - intros q Hq. apply node_ok_insert; [done|]. apply Hf. by right.
  - rewrite Hn. simpl length. lia.
  - intros q [x [[<- _]|[_ Hx]]%lookup_insert_Some]; apply Ho; [|by exists x].
    destruct (Hf p) as [_ (w & -> & _)]; [by left|by exists w].
Qed.

Lemma GetTnode_take s U p l (Q : Z -> Tnodes K -> Prop) :
  store_ok s U (p :: l) ->
  Q p ((s <| tnodes ::= <[p := replicate (Z.to_nat (tnodeWords cfg)) 0]> |>)
     <| freeTnodes := word (tnodes s) p 0 |> <| nFreeTnodes ::= Z.pred |>) ->
  wp (free ← gets freeTnodes;
    if ztrue free then
      next ← get_word free 0;
      _ ← modify (fun s : Tnodes K => s <| freeTnodes := next |>);
      _ ← modify (fun s : Tnodes K => s <| nFreeTnodes ::= Z.pred |>);
      mret free else mret 0)
  (fun tn s1 => wp (_ ← when (ztrue tn) (clear_tnode cfg tn); mret tn) Q s1) s.
Proof.
  intros Hs HQ. destruct (so_free _ _ _ Hs p) as [Hp (ws & Hws & Hok)]; [by left|].
  destruct (so_chain _ _ _ Hs) as [Hfree _].
  apply wp_bind, wp_gets. rewrite Hfree. unfold ztrue.
  rewrite (proj2 (Z.eqb_neq p 0)) by lia. simpl negb. cbv iota.
  apply wp_bind. apply wp_get_word with ws; [done|apply words_len; [done|lia]|].
  rewrite <- (word_lookup (tnodes s) p 0 ws Hws).
  wp_steps. rewrite (proj2 (Z.eqb_neq p 0)) by lia. simpl negb. cbv iota.
  unfold clear_tnode. wp_steps. apply wp_of_option with ws; [done|]. wp_steps.
  by destruct s.
Qed.

Lemma GetTnode_spec s U l :
  store_ok s U l -> wp (yaffs_GetTnode cfg) (got_tnode s U l) s.
Proof.
  intros Hs. unfold yaffs_GetTnode, yaffs_GetTnodeRaw.
  assert (Htake : forall s1 p l1, store_ok s1 U (p :: l1) ->
    (forall q, q ∈ U -> tnodes s1 !! q = tnodes s !! q) -> (length l <= S (length l1))%nat ->
    ~ (l = [] /\ refused YAFFS_ALLOCATION_NTNODES s) ->
    got_tnode s U l p ((s1 <| tnodes ::= <[p := replicate (Z.to_nat (tnodeWords cfg)) 0]> |>)
     <| freeTnodes := word (tnodes s1) p 0 |> <| nFreeTnodes ::= Z.pred |>)).
  { intros s1 p l1 Hs1 Hfr Hlen Hno. assert (HpU : p ∉ U) by (apply (so_disj _ _ _ Hs1); by left).
    split.
    - intros q Hq. simp_fields. rewrite lookup_insert_ne by (by intros ->). by apply Hfr.
    - destruct (so_free _ _ _ Hs1 p) as [Hp _]; [by left|]. split; [split; [lia|done]|].
      right. split; [lia|]. split; [done|].
      simp_fields. split; [apply lookup_insert_eq|]. exists l1. split; [|done].
      apply store_ok_take; [done|apply zero_words_ok]. }
  pose proof (so_chain _ _ _ Hs) as Hc. apply wp_bind, wp_bind, wp_gets.
  destruct l as [|p l]; simpl in Hc.
  - rewrite Hc. change (0 =? 0) with true. unfold when at 1. cbv beta iota.
    apply wp_bind. apply wp_bind. eapply wp_mono; [by apply (CreateTnodes_spec _ U [])|].
    intros r s1 ((new & Hs1 & Hno & _) & Hfr). apply wp_ret. rewrite app_nil_r in Hs1.
    destruct new as [|p l1].
    + pose proof (so_chain _ _ _ Hs1) as Hc1. simpl in Hc1.
      apply wp_bind, wp_gets. rewrite Hc1. simpl. wp_steps. split; [done|].
      split; [|by left]. split; [intros _; split; [done|by apply Hno]|done].
    + apply (GetTnode_take s1 U p l1); [done|].
      apply (Htake s1 p l1); [done|done|simpl; lia|]. intros [_ Hr]. by apply Hno in Hr.
  - destruct Hc as [Hc _]. rewrite Hc.
    destruct (so_free _ _ _ Hs p) as [Hp _]; [by left|].
    rewrite (proj2 (Z.eqb_neq p 0)) by lia. apply wp_bind, wp_ret.
    apply (GetTnode_take s U p l); [done|]. apply (Htake s p l); [done|done|simpl; lia|by intros [? _]].
Qed.
End store.

(** A kernel allocator for the examples: addresses grow and never run out before [top]. *)
Definition bump_top : Z := 2 ^ 31.
#[export] Instance bump_kmalloc : Kmalloc Z := {|
  ymalloc n k := if (0 <? k) && (k + Z.max n 1 <=? bump_top) then (k, k + Z.max n 1) else (0, k);
  yfree _ k := k;
  garbage _ a := a
|}.

#[export] Instance bump_laws : KmallocLaws Z.
Proof.
  refine {| owned := fun k a => a < k; in_block := fun _ _ _ => False |}.
  - intros n k a Ha. cbn. destruct (_ && _); cbn; lia.
  - intros n k p Hp. unfold p in *. cbn in *.
    destruct (Z.ltb_spec 0 k), (Z.leb_spec (k + Z.max n 1) bump_top); cbn in *; try lia.
    unfold bump_top in *. change (2 ^ 32) with 4294967296. change (2 ^ 31) with 2147483648 in *.
    split; [lia|]. split; [lia|]. intros a Ha. lia.
  - done.
  - intros p k a Ha _. exact Ha.
  - done.
Defined.

Definition empty_tnodes : Tnodes Z := MkTnodes ∅ 0 0 0 [] 4096.

Lemma sample_tn_cfg_ok : tn_cfg_ok sample_cfg.
Proof. constructor; [done|by exists 8|done|done]. Qed.

Lemma empty_store_ok : store_ok sample_cfg empty_tnodes ∅ [].
Proof.
  constructor; simpl; try done; try apply NoDup_nil_2.
  - intros p Hp. by apply not_elem_of_nil in Hp.
  - intros p [x Hx]. by rewrite lookup_empty in Hx.
Qed.

Section properties.
Context {K : Type} `{!Kmalloc K} (cfg : Config).

(** C23. Level-0 entries are independent packed fields: after writing a chunk number to an
    entry, that entry reads back as the chunk's group (the chunk number with its group bits
    cleared) whenever the number fits the entry, also where the entry straddles two
    words, and every other entry of the tnode reads as before. *)
Theorem PutLevel0Tnode_reads_back (s : Tnodes K) tn pos val pos' ws :
  tn_cfg_ok cfg -> tnodeWidth cfg + chunkGroupBits cfg <= 32 ->
  tnodes s !! tn = Some ws -> words_ok cfg ws ->
  0 <= val < 2 ^ (tnodeWidth cfg + chunkGroupBits cfg) ->
  wp (old ← yaffs_GetChunkGroupBase cfg tn pos';
      _ ← yaffs_PutLevel0Tnode cfg tn pos val;
      new ← yaffs_GetChunkGroupBase cfg tn pos';
      mret (old, new))
    (fun '(old, new) _ =>
      new = if pos' mod 16 =? pos mod 16 then val / 2 ^ chunkGroupBits cfg * 2 ^ chunkGroupBits cfg
            else old) s.
Proof.
  intros Hc Hfit Htn Hws Hval. pose proof (tn_width _ Hc). pose proof (tn_group _ Hc).
  apply wp_bind, (wp_GetChunkGroupBase cfg Hc tn pos' ws); [done|done|].
  apply wp_bind, (wp_PutLevel0Tnode cfg Hc tn pos val ws); [done|done|].
  intros ws' Hws' Hb.
  eapply wp_bind, wp_GetChunkGroupBase; [done|apply tnodes_with_tnode|done|]. apply wp_ret.
  unfold group_of. rewrite (entry_of_put cfg Hc ws ws' pos _ pos' Hws Hws' Hb).
  destruct (_ =? _); [|done].
  rewrite Z.shiftr_div_pow2, Z.land_ones, Z.shiftl_mul_pow2 by lia.
  assert (Hd : 0 <= val / 2 ^ chunkGroupBits cfg < 2 ^ tnodeWidth cfg).
  { rewrite Z.add_comm, Z.pow_add_r in Hval by lia. split; [apply Z.div_pos; lia|].
    apply Z.div_lt_upper_bound; lia. }
  rewrite Z.mod_small by done. apply wrap_small. split; [nia|].
  apply Z.lt_le_trans with (2 ^ (tnodeWidth cfg + chunkGroupBits cfg)); [|apply Z.pow_le_mono_r; lia].
  rewrite Z.pow_add_r by lia. nia.
Qed.

(** C28. [yaffs_GetTnode] keeps the books of the tnode store (the free list is a chain without
    repetition, disjoint from the tnodes in use, and the counter is its length).  It gives
    a cleared tnode that nobody used, changing no tnode in use; it gives null exactly when
    no free tnode is left and the kernel refuses the memory of another bunch of
    [YAFFS_ALLOCATION_NTNODES] tnodes. *)
Theorem GetTnode_clean `{!KmallocLaws K} (s : Tnodes K) U l :
  tn_cfg_ok cfg -> store_ok cfg s U l ->
  wp (yaffs_GetTnode cfg) (fun tn s' =>
    (forall q, q ∈ U -> tnodes s' !! q = tnodes s !! q) /\
    (tn = 0 <-> l = [] /\ refused cfg YAFFS_ALLOCATION_NTNODES s) /\
    if tn =? 0 then store_ok cfg s' U []
    else (tn ∉ U) /\ tnodes s' !! tn = Some (replicate (Z.to_nat (tnodeWords cfg)) 0) /\
      exists l', store_ok cfg s' ({[tn]} ∪ U) l') s.
Proof.
  intros Hc Hs. eapply wp_mono; [by apply GetTnode_spec|].
  intros tn s' (Hf & Hno & [(-> & -> & H)|(Hne & Hn & Hz & l' & H & _)]); do 2 (split; [done|]);
    [done|].
  rewrite (proj2 (Z.eqb_neq tn 0)) by done. eauto.
Qed.
End properties.

(** An entry of 18 bits that straddles two words, in groups of two chunks. *)
Definition wide_cfg : Config :=
  sample_cfg <| tnodeWidth := 18 |> <| tnodeMask := 2 ^ 18 - 1 |> <| chunkGroupBits := 1 |>
    <| chunkGroupSize := 2 |>.
Definition wide_tnodes : Tnodes Z := MkTnodes {[ 4096 := replicate 9 (2 ^ 32 - 1) ]} 0 0 0 [] 4096.

Lemma wide_cfg_ok : tn_cfg_ok wide_cfg.
Proof. constructor; [done|by exists 9|done|done]. Qed.

Lemma PutLevel0Tnode_reads_back_witness :
  tn_cfg_ok wide_cfg /\
  wp (old ← yaffs_GetChunkGroupBase wide_cfg 4096 1;
      _ ← yaffs_PutLevel0Tnode wide_cfg 4096 1 0x2ABCD;
      new ← yaffs_GetChunkGroupBase wide_cfg 4096 1;
      mret (old, new)) (fun '(old, new) _ => new = 0x2ABCC) wide_tnodes.
Proof.
  split; [apply wide_cfg_ok|].
  pose proof (PutLevel0Tnode_reads_back wide_cfg wide_tnodes 4096 1 0x2ABCD 1
    (replicate 9 (2 ^ 32 - 1)) wide_cfg_ok ltac:(done) ltac:(reflexivity)
    ltac:(split; [reflexivity|apply Forall_replicate; by unfold is_u32]) ltac:(done)) as H.
  exact H.
Defined.

Lemma GetTnode_clean_witness :
  store_ok sample_cfg empty_tnodes ∅ [] /\
  wp (yaffs_GetTnode sample_cfg) (fun tn s' =>
    (forall q, q ∈ (∅ : gset Z) -> tnodes s' !! q = tnodes empty_tnodes !! q) /\
    (tn = 0 <-> @nil Z = [] /\ refused sample_cfg YAFFS_ALLOCATION_NTNODES empty_tnodes) /\
    if tn =? 0 then store_ok sample_cfg s' ∅ []
    else tn ∉ (∅ : gset Z) /\
      tnodes s' !! tn = Some (replicate (Z.to_nat (tnodeWords sample_cfg)) 0) /\
      exists l', store_ok sample_cfg s' ({[tn]} ∪ ∅) l') empty_tnodes.
Proof.
  split; [apply empty_store_ok|].
  apply (GetTnode_clean sample_cfg empty_tnodes ∅ [] sample_tn_cfg_ok empty_store_ok).
Defined.
