(* ===== verification/Tree.v ===== *)
(** * The look-up tree of a file ([yaffs_guts.c])

    A file's chunks are found through a tree of tnodes: [topLevel] levels of internal
    nodes with eight children above level-0 tnodes with sixteen entries.  The
    operations take and return the [yaffs_FileStructure]; the tnodes live in the store
    of [Tnode].  The theorems show that the tree implements a map from chunk numbers
    of the file to chunk groups of the device. *)
From S2P Require Import Prelude Monad Device Tnode.

(** [yaffs_FileStructure] *)
Record FileStructure := MkFileStructure {
  fileSize : Z;
  scannedFileSize : Z;
  shrinkSize : Z;
  topLevel : Z;
  top : Z
}.
#[export] Instance eta_FileStructure : EtaExpand FileStructure := fun r =>
  MkFileStructure (fileSize r) (scannedFileSize r) (shrinkSize r) (topLevel r) (top r).
#[export] Instance upd_fileSize : FieldUpdate fileSize := ltac:(build_field_update).
#[export] Instance upd_scannedFileSize : FieldUpdate scannedFileSize := ltac:(build_field_update).
#[export] Instance upd_shrinkSize : FieldUpdate shrinkSize := ltac:(build_field_update).
#[export] Instance upd_topLevel : FieldUpdate topLevel := ltac:(build_field_update).
#[export] Instance upd_top : FieldUpdate top := ltac:(build_field_update).

Section tree.
Context {K : Type} `{!Kmalloc K} (cfg : Config).
Local Abbreviation St := (Tnodes K).

(** [while (i) { i >>= YAFFS_TNODES_INTERNAL_BITS; requiredTallness++; }]: a 32-bit
    number is used up after eleven rounds. *)
Fixpoint tallness_loop (fuel : nat) (i n : Z) : Z :=
  match fuel with
  | O => n
  | S fuel =>
      if ztrue i then tallness_loop fuel (Z.shiftr i YAFFS_TNODES_INTERNAL_BITS) (n + 1) else n
  end.
Definition requiredTallness (chunkId : Z) : Z :=
  tallness_loop 11 (Z.shiftr chunkId YAFFS_TNODES_LEVEL0_BITS) 0.

(** The child that leads to a chunk, in a node [l] levels above its children's level 0. *)
Definition slot (l : nat) (chunkId : Z) : Z :=
  Z.land (Z.shiftr chunkId (YAFFS_TNODES_LEVEL0_BITS + Z.of_nat l * YAFFS_TNODES_INTERNAL_BITS))
    YAFFS_TNODES_INTERNAL_MASK.

(** [while (level > 0 && tn) ...] *)
Fixpoint find_down (level : nat) (tn chunkId : Z) : M St Z :=
  match level with
  | O => mret tn
  | S l =>
      if ztrue tn then
        next ← get_word tn (slot l chunkId);
        find_down l next chunkId
      else mret tn
  end.

Definition yaffs_FindLevel0Tnode (fStruct : FileStructure) (chunkId : Z) : M St Z :=
  let level := topLevel fStruct in
  if (level <? 0) || (YAFFS_TNODES_MAX_LEVEL <? level) then mret 0 else
  if YAFFS_MAX_CHUNK_ID <? chunkId then mret 0 else
  if topLevel fStruct <? requiredTallness chunkId then mret 0 else
  find_down (Z.to_nat level) (top fStruct) chunkId.

(** One more level on top, unless there is no tnode left. *)
Definition grow_one (top : Z) : M St Z :=
  tn ← yaffs_GetTnode cfg;
  if ztrue tn then
    _ ← put_word tn 0 top;
    mret tn
  else mret top.

(** The body of the second loop: makes sure that [tn->internal[x]] is there. *)
Definition add_child (level tn x passedTn : Z) : M St unit :=
  p ← get_word tn x;
  if (1 <? level) && negb (ztrue p) then
    q ← yaffs_GetTnode cfg;
    put_word tn x q
  else if level =? 1 then
    if ztrue passedTn then
      _ ← when (ztrue p) (yaffs_FreeTnode p);
      put_word tn x passedTn
    else if negb (ztrue p) then
      q ← yaffs_GetTnode cfg;
      put_word tn x q
    else mret tt
  else mret tt.

Fixpoint add_down (level : nat) (tn chunkId passedTn : Z) : M St Z :=
  match level with
  | O => mret tn
  | S l =>
      if ztrue tn then
        let x := slot l chunkId in
        _ ← add_child (Z.of_nat level) tn x passedTn;
        next ← get_word tn x;
        add_down l next chunkId passedTn
      else mret tn
  end.

(** [memcpy(tn, passedTn, ...)] *)
Definition copy_tnode (tn passedTn : Z) : M St unit :=
  mem ← gets tnodes;
  ws ← of_option (mem !! passedTn);
  _ ← of_option (mem !! tn);
  modify (fun s => s <| tnodes := <[tn := ws]> mem |>).

Definition yaffs_AddOrFindLevel0Tnode (fStruct : FileStructure) (chunkId passedTn : Z)
    : M St (Z * FileStructure) :=
  if (topLevel fStruct <? 0) || (YAFFS_TNODES_MAX_LEVEL <? topLevel fStruct) then
    mret (0, fStruct) else
  if YAFFS_MAX_CHUNK_ID <? chunkId then mret (0, fStruct) else
  let tall := requiredTallness chunkId in
  fStruct ← (if topLevel fStruct <? tall then
    newTop ← for_acc (seqZ (topLevel fStruct) (tall - topLevel fStruct))
      (fun _ t => grow_one t) (top fStruct);
    mret (fStruct <| top := newTop |> <| topLevel := tall |>)
  else mret fStruct);
  if 0 <? topLevel fStruct then
    tn ← add_down (Z.to_nat (topLevel fStruct)) (top fStruct) chunkId passedTn;
    mret (tn, fStruct)
  else
    _ ← when (ztrue passedTn) (
      _ ← copy_tnode (top fStruct) passedTn;
      yaffs_FreeTnode passedTn);
    mret (top fStruct, fStruct).

(** ** Pruning *)

(** The worker frees the tnodes without non-zero words and returns the tnode or null. *)
Fixpoint yaffs_PruneWorker (level : nat) (tn : Z) (del0 : bool) : M St Z :=
  if ztrue tn then
    hasData ← for_acc (seqZ 0 YAFFS_NTNODES_INTERNAL) (fun i hasData =>
      p ← get_word tn i;
      _ ← match level with
          | O => mret tt
          | S l =>
              if ztrue p then
                q ← yaffs_PruneWorker l p (if i =? 0 then del0 else true);
                put_word tn i q
              else mret tt
          end;
      p ← get_word tn i;
      mret (if ztrue p then hasData + 1 else hasData)) 0;
    if (hasData =? 0) && del0 then
      _ ← yaffs_FreeTnode tn;
      mret 0
    else mret tn
  else mret tn.

(** [while (fStruct->topLevel && !done) ...]: returns [topLevel] and [top]. *)
Fixpoint shorten (level : nat) (tn : Z) : M St (Z * Z) :=
  match level with
  | O => mret (0, tn)
  | S l =>
      hasData ← for_acc (seqZ 1 (YAFFS_NTNODES_INTERNAL - 1)) (fun i hasData =>
        p ← get_word tn i;
        mret (if ztrue p then hasData + 1 else hasData)) 0;
      if hasData =? 0 then
        next ← get_word tn 0;
        _ ← yaffs_FreeTnode tn;
        shorten l next
      else mret (Z.of_nat level, tn)
  end.

Definition yaffs_PruneFileStructure (fStruct : FileStructure) : M St (Z * FileStructure) :=
  if 0 <? topLevel fStruct then
    t ← yaffs_PruneWorker (Z.to_nat (topLevel fStruct)) (top fStruct) false;
    '(l, t) ← shorten (Z.to_nat (topLevel fStruct)) t;
    mret (YAFFS_OK, fStruct <| top := t |> <| topLevel := l |>)
  else mret (YAFFS_OK, fStruct).
End tree.

(** ** Shape of the tree *)

Section shape.
Implicit Types mem : gmap Z (list Z).

(** A tree with [l] levels of internal nodes at [p], its tnodes in [F]; the subtrees share
    no tnode. *)
Fixpoint tree mem (l : nat) (p : Z) (F : gset Z) : Prop :=
  p = 0 \/ (p ∈ F /\ p <> 0 /\
  match l with
  | O => True
  | S l => exists Fs : Z -> gset Z,
      (forall i, 0 <= i < 8 -> Fs i ⊆ F /\ p ∉ Fs i /\ tree mem l (word mem p i) (Fs i)) /\
      (forall i j, 0 <= i < 8 -> 0 <= j < 8 -> i <> j -> Fs i ## Fs j)
  end).

(** The level-0 tnode of a chunk, and the chunk's entry. *)
Fixpoint walk mem (l : nat) (p id : Z) : Z :=
  match l with
  | O => p
  | S l => if p =? 0 then 0 else walk mem l (word mem p (slot l id)) id
  end.

Lemma slot_range l id : 0 <= slot l id < 8.
Proof. unfold slot. change 7 with (Z.ones 3). rewrite Z.land_ones by done. apply Z.mod_pos_bound. done. Qed.

Lemma slot_div l id : slot l id = (id / 2 ^ (4 + Z.of_nat l * 3)) mod 8.
Proof.
  unfold slot. change 7 with (Z.ones 3). rewrite Z.land_ones by done.
  by rewrite Z.shiftr_div_pow2 by lia.
Qed.

Lemma slot_bits l id b : 0 <= b < 3 ->
  Z.testbit (slot l id) b = Z.testbit id (4 + Z.of_nat l * 3 + b).
Proof.
  intros Hb. unfold slot. change 7 with (Z.ones 3).
  rewrite Z.land_spec, Z.shiftr_spec, testbit_ones_at, (proj2 (Z.ltb_lt b 3)) by lia.
  rewrite andb_true_r. f_equal. lia.
Qed.

(** The slots and the low bits determine a chunk number. *)
Lemma slots_eq l id id' :
  0 <= id < 2 ^ (4 + 3 * Z.of_nat l) -> 0 <= id' < 2 ^ (4 + 3 * Z.of_nat l) ->
  (forall j, (j < l)%nat -> slot j id = slot j id') -> id mod 16 = id' mod 16 -> id = id'.
Proof.
  intros Hr Hr' Hs Hm. apply Z.bits_inj'; intros n Hn.
  destruct (decide (n < 4)) as [H4|H4].
  - change 16 with (2 ^ 4) in Hm. rewrite <- !Z.land_ones in Hm by done.
    apply (f_equal (fun z => Z.testbit z n)) in Hm.
    rewrite !Z.land_spec, testbit_ones_at, (proj2 (Z.ltb_lt n 4)), !andb_true_r in Hm by lia. done.
  - destruct (decide (n < 4 + 3 * Z.of_nat l)) as [Hl|Hl].
    + pose proof (Z.div_mod (n - 4) 3 ltac:(lia)). pose proof (Z.mod_pos_bound (n - 4) 3 ltac:(lia)).
      set (j := (n - 4) / 3) in *. set (b := (n - 4) mod 3) in *.
      assert (0 <= j) by (apply Z.div_pos; lia).
      specialize (Hs (Z.to_nat j) ltac:(lia)). apply (f_equal (fun z => Z.testbit z b)) in Hs.
      rewrite !slot_bits, Z2Nat.id in Hs by lia. by replace (4 + j * 3 + b) with n in Hs by lia.
    + rewrite !(testbit_above (4 + 3 * Z.of_nat l)) by lia. done.
Qed.

Lemma walk_0 mem l id : walk mem l 0 id = 0.
Proof. by destruct l. Qed.

Lemma walk_S mem l p id : p <> 0 -> walk mem (S l) p id = walk mem l (word mem p (slot l id)) id.
Proof. intros Hp. simpl. by rewrite (proj2 (Z.eqb_neq p 0)). Qed.

Lemma tree_0 mem l F : tree mem l 0 F.
Proof. destruct l; by left. Qed.

Lemma tree_mono mem l p F F' : F ⊆ F' -> tree mem l p F -> tree mem l p F'.
Proof.
  intros HF. destruct l as [|l]; intros [->|(Hp & H0 & H)]; try apply tree_0; right.
  - split; [set_solver|done].
  - split; [set_solver|]. split; [done|]. destruct H as (Fs & HFs & Hd). exists Fs.
    split; [|done]. intros i Hi. destruct (HFs i Hi) as (? & ? & ?). split; [set_solver|done].
Qed.

Lemma tree_frame mem mem' l p F :
  (forall q, q ∈ F -> mem' !! q = mem !! q) -> tree mem l p F -> tree mem' l p F.
Proof.
  revert p F. induction l as [|l IH]; intros p F Hf [->|(Hp & H0 & H)]; try apply tree_0; right.
  - done.
  - split; [done|]. split; [done|]. destruct H as (Fs & HFs & Hd). exists Fs. split; [|done].
    intros i Hi. destruct (HFs i Hi) as (Hsub & Hn & Ht). split; [done|]. split; [done|].
    rewrite (word_frame mem mem') by auto. apply IH; [|done]. intros q Hq. apply Hf. set_solver.
Qed.

Lemma walk_frame mem mem' l p F id :
  tree mem l p F -> (forall q, q ∈ F -> mem' !! q = mem !! q) -> walk mem' l p id = walk mem l p id.
Proof.
  revert p F. induction l as [|l IH]; intros p F Ht Hf; [done|].
  destruct Ht as [->|(Hp & H0 & Fs & HFs & Hd)]; [by rewrite !walk_0|].
  rewrite !walk_S by done. rewrite (word_frame mem mem') by auto.
  destruct (HFs (slot l id) (slot_range l id)) as (Hsub & Hn & Ht).
  apply (IH _ (Fs (slot l id))); [done|]. intros q Hq. apply Hf. set_solver.
Qed.

Lemma walk_in mem l p F id : tree mem l p F -> walk mem l p id <> 0 -> walk mem l p id ∈ F.
Proof.
  revert p F. induction l as [|l IH]; intros p F [->|(Hp & H0 & H)] Hw; simpl in *; try done.
  destruct H as (Fs & HFs & Hd). rewrite (proj2 (Z.eqb_neq p 0)) in * by done.
  destruct (HFs (slot l id) (slot_range l id)) as (Hsub & Hn & Ht).
  apply Hsub. by apply IH.
Qed.

(** Replacing a child: [mem'] differs from [mem] in word [x] of [p], in the tnodes of the
    [x]-th subtree and outside the tree. *)
Record child_changed mem mem' (p x : Z) (F Fx : gset Z) : Prop := {
  cc_words : forall i, 0 <= i < 8 -> i <> x -> word mem' p i = word mem p i;
  cc_frame : forall q, q ∈ F -> q <> p -> q ∉ Fx -> mem' !! q = mem !! q
}.

Lemma tree_child mem mem' l p x F Fs New :
  p ∈ F -> p <> 0 -> 0 <= x < 8 ->
  (forall i, 0 <= i < 8 -> Fs i ⊆ F /\ p ∉ Fs i /\ tree mem l (word mem p i) (Fs i)) ->
  (forall i j, 0 <= i < 8 -> 0 <= j < 8 -> i <> j -> Fs i ## Fs j) ->
  child_changed mem mem' p x F (Fs x) ->
  New ## F -> tree mem' l (word mem' p x) (New ∪ Fs x) ->
  tree mem' (S l) p (New ∪ F).
Proof.
  intros Hp H0 Hx HFs Hd [Hw Hf] Hnew Ht. right. split; [set_solver|]. split; [done|].
  exists (fun i => if decide (i = x) then New ∪ Fs x else Fs i). split.
  - intros i Hi. destruct (decide (i = x)) as [->|Hne].
    + destruct (HFs x Hx) as (? & ? & _). split; [set_solver|]. split; [set_solver|done].
    + destruct (HFs i Hi) as (Hsub & Hn & Hti). split; [set_solver|]. split; [done|].
      rewrite Hw by done. eapply tree_frame; [|done]. intros q Hq.
      pose proof (Hd i x Hi Hx Hne). apply Hf; set_solver.
  - intros i j Hi Hj Hne. pose proof (proj1 (HFs i Hi)). pose proof (proj1 (HFs j Hj)).
    destruct (decide (i = x)) as [->|], (decide (j = x)) as [->|]; try done.
    + pose proof (Hd x j Hx Hj Hne). set_solver.
    + pose proof (Hd i x Hi Hx Hne). set_solver.
    + by apply Hd.
Qed.

(** Rewriting a level-0 tnode leaves the shape alone; only chunks with the same slots
    lead to it. *)
Lemma leaf_write mem l p F id q ws :
  tree mem l p F -> walk mem l p id = q -> q <> 0 ->
  tree (<[q := ws]> mem) l p F /\
  forall id', walk (<[q := ws]> mem) l p id' = walk mem l p id' /\
    (walk mem l p id' = q -> forall j, (j < l)%nat -> slot j id' = slot j id).
Proof.
  revert p F. induction l as [|l IH]; intros p F Ht Hq Hq0.
  { split; [done|]. intros id'. split; [done|]. lia. }
  destruct Ht as [->|(Hp & H0 & Fs & HFs & Hd)]; [by rewrite walk_0 in Hq|].
  rewrite walk_S in Hq by done. pose proof (slot_range l id) as Hx. set (x := slot l id) in *.
  destruct (HFs x Hx) as (Hsub & Hn & Htx).
  assert (HqF : q ∈ Fs x) by (rewrite <- Hq; apply walk_in; [done|by rewrite Hq]).
  assert (Hpq : p <> q) by (by intros ->).
  assert (Hw : forall i, word (<[q := ws]> mem) p i = word mem p i).
  { intros i. apply word_frame. by rewrite lookup_insert_ne. }
  destruct (IH _ _ Htx Hq Hq0) as [IHt IHw].
  assert (Hother : forall i, 0 <= i < 8 -> i <> x -> forall r, r ∈ Fs i -> (<[q := ws]> mem) !! r = mem !! r).
  { intros i Hi Hne r Hr. rewrite lookup_insert_ne; [done|]. intros <-.
    by apply (Hd i x Hi Hx Hne q). }
  split.
  - right. split; [done|]. split; [done|]. exists Fs. split; [|done]. intros i Hi.
    destruct (HFs i Hi) as (Hs & Hni & Hti). split; [done|]. split; [done|]. rewrite Hw.
    destruct (decide (i = x)) as [->|Hne]; [done|]. eapply tree_frame; [|done]. by apply Hother.
  - intros id'. rewrite !walk_S, Hw by done. pose proof (slot_range l id') as Hx'.
    destruct (HFs _ Hx') as (_ & _ & Htx'). destruct (decide (slot l id' = x)) as [He|Hne].
    + rewrite He. destruct (IHw id') as [Hwk Hsl]. split; [done|]. intros Hq' j Hj.
      destruct (decide (j = l)) as [->|]; [by rewrite He|]. apply Hsl; [done|lia].
    + split; [by eapply walk_frame; [|apply Hother]|]. intros Hq'. exfalso.
      apply (Hd _ x Hx' Hx Hne q); [|done]. rewrite <- Hq'. apply walk_in; [done|by rewrite Hq'].
Qed.


(** ** Entries of the tree *)

Context (cfg : Config) (Hcfg : tn_cfg_ok cfg).

Definition leaf_entry mem (q id : Z) : Z :=
  if q =? 0 then 0 else from_option (fun ws => group_of cfg ws id) 0 (mem !! q).
Definition entry mem (l : nat) (p id : Z) : Z := leaf_entry mem (walk mem l p id) id.

Lemma entry_0 mem l id : entry mem l 0 id = 0.
Proof. unfold entry. by rewrite walk_0. Qed.

Lemma entry_S mem l p id : p <> 0 -> entry mem (S l) p id = entry mem l (word mem p (slot l id)) id.
Proof. intros Hp. unfold entry. by rewrite walk_S. Qed.

Lemma entry_frame mem mem' l p F id :
  tree mem l p F -> (forall q, q ∈ F -> mem' !! q = mem !! q) -> entry mem' l p id = entry mem l p id.
Proof.
  intros Ht Hf. unfold entry, leaf_entry. rewrite (walk_frame mem mem' l p F) by done.
  destruct (Z.eqb_spec (walk mem l p id) 0); [done|]. by rewrite Hf by by apply walk_in.
Qed.

Lemma other_child mem mem' l p x F Fs id :
  p ∈ F -> p <> 0 -> 0 <= x < 8 ->
  (forall i, 0 <= i < 8 -> Fs i ⊆ F /\ p ∉ Fs i /\ tree mem l (word mem p i) (Fs i)) ->
  (forall i j, 0 <= i < 8 -> 0 <= j < 8 -> i <> j -> Fs i ## Fs j) ->
  child_changed mem mem' p x F (Fs x) -> slot l id <> x ->
  walk mem' (S l) p id = walk mem (S l) p id /\ entry mem' (S l) p id = entry mem (S l) p id.
Proof.
  intros Hp H0 Hx HFs Hd [Hw Hf] Hne. pose proof (slot_range l id) as Hi.
  rewrite !entry_S, !walk_S by done. rewrite Hw by done.
  destruct (HFs (slot l id) Hi) as (Hsub & Hn & Ht).
  assert (Hfr : forall q, q ∈ Fs (slot l id) -> mem' !! q = mem !! q).
  { intros q Hq. pose proof (Hd (slot l id) x Hi Hx Hne). apply Hf; set_solver. }
  split; [by eapply walk_frame|by eapply entry_frame].
Qed.

(** A cleared tnode is an empty tree. *)
Lemma tree_zero mem l q :
  q <> 0 -> mem !! q = Some (replicate (Z.to_nat (tnodeWords cfg)) 0) ->
  tree mem l q {[q]} /\ forall id, entry mem l q id = 0.
Proof.
  intros Hq Hz. assert (Hw : forall i, word mem q i = 0).
  { intros i. rewrite (word_lookup _ _ _ _ Hz). unfold lookupZ. destruct (0 <=? i); [|done].
    destruct (replicate _ _ !! _) as [x|] eqn:Hx; [|done]. by apply lookup_replicate in Hx as [-> _]. }
  destruct l as [|l].
  - split; [right; split; [set_solver|done]|]. intros id. unfold entry, leaf_entry. simpl.
    rewrite (proj2 (Z.eqb_neq q 0)), Hz by done. simpl. by apply group_of_zero.
  - split.
    + right. split; [set_solver|]. split; [done|]. exists (fun _ => ∅). split.
      * intros i Hi. split; [set_solver|]. split; [set_solver|]. rewrite Hw. apply tree_0.
      * intros. set_solver.
    + intros id. rewrite entry_S, Hw by done. apply entry_0.
Qed.
(** Writing an entry through [yaffs_PutLevel0Tnode] updates the map of the tree at one point. *)
Lemma entry_write mem l p F id q ws ws' val :
  tree mem l p F -> walk mem l p id = q -> q <> 0 ->
  mem !! q = Some ws -> words_ok cfg ws -> words_ok cfg ws' ->
  (forall b, 0 <= b -> tn_bit ws' b =
    if in_entry cfg id b then Z.testbit val (b - epos cfg id) else tn_bit ws b) ->
  0 <= id < 2 ^ (4 + 3 * Z.of_nat l) ->
  forall id', 0 <= id' < 2 ^ (4 + 3 * Z.of_nat l) ->
  entry (<[q := ws']> mem) l p id' =
  if id' =? id then u32 (Z.shiftl (Z.land val (Z.ones (tnodeWidth cfg))) (chunkGroupBits cfg))
  else entry mem l p id'.
Proof.
  intros Ht Hq Hq0 Hws Hok Hok' Hb Hid id' Hid'.
  destruct (leaf_write mem l p F id q ws' Ht Hq Hq0) as [_ Hw]. destruct (Hw id') as [Hwk Hsl].
  unfold entry. rewrite Hwk. unfold leaf_entry.
  destruct (Z.eqb_spec (walk mem l p id') 0) as [H0|Hne].
  { destruct (Z.eqb_spec id' id) as [->|]; [by rewrite H0 in Hq|done]. }
  destruct (decide (walk mem l p id' = q)) as [Heq|Hneq].
  - rewrite Heq, lookup_insert_eq, Hws. simpl. unfold group_of.
    rewrite (entry_of_put cfg Hcfg ws ws' id val id') by done.
    destruct (Z.eqb_spec (id' mod 16) (id mod 16)) as [Hm|Hm], (Z.eqb_spec id' id) as [He|He];
      try done; [|by subst].
    exfalso. apply He. apply (slots_eq l); auto.
  - rewrite lookup_insert_ne by done.
    destruct (Z.eqb_spec id' id) as [->|]; [by rewrite Hq in Hneq|done].
Qed.

(** ** Growing *)

(** What adding tnodes [New] to a tree keeps: its map, its tnodes, other trees. *)
Record adds mem mem' (l : nat) (p : Z) (U F New : gset Z) : Prop := {
  gr_new : New ## U;
  gr_tree : tree mem' l p (New ∪ F);
  gr_entry : forall id, entry mem' l p id = entry mem l p id;
  gr_walk : forall id, walk mem l p id <> 0 -> walk mem' l p id = walk mem l p id;
  gr_frame : forall q, q ∈ U -> q ∉ F -> mem' !! q = mem !! q
}.

(** Growth below an existing child. *)
Lemma adds_child mem mem' l p x U F Fs New :
  p ∈ F -> p <> 0 -> 0 <= x < 8 -> F ⊆ U ->
  (forall i, 0 <= i < 8 -> Fs i ⊆ F /\ p ∉ Fs i /\ tree mem l (word mem p i) (Fs i)) ->
  (forall i j, 0 <= i < 8 -> 0 <= j < 8 -> i <> j -> Fs i ## Fs j) ->
  adds mem mem' l (word mem p x) U (Fs x) New ->
  adds mem mem' (S l) p U F New.
Proof.
  intros Hp H0 Hx HU HFs Hd [Hn Ht He Hwk Hf]. destruct (HFs x Hx) as (Hsub & Hpx & _).
  assert (Hw : forall i, word mem' p i = word mem p i).
  { intros i. apply word_frame, Hf; [by apply HU|done]. }
  assert (Hcc : child_changed mem mem' p x F (Fs x)).
  { split; [by intros; rewrite Hw|]. intros q Hq _ Hqx. apply Hf; [by apply HU|done]. }
  split; [done|..].
  - eapply tree_child; try done; [set_solver|]. by rewrite Hw.
  - intros id. destruct (decide (slot l id = x)) as [Hs|Hs].
    + by rewrite !entry_S, Hs, Hw, He by done.
    + by eapply (other_child mem mem' l p x F Fs id).
  - intros id. destruct (decide (slot l id = x)) as [Hs|Hs].
    + rewrite !walk_S, Hs, Hw by done. apply Hwk.
    + intros _. by eapply (other_child mem mem' l p x F Fs id).
  - intros q HqU HqF. apply Hf; [done|]. set_solver.
Qed.

(** A new tnode hung in for a missing child, and growth below it. *)
Lemma adds_new_child mem mem1 mem' l p x U F Fs q New :
  p ∈ F -> p <> 0 -> 0 <= x < 8 -> F ⊆ U -> q ∉ U -> q <> 0 ->
  (forall i, 0 <= i < 8 -> Fs i ⊆ F /\ p ∉ Fs i /\ tree mem l (word mem p i) (Fs i)) ->
  (forall i j, 0 <= i < 8 -> 0 <= j < 8 -> i <> j -> Fs i ## Fs j) ->
  word mem p x = 0 -> word mem1 p x = q ->
  (forall i, 0 <= i < 8 -> i <> x -> word mem1 p i = word mem p i) ->
  (forall r, r ∈ U -> r <> p -> mem1 !! r = mem !! r) ->
  (forall id, entry mem1 l q id = 0) ->
  adds mem1 mem' l q ({[q]} ∪ U) {[q]} New ->
  adds mem mem' (S l) p U F (New ∪ {[q]}).
Proof.
  intros Hp H0 Hx HU HqU Hq0 HFs Hd Hold Hnew Hwo Hfr1 Hz [Hn Ht He Hwk Hf].
  destruct (HFs x Hx) as (Hsub & Hpx & _).
  assert (Hpq : p ≠ q) by (intros ->; apply HqU, HU, Hp).
  assert (Hf' : forall r, r ∈ U -> mem' !! r = mem1 !! r).
  { intros r Hr. apply Hf; [set_solver|]. rewrite elem_of_singleton. by intros ->. }
  assert (Hw : forall i, word mem' p i = word mem1 p i).
  { intros i. by apply word_frame, Hf', HU. }
  assert (Hcc : child_changed mem mem' p x F (Fs x)).
  { split; [intros i Hi Hix; by rewrite Hw, Hwo|].
    intros r Hr Hrp _. rewrite Hf', Hfr1 by (done || by apply HU). done. }
  split; [set_solver|..].
  - eapply tree_child; try done; [set_solver|]. rewrite Hw, Hnew.
    eapply tree_mono; [|exact Ht]. set_solver.
  - intros id. destruct (decide (slot l id = x)) as [Hs|Hs].
    + by rewrite !entry_S, Hs, Hw, Hnew, He, Hz, Hold, entry_0 by done.
    + by eapply (other_child mem mem' l p x F Fs id).
  - intros id. destruct (decide (slot l id = x)) as [Hs|Hs].
    + rewrite walk_S, Hs, Hold, walk_0 by done. done.
    + intros _. by eapply (other_child mem mem' l p x F Fs id).
  - intros r HrU HrF. rewrite Hf', Hfr1; [done|done|set_solver|done].
Qed.

Lemma adds_refl mem l p U F : tree mem l p F -> adds mem mem l p U F ∅.
Proof. intros Ht. split; [set_solver|eapply tree_mono; [|exact Ht]; set_solver|done..]. Qed.
End shape.

Section grow.
Context {K : Type} `{!Kmalloc K} `{!KmallocLaws K} (cfg : Config) (Hcfg : tn_cfg_ok cfg).
Implicit Types (s : Tnodes K).

(** [q ← yaffs_GetTnode; put_word p x q] when a tnode is to be had. *)
Lemma hang_spec s U fr p x :
  store_ok cfg s U fr -> p ∈ U -> 0 <= x < 8 -> fr <> [] ->
  wp (q ← yaffs_GetTnode cfg; put_word p x q) (fun _ s' => exists q fr',
    store_ok cfg s' ({[q]} ∪ U) fr' /\ q ∉ U /\ q <> 0 /\ (length fr <= S (length fr'))%nat /\
    word (tnodes s') p x = q /\
    (forall i, 0 <= i < 8 -> i <> x -> word (tnodes s') p i = word (tnodes s) p i) /\
    (forall r, r ∈ U -> r <> p -> tnodes s' !! r = tnodes s !! r) /\
    tnodes s' !! q = Some (replicate (Z.to_nat (tnodeWords cfg)) 0)) s.
Proof.
  intros Hs Hp Hx Hfr. eapply wp_seq; [by apply GetTnode_spec|].
  intros q s1 [Hf [_ [(_ & -> & _)|(Hq0 & HqU & Hz & fr' & Hs1 & Hlen)]]]; [done|].
  destruct (store_lookup cfg s1 _ _ p Hs1) as (ws & Hws & Hok); [set_solver|].
  eapply wp_put_word; [exact Hws|by apply (words_len cfg Hcfg)|].
  pose proof (words_len cfg Hcfg ws x Hok Hx) as Hxl.
  assert (Hpq : p <> q) by (by intros ->).
  assert (Hq32 : is_u32 q).
  { destruct (so_used _ _ _ _ Hs1 q) as [? _]; [set_solver|]. unfold is_u32. lia. }
  exists q, fr'. split; [apply store_ok_write; [done|set_solver|by apply words_ok_insert]|].
  do 3 (split; [done|]). unfold with_tnode. simp_fields. split.
  { erewrite word_lookup by apply lookup_insert_eq. unfold lookupZ.
    rewrite (proj2 (Z.leb_le 0 x)), list_lookup_insert_eq by lia. done. }
  split.
  { intros i Hi Hne. erewrite (word_lookup (<[_:=_]> _)) by apply lookup_insert_eq.
    rewrite (word_frame (tnodes s1) (tnodes s)) by (symmetry; by apply Hf).
    rewrite (word_lookup _ _ _ _ Hws).
    unfold lookupZ. rewrite (proj2 (Z.leb_le 0 i)), list_lookup_insert_ne by lia. done. }
  split.
  - intros r Hr Hrp. rewrite lookup_insert_ne by done. by apply Hf.
  - by rewrite lookup_insert_ne.
Qed.

Lemma wp_add_child s U fr level p x (Q : unit -> Tnodes K -> Prop) :
  store_ok cfg s U fr -> p ∈ U -> 0 <= x < 8 -> 1 <= level ->
  (if word (tnodes s) p x =? 0 then wp (q ← yaffs_GetTnode cfg; put_word p x q) Q s else Q tt s) ->
  wp (add_child cfg level p x 0) Q s.
Proof.
  intros Hs Hp Hx Hl HQ. unfold add_child.
  apply wp_bind, (wp_get_ptr cfg Hcfg s U fr); [done|done|done|].
  unfold ztrue. rewrite negb_involutive. destruct (word (tnodes s) p x =? 0).
  - rewrite andb_true_r. destruct (Z.ltb_spec 1 level); [done|].
    rewrite (proj2 (Z.eqb_eq level 1)) by lia. done.
  - rewrite andb_false_r. destruct (level =? 1); done.
Qed.

(** Going down adds what is missing and ends at the level-0 tnode of the chunk. *)
Lemma add_down_spec l s U F fr p id :
  store_ok cfg s U fr -> tree (tnodes s) l p F -> F ⊆ U -> p <> 0 -> (l <= length fr)%nat ->
  wp (add_down cfg l p id 0) (fun q s' => exists New fr',
    store_ok cfg s' (New ∪ U) fr' /\ (length fr <= length fr' + l)%nat /\
    adds cfg (tnodes s) (tnodes s') l p U F New /\
    q <> 0 /\ walk (tnodes s') l p id = q) s.
Proof.
  revert s U F fr p. induction l as [|l IH]; intros s U F fr p Hs Ht HU H0 Hfr.
  { apply wp_ret. exists ∅, fr. split; [by rewrite union_empty_l_L|]. split; [lia|].
    split; [by apply adds_refl|]. done. }
  destruct Ht as [?|(Hp & _ & Fs & HFs & Hd)]; [done|].
  cbn [add_down]. unfold ztrue. rewrite (proj2 (Z.eqb_neq p 0)) by done. cbv beta iota delta [negb].
  pose proof (slot_range l id) as Hx. cbv zeta. set (x := slot l id) in *.
  destruct (HFs x Hx) as (Hsub & Hpx & Htx).
  apply wp_bind, (wp_add_child s U fr); [done|by apply HU|done|lia|].
  destruct (Z.eqb_spec (word (tnodes s) p x) 0) as [Hc|Hc].
  - eapply wp_mono; [apply (hang_spec s U fr); [done|by apply HU|done|intros ->; simpl in Hfr; lia]|].
    intros _ s1 (q & fr1 & Hs1 & HqU & Hq0 & Hlen & Hnew & Hwo & Hfr1 & Hz).
    apply wp_bind, (wp_get_ptr cfg Hcfg s1 ({[q]} ∪ U) fr1); [done|set_solver|done|]. rewrite Hnew.
    destruct (tree_zero cfg Hcfg (tnodes s1) l q Hq0 Hz) as [Htq Hentry].
    eapply wp_mono; [apply (IH s1 ({[q]} ∪ U) {[q]} fr1); [done|done|set_solver|done|lia]|].
    intros r s2 (New & fr2 & Hs2 & Hlen2 & Hg & Hr0 & Hwalk).
    exists (New ∪ {[q]}), fr2. split; [by rewrite <- (assoc_L union)|]. split; [lia|].
    split; [by eapply (adds_new_child cfg Hcfg _ (tnodes s1))|]. split; [done|].
    rewrite walk_S by done. fold x. rewrite (word_frame (tnodes s1)), Hnew; [done|].
    eapply gr_frame; [exact Hg|set_solver|]. rewrite elem_of_singleton. intros ->. by apply HqU, HU.
  - apply wp_bind, (wp_get_ptr cfg Hcfg s U fr); [done|by apply HU|done|].
    eapply wp_mono; [apply (IH s U (Fs x) fr); [done|done|set_solver|done|lia]|].
    intros r s2 (New & fr2 & Hs2 & Hlen2 & Hg & Hr0 & Hwalk).
    exists New, fr2. split; [done|]. split; [lia|]. split; [by eapply adds_child|].
    split; [done|]. rewrite walk_S by done. fold x.
    by rewrite (word_frame (tnodes s)) by (eapply gr_frame; [exact Hg|by apply HU|done]).
Qed.
End grow.

(** ** Tallness *)

Lemma tallness_loop_spec fuel i n m :
  0 <= i < 2 ^ (3 * Z.of_nat fuel) -> 0 <= m ->
  n <= tallness_loop fuel i n /\ (tallness_loop fuel i n <= n + m <-> i < 2 ^ (3 * m)).
Proof.
  revert i n m. induction fuel as [|fuel IH]; intros i n m Hi Hm; cbn [tallness_loop].
  - assert (i = 0) as -> by (change (2 ^ (3 * Z.of_nat 0)) with 1 in Hi; lia).
    pose proof (Z.pow_pos_nonneg 2 (3 * m)). split; [lia|]. split; lia.
  - unfold ztrue. destruct (Z.eqb_spec i 0) as [->|Hne]; simpl.
    { pose proof (Z.pow_pos_nonneg 2 (3 * m)). split; [lia|]. split; lia. }
    rewrite Z.shiftr_div_pow2 by done. change (2 ^ 3) with 8.
    assert (Hd : 0 <= i / 8 < 2 ^ (3 * Z.of_nat fuel)).
    { split; [apply Z.div_pos; lia|]. apply Z.div_lt_upper_bound; [lia|].
      change 8 with (2 ^ 3). rewrite <- Z.pow_add_r by lia.
      replace (3 + 3 * Z.of_nat fuel) with (3 * Z.of_nat (S fuel)) by lia. apply Hi. }
    destruct (decide (m = 0)) as [->|Hm0].
    + destruct (IH (i / 8) (n + 1) 0 Hd ltac:(lia)) as [Hge _].
      change (2 ^ (3 * 0)) with 1. split; [lia|]. split; lia.
    + destruct (IH (i / 8) (n + 1) (m - 1) Hd ltac:(lia)) as [Hge Hiff].
      split; [lia|]. replace (n + m) with (n + 1 + (m - 1)) by lia. rewrite Hiff.
      replace (3 * m) with (3 + 3 * (m - 1)) by lia. rewrite Z.pow_add_r by lia.
      change (2 ^ 3) with 8. split; intros Hlt.
      * assert (i < 8 * (i / 8) + 8) by (pose proof (Z.div_mod i 8); pose proof (Z.mod_pos_bound i 8); lia).
        nia.
      * apply Z.div_lt_upper_bound; lia.
Qed.

(** A tree is tall enough for a chunk exactly when the chunk number is within its reach. *)
Definition reach (l : Z) : Z := 2 ^ (4 + 3 * l).

Lemma requiredTallness_spec id l :
  0 <= id <= YAFFS_MAX_CHUNK_ID -> 0 <= l ->
  0 <= requiredTallness id <= 6 /\ (requiredTallness id <= l <-> id < reach l).
Proof.
  intros Hid Hl. unfold requiredTallness, reach.
  rewrite Z.shiftr_div_pow2 by done. change (2 ^ 4) with 16.
  assert (Hd : 0 <= id / 16 < 2 ^ 16).
  { split; [apply Z.div_pos; lia|]. apply Z.div_lt_upper_bound; [lia|]. change (2 ^ 16) with 65536. lia. }
  assert (Hf : 0 <= id / 16 < 2 ^ (3 * Z.of_nat 11)).
  { change (2 ^ (3 * Z.of_nat 11)) with (2 ^ 33). change (2 ^ 16) with 65536 in Hd.
    change (2 ^ 33) with 8589934592. lia. }
  pose proof (tallness_loop_spec 11 (id / 16) 0 6 Hf ltac:(lia)) as [H0 H6].
  pose proof (tallness_loop_spec 11 (id / 16) 0 l Hf Hl) as [_ Hi]. rewrite Z.add_0_l in Hi, H6.
  split; [split; [done|]; apply H6; change (2 ^ (3 * 6)) with 262144; change (2 ^ 16) with 65536 in Hd; lia|].
  rewrite Hi, Z.pow_add_r by lia. change (2 ^ 4) with 16. split; intros H.
  - pose proof (Z.div_mod id 16 ltac:(lia)). pose proof (Z.mod_pos_bound id 16 ltac:(lia)). nia.
  - apply Z.div_lt_upper_bound; lia.
Qed.

(** ** Files *)

Section file.
Context {K : Type} `{!Kmalloc K} `{!KmallocLaws K} (cfg : Config) (Hcfg : tn_cfg_ok cfg).
Implicit Types (s : Tnodes K) (fs : FileStructure).

(** The tree of a file is well-formed, of a height the code accepts, and has its first
    level-0 tnode, which [yaffs_CreateNewObject] makes and no operation frees. *)
Record file_ok (s : Tnodes K) (U : gset Z) (fs : FileStructure) (F : gset Z) : Prop := {
  fo_level : 0 <= topLevel fs <= YAFFS_TNODES_MAX_LEVEL;
  fo_tree : tree (tnodes s) (Z.to_nat (topLevel fs)) (top fs) F;
  fo_used : F ⊆ U;
  fo_first : walk (tnodes s) (Z.to_nat (topLevel fs)) (top fs) 0 <> 0
}.

(** The chunk group a file's tree holds for a chunk of the file. *)
Definition file_entry (s : Tnodes K) fs (id : Z) : Z :=
  if id <? reach (topLevel fs) then entry cfg (tnodes s) (Z.to_nat (topLevel fs)) (top fs) id else 0.

Lemma file_top s U fs F : file_ok s U fs F -> top fs <> 0.
Proof. intros [_ _ _ Hw] H0. by rewrite H0, walk_0 in Hw. Qed.

(** A file none of whose tnodes changed. *)
Lemma file_ok_frame s s' U U' fs F :
  file_ok s U fs F -> F ⊆ U' -> (forall q, q ∈ F -> tnodes s' !! q = tnodes s !! q) ->
  file_ok s' U' fs F /\ forall id, file_entry s' fs id = file_entry s fs id.
Proof.
  intros [Hl Ht HU Hw] HU' Hf. split.
  - split; try done; [by eapply tree_frame|]. by rewrite (walk_frame (tnodes s) (tnodes s') _ _ F) by done.
  - intros id. unfold file_entry. by rewrite (entry_frame cfg (tnodes s) (tnodes s') _ _ F) by done.
Qed.

Lemma find_down_spec l s U fr p F id :
  store_ok cfg s U fr -> tree (tnodes s) l p F -> F ⊆ U ->
  wp (find_down l p id) (fun q s' => q = walk (tnodes s) l p id /\ s' = s) s.
Proof.
  intros Hs. revert p F. induction l as [|l IH]; intros p F Ht HU; [by apply wp_ret|].
  cbn [find_down walk]. unfold ztrue.
  destruct Ht as [->|(Hp & H0 & Fs & HFs & Hd)]; [by apply wp_ret|].
  rewrite (proj2 (Z.eqb_neq p 0)) by done. cbv beta iota delta [negb].
  pose proof (slot_range l id) as Hx. destruct (HFs _ Hx) as (Hsub & _ & Ht).
  apply wp_bind, (wp_get_ptr cfg Hcfg s U fr); [done|by apply HU|done|].
  apply (IH _ (Fs (slot l id))); [done|set_solver].
Qed.

(** The look-up of [yaffs_FindChunkInFile]: the level-0 tnode and the entry in it. *)
Definition find_group fs (id : Z) : M (Tnodes K) Z :=
  tn ← yaffs_FindLevel0Tnode fs id;
  if ztrue tn then yaffs_GetChunkGroupBase cfg tn id else mret 0.

Lemma find_group_spec s U fr fs F id :
  store_ok cfg s U fr -> file_ok s U fs F -> 0 <= id <= YAFFS_MAX_CHUNK_ID ->
  wp (find_group fs id) (fun r s' => r = file_entry s fs id /\ s' = s) s.
Proof.
  intros Hs Hf Hid. destruct Hf as [Hl Ht HU Hw].
  unfold find_group, yaffs_FindLevel0Tnode, file_entry.
  rewrite (proj2 (Z.ltb_ge (topLevel fs) 0)), (proj2 (Z.ltb_ge 6 (topLevel fs))),
    (proj2 (Z.ltb_ge 0xFFFFF id)) by lia. simpl orb. cbv iota.
  destruct (requiredTallness_spec id (topLevel fs) Hid) as [_ Hr]; [lia|].
  destruct (Z.ltb_spec (topLevel fs) (requiredTallness id)) as [Hlt|Hge];
    destruct (Z.ltb_spec id (reach (topLevel fs))); try lia.
  - apply wp_bind, wp_ret. cbn. by apply wp_ret.
  - eapply wp_seq; [by apply (find_down_spec _ s U fr _ F id)|]. intros q s' [-> ->].
    unfold entry, leaf_entry, ztrue.
    destruct (Z.eqb_spec (walk (tnodes s) (Z.to_nat (topLevel fs)) (top fs) id) 0) as [|Hq]; simpl.
    { by apply wp_ret. }
    destruct (store_lookup cfg s U fr (walk (tnodes s) (Z.to_nat (topLevel fs)) (top fs) id))
      as (ws & Hws & Hok); [done|apply HU; by apply walk_in|].
    rewrite Hws. simpl. by apply wp_GetChunkGroupBase with ws.
Qed.

(** One more level: what was within reach keeps its entry, what was not has none. *)
Lemma slot_zero l id : 0 <= id < reach (Z.of_nat (S l)) ->
  (slot l id = 0 <-> id < reach (Z.of_nat l)).
Proof.
  intros Hid. rewrite slot_div. unfold reach in *.
  replace (4 + 3 * Z.of_nat (S l)) with ((4 + Z.of_nat l * 3) + 3) in Hid by lia.
  rewrite Z.pow_add_r in Hid by lia. change (2 ^ 3) with 8 in Hid.
  replace (4 + 3 * Z.of_nat l) with (4 + Z.of_nat l * 3) by lia.
  set (P := 2 ^ (4 + Z.of_nat l * 3)) in *. assert (0 < P) by (apply Z.pow_pos_nonneg; lia).
  rewrite Z.mod_small.
  - split; intros H'; [|apply Z.div_small; lia].
    pose proof (Z.div_mod id P ltac:(lia)). pose proof (Z.mod_pos_bound id P ltac:(lia)). nia.
  - split; [apply Z.div_pos; lia|apply Z.div_lt_upper_bound; lia].
Qed.

Lemma slot_0 l : slot l 0 = 0.
Proof. unfold slot. by rewrite Z.shiftr_0_l. Qed.

Lemma reach_le l l' : l <= l' -> reach l <= reach l'.
Proof. intros H. unfold reach. apply Z.pow_le_mono_r; lia. Qed.

(** The growth of the tree by new roots: [fs] to [fs'] with the new tnodes [New]. *)
Record raised (s s' : Tnodes K) (U F New : gset Z) (fs fs' : FileStructure) : Prop := {
  ra_new : New ## U;
  ra_ok : file_ok s' (New ∪ U) fs' (New ∪ F);
  ra_entry : forall id, 0 <= id -> file_entry s' fs' id = file_entry s fs id;
  ra_frame : forall q, q ∈ U -> tnodes s' !! q = tnodes s !! q
}.

Lemma grow_one_spec s U fr fs F :
  store_ok cfg s U fr -> file_ok s U fs F -> fr <> [] -> topLevel fs < YAFFS_TNODES_MAX_LEVEL ->
  wp (grow_one cfg (top fs)) (fun t s' => exists fr',
    store_ok cfg s' ({[t]} ∪ U) fr' /\ (length fr <= S (length fr'))%nat /\
    raised s s' U F {[t]} fs (fs <| top := t |> <| topLevel := topLevel fs + 1 |>)) s.
Proof.
  intros Hs Hf Hfr Hmax. pose proof (file_top _ _ _ _ Hf) as Ht0. destruct Hf as [Hl Ht HU Hw].
  unfold grow_one. eapply wp_seq; [by apply GetTnode_spec|].
  intros q s1 [Hf [_ [(_ & -> & _)|(Hq0 & HqU & Hz & fr' & Hs1 & Hlen)]]]; [done|].
  unfold ztrue. rewrite (proj2 (Z.eqb_neq q 0)) by done. cbv beta iota delta [negb].
  set (ws := replicate (Z.to_nat (tnodeWords cfg)) 0) in *.
  assert (Hok : words_ok cfg ws) by by apply zero_words_ok.
  assert (Hlen0 : 0 <= 0 < Z.of_nat (length ws)) by (apply (words_len cfg Hcfg); [done|lia]).
  eapply wp_bind, wp_put_word; [exact Hz|exact Hlen0|]. apply wp_ret. exists fr'.
  set (ws' := <[Z.to_nat 0 := top fs]> ws).
  assert (Htop : top fs ∈ F) by (by destruct (Z.to_nat (topLevel fs)), Ht as [?|[? _]]).
  assert (Hu : is_u32 (top fs)).
  { destruct (so_used _ _ _ _ Hs (top fs)) as [? _]; [by apply HU|]. unfold is_u32. lia. }
  assert (Hs2 : store_ok cfg (with_tnode q ws' s1) ({[q]} ∪ U) fr').
  { apply store_ok_write; [done|set_solver|by apply words_ok_insert]. }
  split; [done|]. split; [done|]. set (s2 := with_tnode q ws' s1) in *.
  assert (Hfr2 : forall r, r ∈ U -> tnodes s2 !! r = tnodes s !! r).
  { intros r Hr. unfold s2, with_tnode. simp_fields.
    rewrite lookup_insert_ne by (by intros ->). by apply Hf. }
  assert (Hq2 : tnodes s2 !! q = Some ws') by apply tnodes_with_tnode.
  assert (Hword : forall i, 0 <= i < 8 -> word (tnodes s2) q i = if i =? 0 then top fs else 0).
  { intros i Hi. rewrite (word_lookup _ _ _ _ Hq2). unfold ws', lookupZ.
    rewrite (proj2 (Z.leb_le 0 i)) by lia. destruct (Z.eqb_spec i 0) as [->|Hne].
    - by rewrite list_lookup_insert_eq by lia.
    - rewrite list_lookup_insert_ne by lia. destruct (ws !! Z.to_nat i) as [x|] eqn:Hx; [|done].
      by apply lookup_replicate in Hx as [-> _]. }
  set (l := Z.to_nat (topLevel fs)) in *.
  assert (Hlz : topLevel fs = Z.of_nat l) by lia. rewrite Hlz in Hl, Hmax |- *.
  assert (Hl' : Z.to_nat (Z.of_nat l + 1) = S l) by lia.
  assert (Ht2 : tree (tnodes s2) l (top fs) F).
  { eapply tree_frame; [|exact Ht]. intros r Hr. by apply Hfr2, HU. }
  split; [set_solver| | |done].
  - split; simp_fields; [lia| |set_solver|].
    + rewrite Hl'. right. split; [set_solver|]. split; [done|].
      exists (fun i => if decide (i = 0) then F else ∅). split.
      * intros i Hi. rewrite Hword by done. destruct (decide (i = 0)) as [->|Hne].
        -- split; [set_solver|]. split; [set_solver|done].
        -- rewrite (proj2 (Z.eqb_neq i 0)) by done. split; [set_solver|]. split; [set_solver|].
           apply tree_0.
      * intros i j Hi Hj Hne. destruct (decide (i = 0)), (decide (j = 0)); set_solver.
    + rewrite Hl', walk_S by done.
      rewrite slot_0.
      rewrite Hword by lia. simpl. by rewrite (walk_frame (tnodes s) _ _ _ F) by (done || auto).
  - simp_fields. intros id Hid. unfold file_entry. simp_fields.
    pose proof (reach_le (Z.of_nat l) (Z.of_nat l + 1) ltac:(lia)).
    destruct (Z.ltb_spec id (reach (Z.of_nat l + 1))) as [Hidr|];
      [|rewrite Hlz; by rewrite (proj2 (Z.ltb_ge _ _)) by lia].
    rewrite Hl', entry_S by done.
    pose proof (slot_range l id). rewrite Hword by done.
    replace (Z.of_nat l + 1) with (Z.of_nat (S l)) in Hidr by lia.
    pose proof (slot_zero l id ltac:(lia)) as Hz0. rewrite Hlz.
    destruct (Z.eqb_spec (slot l id) 0), (Z.ltb_spec id (reach (Z.of_nat l))); try lia.
    + rewrite Nat2Z.id. rewrite (entry_frame cfg (tnodes s) _ _ _ F) by (done || auto). done.
    + apply entry_0.
Qed.
Lemma raised_refl s U F fs : file_ok s U fs F -> raised s s U F ∅ fs fs.
Proof. intros Hf. split; [set_solver|by rewrite !union_empty_l_L|done|done]. Qed.

Lemma raised_trans s s1 s2 U F N1 N2 fs fs1 fs2 :
  raised s s1 U F N1 fs fs1 -> raised s1 s2 (N1 ∪ U) (N1 ∪ F) N2 fs1 fs2 ->
  raised s s2 U F (N2 ∪ N1) fs fs2.
Proof.
  intros [Hn1 Ho1 He1 Hf1] [Hn2 Ho2 He2 Hf2]. split.
  - set_solver.
  - by rewrite <- !(assoc_L union).
  - intros id Hid. rewrite He2, He1; done.
  - intros q Hq. rewrite Hf2, Hf1; [done|done|set_solver].
Qed.

Lemma fs_eta fs : fs <| top := top fs |> <| topLevel := topLevel fs |> = fs.
Proof. by destruct fs. Qed.

(** The loop that makes the tree taller. *)
Lemma raise_spec s U fr fs F n :
  store_ok cfg s U fr -> file_ok s U fs F -> 0 <= n ->
  topLevel fs + n <= YAFFS_TNODES_MAX_LEVEL -> n <= Z.of_nat (length fr) ->
  wp (for_acc (seqZ (topLevel fs) n) (fun _ t => grow_one cfg t) (top fs)) (fun t s' =>
    exists New fr', store_ok cfg s' (New ∪ U) fr' /\
      Z.of_nat (length fr) <= Z.of_nat (length fr') + n /\
      raised s s' U F New fs (fs <| top := t |> <| topLevel := topLevel fs + n |>)) s.
Proof.
  intros Hs Hf Hn Hmax Hfr.
  eapply wp_mono; [apply (wp_for_acc (fun d t s' => exists New fr',
    store_ok cfg s' (New ∪ U) fr' /\ (length fr <= length fr' + length d)%nat /\
    raised s s' U F New fs
      (fs <| top := t |> <| topLevel := topLevel fs + Z.of_nat (length d) |>)))|].
  - exists ∅, fr. split; [by rewrite union_empty_l_L|]. split; [simpl; lia|].
    simpl length. rewrite Z.add_0_r, fs_eta. by apply raised_refl.
  - intros d x r t s1 Hseq (New & fr1 & Hs1 & Hlen & Hr). apply seqZ_split in Hseq as [-> Hd].
    set (fs1 := fs <| top := t |> <| topLevel := topLevel fs + Z.of_nat (length d) |>) in *.
    eapply wp_mono; [apply (grow_one_spec s1 (New ∪ U) fr1 fs1 (New ∪ F)); [done|apply Hr| |]|].
    + intros ->. simpl in Hlen. lia.
    + unfold fs1. simp_fields. lia.
    + intros q s2 (fr2 & Hs2 & Hlen2 & Hr2). exists ({[q]} ∪ New), fr2.
      split; [by rewrite <- (assoc_L union)|]. rewrite length_app. simpl length. split; [lia|].
      pose proof (raised_trans _ _ _ _ _ _ _ _ _ _ Hr Hr2) as H. unfold fs1 in H.
      replace (topLevel fs + Z.of_nat (length d + 1)) with (topLevel fs + Z.of_nat (length d) + 1) by lia.
      exact H.
  - intros t s' (New & fr' & Hs' & Hlen & Hr). exists New, fr'. split; [done|].
    rewrite length_seqZ in Hlen, Hr. rewrite Z2Nat.id in Hr by done. split; [lia|done].
Qed.

(** What [yaffs_AddOrFindLevel0Tnode] promises when it succeeds. *)
Record added (s s' : Tnodes K) (U F New : gset Z) (fs fs' : FileStructure) (id tn : Z) : Prop := {
  ad_new : New ## U;
  ad_ok : file_ok s' (New ∪ U) fs' (New ∪ F);
  ad_reach : id < reach (topLevel fs');
  ad_leaf : walk (tnodes s') (Z.to_nat (topLevel fs')) (top fs') id = tn;
  ad_found : tn <> 0;
  ad_entry : forall id', 0 <= id' -> file_entry s' fs' id' = file_entry s fs id';
  ad_frame : forall q, q ∈ U -> q ∉ F -> tnodes s' !! q = tnodes s !! q;
  ad_sizes : fileSize fs' = fileSize fs /\ scannedFileSize fs' = scannedFileSize fs /\
    shrinkSize fs' = shrinkSize fs
}.

(** Twelve free tnodes are enough: six for new levels, six for the path down. *)
Lemma AddOrFind_spec s U fr fs F id :
  store_ok cfg s U fr -> file_ok s U fs F -> 0 <= id <= YAFFS_MAX_CHUNK_ID ->
  (12 <= length fr)%nat ->
  wp (yaffs_AddOrFindLevel0Tnode cfg fs id 0) (fun '(tn, fs') s' => exists New fr',
    store_ok cfg s' (New ∪ U) fr' /\ (length fr <= length fr' + 12)%nat /\
    added s s' U F New fs fs' id tn) s.
Proof.
  intros Hs Hf Hid Hfr. pose proof (fo_level _ _ _ _ Hf) as Hl. unfold yaffs_AddOrFindLevel0Tnode.
  rewrite (proj2 (Z.ltb_ge (topLevel fs) 0)), (proj2 (Z.ltb_ge 6 (topLevel fs))),
    (proj2 (Z.ltb_ge 0xFFFFF id)) by lia. simpl orb. cbv iota zeta.
  destruct (requiredTallness_spec id (topLevel fs) Hid) as [Hrt Hreach]; [lia|].
  destruct (requiredTallness_spec id (requiredTallness id) Hid) as [_ Hreach']; [lia|].
  set (tall := requiredTallness id) in *.
  eapply (wp_seq _ _ (fun fs1 s1 => exists New fr1, store_ok cfg s1 (New ∪ U) fr1 /\
    (6 <= length fr1)%nat /\ (length fr <= length fr1 + 6)%nat /\ raised s s1 U F New fs fs1 /\ id < reach (topLevel fs1) /\
    fileSize fs1 = fileSize fs /\ scannedFileSize fs1 = scannedFileSize fs /\
    shrinkSize fs1 = shrinkSize fs)).
  - apply wp_if. destruct (Z.ltb_spec (topLevel fs) tall) as [Hlt|Hge].
    + eapply wp_seq; [apply (raise_spec s U fr fs F); [done|done|lia|lia|lia]|].
      intros t s1 (New & fr1 & Hs1 & Hlen & Hr). apply wp_ret. exists New, fr1.
      replace (topLevel fs + (tall - topLevel fs)) with tall in Hr by lia.
      split; [done|]. do 2 (split; [lia|]). split; [done|]. by split; [apply Hreach'|].
    + apply wp_ret. exists ∅, fr. split; [by rewrite union_empty_l_L|]. do 2 (split; [lia|]).
      split; [by apply raised_refl|]. split; [by apply Hreach|done].
  - intros fs1 s1 (New & fr1 & Hs1 & Hlen & Hspent & [Hn1 Ho1 He1 Hf1] & Hr1 & Hsz). cbv beta.
    pose proof (file_top _ _ _ _ Ho1) as Ht0. pose proof (fo_level _ _ _ _ Ho1) as Hl1.
    apply wp_if. destruct (Z.ltb_spec 0 (topLevel fs1)) as [Hpos|Hzero].
    + eapply wp_seq; [apply (add_down_spec cfg Hcfg _ s1 (New ∪ U) (New ∪ F) fr1);
        [done|apply Ho1|apply Ho1|done|lia]|].
      intros tn s2 (New2 & fr2 & Hs2 & Hlen2 & [Hn2 Ht2 He2 Hw2 Hf2] & Htn & Hwalk). apply wp_ret.
      exists (New2 ∪ New), fr2. split; [by rewrite <- (assoc_L union)|]. split; [lia|]. split; try done.
      * set_solver.
      * rewrite <- !(assoc_L union). destruct Ho1 as [? ? HU1 Hfirst]. split; [done|done|set_solver|].
        by rewrite Hw2.
      * intros id' Hid'. rewrite <- He1 by done. unfold file_entry. by rewrite He2.
      * intros q HqU HqF. rewrite Hf2, Hf1; [done|done|set_solver|set_solver].
    + apply wp_bind. change (ztrue 0) with false. apply wp_ret, wp_ret. exists New, fr1.
      split; [done|]. split; [lia|]. assert (H0 : topLevel fs1 = 0) by lia. split; try done.
      * by rewrite H0.
      * intros q HqU _. by apply Hf1.
Qed.

(** The level-0 tnode of a chunk is there afterwards; [n] free tnodes were used up at most. *)
Definition makes_room (n : nat) s (U : gset Z) (fr : list Z) fs (F : gset Z) (id : Z) : Prop :=
  wp (yaffs_AddOrFindLevel0Tnode cfg fs id 0) (fun '(tn, fs') s' => exists New fr',
    store_ok cfg s' (New ∪ U) fr' /\ (length fr <= length fr' + n)%nat /\
    added s s' U F New fs fs' id tn) s.

(** No tnode is made where there is one. *)
Lemma add_down_found l s U fr p F id :
  store_ok cfg s U fr -> tree (tnodes s) l p F -> F ⊆ U -> walk (tnodes s) l p id <> 0 ->
  wp (add_down cfg l p id 0) (fun q s' => q = walk (tnodes s) l p id /\ s' = s) s.
Proof.
  intros Hs. revert p F. induction l as [|l IH]; intros p F Ht HU Hw; [by apply wp_ret|].
  cbn [add_down]. destruct Ht as [->|(Hp & H0 & Fs & HFs & Hd)]; [by rewrite walk_0 in Hw|].
  rewrite walk_S in * by done. unfold ztrue. rewrite (proj2 (Z.eqb_neq p 0)) by done. cbv beta iota zeta delta [negb].
  pose proof (slot_range l id) as Hx. destruct (HFs _ Hx) as (Hsub & _ & Ht).
  assert (Hc : word (tnodes s) p (slot l id) <> 0) by (intros He; by rewrite He, walk_0 in Hw).
  apply wp_bind, (wp_add_child cfg Hcfg s U fr); [done|by apply HU|done|lia|].
  rewrite (proj2 (Z.eqb_neq _ 0)) by done.
  apply wp_bind, (wp_get_ptr cfg Hcfg s U fr); [done|by apply HU|done|].
  apply (IH _ (Fs (slot l id))); [done|set_solver|done].
Qed.

Lemma AddOrFind_found s U fr fs F id :
  store_ok cfg s U fr -> file_ok s U fs F -> 0 <= id <= YAFFS_MAX_CHUNK_ID -> file_entry s fs id <> 0 ->
  makes_room 0 s U fr fs F id.
Proof.
  intros Hs Hf Hid He. pose proof Hf as [Hl Ht HU Hw]. unfold makes_room, yaffs_AddOrFindLevel0Tnode.
  rewrite (proj2 (Z.ltb_ge (topLevel fs) 0)), (proj2 (Z.ltb_ge 6 (topLevel fs))),
    (proj2 (Z.ltb_ge 0xFFFFF id)) by lia. simpl orb. cbv iota zeta.
  destruct (requiredTallness_spec id (topLevel fs) Hid) as [_ Hr]; [lia|].
  unfold file_entry in He. destruct (Z.ltb_spec id (reach (topLevel fs))) as [Hlt|]; [|done].
  rewrite (proj2 (Z.ltb_ge (topLevel fs) _)) by by apply Hr. apply wp_bind, wp_ret.
  unfold entry, leaf_entry in He. set (q := walk (tnodes s) (Z.to_nat (topLevel fs)) (top fs) id) in *.
  destruct (Z.eqb_spec q 0) as [|Hq]; [done|].
  assert (Hend : exists New fr', store_ok cfg s (New ∪ U) fr' /\ (length fr <= length fr' + 0)%nat /\
    added s s U F New fs fs id q).
  { exists ∅, fr. rewrite union_empty_l_L. split; [done|]. split; [lia|].
    split; try done; [by rewrite !union_empty_l_L]. }
  apply wp_if. destruct (Z.ltb_spec 0 (topLevel fs)) as [Hpos|Hzero].
  - eapply wp_seq; [by apply (add_down_found _ s U fr (top fs) F id)|]. intros tn s1 [-> ->]. by apply wp_ret.
  - apply wp_bind. change (ztrue 0) with false. apply wp_ret, wp_ret.
    assert (Htl : topLevel fs = 0) by lia. unfold q in Hend. by rewrite Htl in Hend.
Qed.

(** The chunk group that an entry keeps of a chunk number. *)
Definition chunk_group (val : Z) : Z :=
  u32 (Z.shiftl (Z.land (Z.shiftr val (chunkGroupBits cfg)) (Z.ones (tnodeWidth cfg)))
    (chunkGroupBits cfg)).

(** Writing the entry of a chunk whose level-0 tnode is there. *)
Lemma Put_spec s U fr fs F id tn val :
  store_ok cfg s U fr -> file_ok s U fs F -> 0 <= id < reach (topLevel fs) ->
  walk (tnodes s) (Z.to_nat (topLevel fs)) (top fs) id = tn -> tn <> 0 ->
  wp (yaffs_PutLevel0Tnode cfg tn id val) (fun _ s' =>
    store_ok cfg s' U fr /\ file_ok s' U fs F /\
    (forall id', 0 <= id' ->
      file_entry s' fs id' = if id' =? id then chunk_group val else file_entry s fs id') /\
    (forall q, q ∈ U -> q ∉ F -> tnodes s' !! q = tnodes s !! q)) s.
Proof.
  intros Hs Hf Hid Hwalk Htn. destruct Hf as [Hl Ht HU Hw].
  assert (HtnF : tn ∈ F) by (rewrite <- Hwalk; apply walk_in; [done|by rewrite Hwalk]).
  destruct (store_lookup cfg s U fr tn Hs) as (ws & Hws & Hok); [by apply HU|].
  apply (wp_PutLevel0Tnode cfg Hcfg tn id val ws); [done|done|]. intros ws' Hok' Hb.
  destruct (leaf_write _ _ _ _ _ _ ws' Ht Hwalk Htn) as [Ht' Hwalk'].
  unfold reach in *. set (l := Z.to_nat (topLevel fs)) in *.
  assert (Hll : topLevel fs = Z.of_nat l) by lia. rewrite Hll in Hid.
  split; [by apply store_ok_write; [|apply HU|]|]. split; [|split].
  - unfold with_tnode. split; simp_fields; try done. fold l.
    destruct (Hwalk' 0) as [-> _]. done.
  - intros id' Hid'. unfold file_entry, reach, with_tnode. simp_fields. fold l. rewrite Hll.
    destruct (Z.ltb_spec id' (2 ^ (4 + 3 * Z.of_nat l))) as [Hlt|Hge].
    + by rewrite (entry_write cfg Hcfg (tnodes s) l (top fs) F id tn ws ws'
        (Z.shiftr val (chunkGroupBits cfg))).
    + destruct (Z.eqb_spec id' id); [lia|done].
  - intros q _ HqF. unfold with_tnode. simp_fields. apply lookup_insert_ne. by intros ->.
Qed.

Lemma chunk_group_fits val :
  tnodeWidth cfg + chunkGroupBits cfg <= 32 ->
  0 <= val < 2 ^ (tnodeWidth cfg + chunkGroupBits cfg) ->
  chunk_group val = val / 2 ^ chunkGroupBits cfg * 2 ^ chunkGroupBits cfg.
Proof.
  intros Hfit Hval. pose proof (tn_width _ Hcfg). pose proof (tn_group _ Hcfg). unfold chunk_group.
  rewrite Z.shiftr_div_pow2, Z.land_ones, Z.shiftl_mul_pow2 by lia.
  assert (Hd : 0 <= val / 2 ^ chunkGroupBits cfg < 2 ^ tnodeWidth cfg).
  { rewrite Z.add_comm, Z.pow_add_r in Hval by lia. split; [apply Z.div_pos; lia|].
    apply Z.div_lt_upper_bound; lia. }
  rewrite Z.mod_small by done. apply wrap_small. split; [nia|].
  apply Z.lt_le_trans with (2 ^ (tnodeWidth cfg + chunkGroupBits cfg)); [|apply Z.pow_le_mono_r; lia].
  rewrite Z.pow_add_r by lia. nia.
Qed.
End file.

(** ** Pruning *)

Section prune.
Context {K : Type} `{!Kmalloc K} `{!KmallocLaws K} (cfg : Config) (Hcfg : tn_cfg_ok cfg).
Implicit Types (s : Tnodes K) (fs : FileStructure) (mem : gmap Z (list Z)).

(** What taking the tnodes [D] out of a tree keeps; with [keep] also the first chunk's
    tnode stays where it is. *)
Record shrinks mem mem' (l : nat) (p p' : Z) (keep : bool) (U F D : gset Z) : Prop := {
  sh_freed : D ⊆ F;
  sh_tree : tree mem' l p' (F ∖ D);
  sh_entry : forall id, entry cfg mem' l p' id = entry cfg mem l p id;
  sh_keep : keep = true -> walk mem' l p' 0 = walk mem l p 0;
  sh_frame : forall q, q ∈ U -> q ∉ F -> mem' !! q = mem !! q
}.

Lemma shrinks_refl mem l p keep U F : tree mem l p F -> shrinks mem mem l p p keep U F ∅.
Proof. intros Ht. split; [set_solver|by rewrite difference_empty_L|done..]. Qed.

Lemma shrinks_trans mem mem1 mem2 l p keep U F D1 D2 p' :
  shrinks mem mem1 l p p keep U F D1 -> shrinks mem1 mem2 l p p' keep (U ∖ D1) (F ∖ D1) D2 ->
  shrinks mem mem2 l p p' keep U F (D1 ∪ D2).
Proof.
  intros [Hd1 Ht1 He1 Hk1 Hf1] [Hd2 Ht2 He2 Hk2 Hf2]. split.
  - set_solver.
  - by rewrite <- difference_difference_l_L.
  - intros id. by rewrite He2.
  - intros Hk. by rewrite Hk2, Hk1.
  - intros q HqU HqF. rewrite Hf2, Hf1; [done|done|done|set_solver|set_solver].
Qed.

(** A child replaced by its pruned form. *)
Lemma shrinks_child mem mem1 mem2 l p x U F Fs D keep keepx c' :
  p ∈ F -> p <> 0 -> 0 <= x < 8 -> F ⊆ U ->
  (forall i, 0 <= i < 8 -> Fs i ⊆ F /\ p ∉ Fs i /\ tree mem l (word mem p i) (Fs i)) ->
  (forall i j, 0 <= i < 8 -> 0 <= j < 8 -> i <> j -> Fs i ## Fs j) ->
  shrinks mem mem1 l (word mem p x) c' keepx U (Fs x) D ->
  (keep = true -> x = 0 -> keepx = true) ->
  (forall q, q <> p -> mem2 !! q = mem1 !! q) ->
  (forall i, 0 <= i < 8 -> word mem2 p i = if i =? x then c' else word mem p i) ->
  shrinks mem mem2 (S l) p p keep U F D.
Proof.
  intros Hp H0 Hx HU HFs Hd [Hdx Htx Hex Hkx Hfx] Hkeep Hm2 Hw2.
  destruct (HFs x Hx) as (Hsub & Hpx & _).
  assert (Hother : forall i, 0 <= i < 8 -> i <> x -> forall q, q ∈ Fs i -> mem2 !! q = mem !! q).
  { intros i Hi Hne q Hq. destruct (HFs i Hi) as (Hsi & Hpi & _). pose proof (Hd i x Hi Hx Hne).
    rewrite Hm2 by (by intros ->). apply Hfx; set_solver. }
  assert (Htx2 : tree mem2 l c' (Fs x ∖ D)).
  { eapply tree_frame; [|exact Htx]. intros q Hq. apply Hm2. intros ->. set_solver. }
  split.
  - set_solver.
  - right. split; [set_solver|]. split; [done|]. exists (fun i => Fs i ∖ D). split.
    + intros i Hi. destruct (HFs i Hi) as (Hsi & Hpi & Hti). rewrite Hw2 by done.
      split; [set_solver|]. split; [set_solver|].
      destruct (Z.eqb_spec i x) as [->|Hne]; [done|].
      replace (Fs i ∖ D) with (Fs i) by (pose proof (Hd i x Hi Hx Hne); set_solver).
      eapply tree_frame; [by apply Hother|done].
    + intros i j Hi Hj Hne. pose proof (Hd i j Hi Hj Hne). set_solver.
  - intros id. pose proof (slot_range l id) as Hi. rewrite !entry_S, Hw2 by done.
    destruct (Z.eqb_spec (slot l id) x) as [->|Hne].
    + rewrite <- Hex. apply (entry_frame cfg mem1 mem2 l c' (Fs x ∖ D)); [done|].
      intros q Hq. apply Hm2. intros ->. set_solver.
    + destruct (HFs _ Hi) as (_ & _ & Hti). eapply entry_frame; [exact Hti|]. by apply Hother.
  - intros Hk. rewrite !walk_S, slot_0, Hw2 by (done || lia).
    destruct (Z.eqb_spec 0 x) as [<-|Hne].
    + rewrite <- Hkx by auto. apply (walk_frame mem1 mem2 l c' (Fs 0 ∖ D)); [done|].
      intros q Hq. apply Hm2. intros ->. set_solver.
    + destruct (HFs 0 ltac:(lia)) as (_ & _ & Hti). eapply walk_frame; [exact Hti|].
      apply Hother; [lia|done].
  - intros q HqU HqF. rewrite Hm2 by (by intros ->). apply Hfx; [done|set_solver].
Qed.

(** A tnode whose words are all zero goes. *)
Lemma shrinks_free mem mem' l p keep U F :
  p ∈ F -> p <> 0 -> tree mem l p F -> keep = false ->
  (forall id, entry cfg mem l p id = 0) ->
  (forall q, q <> p -> mem' !! q = mem !! q) ->
  shrinks mem mem' l p 0 keep U F {[p]}.
Proof.
  intros Hp H0 Ht -> He Hm. split; [set_solver|apply tree_0| |done|].
  - intros id. by rewrite He, entry_0.
  - intros q HqU HqF. apply Hm. by intros ->.
Qed.

Lemma entry_no_child mem l p id :
  p <> 0 -> (forall i, 0 <= i < 8 -> word mem p i = 0) -> entry cfg mem (S l) p id = 0.
Proof. intros H0 Hw. rewrite entry_S by done. rewrite Hw by apply slot_range. apply entry_0. Qed.

(** With sixteen-bit entries a level-0 tnode has no words but the eight that are looked at. *)
Lemma entry_no_data mem p id ws :
  tnodeWidth cfg = 16 -> mem !! p = Some ws -> words_ok cfg ws ->
  (forall i, 0 <= i < 8 -> word mem p i = 0) -> entry cfg mem 0 p id = 0.
Proof.
  intros H16 Hws [Hl _] Hw. unfold entry, leaf_entry. simpl.
  destruct (p =? 0); [done|]. rewrite Hws. simpl.
  assert (H8 : tnodeWords cfg = 8) by (rewrite (tnodeWords_eq cfg Hcfg), H16; done).
  rewrite <- (group_of_zero cfg Hcfg id). f_equal. apply list_eq. intros i.
  destruct (decide (i < 8)%nat) as [Hi|Hi].
  - rewrite lookup_replicate_2 by lia.
    specialize (Hw (Z.of_nat i) ltac:(lia)). rewrite (word_lookup _ _ _ _ Hws) in Hw.
    unfold lookupZ in Hw. rewrite (proj2 (Z.leb_le _ _)), Nat2Z.id in Hw by lia.
    destruct (ws !! i) eqn:Hi'; [by simpl in Hw; subst|].
    apply lookup_ge_None in Hi'. lia.
  - rewrite !lookup_ge_None_2; [done|rewrite length_replicate; lia|lia].
Qed.
Definition pruned (l : nat) (s : Tnodes K) (U F : gset Z) (p : Z) (keep : bool)
    (p' : Z) (s' : Tnodes K) : Prop :=
  exists D fr', store_ok cfg s' (U ∖ D) fr' /\
    shrinks (tnodes s) (tnodes s') l p p' keep U F D /\ (keep = true -> p' = p).

Lemma tree_ptr_u32 s U fr l p F : store_ok cfg s U fr -> tree (tnodes s) l p F -> F ⊆ U -> is_u32 p.
Proof.
  intros Hs Ht HU. destruct (decide (p = 0)) as [->|Hne]; [by unfold is_u32|].
  assert (p ∈ F) by (by destruct l, Ht as [?|[? _]]).
  destruct (so_used _ _ _ _ Hs p) as [? _]; [by apply HU|]. unfold is_u32. lia.
Qed.

(** One round of the worker's loop on an internal node, by the worker's specification one
    level down. *)
Lemma prune_child_spec l s U fr p F x del0 :
  (forall s U fr p F del0, store_ok cfg s U fr -> tree (tnodes s) l p F -> F ⊆ U ->
    wp (yaffs_PruneWorker l p del0) (pruned l s U F p (negb del0)) s) ->
  store_ok cfg s U fr -> tree (tnodes s) (S l) p F -> F ⊆ U -> p <> 0 -> 0 <= x < 8 ->
  wp (if ztrue (word (tnodes s) p x) then
        q ← yaffs_PruneWorker l (word (tnodes s) p x) (if x =? 0 then del0 else true);
        put_word p x q
      else mret tt) (fun _ s' => exists D fr', p ∉ D /\ store_ok cfg s' (U ∖ D) fr' /\
    shrinks (tnodes s) (tnodes s') (S l) p p (negb del0) U F D /\
    forall i, 0 <= i < 8 -> i <> x -> word (tnodes s') p i = word (tnodes s) p i) s.
Proof.
  intros IH Hs Ht HU H0 Hx. destruct (Ht) as [?|(Hp & _ & Fs & HFs & Hd)]; [done|].
  destruct (HFs x Hx) as (Hsub & Hpx & Htx). unfold ztrue.
  destruct (Z.eqb_spec (word (tnodes s) p x) 0) as [Hc|Hc]; simpl.
  { apply wp_ret. exists ∅, fr. split; [set_solver|].
    rewrite difference_empty_L. split; [done|]. split; [by apply shrinks_refl|done]. }
  eapply wp_seq; [apply (IH s U fr _ (Fs x)); [done|done|set_solver]|].
  intros q s1 (D & fr1 & Hs1 & Hsh & _).
  assert (HpD : p ∉ D) by (pose proof (sh_freed _ _ _ _ _ _ _ _ _ Hsh); set_solver).
  destruct (store_lookup cfg s1 (U ∖ D) fr1 p Hs1) as (ws & Hws & Hok); [set_solver|].
  assert (Hq : is_u32 q).
  { eapply tree_ptr_u32; [exact Hs1|apply Hsh|set_solver]. }
  pose proof (words_len cfg Hcfg ws x Hok Hx) as Hxl.
  assert (Hsame : tnodes s1 !! p = tnodes s !! p) by (eapply sh_frame; [exact Hsh|by apply HU|done]).
  eapply wp_put_word; [exact Hws|done|]. exists D, fr1. split; [done|].
  split; [apply store_ok_write; [done|set_solver|by apply words_ok_insert]|].
  set (ws' := <[Z.to_nat x := q]> ws).
  assert (Hword : forall i, 0 <= i < 8 -> word (tnodes (with_tnode p ws' s1)) p i =
    if i =? x then q else word (tnodes s) p i).
  { intros i Hi. rewrite (word_lookup _ p i ws') by apply tnodes_with_tnode.
    unfold ws', lookupZ. rewrite (proj2 (Z.leb_le 0 i)) by lia.
    destruct (Z.eqb_spec i x) as [->|Hne]; [by rewrite list_lookup_insert_eq by lia|].
    rewrite list_lookup_insert_ne by lia. rewrite (word_lookup (tnodes s) p i ws) by congruence.
    unfold lookupZ. by rewrite (proj2 (Z.leb_le 0 i)) by lia. }
  split.
  - eapply (shrinks_child (tnodes s) (tnodes s1)); try done.
    + intros Hk ->. done.
    + intros r Hr. unfold with_tnode. simp_fields. by apply lookup_insert_ne.
  - intros i Hi Hne. rewrite Hword by done. by rewrite (proj2 (Z.eqb_neq i x)).
Qed.

(** The invariant of the loop: what is freed so far, and a count that is zero only while
    all words seen are zero. *)
Definition prune_inv (l : nat) s (U F : gset Z) p keep (d : list Z) (n : Z) (s' : Tnodes K) : Prop :=
  exists D fr', p ∉ D /\ store_ok cfg s' (U ∖ D) fr' /\
    shrinks (tnodes s) (tnodes s') l p p keep U F D /\
    0 <= n /\ (n = 0 -> forall i, 0 <= i < Z.of_nat (length d) -> word (tnodes s') p i = 0).

(** The end of a round: the word is counted if it is not zero. *)
Lemma prune_count s' U fr' p x (n : Z) (d : list Z) (Q : Z -> Tnodes K -> Prop) :
  store_ok cfg s' U fr' -> p ∈ U -> x = Z.of_nat (length d) -> 0 <= x < 8 -> 0 <= n ->
  (n = 0 -> forall i, 0 <= i < Z.of_nat (length d) -> word (tnodes s') p i = 0) ->
  (forall n', 0 <= n' ->
    (n' = 0 -> forall i, 0 <= i < Z.of_nat (length (d ++ [x])) -> word (tnodes s') p i = 0) ->
    Q n' s') ->
  wp (c ← get_word p x; mret (if ztrue c then n + 1 else n)) Q s'.
Proof.
  intros Hs Hp Hx Hx8 Hn Hz HQ. apply wp_bind, (wp_get_ptr cfg Hcfg s' U fr'); [done|done|done|].
  apply wp_ret. unfold ztrue. destruct (Z.eqb_spec (word (tnodes s') p x) 0) as [Hc|Hc]; simpl.
  - apply HQ; [done|]. intros H0 i. rewrite length_app. simpl length. intros Hi.
    destruct (decide (i = x)) as [->|Hne]; [done|]. apply Hz; [done|lia].
  - apply HQ; [lia|]. lia.
Qed.

Lemma prune_start l s U fr p F keep :
  store_ok cfg s U fr -> tree (tnodes s) l p F -> prune_inv l s U F p keep [] 0 s.
Proof.
  intros Hs Ht. exists ∅, fr. rewrite difference_empty_L. split; [set_solver|]. split; [done|].
  split; [by apply shrinks_refl|]. split; [done|]. simpl. lia.
Qed.

(** After the loop the tnode goes, if it holds nothing and may go. *)
Lemma prune_end l s U F p del0 n s1 :
  tnodeWidth cfg = 16 -> F ⊆ U -> p ∈ F -> p <> 0 ->
  prune_inv l s U F p (negb del0) (seqZ 0 8) n s1 ->
  wp (if (n =? 0) && del0 then _ ← yaffs_FreeTnode p; mret 0 else mret p)
    (pruned l s U F p (negb del0)) s1.
Proof.
  intros H16 HU Hp H0 (D & fr1 & HpD & Hs1 & Hsh & Hn & Hz). apply wp_if.
  assert (HpU : p ∈ U ∖ D) by set_solver.
  destruct (Z.eqb_spec n 0) as [->|Hn0], del0; simpl; cycle 1.
  1-3: apply wp_ret; exists D, fr1; done.
  destruct (store_lookup cfg s1 (U ∖ D) fr1 p Hs1 HpU) as (ws & Hws & Hok).
  eapply wp_seq; [by apply (FreeTnode_spec cfg Hcfg s1 (U ∖ D) fr1)|].
  intros _ s2 [Hs2 Hfr2]. apply wp_ret. exists (D ∪ {[p]}), (p :: fr1).
  rewrite <- difference_difference_l_L. split; [done|]. split; [|done].
  eapply shrinks_trans; [exact Hsh|].
  assert (Hzw : forall i, 0 <= i < 8 -> word (tnodes s1) p i = 0).
  { intros i Hi. by apply Hz. }
  apply shrinks_free; try done; [set_solver|apply Hsh|].
  intros id. destruct l as [|l]; [by eapply entry_no_data|by apply entry_no_child].
Qed.

Lemma PruneWorker_spec l : tnodeWidth cfg = 16 -> forall s U fr p F del0,
  store_ok cfg s U fr -> tree (tnodes s) l p F -> F ⊆ U ->
  wp (yaffs_PruneWorker l p del0) (pruned l s U F p (negb del0)) s.
Proof.
  intros H16. induction l as [|l IH]; intros s U fr p F del0 Hs Ht HU.
  all: destruct (decide (p = 0)) as [->|H0].
  1, 3: cbn [yaffs_PruneWorker]; apply wp_ret; exists ∅, fr; rewrite difference_empty_L;
    split; [done|]; split; [by apply shrinks_refl|done].
  all: assert (Hp : p ∈ F) by (by destruct Ht as [?|[? _]]).
  all: cbn [yaffs_PruneWorker]; unfold ztrue at 1; rewrite (proj2 (Z.eqb_neq p 0)) by done;
    cbv beta iota delta [negb].
  all: eapply wp_seq; [eapply wp_for_acc; [by eapply prune_start|]|intros n s1; by apply prune_end].
  all: intros d x r n s1 Hseq (D & fr1 & HpD & Hs1 & Hsh & Hn & Hz);
    apply seqZ_split in Hseq as [-> Hd]; rewrite Z.add_0_l in *;
    assert (HpU : p ∈ U ∖ D) by set_solver;
    apply wp_bind, (wp_get_ptr cfg Hcfg s1 (U ∖ D) fr1); [done|done|lia|].
  - apply wp_bind, wp_ret. apply (prune_count s1 (U ∖ D) fr1 p _ n d); try done; [lia|].
    intros n' Hn' Hz'. exists D, fr1. done.
  - eapply wp_seq; [apply (prune_child_spec l s1 (U ∖ D) fr1 p (F ∖ D) _ del0);
      [by intros *; apply IH|done|apply Hsh|set_solver|done|lia]|].
    intros [] s2 (D2 & fr2 & HpD2 & Hs2 & Hsh2 & Hw2). rewrite difference_difference_l_L in Hs2.
    apply (prune_count s2 (U ∖ (D ∪ D2)) fr2 p _ n d); try done; [set_solver|lia| |].
    + intros Hn0 i Hi. rewrite Hw2 by lia. by apply Hz.
    + intros n' Hn' Hz'. exists (D ∪ D2), fr2. split; [set_solver|]. split; [done|].
      split; [by eapply shrinks_trans|done].
Qed.

(** ** Shortening the tree *)

Lemma shorten_count s U fr p :
  store_ok cfg s U fr -> p ∈ U ->
  wp (for_acc (seqZ 1 (8 - 1)) (fun i n =>
    c ← get_word p i; mret (if ztrue c then n + 1 else n)) 0)
  (fun n s' => s' = s /\ (n = 0 -> forall i, 1 <= i < 8 -> word (tnodes s) p i = 0)) s.
Proof.
  intros Hs Hp.
  eapply wp_mono; [apply (wp_for_acc (fun d n s' => s' = s /\ 0 <= n /\
    (n = 0 -> forall i, 1 <= i < 1 + Z.of_nat (length d) -> word (tnodes s) p i = 0)))|].
  - split; [done|]. split; [done|]. simpl. lia.
  - intros d x r n s' Hseq (-> & Hn & Hz). apply seqZ_split in Hseq as [-> Hd].
    apply wp_bind, (wp_get_ptr cfg Hcfg s U fr); [done|done|lia|]. apply wp_ret.
    rewrite length_app. simpl length. unfold ztrue.
    destruct (Z.eqb_spec (word (tnodes s) p (1 + Z.of_nat (length d))) 0) as [Hc|Hc]; simpl.
    + split; [done|]. split; [done|]. intros H0 i Hi.
      destruct (decide (i = 1 + Z.of_nat (length d))) as [->|Hne]; [done|]. apply Hz; [done|lia].
    + split; [done|]. split; [lia|]. lia.
  - intros n s' (-> & _ & Hz). split; [done|]. intros H0 i Hi. by apply Hz.
Qed.

Record cut_down s s' (U F D : gset Z) fs fs' : Prop := {
  cu_freed : D ⊆ F;
  cu_ok : file_ok s' (U ∖ D) fs' (F ∖ D);
  cu_entry : forall id, 0 <= id -> file_entry cfg s' fs' id = file_entry cfg s fs id;
  cu_frame : forall q, q ∈ U -> q ∉ F -> tnodes s' !! q = tnodes s !! q;
  cu_level : topLevel fs' <= topLevel fs;
  cu_sizes : fileSize fs' = fileSize fs /\ scannedFileSize fs' = scannedFileSize fs /\
    shrinkSize fs' = shrinkSize fs
}.

Lemma cut_down_trans s s1 s2 U F D1 D2 fs fs1 fs2 :
  cut_down s s1 U F D1 fs fs1 -> cut_down s1 s2 (U ∖ D1) (F ∖ D1) D2 fs1 fs2 ->
  cut_down s s2 U F (D1 ∪ D2) fs fs2.
Proof.
  intros [Hd1 Ho1 He1 Hf1 Hl1 (?&?&?)] [Hd2 Ho2 He2 Hf2 Hl2 (?&?&?)]. split.
  - set_solver.
  - by rewrite <- !difference_difference_l_L.
  - intros id Hid. by rewrite He2, He1.
  - intros q HqU HqF. rewrite Hf2, Hf1; [done|done|done|set_solver|set_solver].
  - lia.
  - split; [congruence|]. split; congruence.
Qed.

(** A root with no child but the first can go: the chunks beyond the reach of the rest have
    no entry. *)
Lemma drop_root s s' U F fs l :
  file_ok s U fs F -> Z.to_nat (topLevel fs) = S l ->
  (forall i, 1 <= i < 8 -> word (tnodes s) (top fs) i = 0) ->
  (forall q, q <> top fs -> tnodes s' !! q = tnodes s !! q) ->
  cut_down s s' U F {[top fs]} fs
    (fs <| top := word (tnodes s) (top fs) 0 |> <| topLevel := Z.of_nat l |>).
Proof.
  intros Hf Hl Hz Hm. pose proof (file_top _ _ _ _ Hf) as Ht0.
  destruct Hf as [Hlev Ht HU Hw]. rewrite Hl in Ht, Hw.
  destruct Ht as [?|(Hp & _ & Fs & HFs & Hd)]; [done|].
  destruct (HFs 0 ltac:(lia)) as (Hsub & Hpx & Ht).
  rewrite walk_S, slot_0 in Hw by done.
  assert (Hfr : forall q, q ∈ Fs 0 -> tnodes s' !! q = tnodes s !! q).
  { intros q Hq. apply Hm. by intros ->. }
  split; simp_fields; try done; [set_solver| | | |lia].
  - split; simp_fields; rewrite ?Nat2Z.id; [lia| |set_solver|].
    + eapply tree_mono, tree_frame; [|exact Hfr|done]. set_solver.
    + by rewrite (walk_frame (tnodes s) _ _ _ (Fs 0)).
  - intros id Hid. unfold file_entry. simp_fields. rewrite Nat2Z.id, Hl.
    replace (topLevel fs) with (Z.of_nat (S l)) by lia.
    pose proof (reach_le (Z.of_nat l) (Z.of_nat (S l)) ltac:(lia)).
    destruct (Z.ltb_spec id (reach (Z.of_nat (S l)))) as [Hr|Hr];
      [|by rewrite (proj2 (Z.ltb_ge id (reach (Z.of_nat l)))) by lia].
    rewrite entry_S by done. pose proof (slot_zero l id ltac:(lia)) as Hs0.
    pose proof (slot_range l id).
    destruct (Z.ltb_spec id (reach (Z.of_nat l))).
    + rewrite (proj2 Hs0) by done. by apply (entry_frame cfg (tnodes s) _ _ _ (Fs 0)).
    + rewrite Hz by lia. by rewrite entry_0.
  - intros q _ Hq. apply Hm. by intros ->.
Qed.

Lemma shorten_spec l s U fr fs F :
  store_ok cfg s U fr -> file_ok s U fs F -> Z.to_nat (topLevel fs) = l ->
  wp (shorten l (top fs)) (fun '(lev, t) s' => exists D fr',
    store_ok cfg s' (U ∖ D) fr' /\ cut_down s s' U F D fs (fs <| top := t |> <| topLevel := lev |>)) s.
Proof.
  assert (Hrefl : forall s U fr fs F, store_ok cfg s U fr -> file_ok s U fs F ->
    exists D fr', store_ok cfg s (U ∖ D) fr' /\
      cut_down s s U F D fs (fs <| top := top fs |> <| topLevel := topLevel fs |>)).
  { intros s0 U0 fr0 fs0 F0 Hs Hf. exists ∅, fr0. rewrite difference_empty_L, fs_eta.
    split; [done|]. split; [set_solver|by rewrite !difference_empty_L|done..]. }
  revert s U fr fs F. induction l as [|l IH]; intros s U fr fs F Hs Hf Hl.
  { apply wp_ret. pose proof (fo_level _ _ _ _ Hf). replace 0 with (topLevel fs) by lia. by eapply Hrefl. }
  cbn [shorten]. pose proof (file_top _ _ _ _ Hf) as Ht0.
  assert (HpF : top fs ∈ F).
  { pose proof (fo_tree _ _ _ _ Hf) as Ht. rewrite Hl in Ht. by destruct Ht as [?|[? _]]. }
  assert (Hp : top fs ∈ U) by (by apply (fo_used _ _ _ _ Hf)).
  eapply wp_seq; [by apply (shorten_count s U fr)|]. intros n s0 [-> Hz]. apply wp_if.
  destruct (Z.eqb_spec n 0) as [Hn|Hn].
  - apply wp_bind, (wp_get_ptr cfg Hcfg s U fr); [done|done|lia|].
    eapply wp_seq; [by apply (FreeTnode_spec cfg Hcfg s U fr)|]. intros _ s1 [Hs1 Hm].
    pose proof (drop_root s s1 U F fs l Hf Hl (Hz Hn) Hm) as Hc.
    pose proof (IH s1 (U ∖ {[top fs]}) (top fs :: fr)
      (fs <| top := word (tnodes s) (top fs) 0 |> <| topLevel := Z.of_nat l |>) (F ∖ {[top fs]})
      Hs1 (cu_ok _ _ _ _ _ _ _ Hc) (Nat2Z.id l)) as Hrest. simp_fields_in Hrest.
    eapply wp_mono; [exact Hrest|].
    intros [lev t] s2 (D & fr2 & Hs2 & Hc2). exists ({[top fs]} ∪ D), fr2.
    rewrite <- difference_difference_l_L. split; [done|]. by eapply cut_down_trans.
  - apply wp_ret. pose proof (fo_level _ _ _ _ Hf).
    replace (Z.of_nat (S l)) with (topLevel fs) by lia. by eapply Hrefl.
Qed.

Lemma PruneFileStructure_spec s U fr fs F :
  tnodeWidth cfg = 16 -> store_ok cfg s U fr -> file_ok s U fs F ->
  wp (yaffs_PruneFileStructure fs) (fun '(r, fs') s' => r = YAFFS_OK /\ exists D fr',
    store_ok cfg s' (U ∖ D) fr' /\ cut_down s s' U F D fs fs') s.
Proof.
  intros H16 Hs Hf. pose proof (fo_level _ _ _ _ Hf). unfold yaffs_PruneFileStructure. apply wp_if.
  destruct (Z.ltb_spec 0 (topLevel fs)) as [Hl|Hl].
  - eapply wp_seq; [apply (PruneWorker_spec _ H16 s U fr _ F); [done|apply Hf|apply Hf]|].
    intros t s1 (D & fr1 & Hs1 & [Hd Ht He Hk Hfr] & Htop). rewrite (Htop eq_refl) in *.
    assert (Hc : cut_down s s1 U F D fs fs).
    { split; try done.
      - split; try done; [pose proof (fo_used _ _ _ _ Hf); set_solver|].
        rewrite Hk by done. apply Hf.
      - intros id Hid. unfold file_entry. by rewrite He. }
    eapply wp_seq; [apply (shorten_spec _ s1 (U ∖ D) fr1 fs (F ∖ D)); [done|apply Hc|done]|].
    intros [lev t'] s2 (D2 & fr2 & Hs2 & Hc2). apply wp_ret. split; [done|].
    exists (D ∪ D2), fr2. rewrite <- difference_difference_l_L. split; [done|].
    by eapply cut_down_trans.
  - apply wp_ret. split; [done|]. exists ∅, fr. rewrite difference_empty_L. split; [done|].
    split; [set_solver|by rewrite !difference_empty_L|done..].
Qed.
End prune.

(** ** Properties *)

Section properties.
Context {K : Type} `{!Kmalloc K} `{!KmallocLaws K} (cfg : Config).
Implicit Types (s : Tnodes K) (fs : FileStructure).

(** C21. The tree of a file is a finite map from chunk numbers to chunk groups: adding the tnode
    of a chunk and writing the chunk's entry makes the look-up of that chunk give what was
    written, and the look-up of any other chunk gives what it gave before, also when the
    tree had to grow.  The tree stays well-formed, the books of the tnode store stay
    right, and every other file keeps its tree and all its entries.  Twelve free tnodes
    are enough to rule out running out of memory on the way. *)
Theorem Tree_insert_lookup s U fr fs F id val id' :
  tn_cfg_ok cfg -> tnodeWidth cfg + chunkGroupBits cfg <= 32 ->
  store_ok cfg s U fr -> file_ok s U fs F -> (12 <= length fr)%nat ->
  0 <= id <= YAFFS_MAX_CHUNK_ID -> 0 <= id' <= YAFFS_MAX_CHUNK_ID ->
  0 <= val < 2 ^ (tnodeWidth cfg + chunkGroupBits cfg) ->
  wp (old ← find_group cfg fs id';
      '(tn, fs') ← yaffs_AddOrFindLevel0Tnode cfg fs id 0;
      _ ← yaffs_PutLevel0Tnode cfg tn id val;
      new ← find_group cfg fs' id';
      mret (old, new, fs'))
    (fun '(old, new, fs') s' =>
      new = (if id' =? id then val / 2 ^ chunkGroupBits cfg * 2 ^ chunkGroupBits cfg else old) /\
      exists New fr', New ## U /\ store_ok cfg s' (New ∪ U) fr' /\
        file_ok s' (New ∪ U) fs' (New ∪ F) /\
        forall fs2 F2, file_ok s U fs2 F2 -> F2 ## F ->
          file_ok s' (New ∪ U) fs2 F2 /\ forall id2, file_entry cfg s' fs2 id2 = file_entry cfg s fs2 id2)
    s.
Proof.
  intros Hc Hfit Hs Hf Hfr Hid Hid' Hval.
  eapply wp_seq; [by apply (find_group_spec cfg Hc s U fr fs F id')|]. intros old s0 [-> ->].
  eapply wp_seq; [by apply (AddOrFind_spec cfg Hc s U fr fs F id)|].
  intros [tn fs'] s1 (New & fr1 & Hs1 & _ & [Hn Ho Hr Hl Htn He Hfrm _]).
  eapply wp_seq; [apply (Put_spec cfg Hc s1 (New ∪ U) fr1 fs' (New ∪ F) id tn val); try done; lia|].
  intros _ s2 (Hs2 & Ho2 & He2 & Hfrm2).
  eapply wp_seq; [by apply (find_group_spec cfg Hc s2 (New ∪ U) fr1 fs' (New ∪ F) id')|].
  intros new s3 [-> ->]. apply wp_ret. split.
  - rewrite He2, He, chunk_group_fits by (done || lia). done.
  - exists New, fr1. do 3 (split; [done|]). intros fs2 F2 Hf2 Hd.
    apply (file_ok_frame cfg s s2 U); [done|pose proof (fo_used _ _ _ _ Hf2); set_solver|].
    intros q Hq. pose proof (fo_used _ _ _ _ Hf2 q Hq) as HqU.
    rewrite Hfrm2, Hfrm; [done|done|set_solver|set_solver|set_solver].
Qed.

(** C22. With tnodes of 16 bits, pruning a file gives back tnodes and changes no look-up: the
    tree that [yaffs_PruneFileStructure] leaves is well-formed, no taller than before,
    finds the same group for every chunk, and every tnode that left it is free. *)
Theorem Prune_keeps_map s U fr fs F id :
  tn_cfg_ok cfg -> tnodeWidth cfg = 16 ->
  store_ok cfg s U fr -> file_ok s U fs F -> 0 <= id <= YAFFS_MAX_CHUNK_ID ->
  wp (old ← find_group cfg fs id;
      '(r, fs') ← yaffs_PruneFileStructure fs;
      new ← find_group cfg fs' id;
      mret (old, new, r, fs'))
    (fun '(old, new, r, fs') s' => new = old /\ r = YAFFS_OK /\ topLevel fs' <= topLevel fs /\
      exists D fr', D ⊆ F /\ store_ok cfg s' (U ∖ D) fr' /\ file_ok s' (U ∖ D) fs' (F ∖ D) /\
        forall q, q ∈ U -> q ∉ F -> tnodes s' !! q = tnodes s !! q) s.
Proof.
  intros Hc H16 Hs Hf Hid.
  eapply wp_seq; [by apply (find_group_spec cfg Hc s U fr fs F id)|]. intros old s0 [-> ->].
  eapply wp_seq; [by apply (PruneFileStructure_spec cfg Hc s U fr fs F)|].
  intros [r fs'] s1 [-> (D & fr1 & Hs1 & [Hd Ho He Hfr Hl _])].
  eapply wp_seq; [by apply (find_group_spec cfg Hc s1 (U ∖ D) fr1 fs' (F ∖ D) id)|].
  intros new s2 [-> ->]. apply wp_ret. split; [apply He; lia|]. split; [done|]. split; [done|].
  by exists D, fr1.
Qed.
End properties.

(** A new file: a store with a bunch of tnodes, one of them the file's first. *)
Definition sample_tnodes : Tnodes Z := run_state (yaffs_GetTnode sample_cfg) empty_tnodes.
Definition sample_file : FileStructure := MkFileStructure 0 0 0 0 4096.

Lemma new_file_ok cfg : tn_cfg_ok cfg ->
  fst <$> yaffs_GetTnode cfg empty_tnodes = Some 4096 ->
  nFreeTnodes (run_state (yaffs_GetTnode cfg) empty_tnodes) = 99 ->
  store_ok cfg empty_tnodes ∅ [] ->
  exists fr, length fr = 99%nat /\
    store_ok cfg (run_state (yaffs_GetTnode cfg) empty_tnodes) {[4096]} fr /\
    file_ok (run_state (yaffs_GetTnode cfg) empty_tnodes) {[4096]} sample_file {[4096]}.
Proof.
  intros Hc Hrun H99 Hs. pose proof (GetTnode_spec cfg Hc empty_tnodes ∅ [] Hs) as H.
  unfold wp in H. unfold run_state in *.
  destruct (yaffs_GetTnode cfg empty_tnodes) as [[tn s']|]; [|done]. simpl in Hrun.
  simplify_eq. destruct H as [_ [_ [[? _]|(Hne & _ & Hz & fr & Hs' & _)]]]; [done|].
  rewrite union_empty_r_L in Hs'. exists fr.
  pose proof (so_count _ _ _ _ Hs') as Hn. split; [lia|]. split; [done|].
  split; [simpl; lia| |done|done]. right. split; [set_solver|done].
Qed.

Lemma sample_file_ok : exists fr, length fr = 99%nat /\
  store_ok sample_cfg sample_tnodes {[4096]} fr /\ file_ok sample_tnodes {[4096]} sample_file {[4096]}.
Proof.
  apply new_file_ok; [apply sample_tn_cfg_ok|by vm_compute|by vm_compute|apply empty_store_ok].
Qed.

Lemma Tree_insert_lookup_witness :
  wp (old ← find_group sample_cfg sample_file 700;
      '(tn, fs') ← yaffs_AddOrFindLevel0Tnode sample_cfg sample_file 700 0;
      _ ← yaffs_PutLevel0Tnode sample_cfg tn 700 77;
      new ← find_group sample_cfg fs' 700;
      mret (old, new, fs')) (fun '(old, new, fs') s' => new = 77) sample_tnodes.
Proof.
  destruct sample_file_ok as (fr & Hl & Hs & Hf).
  eapply wp_mono; [apply (Tree_insert_lookup sample_cfg sample_tnodes _ fr sample_file _ 700 77 700
    sample_tn_cfg_ok ltac:(done) Hs Hf ltac:(lia) ltac:(done) ltac:(done) ltac:(done))|].
  intros [[old new] fs'] s' [-> _]. reflexivity.
Defined.

Lemma Prune_keeps_map_witness :
  wp (old ← find_group sample_cfg sample_file 3;
      '(r, fs') ← yaffs_PruneFileStructure sample_file;
      new ← find_group sample_cfg fs' 3;
      mret (old, new, r, fs')) (fun '(old, new, r, fs') s' => new = old) sample_tnodes.
Proof.
  destruct sample_file_ok as (fr & Hl & Hs & Hf).
  eapply wp_mono; [apply (Prune_keeps_map sample_cfg sample_tnodes _ fr sample_file _ 3
    sample_tn_cfg_ok ltac:(done) Hs Hf ltac:(done))|].
  intros [[[old new] r] fs'] s' [-> _]. reflexivity.
Defined.

(** ** Where the code fails *)

(** Adds an entry for a chunk to a file, as [yaffs_PutChunkIntoFile] does. *)
Definition put_chunk (cfg : Config) fs (id val : Z) : M (Tnodes Z) FileStructure :=
  '(tn, fs') ← yaffs_AddOrFindLevel0Tnode cfg fs id 0;
  _ ← yaffs_PutLevel0Tnode cfg tn id val;
  mret fs'.

(** With tnodes wider than 16 bits pruning can lose data: the worker looks at the first
    eight words of a level-0 tnode only, and the last entries lie in the ninth.  A file with
    chunks 1 and 31 on a device with 18-bit entries no longer finds chunk 31 after
    [yaffs_PruneFileStructure], although nothing was deleted. *)
Example Prune_loses_wide :
  let prog :=
    tn ← yaffs_GetTnode wide_cfg;
    fs1 ← put_chunk wide_cfg (MkFileStructure 0 0 0 0 tn) 1 100;
    fs2 ← put_chunk wide_cfg fs1 31 200;
    before ← find_group wide_cfg fs2 31;
    '(r, fs3) ← yaffs_PruneFileStructure fs2;
    kept ← find_group wide_cfg fs3 1;
    after ← find_group wide_cfg fs3 31;
    mret (before, kept, after) in
  fst <$> prog empty_tnodes = Some (200, 100, 0).
Proof. vm_compute. reflexivity. Qed.

(** The kernel out of memory. *)
Definition no_memory (s : Tnodes Z) : Tnodes Z :=
  s <| freeTnodes := 0 |> <| nFreeTnodes := 0 |> <| heap := bump_top |>.

(** When no tnode is to be had while the tree must grow, the height is set all the same:
    the file's level-0 tnode then stands where an internal node should be and its entries
    are followed as pointers.  A file with chunks 0 and 1, to which chunk 16 cannot be added
    because the kernel is out of memory, had chunk 1 before; looking it up afterwards
    follows a pointer made of two entries. *)
Example AddOrFind_breaks_tree :
  let setup :=
    tn ← yaffs_GetTnode sample_cfg;
    fs1 ← put_chunk sample_cfg (MkFileStructure 0 0 0 0 tn) 0 100;
    fs2 ← put_chunk sample_cfg fs1 1 200;
    _ ← modify no_memory;
    before ← find_group sample_cfg fs2 1;
    '(tn, fs3) ← yaffs_AddOrFindLevel0Tnode sample_cfg fs2 16 0;
    mret (before, tn, fs3) in
  let after :=
    '(_, _, fs3) ← setup;
    find_group sample_cfg fs3 1 in
  (exists fs3, fst <$> setup empty_tnodes = Some (200, 0, fs3) /\ topLevel fs3 = 1) /\
  after empty_tnodes = None.
Proof. split; [eexists; split; vm_compute; reflexivity|vm_compute; reflexivity]. Qed.
