(* ===== verification/Init.v ===== *)
(** * Initialisation: checks and geometry ([yaffs_GutsInitialise], [yaffs_guts.c])

    The first part of [yaffs_GutsInitialise]: the checks of the parameters and of the
    driver, and the numbers computed from them.  The theorems show that what passes
    the checks satisfies the assumptions [cfg_ok] and [tn_cfg_ok] under which the other
    files prove their theorems, and that file addresses are translated correctly.  The
    caches, the objects and the scan that follow are not modelled here. *)
From S2P Require Import Prelude Monad Device Nand Sim Tnode.

(** Which function pointers of [yaffs_Device] are set. *)
Record DevFunctions := MkDevFunctions {
  has_eraseBlockInNAND : bool;
  has_initialiseNAND : bool;
  has_writeChunkWithTagsToNAND : bool;
  has_readChunkWithTagsFromNAND : bool;
  has_writeChunkToNAND : bool;
  has_readChunkFromNAND : bool;
  has_markNANDBlockBad : bool;
  has_queryNANDBlock : bool
}.

Definition yaffs_CheckDevFunctions (cfg : Config) (f : DevFunctions) : bool :=
  if negb (has_eraseBlockInNAND f) || negb (has_initialiseNAND f) then false else
  if has_writeChunkWithTagsToNAND f && has_readChunkWithTagsFromNAND f &&
     negb (has_writeChunkToNAND f) && negb (has_readChunkFromNAND f) &&
     has_markNANDBlockBad f && has_queryNANDBlock f then true else
  if negb (isYaffs2 cfg) &&
     negb (has_writeChunkWithTagsToNAND f) && negb (has_readChunkWithTagsFromNAND f) &&
     has_writeChunkToNAND f && has_readChunkFromNAND f &&
     negb (has_markNANDBlockBad f) && negb (has_queryNANDBlock f) then true else
  false.

(** Internal block numbers start at 1: a device that starts at block 0 is shifted. *)
Definition internal_blocks (cfg : Config) : Config :=
  if startBlock cfg =? 0 then
    cfg <| internalStartBlock := startBlock cfg + 1 |> <| internalEndBlock := endBlock cfg + 1 |>
      <| blockOffset := 1 |> <| chunkOffset := nChunksPerBlock cfg |>
  else
    cfg <| internalStartBlock := startBlock cfg |> <| internalEndBlock := endBlock cfg |>
      <| blockOffset := 0 |> <| chunkOffset := 0 |>.

Definition geometry_problems (cfg : Config) : bool :=
  (isYaffs2 cfg && (nDataBytesPerChunk cfg <? 1024)) ||
  (negb (isYaffs2 cfg) && negb (nDataBytesPerChunk cfg =? 512)) ||
  (nChunksPerBlock cfg <? 2) ||
  (nReservedBlocks cfg <? 2) ||
  (internalStartBlock cfg <=? 0) ||
  (internalEndBlock cfg <=? 0) ||
  (internalEndBlock cfg <=? internalStartBlock cfg + nReservedBlocks cfg + 2).

(** How file addresses are split into chunk and offset; 16 is the size of
    [yaffs_PackedTags2TagsPart]. *)
Definition chunk_geometry (cfg : Config) : Config :=
  let shift := ShiftDiv (u32 (nDataBytesPerChunk cfg)) in
  let mask := u32 (Z.shiftl 1 shift - 1) in
  if u32 (nDataBytesPerChunk cfg) =? u32 (mask + 1) then
    cfg <| chunkShift := shift |> <| chunkMask := mask |>
      <| crumbMask := 0 |> <| crumbShift := 0 |> <| crumbsPerChunk := 0 |>
  else
    let shift := ShiftDiv 16 in
    cfg <| crumbShift := shift |> <| crumbMask := Z.shiftl 1 shift - 1 |>
      <| crumbsPerChunk := Z.quot (nDataBytesPerChunk cfg) (Z.shiftl 1 shift) |>
      <| chunkShift := 0 |> <| chunkMask := 0 |>.

(** The width of a level-0 entry and the size of a chunk group. *)
Definition tnode_geometry (cfg : Config) : Config :=
  let x := u32 (nChunksPerBlock cfg * (internalEndBlock cfg + 1)) in
  let bits := ShiftsGE x in
  let bits := if negb (wideTnodesDisabled cfg) then (if hasbits bits 1 then bits + 1 else bits)
              else bits in
  let width := if negb (wideTnodesDisabled cfg) then (if bits <? 16 then 16 else bits) else 16 in
  let groupBits := if bits <=? width then 0 else u16 (bits - width) in
  cfg <| tnodeWidth := width |> <| tnodeMask := u32 (Z.shiftl 1 width - 1) |>
    <| chunkGroupBits := groupBits |> <| chunkGroupSize := u16 (Z.shiftl 1 groupBits) |>.

(** The last fields; the bitmap stride is the one [yaffs_InitialiseBlocks] sets. *)
Definition finish (cfg : Config) : Config :=
  (if isYaffs2 cfg then cfg <| useHeaderFileSize := true |> else cfg)
    <| chunkBitmapStride := Z.quot (nChunksPerBlock cfg + 7) 8 |>.

Section init.
Context {N : Type} {nd : NandDriver N}.
Local Abbreviation St := (State N).

(** [yaffs_GutsInitialise] up to the temporary buffers: the new [isMounted], and the
    configuration unless a check fails.  [yaffs_CheckStructures] compares sizes of types
    that the compiler fixes. *)
Definition guts_geometry (cfg : Config) (f : DevFunctions) (isMounted : bool)
    : M St (bool * option Config) :=
  let cfg := internal_blocks cfg in
  _ ← modB (fun b => b <| nFreeChunks := 0 |>);
  if geometry_problems cfg then mret (isMounted, None) else
  r ← yaffs_InitialiseNAND;
  if negb (r =? YAFFS_OK) then mret (isMounted, None) else
  if negb (yaffs_CheckDevFunctions cfg f) then mret (isMounted, None) else
  if isMounted then mret (isMounted, None) else
  let cfg := tnode_geometry (chunk_geometry cfg) in
  if nChunksPerBlock cfg <? chunkGroupSize cfg then mret (true, None) else
  _ ← modS (fun s => s <| garbageCollections := 0 |> <| passiveGarbageCollections := 0 |>
    <| eccFixed := 0 |> <| eccUnfixed := 0 |> <| tagsEccFixed := 0 |> <| tagsEccUnfixed := 0 |>
    <| nErasureFailures := 0 |>);
  _ ← modB (fun b => b <| currentDirtyChecker := 0 |> <| nErasedBlocks := 0 |>
    <| isDoingGC := false |> <| hasPendingPrioritisedGCs := true |>);
  mret (true, Some (finish cfg)).
End init.

(** ** Shifts *)

Lemma hasbits_1 x : hasbits x 1 = Z.odd x.
Proof. change 1 with (2 ^ 0). by rewrite hasbits_pow2, Z.bit0_odd. Qed.

(** [ShiftsGE] is the least power of two that is not smaller. *)
Lemma ShiftsGE_loop_spec fuel x e n :
  1 <= x < 2 ^ Z.of_nat (S fuel) -> 0 <= e ->
  let '(e', n') := ShiftsGE_loop fuel x e n in
  exists k, 0 <= k <= Z.of_nat fuel /\ n' = n + k /\ 2 ^ k <= x < 2 ^ (k + 1) /\ e <= e' /\
    (e' = e <-> x = 2 ^ k).
Proof.
  revert x e n. induction fuel as [|fuel IH]; intros x e n Hx He; cbn [ShiftsGE_loop].
  { exists 0. change (2 ^ Z.of_nat 1) with 2 in Hx. change (2 ^ 0) with 1. change (2 ^ (0 + 1)) with 2. lia. }
  destruct (Z.ltb_spec 1 x) as [H1|H1].
  - rewrite Z.shiftr_div_pow2 by done. change (2 ^ 1) with 2.
    rewrite hasbits_1.
    set (e1 := if Z.odd x then e + 1 else e).
    pose proof (Z.div_mod x 2 ltac:(lia)) as Hdm. pose proof (Zmod_odd x) as Hodd.
    assert (Hx2 : 1 <= x / 2 < 2 ^ Z.of_nat (S fuel)).
    { split; [apply Z.div_le_lower_bound; lia|]. apply Z.div_lt_upper_bound; [lia|].
      replace (Z.of_nat (S (S fuel))) with (Z.of_nat (S fuel) + 1) in Hx by lia.
      rewrite Z.pow_add_r in Hx by lia. lia. }
    specialize (IH (x / 2) e1 (n + 1) Hx2 ltac:(unfold e1; destruct (Z.odd x); lia)).
    destruct (ShiftsGE_loop fuel (x / 2) e1 (n + 1)) as [e' n'].
    destruct IH as (k & Hk & -> & Hb & He' & Hiff). exists (k + 1).
    rewrite !Z.pow_add_r in * by lia. change (2 ^ 1) with 2 in *.
    unfold e1 in *. destruct (Z.odd x); repeat split; try lia.
  - exists 0. change (2 ^ 0) with 1. change (2 ^ (0 + 1)) with 2. lia.
Qed.

Lemma ShiftsGE_spec x : 1 <= x < 2 ^ 32 ->
  0 <= ShiftsGE x <= 32 /\ x <= 2 ^ ShiftsGE x /\ (1 < x -> 2 ^ (ShiftsGE x - 1) < x).
Proof.
  intros Hx. unfold ShiftsGE.
  assert (Hr : 1 <= x < 2 ^ Z.of_nat (S 32)).
  { change (2 ^ Z.of_nat (S 32)) with (2 ^ 32 * 2). lia. }
  pose proof (ShiftsGE_loop_spec 32 x 0 0 Hr ltac:(lia)) as H.
  destruct (ShiftsGE_loop 32 x 0 0) as [e n]. destruct H as (k & Hk & -> & [Hlo Hhi] & He & Hiff).
  assert (Hk31 : k <= 31).
  { destruct (decide (k <= 31)); [done|]. assert (k = 32) as -> by lia. lia. }
  rewrite Z.add_0_l. unfold ztrue. destruct (Z.eqb_spec e 0) as [H0|H0]; simpl.
  - destruct Hiff as [Hx' _]. specialize (Hx' H0). split; [lia|]. split; [lia|]. intros H1.
    destruct (decide (k = 0)) as [->|]; [change (2 ^ 0) with 1 in Hx'; lia|].
    rewrite Hx'. apply Z.pow_lt_mono_r; lia.
  - split; [lia|]. split; [lia|]. intros _. replace (k + 1 - 1) with k by lia.
    destruct (decide (x = 2 ^ k)) as [Heq|]; [|lia]. exfalso. apply H0. by apply Hiff.
Qed.

Lemma ShiftDiv_loop_spec fuel x n :
  0 < x < 2 ^ Z.of_nat fuel ->
  exists k, 0 <= k < Z.of_nat fuel /\ ShiftDiv_loop fuel x n = n + k /\ exists m, x = (2 * m + 1) * 2 ^ k.
Proof.
  revert x n. induction fuel as [|fuel IH]; intros x n Hx; [simpl in Hx; lia|].
  cbn [ShiftDiv_loop]. rewrite hasbits_1.
  destruct (Z.odd x) eqn:Ho.
  - exists 0. split; [lia|]. split; [lia|]. apply Z.odd_spec in Ho as [m Hm]. exists m.
    change (2 ^ 0) with 1. lia.
  - rewrite Z.shiftr_div_pow2 by done. change (2 ^ 1) with 2.
    pose proof (Z.div_mod x 2 ltac:(lia)) as Hdm. pose proof (Zmod_odd x) as Hodd. rewrite Ho in Hodd.
    destruct (IH (x / 2) (n + 1)) as (k & Hk & -> & m & Hm).
    { split; [lia|]. apply Z.div_lt_upper_bound; [lia|].
      replace (Z.of_nat (S fuel)) with (Z.of_nat fuel + 1) in Hx by lia.
      rewrite Z.pow_add_r in Hx by lia. lia. }
    exists (k + 1). split; [lia|]. split; [lia|]. exists m. rewrite Z.pow_add_r by lia. lia.
Qed.

(** ** Addresses *)

(** The bytes that one chunk number covers: the chunk, or its whole crumbs of 16 bytes when
    its size is not a power of two. *)
Definition chunk_unit (cfg : Config) : Z :=
  if ztrue (chunkShift cfg) then 2 ^ chunkShift cfg else 16 * crumbsPerChunk cfg.

Lemma chunk_geometry_spec cfg :
  512 <= nDataBytesPerChunk cfg < 2 ^ 31 ->
  let cfg' := chunk_geometry cfg in
  (chunkShift cfg' = 0 /\ crumbShift cfg' = 4 /\ crumbMask cfg' = 15 /\
   crumbsPerChunk cfg' = nDataBytesPerChunk cfg / 16) \/
  (9 <= chunkShift cfg' < 31 /\ nDataBytesPerChunk cfg = 2 ^ chunkShift cfg' /\
   chunkMask cfg' = 2 ^ chunkShift cfg' - 1).
Proof.
  intros Hn. cbv zeta. unfold chunk_geometry.
  assert (Hu : u32 (nDataBytesPerChunk cfg) = nDataBytesPerChunk cfg).
  { apply wrap_small. change (2 ^ 32) with (2 ^ 31 * 2). lia. }
  simp_fields. rewrite Hu.
  assert (Hr : 0 < nDataBytesPerChunk cfg < 2 ^ Z.of_nat 32).
  { change (2 ^ Z.of_nat 32) with (2 ^ 31 * 2). lia. }
  destruct (ShiftDiv_loop_spec 32 (nDataBytesPerChunk cfg) 0 Hr) as (k & Hk & Hs & m & Hm).
  assert (Hsd : ShiftDiv (nDataBytesPerChunk cfg) = k).
  { unfold ShiftDiv, ztrue. rewrite (proj2 (Z.eqb_neq _ 0)) by lia. cbv beta iota delta [negb]. rewrite Hs. lia. }
  rewrite Hsd, Z.shiftl_1_l. assert (Hp : 0 < 2 ^ k) by (apply Z.pow_pos_nonneg; lia).
  assert (Hm0 : 0 <= m) by nia.
  assert (Hk31 : k < 31).
  { destruct (decide (k < 31)); [done|]. assert (k = 31) as -> by lia.
    change (2 ^ 31) with 2147483648 in *. nia. }
  assert (Hp31 : 2 ^ k < 2 ^ 31) by (apply Z.pow_lt_mono_r; lia).
  assert (Hmask : u32 (2 ^ k - 1) = 2 ^ k - 1).
  { apply wrap_small. change (2 ^ 32) with (2 ^ 31 * 2). lia. }
  rewrite Hmask. replace (2 ^ k - 1 + 1) with (2 ^ k) by lia.
  replace (u32 (2 ^ k)) with (2 ^ k)
    by (symmetry; apply wrap_small; change (2 ^ 32) with (2 ^ 31 * 2); lia).
  destruct (Z.eqb_spec (nDataBytesPerChunk cfg) (2 ^ k)) as [He|Hne].
  - right. simp_fields. split; [|done]. split; [|lia].
    destruct (decide (9 <= k)); [done|]. exfalso.
    assert (2 ^ k <= 2 ^ 8) by (apply Z.pow_le_mono_r; lia). change (2 ^ 8) with 256 in *. lia.
  - left. simp_fields. change (ShiftDiv 16) with 4. change (Z.shiftl 1 4) with 16.
    rewrite Z.quot_div_nonneg by lia. done.
Qed.

Lemma AddrToChunk_spec cfg addr :
  512 <= nDataBytesPerChunk cfg < 2 ^ 31 -> 0 <= addr < 2 ^ 36 ->
  let cfg' := chunk_geometry cfg in
  exists chunk offset, yaffs_AddrToChunk cfg' addr = Some (chunk, offset) /\
    chunk * chunk_unit cfg' + offset = addr /\ 0 <= offset < chunk_unit cfg' /\ 0 <= chunk.
Proof.
  intros Hn Ha. cbv zeta. unfold yaffs_AddrToChunk, chunk_unit, ztrue.
  destruct (chunk_geometry_spec cfg Hn) as [(-> & -> & -> & ->)|(Hk & Hn2 & ->)].
  - assert (Hc : 32 <= nDataBytesPerChunk cfg / 16 < 2 ^ 27).
    { split; [apply Z.div_le_lower_bound; lia|]. apply Z.div_lt_upper_bound; [lia|].
      change (16 * 2 ^ 27) with (2 ^ 31). lia. }
    set (c := nDataBytesPerChunk cfg / 16) in *.
    rewrite (proj2 (Z.eqb_neq c 0)) by lia. simpl negb. cbv iota.
    change 15 with (Z.ones 4). rewrite Z.land_ones, Z.shiftr_div_pow2 by done.
    change (2 ^ 4) with 16.
    pose proof (Z.div_mod addr 16 ltac:(lia)) as Hdm. pose proof (Z.mod_pos_bound addr 16 ltac:(lia)) as Hmb.
    assert (Hq : 0 <= addr / 16 < 2 ^ 32).
    { split; [apply Z.div_pos; lia|]. apply Z.div_lt_upper_bound; [lia|]. change (16 * 2 ^ 32) with (2 ^ 36). lia. }
    rewrite (wrap_small 32 (addr / 16)) by done.
    rewrite (wrap_small 32 (addr mod 16)) by (change (2 ^ 32) with 4294967296; lia).
    pose proof (Z.div_mod (addr / 16) c ltac:(lia)) as Hdm2.
    pose proof (Z.mod_pos_bound (addr / 16) c ltac:(lia)) as Hmb2.
    assert (Hd0 : 0 <= addr / 16 / c) by (apply Z.div_pos; lia).
    rewrite (wrap_small 32 (addr / 16 / c * c)) by nia.
    rewrite Z.shiftl_mul_pow2 by done. change (2 ^ 4) with 16.
    set (d := addr / 16 / c) in *. eexists d, _. split; [done|].
    rewrite wrap_small.
    + split; [nia|]. split; [nia|done].
    + change (2 ^ 32) with (2 ^ 27 * 32). split; [nia|]. nia.
  - rewrite (proj2 (Z.eqb_neq _ 0)) by lia. simpl negb. cbv iota.
    set (k := chunkShift (chunk_geometry cfg)) in *.
    rewrite Z.shiftr_div_pow2 by lia.
    replace (2 ^ k - 1) with (Z.ones k) by (rewrite Z.ones_equiv; lia).
    rewrite Z.land_ones by lia.
    assert (Hp : 2 ^ 9 <= 2 ^ k < 2 ^ 31) by (split; [apply Z.pow_le_mono_r; lia|apply Z.pow_lt_mono_r; lia]).
    change (2 ^ 9) with 512 in Hp.
    pose proof (Z.div_mod addr (2 ^ k) ltac:(lia)) as Hdm. pose proof (Z.mod_pos_bound addr (2 ^ k) ltac:(lia)).
    assert (Hq : 0 <= addr / 2 ^ k < 2 ^ 32).
    { split; [apply Z.div_pos; lia|]. apply Z.div_lt_upper_bound; [lia|].
      change (2 ^ 36) with (2 ^ 32 * 16) in Ha. nia. }
    eexists _, _. split; [done|]. rewrite !wrap_small by (done || (change (2 ^ 32) with (2 ^ 31 * 2); lia)).
    split; [lia|]. split; [lia|lia].
Qed.

(** ** Tnodes *)

Lemma tnode_geometry_spec cfg :
  let x := nChunksPerBlock cfg * (internalEndBlock cfg + 1) in
  1 <= x <= 2 ^ 30 ->
  let cfg' := tnode_geometry cfg in
  tn_cfg_ok cfg' /\ tnodeWidth cfg' + chunkGroupBits cfg' <= 32 /\
  x <= 2 ^ (tnodeWidth cfg' + chunkGroupBits cfg') /\ chunkGroupSize cfg' = 2 ^ chunkGroupBits cfg'.
Proof.
  intros x Hx. cbv zeta. unfold tnode_geometry. fold x.
  assert (H30 : 2 ^ 30 = 1073741824) by done.
  rewrite (wrap_small 32 x) by (change (2 ^ 32) with 4294967296; lia).
  destruct (ShiftsGE_spec x) as (Hb & Hge & Hlt); [change (2 ^ 32) with 4294967296; lia|].
  set (bits := ShiftsGE x) in *.
  assert (Hb30 : bits <= 30).
  { destruct (decide (bits <= 30)); [done|]. exfalso.
    assert (2 ^ 30 <= 2 ^ (bits - 1)) by (apply Z.pow_le_mono_r; lia).
    destruct (decide (1 < x)); [specialize (Hlt l); lia|]. assert (x = 1) by lia.
    assert (bits = 0); [|lia]. unfold bits. by replace x with 1. }
  rewrite hasbits_1.
  set (bits' := if negb (wideTnodesDisabled cfg) then if Z.odd bits then bits + 1 else bits else bits).
  set (w := if negb (wideTnodesDisabled cfg) then if bits' <? 16 then 16 else bits' else 16).
  assert (Hw : 16 <= w <= 30 /\ Z.Even w /\ bits <= bits' <= 30 /\ (wideTnodesDisabled cfg = false -> bits' <= w) /\
    (wideTnodesDisabled cfg = true -> w = 16)).
  { unfold w, bits'. destruct (wideTnodesDisabled cfg); simpl.
    - split; [lia|]. split; [by exists 8|]. split; [lia|]. done.
    - destruct (Z.odd bits) eqn:Ho.
      + apply Z.odd_spec in Ho as [k Hk]. destruct (Z.ltb_spec (bits + 1) 16).
        * split; [lia|]. split; [by exists 8|]. split; [lia|]. split; [lia|done].
        * split; [lia|]. split; [exists (k + 1); lia|]. split; [lia|]. split; [lia|done].
      + assert (He : Z.Even bits) by (apply Z.even_spec; rewrite <- Z.negb_odd, Ho; done).
        destruct (Z.ltb_spec bits 16).
        * split; [lia|]. split; [by exists 8|]. split; [lia|]. split; [lia|done].
        * split; [lia|]. split; [done|]. split; [lia|]. split; [lia|done]. }
  destruct Hw as (Hw & Hev & Hbb & Hwide & Hnarrow).
  set (gb := if bits' <=? w then 0 else u16 (bits' - w)).
  assert (Hgb : 0 <= gb <= 14 /\ bits' <= w + gb /\ w + gb <= 32).
  { unfold gb. destruct (Z.leb_spec bits' w); [lia|].
    rewrite wrap_small by (change (2 ^ 16) with 65536; lia).
    destruct (wideTnodesDisabled cfg); [rewrite Hnarrow in * by done; lia|].
    specialize (Hwide eq_refl). lia. }
  clearbody gb w. simp_fields.
  assert (Hgs : u16 (Z.shiftl 1 gb) = 2 ^ gb).
  { rewrite Z.shiftl_1_l. apply wrap_small. split; [lia|]. apply Z.pow_lt_mono_r; lia. }
  split; [|split; [lia|split; [|done]]].
  - split; simp_fields; [lia|done| |lia]. rewrite Z.shiftl_1_l, Z.ones_equiv. apply wrap_small.
    assert (2 ^ w < 2 ^ 32) by (apply Z.pow_lt_mono_r; lia). assert (0 < 2 ^ w) by lia. lia.
  - transitivity (2 ^ bits); [done|]. apply Z.pow_le_mono_r; lia.
Qed.

(** ** Properties *)

(** What the parameters of a mounted device must be for the numbers to fit an [int] and the
    counters of a block (signed fields of 10 bits) to hold its chunks: the code does not
    check this. *)
Record params_ok (cfg : Config) : Prop := {
  p_start : 0 <= startBlock cfg;
  p_chunks : nChunksPerBlock cfg < 512;
  p_total : nChunksPerBlock cfg * (endBlock cfg + 2) <= 2 ^ 30;
  p_data : nDataBytesPerChunk cfg < 2 ^ 31
}.

(** The internal block numbers are those of the parameters, shifted by [blockOffset]. *)
Lemma internal_blocks_spec cfg : 0 <= startBlock cfg ->
  let cfg' := internal_blocks cfg in
  1 <= internalStartBlock cfg' /\
  internalStartBlock cfg' - blockOffset cfg' = startBlock cfg /\
  internalEndBlock cfg' - blockOffset cfg' = endBlock cfg /\
  0 <= blockOffset cfg' <= 1 /\ chunkOffset cfg' = blockOffset cfg' * nChunksPerBlock cfg /\
  nChunksPerBlock cfg' = nChunksPerBlock cfg /\ nDataBytesPerChunk cfg' = nDataBytesPerChunk cfg /\
  nReservedBlocks cfg' = nReservedBlocks cfg /\ isYaffs2 cfg' = isYaffs2 cfg.
Proof.
  intros H. cbv zeta. unfold internal_blocks.
  destruct (Z.eqb_spec (startBlock cfg) 0) as [H0|H0]; destruct cfg; cbn in *; repeat split; lia.
Qed.

Lemma geometry_ok cfg : geometry_problems cfg = false ->
  512 <= nDataBytesPerChunk cfg /\ 2 <= nChunksPerBlock cfg /\ 2 <= nReservedBlocks cfg /\
  internalStartBlock cfg + nReservedBlocks cfg + 2 < internalEndBlock cfg.
Proof.
  unfold geometry_problems. rewrite !orb_false_iff, !andb_false_iff.
  intros ((((((Hy2 & Hy1) & Hc) & Hr) & _) & _) & He).
  apply Z.ltb_ge in Hc, Hr. apply Z.leb_gt in He. split; [|lia].
  destruct (isYaffs2 cfg); simpl in *.
  - destruct Hy2 as [?|Hy2%Z.ltb_ge]; [done|lia].
  - destruct Hy1 as [?|Hy1%negb_false_iff%Z.eqb_eq]; [done|lia].
Qed.

(** The fields that the later steps leave alone. *)
Definition same_blocks (cfg cfg' : Config) : Prop :=
  nChunksPerBlock cfg' = nChunksPerBlock cfg /\ nDataBytesPerChunk cfg' = nDataBytesPerChunk cfg /\
  internalStartBlock cfg' = internalStartBlock cfg /\ internalEndBlock cfg' = internalEndBlock cfg /\
  blockOffset cfg' = blockOffset cfg.

Lemma chunk_geometry_same cfg : same_blocks cfg (chunk_geometry cfg).
Proof. unfold chunk_geometry. by destruct (_ =? _); repeat split. Qed.
Lemma tnode_geometry_same cfg : same_blocks cfg (tnode_geometry cfg).
Proof. by repeat split. Qed.
Lemma tnode_geometry_chunks cfg :
  chunk_unit (tnode_geometry cfg) = chunk_unit cfg /\
  forall a, yaffs_AddrToChunk (tnode_geometry cfg) a = yaffs_AddrToChunk cfg a.
Proof. done. Qed.

Lemma finish_spec c :
  same_blocks c (finish c) /\ tnodeWidth (finish c) = tnodeWidth c /\
  tnodeMask (finish c) = tnodeMask c /\ chunkGroupBits (finish c) = chunkGroupBits c /\
  chunkGroupSize (finish c) = chunkGroupSize c /\
  chunkBitmapStride (finish c) = Z.quot (nChunksPerBlock c + 7) 8 /\
  chunk_unit (finish c) = chunk_unit c /\
  forall a, yaffs_AddrToChunk (finish c) a = yaffs_AddrToChunk c a.
Proof. unfold finish. by destruct (isYaffs2 c). Qed.


(** What the operations rely on, about a mounted device with the parameters [cfg]. *)
Record mounted_ok (cfg c : Config) : Prop := {
  mo_cfg : cfg_ok c;
  mo_tnodes : tn_cfg_ok c;
  mo_start : internalStartBlock c - blockOffset c = startBlock cfg;
  mo_end : internalEndBlock c - blockOffset c = endBlock cfg;
  mo_room : nReservedBlocks cfg + 3 < nBlocks c;
  mo_fits : tnodeWidth c + chunkGroupBits c <= 32;
  mo_entry : forall chunk, 0 <= chunk < nChunksPerBlock c * (internalEndBlock c + 1) ->
    chunk < 2 ^ (tnodeWidth c + chunkGroupBits c);
  mo_group : chunkGroupSize c = 2 ^ chunkGroupBits c /\ chunkGroupSize c <= nChunksPerBlock c;
  mo_addr : forall addr, 0 <= addr < 2 ^ 36 -> exists chunk offset,
    yaffs_AddrToChunk c addr = Some (chunk, offset) /\
    chunk * chunk_unit c + offset = addr /\ 0 <= offset < chunk_unit c
}.

Lemma finish_ok cfg :
  params_ok cfg -> geometry_problems (internal_blocks cfg) = false ->
  let c := tnode_geometry (chunk_geometry (internal_blocks cfg)) in
  chunkGroupSize c <= nChunksPerBlock c -> mounted_ok cfg (finish c).
Proof.
  intros [Hps Hpc Hpt Hpd] Hg. apply geometry_ok in Hg as (Hd & Hn & Hr & He).
  destruct (internal_blocks_spec cfg Hps) as (His & Hios & Hioe & Hbo & _ & Hnc & Hnd & Hnr & _).
  set (cfg0 := internal_blocks cfg) in *. clearbody cfg0.
  destruct (chunk_geometry_same cfg0) as (Hc1 & Hc2 & Hc3 & Hc4 & Hc5).
  pose proof (AddrToChunk_spec cfg0) as Haddr. cbv zeta in Haddr |- *.
  set (cfg1 := chunk_geometry cfg0) in *. clearbody cfg1.
  destruct (tnode_geometry_same cfg1) as (Ht1 & Ht2 & Ht3 & Ht4 & Ht5).
  destruct (tnode_geometry_chunks cfg1) as [Htu Hta].
  pose proof (tnode_geometry_spec cfg1) as Htn. cbv zeta in Htn.
  set (cfg2 := tnode_geometry cfg1) in *. clearbody cfg2.
  destruct (finish_spec cfg2) as ((Hf1 & Hf2 & Hf3 & Hf4 & Hf5) & Hfw & Hfm & Hfg & Hfs & Hfb & Hfu & Hfa).
  set (c := finish cfg2) in *. clearbody c. intros Hgroup.
  destruct Htn as ([Hw Hev Hm Hgb] & Hfit & Hx & Hgs); [rewrite Hc1, Hc4, Hnc; nia|].
  split; rewrite ?Hf1, ?Hf2, ?Hf3, ?Hf4, ?Hf5, ?Hfw, ?Hfm, ?Hfg, ?Hfs.
  - split; rewrite ?Hf1, ?Hf2, ?Hf3, ?Hf4; [lia|lia|lia| |change (2 ^ 31) with (2 * 2 ^ 30); nia|lia].
    rewrite Hfb, Z.quot_div_nonneg by lia. done.
  - split; congruence.
  - lia.
  - lia.
  - unfold nBlocks. lia.
  - done.
  - intros chunk Hchunk. rewrite Ht1, Ht4 in Hchunk. lia.
  - done.
  - intros addr Ha. rewrite Hfu, Htu, Hfa, Hta.
    destruct (Haddr addr) as (chunk & off & ? & ? & ? & _); [lia|lia|]. eauto.
Qed.

(** C29. Mounting computes a geometry the whole file system can rely on.  Whatever passes the
    checks of [yaffs_GutsInitialise] (for blocks of fewer than 512 chunks and fewer than
    2^30 chunks in all, which the code does not check) satisfies the assumptions of the
    other theorems: internal blocks start at 1 and map back to the physical ones, every
    chunk number fits a tnode entry, no group is larger than a block, and file addresses
    split into chunk and offset without loss.  With wide tnodes nothing is rejected but
    bad geometry, a driver that fails or lacks functions, and a device mounted already. *)
Theorem GutsInitialise_geometry {N} `{nd : !NandDriver N} cfg f m (s : State N) :
  params_ok cfg ->
  wp (guts_geometry cfg f m) (fun '(m', r) s' =>
    (forall c, r = Some c -> m = false /\ m' = true /\ yaffs_CheckDevFunctions cfg f = true /\
      mounted_ok cfg c) /\
    (m = false -> geometry_problems (internal_blocks cfg) = false ->
      fst (drv_initialise (nand s)) = YAFFS_OK -> yaffs_CheckDevFunctions cfg f = true ->
      wideTnodesDisabled cfg = false -> is_Some r)) s.
Proof.
  intros Hp. unfold guts_geometry, modB, modS.
  assert (Hfun : yaffs_CheckDevFunctions (internal_blocks cfg) f = yaffs_CheckDevFunctions cfg f).
  { unfold internal_blocks. by destruct (_ =? _). }
  assert (Hwide : wideTnodesDisabled cfg = false ->
    chunkGroupSize (tnode_geometry (chunk_geometry (internal_blocks cfg))) = 1).
  { intros Hw. assert (Hw' : wideTnodesDisabled (chunk_geometry (internal_blocks cfg)) = false).
    { unfold chunk_geometry, internal_blocks. by destruct (startBlock cfg =? 0), (_ =? _). }
    set (c := chunk_geometry _) in *. clearbody c. unfold tnode_geometry. simp_fields.
    rewrite Hw'. simpl negb. cbv iota. set (b := if hasbits _ 1 then _ else _).
    destruct (Z.ltb_spec b 16); [by rewrite (proj2 (Z.leb_le b 16)) by lia|].
    by rewrite Z.leb_refl. }
  rewrite Hfun. wp_steps.
  destruct (geometry_problems (internal_blocks cfg)) eqn:Hg.
  { apply wp_ret. split; [done|]. by intros _ ?. }
  apply wp_bind, wp_on_nand. simp_fields.
  destruct (Z.eqb_spec (fst (drv_initialise (nand s))) YAFFS_OK) as [Hi|Hi]; simpl negb; cbv iota.
  2: { apply wp_ret. split; [done|]. by intros _ _ ?. }
  destruct (yaffs_CheckDevFunctions cfg f) eqn:Hdf; simpl negb; cbv iota.
  2: { apply wp_ret. split; [done|]. by intros _ _ _ ?. }
  destruct m; [by apply wp_ret|].
  pose proof (finish_ok cfg Hp Hg) as Hok. cbv zeta in Hok.
  destruct (geometry_ok _ Hg) as (_ & Hn2 & _).
  assert (Hn : nChunksPerBlock (tnode_geometry (chunk_geometry (internal_blocks cfg))) =
    nChunksPerBlock (internal_blocks cfg)).
  { destruct (tnode_geometry_same (chunk_geometry (internal_blocks cfg))) as [-> _].
    by destruct (chunk_geometry_same (internal_blocks cfg)) as [-> _]. }
  set (c := tnode_geometry _) in *. clearbody c. apply wp_if.
  destruct (Z.ltb_spec (nChunksPerBlock c) (chunkGroupSize c)) as [Hlt|Hge].
  - apply wp_ret. split; [done|]. intros _ _ _ _ Hw. rewrite Hwide in Hlt by done. lia.
  - wp_steps. split; [|by eexists]. intros c' [= <-]. split; [done|]. split; [done|].
    split; [done|]. by apply Hok.
Qed.

(** A device of 512 blocks of 64 pages of 2 KB, starting at block 0. *)
Definition mount_params : Config :=
  sample_cfg <| nDataBytesPerChunk := 2048 |> <| nChunksPerBlock := 64 |> <| startBlock := 0 |>
    <| endBlock := 511 |> <| nReservedBlocks := 5 |>.
Definition tag_functions : DevFunctions := MkDevFunctions true true true true false false true true.

Lemma mount_params_ok : params_ok mount_params.
Proof. by constructor; vm_compute. Qed.

Lemma GutsInitialise_geometry_witness :
  params_ok mount_params /\
  wp (guts_geometry (nd := sim_driver) mount_params tag_functions false) (fun '(m, r) _ =>
    exists c, r = Some c /\ mounted_ok mount_params c) sample_state.
Proof.
  split; [apply mount_params_ok|].
  eapply wp_mono; [apply (GutsInitialise_geometry (nd := sim_driver) mount_params tag_functions false
    sample_state mount_params_ok)|].
  intros [m r] s' [H1 H2].
  destruct (H2 eq_refl eq_refl eq_refl eq_refl eq_refl) as [c ->].
  exists c. split; [reflexivity|]. by destruct (H1 c eq_refl) as (_ & _ & _ & H).
Defined.
