(* ===== verification/Gc.v ===== *)
(** * Choosing a block to collect ([yaffs_guts.c])

    Garbage collection first picks a block: a prioritised one if there is one, else the
    full block with the fewest live pages among those the search looks at, never a
    block that is disqualified because it holds a shrink header and an older block still
    has discarded pages. *)
From S2P Require Import Prelude Monad Tags Device Nand Sim BlockInv Blocks.

Definition YAFFS_PASSIVE_GC_CHUNKS : Z := 2.

Section select.
Context {N : Type} (cfg : Config).
Local Abbreviation St := (State N).

(** The pages of a block that hold live data. *)
Definition live (bi : BlockInfo) : Z := pagesInUse bi - softDeletions bi.

(** "Find the oldest dirty sequence number if we don't know it" *)
Definition find_oldest_dirty : M St Z :=
  seq ← getB dev_sequenceNumber;
  for_acc (seqZ (internalStartBlock cfg) (nBlocks cfg)) (fun i seq =>
    b ← yaffs_GetBlockInfo cfg i;
    mret (if is_state (blockState b) BLOCK_STATE_FULL && (live b <? nChunksPerBlock cfg) &&
             (bi_sequenceNumber b <? seq) then bi_sequenceNumber b else seq)) seq.

Definition yaffs_BlockNotDisqualifiedFromGC (bi : BlockInfo) : M St bool :=
  if negb (isYaffs2 cfg) then mret true else
  if negb (hasShrinkHeader bi) then mret true else
  oldest ← getB oldestDirtySequence;
  _ ← when (negb (ztrue oldest)) (
    seq ← find_oldest_dirty;
    modB (fun b => b <| oldestDirtySequence := seq |>));
  oldest ← getB oldestDirtySequence;
  mret (bi_sequenceNumber bi <=? oldest).

(** "First let's see if we need to grab a prioritised block": leaves with the block. *)
Definition find_prioritised : M St (option (Z * Z)) :=
  pending ← getB hasPendingPrioritisedGCs;
  if negb pending then mret None else
  r ← for_acc (seqZ (internalStartBlock cfg) (internalEndBlock cfg - internalStartBlock cfg))
    (fun i (acc : bool * option (Z * Z)) =>
      let '(pend, found) := acc in
      match found with
      | Some _ => mret acc
      | None =>
          bi ← yaffs_GetBlockInfo cfg i;
          if gcPrioritise bi then
            ok ← (if is_state (blockState bi) BLOCK_STATE_FULL
                  then yaffs_BlockNotDisqualifiedFromGC bi else mret false);
            mret (true, if (ok : bool) then Some (i, live bi) else None)
          else mret acc
      end) (false, @None (Z * Z));
  _ ← when (negb (fst r)) (modB (fun b => b <| hasPendingPrioritisedGCs := false |>));
  mret (snd r).

(** One step of the search from block [b]: the next block, and it if it is better. *)
Definition search_step (acc : Z * Z * Z) : M St (Z * Z * Z) :=
  let '(b, dirtiest, pages) := acc in
  if 0 <? pages then
    let b := b + 1 in
    let b := if (b <? internalStartBlock cfg) || (internalEndBlock cfg <? b)
             then internalStartBlock cfg else b in
    bi ← yaffs_GetBlockInfo cfg b;
    ok ← (if is_state (blockState bi) BLOCK_STATE_FULL && (live bi <? pages)
          then yaffs_BlockNotDisqualifiedFromGC bi else mret false);
    mret (if (ok : bool) then (b, b, live bi) else (b, dirtiest, pages))
  else mret acc.

Definition yaffs_FindBlockForGarbageCollection (aggressive : bool) : M St Z :=
  b ← getB currentDirtyChecker;
  prioritised ← find_prioritised;
  let aggressive := match prioritised with Some _ => true | None => aggressive end in
  _ ← modB (fun b => b <| nonAggressiveSkip ::= Z.pred |>);
  skip ← getB nonAggressiveSkip;
  if negb aggressive && (0 <? skip) then mret (-1) else
  let n := internalEndBlock cfg - internalStartBlock cfg + 1 in
  let iterations := if aggressive then n else let i := Z.quot n 16 in if 200 <? i then 200 else i in
  r ← (match prioritised with
       | Some (i, pages) => mret (b, i, pages)
       | None =>
           let pages := if aggressive then nChunksPerBlock cfg else YAFFS_PASSIVE_GC_CHUNKS + 1 in
           for_acc (seqZ 0 (iterations + 1)) (fun _ acc => search_step acc) (b, -1, pages)
       end);
  let '(b, dirtiest, _) := r in
  _ ← modB (fun blks => blks <| currentDirtyChecker := b |>);
  _ ← modB (fun b => b <| oldestDirtySequence := 0 |>);
  _ ← when (0 <? dirtiest) (modB (fun b => b <| nonAggressiveSkip := 4 |>));
  mret dirtiest.
End select.

(** ** What the search computes *)

Section spec.
Context {N : Type} (cfg : Config) (Hcfg : cfg_ok cfg).
Implicit Types (s : State N).
Let n := nChunksPerBlock cfg.

Definition is_full (bi : BlockInfo) : bool := is_state (blockState bi) BLOCK_STATE_FULL.

(** A full block with discarded pages. *)
Definition is_dirty (bi : BlockInfo) : bool := is_full bi && (live bi <? n).
Definition older (seq : Z) (bi : BlockInfo) : Z :=
  if is_dirty bi && (bi_sequenceNumber bi <? seq) then bi_sequenceNumber bi else seq.
Definition oldest_dirty (b : Blocks) : Z := foldl older (dev_sequenceNumber b) (blockInfo b).

Definition qualified (b : Blocks) (bi : BlockInfo) : bool :=
  negb (isYaffs2 cfg) || negb (hasShrinkHeader bi) || (bi_sequenceNumber bi <=? oldest_dirty b).

(** A block the collector may take. *)
Definition collectable (b : Blocks) (bi : BlockInfo) : bool := is_full bi && qualified b bi.

Lemma older_le seq bi : older seq bi <= seq.
Proof. unfold older. destruct (is_dirty bi); simpl; [|lia]. destruct (Z.ltb_spec (bi_sequenceNumber bi) seq); lia. Qed.

Lemma foldl_older_le l seq : foldl older seq l <= seq.
Proof.
  revert seq. induction l as [|bi l IH]; intros seq; simpl; [lia|].
  pose proof (IH (older seq bi)). pose proof (older_le seq bi). lia.
Qed.

Lemma oldest_dirty_le b i bi :
  blockInfo b !! i = Some bi -> is_dirty bi = true -> oldest_dirty b <= bi_sequenceNumber bi.
Proof.
  unfold oldest_dirty. generalize (dev_sequenceNumber b). generalize (blockInfo b).
  intros l. revert i. induction l as [|x l IH]; intros [|i] seq Hi Hd; simplify_eq/=.
  - pose proof (foldl_older_le l (older seq bi)). unfold older in *. rewrite Hd in *. simpl in *.
    destruct (Z.ltb_spec (bi_sequenceNumber bi) seq); lia.
  - by eapply IH.
Qed.

(** The state during the search: only the cached sequence number and the flag of pending
    prioritised blocks move. *)
Definition cached (s : State N) (o : Z) (p : bool) : State N :=
  s <| blks ::= fun b => b <| oldestDirtySequence := o |> <| hasPendingPrioritisedGCs := p |> |>.
Definition searching (s s' : State N) : Prop := exists o p,
  s' = cached s o p /\ (o = 0 \/ o = oldest_dirty (blks s)).

Lemma searching_start s : oldestDirtySequence (blks s) = 0 -> searching s s.
Proof.
  intros H. exists 0, (hasPendingPrioritisedGCs (blks s)). split; [|by left].
  destruct s as [[] ? ? ?]. simpl in H. by subst.
Qed.

Lemma searching_infos s s' : searching s s' -> blockInfo (blks s') = blockInfo (blks s).
Proof. by intros (o & p & -> & _). Qed.

Lemma wp_search_block s s' blk bi (Q : BlockInfo -> State N -> Prop) :
  searching s s' -> valid_block cfg blk -> blockInfo (blks s) !! index cfg blk = Some bi ->
  Q bi s' -> wp (yaffs_GetBlockInfo cfg blk) Q s'.
Proof.
  intros Hs Hv Hb HQ. apply wp_GetBlockInfo with bi; [apply Hv| |done].
  by rewrite (searching_infos s).
Qed.

Lemma seqZ_block d x r :
  seqZ (internalStartBlock cfg) (nBlocks cfg) = d ++ x :: r ->
  valid_block cfg x /\ index cfg x = length d.
Proof.
  intros H. assert (Hx : seqZ (internalStartBlock cfg) (nBlocks cfg) !! length d = Some x).
  { by rewrite H, lookup_app_r, Nat.sub_diag by lia. }
  apply lookup_seqZ in Hx as [-> ?]. unfold valid_block, index, nBlocks in *. lia.
Qed.

Lemma find_oldest_dirty_spec s s' :
  tables_ok cfg (blks s) -> searching s s' ->
  wp (find_oldest_dirty cfg) (fun seq s'' => seq = oldest_dirty (blks s) /\ s'' = s') s'.
Proof.
  intros Ht Hs. unfold find_oldest_dirty, getB. wp_steps.
  eapply wp_mono; [apply (wp_for_acc (fun d acc s'' => s'' = s' /\
    acc = foldl older (dev_sequenceNumber (blks s)) (take (length d) (blockInfo (blks s)))))|].
  - split; [done|]. by destruct Hs as (o & p & -> & _).
  - intros d x r acc s'' Hseq [-> ->]. apply seqZ_block in Hseq as [Hv Hi].
    destruct (block_info_lookup cfg (blks s) x Ht Hv) as [bi Hb].
    apply wp_bind, (wp_search_block s s' x bi); [done|done|done|]. apply wp_ret.
    split; [done|]. rewrite length_app. simpl length. rewrite Nat.add_1_r.
    rewrite Hi in Hb. rewrite (take_S_r _ _ _ Hb), foldl_app. done.
  - intros acc s'' [-> ->]. split; [|done]. unfold oldest_dirty. rewrite take_ge; [done|].
    rewrite length_seqZ. pose proof (t_infos _ _ Ht). lia.
Qed.

Lemma NotDisqualified_spec s s' bi :
  tables_ok cfg (blks s) -> searching s s' ->
  wp (yaffs_BlockNotDisqualifiedFromGC cfg bi) (fun ok s'' =>
    ok = qualified (blks s) bi /\ searching s s'') s'.
Proof.
  intros Ht Hs. unfold yaffs_BlockNotDisqualifiedFromGC, qualified.
  destruct (isYaffs2 cfg); simpl; [|by apply wp_ret].
  destruct (hasShrinkHeader bi); simpl; [|by apply wp_ret].
  pose proof (find_oldest_dirty_spec s s' Ht Hs) as Hf.
  destruct Hs as (o & p & -> & Ho). unfold getB. wp_steps.
  change (oldestDirtySequence (blks (cached s o p))) with o. unfold ztrue.
  destruct (Z.eqb_spec o 0) as [H0|H0]; simpl.
  - eapply wp_seq; [exact Hf|]. intros seq s'' [-> ->]. unfold modB. wp_steps.
    split; [done|]. exists (oldest_dirty (blks s)), p. split; [by destruct s as [[]]|by right].
  - wp_steps. destruct Ho as [Ho| ->]; [done|]. split; [done|].
    exists (oldest_dirty (blks s)), p. split; [done|by right].
Qed.

(** The prioritised block, if the scan finds one. *)
Definition found_prioritised (s : State N) (r : option (Z * Z)) : Prop :=
  match r with
  | None => True
  | Some (i, pages) => exists bi, valid_block cfg i /\
      blockInfo (blks s) !! index cfg i = Some bi /\
      gcPrioritise bi = true /\ collectable (blks s) bi = true /\ pages = live bi
  end.

Lemma find_prioritised_spec s s' :
  tables_ok cfg (blks s) -> searching s s' ->
  wp (find_prioritised cfg) (fun r s'' => found_prioritised s r /\ searching s s'') s'.
Proof.
  intros Ht Hs. unfold find_prioritised, getB. wp_steps.
  destruct (negb _); [by apply wp_ret|].
  eapply wp_seq; [apply (wp_for_acc (fun d acc s'' =>
    found_prioritised s (snd acc) /\ searching s s''))|].
  - done.
  - intros d x r [pend found] s'' Hseq [Hf Hs'']. simpl in Hf.
    assert (Hv : valid_block cfg x).
    { assert (Hx : x ∈ seqZ (internalStartBlock cfg) (internalEndBlock cfg - internalStartBlock cfg)).
      { rewrite Hseq. apply elem_of_app. right. by left. }
      apply elem_of_seqZ in Hx. unfold valid_block. lia. }
    destruct found as [f|]; [by apply wp_ret|].
    destruct (block_info_lookup cfg (blks s) x Ht Hv) as [bi Hb].
    apply wp_bind, (wp_search_block s s'' x bi); [done|done|done|].
    apply wp_if. destruct (gcPrioritise bi) eqn:Hp; [|by apply wp_ret].
    eapply (wp_seq _ _ (fun ok s3 => (ok = true -> collectable (blks s) bi = true) /\ searching s s3)).
    + apply wp_if. unfold collectable, is_full. destruct (is_state _ _); [|by apply wp_ret].
      eapply wp_mono; [by apply (NotDisqualified_spec s)|]. by intros ok s3 [-> H].
    + intros ok s3 [Hok Hs3]. apply wp_ret. split; [|done]. simpl.
      destruct ok; [|done]. exists bi. auto 6.
  - intros [pend found] s'' [Hf Hs'']. unfold modB.
    apply wp_bind, wp_when. simpl fst. destruct (negb pend); [|by apply wp_ret].
    apply wp_modify, wp_ret. split; [done|]. destruct Hs'' as (o & p & -> & Ho).
    exists o, false. split; [by destruct s as [[]]|done].
Qed.

(** ** The search *)

(** How many blocks back, round the device, a block lies. *)
Definition behind (b blk : Z) : Z := (b - blk) mod nBlocks cfg.

Lemma nBlocks_pos : 0 < nBlocks cfg.
Proof. destruct Hcfg. unfold nBlocks. lia. Qed.

Lemma behind_range b blk : 0 <= behind b blk < nBlocks cfg.
Proof. apply Z.mod_pos_bound, nBlocks_pos. Qed.

Definition next_block (b : Z) : Z :=
  if (b + 1 <? internalStartBlock cfg) || (internalEndBlock cfg <? b + 1)
  then internalStartBlock cfg else b + 1.

Lemma next_block_valid b : valid_block cfg (next_block b).
Proof.
  destruct Hcfg. unfold next_block, valid_block.
  destruct (Z.ltb_spec (b + 1) (internalStartBlock cfg)), (Z.ltb_spec (internalEndBlock cfg) (b + 1)); simpl; lia.
Qed.

Lemma behind_0 b blk : valid_block cfg b -> valid_block cfg blk -> behind b blk = 0 -> b = blk.
Proof.
  intros Hb Hblk H. unfold behind in H. pose proof nBlocks_pos.
  apply Z.mod_divide in H as [k Hk]; [|lia].
  unfold valid_block, nBlocks in *. assert (k = 0) by nia. nia.
Qed.

Lemma behind_next b blk :
  valid_block cfg b -> 0 < behind (next_block b) blk ->
  behind b blk = behind (next_block b) blk - 1.
Proof.
  intros Hb Hpos. pose proof nBlocks_pos as Hn. unfold behind in *.
  assert (Hmod : (next_block b - 1 - blk) mod nBlocks cfg = (b - blk) mod nBlocks cfg).
  { unfold next_block. destruct (Z.ltb_spec (b + 1) (internalStartBlock cfg)), (Z.ltb_spec (internalEndBlock cfg) (b + 1));
      simpl; try (unfold valid_block in Hb; lia).
    - replace (b - blk) with (internalStartBlock cfg - 1 - blk + 1 * nBlocks cfg)
        by (unfold valid_block, nBlocks in *; lia). by rewrite Z.mod_add by lia.
    - f_equal. lia. }
  rewrite <- Hmod. set (z := next_block b - blk) in *.
  replace (next_block b - 1 - blk) with (z - 1) by lia.
  pose proof (Z.div_mod z (nBlocks cfg) ltac:(lia)). pose proof (Z.mod_pos_bound z (nBlocks cfg) Hn).
  symmetry. apply Z.mod_unique with (z / nBlocks cfg); lia.
Qed.

(** After [k] steps: the best block seen so far, from blocks with fewer than [limit] pages. *)
Record best (s : State N) (limit : Z) (k : Z) (acc : Z * Z * Z) : Prop := {
  be_valid : 0 < k -> let '(b, _, _) := acc in valid_block cfg b;
  be_found : let '(_, dirtiest, pages) := acc in
    (dirtiest = -1 /\ pages = limit) \/
    exists bi, 0 < k /\ valid_block cfg dirtiest /\ blockInfo (blks s) !! index cfg dirtiest = Some bi /\
      collectable (blks s) bi = true /\ pages = live bi /\ live bi < limit;
  be_least : let '(b, _, pages) := acc in
    forall blk bi, valid_block cfg blk -> blockInfo (blks s) !! index cfg blk = Some bi ->
      collectable (blks s) bi = true -> behind b blk < k -> pages <= live bi
}.

Lemma search_step_spec s s' limit k acc :
  tables_ok cfg (blks s) -> searching s s' ->
  (forall blk bi, valid_block cfg blk -> blockInfo (blks s) !! index cfg blk = Some bi ->
    collectable (blks s) bi = true -> 0 <= live bi) ->
  0 <= k -> best s limit k acc -> (0 < limit) ->
  wp (search_step cfg acc) (fun acc' s'' => best s limit (k + 1) acc' /\ searching s s'') s'.
Proof.
  intros Ht Hs Hlive Hk [Hv Hf Hl] Hlim. destruct acc as [[b dirtiest] pages]. unfold search_step.
  apply wp_if. destruct (Z.ltb_spec 0 pages) as [Hp|Hp].
  - fold (next_block b). pose proof (next_block_valid b) as Hnv.
    destruct (block_info_lookup cfg (blks s) _ Ht Hnv) as [bi Hb].
    apply wp_bind, (wp_search_block s s' _ bi); [done|done|done|].
    eapply (wp_seq _ _ (fun ok s3 => ok = collectable (blks s) bi && (live bi <? pages) /\ searching s s3)).
    + unfold collectable, is_full. apply wp_if. destruct (is_state _ _); simpl; [|by apply wp_ret].
      destruct (Z.ltb_spec (live bi) pages); simpl.
      * rewrite andb_true_r. by apply (NotDisqualified_spec s).
      * rewrite andb_false_r. by apply wp_ret.
    + intros ok s3 [-> Hs3]. apply wp_ret. split; [|done].
      assert (Hothers : forall p', p' <= pages -> (collectable (blks s) bi = true -> p' <= live bi) ->
        forall blk bi', valid_block cfg blk -> blockInfo (blks s) !! index cfg blk = Some bi' ->
        collectable (blks s) bi' = true -> behind (next_block b) blk < k + 1 -> p' <= live bi').
      { intros p' Hle Hnew blk bi' Hblk Hb' Hc Hbe. pose proof (behind_range (next_block b) blk).
        destruct (decide (behind (next_block b) blk = 0)) as [H0|H0].
        - apply behind_0 in H0 as <-; [|done|done]. rewrite Hb in Hb'. simplify_eq. auto.
        - assert (Hk0 : 0 < k) by lia. specialize (Hv Hk0). simpl in Hv.
          specialize (Hl blk bi' Hblk Hb' Hc). rewrite (behind_next b blk) in Hl by (done || lia). lia. }
      destruct (collectable (blks s) bi) eqn:Hc; simpl; [destruct (Z.ltb_spec (live bi) pages)|].
      * split; [done| |apply Hothers; [lia|lia]]. right. exists bi. split; [lia|]. do 4 (split; [done|]).
        destruct Hf as [[_ ->]|(bi' & _ & _ & _ & _ & -> & ?)]; lia.
      * split; [done| |apply Hothers; [lia|lia]].
        destruct Hf as [Hf|(bi' & ? & Hrest)]; [by left|right; exists bi'; split; [lia|done]].
      * split; [done| |apply Hothers; [lia|done]].
        destruct Hf as [Hf|(bi' & ? & Hrest)]; [by left|right; exists bi'; split; [lia|done]].
  - apply wp_ret. split; [|done].
    destruct Hf as [[_ ->]|(bi' & Hk0 & Hd & Hb' & Hc' & -> & Hlt)]; [lia|].
    split; [intros _; by apply Hv|right; exists bi'; split; [lia|done]|].
    intros blk bi Hblk Hb Hc _. pose proof (Hlive blk bi Hblk Hb Hc). lia.
Qed.

Lemma search_spec s s' limit b m :
  tables_ok cfg (blks s) -> searching s s' ->
  (forall blk bi, valid_block cfg blk -> blockInfo (blks s) !! index cfg blk = Some bi ->
    collectable (blks s) bi = true -> 0 <= live bi) ->
  0 < limit -> 0 <= m ->
  wp (for_acc (seqZ 0 m) (fun _ acc => search_step cfg acc) (b, -1, limit)) (fun acc s'' =>
    best s limit m acc /\ searching s s'') s'.
Proof.
  intros Ht Hs Hlive Hlim Hm.
  eapply wp_mono; [apply (wp_for_acc (fun d acc s'' =>
    best s limit (Z.of_nat (length d)) acc /\ searching s s''))|].
  - split; [|done]. split; [simpl; lia|by left|]. intros blk bi _ _ _ Hlt.
    pose proof (behind_range b blk). simpl in Hlt. lia.
  - intros d x r acc s'' _ [Hb Hs'']. rewrite length_app. simpl length.
    replace (Z.of_nat (length d + 1)) with (Z.of_nat (length d) + 1) by lia.
    apply search_step_spec; try done. lia.
  - intros acc s'' [Hb Hs'']. rewrite length_seqZ, Z2Nat.id in Hb by done. done.
Qed.
End spec.

(** ** Properties *)

Section properties.
Context {N : Type} (cfg : Config).
Implicit Types (s : State N).

(** A collectable block in terms of the code's states and sequence numbers. *)
Lemma collectable_full b bi : collectable cfg b bi = true -> blockState bi = BLOCK_STATE_FULL.
Proof.
  unfold collectable, is_full, is_state. intros [H _]%andb_true_iff. by apply bool_decide_eq_true in H.
Qed.

Lemma collectable_oldest b bi i bi' :
  collectable cfg b bi = true -> isYaffs2 cfg = true -> hasShrinkHeader bi = true ->
  blockInfo b !! i = Some bi' -> is_dirty cfg bi' = true ->
  bi_sequenceNumber bi <= bi_sequenceNumber bi'.
Proof.
  unfold collectable, qualified. intros [_ H]%andb_true_iff Hy Hs Hb Hd. rewrite Hy, Hs in H. simpl in H.
  apply Z.leb_le in H. pose proof (oldest_dirty_le cfg b i bi' Hb Hd). lia.
Qed.

(** What is promised of the chosen block [r]. *)
Definition gc_choice s (aggressive : bool) (r : Z) : Prop :=
  (r = -1 \/ exists bi, valid_block cfg r /\ blockInfo (blks s) !! index cfg r = Some bi /\
    blockState bi = BLOCK_STATE_FULL /\
    (isYaffs2 cfg = true -> hasShrinkHeader bi = true ->
      forall i bi', blockInfo (blks s) !! i = Some bi' -> is_dirty cfg bi' = true ->
        bi_sequenceNumber bi <= bi_sequenceNumber bi') /\
    (gcPrioritise bi = true \/
     live bi < (if aggressive then nChunksPerBlock cfg else YAFFS_PASSIVE_GC_CHUNKS + 1) /\
     (aggressive = true -> forall blk bi', valid_block cfg blk ->
       blockInfo (blks s) !! index cfg blk = Some bi' -> collectable cfg (blks s) bi' = true ->
       live bi <= live bi'))) /\
  (aggressive = true -> r = -1 -> forall blk bi', valid_block cfg blk ->
     blockInfo (blks s) !! index cfg blk = Some bi' -> collectable cfg (blks s) bi' = true ->
     nChunksPerBlock cfg <= live bi').

(** The books after a step that only moves search variables. *)
Definition same_books (f : Blocks -> Blocks) : Prop := forall b,
  blockInfo (f b) = blockInfo b /\ chunkBits (f b) = chunkBits b /\
  allocationBlock (f b) = allocationBlock b /\ allocationPage (f b) = allocationPage b /\
  nErasedBlocks (f b) = nErasedBlocks b /\ nFreeChunks (f b) = nFreeChunks b.

Lemma same_books_ok s s' (f : Blocks -> Blocks) :
  blocks_ok cfg 0 0 (blks s) -> searching cfg s s' -> same_books f ->
  blocks_ok cfg 0 0 (f (blks s')) /\ blockInfo (f (blks s')) = blockInfo (blks s).
Proof.
  intros Hok (o & p & -> & _) Hf. destruct (Hf (blks (cached s o p))) as (Hi & Hb & Ha & Hp & He & Hfr).
  split; [|by rewrite Hi]. eapply blocks_ok_counters; [exact Hok|by rewrite Hi|by rewrite Hb|
    by rewrite Ha|by rewrite Hp| |]; rewrite ?He, ?Hfr; simpl; lia.
Qed.

Lemma choice_prioritised s aggressive i pages :
  cfg_ok cfg -> found_prioritised cfg s (Some (i, pages)) -> gc_choice s aggressive i.
Proof.
  intros Hcfg (bi & Hv & Hb & Hp & Hc & ->).
  split; [|destruct Hcfg; unfold valid_block in Hv; intros _ ->; lia]. right. exists bi.
  split; [done|]. split; [done|]. split; [by eapply collectable_full|].
  split; [|by left]. intros Hy Hs i' bi' Hi' Hd. by eapply collectable_oldest.
Qed.

Lemma choice_best s (aggressive : bool) k b d pages :
  cfg_ok cfg -> (aggressive = true -> nBlocks cfg <= k) ->
  best cfg s (if aggressive then nChunksPerBlock cfg else YAFFS_PASSIVE_GC_CHUNKS + 1) k (b, d, pages) ->
  gc_choice s aggressive d.
Proof.
  intros Hcfg Hk [_ Hbf Hbl].
  assert (Hall : aggressive = true -> forall blk bi, valid_block cfg blk ->
    blockInfo (blks s) !! index cfg blk = Some bi -> collectable cfg (blks s) bi = true -> pages <= live bi).
  { intros Hag blk bi Hv Hb Hc. apply (Hbl blk bi Hv); [done|done|].
    pose proof (behind_range cfg Hcfg b blk). specialize (Hk Hag). lia. }
  destruct Hbf as [[-> ->]|(bi & _ & Hv & Hb & Hc & -> & Hlt)].
  - split; [by left|]. intros Hag _ blk bi Hv Hb Hc. specialize (Hall Hag blk bi Hv Hb Hc).
    by rewrite Hag in Hall.
  - split; [|destruct Hcfg; unfold valid_block in Hv; intros _ ->; lia].
    right. exists bi. split; [done|]. split; [done|]. split; [by eapply collectable_full|].
    split; [intros Hy Hs i' bi' Hi' Hd; by eapply collectable_oldest|].
    right. split; [exact Hlt|]. intros Hag blk bi' Hv' Hb' Hc'. by apply (Hall Hag blk).
Qed.

(** The counter of passive calls to skip is no part of the books. *)
Definition less_skip s : State N := s <| blks ::= fun b => b <| nonAggressiveSkip ::= Z.pred |> |>.

Lemma less_skip_ok s s' :
  blocks_ok cfg 0 0 (blks s) -> searching cfg s s' ->
  blocks_ok cfg 0 0 (blks (less_skip s)) /\ searching cfg (less_skip s) (less_skip s') /\
  (forall aggressive r, gc_choice (less_skip s) aggressive r -> gc_choice s aggressive r).
Proof.
  intros Hok (o & p & -> & Ho). split; [|split].
  - eapply blocks_ok_counters; [exact Hok|done..|simpl; lia|simpl; lia].
  - exists o, p. split; [by destruct s as [[]]|done].
  - intros aggressive r H. destruct s as [[] ? ? ?]. exact H.
Qed.

Lemma live_nonneg s blk bi :
  blocks_ok cfg 0 0 (blks s) -> valid_block cfg blk ->
  blockInfo (blks s) !! index cfg blk = Some bi -> collectable cfg (blks s) bi = true -> 0 <= live bi.
Proof.
  intros Hok Hv Hb Hc%collectable_full. pose proof (bk_soft _ _ (ok_block _ _ _ _ Hok blk bi Hv Hb)) as H.
  unfold soft_of in H. rewrite Hc in H. unfold live. lia.
Qed.

End properties.

(** ** On the sample device *)

(** A write into the next free page. *)
Definition sample_write (s : State Flash) : State Flash :=
  run_state (yaffs_WriteNewChunkWithTagsToNAND sample_cfg (Some [7]) yaffs_InitialiseTags false) s.
Definition sample_delete (chunk : Z) (s : State Flash) : State Flash :=
  run_state (yaffs_DeleteChunk sample_cfg chunk true) s.

(** Two full blocks, of which the second (block 2) lost two pages. *)
Definition gc_state : State Flash :=
  sample_delete 9 (sample_delete 8 (Nat.iter 8 sample_write sample_state)).

Lemma sample_write_ok s : blocks_ok sample_cfg 0 0 (blks s) -> blocks_ok sample_cfg 0 0 (blks (sample_write s)).
Proof.
  intros Hok. apply (run_state_wp _ _ (fun s => blocks_ok sample_cfg 0 0 (blks s)) s
    (WriteNewChunk_spec sample_cfg sample_cfg_ok sim_can_mark (Some [7]) yaffs_InitialiseTags
      false s eq_refl Hok)).
  by intros c s' [H _].
Qed.

Lemma sample_writes_ok k : blocks_ok sample_cfg 0 0 (blks (Nat.iter k sample_write sample_state)).
Proof. induction k as [|k IH]; [exact sample_ok|]. simpl. by apply sample_write_ok. Qed.

Lemma sample_delete_ok s blk c bi :
  blocks_ok sample_cfg 0 0 (blks s) -> valid_block sample_cfg blk -> 0 <= c < 4 ->
  blockInfo (blks s) !! index sample_cfg blk = Some bi -> in_use_state (blockState bi) = true ->
  chunk_bit sample_cfg (chunkBits (blks s)) (knum sample_cfg blk) c = true ->
  soft_of bi < pagesInUse bi ->
  blocks_ok sample_cfg 0 0 (blks (sample_delete (blk * 4 + c) s)).
Proof.
  intros Hok Hv Hc Hb Hs Hbit Hsoft.
  apply (run_state_wp _ _ (fun s => blocks_ok sample_cfg 0 0 (blks s)) s
    (DeleteChunk_spec sample_cfg sample_cfg_ok sim_can_mark blk c true s bi Hok Hv Hc Hb Hs Hbit Hsoft)).
  by intros [] s' [H _].
Qed.

Lemma gc_state_ok : blocks_ok sample_cfg 0 0 (blks gc_state).
Proof.
  apply (sample_delete_ok _ 2 1 (empty_block <| blockState := BLOCK_STATE_FULL |>
    <| bi_sequenceNumber := 4098 |> <| pagesInUse := 3 |>));
    [apply (sample_delete_ok _ 2 0 (empty_block <| blockState := BLOCK_STATE_FULL |>
      <| bi_sequenceNumber := 4098 |> <| pagesInUse := 4 |>)); [apply sample_writes_ok|..]|..];
    try (vm_compute; reflexivity); try (unfold valid_block; simpl; lia); simpl; lia.
Qed.


(** The scan for prioritised blocks leaves the last block out, and then takes it that there
    are none: a full block that is marked for priority and is the last of the device is not
    chosen, and the flag that would have it looked at again is cleared. *)
Definition full_block (seq pages : Z) (shrink prio : bool) : BlockInfo :=
  empty_block <| blockState := BLOCK_STATE_FULL |> <| bi_sequenceNumber := seq |>
    <| pagesInUse := pages |> <| hasShrinkHeader := shrink |> <| gcPrioritise := prio |>.

Definition with_blocks (l : list BlockInfo) (s : State Flash) : State Flash :=
  s <| blks ::= fun b => b <| blockInfo := l |> <| hasPendingPrioritisedGCs := true |>
    <| nonAggressiveSkip := 4 |> |>.

Theorem FindBlock_misses_last :
  (fun p => (fst p, hasPendingPrioritisedGCs (blks (snd p)))) <$>
    yaffs_FindBlockForGarbageCollection sample_cfg false
      (with_blocks [empty_block; empty_block; empty_block; full_block 10 4 false true] sample_state)
  = Some (-1, false).
Proof. vm_compute. reflexivity. Qed.

(** A passive call that is skipped leaves the cached sequence number behind.  When block 1
    loses a page after that call, block 3, which is newer and has a shrink header, must wait
    for it; the next call takes block 3 all the same, where a call that works the
    number out again takes block 1. *)
Definition stale_cache (pages1 : Z) (s : State Flash) : State Flash :=
  with_blocks [full_block 10 pages1 false false; full_block 20 1 true true;
               full_block 15 2 true false; empty_block] s.

Theorem FindBlock_stale_oldest :
  let skipped := run_state (yaffs_FindBlockForGarbageCollection sample_cfg false)
                   (stale_cache 4 sample_state) in
  let again s := fst <$> yaffs_FindBlockForGarbageCollection sample_cfg true (stale_cache 3 s) in
  (again skipped, again sample_state) = (Some 3, Some 1).
Proof. vm_compute. reflexivity. Qed.
