(* ===== verification/Objects.v ===== *)
(** * Objects: allocation, numbers and directories ([yaffs_guts.c])

    An object is a file, directory, link or special file.  Objects are carved from bunches
    of memory, chained while free, hashed by number into buckets while in use, and hung
    into directories.  A pointer to an object is its address, 0 the null pointer.  The
    chains through [hashLink], [siblings] and the free list are lists of addresses: the
    chain of a bucket, the children of a directory, the list of free objects; to unlink
    an address takes it out of the list it is in. *)
From S2P Require Import Prelude Monad Tags Device Nand Sim Tnode Tree.

(** [yaffs_ObjectVariant]: reading another member than the one that was written fails. *)
Inductive Variant :=
  | NoVariant
  | FileVariant (f : FileStructure)
  | DirectoryVariant (children : list Z)
  | SymLinkVariant (alias : Z) (text : list Z)
  | HardLinkVariant (equivalentObject equivalentObjectId : Z).

(** [yaffs_Object]; [nameSum], [hdrChunk] and [objId] are the fields [sum], [chunkId] and
    [objectId].  [myDev] is the one device; the members of the lists are kept in the lists. *)
Record Object := MkObject {
  deleted : bool;
  softDeleted : bool;
  unlinked : bool;
  fake : bool;
  renameAllowed : bool;
  unlinkAllowed : bool;
  dirty : bool;
  valid : bool;
  lazyLoaded : bool;
  deferedFree : bool;
  serial : Z;
  nameSum : Z;
  hardLinks : list Z;
  parent : Z;
  hdrChunk : Z;
  nDataChunks : Z;
  objId : Z;
  yst_mode : Z;
  shortName : list Z;
  yst_uid : Z;
  yst_gid : Z;
  yst_atime : Z;
  yst_mtime : Z;
  yst_ctime : Z;
  yst_rdev : Z;
  myInode : Z;
  variantType : Z;
  variant : Variant
}.
#[export] Instance eta_Object : EtaExpand Object := fun r =>
  MkObject (deleted r) (softDeleted r) (unlinked r) (fake r) (renameAllowed r) (unlinkAllowed
    r) (dirty r) (valid r) (lazyLoaded r) (deferedFree r) (serial r) (nameSum r) (hardLinks r)
    (parent r) (hdrChunk r) (nDataChunks r) (objId r) (yst_mode r) (shortName r) (yst_uid r)
    (yst_gid r) (yst_atime r) (yst_mtime r) (yst_ctime r) (yst_rdev r) (myInode r) (variantType
    r) (variant r).
#[export] Instance upd_deleted : FieldUpdate deleted := ltac:(build_field_update).
#[export] Instance upd_softDeleted : FieldUpdate softDeleted := ltac:(build_field_update).
#[export] Instance upd_unlinked : FieldUpdate unlinked := ltac:(build_field_update).
#[export] Instance upd_fake : FieldUpdate fake := ltac:(build_field_update).
#[export] Instance upd_renameAllowed : FieldUpdate renameAllowed := ltac:(build_field_update).
#[export] Instance upd_unlinkAllowed : FieldUpdate unlinkAllowed := ltac:(build_field_update).
#[export] Instance upd_dirty : FieldUpdate dirty := ltac:(build_field_update).
#[export] Instance upd_valid : FieldUpdate valid := ltac:(build_field_update).
#[export] Instance upd_lazyLoaded : FieldUpdate lazyLoaded := ltac:(build_field_update).
#[export] Instance upd_deferedFree : FieldUpdate deferedFree := ltac:(build_field_update).
#[export] Instance upd_serial : FieldUpdate serial := ltac:(build_field_update).
#[export] Instance upd_nameSum : FieldUpdate nameSum := ltac:(build_field_update).
#[export] Instance upd_hardLinks : FieldUpdate hardLinks := ltac:(build_field_update).
#[export] Instance upd_parent : FieldUpdate parent := ltac:(build_field_update).
#[export] Instance upd_hdrChunk : FieldUpdate hdrChunk := ltac:(build_field_update).
#[export] Instance upd_nDataChunks : FieldUpdate nDataChunks := ltac:(build_field_update).
#[export] Instance upd_objId : FieldUpdate objId := ltac:(build_field_update).
#[export] Instance upd_yst_mode : FieldUpdate yst_mode := ltac:(build_field_update).
#[export] Instance upd_shortName : FieldUpdate shortName := ltac:(build_field_update).
#[export] Instance upd_yst_uid : FieldUpdate yst_uid := ltac:(build_field_update).
#[export] Instance upd_yst_gid : FieldUpdate yst_gid := ltac:(build_field_update).
#[export] Instance upd_yst_atime : FieldUpdate yst_atime := ltac:(build_field_update).
#[export] Instance upd_yst_mtime : FieldUpdate yst_mtime := ltac:(build_field_update).
#[export] Instance upd_yst_ctime : FieldUpdate yst_ctime := ltac:(build_field_update).
#[export] Instance upd_yst_rdev : FieldUpdate yst_rdev := ltac:(build_field_update).
#[export] Instance upd_myInode : FieldUpdate myInode := ltac:(build_field_update).
#[export] Instance upd_variantType : FieldUpdate variantType := ltac:(build_field_update).
#[export] Instance upd_variant : FieldUpdate variant := ltac:(build_field_update).

(** [yaffs_ObjectBucket] *)
Record Bucket := MkBucket { bucket_list : list Z; bucket_count : Z }.

(** The object part of [yaffs_Device]; [niceBucket] is the static variable [x] of
    [yaffs_FindNiceObjectBucket]. *)
Record Objects := MkObjects {
  objects : gmap Z Object;
  objectBucket : list Bucket;
  freeObjects : list Z;
  nFreeObjects : Z;
  nObjectsCreated : Z;
  allocatedObjectList : list Z;
  rootDir : Z;
  lostNFoundDir : Z;
  unlinkedDir : Z;
  deletedDir : Z;
  nDeletedFiles : Z;
  nUnlinkedFiles : Z;
  nBackgroundDeletions : Z;
  niceBucket : Z
}.
#[export] Instance eta_Objects : EtaExpand Objects := fun r =>
  MkObjects (objects r) (objectBucket r) (freeObjects r) (nFreeObjects r) (nObjectsCreated r)
    (allocatedObjectList r) (rootDir r) (lostNFoundDir r) (unlinkedDir r) (deletedDir r)
    (nDeletedFiles r) (nUnlinkedFiles r) (nBackgroundDeletions r) (niceBucket r).
#[export] Instance upd_objects : FieldUpdate objects := ltac:(build_field_update).
#[export] Instance upd_objectBucket : FieldUpdate objectBucket := ltac:(build_field_update).
#[export] Instance upd_freeObjects : FieldUpdate freeObjects := ltac:(build_field_update).
#[export] Instance upd_nFreeObjects : FieldUpdate nFreeObjects := ltac:(build_field_update).
#[export] Instance upd_nObjectsCreated : FieldUpdate nObjectsCreated := ltac:(build_field_update).
#[export] Instance upd_allocatedObjectList : FieldUpdate allocatedObjectList := ltac:(build_field_update).
#[export] Instance upd_rootDir : FieldUpdate rootDir := ltac:(build_field_update).
#[export] Instance upd_lostNFoundDir : FieldUpdate lostNFoundDir := ltac:(build_field_update).
#[export] Instance upd_unlinkedDir : FieldUpdate unlinkedDir := ltac:(build_field_update).
#[export] Instance upd_deletedDir : FieldUpdate deletedDir := ltac:(build_field_update).
#[export] Instance upd_nDeletedFiles : FieldUpdate nDeletedFiles := ltac:(build_field_update).
#[export] Instance upd_nUnlinkedFiles : FieldUpdate nUnlinkedFiles := ltac:(build_field_update).
#[export] Instance upd_nBackgroundDeletions : FieldUpdate nBackgroundDeletions := ltac:(build_field_update).
#[export] Instance upd_niceBucket : FieldUpdate niceBucket := ltac:(build_field_update).

(** One slot of the short-operation cache ([yaffs_ChunkCache]). *)
Record ChunkCache := MkChunkCache {
  cc_object : Z;
  cc_chunkId : Z;
  cc_lastUse : Z;
  cc_dirty : bool;
  cc_nBytes : Z;
  cc_locked : bool;
  cc_data : list Z
}.
#[export] Instance eta_ChunkCache : EtaExpand ChunkCache := fun r =>
  MkChunkCache (cc_object r) (cc_chunkId r) (cc_lastUse r) (cc_dirty r) (cc_nBytes r)
    (cc_locked r) (cc_data r).
#[export] Instance upd_cc_object : FieldUpdate cc_object := ltac:(build_field_update).
#[export] Instance upd_cc_chunkId : FieldUpdate cc_chunkId := ltac:(build_field_update).
#[export] Instance upd_cc_lastUse : FieldUpdate cc_lastUse := ltac:(build_field_update).
#[export] Instance upd_cc_dirty : FieldUpdate cc_dirty := ltac:(build_field_update).
#[export] Instance upd_cc_nBytes : FieldUpdate cc_nBytes := ltac:(build_field_update).
#[export] Instance upd_cc_locked : FieldUpdate cc_locked := ltac:(build_field_update).
#[export] Instance upd_cc_data : FieldUpdate cc_data := ltac:(build_field_update).

(** The cache part of [yaffs_Device]. *)
Record Caches := MkCaches { srCache : list ChunkCache; srLastUse : Z; cacheHits : Z }.
#[export] Instance eta_Caches : EtaExpand Caches := fun r =>
  MkCaches (srCache r) (srLastUse r) (cacheHits r).
#[export] Instance upd_srCache : FieldUpdate srCache := ltac:(build_field_update).
#[export] Instance upd_srLastUse : FieldUpdate srLastUse := ltac:(build_field_update).
#[export] Instance upd_cacheHits : FieldUpdate cacheHits := ltac:(build_field_update).

(** The whole [yaffs_Device]: blocks and medium, tnodes and kernel memory, objects, caches. *)
Record FS (N K : Type) := MkFS {
  dev : State N;
  tns : Tnodes K;
  obs : Objects;
  caches : Caches
}.
Arguments MkFS {N K}. Arguments dev {N K}. Arguments tns {N K}.
Arguments obs {N K}. Arguments caches {N K}.
#[export] Instance eta_FS N K : EtaExpand (FS N K) := fun r =>
  MkFS (dev r) (tns r) (obs r) (caches r).
#[export] Instance upd_dev N K : FieldUpdate (@dev N K) := ltac:(build_field_update).
#[export] Instance upd_tns N K : FieldUpdate (@tns N K) := ltac:(build_field_update).
#[export] Instance upd_obs N K : FieldUpdate (@obs N K) := ltac:(build_field_update).
#[export] Instance upd_caches N K : FieldUpdate (@caches N K) := ltac:(build_field_update).

Abbreviation YAFFS_NOBJECT_BUCKETS := 256.
Abbreviation YAFFS_ALLOCATION_NOBJECTS := 100.
Definition YAFFS_OBJECTID_ROOT : Z := 1.
Definition YAFFS_OBJECTID_LOSTNFOUND : Z := 2.
Definition YAFFS_OBJECTID_UNLINKED : Z := 3.
Definition YAFFS_OBJECTID_DELETED : Z := 4.
Definition S_IFDIR : Z := 0x4000.
Definition YAFFS_ROOT_MODE : Z := 438.
Definition YAFFS_LOSTNFOUND_MODE : Z := 438.

(** [sizeof(yaffs_Object)] on this 32-bit machine with short names kept in memory, and
    [sizeof(yaffs_ObjectList)]. *)
Definition sizeof_Object : Z := 124.
Definition sizeof_ObjectList : Z := 8.

(** An object as [memset] leaves it. *)
Definition zero_object : Object :=
  MkObject false false false false false false false false false false 0 0 [] 0 0 0 0 0 [] 0 0 0 0 0
    0 0 0 NoVariant.

(** The kernel's clock. *)
Class Clock (K : Type) := { current_time : K -> Z }.

(** [n = abs(n); return n % YAFFS_NOBJECT_BUCKETS;] of an object number passed as an [int]. *)
Definition yaffs_HashFunction (n : Z) : Z := Z.rem (Z.abs (i32 n)) YAFFS_NOBJECT_BUCKETS.

Section objects.
Context {N K : Type} `{!Kmalloc K} `{!Clock K} (cfg : Config).
Local Abbreviation St := (FS N K).

(** ** Computations on the parts of the device *)

Definition on_dev {A} (m : M (State N) A) : M St A := fun s =>
  match m (dev s) with Some (a, d) => Some (a, s <| dev := d |>) | None => None end.
Definition on_tns {A} (m : M (Tnodes K) A) : M St A := fun s =>
  match m (tns s) with Some (a, t) => Some (a, s <| tns := t |>) | None => None end.

Definition getO {A} (f : Objects -> A) : M St A := gets (fun s => f (obs s)).
Definition modO (f : Objects -> Objects) : M St unit := modify (fun s => s <| obs ::= f |>).

(** [*obj], read and written. *)
Definition get_obj (a : Z) : M St Object :=
  t ← getO objects;
  of_option (t !! a).
Definition mod_obj (a : Z) (f : Object -> Object) : M St unit :=
  o ← get_obj a;
  modO (fun t => t <| objects ::= <[a := f o]> |>).

(** [obj->variant.fileVariant] and [obj->variant.directoryVariant.children]. *)
Definition get_file (a : Z) : M St FileStructure :=
  o ← get_obj a;
  match variant o with FileVariant f => mret f | _ => fail end.
Definition set_file (a : Z) (f : FileStructure) : M St unit :=
  _ ← get_file a;
  mod_obj a (fun o => o <| variant := FileVariant f |>).
Definition get_children (a : Z) : M St (list Z) :=
  o ← get_obj a;
  match variant o with DirectoryVariant cs => mret cs | _ => fail end.

(** ** Lists of objects *)

(** [list_del(&obj->siblings)]: out of the directory it is in. *)
Definition drop_child (a : Z) (o : Object) : Object :=
  match variant o with
  | DirectoryVariant cs => o <| variant := DirectoryVariant (filter (fun c => c <> a) cs) |>
  | _ => o
  end.
Definition list_del_sibling (a : Z) : M St unit :=
  modO (fun t => t <| objects ::= fmap (drop_child a) |>).

(** [!list_empty(&obj->siblings)] *)
Definition has_child (a : Z) (o : Object) : bool :=
  match variant o with DirectoryVariant cs => bool_decide (a ∈ cs) | _ => false end.
Definition in_directory (t : gmap Z Object) (a : Z) : bool :=
  existsb (fun p => has_child a (snd p)) (map_to_list t).

(** The callback is not set by the kernel's port. *)
Definition yaffs_RemoveObjectFromDirectory (obj : Z) : M St unit :=
  _ ← list_del_sibling obj;
  mod_obj obj (fun o => o <| parent := 0 |>).

(** A null directory and one that is no directory only print a message before they are
    used.  An allocated object has its list pointers set. *)
Definition yaffs_AddObjectToDirectory (directory obj : Z) : M St unit :=
  _ ← get_obj directory;
  t ← getO objects;
  _ ← when (in_directory t obj) (yaffs_RemoveObjectFromDirectory obj);
  cs ← get_children directory;
  _ ← mod_obj directory (fun o => o <| variant := DirectoryVariant (obj :: cs) |>);
  _ ← mod_obj obj (fun o => o <| parent := directory |>);
  u ← getO unlinkedDir;
  d ← getO deletedDir;
  when ((directory =? u) || (directory =? d)) (
    _ ← mod_obj obj (fun o => o <| unlinked := true |>);
    _ ← modO (fun t => t <| nUnlinkedFiles ::= Z.succ |>);
    mod_obj obj (fun o => o <| renameAllowed := false |>)).

(** ** Allocation *)

Definition yaffs_CreateFreeObjects (nObjects : Z) : M St Z :=
  if nObjects <? 1 then mret YAFFS_OK else
  newObjects ← on_tns (YMALLOC (nObjects * sizeof_Object));
  list ← on_tns (YMALLOC sizeof_ObjectList);
  if (newObjects =? 0) || (list =? 0) then
    _ ← when (ztrue newObjects) (on_tns (YFREE newObjects));
    _ ← when (ztrue list) (on_tns (YFREE list));
    mret YAFFS_FAIL
  else
    _ ← modO (fun t => t
      <| freeObjects ::= app ((fun i => newObjects + i * sizeof_Object) <$> seqZ 0 nObjects) |>);
    _ ← modO (fun t => t <| nFreeObjects ::= Z.add nObjects |>);
    _ ← modO (fun t => t <| nObjectsCreated ::= Z.add nObjects |>);
    _ ← modO (fun t => t <| allocatedObjectList ::= cons newObjects |>);
    mret YAFFS_OK.

Definition yaffs_AllocateEmptyObject : M St Z :=
  free ← getO freeObjects;
  _ ← match free with
      | [] => _ ← yaffs_CreateFreeObjects YAFFS_ALLOCATION_NOBJECTS; mret tt
      | _ => mret tt
      end;
  free ← getO freeObjects;
  match free with
  | [] => mret 0
  | tn :: rest =>
      _ ← modO (fun t => t <| freeObjects := rest |>);
      _ ← modO (fun t => t <| nFreeObjects ::= Z.pred |>);
      _ ← modO (fun t => t <| objects ::= <[tn := zero_object <| hdrChunk := -1 |>
                               <| variantType := OBJECT_TYPE_UNKNOWN |>]> |>);
      lost ← getO lostNFoundDir;
      _ ← when (ztrue lost) (yaffs_AddObjectToDirectory lost tn);
      mret tn
  end.

(** ** The hash table *)

(** [dev->objectBucket[i]], read and written. *)
Definition get_bucket (i : Z) : M St Bucket :=
  bs ← getO objectBucket;
  of_option (lookupZ i bs).
Definition mod_bucket (i : Z) (f : Bucket -> Bucket) : M St unit :=
  b ← get_bucket i;
  bs ← getO objectBucket;
  bs' ← of_option (updateZ i (f b) bs);
  modO (fun t => t <| objectBucket := bs' |>).

Definition in_chain (a : Z) (b : Bucket) : bool := bool_decide (a ∈ bucket_list b).
Definition drop_link (a : Z) (b : Bucket) : Bucket :=
  MkBucket (filter (fun c => c <> a) (bucket_list b)) (bucket_count b).

Definition yaffs_UnhashObject (tn : Z) : M St unit :=
  bs ← getO objectBucket;
  when (existsb (in_chain tn) bs) (
    _ ← modO (fun t => t <| objectBucket ::= fmap (drop_link tn) |>);
    o ← get_obj tn;
    mod_bucket (yaffs_HashFunction (objId o))
      (fun b => MkBucket (bucket_list b) (bucket_count b - 1))).

(** To chain an object that still hangs in a directory would break the directory's list. *)
Definition yaffs_FreeObject (tn : Z) : M St unit :=
  o ← get_obj tn;
  if ztrue (myInode o) then mod_obj tn (fun o => o <| deferedFree := true |>) else
  _ ← yaffs_UnhashObject tn;
  t ← getO objects;
  if in_directory t tn then fail else
  _ ← modO (fun t => t <| freeObjects ::= cons tn |>);
  modO (fun t => t <| nFreeObjects ::= Z.succ |>).

Definition yaffs_HandleDeferedFree (obj : Z) : M St unit :=
  o ← get_obj obj;
  when (deferedFree o) (yaffs_FreeObject obj).

Definition yaffs_DeinitialiseObjects : M St unit :=
  bunches ← getO allocatedObjectList;
  _ ← for_each bunches (fun newObjects =>
    _ ← on_tns (YFREE newObjects);
    modO (fun t => t <| allocatedObjectList ::= tail |>));
  _ ← modO (fun t => t <| freeObjects := [] |>);
  modO (fun t => t <| nFreeObjects := 0 |>).

Definition yaffs_InitialiseObjects : M St unit :=
  _ ← modO (fun t => t <| allocatedObjectList := [] |>);
  _ ← modO (fun t => t <| freeObjects := [] |>);
  _ ← modO (fun t => t <| nFreeObjects := 0 |>);
  modO (fun t => t <| objectBucket :=
    replicate (Z.to_nat YAFFS_NOBJECT_BUCKETS) (MkBucket [] 0) |>).

(** One step of the search for a short bucket, while the best is longer than [limit]. *)
Definition nice_step (limit : Z) (acc : Z * Z) : M St (Z * Z) :=
  let '(l, lowest) := acc in
  if limit <? lowest then
    x ← getO niceBucket;
    _ ← modO (fun t => t <| niceBucket := Z.rem (x + 1) YAFFS_NOBJECT_BUCKETS |>);
    x ← getO niceBucket;
    b ← get_bucket x;
    mret (if bucket_count b <? lowest then (x, bucket_count b) else (l, lowest))
  else mret acc.

Definition yaffs_FindNiceObjectBucket : M St Z :=
  acc ← for_acc (seqZ 0 10) (fun _ => nice_step 0) (999, 999999);
  acc ← for_acc (seqZ 0 10) (fun _ => nice_step 3) acc;
  mret (fst acc).

(** The loop over candidate numbers, [fuel] rounds at most. *)
Fixpoint number_loop (fuel : nat) (chain : list Z) (n : Z) : M St Z :=
  match fuel with
  | O => fail
  | S fuel =>
      let n := u32 (n + YAFFS_NOBJECT_BUCKETS) in
      found ← for_acc chain (fun a (found : bool) =>
        o ← get_obj a;
        mret (if objId o =? n then false else found)) true;
      if (found : bool) then mret n else number_loop fuel chain n
  end.

(** A chain of [k] objects takes [k] numbers at most, so [k + 1] rounds are enough. *)
Definition yaffs_CreateNewObjectNumber : M St Z :=
  bucket ← yaffs_FindNiceObjectBucket;
  b ← get_bucket bucket;
  n ← number_loop (S (length (bucket_list b))) (bucket_list b) (u32 bucket);
  mret (i32 n).

Definition yaffs_HashObject (a : Z) : M St unit :=
  o ← get_obj a;
  mod_bucket (yaffs_HashFunction (objId o))
    (fun b => MkBucket (a :: bucket_list b) (bucket_count b + 1)).

Definition yaffs_FindObjectByNumber (number : Z) : M St Z :=
  b ← get_bucket (yaffs_HashFunction number);
  r ← for_break (bucket_list b) (fun a =>
    o ← get_obj a;
    mret (if objId o =? number then Some (if deferedFree o then 0 else a) else None));
  mret (default 0 r).

(** The variant a new object starts with. *)
Definition new_variant (type tn : Z) (v : Variant) : Variant :=
  if type =? OBJECT_TYPE_FILE then FileVariant (MkFileStructure 0 0 0xFFFFFFFF 0 tn)
  else if type =? OBJECT_TYPE_DIRECTORY then DirectoryVariant []
  else v.

Definition yaffs_CreateNewObject (number type : Z) : M St Z :=
  number ← (if number <? 0 then yaffs_CreateNewObjectNumber else mret number);
  theObject ← yaffs_AllocateEmptyObject;
  if negb (ztrue theObject) then mret 0 else
  tn ← (if type =? OBJECT_TYPE_FILE then on_tns (yaffs_GetTnode cfg) else mret 0);
  if (type =? OBJECT_TYPE_FILE) && negb (ztrue tn) then
    _ ← yaffs_FreeObject theObject;
    mret 0
  else
    _ ← mod_obj theObject (fun o => o <| fake := false |> <| renameAllowed := true |>
      <| unlinkAllowed := true |> <| objId := u32 number |>);
    _ ← yaffs_HashObject theObject;
    now ← gets (fun s => current_time (heap (tns s)));
    _ ← mod_obj theObject (fun o => o <| variantType := type |> <| yst_atime := now |>
      <| yst_mtime := now |> <| yst_ctime := now |> <| variant ::= new_variant type tn |>);
    mret theObject.

Definition yaffs_FindOrCreateObjectByNumber (number type : Z) : M St Z :=
  theObject ← (if 0 <? number then yaffs_FindObjectByNumber number else mret 0);
  if negb (ztrue theObject) then yaffs_CreateNewObject number type else mret theObject.

(** ** The first directories *)

Definition yaffs_CreateFakeDirectory (number mode : Z) : M St Z :=
  obj ← yaffs_CreateNewObject number OBJECT_TYPE_DIRECTORY;
  _ ← when (ztrue obj) (mod_obj obj (fun o => o <| fake := true |> <| renameAllowed := false |>
    <| unlinkAllowed := false |> <| deleted := false |> <| unlinked := false |>
    <| yst_mode := mode |> <| hdrChunk := 0 |>));
  mret obj.

Definition yaffs_CreateInitialDirectories : M St Z :=
  _ ← modO (fun t => t <| lostNFoundDir := 0 |> <| rootDir := 0 |>);
  _ ← modO (fun t => t <| unlinkedDir := 0 |> <| deletedDir := 0 |>);
  u ← yaffs_CreateFakeDirectory YAFFS_OBJECTID_UNLINKED S_IFDIR;
  _ ← modO (fun t => t <| unlinkedDir := u |>);
  d ← yaffs_CreateFakeDirectory YAFFS_OBJECTID_DELETED S_IFDIR;
  _ ← modO (fun t => t <| deletedDir := d |>);
  r ← yaffs_CreateFakeDirectory YAFFS_OBJECTID_ROOT (Z.lor YAFFS_ROOT_MODE S_IFDIR);
  _ ← modO (fun t => t <| rootDir := r |>);
  l ← yaffs_CreateFakeDirectory YAFFS_OBJECTID_LOSTNFOUND (Z.lor YAFFS_LOSTNFOUND_MODE S_IFDIR);
  _ ← modO (fun t => t <| lostNFoundDir := l |>);
  if ztrue l && ztrue r && ztrue u && ztrue d then
    _ ← yaffs_AddObjectToDirectory r l;
    mret YAFFS_OK
  else mret YAFFS_FAIL.
End objects.

(** ** Reasoning rules *)

Section rules.
Context {N K : Type}.
Implicit Types (s : FS N K).

Lemma wp_on_dev {A} (m : M (State N) A) (Q : A -> FS N K -> Prop) s :
  wp m (fun a d => Q a (s <| dev := d |>)) (dev s) -> wp (on_dev m) Q s.
Proof. unfold wp, on_dev. by destruct (m (dev s)) as [[a d]|]. Qed.

Lemma wp_on_tns {A} (m : M (Tnodes K) A) (Q : A -> FS N K -> Prop) s :
  wp m (fun a t => Q a (s <| tns := t |>)) (tns s) -> wp (on_tns m) Q s.
Proof. unfold wp, on_tns. by destruct (m (tns s)) as [[a t]|]. Qed.

Lemma wp_get_obj a o (Q : Object -> FS N K -> Prop) s :
  objects (obs s) !! a = Some o -> Q o s -> wp (get_obj a) Q s.
Proof. intros Ho HQ. unfold get_obj, getO. apply wp_bind, wp_gets. by apply wp_of_option with o. Qed.

Lemma wp_mod_obj a o f (Q : unit -> FS N K -> Prop) s :
  objects (obs s) !! a = Some o ->
  Q tt (s <| obs ::= fun t => t <| objects ::= <[a := f o]> |> |>) -> wp (mod_obj a f) Q s.
Proof.
  intros Ho HQ. unfold mod_obj. apply wp_bind, wp_get_obj with o; [done|]. by apply wp_modify.
Qed.

Lemma wp_get_bucket i b (Q : Bucket -> FS N K -> Prop) s :
  0 <= i -> objectBucket (obs s) !! Z.to_nat i = Some b -> Q b s -> wp (get_bucket i) Q s.
Proof.
  intros Hi Hb HQ. unfold get_bucket, getO. apply wp_bind, wp_gets, wp_of_option with b; [|done].
  unfold lookupZ. by rewrite (proj2 (Z.leb_le 0 i)).
Qed.

Lemma wp_mod_bucket i b f (Q : unit -> FS N K -> Prop) s :
  0 <= i -> objectBucket (obs s) !! Z.to_nat i = Some b ->
  Q tt (s <| obs ::= fun t => t <| objectBucket ::= <[Z.to_nat i := f b]> |> |>) ->
  wp (mod_bucket i f) Q s.
Proof.
  intros Hi Hb HQ. unfold mod_bucket. apply wp_bind, wp_get_bucket with b; [done|done|].
  apply wp_bind, wp_gets. pose proof (lookup_lt_Some _ _ _ Hb).
  apply wp_bind, (wp_of_option _ (<[Z.to_nat i := f b]> (objectBucket (obs s))));
    [apply updateZ_Some; lia|]. by apply wp_modify.
Qed.

Lemma HashFunction_range n : 0 <= yaffs_HashFunction n < 256.
Proof. unfold yaffs_HashFunction. rewrite Z.rem_mod_nonneg by lia. apply Z.mod_pos_bound. lia. Qed.

Lemma HashFunction_u32 n : yaffs_HashFunction (u32 n) = yaffs_HashFunction n.
Proof.
  unfold yaffs_HashFunction. do 2 f_equal. unfold swrap, wrap. f_equal.
  by rewrite Z.add_mod_idemp_l.
Qed.
End rules.

(** ** The object table *)

Definition hashed (t : Objects) (a : Z) : Prop :=
  exists i b, objectBucket t !! i = Some b /\ a ∈ bucket_list b.

(** The type of an object says which variant it has. *)
Definition typed (o : Object) : Prop :=
  match variant o with
  | FileVariant _ => variantType o = OBJECT_TYPE_FILE
  | DirectoryVariant _ => variantType o = OBJECT_TYPE_DIRECTORY
  | _ => variantType o <> OBJECT_TYPE_FILE /\ variantType o <> OBJECT_TYPE_DIRECTORY
  end.

(** A child that the object has as a directory. *)
Definition child_of (o : Object) (a : Z) : Prop :=
  exists cs, variant o = DirectoryVariant cs /\ a ∈ cs.

(** An object in its bucket. *)
Definition linked (t : Objects) (i : nat) (a : Z) : Prop :=
  a <> 0 /\ exists o, objects t !! a = Some o /\ yaffs_HashFunction (objId o) = Z.of_nat i /\ typed o.

Record table_ok (t : Objects) : Prop := {
  to_buckets : length (objectBucket t) = 256%nat;
  to_chain : forall i b, objectBucket t !! i = Some b ->
    NoDup (bucket_list b) /\ bucket_count b = Z.of_nat (length (bucket_list b)) /\
    Forall (linked t i) (bucket_list b);
  to_unique : forall a a' o o', hashed t a -> hashed t a' ->
    objects t !! a = Some o -> objects t !! a' = Some o' -> objId o = objId o' -> a = a';
  to_free_nodup : NoDup (freeObjects t);
  to_free_count : nFreeObjects t = Z.of_nat (length (freeObjects t));
  to_free : forall a, a ∈ freeObjects t ->
    a <> 0 /\ ~ hashed t a /\ forall d o, objects t !! d = Some o -> ~ child_of o a;
  to_child : forall d o a, objects t !! d = Some o -> child_of o a -> is_Some (objects t !! a);
  to_nice : 0 <= niceBucket t < 256
}.


Section table.
Context {N K : Type} `{!Kmalloc K} `{!KmallocLaws K} `{!Clock K} (cfg : Config).
Implicit Types (s : FS N K).

(** Every object lies in memory the kernel gave out. *)
Definition table_owned (k : K) (t : Objects) : Prop := forall a,
  is_Some (objects t !! a) \/ a ∈ freeObjects t -> owned k a.

Lemma hashed_linked t a :
  table_ok t -> hashed t a -> exists i b, objectBucket t !! i = Some b /\ a ∈ bucket_list b /\ linked t i a.
Proof.
  intros Ht (i & b & Hb & Ha). exists i, b. split; [done|]. split; [done|].
  destruct (to_chain _ Ht i b Hb) as (_ & _ & Hl). by eapply Forall_forall in Hl.
Qed.

Lemma in_bucket t a o i b :
  table_ok t -> objectBucket t !! i = Some b -> hashed t a -> objects t !! a = Some o ->
  yaffs_HashFunction (objId o) = Z.of_nat i -> a ∈ bucket_list b.
Proof.
  intros Ht Hb Ha Ho Hh. destruct (hashed_linked t a Ht Ha) as (j & b' & Hb' & Ha' & _ & o' & Ho' & Hh' & _).
  rewrite Ho in Ho'. simplify_eq. assert (i = j) as -> by lia. rewrite Hb in Hb'. by simplify_eq.
Qed.

Lemma bucket_lookup t n : table_ok t -> exists b, objectBucket t !! Z.to_nat (yaffs_HashFunction n) = Some b.
Proof.
  intros Ht. pose proof (HashFunction_range n). apply lookup_lt_is_Some_2. rewrite (to_buckets _ Ht). lia.
Qed.

(** ** Look-up by number *)

(** What [yaffs_FindObjectByNumber] gives: the object in use with the number, if it is not
    waiting to be freed. *)
Definition numbered (t : Objects) (n a : Z) : Prop :=
  if a =? 0 then
    forall a' o, hashed t a' -> objects t !! a' = Some o -> objId o = n -> deferedFree o = true
  else hashed t a /\ exists o, objects t !! a = Some o /\ objId o = n /\ deferedFree o = false.

Lemma FindObjectByNumber_spec s n :
  table_ok (obs s) -> wp (yaffs_FindObjectByNumber n) (fun a s' => s' = s /\ numbered (obs s) n a) s.
Proof.
  intros Ht. unfold yaffs_FindObjectByNumber. destruct (bucket_lookup (obs s) n Ht) as [b Hb].
  pose proof (HashFunction_range n) as Hr.
  apply wp_bind, wp_get_bucket with b; [lia|done|].
  destruct (to_chain _ Ht _ b Hb) as (Hnd & _ & Hl).
  apply wp_bind, (wp_for_break (fun d s' => s' = s /\
    forall a o, a ∈ d -> objects (obs s) !! a = Some o -> objId o <> n)).
  - split; [done|]. intros a o Ha. by apply not_elem_of_nil in Ha.
  - intros d a rest s' Hd [-> Hno].
    assert (Ha : a ∈ bucket_list b) by (rewrite Hd; set_solver).
    pose proof (proj1 (Forall_forall _ _) Hl a Ha) as (Ha0 & o & Ho & _).
    apply wp_bind, wp_get_obj with o; [done|]. apply wp_ret. destruct (Z.eqb_spec (objId o) n) as [Hn|Hn].
    + assert (Hhash : hashed (obs s) a) by (exists (Z.to_nat (yaffs_HashFunction n)), b; done).
      apply wp_ret. split; [done|]. unfold numbered. simpl. destruct (deferedFree o) eqn:Hdef.
      * simpl. intros a' o' Ha' Ho' Hn'. destruct (to_unique _ Ht a a' o o') as []; try done; [by rewrite Hn'|].
        rewrite Ho in Ho'. by simplify_eq.
      * rewrite (proj2 (Z.eqb_neq a 0)) by done. split; [done|]. by exists o.
    + split; [done|]. intros a' o' [Ha'|Ha'%list_elem_of_singleton]%elem_of_app Ho'; [by eapply Hno|].
      subst a'. rewrite Ho in Ho'. by simplify_eq.
  - intros s' [-> Hno]. apply wp_ret. split; [done|]. unfold numbered. simpl.
    intros a o Ha Ho Hn. destruct (Hno a o); [|done|done].
    apply (in_bucket (obs s) a o _ b Ht Hb Ha Ho). rewrite Hn. lia.
Qed.

(** ** New numbers *)

Definition with_nice s (x : Z) : FS N K := s <| obs ::= fun t => t <| niceBucket := x |> |>.

Lemma table_ok_nice t x : table_ok t -> 0 <= x < 256 -> table_ok (t <| niceBucket := x |>).
Proof. intros [] Hx. by split. Qed.

Definition counts_small (t : Objects) : Prop :=
  forall i b, objectBucket t !! i = Some b -> bucket_count b < 999999.

Lemma nice_step_spec s limit l lowest :
  table_ok (obs s) ->
  (limit < lowest /\ (forall i b, objectBucket (obs s) !! i = Some b -> bucket_count b < lowest) \/ 0 <= l < 256) ->
  wp (nice_step limit (l, lowest)) (fun acc s' => 0 <= fst acc < 256 /\
    exists x, s' = with_nice s x /\ 0 <= x < 256) s.
Proof.
  intros Ht Hl. pose proof (to_nice _ Ht) as Hx. unfold nice_step, getO, modO.
  assert (Hself : s = with_nice s (niceBucket (obs s))) by by destruct s as [? ? [] ?].
  apply wp_if. destruct (Z.ltb_spec limit lowest).
  - wp_steps. set (x := Z.rem (niceBucket (obs s) + 1) 256).
    assert (Hxr : 0 <= x < 256).
    { unfold x. rewrite Z.rem_mod_nonneg by lia. apply Z.mod_pos_bound. lia. }
    destruct (lookup_lt_is_Some_2 (objectBucket (obs s)) (Z.to_nat x)) as [b Hb];
      [rewrite (to_buckets _ Ht); lia|].
    apply wp_get_bucket with b; [exact (proj1 Hxr)|exact Hb|]. apply wp_ret. split; [|by exists x].
    change (niceBucket _) with x.
    destruct (Z.ltb_spec (bucket_count b) lowest); [done|]. destruct Hl as [[_ Hc]|Hl]; [|done].
    specialize (Hc _ b Hb). lia.
  - apply wp_ret. split; [destruct Hl as [[]|Hl]; [lia|done]|]. by eexists.
Qed.

Lemma with_nice_ok s x : table_ok (obs s) -> 0 <= x < 256 -> table_ok (obs (with_nice s x)).
Proof. intros. by apply table_ok_nice. Qed.

Lemma with_nice_twice s x y : with_nice (with_nice s x) y = with_nice s y.
Proof. done. Qed.

Lemma FindNiceObjectBucket_spec s :
  table_ok (obs s) -> counts_small (obs s) ->
  wp yaffs_FindNiceObjectBucket (fun l s' => 0 <= l < 256 /\
    exists x, s' = with_nice s x /\ 0 <= x < 256) s.
Proof.
  intros Ht Hc. unfold yaffs_FindNiceObjectBucket.
  assert (Hself : s = with_nice s (niceBucket (obs s))) by by destruct s as [? ? [] ?].
  pose proof (to_nice _ Ht) as Hn0.
  eapply wp_seq; [apply (wp_for_acc (fun d acc s' => (exists x, s' = with_nice s x /\ 0 <= x < 256) /\
    (d = [] /\ acc = (999, 999999) \/ d <> [] /\ 0 <= fst acc < 256)))|].
  - split; [by eexists|by left].
  - intros d z r [l lowest] s' _ [(x & -> & Hx) Hacc].
    eapply wp_mono; [apply nice_step_spec; [by apply with_nice_ok|]|].
    + destruct Hacc as [[_ [= -> ->]]|[_ Hl]]; [left; split; [lia|exact Hc]|by right].
    + intros acc s' [Hr (y & -> & Hy)]. split; [by exists y|]. right. split; [by destruct d|done].
  - intros [l lowest] s1 [(x & -> & Hx) [[Hd _]|[_ Hl]]]; [done|]. simpl in Hl.
    eapply wp_seq; [apply (wp_for_acc (fun d acc s' => (exists x, s' = with_nice s x /\ 0 <= x < 256) /\
      0 <= fst acc < 256))|].
    + split; [by exists x|done].
    + intros d z r [l' lowest'] s' _ [(y & -> & Hy) Hl'].
      eapply wp_mono; [apply nice_step_spec; [by apply with_nice_ok|by right]|].
      intros acc s' [Hr (y' & -> & Hy')]. split; [by exists y'|done].
    + intros acc s2 [Hs2 Hr]. by apply wp_ret.
Qed.

(** A round is lost only to a number that is taken, and no number is met twice. *)
Lemma number_loop_spec s (chain : list Z) (ids : list Z) fuel n :
  Forall2 (fun a id => exists o, objects (obs s) !! a = Some o /\ objId o = id) chain ids ->
  0 <= n -> n + 256 * Z.of_nat fuel < 2 ^ 32 ->
  (length (filter (fun id => (n < id)%Z) ids) < fuel)%nat ->
  wp (number_loop fuel chain n) (fun r s' => s' = s /\ r ∉ ids /\
    exists k, 1 <= k <= Z.of_nat fuel /\ r = n + 256 * k) s.
Proof.
  intros Hids. revert n. induction fuel as [|fuel IH]; intros n Hn Hmax Hlen; [lia|].
  cbn [number_loop]. rewrite (wrap_small 32 (n + 256)) by lia.
  eapply wp_seq; [apply (wp_for_acc (fun d found s' => s' = s /\
    found = negb (existsb (fun id => id =? n + 256) (take (length d) ids))))|].
  - done.
  - intros d a rest found s' Hd [-> ->].
    assert (Ha : chain !! length d = Some a) by (rewrite Hd, lookup_app_r, Nat.sub_diag by lia; done).
    destruct (Forall2_lookup_l _ _ _ _ _ Hids Ha) as (id & Hid & o & Ho & <-).
    apply wp_bind, wp_get_obj with o; [done|]. apply wp_ret. split; [done|].
    rewrite length_app. simpl length. rewrite Nat.add_1_r, (take_S_r _ _ _ Hid), existsb_app. simpl.
    destruct (objId o =? n + 256); simpl; [by rewrite orb_true_r|by rewrite orb_false_r].
  - intros found s1 [-> ->]. rewrite (Forall2_length _ _ _ Hids), firstn_all.
    destruct (existsb _ ids) eqn:Hex; simpl.
    + apply existsb_exists in Hex as (id & Hid%list_elem_of_In & ->%Z.eqb_eq).
      eapply wp_mono; [apply IH; [lia|lia|]|].
      * assert (H : (length (filter (fun id => (n + 256 < id)%Z) ids) < length (filter (fun id => (n < id)%Z) ids))%nat).
        { clear - Hid. induction ids as [|x ids IH]; [by apply not_elem_of_nil in Hid|].
          assert (Hle : forall l, (length (filter (fun id => (n + 256 < id)%Z) l) <= length (filter (fun id => (n < id)%Z) l))%nat).
          { induction l as [|y l IHl]; [done|]. rewrite !filter_cons.
            destruct (decide (n + 256 < y)%Z), (decide (n < y)%Z); simpl; lia. }
          rewrite !filter_cons. apply elem_of_cons in Hid as [<-|Hid].
          - rewrite decide_False, decide_True by lia. simpl. specialize (Hle ids). lia.
          - specialize (IH Hid). destruct (decide (n + 256 < x)%Z), (decide (n < x)%Z); simpl; lia. }
        lia.
      * intros r s' (-> & Hr & k & Hk & ->). split; [done|]. split; [done|]. exists (k + 1). lia.
    + apply wp_ret. split; [done|]. split; [|exists 1; lia].
      intros Hin. apply not_true_iff_false in Hex. apply Hex, existsb_exists.
      exists (n + 256). split; [by apply list_elem_of_In|apply Z.eqb_refl].
Qed.

(** A number nobody has. *)
Definition fresh_number (t : Objects) (n : Z) : Prop :=
  forall a o, hashed t a -> objects t !! a = Some o -> objId o <> n.

Lemma CreateNewObjectNumber_spec s :
  table_ok (obs s) -> counts_small (obs s) ->
  wp yaffs_CreateNewObjectNumber (fun n s' => 256 <= n < 2 ^ 31 /\ fresh_number (obs s) n /\
    exists x, s' = with_nice s x /\ 0 <= x < 256) s.
Proof.
  intros Ht Hc. unfold yaffs_CreateNewObjectNumber.
  eapply wp_seq; [by apply FindNiceObjectBucket_spec|]. intros l s1 [Hl (x & -> & Hx)].
  pose proof (with_nice_ok s x Ht Hx) as Ht1.
  destruct (lookup_lt_is_Some_2 (objectBucket (obs s)) (Z.to_nat l)) as [b Hb];
    [rewrite (to_buckets _ Ht); lia|].
  apply wp_bind, wp_get_bucket with b; [lia|done|].
  destruct (to_chain _ Ht _ b Hb) as (Hnd & Hcnt & Hlk). pose proof (Hc _ b Hb) as Hsmall.
  rewrite (wrap_small 32 l) by lia.
  assert (exists ids, Forall2 (fun a id => exists o, objects (obs s) !! a = Some o /\ objId o = id)
    (bucket_list b) ids) as [ids Hids].
  { clear -Hlk. induction Hlk as [|a chain (_ & o & Ho & _) _ [ids Hids]]; [by exists []|].
    exists (objId o :: ids). constructor; [by exists o|done]. }
  eapply wp_seq; [apply (number_loop_spec _ _ ids); [done|lia|lia|]|].
  { pose proof (length_filter (fun id => (l < id)%Z) ids). rewrite (Forall2_length _ _ _ Hids). lia. }
  intros r s2 (-> & Hr & k & Hk & ->). apply wp_ret.
  rewrite (swrap_small 32) by lia. split; [lia|]. split; [|by exists x].
  intros a o Ha Ho Hn. apply Hr. rewrite <- Hn.
  assert (Hin : a ∈ bucket_list b).
  { apply (in_bucket (obs s) a o _ b Ht Hb Ha Ho). rewrite Hn. unfold yaffs_HashFunction.
    rewrite swrap_small by lia. rewrite Z.abs_eq, Z.rem_mod_nonneg by lia.
    replace (l + 256 * k) with (l + k * 256) by lia. rewrite Z.mod_add, Z.mod_small by lia. lia. }
  apply list_elem_of_lookup in Hin as [j Hj].
  destruct (Forall2_lookup_l _ _ _ _ _ Hids Hj) as (id & Hid & o' & Ho' & Hid').
  rewrite Ho in Ho'. simplify_eq. by eapply list_elem_of_lookup_2.
Qed.
End table.

(** ** Directories *)

Section directories.
Context {N K : Type}.
Implicit Types (s : FS N K) (t : Objects) (o : Object).

(** The same object, up to the list of children of a directory. *)
Definition relisted o o' : Prop :=
  o' = o \/ exists cs cs', variant o = DirectoryVariant cs /\ o' = o <| variant := DirectoryVariant cs' |>.

Lemma relisted_trans o1 o2 o3 : relisted o1 o2 -> relisted o2 o3 -> relisted o1 o3.
Proof.
  intros [->|(cs & cs' & H1 & ->)]; [done|]. intros [->|(cs2 & cs2' & H2 & ->)].
  - right. by exists cs, cs'.
  - right. by exists cs, cs2'.
Qed.

Lemma relisted_drop a o : relisted o (drop_child a o).
Proof. unfold relisted, drop_child. destruct (variant o) eqn:H; try (by left). right. by eexists _, _. Qed.

Lemma relisted_typed o o' : relisted o o' -> typed o -> typed o'.
Proof. intros [->|(cs & cs' & Hv & ->)]; [done|]. unfold typed. simp_fields. by rewrite Hv. Qed.

Lemma relisted_objId o o' : relisted o o' -> objId o' = objId o.
Proof. by intros [->|(cs & cs' & Hv & ->)]. Qed.

Lemma relisted_file o o' f : relisted o o' -> variant o = FileVariant f -> o' = o.
Proof. intros [->|(cs & cs' & Hv & ->)]; [done|]. by rewrite Hv. Qed.

Lemma child_drop a o c : child_of (drop_child a o) c <-> child_of o c /\ c <> a.
Proof.
  unfold drop_child, child_of. destruct (variant o) eqn:Hv; simp_fields; try rewrite Hv;
    try (split; [intros (cs & ? & _)|intros [(cs & ? & _) _]]; done).
  split.
  - intros (cs & [= <-] & [Hc Hin]%list_elem_of_filter). split; [by eexists|done].
  - intros [(cs & [= <-] & Hin) Hc]. eexists. split; [done|]. by apply list_elem_of_filter.
Qed.

Lemma in_directory_spec (m : gmap Z Object) a :
  in_directory m a = true <-> exists d o, m !! d = Some o /\ child_of o a.
Proof.
  unfold in_directory. rewrite existsb_exists. split.
  - intros ([d o] & Hin%list_elem_of_In%elem_of_map_to_list & Hc). exists d, o. split; [done|].
    unfold has_child in Hc. simpl in Hc. destruct (variant o) eqn:Hv; try done.
    apply bool_decide_eq_true in Hc. by eexists.
  - intros (d & o & Hd & cs & Hv & Hin). exists (d, o).
    split; [by apply list_elem_of_In, elem_of_map_to_list|]. unfold has_child. simpl. rewrite Hv.
    by apply bool_decide_eq_true.
Qed.

(** A change of objects that keeps numbers, types and what the lists rely on. *)
Record same_hash t t' : Prop := {
  sh_bucket : objectBucket t' = objectBucket t;
  sh_free : freeObjects t' = freeObjects t;
  sh_count : nFreeObjects t' = nFreeObjects t;
  sh_nice : niceBucket t' = niceBucket t
}.

Lemma same_hash_hashed t t' a : same_hash t t' -> hashed t' a <-> hashed t a.
Proof. intros [H _ _ _]. unfold hashed. by rewrite H. Qed.

Lemma table_ok_objects t t' :
  table_ok t -> same_hash t t' ->
  (forall x, is_Some (objects t !! x) -> is_Some (objects t' !! x)) ->
  (forall x o', objects t' !! x = Some o' -> exists o, objects t !! x = Some o /\
    objId o' = objId o /\ (hashed t x -> typed o -> typed o') /\
    forall c, child_of o' c -> child_of o c \/ is_Some (objects t !! c) /\ c ∉ freeObjects t) ->
  table_ok t'.
Proof.
  intros Ht Hsh Hdom Hobj. pose proof (same_hash_hashed t t') as Hh. pose proof Hsh as [Hb Hf Hc Hn].
  destruct Ht as [T1 T2 T3 T4 T5 T6 T7 T8]. split.
  - by rewrite Hb.
  - intros i b Hi. rewrite Hb in Hi. destruct (T2 i b Hi) as (Hnd & Hcnt & Hl).
    split; [done|]. split; [done|]. apply Forall_forall. intros a Ha.
    pose proof (proj1 (Forall_forall _ _) Hl a Ha) as (Ha0 & o & Ho & Hho & Hty).
    split; [done|]. destruct (Hdom a) as [o' Ho']; [by eexists|].
    destruct (Hobj a o' Ho') as (o2 & Ho2 & Hid & Hty' & _). rewrite Ho in Ho2. simplify_eq.
    exists o'. split; [done|]. split; [by rewrite Hid|]. apply Hty'; [by exists i, b|done].
  - intros a a' o o' Ha Ha' Ho Ho' Hid. apply Hh in Ha, Ha'; [|done..].
    destruct (Hobj a o Ho) as (o1 & Ho1 & Hid1 & _). destruct (Hobj a' o' Ho') as (o2 & Ho2 & Hid2 & _).
    apply (T3 a a' o1 o2); try done. by rewrite <- Hid1, <- Hid2.
  - by rewrite Hf.
  - by rewrite Hf, Hc.
  - intros a Ha. rewrite Hf in Ha. destruct (T6 a Ha) as (Ha0 & Hnh & Hnc). split; [done|].
    split; [by rewrite Hh|]. intros d o Hd Hch. destruct (Hobj d o Hd) as (o1 & Ho1 & _ & _ & Hc1).
    destruct (Hc1 a Hch) as [Hch1|[_ Hnf]]; [by eapply Hnc|done].
  - intros d o a Hd Hch. apply Hdom. destruct (Hobj d o Hd) as (o1 & Ho1 & _ & _ & Hc1).
    destruct (Hc1 a Hch) as [Hch1|[Hs _]]; [by eapply T7|done].
  - by rewrite Hn.
Qed.

(** A change of one object that keeps its number, type and children. *)
Lemma table_ok_mod t a o f :
  table_ok t -> objects t !! a = Some o -> objId (f o) = objId o -> (hashed t a -> typed (f o)) ->
  (forall c, child_of (f o) c -> child_of o c) ->
  table_ok (t <| objects ::= <[a := f o]> |>).
Proof.
  intros Ht Ho Hid Hty Hch. apply (table_ok_objects t); [done|by split|..]; simp_fields.
  - intros x Hx. destruct (decide (x = a)) as [->|Hne]; [by rewrite lookup_insert_eq|by rewrite lookup_insert_ne].
  - intros x o' Hx. apply lookup_insert_Some in Hx as [[<- <-]|[Hne Hx]].
    + exists o. split; [done|]. split; [done|]. split; [intros Hh _; by apply Hty|]. intros c Hc. left. by apply Hch.
    + exists o'. split; [done|]. split; [done|]. split; [done|]. intros c Hc. by left.
Qed.

(** The object [o] once it hangs in directory [d]. *)
Definition adopted t (d : Z) o : Object :=
  let o := o <| parent := d |> in
  if (d =? unlinkedDir t) || (d =? deletedDir t)
  then o <| unlinked := true |> <| renameAllowed := false |> else o.

(** What is neither in an object nor in the hash table. *)
Definition same_dirs t t' : Prop :=
  rootDir t' = rootDir t /\ lostNFoundDir t' = lostNFoundDir t /\
  unlinkedDir t' = unlinkedDir t /\ deletedDir t' = deletedDir t /\
  allocatedObjectList t' = allocatedObjectList t /\ nObjectsCreated t' = nObjectsCreated t.

(** Object [a] has moved to directory [d]: it hangs there and nowhere else, no other object
    moved, and the objects are what they were. *)
Record moved t t' (a d : Z) : Prop := {
  mv_hash : same_hash t t';
  mv_dirs : same_dirs t t';
  mv_dom : forall x, is_Some (objects t' !! x) <-> is_Some (objects t !! x);
  mv_other : forall x o o', x <> a -> objects t !! x = Some o -> objects t' !! x = Some o' -> relisted o o';
  mv_self : forall o o', objects t !! a = Some o -> objects t' !! a = Some o' -> relisted (adopted t d o) o';
  mv_child : forall x o o' c, objects t !! x = Some o -> objects t' !! x = Some o' ->
    child_of o' c <-> if decide (c = a) then x = d else child_of o c
}.

Lemma moved_ok t t' a d :
  table_ok t -> is_Some (objects t !! a) -> a ∉ freeObjects t -> moved t t' a d -> table_ok t'.
Proof.
  intros Ht [oa Ha] Hfree [Hsh _ Hdom Hoth Hself Hch]. apply (table_ok_objects t); [done|done|apply Hdom|].
  intros x o' Ho'. destruct (proj1 (Hdom x)) as [o Ho]; [by eexists|]. exists o. split; [done|].
  assert (Hr : exists o1, (o1 = o \/ o1 = adopted t d o) /\ relisted o1 o').
  { destruct (decide (x = a)) as [->|Hne]; [exists (adopted t d o); auto|exists o; eauto]. }
  destruct Hr as (o1 & Ho1 & Hr).
  assert (objId o1 = objId o /\ (typed o -> typed o1)) as [Hid Hty].
  { destruct Ho1 as [->| ->]; [done|]. unfold adopted. by destruct (_ || _). }
  split; [by rewrite (relisted_objId o1)|]. split; [intros _ Hto; eapply relisted_typed; eauto|].
  intros c Hc. apply (Hch x o o' c Ho Ho') in Hc. destruct (decide (c = a)) as [->|]; [|by left].
  right. by split; [eexists|].
Qed.

(** Taking the object out of the list it is in. *)
Lemma RemoveObjectFromDirectory_run s a oa :
  objects (obs s) !! a = Some oa ->
  wp (yaffs_RemoveObjectFromDirectory a) (fun _ s' =>
    s' = s <| obs ::= fun t => t <| objects :=
      <[a := (drop_child a oa) <| parent := 0 |>]> (drop_child a <$> objects t) |> |>) s.
Proof.
  intros Ha. unfold yaffs_RemoveObjectFromDirectory, list_del_sibling, modO.
  apply wp_bind, wp_modify. apply (wp_mod_obj a (drop_child a oa)); [simp_fields; by rewrite lookup_fmap, Ha|].
  destruct s as [? ? [] ?]. done.
Qed.

Lemma not_in_directory (m : gmap Z Object) a :
  in_directory m a = false -> forall d o, m !! d = Some o -> ~ child_of o a.
Proof.
  intros H d o Hd Hc. apply not_true_iff_false in H. apply H, in_directory_spec. by exists d, o.
Qed.

Lemma relisted_adopted t d o o' : relisted o o' -> relisted (adopted t d o) (adopted t d o').
Proof.
  intros [->|(cs & cs' & Hv & ->)]; [by left|]. right. exists cs, cs'. unfold adopted.
  by destruct (_ || _).
Qed.

(** Only the object table changes. *)
Definition only_objects s s' : Prop := dev s' = dev s /\ tns s' = tns s /\ caches s' = caches s.

Lemma AddObjectToDirectory_spec s d a od oa cs :
  objects (obs s) !! d = Some od -> variant od = DirectoryVariant cs ->
  objects (obs s) !! a = Some oa -> a <> d ->
  wp (yaffs_AddObjectToDirectory d a) (fun _ s' =>
    only_objects s s' /\ moved (obs s) (obs s') a d) s.
Proof.
  intros Hd Hv Ha Had. unfold yaffs_AddObjectToDirectory, getO.
  apply wp_bind, wp_get_obj with od; [done|]. apply wp_bind, wp_gets.
  (* out of the directory it was in *)
  apply (wp_seq _ _ (fun _ s1 => exists (m : gmap Z Object) cs1 oa1, s1 = (s <| obs := ((obs s) <| objects := m |>) |>) /\
    m !! d = Some (od <| variant := DirectoryVariant cs1 |>) /\
    m !! a = Some oa1 /\ relisted (oa <| parent := parent oa1 |>) oa1 /\
    (forall x, is_Some (m !! x) <-> is_Some (objects (obs s) !! x)) /\
    (forall x o o', x <> a -> objects (obs s) !! x = Some o -> m !! x = Some o' -> relisted o o') /\
    (forall x o o' c, objects (obs s) !! x = Some o -> m !! x = Some o' ->
      child_of o' c <-> c <> a /\ child_of o c))).
  { apply wp_when. destruct (in_directory (objects (obs s)) a) eqn:Hin.
    - eapply wp_mono; [by apply (RemoveObjectFromDirectory_run s a oa)|]. intros _ s1 ->.
      eexists _, (filter (fun c => c <> a) cs), ((drop_child a oa) <| parent := 0 |>).
      split; [by destruct s|].
      assert (Hdd : drop_child a od = od <| variant := DirectoryVariant (filter (fun c => c <> a) cs) |>)
        by (unfold drop_child; by rewrite Hv).
      split; [rewrite lookup_insert_ne by done; rewrite lookup_fmap, Hd; simpl; by rewrite Hdd|].
      split; [apply lookup_insert_eq|]. split.
      { unfold drop_child. destruct (variant oa) eqn:Hva; try (left; by destruct oa).
        right. eexists _, _. split; [exact Hva|]. by destruct oa. }
      split; [|split].
      + intros x. destruct (decide (x = a)) as [->|Hne]; [rewrite lookup_insert_eq|rewrite lookup_insert_ne by done].
        * split; [by eexists|done].
        * rewrite lookup_fmap. by destruct (objects (obs s) !! x).
      + intros x o o' Hne Ho. rewrite lookup_insert_ne, lookup_fmap, Ho by done. intros [= <-].
        apply relisted_drop.
      + intros x o o' c Ho Ho'. assert (Hc : child_of o' c <-> child_of (drop_child a o) c).
        { apply lookup_insert_Some in Ho' as [[<- <-]|[Hne Ho']].
          - rewrite Ha in Ho. by injection Ho as <-.
          - rewrite lookup_fmap, Ho in Ho'. by injection Ho' as <-. }
        rewrite Hc, child_drop. tauto.
    - exists (objects (obs s)), cs, oa. split; [by destruct s as [? ? [] ?]|].
      split; [rewrite Hd; f_equal; by destruct od; simpl in Hv; subst|]. split; [done|].
      split; [left; by destruct oa|]. split; [done|]. split.
      + intros x o o' _ Ho Ho'. rewrite Ho in Ho'. injection Ho' as <-. by left.
      + intros x o o' c Ho Ho'. rewrite Ho in Ho'. injection Ho' as <-. split; [|tauto].
        intros Hc. split; [|done]. intros ->. by eapply not_in_directory. }
  intros _ s1 (m & cs1 & oa1 & -> & Hmd & Hma & Hra & Hdom & Hoth & Hch).
  unfold get_children. apply wp_bind, wp_bind, wp_get_obj with (od <| variant := DirectoryVariant cs1 |>); [done|].
  apply wp_ret. apply wp_bind, (wp_mod_obj d (od <| variant := DirectoryVariant cs1 |>)); [exact Hmd|]. simp_fields.
  apply wp_bind, (wp_mod_obj a oa1); [simp_fields; by rewrite lookup_insert_ne|].
  unfold modO. do 2 apply wp_bind, wp_gets.
  apply (wp_mono _ (fun _ s' => only_objects s s' /\ same_hash (obs s) (obs s') /\
    same_dirs (obs s) (obs s') /\ objects (obs s') =
      <[a := adopted (obs s) d oa1]> (<[d := od <| variant := DirectoryVariant (a :: cs1) |>]> m))).
  { apply wp_when. simp_fields. unfold adopted. destruct (_ || _).
    - apply wp_bind, (wp_mod_obj a (oa1 <| parent := d |>)); [simp_fields; apply lookup_insert_eq|].
      apply wp_bind, wp_modify. eapply wp_mod_obj; [simp_fields; apply lookup_insert_eq|].
      split; [done|]. split; [by split|]. split; [done|]. simp_fields. by rewrite !insert_insert_eq.
    - split; [done|]. split; [by split|]. done. }
  intros _ s' (Hrest & Hsh & Hdirs & Hobj). split; [done|].
  assert (Hlk : forall x o', objects (obs s') !! x = Some o' ->
    (x = a /\ o' = adopted (obs s) d oa1) \/
    (x = d /\ x <> a /\ o' = od <| variant := DirectoryVariant (a :: cs1) |>) \/
    (x <> a /\ x <> d /\ m !! x = Some o')).
  { intros x o'. rewrite Hobj. intros [[<- <-]|[Hxa Hx]]%lookup_insert_Some; [by left|right].
    apply lookup_insert_Some in Hx as [[<- <-]|[Hxd Hx]]; [by left|by right]. }
  assert (Hcl : forall o' c, child_of (adopted (obs s) d o') c <-> child_of o' c).
  { intros o' c. unfold adopted, child_of. by destruct (_ || _). }
  split; [done|done|..].
  - intros x. rewrite Hobj. destruct (decide (x = a)) as [->|Hxa].
    { rewrite lookup_insert_eq, Ha. split; by eexists. }
    rewrite lookup_insert_ne by done. destruct (decide (x = d)) as [->|Hxd].
    { rewrite lookup_insert_eq, Hd. split; by eexists. }
    rewrite lookup_insert_ne by done. apply Hdom.
  - intros x o o' Hxa Ho Ho'. destruct (Hlk x o' Ho') as [[-> _]|[(-> & _ & ->)|(_ & _ & Hm)]]; [done| |].
    + rewrite Hd in Ho. injection Ho as <-. right. by eexists _, _.
    + by apply (Hoth x).
  - intros o o' Ho Ho'. rewrite Ha in Ho. injection Ho as <-.
    destruct (Hlk a o' Ho') as [[_ ->]|[(_ & ? & _)|(? & _ & _)]]; [|done|done].
    apply (relisted_adopted (obs s) d) in Hra. exact Hra.
  - intros x o o' c Ho Ho'. destruct (Hlk x o' Ho') as [[-> ->]|[(-> & _ & ->)|(_ & Hxd & Hm)]].
    + rewrite Hcl, (Hch a o oa1 c Ho Hma). destruct (decide (c = a)); [|tauto].
      split; [tauto|by intros ->].
    + pose proof (Hch d o _ c Ho Hmd) as Hc. unfold child_of in Hc at 1. simp_fields_in Hc.
      assert (Hl : child_of (od <| variant := DirectoryVariant (a :: cs1) |>) c <-> c = a \/ c ∈ cs1).
      { unfold child_of. simp_fields. split.
        - intros (? & [= <-] & [->|H]%elem_of_cons); auto.
        - intros H. eexists. split; [done|]. apply elem_of_cons. tauto. }
      assert (Hc' : c ∈ cs1 <-> c <> a /\ child_of o c).
      { rewrite <- Hc. split; [intros H; by eexists|by intros (? & [= <-] & H)]. }
      rewrite Hl, Hc'. destruct (decide (c = a)); tauto.
    + rewrite (Hch x o o' c Ho Hm). destruct (decide (c = a)); [|tauto]. tauto.
Qed.
End directories.

(** ** Directories *)

Definition same_roots (t t' : Objects) : Prop :=
  rootDir t' = rootDir t /\ lostNFoundDir t' = lostNFoundDir t /\
  unlinkedDir t' = unlinkedDir t /\ deletedDir t' = deletedDir t.

(** Parents and children of the objects in use match, and the built-in directories are there. *)
Record dirs_ok (t : Objects) : Prop := {
  do_parent : forall a o, hashed t a -> objects t !! a = Some o -> parent o <> 0 ->
    hashed t (parent o) /\ exists od, objects t !! parent o = Some od /\ child_of od a;
  do_child : forall d od c, hashed t d -> objects t !! d = Some od -> child_of od c ->
    hashed t c /\ exists oc, objects t !! c = Some oc /\ parent oc = d;
  do_roots : forall d, d ∈ [rootDir t; lostNFoundDir t; unlinkedDir t; deletedDir t] ->
    hashed t d /\ exists od cs, objects t !! d = Some od /\ variant od = DirectoryVariant cs /\ deleted od = false;
  do_distinct : unlinkedDir t <> deletedDir t
}.

(** The same children. *)
Definition same_children (o o' : Object) : Prop :=
  forall cs, variant o' = DirectoryVariant cs <-> variant o = DirectoryVariant cs.

Lemma same_children_of o o' c : same_children o o' -> child_of o' c <-> child_of o c.
Proof. intros H. split; intros (cs & Hv & Hc); exists cs; split; [by apply H|done|by apply H|done]. Qed.

(** Changes that leave parents and children alone. *)
Lemma dirs_ok_same t t' :
  dirs_ok t -> same_roots t t' -> (forall x, hashed t' x <-> hashed t x) ->
  (forall x o, hashed t x -> objects t !! x = Some o -> exists o', objects t' !! x = Some o' /\
    parent o' = parent o /\ deleted o' = deleted o /\ same_children o o') ->
  (forall x o', hashed t x -> objects t' !! x = Some o' -> is_Some (objects t !! x)) -> dirs_ok t'.
Proof.
  intros [Hp Hc Hr Hd] (R1 & R2 & R3 & R4) Hh Ho Hb.
  assert (Hlk : forall x o', hashed t x -> objects t' !! x = Some o' -> exists o, objects t !! x = Some o /\
    parent o' = parent o /\ same_children o o').
  { intros x o' Hx Ho'. destruct (Hb x o' Hx Ho') as [o Hxo]. destruct (Ho x o Hx Hxo) as (o2 & H2 & H3 & _ & H4).
    exists o. rewrite Ho' in H2. by injection H2 as <-. }
  split.
  - intros a o' Ha%Hh Ho' Hne. destruct (Hlk a o' Ha Ho') as (o & Hao & Hpar & _). rewrite Hpar in *.
    destruct (Hp a o Ha Hao Hne) as (Hph & od & Hod & Hch). destruct (Ho _ od Hph Hod) as (od' & Hod' & _ & _ & Hsc).
    split; [by apply Hh|]. exists od'. split; [done|]. by apply (same_children_of od od').
  - intros d od' c Hdh%Hh Hod' Hch. destruct (Hlk d od' Hdh Hod') as (od & Hod & _ & Hsc).
    apply (same_children_of od od') in Hch; [|done]. destruct (Hc d od c Hdh Hod Hch) as (Hch2 & oc & Hoc & Hpar).
    destruct (Ho c oc Hch2 Hoc) as (oc' & Hoc' & Hpar' & _). split; [by apply Hh|]. exists oc'. split; [done|congruence].
  - intros d Hin. rewrite R1, R2, R3, R4 in Hin. destruct (Hr d Hin) as (Hdh & od & cs & Hod & Hv & Hdel).
    destruct (Ho d od Hdh Hod) as (od' & Hod' & _ & Hdel' & Hsc). split; [by apply Hh|]. exists od', cs.
    split; [done|]. split; [by apply Hsc|congruence].
  - by rewrite R3, R4.
Qed.

(** Object [a], in use before or new, hangs in [d] and nowhere else. *)
Lemma dirs_ok_hang t t' a d od csd :
  dirs_ok t -> same_roots t t' -> (forall x, hashed t' x <-> x = a \/ hashed t x) ->
  hashed t d -> objects t !! d = Some od -> variant od = DirectoryVariant csd ->
  (forall x o, hashed t x -> objects t !! x = Some o -> exists o', objects t' !! x = Some o' /\
    parent o' = (if decide (x = a) then d else parent o) /\ deleted o' = deleted o /\
    (forall cs, variant o = DirectoryVariant cs -> exists cs', variant o' = DirectoryVariant cs') /\
    forall c, child_of o' c <-> if decide (c = a) then x = d else child_of o c) ->
  (forall x o', hashed t x -> objects t' !! x = Some o' -> is_Some (objects t !! x)) ->
  (exists oa, objects t' !! a = Some oa /\ parent oa = d /\ (hashed t a \/ forall c, ~ child_of oa c)) ->
  dirs_ok t'.
Proof.
  intros [Hp Hc Hr Hd] (R1 & R2 & R3 & R4) Hh Hdh Hod Hvd Ho Hb (oa & Hoa & Hpa & Hself).
  destruct (Ho d od Hdh Hod) as (od' & Hod' & _ & _ & _ & Hcd). split.
  - intros x o' Hx Ho' Hne. destruct (decide (x = a)) as [->|Hxa].
    + rewrite Hoa in Ho'. injection Ho' as <-. rewrite Hpa. split; [apply Hh; by right|].
      exists od'. split; [done|]. apply Hcd. by rewrite decide_True.
    + apply Hh in Hx as [->|Hx]; [done|]. destruct (Hb x o' Hx Ho') as [o Hxo].
      destruct (Ho x o Hx Hxo) as (o2 & Ho2 & Hpar & _). rewrite Ho' in Ho2. injection Ho2 as <-.
      rewrite decide_False in Hpar by done. rewrite Hpar in *.
      destruct (Hp x o Hx Hxo Hne) as (Hph & op & Hop & Hch). split; [apply Hh; by right|].
      destruct (Ho _ op Hph Hop) as (op' & Hop' & _ & _ & _ & Hcp). exists op'. split; [done|].
      apply Hcp. by rewrite decide_False.
  - intros y oy' c Hy Hoy' Hch. assert (Hyt : hashed t y).
    { apply Hh in Hy as [->|Hy]; [|done]. rewrite Hoa in Hoy'. injection Hoy' as <-.
      destruct Hself as [?|Hno]; [done|by destruct (Hno c)]. }
    destruct (Hb y oy' Hyt Hoy') as [oy Hoy]. destruct (Ho y oy Hyt Hoy) as (oy2 & Hoy2 & _ & _ & _ & Hcy).
    rewrite Hoy' in Hoy2. injection Hoy2 as <-. apply Hcy in Hch. destruct (decide (c = a)) as [->|Hca].
    + subst y. split; [apply Hh; by left|]. by exists oa.
    + destruct (Hc y oy c Hyt Hoy Hch) as (Hct & oc & Hoc & Hpc). split; [apply Hh; by right|].
      destruct (Ho c oc Hct Hoc) as (oc' & Hoc' & Hpc' & _). rewrite decide_False in Hpc' by done.
      exists oc'. split; [done|congruence].
  - intros x Hin. rewrite R1, R2, R3, R4 in Hin. destruct (Hr x Hin) as (Hx & o & cs & Hxo & Hv & Hdel).
    destruct (Ho x o Hx Hxo) as (o' & Ho' & _ & Hdel' & Hdir & _). split; [apply Hh; by right|].
    destruct (Hdir cs Hv) as [cs' Hv']. exists o', cs'. split; [done|]. split; [done|congruence].
  - by rewrite R3, R4.
Qed.

Lemma dirs_ok_moved t t' a d oa od csd :
  dirs_ok t -> moved t t' a d -> hashed t a -> objects t !! a = Some oa -> a <> d ->
  hashed t d -> objects t !! d = Some od -> variant od = DirectoryVariant csd -> dirs_ok t'.
Proof.
  intros Hdo Hmv Ha Hoa Had Hdh Hod Hvd. pose proof Hmv as [Hsh (R1 & R2 & R3 & R4 & _) Hdom Hmo Hms Hmc].
  assert (Hobj : forall x o, objects t !! x = Some o -> exists o', objects t' !! x = Some o' /\
    parent o' = (if decide (x = a) then d else parent o) /\ deleted o' = deleted o /\
    (forall cs, variant o = DirectoryVariant cs -> exists cs', variant o' = DirectoryVariant cs')).
  { intros x o Ho. destruct (proj2 (Hdom x)) as [o' Ho']; [by eexists|]. exists o'. split; [done|].
    assert (Hr : exists o1, relisted o1 o' /\ parent o1 = (if decide (x = a) then d else parent o) /\
      deleted o1 = deleted o /\ variant o1 = variant o).
    { destruct (decide (x = a)) as [->|Hxa].
      - exists (adopted t d o). split; [by apply Hms|]. unfold adopted. by destruct (_ || _).
      - exists o. split; [by apply (Hmo x)|done]. }
    destruct Hr as (o1 & [->|(cs & cs' & Hv & ->)] & H1 & H2 & H3).
    - split; [done|]. split; [done|]. intros cs Hcs. exists cs. by rewrite H3.
    - split; [done|]. split; [done|]. intros _ _. by exists cs'. }
  apply (dirs_ok_hang t t' a d od csd); [done|done| |done..| | |].
  - intros x. rewrite (same_hash_hashed t t' x Hsh). split; [by right|]. by intros [->|].
  - intros x o Hx Ho. destruct (Hobj x o Ho) as (o' & Ho' & H1 & H2 & H3). exists o'.
    split; [done|]. split; [done|]. split; [done|]. split; [done|]. intros c. by apply (Hmc x o o' c).
  - intros x o' _ Ho'. apply Hdom. by eexists.
  - destruct (Hobj a oa Hoa) as (o' & Ho' & H1 & _). rewrite decide_True in H1 by done. exists o'. auto.
Qed.

(** ** New objects *)

Section creation.
Context {N K : Type} `{!Kmalloc K} `{!KmallocLaws K} `{!Clock K} (cfg : Config) (Hcfg : tn_cfg_ok cfg).
Implicit Types (s : FS N K) (o : Object).

(** The books of tnodes and objects. *)
Record mem_ok s (U : gset Z) (l : list Z) : Prop := {
  mo_store : store_ok cfg (tns s) U l;
  mo_table : table_ok (obs s);
  mo_owned : table_owned (heap (tns s)) (obs s)
}.

Lemma store_ok_heap (s : Tnodes K) U l k' :
  store_ok cfg s U l -> (forall a, owned (heap s) a -> owned k' a) -> store_ok cfg (s <| heap := k' |>) U l.
Proof. intros [] Hk. split; simp_fields; auto. Qed.

(** Kernel memory was allocated or given back; what lies in memory is as before. *)
Definition heap_moved (t t' : Tnodes K) : Prop :=
  exists k', t' = t <| heap := k' |> /\ forall a, owned (heap t) a -> owned k' a.

Lemma heap_moved_trans (t1 t2 t3 : Tnodes K) : heap_moved t1 t2 -> heap_moved t2 t3 -> heap_moved t1 t3.
Proof. intros (k & -> & Hk) (k' & -> & Hk'). exists k'. split; [done|]. intros a Ha. apply Hk', Hk, Ha. Qed.

Lemma heap_moved_store (t t' : Tnodes K) U l : store_ok cfg t U l -> heap_moved t t' -> store_ok cfg t' U l.
Proof. intros Ht (k & -> & Hk). by apply store_ok_heap. Qed.

Lemma wp_YMALLOC n (Q : Z -> FS N K -> Prop) s :
  Q (fst (ymalloc n (heap (tns s)))) (s <| tns ::= fun t => t <| heap := snd (ymalloc n (heap t)) |> |>) ->
  wp (on_tns (YMALLOC n)) Q s.
Proof. intros HQ. apply wp_on_tns. unfold wp. by rewrite YMALLOC_run. Qed.

Lemma wp_YFREE p (Q : unit -> FS N K -> Prop) s :
  Q tt (s <| tns ::= fun t => t <| heap ::= yfree p |> |>) -> wp (on_tns (YFREE p)) Q s.
Proof. intros HQ. by apply wp_on_tns, wp_modify. Qed.

(** Everything but the free list of objects and the kernel's memory. *)
Record same_objects s s' : Prop := {
  so_dev : dev s' = dev s;
  so_caches : caches s' = caches s;
  so_tns : heap_moved (tns s) (tns s');
  so_objects : objects (obs s') = objects (obs s);
  so_bucket : objectBucket (obs s') = objectBucket (obs s);
  so_nice : niceBucket (obs s') = niceBucket (obs s);
  so_dirs : rootDir (obs s') = rootDir (obs s) /\ lostNFoundDir (obs s') = lostNFoundDir (obs s) /\
    unlinkedDir (obs s') = unlinkedDir (obs s) /\ deletedDir (obs s') = deletedDir (obs s)
}.

(** The kernel refuses the memory of another bunch of objects, or of its list entry. *)
Definition objects_refused s : Prop :=
  let '(p, k) := ymalloc (YAFFS_ALLOCATION_NOBJECTS * sizeof_Object) (heap (tns s)) in
  p = 0 \/ fst (ymalloc sizeof_ObjectList k) = 0.

(** A bunch of new objects on the free list. *)
Lemma table_ok_bunch (t : Objects) l n k k' :
  table_ok t -> table_owned k t -> NoDup l -> Z.of_nat (length l) = n ->
  (forall a, a ∈ l -> a <> 0 /\ ~ owned k a /\ owned k' a) -> (forall a, owned k a -> owned k' a) ->
  table_ok (t <| freeObjects ::= app l |> <| nFreeObjects ::= Z.add n |>
    <| nObjectsCreated ::= Z.add n |>) /\
  table_owned k' (t <| freeObjects ::= app l |> <| nFreeObjects ::= Z.add n |>
    <| nObjectsCreated ::= Z.add n |>).
Proof.
  intros Ht Hown Hnd Hlen Hl Hk.
  assert (Hobj : forall a, a ∈ l -> objects t !! a = None).
  { intros a Ha. destruct (objects t !! a) eqn:Ho; [|done]. destruct (Hl a Ha) as (_ & Hno & _).
    destruct Hno. apply Hown. left. by eexists. }
  assert (Hfr : forall a, a ∈ l -> a ∉ freeObjects t).
  { intros a Ha Hin. destruct (Hl a Ha) as (_ & Hno & _). destruct Hno. apply Hown. by right. }
  split.
  - pose proof Ht as [T1 T2 T3 T4 T5 T6 T7 T8]. split; simp_fields; try done.
    + apply NoDup_app. split; [done|]. split; [done|done].
    + rewrite length_app, T5. lia.
    + intros a [Ha|Ha]%elem_of_app; [|by apply T6]. destruct (Hl a Ha) as (Ha0 & _). split; [done|].
      split.
      * intros Hh. destruct (hashed_linked t a Ht Hh) as (i & b & _ & _ & _ & o & Ho & _).
        by rewrite (Hobj a Ha) in Ho.
      * intros d o Hd Hc. destruct (T7 d o a Hd Hc) as [o' Ho']. by rewrite (Hobj a Ha) in Ho'.
  - intros a. simp_fields. intros [Ha|[Ha|Ha]%elem_of_app].
    + apply Hk, Hown. by left.
    + by apply Hl.
    + apply Hk, Hown. by right.
Qed.

Lemma bunch_nodup p n : NoDup ((fun i => p + i * sizeof_Object) <$> seqZ 0 n).
Proof. apply NoDup_fmap_2_strong; [|apply NoDup_seqZ]. unfold sizeof_Object. intros; lia. Qed.

Lemma CreateFreeObjects_spec s U l :
  let n := YAFFS_ALLOCATION_NOBJECTS in
  mem_ok s U l ->
  wp (yaffs_CreateFreeObjects n) (fun _ s' => mem_ok s' U l /\ same_objects s s' /\
    exists new, freeObjects (obs s') = new ++ freeObjects (obs s) /\ (new = [] <-> objects_refused s)) s.
Proof.
  intros n [Hst Ht Hown]. assert (Hn : 0 < n) by done. unfold yaffs_CreateFreeObjects. rewrite (proj2 (Z.ltb_ge n 1)) by lia.
  assert (Href : objects_refused s <-> fst (ymalloc (n * sizeof_Object) (heap (tns s))) = 0 \/
    fst (ymalloc sizeof_ObjectList (snd (ymalloc (n * sizeof_Object) (heap (tns s))))) = 0).
  { unfold objects_refused. fold n. by destruct (ymalloc _ _). }
  clearbody n.
  set (k := heap (tns s)) in *. set (sz := n * sizeof_Object) in *.
  set (k1 := snd (ymalloc sz k)). set (k2 := snd (ymalloc sizeof_ObjectList k1)).
  set (p := fst (ymalloc sz k)). set (q := fst (ymalloc sizeof_ObjectList k1)).
  assert (Hk2 : forall a, owned k a -> owned k2 a) by (intros a Ha; by apply ymalloc_keeps, ymalloc_keeps).
  apply wp_bind, wp_YMALLOC. apply wp_bind, wp_YMALLOC. simp_fields. fold k. fold p k1. fold q. unfold modO.
  assert (Hrest : forall k', (forall a, owned k a -> owned k' a) ->
    mem_ok (s <| tns ::= fun t => t <| heap := k' |> |>) U l /\
    same_objects s (s <| tns ::= fun t => t <| heap := k' |> |>)).
  { intros k' Hk'. split; [split|split]; simp_fields; try done.
    - by apply store_ok_heap.
    - intros a Ha. by apply Hk', Hown.
    - by exists k'. }
  apply wp_if. destruct ((p =? 0) || (q =? 0)) eqn:Hnull.
  - (* out of memory: what was allocated is given back *)
    assert (Hfree : forall k', k' = (if ztrue q then yfree q else id) ((if ztrue p then yfree p else id) k2) ->
      forall a, owned k a -> owned k' a).
    { intros k' -> a Ha. unfold ztrue.
      destruct (Z.eqb_spec p 0) as [Hp|Hp]; destruct (Z.eqb_spec q 0) as [Hq|Hq]; simpl; try done; [by apply Hk2|..].
      - apply yfree_keeps; [by apply Hk2|]. intros Hb. unfold k2 in Hb.
        destruct (ymalloc_fresh sizeof_ObjectList k1 Hq) as (_ & _ & Hfr).
        assert (Hrange : q <= q < q + sizeof_ObjectList) by (unfold sizeof_ObjectList; lia).
        destruct (ymalloc_block _ _ _ _ Hb) as [[_ Hr]|Hb'].
        + destruct (Hfr a Hr) as [Hno _]. by apply Hno, ymalloc_keeps.
        + apply owned_block in Hb'. by destruct (Hfr q Hrange).
      - apply yfree_keeps; [by apply Hk2|]. intros Hb. unfold k2 in Hb.
        destruct (ymalloc_fresh sz k Hp) as (_ & _ & Hfr).
        assert (Hrange : p <= p < p + sz) by (unfold sz, sizeof_Object; lia).
        destruct (ymalloc_block _ _ _ _ Hb) as [[Hpq _]|Hb1]; [by fold q in Hpq; congruence|].
        unfold k1 in Hb1. destruct (ymalloc_block _ _ _ _ Hb1) as [[_ Hr]|Hb'].
        + by destruct (Hfr a Hr).
        + apply owned_block in Hb'. by destruct (Hfr p Hrange). }
    specialize (Hfree _ eq_refl).
    apply wp_bind, wp_when. destruct (ztrue p); [apply wp_YFREE|]; apply wp_bind, wp_when;
      (destruct (ztrue q); [apply wp_YFREE|]); apply wp_ret; destruct (Hrest _ Hfree) as [H1 H2];
      (split; [exact H1|split; [exact H2|exists []; split; [done|]]]; split; [|done]; intros _; apply Href;
       by apply orb_true_iff in Hnull as [?%Z.eqb_eq|?%Z.eqb_eq]; [left|right]).
  - apply orb_false_iff in Hnull as [Hp%Z.eqb_neq Hq%Z.eqb_neq].
    repeat (apply wp_bind, wp_modify). apply wp_ret.
    destruct (ymalloc_fresh sz k Hp) as (Hp0 & _ & Hfr). fold p in Hfr, Hp0.
    destruct (table_ok_bunch (obs s) ((fun i => p + i * sizeof_Object) <$> seqZ 0 n) n k k2)
      as [Ht' Hown']; try done.
    + apply bunch_nodup.
    + rewrite length_fmap, length_seqZ. lia.
    + intros a (i & -> & Hi%elem_of_seqZ)%list_elem_of_fmap. unfold sz, sizeof_Object in *.
      destruct (Hfr (p + i * 124)) as [Hno Hyes]; [nia|]. split; [lia|]. split; [done|]. by apply ymalloc_keeps.
    + split; [|split; [|eexists; split; [done|]]].
      * split; [exact (store_ok_heap (tns s) U l k2 Hst Hk2)|destruct Ht'; by split|exact Hown'].
      * split; try done. by exists k2.
      * split; [intros He%(f_equal length); rewrite length_fmap, length_seqZ in He; simpl in He; lia|]. intros [?|?]%Href; [by destruct Hp|by destruct Hq].
Qed.
End creation.

Section creation2.
Context {N K : Type} `{!Kmalloc K} `{!KmallocLaws K} `{!Clock K} (cfg : Config) (Hcfg : tn_cfg_ok cfg).
Implicit Types (s : FS N K) (o : Object).

Lemma table_ok_pop (t : Objects) a rest o :
  table_ok t -> freeObjects t = a :: rest -> (forall c, ~ child_of o c) ->
  table_ok (t <| freeObjects := rest |> <| nFreeObjects ::= Z.pred |> <| objects ::= <[a := o]> |>).
Proof.
  intros Ht Hf Ho. pose proof Ht as [T1 T2 T3 T4 T5 T6 T7 T8].
  destruct (T6 a) as (Ha0 & Hnh & Hnc); [rewrite Hf; by left|].
  rewrite Hf in T4. apply NoDup_cons in T4 as [Hna Hnd].
  assert (Hlk : forall x, hashed t x -> <[a := o]> (objects t) !! x = objects t !! x).
  { intros x Hx. apply lookup_insert_ne. by intros ->. }
  split; simp_fields; try done.
  - intros i b Hi. destruct (T2 i b Hi) as (H1 & H2 & H3). split; [done|]. split; [done|].
    apply Forall_forall. intros x Hx. pose proof (proj1 (Forall_forall _ _) H3 x Hx) as (Hx0 & ox & Hox & Hr).
    split; [done|]. exists ox. split; [|done]. simp_fields. rewrite Hlk; [done|by exists i, b].
  - intros x x' ox ox' Hx Hx' Hox Hox'. change (hashed t x) in Hx. change (hashed t x') in Hx'.
    rewrite Hlk in Hox, Hox' by done. by apply T3.
  - rewrite T5, Hf. simpl length. lia.
  - intros x Hx. destruct (T6 x) as (H1 & H2 & H3); [rewrite Hf; by right|]. split; [done|]. split; [done|].
    intros d od. intros [[<- <-]|[_ Hd]]%lookup_insert_Some; [apply Ho|by eapply H3].
  - intros d od x [[<- <-]|[_ Hd]]%lookup_insert_Some Hc; [by destruct (Ho x)|].
    destruct (decide (x = a)) as [->|Hne]; [by rewrite lookup_insert_eq|rewrite lookup_insert_ne by done].
    by eapply T7.
Qed.

(** An object no field of which is set, and where a new object hangs. *)
Definition clean_object : Object :=
  zero_object <| hdrChunk := -1 |> <| variantType := OBJECT_TYPE_UNKNOWN |>.
Definition new_object (t : Objects) : Object :=
  if lostNFoundDir t =? 0 then clean_object else adopted t (lostNFoundDir t) clean_object.

(** The lost-and-found directory, once there is one. *)
Definition lost_ok (t : Objects) : Prop :=
  lostNFoundDir t = 0 \/ hashed t (lostNFoundDir t) /\ exists o cs,
    objects t !! lostNFoundDir t = Some o /\ variant o = DirectoryVariant cs.

(** A new object [a] is there. *)
Record got_object s s' (a : Z) : Prop := {
  go_dev : dev s' = dev s;
  go_caches : caches s' = caches s;
  go_tns : heap_moved (tns s) (tns s');
  go_new : a <> 0 /\ ~ hashed (obs s) a /\ a ∉ freeObjects (obs s');
  go_bucket : objectBucket (obs s') = objectBucket (obs s);
  go_nice : niceBucket (obs s') = niceBucket (obs s);
  go_roots : same_roots (obs s) (obs s');
  go_self : objects (obs s') !! a = Some (new_object (obs s));
  go_other : forall x o, x <> a -> objects (obs s) !! x = Some o ->
    exists o', objects (obs s') !! x = Some o' /\ relisted o o';
  go_dir : lostNFoundDir (obs s) = 0 -> forall d o, objects (obs s') !! d = Some o -> ~ child_of o a;
  go_dom : forall x, x <> a -> is_Some (objects (obs s') !! x) -> is_Some (objects (obs s) !! x);
  go_child : lostNFoundDir (obs s) <> 0 -> forall x o o' c, x <> a -> objects (obs s) !! x = Some o ->
    objects (obs s') !! x = Some o' -> child_of o' c <-> if decide (c = a) then x = lostNFoundDir (obs s) else child_of o c
}.

Lemma relisted_clean (t : Objects) d o' : relisted (adopted t d clean_object) o' -> o' = adopted t d clean_object.
Proof. intros [->|(cs & cs' & Hv & ->)]; [done|]. exfalso. revert Hv. unfold adopted. by destruct (_ || _). Qed.

(** There is no object to be had. *)
Definition no_object s : Prop := freeObjects (obs s) = [] /\ objects_refused s.

Lemma AllocateEmptyObject_spec s U l :
  mem_ok cfg s U l -> lost_ok (obs s) ->
  wp yaffs_AllocateEmptyObject (fun a s' => mem_ok cfg s' U l /\
    (a = 0 /\ same_objects s s' /\ no_object s \/ got_object s s' a /\ ~ no_object s)) s.
Proof.
  intros Hm Hlost. unfold yaffs_AllocateEmptyObject, getO, modO. apply wp_bind, wp_gets.
  apply (wp_seq _ _ (fun _ s1 => (mem_ok cfg s1 U l /\ same_objects s s1) /\
    (freeObjects (obs s1) = [] <-> no_object s))).
  { destruct (freeObjects (obs s)) as [|x f] eqn:Hf.
    - eapply wp_seq; [by apply (CreateFreeObjects_spec cfg s U l)|].
      intros _ s1 (Hm1 & Hs1 & new & Hnew & Href). apply wp_ret. split; [done|].
      rewrite Hnew, Hf, app_nil_r, Href. unfold no_object. tauto.
    - apply wp_ret. unfold no_object. rewrite Hf. split; [split; [done|]|by split; [|intros [? _]]]. split; try done. exists (heap (tns s)). by destruct (tns s). }
  intros _ s1 [[[Hst1 Ht1 Hown1] Hs1] Hno]. pose proof Hs1 as [Hd1 Hc1 Hk1 Ho1 Hb1 Hn1 Hr1].
  assert (Hh : forall x, hashed (obs s1) x <-> hashed (obs s) x) by (intros x; unfold hashed; by rewrite Hb1).
  apply wp_bind, wp_gets. destruct (freeObjects (obs s1)) as [|a rest] eqn:Hf.
  { apply wp_ret. split; [by split|]. left. split; [done|]. split; [done|by apply Hno]. }
  assert (Hyes : ~ no_object s) by (by rewrite <- Hno).
  destruct (to_free _ Ht1 a) as (Ha0 & Hnh & Hnc); [rewrite Hf; by left|].
  assert (Hna : a ∉ rest).
  { pose proof (to_free_nodup _ Ht1) as Hnd. rewrite Hf in Hnd. by apply NoDup_cons in Hnd as [? _]. }
  do 3 apply wp_bind, wp_modify. fold clean_object. set (s2 := s1 <| obs ::= _ |> <| obs ::= _ |> <| obs ::= _ |>).
  assert (Hclean : forall c, ~ child_of clean_object c) by by intros c (cs & Hv & _).
  assert (Ht2 : table_ok (obs s2)) by exact (table_ok_pop (obs s1) a rest clean_object Ht1 Hf Hclean).
  assert (Hown2 : table_owned (heap (tns s2)) (obs s2)).
  { intros x [Hx|Hx]; simpl in Hx.
    - destruct (decide (x = a)) as [->|Hne]; apply Hown1; [right; rewrite Hf; by left|left].
      rewrite <- (lookup_insert_ne (objects (obs s1)) a x clean_object) by done. exact Hx.
    - apply Hown1. right. rewrite Hf. right. exact Hx. }
  assert (Hm2 : mem_ok cfg s2 U l) by (split; [exact Hst1|exact Ht2|exact Hown2]).
  apply wp_bind, wp_gets. change (lostNFoundDir (obs s2)) with (lostNFoundDir (obs s1)).
  destruct Hr1 as (Hr1 & Hlo1 & Hu1 & Hde1). rewrite Hlo1.
  apply (wp_seq _ _ (fun _ s' => mem_ok cfg s' U l /\ got_object s s' a)); [|by intros _ s' [? ?]; apply wp_ret; auto].
  assert (Hself : objects (obs s2) !! a = Some clean_object) by apply lookup_insert_eq.
  assert (Hoth : forall x o, x <> a -> objects (obs s) !! x = Some o -> objects (obs s2) !! x = Some o).
  { intros x o Hx Ho. rewrite <- Ho, <- Ho1. by apply lookup_insert_ne. }
  apply wp_when. unfold ztrue. destruct (Z.eqb_spec (lostNFoundDir (obs s)) 0) as [H0|H0]; simpl negb; cbv iota.
  - split; [done|]. split; try done.
    + split; [done|]. split; [by rewrite <- Hh|done].
    + by unfold new_object; rewrite H0.
    + intros x o Hx Ho. exists o. split; [by apply Hoth|by left].
    + intros _ d o Hd. change (<[a := clean_object]> (objects (obs s1)) !! d = Some o) in Hd.
      apply lookup_insert_Some in Hd as [[<- <-]|[_ Hd]]; [apply Hclean|by eapply Hnc].
    + intros x Hx Hsx. change (is_Some (<[a := clean_object]> (objects (obs s1)) !! x)) in Hsx.
      by rewrite lookup_insert_ne, Ho1 in Hsx by done.
  - destruct Hlost as [|(Hlh & od & cs & Hlo & Hlv)]; [done|].
    assert (Hla : a <> lostNFoundDir (obs s)) by (intros Heq; rewrite <- Heq, <- Hh in Hlh; done).
    eapply wp_mono; [apply (AddObjectToDirectory_spec s2 (lostNFoundDir (obs s)) a od clean_object cs);
      [by apply Hoth|done|done|done]|].
    intros _ s' ((Hd' & Htn' & Hc') & Hmv). pose proof Hmv as [Hsh (Hx1 & Hx2 & Hx3 & Hx4 & _) Hdom Hmo Hms Hmc].
    destruct (proj2 (Hdom a)) as [oa' Hoa']; [by eexists|].
    pose proof (relisted_clean _ _ _ (Hms _ _ Hself Hoa')) as ->.
    assert (Hf2 : a ∉ freeObjects (obs s2)) by done.
    split; [split|split].
    + by rewrite Htn'.
    + apply (moved_ok (obs s2) _ a (lostNFoundDir (obs s))); try done.
    + rewrite Htn'. intros x [Hx|Hx]; apply Hown2; [left; by apply Hdom|right]. by rewrite (sh_free _ _ Hsh) in Hx.
    + by rewrite Hd'.
    + by rewrite Hc'.
    + by rewrite Htn'.
    + split; [done|]. split; [by rewrite <- Hh|]. by rewrite (sh_free _ _ Hsh).
    + by rewrite (sh_bucket _ _ Hsh).
    + by rewrite (sh_nice _ _ Hsh).
    + split; [by rewrite Hx1|]. split; [by rewrite Hx2|]. split; [by rewrite Hx3|by rewrite Hx4].
    + unfold new_object. rewrite (proj2 (Z.eqb_neq _ _) H0), Hoa'. f_equal. unfold adopted.
      change (unlinkedDir (obs s2)) with (unlinkedDir (obs s1)). change (deletedDir (obs s2)) with (deletedDir (obs s1)).
      by rewrite Hu1, Hde1.
    + intros x o Hx Ho. destruct (proj2 (Hdom x)) as [o' Ho']; [eexists; by apply Hoth|].
      exists o'. split; [done|]. apply (Hmo x o o'); [done|by apply Hoth|done].
    + done.
    + intros x Hx Hsx. apply Hdom in Hsx. change (is_Some (<[a := clean_object]> (objects (obs s1)) !! x)) in Hsx.
      by rewrite lookup_insert_ne, Ho1 in Hsx by done.
    + intros _ x o o' c Hx Ho Ho'. apply (Hmc x o o' c); [by apply Hoth|done].
Qed.
End creation2.

(** ** Kernel memory only grows *)

Section grows.
Context {K : Type} `{!Kmalloc K} `{!KmallocLaws K}.

Definition heap_le (t t' : Tnodes K) : Prop := forall x, owned (heap t) x -> owned (heap t') x.

(** A computation on tnodes that gives no memory back. *)
Definition heap_grows {A} (m : M (Tnodes K) A) : Prop :=
  forall t a t', m t = Some (a, t') -> heap_le t t'.

Lemma grows_ret {A} (a : A) : heap_grows (mret a).
Proof. intros t b t' [= _ <-] x. done. Qed.
Lemma grows_bind {A B} (m : M (Tnodes K) A) (f : A -> M (Tnodes K) B) :
  heap_grows m -> (forall a, heap_grows (f a)) -> heap_grows (mbind f m).
Proof.
  intros Hm Hf t b t' H x Hx. unfold mbind, M_bind in H. destruct (m t) as [[a t1]|] eqn:Ht; [|done].
  eapply Hf; [exact H|]. by eapply Hm.
Qed.
Lemma grows_gets {A} (f : Tnodes K -> A) : heap_grows (gets f).
Proof. intros t b t' [= _ <-] x. done. Qed.
Lemma grows_modify f : (forall t, heap (f t) = heap t) -> heap_grows (modify f).
Proof. intros Hf t b t' [= _ <-] x. by rewrite Hf. Qed.
Lemma grows_of_option {A} (o : option A) : heap_grows (of_option o).
Proof. intros t b t' H x. unfold of_option in H. destruct o; by simplify_eq. Qed.
Lemma grows_when (b : bool) m : heap_grows m -> heap_grows (when b m).
Proof. destruct b; [done|]. intros _. apply grows_ret. Qed.
Lemma grows_if {A} (b : bool) (m1 m2 : M (Tnodes K) A) :
  heap_grows m1 -> heap_grows m2 -> heap_grows (if b then m1 else m2).
Proof. by destruct b. Qed.
Lemma grows_for_each {A} (l : list A) body : (forall x, heap_grows (body x)) -> heap_grows (for_each l body).
Proof. intros Hb. induction l as [|x l IH]; simpl; [apply grows_ret|by apply grows_bind]. Qed.
Lemma grows_for_acc {A L} (l : list A) (body : A -> L -> M (Tnodes K) L) acc :
  (forall x a, heap_grows (body x a)) -> heap_grows (for_acc l body acc).
Proof.
  intros Hb. revert acc. induction l as [|x l IH]; intros acc; simpl; [apply grows_ret|by apply grows_bind].
Qed.
Lemma grows_YMALLOC n : heap_grows (YMALLOC n).
Proof.
  intros t b t' H x Hx. rewrite YMALLOC_run in H. injection H as _ <-. by apply ymalloc_keeps.
Qed.

Lemma wp_heap {A} (m : M (Tnodes K) A) Q t :
  heap_grows m -> wp m Q t -> wp m (fun a t' => Q a t' /\ heap_le t t') t.
Proof. intros Hm. unfold wp. destruct (m t) as [[a t']|] eqn:H; [|done]. intros HQ. split; [done|by eapply Hm]. Qed.
End grows.

#[export] Hint Resolve grows_ret grows_gets grows_of_option grows_when grows_if grows_bind
  grows_for_each grows_for_acc grows_YMALLOC : heap_grows.
#[export] Hint Extern 1 (heap_grows (modify _)) => apply grows_modify; intros; reflexivity : heap_grows.
Ltac heap_grows_step :=
  intros; lazymatch goal with
  | |- heap_grows (mbind _ _) => apply grows_bind
  | |- heap_grows (if ?b then _ else _) => destruct b
  | |- heap_grows (match ?x with _ => _ end) => destruct x
  | |- heap_grows (modify _) => apply grows_modify; intros; reflexivity
  | |- heap_grows (let _ := _ in _) => cbv zeta
  | |- heap_grows _ => solve [eauto 2 with heap_grows] || apply grows_when || apply grows_for_each || apply grows_for_acc
  end.
Ltac heap_grows := repeat heap_grows_step.

Section tnode_heap.
Context {K : Type} `{!Kmalloc K} `{!KmallocLaws K} (cfg : Config).

Lemma grows_get_word tn i : heap_grows (get_word (K := K) tn i).
Proof. unfold get_word. heap_grows. Qed.
Lemma grows_put_word tn i x : heap_grows (put_word (K := K) tn i x).
Proof. unfold put_word. heap_grows. Qed.
#[local] Hint Resolve grows_get_word grows_put_word : heap_grows.
Lemma grows_CreateTnodes n : heap_grows (yaffs_CreateTnodes (K := K) cfg n).
Proof. unfold yaffs_CreateTnodes. heap_grows. Qed.
#[local] Hint Resolve grows_CreateTnodes : heap_grows.
Lemma grows_GetTnode : heap_grows (yaffs_GetTnode (K := K) cfg).
Proof. unfold yaffs_GetTnode, yaffs_GetTnodeRaw, clear_tnode. heap_grows. Qed.
Lemma grows_FreeTnode tn : heap_grows (yaffs_FreeTnode (K := K) tn).
Proof. unfold yaffs_FreeTnode. heap_grows. Qed.
Lemma grows_GetChunkGroupBase tn pos : heap_grows (yaffs_GetChunkGroupBase (K := K) cfg tn pos).
Proof. unfold yaffs_GetChunkGroupBase. heap_grows. Qed.
Lemma grows_PutLevel0Tnode tn pos val : heap_grows (yaffs_PutLevel0Tnode (K := K) cfg tn pos val).
Proof. unfold yaffs_PutLevel0Tnode, put_masked. heap_grows. Qed.
#[local] Hint Resolve grows_GetTnode grows_FreeTnode : heap_grows.
Lemma grows_find_down l tn id : heap_grows (find_down (K := K) l tn id).
Proof. revert tn. induction l as [|l IH]; intros tn; simpl; heap_grows. Qed.
#[local] Hint Resolve grows_find_down : heap_grows.
Lemma grows_FindLevel0Tnode fs id : heap_grows (yaffs_FindLevel0Tnode (K := K) fs id).
Proof. unfold yaffs_FindLevel0Tnode. heap_grows. Qed.
Lemma grows_add_down l tn id p : heap_grows (add_down (K := K) cfg l tn id p).
Proof. revert tn. induction l as [|l IH]; intros tn; cbn [add_down]; unfold add_child; heap_grows. Qed.
#[local] Hint Resolve grows_add_down : heap_grows.
Lemma grows_AddOrFindLevel0Tnode fs id p : heap_grows (yaffs_AddOrFindLevel0Tnode (K := K) cfg fs id p).
Proof. unfold yaffs_AddOrFindLevel0Tnode, grow_one, copy_tnode. heap_grows. Qed.
End tnode_heap.
#[export] Hint Resolve grows_get_word grows_put_word grows_GetTnode grows_FreeTnode grows_GetChunkGroupBase
  grows_PutLevel0Tnode grows_FindLevel0Tnode grows_AddOrFindLevel0Tnode : heap_grows.

(** ** Hashing, freeing and creating *)

Section creation3.
Context {N K : Type} `{!Kmalloc K} `{!KmallocLaws K} `{!Clock K} (cfg : Config) (Hcfg : tn_cfg_ok cfg).
Implicit Types (s : FS N K) (o : Object).

Lemma hashed_insert (t : Objects) i b b' x :
  objectBucket t !! i = Some b ->
  hashed (t <| objectBucket ::= <[i := b']> |>) x <->
  x ∈ bucket_list b' \/ exists j b2, j <> i /\ objectBucket t !! j = Some b2 /\ x ∈ bucket_list b2.
Proof.
  intros Hb. unfold hashed. simp_fields. split.
  - intros (j & b2 & [(<- & <- & _)|[Hne Hj]]%list_lookup_insert_Some & Hx); [by left|right].
    exists j, b2. split; [congruence|done].
  - intros [Hx|(j & b2 & Hne & Hj & Hx)].
    + exists i, b'. split; [|done]. apply list_lookup_insert_eq. by eapply lookup_lt_Some.
    + exists j, b2. split; [|done]. by rewrite list_lookup_insert_ne.
Qed.

(** An object enters the bucket of its number. *)
Lemma table_ok_hash (t : Objects) a o i b :
  table_ok t -> objects t !! a = Some o -> a <> 0 -> ~ hashed t a -> a ∉ freeObjects t -> typed o ->
  fresh_number t (objId o) -> yaffs_HashFunction (objId o) = Z.of_nat i -> objectBucket t !! i = Some b ->
  table_ok (t <| objectBucket ::= <[i := MkBucket (a :: bucket_list b) (bucket_count b + 1)]> |>) /\
  forall x, hashed (t <| objectBucket ::= <[i := MkBucket (a :: bucket_list b) (bucket_count b + 1)]> |>) x <->
    x = a \/ hashed t x.
Proof.
  intros Ht Ho Ha0 Hna Hfr Hty Hfresh Hi Hb.
  assert (Hh : forall x, hashed (t <| objectBucket ::= <[i := MkBucket (a :: bucket_list b) (bucket_count b + 1)]> |>) x <->
    x = a \/ hashed t x).
  { intros x. rewrite (hashed_insert _ _ _ _ _ Hb). simpl. rewrite elem_of_cons. split.
    - intros [[->|Hx]|(j & b2 & _ & Hj & Hx)]; [by left|right; by exists i, b|right; by exists j, b2].
    - intros [->|(j & b2 & Hj & Hx)]; [by left; left|]. destruct (decide (j = i)) as [->|Hne].
      + rewrite Hb in Hj. simplify_eq. left. by right.
      + right. by exists j, b2. }
  split; [|done]. pose proof Ht as [T1 T2 T3 T4 T5 T6 T7 T8]. split; try done.
  - simp_fields. by rewrite length_insert.
  - intros j b' Hj. simp_fields_in Hj. apply list_lookup_insert_Some in Hj as [(<- & <- & _)|[Hne Hj]]; [|by apply T2].
    destruct (T2 i b Hb) as (Hnd & Hcnt & Hl). simpl. split; [|split].
    + apply NoDup_cons. split; [|done]. intros Hin. apply Hna. by exists i, b.
    + lia.
    + constructor; [|done]. split; [done|]. by exists o.
  - intros x x' ox ox' Hx Hx' Hox Hox' Hid. apply Hh in Hx, Hx'. simp_fields_in Hox. simp_fields_in Hox'.
    destruct Hx as [->|Hx], Hx' as [->|Hx'].
    + done.
    + rewrite Ho in Hox. injection Hox as <-. by destruct (Hfresh x' ox').
    + rewrite Ho in Hox'. injection Hox' as <-. by destruct (Hfresh x ox).
    + by apply (T3 x x' ox ox').
  - intros x Hx. destruct (T6 x Hx) as (H1 & H2 & H3). split; [done|]. split; [|done].
    rewrite Hh. intros [->|H]; [by apply Hfr|done].
Qed.

Lemma wp_HashObject s a o (Q : unit -> FS N K -> Prop) :
  table_ok (obs s) -> objects (obs s) !! a = Some o -> a <> 0 -> ~ hashed (obs s) a ->
  a ∉ freeObjects (obs s) -> typed o -> fresh_number (obs s) (objId o) ->
  (forall bs, table_ok ((obs s) <| objectBucket := bs |>) ->
    (forall x, hashed ((obs s) <| objectBucket := bs |>) x <-> x = a \/ hashed (obs s) x) ->
    Q tt (s <| obs ::= fun t => t <| objectBucket := bs |> |>)) ->
  wp (yaffs_HashObject a) Q s.
Proof.
  intros Ht Ho Ha0 Hna Hfr Hty Hfresh HQ. unfold yaffs_HashObject.
  apply wp_bind, wp_get_obj with o; [done|]. pose proof (HashFunction_range (objId o)) as Hr.
  destruct (bucket_lookup (obs s) (objId o) Ht) as [b Hb].
  apply wp_mod_bucket with b; [lia|done|].
  destruct (table_ok_hash (obs s) a o (Z.to_nat (yaffs_HashFunction (objId o))) b) as [Ht' Hh]; try done; [lia|].
  apply (HQ (<[Z.to_nat (yaffs_HashFunction (objId o)) := MkBucket (a :: bucket_list b) (bucket_count b + 1)]>
    (objectBucket (obs s)))); [exact Ht'|exact Hh].
Qed.

(** What a new object of a type is. *)
Definition starts_as (number type tn : Z) o : Prop :=
  objId o = u32 number /\ variantType o = type /\ typed o /\ deleted o = false /\ softDeleted o = false /\
  deferedFree o = false /\ hdrChunk o = -1 /\ nDataChunks o = 0 /\ myInode o = 0 /\ hardLinks o = [] /\
  lazyLoaded o = false /\ shortName o = [] /\ variant o = new_variant type tn NoVariant.

(** Object [a] with that number was made. *)
Record created s s' (U : gset Z) (number type a : Z) : Prop := {
  cr_dev : dev s' = dev s;
  cr_caches : caches s' = caches s;
  cr_tnodes : forall q, q ∈ U -> tnodes (tns s') !! q = tnodes (tns s) !! q;
  cr_new : a <> 0 /\ ~ hashed (obs s) a;
  cr_hashed : forall x, hashed (obs s') x <-> x = a \/ hashed (obs s) x;
  cr_roots : same_roots (obs s) (obs s');
  cr_other : forall x o, x <> a -> objects (obs s) !! x = Some o ->
    exists o', objects (obs s') !! x = Some o' /\ relisted o o';
  cr_self : exists tn l' o, objects (obs s') !! a = Some o /\ starts_as number type tn o /\
    if type =? OBJECT_TYPE_FILE then
      tn <> 0 /\ (tn ∉ U) /\ mem_ok cfg s' ({[tn]} ∪ U) l' /\
      tnodes (tns s') !! tn = Some (replicate (Z.to_nat (tnodeWords cfg)) 0)
    else mem_ok cfg s' U l';
  cr_dirs : lostNFoundDir (obs s) <> 0 -> dirs_ok (obs s) -> dirs_ok (obs s');
  cr_parent : lostNFoundDir (obs s) <> 0 -> forall o, objects (obs s') !! a = Some o -> parent o = lostNFoundDir (obs s)
}.

(** Nothing but the free list changed. *)
Record unchanged s s' (U : gset Z) : Prop := {
  un_dev : dev s' = dev s;
  un_caches : caches s' = caches s;
  un_tnodes : forall q, q ∈ U -> tnodes (tns s') !! q = tnodes (tns s) !! q;
  un_hashed : forall x, hashed (obs s') x <-> hashed (obs s) x;
  un_objects : forall x o, hashed (obs s) x -> objects (obs s) !! x = Some o ->
    exists o', objects (obs s') !! x = Some o' /\ relisted o o';
  un_roots : same_roots (obs s) (obs s');
  un_mem : exists l', mem_ok cfg s' U l'
}.

(** Giving an object its fields while it is in no bucket yet, and its variant afterwards. *)
Lemma mem_ok_mod s U l a o f :
  mem_ok cfg s U l -> objects (obs s) !! a = Some o -> objId (f o) = objId o ->
  (hashed (obs s) a -> typed (f o)) -> (forall c, child_of (f o) c -> child_of o c) ->
  mem_ok cfg (s <| obs ::= fun t => t <| objects ::= <[a := f o]> |> |>) U l.
Proof.
  intros [Hst Ht Hown] Ho Hid Hty Hc. split; [done| |].
  - by apply (table_ok_mod (obs s) a o f).
  - intros x [Hx|Hx]; apply Hown; [left|by right]. simp_fields_in Hx.
    destruct (decide (x = a)) as [->|Hne]; [by eexists|by rewrite lookup_insert_ne in Hx].
Qed.

Lemma mem_ok_renumber s U l a o f :
  mem_ok cfg s U l -> objects (obs s) !! a = Some o -> ~ hashed (obs s) a ->
  (forall c, child_of (f o) c -> child_of o c) ->
  mem_ok cfg (s <| obs ::= fun t => t <| objects ::= <[a := f o]> |> |>) U l.
Proof.
  intros [Hst Ht Hown] Ho Hna Hc. split; [done| |].
  - pose proof Ht as [T1 T2 T3 T4 T5 T6 T7 T8].
    assert (Hlk : forall x, hashed (obs s) x -> <[a := f o]> (objects (obs s)) !! x = objects (obs s) !! x).
    { intros x Hx. apply lookup_insert_ne. by intros ->. }
    split; simp_fields; try done.
    + intros i b Hi. destruct (T2 i b Hi) as (H1 & H2 & H3). split; [done|]. split; [done|].
      apply Forall_forall. intros x Hx. pose proof (proj1 (Forall_forall _ _) H3 x Hx) as (Hx0 & ox & Hox & Hr).
      split; [done|]. exists ox. split; [|done]. simp_fields. rewrite Hlk; [done|by exists i, b].
    + intros x x' ox ox' Hx Hx' Hox Hox'. change (hashed (obs s) x) in Hx. change (hashed (obs s) x') in Hx'.
      rewrite Hlk in Hox, Hox' by done. by apply T3.
    + intros x Hx. destruct (T6 x Hx) as (H1 & H2 & H3). split; [done|]. split; [done|].
      intros d od [[<- <-]|[_ Hd]]%lookup_insert_Some Hch; [by apply (H3 a o), Hc|by eapply H3].
    + intros d od x Hd Hch. assert (Hs : is_Some (objects (obs s) !! x)).
      { apply lookup_insert_Some in Hd as [[<- <-]|[_ Hd]]; [by apply (T7 a o), Hc|by eapply T7]. }
      destruct (decide (x = a)) as [->|Hne]; [by rewrite lookup_insert_eq|by rewrite lookup_insert_ne].
  - intros x [Hx|Hx]; apply Hown; [left|by right]. simp_fields_in Hx.
    destruct (decide (x = a)) as [->|Hne]; [by eexists|by rewrite lookup_insert_ne in Hx].
Qed.

(** An object goes on the free list. *)
Lemma mem_ok_push s U l a :
  mem_ok cfg s U l -> a <> 0 -> ~ hashed (obs s) a -> is_Some (objects (obs s) !! a) ->
  a ∉ freeObjects (obs s) -> (forall d o, objects (obs s) !! d = Some o -> ~ child_of o a) ->
  mem_ok cfg (s <| obs ::= fun t => t <| freeObjects ::= cons a |> |>
                <| obs ::= fun t => t <| nFreeObjects ::= Z.succ |> |>) U l.
Proof.
  intros [Hst Ht Hown] Ha0 Hna Ho Hfr Hnc. split; [done| |].
  - pose proof Ht as [T1 T2 T3 T4 T5 T6 T7 T8]. split; simp_fields; try done.
    + by apply NoDup_cons.
    + rewrite T5. simpl length. lia.
    + intros x [->|Hx]%elem_of_cons; [done|by apply T6].
  - intros x [Hx|Hx]; apply Hown; [by left|]. simp_fields_in Hx.
    apply elem_of_cons in Hx as [->|Hx]; [by left|by right].
Qed.
End creation3.

Section creation4.
Context {N K : Type} `{!Kmalloc K} `{!KmallocLaws K} `{!Clock K} (cfg : Config) (Hcfg : tn_cfg_ok cfg).
Implicit Types (s : FS N K) (o : Object).

Lemma same_objects_unchanged s s' U l' :
  mem_ok cfg s' U l' -> same_objects s s' -> unchanged cfg s s' U.
Proof.
  intros Hm [Hd Hc (k' & Hk & _) Ho Hb Hn Hr]. split; try done.
  - by rewrite Hk.
  - intros x. unfold hashed. by rewrite Hb.
  - intros x o _ Hx. exists o. split; [by rewrite Ho|by left].
  - by exists l'.
Qed.

(** There is a tnode for a new file: a free one, or the kernel, once the object has been
    allocated, grants the memory of another bunch. *)
Definition tnode_at_hand s : Prop :=
  freeTnodes (tns s) <> 0 \/ forall a s1, yaffs_AllocateEmptyObject s = Some (a, s1) -> a <> 0 ->
    ~ refused cfg YAFFS_ALLOCATION_NTNODES (tns s1).

(** What the new object needs is not to be had. *)
Definition not_to_be_had s (type : Z) : Prop :=
  no_object s \/ type = OBJECT_TYPE_FILE /\ ~ tnode_at_hand s.

Lemma tnodes_at_hand s U l : mem_ok cfg s U l -> l <> [] -> tnode_at_hand s.
Proof.
  intros [Hst _ _] Hl. left. destruct l as [|p l]; [done|].
  destruct (so_free _ _ _ _ Hst p) as [Hp _]; [by left|]. pose proof (so_chain _ _ _ _ Hst) as [-> _]. lia.
Qed.

(** What [yaffs_CreateNewObject] does once the number is known. *)
Lemma create_numbered s U l number type :
  mem_ok cfg s U l -> lost_ok (obs s) -> 0 <= number -> fresh_number (obs s) (u32 number) ->
  (type = OBJECT_TYPE_FILE -> lostNFoundDir (obs s) = 0 \/ tnode_at_hand s) ->
  wp (yaffs_CreateNewObject cfg number type) (fun a s' =>
    (a = 0 <-> not_to_be_had s type) /\
    ((a = 0 /\ unchanged cfg s s' U) \/ created cfg s s' U number type a)) s.
Proof.
  intros Hm Hlost Hnum Hfresh Hmem. unfold yaffs_CreateNewObject.
  rewrite (proj2 (Z.ltb_ge number 0)) by done. apply wp_bind, wp_ret.
  eapply wp_seq; [eapply wp_pc; [by apply AllocateEmptyObject_spec|intros a s1 Hrun; exact Hrun]|].
  intros a s1 [[Hm1 [(-> & Hs1 & Hno)|[Hgot Hyes]]] Hrun].
  { apply wp_ret. split; [split; [by left|done]|]. left. split; [done|]. by eapply same_objects_unchanged. }
  pose proof Hgot as [Hd1 Hc1 Hk1 (Ha0 & Hna & Hfa) Hb1 Hn1 Hr1 Hself Hoth Hdir Hdm1 Hch1].
  unfold ztrue at 1. rewrite (proj2 (Z.eqb_neq a 0)) by done. cbn [negb]. cbv iota.
  assert (Hh1 : forall x, hashed (obs s1) x <-> hashed (obs s) x) by (intros x; unfold hashed; by rewrite Hb1).
  destruct Hk1 as (k1 & Hk1 & _).
  assert (Htn1 : tnodes (tns s1) = tnodes (tns s)) by by rewrite Hk1.
  (* the tnode of a file *)
  apply (wp_seq _ _ (fun tn s2 => dev s2 = dev s1 /\ caches s2 = caches s1 /\ obs s2 = obs s1 /\
    (forall q, q ∈ U -> tnodes (tns s2) !! q = tnodes (tns s) !! q) /\
    if type =? OBJECT_TYPE_FILE then
      (tn = 0 /\ l = [] /\ refused cfg YAFFS_ALLOCATION_NTNODES (tns s1) /\ mem_ok cfg s2 U []) \/
      (tn <> 0 /\ (tn ∉ U) /\ (exists l', mem_ok cfg s2 ({[tn]} ∪ U) l') /\
       ~ (l = [] /\ refused cfg YAFFS_ALLOCATION_NTNODES (tns s1)) /\
       tnodes (tns s2) !! tn = Some (replicate (Z.to_nat (tnodeWords cfg)) 0))
    else mem_ok cfg s2 U l)).
  { apply wp_if. destruct (Z.eqb_spec type OBJECT_TYPE_FILE) as [Hty|Hty].
    - apply wp_on_tns. destruct Hm1 as [Hst Ht Hown].
      eapply wp_mono; [apply (wp_heap _ (got_tnode cfg (tns s1) U l) _ (grows_GetTnode cfg)); by apply GetTnode_spec|].
      intros tn t' [(Hfr & Hnt & Hgt) Hle]. split; [done|]. split; [done|]. split; [done|]. simp_fields.
      split; [intros q Hq; rewrite <- Htn1; by apply Hfr|].
      assert (Hown' : table_owned (heap t') (obs s1)) by (intros x Hx; by apply Hle, Hown).
      destruct Hgt as [(-> & -> & Hst')|(Htn & HnU & Hz & l' & Hst' & _)]; [left|right].
      { destruct (proj1 Hnt eq_refl) as [_ Href]. by split. }
      split; [done|]. split; [done|]. split; [by exists l'|]. split; [by rewrite <- Hnt|done].
    - apply wp_ret. split; [done|]. split; [done|]. split; [done|]. split; [by rewrite Htn1|done]. }
  intros tn s2 (Hd2 & Hc2 & Ho2 & Ht2 & Hm2).
  assert (Hso : objects (obs s2) !! a = Some (new_object (obs s))) by by rewrite Ho2.
  assert (Hnew : exists p u r, new_object (obs s) = clean_object <| parent := p |> <| unlinked := u |> <| renameAllowed := r |> /\
    (lostNFoundDir (obs s) <> 0 -> p = lostNFoundDir (obs s))).
  { unfold new_object, adopted. destruct (Z.eqb_spec (lostNFoundDir (obs s)) 0); [by exists 0, false, false|].
    destruct (_ || _); [by exists (lostNFoundDir (obs s)), true, false|by exists (lostNFoundDir (obs s)), false, false]. }
  destruct Hnew as (p & u & r & Hnew & Hp0). rewrite Hnew in Hso. clear Hnew.
  assert (Hna2 : ~ hashed (obs s2) a) by by rewrite Ho2, Hh1.
  apply wp_if. destruct ((type =? OBJECT_TYPE_FILE) && negb (ztrue tn)) eqn:Hnull.
  - (* no tnode: the object goes back *)
    apply andb_true_iff in Hnull as [Hty Htn]. rewrite Hty in Hm2. apply Z.eqb_eq in Hty.
    unfold ztrue in Htn. rewrite negb_involutive in Htn. apply Z.eqb_eq in Htn.
    destruct Hm2 as [(_ & -> & Href & Hm2)|(? & _)]; [|done].
    assert (Hlack : ~ tnode_at_hand s).
    { intros [Hf|Hg]; [|by apply (Hg a s1)]. apply Hf. exact (so_chain _ _ _ _ (mo_store _ _ _ _ Hm)). }
    destruct (Hmem Hty) as [H0|]; [|done].
    apply (wp_seq _ _ (fun _ s3 => unchanged cfg s s3 U));
      [|intros _ s3 Hun; apply wp_ret; split; [split; [by right|done]|by left]].
    unfold yaffs_FreeObject. apply wp_bind, wp_get_obj with (1 := Hso). cbn.
    unfold yaffs_UnhashObject, getO, modO. apply wp_bind, wp_bind, wp_gets.
    assert (Hex : existsb (in_chain a) (objectBucket (obs s2)) = false).
    { apply not_true_iff_false. intros (b & Hb%list_elem_of_In & Hin)%existsb_exists. apply Hna2.
      apply list_elem_of_lookup in Hb as [i Hb]. exists i, b. split; [done|].
      by apply bool_decide_eq_true in Hin. }
    rewrite Hex. apply wp_when. apply wp_bind, wp_gets.
    assert (Hnd : in_directory (objects (obs s2)) a = false).
    { apply not_true_iff_false. intros (d & o & Hd & Hc)%in_directory_spec.
      rewrite Ho2 in Hd. by apply (Hdir H0 d o). }
    rewrite Hnd. apply wp_bind, wp_modify, wp_modify.
    assert (Hm3 : mem_ok cfg (s2 <| obs ::= fun t => t <| freeObjects ::= cons a |> |>
                <| obs ::= fun t => t <| nFreeObjects ::= Z.succ |> |>) U []).
    { apply mem_ok_push; [exact Hm2|done|done|by rewrite Hso; eexists|by rewrite Ho2|]. intros d o Hd. rewrite Ho2 in Hd. by apply (Hdir H0 d o). }
    split; [by simp_fields; rewrite Hd2|by simp_fields; rewrite Hc2|done|..|by simp_fields; rewrite Ho2|by eexists].
    + intros x. rewrite <- Hh1, <- Ho2. done.
    + intros x o Hx Ho. simp_fields. rewrite Ho2. apply Hoth; [by intros ->|done].
  - (* the object gets its number and its variant *)
    assert (Hcl : forall f : Object -> Object, (forall o, variant (f o) = variant o) ->
      forall o c, child_of (f o) c -> child_of o c) by (intros f Hf o c (cs & Hv & Hin); exists cs; by rewrite <- Hf).
    set (U' := if type =? OBJECT_TYPE_FILE then {[tn]} ∪ U else U).
    assert (Hm2' : exists l', mem_ok cfg s2 U' l').
    { unfold U'. destruct (type =? OBJECT_TYPE_FILE); simpl in Hnull; [|by exists l].
      destruct Hm2 as [(-> & _)|(_ & _ & H & _)]; [by unfold ztrue in Hnull|done]. }
    assert (Hhad : ~ not_to_be_had s type).
    { intros [Hno|[Hty Hlack]]; [done|]. rewrite Hty in Hm2. cbn in Hm2.
      destruct Hm2 as [(-> & _)|(_ & _ & _ & Hg & _)]; [by rewrite Hty in Hnull|]. destruct Hlack.
      destruct (decide (freeTnodes (tns s) = 0)) as [Hf0|]; [right|by left].
      intros a' s1' Hrun' _. rewrite Hrun in Hrun'. injection Hrun' as <- <-. intros Href. apply Hg.
      split; [|done]. pose proof (mo_store _ _ _ _ Hm) as Hst. destruct l as [|q l0]; [done|].
      destruct (so_free _ _ _ _ Hst q) as [Hq _]; [by left|]. pose proof (so_chain _ _ _ _ Hst) as [Hq' _]. lia. }
    destruct Hm2' as [l' Hm2'].
    assert (Hfa2 : a ∉ freeObjects (obs s2)) by by rewrite Ho2.
    apply wp_bind, (wp_mod_obj a _ _ _ _ Hso).
    set (o1 := (clean_object <| parent := p |> <| unlinked := u |> <| renameAllowed := r |>)
      <| fake := false |> <| renameAllowed := true |> <| unlinkAllowed := true |> <| objId := u32 number |>).
    pose proof (mem_ok_renumber cfg s2 U' l' a _ (fun o => o <| fake := false |> <| renameAllowed := true |>
      <| unlinkAllowed := true |> <| objId := u32 number |>) Hm2' Hso Hna2) as Hm3.
    specialize (Hm3 ltac:(intros c (cs & Hv & _); done)). fold o1 in Hm3 |- *.
    set (s3 := s2 <| obs ::= fun t => t <| objects ::= <[a := o1]> |> |>) in *.
    assert (Hso3 : objects (obs s3) !! a = Some o1) by apply lookup_insert_eq.
    assert (Hoth3 : forall x, x <> a -> objects (obs s3) !! x = objects (obs s2) !! x)
      by (intros x Hx; by apply lookup_insert_ne).
    assert (Hh3 : forall x, hashed (obs s3) x <-> hashed (obs s) x) by (intros x; rewrite <- Hh1, <- Ho2; done).
    assert (Hfresh3 : fresh_number (obs s3) (objId o1)).
    { intros x o Hx Hxo. rewrite Hh3 in Hx. assert (Hxa : x <> a) by by intros ->.
      rewrite Hoth3, Ho2 in Hxo by done. destruct (hashed_linked (obs s) x (mo_table _ _ _ _ Hm) Hx) as
        (_ & _ & _ & _ & _ & ox & Hox & _). destruct (Hoth x ox Hxa Hox) as (o' & Ho' & Hrel).
      rewrite Ho' in Hxo. injection Hxo as <-. rewrite (relisted_objId _ _ Hrel). by apply (Hfresh x ox). }
    apply wp_bind, (wp_HashObject s3 a o1); [apply Hm3|done|done|by rewrite Hh3|exact Hfa2|done|done|].
    intros bs Htb Hhb. set (s4 := s3 <| obs ::= fun t => t <| objectBucket := bs |> |>).
    assert (Hm4 : mem_ok cfg s4 U' l').
    { destruct Hm3 as [Hst3 _ Hown3]. split; [exact Hst3|exact Htb|exact Hown3]. }
    apply wp_bind, wp_gets. set (now := current_time _).
    apply wp_bind, (wp_mod_obj a o1); [exact Hso3|]. apply wp_ret. split; [by split|]. right.
    set (f := fun o => o <| variantType := type |> <| yst_atime := now |> <| yst_mtime := now |>
      <| yst_ctime := now |> <| variant ::= new_variant type tn |>).
    change (created cfg s (s4 <| obs ::= fun t => t <| objects ::= <[a := f o1]> |> |>) U number type a).
    set (s5 := s4 <| obs ::= fun t => t <| objects ::= <[a := f o1]> |> |>).
    assert (Hty : typed (f o1)).
    { unfold typed. change (variant (f o1)) with (new_variant type tn NoVariant).
      change (variantType (f o1)) with type. unfold new_variant.
      destruct (Z.eqb_spec type OBJECT_TYPE_FILE) as [->|]; [done|].
      by destruct (Z.eqb_spec type OBJECT_TYPE_DIRECTORY) as [->|]. }
    assert (Hm5 : mem_ok cfg s5 U' l').
    { apply mem_ok_mod; [done|exact Hso3|done|done|].
      intros c (cs & Hv & Hin). change (variant (f o1)) with (new_variant type tn NoVariant) in Hv.
      unfold new_variant in Hv. destruct (type =? OBJECT_TYPE_FILE); [done|].
      destruct (type =? OBJECT_TYPE_DIRECTORY); [|done]. injection Hv as <-. by apply not_elem_of_nil in Hin. }
    assert (Htns5 : tns s5 = tns s2) by done.
    assert (Hobs5 : objects (obs s5) = <[a := f o1]> (objects (obs s3))) by done.
    split.
    + change (dev s5) with (dev s2). by rewrite Hd2.
    + change (caches s5) with (caches s2). by rewrite Hc2.
    + intros q Hq. rewrite Htns5. by apply Ht2.
    + by split; [|].
    + intros x. change (hashed (obs s5) x) with (hashed ((obs s3) <| objectBucket := bs |>) x).
      by rewrite Hhb, Hh3.
    + change (same_roots (obs s) (obs s2)). by rewrite Ho2.
    + intros x o Hxa Hx. rewrite Hobs5, lookup_insert_ne, Hoth3, Ho2 by done. by apply Hoth.
    + exists tn, l', (f o1). split; [rewrite Hobs5; apply lookup_insert_eq|]. split; [by repeat split|].
      unfold U' in Hm5. destruct (type =? OBJECT_TYPE_FILE); [|done].
      destruct Hm2 as [(-> & _)|(Htn & HnU & _ & _ & Hz)]; [by unfold ztrue in Hnull|]. auto.
    + intros Hlf Hdo. destruct (do_roots _ Hdo (lostNFoundDir (obs s))) as (Hlh & ol & csl & Hol & Hvl & _); [set_solver|].
      assert (Hla : forall x, hashed (obs s) x -> x <> a) by (intros x Hx ->; by apply Hna).
      assert (Hother : forall x, hashed (obs s) x -> objects (obs s5) !! x = objects (obs s1) !! x).
      { intros x Hx. rewrite Hobs5, lookup_insert_ne by (symmetry; by apply Hla). by rewrite Hoth3, Ho2 by (by apply Hla). }
      apply (dirs_ok_hang (obs s) (obs s5) a (lostNFoundDir (obs s)) ol csl); try done.
      * change (same_roots (obs s) (obs s2)). by rewrite Ho2.
      * intros x. change (hashed (obs s5) x) with (hashed ((obs s3) <| objectBucket := bs |>) x). by rewrite Hhb, Hh3.
      * intros x o Hx Ho. destruct (Hoth x o (Hla x Hx) Ho) as (o' & Ho' & Hrel). exists o'.
        rewrite Hother, decide_False by (done || by apply Hla). split; [done|].
        split; [by destruct Hrel as [->|(? & ? & _ & ->)]|]. split; [by destruct Hrel as [->|(? & ? & _ & ->)]|].
        split; [destruct Hrel as [->|(? & cs' & _ & ->)]; intros cs Hcs; [by exists cs|by exists cs']|].
        intros c. by apply (Hch1 Hlf x o o' c); [apply Hla|..].
      * intros x o' Hx Ho'. apply Hdm1; [by apply Hla|]. rewrite Hother in Ho' by done. by eexists.
      * exists (f o1). split; [rewrite Hobs5; apply lookup_insert_eq|]. split; [by apply Hp0|right].
        intros c (cs & Hv & Hin). change (variant (f o1)) with (new_variant type tn NoVariant) in Hv.
        unfold new_variant in Hv. destruct (type =? OBJECT_TYPE_FILE); [done|].
        destruct (type =? OBJECT_TYPE_DIRECTORY); [|done]. injection Hv as <-. by apply not_elem_of_nil in Hin.
    + intros Hlf o Ho. rewrite Hobs5, lookup_insert_eq in Ho. injection Ho as <-. by apply Hp0.
Qed.
End creation4.

(** ** Taking an object out of use *)

Section freeing.
Context {N K : Type} `{!Kmalloc K} `{!KmallocLaws K} `{!Clock K} (cfg : Config).
Implicit Types (s : FS N K) (o : Object).

Lemma filter_absent (a : Z) (l : list Z) : a ∉ l -> filter (fun c => c <> a) l = l.
Proof.
  induction l as [|x l IH]; intros Ha; [done|]. apply not_elem_of_cons in Ha as [Hx Hl].
  rewrite filter_cons_True by congruence. by rewrite IH.
Qed.

Lemma filter_once (a : Z) (l : list Z) :
  NoDup l -> a ∈ l -> Z.of_nat (length (filter (fun c => c <> a) l)) = Z.of_nat (length l) - 1.
Proof.
  induction 1 as [|x l Hx Hnd IH]; intros Ha; [by apply not_elem_of_nil in Ha|].
  apply elem_of_cons in Ha as [->|Ha].
  - rewrite filter_cons_False by tauto. rewrite filter_absent by done. simpl length. lia.
  - rewrite filter_cons_True by (intros ->; done). simpl length. rewrite !Nat2Z.inj_succ, IH by done. lia.
Qed.

(** The buckets without [a]. *)
Definition unhashed (t : Objects) (a : Z) (i : nat) (b : Bucket) : list Bucket :=
  <[i := MkBucket (bucket_list (drop_link a b)) (bucket_count b - 1)]> (drop_link a <$> objectBucket t).

Lemma unhashed_lookup (t : Objects) a i b j b' :
  table_ok t -> objectBucket t !! i = Some b -> a ∈ bucket_list b -> unhashed t a i b !! j = Some b' ->
  exists b0, objectBucket t !! j = Some b0 /\ bucket_list b' = filter (fun c => c <> a) (bucket_list b0) /\
    bucket_count b' = Z.of_nat (length (bucket_list b')).
Proof.
  intros Ht Hb Ha Hj. unfold unhashed in Hj. apply list_lookup_insert_Some in Hj as [(<- & <- & _)|[Hne Hj]].
  - destruct (to_chain _ Ht i b Hb) as (Hnd & Hcnt & _). exists b. split; [done|]. split; [done|]. simpl.
    rewrite filter_once by done. lia.
  - rewrite list_lookup_fmap in Hj. destruct (objectBucket t !! j) as [b0|] eqn:Hb0; [|done].
    injection Hj as <-. exists b0. split; [done|]. split; [done|]. simpl.
    destruct (to_chain _ Ht j b0 Hb0) as (_ & Hcnt & Hl0). rewrite filter_absent; [done|]. intros Ha0.
    pose proof (proj1 (Forall_forall _ _) Hl0 a Ha0) as (_ & o & Ho & Hh & _).
    destruct (to_chain _ Ht i b Hb) as (_ & _ & Hl).
    pose proof (proj1 (Forall_forall _ _) Hl a Ha) as (_ & o' & Ho' & Hh' & _). rewrite Ho in Ho'. simplify_eq.
    apply Hne. lia.
Qed.

Lemma hashed_unhashed (t : Objects) a i b x :
  table_ok t -> objectBucket t !! i = Some b -> a ∈ bucket_list b ->
  hashed (t <| objectBucket := unhashed t a i b |>) x <-> x <> a /\ hashed t x.
Proof.
  intros Ht Hb Ha. unfold hashed. simp_fields. split.
  - intros (j & b' & Hj & Hx). destruct (unhashed_lookup t a i b j b' Ht Hb Ha Hj) as (b0 & Hb0 & Hl & _).
    rewrite Hl in Hx. apply list_elem_of_filter in Hx as [Hne Hx]. split; [done|]. by exists j, b0.
  - intros (Hne & j & b0 & Hj & Hx). destruct (unhashed t a i b !! j) as [b'|] eqn:Hb'.
    + exists j, b'. split; [done|]. destruct (unhashed_lookup t a i b j b' Ht Hb Ha Hb') as (b1 & Hb1 & -> & _).
      rewrite Hj in Hb1. injection Hb1 as <-. by apply list_elem_of_filter.
    + apply lookup_ge_None in Hb'. unfold unhashed in Hb'. rewrite length_insert, length_fmap in Hb'.
      apply lookup_lt_Some in Hj. lia.
Qed.

Lemma table_ok_unhash (t : Objects) a i b :
  table_ok t -> objectBucket t !! i = Some b -> a ∈ bucket_list b ->
  table_ok (t <| objectBucket := unhashed t a i b |>).
Proof.
  intros Ht Hb Ha. pose proof (fun x => hashed_unhashed t a i b x Ht Hb Ha) as Hh.
  pose proof Ht as [T1 T2 T3 T4 T5 T6 T7 T8]. split; try done.
  - simp_fields. unfold unhashed. by rewrite length_insert, length_fmap.
  - intros j b' Hj. simp_fields_in Hj. destruct (unhashed_lookup t a i b j b' Ht Hb Ha Hj) as (b0 & Hb0 & Hl & Hc).
    destruct (T2 j b0 Hb0) as (Hnd & _ & Hf). split; [rewrite Hl; by apply NoDup_filter|]. split; [done|].
    rewrite Hl. apply Forall_forall. intros x Hx. apply list_elem_of_filter in Hx as [_ Hx].
    by apply (proj1 (Forall_forall _ _) Hf x Hx).
  - intros x x' ox ox' Hx Hx'. apply Hh in Hx as [_ Hx], Hx' as [_ Hx']. by apply T3.
  - intros x Hx. destruct (T6 x Hx) as (H1 & H2 & H3). split; [done|]. split; [|done]. rewrite Hh. tauto.
Qed.

(** What is left once [a] is out of use. *)
Record freed s s' (a : Z) : Prop := {
  fr_rest : only_objects s s';
  fr_objects : objects (obs s') = objects (obs s);
  fr_roots : same_roots (obs s) (obs s');
  fr_hashed : forall x, hashed (obs s') x <-> x <> a /\ hashed (obs s) x;
  fr_free : freeObjects (obs s') = a :: freeObjects (obs s)
}.

Lemma FreeObject_spec s U l a o :
  mem_ok cfg s U l -> hashed (obs s) a -> objects (obs s) !! a = Some o -> myInode o = 0 ->
  (forall d od, objects (obs s) !! d = Some od -> ~ child_of od a) ->
  wp (yaffs_FreeObject a) (fun _ s' => mem_ok cfg s' U l /\ freed s s' a) s.
Proof.
  intros Hm Hh Ho Hino Hnd. destruct Hm as [Hst Ht Hown].
  destruct (hashed_linked (obs s) a Ht Hh) as (i & b & Hb & Ha & Ha0 & o' & Ho' & Hi & Hty).
  rewrite Ho in Ho'. injection Ho' as <-.
  unfold yaffs_FreeObject. apply wp_bind, wp_get_obj with o; [done|]. rewrite Hino. cbn.
  unfold yaffs_UnhashObject, getO, modO. apply wp_bind, wp_bind, wp_gets.
  assert (Hex : existsb (in_chain a) (objectBucket (obs s)) = true).
  { apply existsb_exists. exists b. split; [|by apply bool_decide_eq_true].
    apply list_elem_of_In. by eapply list_elem_of_lookup_2. }
  rewrite Hex. apply wp_when, wp_bind, wp_modify, wp_bind, wp_get_obj with o; [done|].
  pose proof (HashFunction_range (objId o)) as Hr.
  assert (Hii : Z.to_nat (yaffs_HashFunction (objId o)) = i) by lia.
  apply wp_mod_bucket with (drop_link a b); [lia|simp_fields; by rewrite Hii, list_lookup_fmap, Hb|].
  set (s1 := s <| obs ::= _ |> <| obs ::= _ |>).
  assert (Hobs1 : obs s1 = (obs s) <| objectBucket := unhashed (obs s) a i b |>).
  { unfold s1, unhashed. rewrite Hii. by destruct s as [? ? [] ?]. }
  pose proof (table_ok_unhash (obs s) a i b Ht Hb Ha) as Ht1.
  pose proof (fun x => hashed_unhashed (obs s) a i b x Ht Hb Ha) as Hh1. rewrite <- Hobs1 in Ht1, Hh1.
  assert (Hm1 : mem_ok cfg s1 U l) by (split; [exact Hst|exact Ht1|intros x Hx; apply Hown; by rewrite Hobs1 in Hx]).
  apply wp_bind, wp_gets.
  assert (Hnd1 : in_directory (objects (obs s1)) a = false).
  { apply not_true_iff_false. intros (d & od & Hd & Hc)%in_directory_spec. rewrite Hobs1 in Hd. by apply (Hnd d od). }
  rewrite Hnd1. apply wp_bind, wp_modify, wp_modify. split.
  - apply mem_ok_push; [done|done|rewrite Hh1; tauto|rewrite Hobs1; by eexists| |].
    + rewrite Hobs1. intros Hf. by destruct (to_free _ Ht a Hf) as (_ & ? & _).
    + intros d od Hd. rewrite Hobs1 in Hd. by apply (Hnd d od).
  - split.
    + done.
    + simp_fields. by rewrite Hobs1.
    + split; [|split; [|split]]; simp_fields; by rewrite Hobs1.
    + intros x. rewrite <- Hh1. done.
    + simp_fields. by rewrite Hobs1.
Qed.
End freeing.

(** ** The first directories *)

Section directories2.
Context {N K : Type} `{!Kmalloc K} `{!KmallocLaws K} `{!Clock K} (cfg : Config) (Hcfg : tn_cfg_ok cfg).
Implicit Types (s : FS N K) (o : Object).

(** The objects in use are the directories [ds], by number. *)
Definition dirs_made s (U : gset Z) (ds : list (Z * Z)) : Prop :=
  (exists l, mem_ok cfg s U l) /\ lostNFoundDir (obs s) = 0 /\
  (forall x, hashed (obs s) x <-> x ∈ ds.*2) /\ NoDup ds.*2 /\
  forall n x, (n, x) ∈ ds -> exists o cs, objects (obs s) !! x = Some o /\ objId o = n /\
    variant o = DirectoryVariant cs.

(** The roots change, the table does not. *)
Lemma dirs_made_roots s U ds f :
  (forall t, objects (f t) = objects t /\ objectBucket (f t) = objectBucket t /\
    freeObjects (f t) = freeObjects t /\ nFreeObjects (f t) = nFreeObjects t /\
    niceBucket (f t) = niceBucket t /\ lostNFoundDir (f t) = lostNFoundDir t) ->
  dirs_made s U ds -> dirs_made (s <| obs ::= f |>) U ds.
Proof.
  intros Hf ([l [Hst Ht Hown]] & Hlo & Hh & Hnd & Hds). destruct (Hf (obs s)) as (Ho & Hb & Hfr & Hn & Hni & Hl).
  split; [exists l; split; simp_fields|split; [by simp_fields; rewrite Hl|split; [|split; [done|]]]].
  - done.
  - apply (table_ok_objects (obs s)); [done|by split|by rewrite Ho|].
    intros x o' Hx. rewrite Ho in Hx. exists o'. split; [done|]. split; [done|]. split; [done|]. intros c Hc. by left.
  - intros x Hx. rewrite Ho, Hfr in Hx. by apply Hown.
  - intros x. simp_fields. unfold hashed. rewrite Hb. apply Hh.
  - intros n x Hx. simp_fields. rewrite Ho. by apply Hds.
Qed.

Definition add_dir (n a : Z) (ds : list (Z * Z)) : list (Z * Z) := if a =? 0 then ds else (n, a) :: ds.

Lemma add_dir_numbers n a ds m : m <> n -> (m ∉ ds.*1) -> (m ∉ (add_dir n a ds).*1).
Proof. unfold add_dir. destruct (a =? 0); [done|]. intros Hm Hds. simpl. by apply not_elem_of_cons. Qed.

Lemma CreateFakeDirectory_spec s U ds n mode :
  dirs_made s U ds -> 0 <= n < 2 ^ 32 -> (n ∉ ds.*1) ->
  wp (yaffs_CreateFakeDirectory cfg n mode) (fun a s' =>
    dirs_made s' U (add_dir n a ds) /\
    unlinkedDir (obs s') = unlinkedDir (obs s) /\ deletedDir (obs s') = deletedDir (obs s) /\
    rootDir (obs s') = rootDir (obs s)) s.
Proof.
  intros ([l Hm] & Hlo & Hh & Hnd & Hds) Hn Hfresh. unfold yaffs_CreateFakeDirectory.
  assert (Hfn : fresh_number (obs s) (u32 n)).
  { intros x o Hx Ho Hid. rewrite (wrap_small 32) in Hid by lia. apply Hfresh.
    apply Hh in Hx. apply list_elem_of_fmap in Hx as ([n' x'] & -> & Hin).
    destruct (Hds n' x' Hin) as (o' & cs & Ho' & Hid' & _). simpl in Ho. rewrite Ho in Ho'. simplify_eq.
    apply list_elem_of_fmap. by eexists (_, _). }
  assert (Hmk : forall s1 o, (forall x o, x ∈ ds.*2 -> objects (obs s) !! x = Some o ->
      exists o', objects (obs s1) !! x = Some o' /\ relisted o o') ->
    forall m x, (m, x) ∈ ds -> exists o cs, objects (obs s1) !! x = Some o /\ objId o = m /\
      variant o = DirectoryVariant cs).
  { intros s1 _ Hrel m x Hx. destruct (Hds m x Hx) as (o & cs & Ho & Hid & Hv).
    destruct (Hrel x o) as (o' & Ho' & Hr); [apply list_elem_of_fmap; by eexists (_, _)|done|].
    exists o'. destruct Hr as [->|(? & cs' & _ & ->)]; [by exists cs|by exists cs']. }
  eapply wp_seq; [apply (create_numbered cfg Hcfg s U l); [done|by left|lia|done|done]|].
  intros a s1 [_ [[-> [_ _ _ Hh1 Ho1 (Hr1 & Hr2 & Hr3 & Hr4) Hm1]]|
    [_ _ _ [Ha0 Hna] Hh1 (Hr1 & Hr2 & Hr3 & Hr4) Ho1 (tn & l1 & o & Hself & Hst & Hm1) _ _]]].
  - apply wp_bind, wp_when. cbn. apply wp_ret. cbn. split; [|done].
    split; [done|]. split; [by rewrite Hr2|]. split; [intros x; by rewrite Hh1|]. split; [done|].
    apply (Hmk s1 zero_object). intros x o Hx. apply Ho1. by apply Hh.
  - cbn in Hm1. apply wp_bind, wp_when. unfold ztrue. rewrite (proj2 (Z.eqb_neq a 0)) by done. cbn.
    destruct Hst as (Hid & Hty & Htyped & _ & _ & _ & _ & _ & _ & _ & _ & _ & Hv). cbn in Hv.
    set (f := fun o => o <| fake := true |> <| renameAllowed := false |> <| unlinkAllowed := false |>
      <| deleted := false |> <| unlinked := false |> <| yst_mode := mode |> <| hdrChunk := 0 |>).
    apply (wp_mod_obj a o f); [done|]. apply wp_ret. unfold add_dir. rewrite (proj2 (Z.eqb_neq a 0)) by done.
    split; [|done]. split; [exists l1; by apply mem_ok_mod|]. split; [exact (eq_trans Hr2 Hlo)|].
    assert (Hlk : forall x, x <> a -> objects (obs (s1 <| obs ::= fun t => t <| objects ::= <[a := f o]> |> |>)) !! x
      = objects (obs s1) !! x) by (intros x Hx; by apply lookup_insert_ne).
    split; [|split].
    + intros x. change (hashed (obs s1) x <-> x ∈ a :: ds.*2). rewrite Hh1, Hh, elem_of_cons. done.
    + simpl. apply NoDup_cons. split; [by rewrite <- Hh|done].
    + intros m x [[= -> ->]|Hx]%elem_of_cons.
      * exists (f o), []. split; [apply lookup_insert_eq|]. split; [|done].
        change (objId (f o)) with (objId o). rewrite Hid. apply wrap_small. lia.
      * assert (Hx2 : x ∈ ds.*2) by (apply list_elem_of_fmap; by eexists (_, _)).
        assert (Hxa : x <> a) by (intros ->; by apply Hna, Hh).
        rewrite Hlk by done. apply (Hmk s1 zero_object); [|done]. intros y oy Hy.
        apply Ho1. intros ->. by apply Hna, Hh.
Qed.

(** A mounted device has its four directories, and lost-and-found hangs in the root. *)
Record roots_ok (t : Objects) : Prop := {
  ro_objects : forall n a, (n, a) ∈ [(YAFFS_OBJECTID_UNLINKED, unlinkedDir t);
      (YAFFS_OBJECTID_DELETED, deletedDir t); (YAFFS_OBJECTID_ROOT, rootDir t);
      (YAFFS_OBJECTID_LOSTNFOUND, lostNFoundDir t)] ->
    hashed t a /\ exists o cs, objects t !! a = Some o /\ objId o = n /\ variant o = DirectoryVariant cs;
  ro_nodup : NoDup [unlinkedDir t; deletedDir t; rootDir t; lostNFoundDir t];
  ro_lost : forall d o, objects t !! d = Some o -> child_of o (lostNFoundDir t) <-> d = rootDir t
}.

Lemma CreateInitialDirectories_spec s U l :
  mem_ok cfg s U l -> (forall x, ~ hashed (obs s) x) ->
  wp (yaffs_CreateInitialDirectories cfg) (fun r s' =>
    (exists l', mem_ok cfg s' U l') /\ (r = YAFFS_OK -> roots_ok (obs s') /\
      forall x, hashed (obs s') x <-> x ∈ [unlinkedDir (obs s'); deletedDir (obs s'); rootDir (obs s');
        lostNFoundDir (obs s')])) s.
Proof.
  intros Hm Hno. unfold yaffs_CreateInitialDirectories, modO.
  assert (H0 : dirs_made (s <| obs ::= fun t => t <| lostNFoundDir := 0 |> <| rootDir := 0 |> |>
    <| obs ::= fun t => t <| unlinkedDir := 0 |> <| deletedDir := 0 |> |>) U []).
  { destruct Hm as [Hst Ht Hown]. split; [exists l; split; [done| |done]|].
    - apply (table_ok_objects (obs s)); [done|by split|done|].
      intros x o' Hx. exists o'. split; [done|]. split; [done|]. split; [done|]. intros c Hc. by left.
    - split; [done|]. split; [|split; [by apply NoDup_nil|by intros n x ?%not_elem_of_nil]].
      intros x. split; [intros Hx; by destruct (Hno x)|by intros ?%not_elem_of_nil]. }
  do 2 apply wp_bind, wp_modify.
  eapply wp_seq; [apply (CreateFakeDirectory_spec _ U []); [exact H0|done|apply not_elem_of_nil]|].
  intros u s1 (H1 & _ & _ & _). set (ds1 := add_dir YAFFS_OBJECTID_UNLINKED u []) in *.
  apply (dirs_made_roots s1 U ds1 (fun t => t <| unlinkedDir := u |>)) in H1; [|done].
  apply wp_bind, wp_modify. set (s1' := s1 <| obs ::= _ |>) in *.
  assert (Hu1 : unlinkedDir (obs s1') = u) by done. clearbody s1'. clear s1.
  assert (N1 : forall m, m <> 3 -> (m ∉ ds1.*1)) by (intros m Hm'; by apply add_dir_numbers, not_elem_of_nil).
  eapply wp_seq; [apply (CreateFakeDirectory_spec _ U ds1); [exact H1|done|by apply N1]|].
  intros d s2 (H2 & Hu2 & _ & _). set (ds2 := add_dir YAFFS_OBJECTID_DELETED d ds1) in *.
  apply (dirs_made_roots s2 U ds2 (fun t => t <| deletedDir := d |>)) in H2; [|done].
  apply wp_bind, wp_modify. rewrite Hu1 in Hu2.
  assert (Hu2' : unlinkedDir (obs (s2 <| obs ::= fun t => t <| deletedDir := d |> |>)) = u) by exact Hu2.
  set (s2' := s2 <| obs ::= _ |>) in *. assert (Hd2 : deletedDir (obs s2') = d) by done. clearbody s2'. clear s2 Hu2.
  assert (N2 : forall m, m <> 3 -> m <> 4 -> (m ∉ ds2.*1)) by (intros m Hm3 Hm4; apply add_dir_numbers; auto).
  eapply wp_seq; [apply (CreateFakeDirectory_spec _ U ds2); [exact H2|done|by apply N2]|].
  intros r s3 (H3 & Hu3 & Hd3 & _). set (ds3 := add_dir YAFFS_OBJECTID_ROOT r ds2) in *.
  apply (dirs_made_roots s3 U ds3 (fun t => t <| rootDir := r |>)) in H3; [|done].
  apply wp_bind, wp_modify. rewrite Hu2' in Hu3. rewrite Hd2 in Hd3.
  assert (Hu3' : unlinkedDir (obs (s3 <| obs ::= fun t => t <| rootDir := r |> |>)) = u) by exact Hu3.
  assert (Hd3' : deletedDir (obs (s3 <| obs ::= fun t => t <| rootDir := r |> |>)) = d) by exact Hd3.
  set (s3' := s3 <| obs ::= _ |>) in *. assert (Hr3 : rootDir (obs s3') = r) by done. clearbody s3'. clear s3 Hu3 Hd3.
  assert (N3 : forall m, m <> 3 -> m <> 4 -> m <> 1 -> (m ∉ ds3.*1)) by (intros m Hm3 Hm4 Hm1; apply add_dir_numbers; auto).
  eapply wp_seq; [apply (CreateFakeDirectory_spec _ U ds3); [exact H3|done|by apply N3]|].
  intros lf s4 (H4 & Hu4 & Hd4 & Hr4). rewrite Hu3' in Hu4. rewrite Hd3' in Hd4. rewrite Hr3 in Hr4.
  destruct H4 as ([l4 [Hst4 Ht4 Hown4]] & Hlo4 & Hh4 & Hnd4 & Hds4).
  apply wp_bind, wp_modify. set (s5 := s4 <| obs ::= fun t => t <| lostNFoundDir := lf |> |>).
  assert (Ht5 : table_ok (obs s5)).
  { apply (table_ok_objects (obs s4)); [done|by split|done|].
    intros x o' Hx. exists o'. split; [done|]. split; [done|]. split; [done|]. intros c Hc. by left. }
  assert (Hm5 : mem_ok cfg s5 U l4) by (split; [exact Hst4|exact Ht5|exact Hown4]).
  apply wp_if. unfold ztrue. destruct (Z.eqb_spec lf 0) as [|Hlf]; [apply wp_ret; split; [by exists l4|done]|].
  destruct (Z.eqb_spec r 0) as [|Hr]; [apply wp_ret; split; [by exists l4|done]|].
  destruct (Z.eqb_spec u 0) as [|Hu]; [apply wp_ret; split; [by exists l4|done]|].
  destruct (Z.eqb_spec d 0) as [|Hd]; [apply wp_ret; split; [by exists l4|done]|]. cbn [negb andb]. cbv iota.
  unfold ds3, ds2, ds1, add_dir in Hh4, Hnd4, Hds4.
  rewrite (proj2 (Z.eqb_neq lf 0)), (proj2 (Z.eqb_neq r 0)), (proj2 (Z.eqb_neq u 0)), (proj2 (Z.eqb_neq d 0))
    in Hh4, Hnd4, Hds4 by done. cbn in Hh4, Hnd4.
  destruct (Hds4 YAFFS_OBJECTID_ROOT r) as (od & cs & Hod & Hidd & Hvd); [by right; left|].
  destruct (Hds4 YAFFS_OBJECTID_LOSTNFOUND lf) as (ol & cl & Hol & Hidl & Hvl); [by left|].
  assert (Hlr : lf <> r) by (intros ->; apply NoDup_cons in Hnd4 as [Hn _]; apply Hn; by left).
  eapply wp_seq; [apply (AddObjectToDirectory_spec s5 r lf od ol cs Hod Hvd Hol Hlr)|].
  intros _ s6 ((_ & Htn & _) & Hmv). apply wp_ret.
  assert (Hlin : hashed (obs s5) lf) by (apply Hh4; by left).
  assert (Hfree : lf ∉ freeObjects (obs s5)).
  { intros Hf. by destruct (to_free _ Ht5 lf Hf) as (_ & Hnh & _). }
  pose proof (moved_ok (obs s5) (obs s6) lf r Ht5 ltac:(by eexists) Hfree Hmv) as Ht6.
  pose proof Hmv as [Hsh (Hx1 & Hx2 & Hx3 & Hx4 & _) Hdom Hmo Hms Hmc].
  change (rootDir (obs s5)) with (rootDir (obs s4)) in Hx1. change (lostNFoundDir (obs s5)) with lf in Hx2.
  change (unlinkedDir (obs s5)) with (unlinkedDir (obs s4)) in Hx3.
  change (deletedDir (obs s5)) with (deletedDir (obs s4)) in Hx4.
  rewrite Hr4 in Hx1. rewrite Hu4 in Hx3. rewrite Hd4 in Hx4.
  assert (Hh6 : forall x, hashed (obs s6) x <-> x ∈ [u; d; r; lf]).
  { intros x. rewrite (same_hash_hashed (obs s5) _ x Hsh). change (hashed (obs s4) x <-> x ∈ [u; d; r; lf]).
    rewrite Hh4. rewrite !elem_of_cons, !elem_of_nil. tauto. }
  split; [|intros _; split; [|rewrite Hx1, Hx2, Hx3, Hx4; exact Hh6]].
  { exists l4. split; [by rewrite Htn|done|]. rewrite Htn. intros x [Hx|Hx]; apply Hown4; [left; by apply Hdom|right].
    by rewrite (sh_free _ _ Hsh) in Hx. }
  split.
  - rewrite Hx1, Hx2, Hx3, Hx4. intros n a Hin.
    assert (Hin4 : (n, a) ∈ [(YAFFS_OBJECTID_LOSTNFOUND, lf); (YAFFS_OBJECTID_ROOT, r); (YAFFS_OBJECTID_DELETED, d);
      (YAFFS_OBJECTID_UNLINKED, u)]) by (rewrite !elem_of_cons, !elem_of_nil in *; tauto).
    destruct (Hds4 n a Hin4) as (o & c & Ho & Hid & Hv). split.
    { apply Hh6. rewrite !elem_of_cons, !elem_of_nil in *. naive_solver. }
    destruct (proj2 (Hdom a)) as [o' Ho']; [by eexists|]. exists o'.
    assert (Hrel : exists o1, relisted o1 o' /\ objId o1 = n /\ variant o1 = DirectoryVariant c).
    { destruct (decide (a = lf)) as [->|Hne]; [|exists o; split; [by apply (Hmo a)|done]].
      exists (adopted (obs s5) r o). split; [by apply Hms|]. unfold adopted. by destruct (_ || _). }
    destruct Hrel as (o1 & Hrel & Hid1 & Hv1).
    destruct Hrel as [->|(? & c' & _ & ->)]; [by exists c|by exists c'].
  - rewrite Hx1, Hx2, Hx3, Hx4. clear -Hnd4.
    assert (Hp : [u; d; r; lf] ≡ₚ [lf; r; d; u]) by apply (reverse_Permutation [lf; r; d; u]).
    by rewrite Hp.
  - intros x o' Hx. rewrite Hx1, Hx2. destruct (proj1 (Hdom x)) as [o Ho]; [by eexists|].
    rewrite (Hmc x o o' lf Ho Hx). by rewrite decide_True.
Qed.
End directories2.

(** ** Properties *)

Section properties.
Context {N K : Type} `{!Kmalloc K} `{!Clock K} (cfg : Config).
Implicit Types (s : FS N K).

(** A number names one object. *)
Lemma numbered_unique (t : Objects) n a a' : table_ok t -> numbered t n a -> numbered t n a' -> a = a'.
Proof.
  intros Ht. unfold numbered.
  destruct (Z.eqb_spec a 0) as [->|Ha], (Z.eqb_spec a' 0) as [->|Ha']; intros H H'; try done.
  - destruct H' as (Hh & o & Ho & Hid & Hdef). by rewrite (H a' o Hh Ho Hid) in Hdef.
  - destruct H as (Hh & o & Ho & Hid & Hdef). by rewrite (H' a o Hh Ho Hid) in Hdef.
  - destruct H as (Hh & o & Ho & Hid & _), H' as (Hh' & o' & Ho' & Hid' & _).
    apply (to_unique _ Ht a a' o o'); try done. by rewrite Hid.
Qed.

(** Objects in use keep their numbers, and no other object has number [n]. *)
Lemma numbered_keep (t t' : Objects) n a :
  table_ok t -> table_ok t' ->
  (forall x o, hashed t x -> objects t !! x = Some o -> hashed t' x /\
    exists o', objects t' !! x = Some o' /\ objId o' = objId o /\ deferedFree o' = deferedFree o) ->
  (forall x o, hashed t' x -> objects t' !! x = Some o -> objId o = n -> hashed t x) ->
  numbered t n a -> numbered t' n a.
Proof.
  intros Ht Ht' Hkeep Hback. unfold numbered. destruct (Z.eqb_spec a 0) as [->|Ha].
  - intros H x o' Hx Ho' Hid. pose proof (Hback x o' Hx Ho' Hid) as Hx0.
    destruct (hashed_linked t x Ht Hx0) as (_ & _ & _ & _ & _ & o & Ho & _).
    destruct (Hkeep x o Hx0 Ho) as (_ & o2 & Ho2 & Hid2 & Hd2). rewrite Ho' in Ho2. injection Ho2 as <-.
    rewrite Hd2. by apply (H x o Hx0 Ho); rewrite <- Hid2.
  - intros (Hh & o & Ho & Hid & Hdef). destruct (Hkeep a o Hh Ho) as (Hh' & o' & Ho' & Hid' & Hdef').
    split; [done|]. exists o'. split; [done|]. by rewrite Hid', Hdef'.
Qed.

(** C25. A search for a new object number ends, with a number nobody has: when every bucket
    has less than 999999 objects, [yaffs_FindNiceObjectBucket] stays inside the bucket
    array, and the loop over candidate numbers is left after at most one round more than
    the bucket has objects.  The number is positive as an [int], and above the numbers of
    the built-in objects. *)
Theorem CreateNewObjectNumber_fresh s :
  table_ok (obs s) -> counts_small (obs s) ->
  wp yaffs_CreateNewObjectNumber (fun n s' => 256 <= n < 2 ^ 31 /\ fresh_number (obs s) n /\
    exists x, s' = with_nice s x /\ 0 <= x < 256) s.
Proof. apply CreateNewObjectNumber_spec. Qed.

(** C24. What is created is found.  With the books of memory and objects right, and a number
    nobody has, [yaffs_CreateNewObject] gives null exactly when there is no object to be had
    or, for a file, no tnode: none is free and the kernel refuses the memory of another
    bunch.  Otherwise it gives a new object with the variant of its type, and a look-up of
    its number finds it.  A look-up of any other number finds what it found before, and
    the books stay right: chains without repetition in the bucket of the number, exact
    counters, unique numbers, every object of the type its variant says.  One case is
    excluded by hypothesis: a file for which there is an object but no tnode, once there is
    a lost-and-found directory; there the code frees an object that still hangs in that
    directory, and the books break. *)
Theorem CreateNewObject_found `{!KmallocLaws K} s U l number type m :
  tn_cfg_ok cfg -> mem_ok cfg s U l -> lost_ok (obs s) ->
  0 <= number < 2 ^ 31 -> fresh_number (obs s) number ->
  (type = OBJECT_TYPE_FILE -> lostNFoundDir (obs s) = 0 \/ tnode_at_hand cfg s) ->
  wp (old ← yaffs_FindObjectByNumber m;
      a ← yaffs_CreateNewObject cfg number type;
      new ← yaffs_FindObjectByNumber m;
      mret (old, a, new)) (fun '(old, a, new) s' =>
    (exists U' l', mem_ok cfg s' U' l') /\ (a = 0 <-> not_to_be_had cfg s type) /\
    (a = 0 \/ hashed (obs s') a /\ exists o, objects (obs s') !! a = Some o /\ objId o = number /\
      variantType o = type /\ typed o) /\
    new = (if (a =? 0) || negb (m =? number) then old else a)) s.
Proof.
  intros Hcfg Hm Hlost Hnum Hfresh Hmem. pose proof (mo_table _ _ _ _ Hm) as Ht.
  assert (Hu : u32 number = number) by (apply wrap_small; lia).
  eapply wp_seq; [by apply FindObjectByNumber_spec|]. intros old s0 [-> Hold].
  eapply wp_seq; [apply (create_numbered cfg Hcfg s U l number type); try done; [lia|by rewrite Hu]|].
  intros a s1 [Hnull H1]. assert (Hm1 : exists U' l', mem_ok cfg s1 U' l').
  { destruct H1 as [[_ Hun]|[_ _ _ _ _ _ _ (tn & l' & o & _ & _ & Hm1) _ _]].
    - destruct (un_mem _ _ _ _ Hun) as [l' Hm']. by exists U, l'.
    - destruct (type =? OBJECT_TYPE_FILE); [destruct Hm1 as (_ & _ & Hm1 & _)|]; by eexists _, _. }
  destruct Hm1 as (U' & l' & Hm1). pose proof (mo_table _ _ _ _ Hm1) as Ht1.
  eapply wp_seq; [by apply FindObjectByNumber_spec|]. intros new s2 [-> Hnew]. apply wp_ret.
  split; [by exists U', l'|]. split; [exact Hnull|]. clear Hnull.
  (* the objects that were in use still have their numbers *)
  assert (Hkeep : forall x o, hashed (obs s) x -> objects (obs s) !! x = Some o -> hashed (obs s1) x /\
    exists o', objects (obs s1) !! x = Some o' /\ objId o' = objId o /\ deferedFree o' = deferedFree o).
  { intros x o Hx Ho. assert (Hh : hashed (obs s1) x /\ exists o', objects (obs s1) !! x = Some o' /\ relisted o o').
    { destruct H1 as [[_ Hun]|Hcr].
      - split; [by apply (un_hashed _ _ _ _ Hun)|by apply (un_objects _ _ _ _ Hun)].
      - destruct (cr_new _ _ _ _ _ _ _ Hcr) as [_ Hna].
        split; [apply (cr_hashed _ _ _ _ _ _ _ Hcr); by right|apply (cr_other _ _ _ _ _ _ _ Hcr); [by intros ->|done]]. }
    destruct Hh as [Hh (o' & Ho' & Hr)]. split; [done|]. exists o'. split; [done|].
    by destruct Hr as [->|(cs & cs' & _ & ->)]. }
  destruct H1 as [[-> Hun]|Hcr].
  - split; [by left|]. cbn. apply (numbered_unique (obs s1) m); [done|done|].
    apply (numbered_keep (obs s)); try done. intros x o Hx _ _. by apply (un_hashed _ _ _ _ Hun).
  - destruct Hcr as [_ _ _ [Ha0 Hna] Hh _ _ (tn & l2 & o & Ho & Hst & _) _ _].
    destruct Hst as (Hid & Hty & Htyped & _ & _ & Hdef & _). rewrite Hu in Hid.
    split; [right; split; [apply Hh; by left|by exists o]|]. rewrite (proj2 (Z.eqb_neq a 0)) by done. simpl.
    apply (numbered_unique (obs s1) m); [done|done|].
    destruct (Z.eqb_spec m number) as [->|Hne]; simpl.
    + unfold numbered. rewrite (proj2 (Z.eqb_neq a 0)) by done. split; [apply Hh; by left|by exists o].
    + apply (numbered_keep (obs s)); try done. intros x o' Hx Ho' Hid'. apply Hh in Hx as [->|Hx]; [|done].
      rewrite Ho in Ho'. injection Ho' as <-. congruence.
Qed.

(** C26. An object that is freed is forgotten: from right books, when the inode cache does not
    hold the object and it hangs in no directory, [yaffs_FreeObject] takes it out of its
    bucket and puts it on the free list; a look-up of its number finds nothing, and a
    look-up of any other number what it found before. *)
Theorem FreeObject_forgets `{!KmallocLaws K} s U l a o m :
  mem_ok cfg s U l -> hashed (obs s) a -> objects (obs s) !! a = Some o -> myInode o = 0 ->
  (forall d od, objects (obs s) !! d = Some od -> ~ child_of od a) ->
  wp (old ← yaffs_FindObjectByNumber m;
      _ ← yaffs_FreeObject a;
      new ← yaffs_FindObjectByNumber m;
      mret (old, new)) (fun '(old, new) s' =>
    mem_ok cfg s' U l /\ freeObjects (obs s') = a :: freeObjects (obs s) /\
    new = if m =? objId o then 0 else old) s.
Proof.
  intros Hm Hh Ho Hino Hnd. pose proof (mo_table _ _ _ _ Hm) as Ht.
  eapply wp_seq; [by apply FindObjectByNumber_spec|]. intros old s0 [-> Hold].
  eapply wp_seq; [by apply (FreeObject_spec cfg s U l a o)|]. intros _ s1 [Hm1 [_ Hob _ Hh1 Hf]].
  pose proof (mo_table _ _ _ _ Hm1) as Ht1.
  eapply wp_seq; [by apply FindObjectByNumber_spec|]. intros new s2 [-> Hnew]. apply wp_ret.
  split; [done|]. split; [done|]. apply (numbered_unique (obs s1) m); [done|done|].
  destruct (Z.eqb_spec m (objId o)) as [->|Hne].
  - unfold numbered. cbn. intros x ox Hx Hox Hid. apply Hh1 in Hx as [Hxa Hx]. rewrite Hob in Hox.
    by destruct (to_unique _ Ht x a ox o Hx Hh Hox Ho Hid).
  - unfold numbered in *. destruct (Z.eqb_spec old 0) as [Hz|Hz].
    + intros x ox Hx Hox. apply Hh1 in Hx as [_ Hx]. rewrite Hob in Hox. exact (Hold x ox Hx Hox).
    + destruct Hold as (Hho & oo & Hoo & Hid & Hdef). split; [|exists oo; by rewrite Hob].
      apply Hh1. split; [|done]. intros ->. rewrite Ho in Hoo. injection Hoo as <-. congruence.
Qed.

(** C27. Mounting sets up the directories: from a table without objects,
    [yaffs_CreateInitialDirectories] leaves the books right whatever the kernel's allocator
    does; when it reports success, the unlinked, the deleted, the root and the lost-and-found
    directory are four objects with their numbers, nothing else is in use, and
    lost-and-found hangs in the root and nowhere else. *)
Theorem CreateInitialDirectories_roots `{!KmallocLaws K} s U l :
  tn_cfg_ok cfg -> mem_ok cfg s U l -> (forall x, ~ hashed (obs s) x) ->
  wp (yaffs_CreateInitialDirectories cfg) (fun r s' =>
    (exists l', mem_ok cfg s' U l') /\ (r = YAFFS_OK -> roots_ok (obs s') /\
      forall x, hashed (obs s') x <-> x ∈ [unlinkedDir (obs s'); deletedDir (obs s'); rootDir (obs s');
        lostNFoundDir (obs s')])) s.
Proof. intros Hcfg. by apply CreateInitialDirectories_spec. Qed.
End properties.

(** ** On the sample device *)

#[export] Instance sample_clock : Clock Z := {| current_time _ := 1200000000 |}.

(** A device that [yaffs_InitialiseObjects] has just left, and the same with its
    directories. *)
Definition empty_objects : Objects :=
  MkObjects ∅ (replicate 256 (MkBucket [] 0)) [] 0 0 [] 0 0 0 0 0 0 0 0.
Definition empty_fs : FS Flash Z := MkFS sample_state empty_tnodes empty_objects (MkCaches [] 0 0).
Definition mounted_fs : FS Flash Z := run_state (yaffs_CreateInitialDirectories sample_cfg) empty_fs.

Lemma empty_objects_ok : table_ok empty_objects.
Proof.
  assert (Hb : forall i b, replicate 256 (MkBucket [] 0) !! i = Some b -> b = MkBucket [] 0).
  { intros i b [-> _]%lookup_replicate. done. }
  assert (Hh : forall x, ~ hashed empty_objects x).
  { intros x (i & b & ->%Hb & Hx). by apply not_elem_of_nil in Hx. }
  split; try done.
  - intros i b ->%Hb. split; [apply NoDup_nil_2|]. by split.
  - apply NoDup_nil_2.
  - intros a Ha. by apply not_elem_of_nil in Ha.
Qed.

Lemma empty_fs_ok : mem_ok sample_cfg empty_fs ∅ [].
Proof.
  split; [exact empty_store_ok|exact empty_objects_ok|].
  intros x [[o Hx]|Hx]; [done|by apply not_elem_of_nil in Hx].
Qed.

Lemma empty_fs_unhashed x : ~ hashed (obs empty_fs) x.
Proof. intros (i & b & [-> _]%lookup_replicate & Hx). by apply not_elem_of_nil in Hx. Qed.

Lemma mounted_fs_ok : exists l, mem_ok sample_cfg mounted_fs ∅ l /\ roots_ok (obs mounted_fs) /\
  forall x, hashed (obs mounted_fs) x <-> x ∈ [unlinkedDir (obs mounted_fs); deletedDir (obs mounted_fs);
    rootDir (obs mounted_fs); lostNFoundDir (obs mounted_fs)].
Proof.
  destruct (run_state_result _ _ empty_fs YAFFS_OK (CreateInitialDirectories_spec sample_cfg
    sample_tn_cfg_ok empty_fs ∅ [] empty_fs_ok empty_fs_unhashed)) as [[l Hm] Hroots].
  { vm_compute. reflexivity. }
  exists l. split; [exact Hm|]. exact (Hroots eq_refl).
Qed.

Lemma roots_lost (t : Objects) : roots_ok t -> lost_ok t.
Proof.
  intros Hr. right. destruct (ro_objects _ Hr YAFFS_OBJECTID_LOSTNFOUND (lostNFoundDir t)) as (Hh & o & cs & Ho & _ & Hv);
    [do 3 right; by left|]. split; [exact Hh|by exists o, cs].
Qed.

Lemma roots_root (t : Objects) : roots_ok t -> hashed t (rootDir t) /\
  exists o cs, objects t !! rootDir t = Some o /\ objId o = YAFFS_OBJECTID_ROOT /\ variant o = DirectoryVariant cs.
Proof. intros Hr. apply (ro_objects _ Hr). do 2 right. by left. Qed.

Lemma roots_numbers (t : Objects) x o :
  roots_ok t -> (forall x, hashed t x <-> x ∈ [unlinkedDir t; deletedDir t; rootDir t; lostNFoundDir t]) ->
  hashed t x -> objects t !! x = Some o -> 1 <= objId o <= 4.
Proof.
  intros Hr Hh Hx Ho. apply Hh in Hx.
  assert (Hin : exists n, 1 <= n <= 4 /\ (n, x) ∈ [(YAFFS_OBJECTID_UNLINKED, unlinkedDir t);
    (YAFFS_OBJECTID_DELETED, deletedDir t); (YAFFS_OBJECTID_ROOT, rootDir t);
    (YAFFS_OBJECTID_LOSTNFOUND, lostNFoundDir t)]).
  { unfold YAFFS_OBJECTID_UNLINKED, YAFFS_OBJECTID_DELETED, YAFFS_OBJECTID_ROOT, YAFFS_OBJECTID_LOSTNFOUND.
    rewrite !elem_of_cons, elem_of_nil in Hx. destruct Hx as [->|[->|[->|[->|[]]]]]; eexists;
      (split; [|rewrite !elem_of_cons; eauto]); lia. }
  destruct Hin as (n & Hn & Hin). destruct (ro_objects _ Hr n x Hin) as (_ & o' & cs & Ho' & <- & _).
  rewrite Ho in Ho'. by injection Ho' as <-.
Qed.

Lemma CreateNewObjectNumber_fresh_witness :
  fst <$> yaffs_CreateNewObjectNumber empty_fs = Some 257 /\
  wp yaffs_CreateNewObjectNumber (fun n s' => 256 <= n < 2 ^ 31 /\ fresh_number (obs empty_fs) n /\
    exists x, s' = with_nice empty_fs x /\ 0 <= x < 256) empty_fs.
Proof.
  split; [vm_compute; reflexivity|]. apply (CreateNewObjectNumber_fresh empty_fs); [exact empty_objects_ok|].
  intros i b [-> _]%lookup_replicate. reflexivity.
Defined.

(** The first file after a mount: no tnode is free, and the kernel grants a bunch. *)
Lemma first_file_tnode : freeTnodes (tns mounted_fs) = 0 /\ tnode_at_hand sample_cfg mounted_fs.
Proof.
  split; [vm_compute; reflexivity|]. right. intros a s1 Hrun _.
  assert (Hf : (fun '(_, s') =>
      fst (ymalloc (YAFFS_ALLOCATION_NTNODES * tnodeSize sample_cfg) (heap (tns s'))) =? 0)
    <$> yaffs_AllocateEmptyObject mounted_fs = Some false) by (vm_compute; reflexivity).
  rewrite Hrun in Hf. injection Hf as Hf. by apply Z.eqb_neq in Hf.
Qed.

Lemma CreateNewObject_found_witness :
  exists l, mem_ok sample_cfg mounted_fs ∅ l /\
  wp (old ← yaffs_FindObjectByNumber 300;
      a ← yaffs_CreateNewObject sample_cfg 300 OBJECT_TYPE_FILE;
      new ← yaffs_FindObjectByNumber 300;
      mret (old, a, new)) (fun '(old, a, new) s' =>
    (exists U' l', mem_ok sample_cfg s' U' l') /\
    (a = 0 <-> not_to_be_had sample_cfg mounted_fs OBJECT_TYPE_FILE) /\
    (a = 0 \/ hashed (obs s') a /\ exists o, objects (obs s') !! a = Some o /\ objId o = 300 /\
      variantType o = OBJECT_TYPE_FILE /\ typed o) /\
    new = (if (a =? 0) || negb (300 =? 300) then old else a)) mounted_fs.
Proof.
  destruct mounted_fs_ok as (l & Hm & Hr & Hh). exists l. split; [exact Hm|].
  apply (CreateNewObject_found sample_cfg mounted_fs ∅ l 300 OBJECT_TYPE_FILE 300).
  - exact sample_tn_cfg_ok.
  - exact Hm.
  - exact (roots_lost _ Hr).
  - lia.
  - intros x o Hx Ho. pose proof (roots_numbers _ x o Hr Hh Hx Ho). lia.
  - intros _. right. exact (proj2 first_file_tnode).
Defined.

Lemma FreeObject_forgets_witness :
  exists l o, mem_ok sample_cfg mounted_fs ∅ l /\ objects (obs mounted_fs) !! rootDir (obs mounted_fs) = Some o /\
  wp (old ← yaffs_FindObjectByNumber 1;
      _ ← yaffs_FreeObject (rootDir (obs mounted_fs));
      new ← yaffs_FindObjectByNumber 1;
      mret (old, new)) (fun '(old, new) s' =>
    mem_ok sample_cfg s' ∅ l /\ freeObjects (obs s') = rootDir (obs mounted_fs) :: freeObjects (obs mounted_fs) /\
    new = if 1 =? objId o then 0 else old) mounted_fs.
Proof.
  destruct mounted_fs_ok as (l & Hm & Hr & Hh).
  destruct (roots_root _ Hr) as (Hhash & o & cs & Ho & Hid & Hv).
  exists l, o. split; [exact Hm|]. split; [exact Ho|].
  apply (FreeObject_forgets sample_cfg mounted_fs ∅ l (rootDir (obs mounted_fs)) o 1 Hm Hhash Ho).
  - assert (Hz : (myInode <$> objects (obs mounted_fs) !! rootDir (obs mounted_fs)) = Some 0) by (vm_compute; reflexivity).
    rewrite Ho in Hz. injection Hz as Hz. exact Hz.
  - assert (Hno : in_directory (objects (obs mounted_fs)) (rootDir (obs mounted_fs)) = false) by (vm_compute; reflexivity).
    exact (not_in_directory _ _ Hno).
Defined.

Lemma CreateInitialDirectories_roots_witness :
  fst <$> yaffs_CreateInitialDirectories sample_cfg empty_fs = Some YAFFS_OK /\
  wp (yaffs_CreateInitialDirectories sample_cfg) (fun r s' =>
    (exists l', mem_ok sample_cfg s' ∅ l') /\ (r = YAFFS_OK -> roots_ok (obs s') /\
      forall x, hashed (obs s') x <-> x ∈ [unlinkedDir (obs s'); deletedDir (obs s'); rootDir (obs s');
        lostNFoundDir (obs s')])) empty_fs.
Proof.
  split; [vm_compute; reflexivity|].
  apply (CreateInitialDirectories_roots sample_cfg empty_fs ∅ []);
    [exact sample_tn_cfg_ok|exact empty_fs_ok|exact empty_fs_unhashed].
Defined.

(** The kernel has no memory left. *)
Definition out_of_memory (s : FS Flash Z) : FS Flash Z := s <| tns ::= fun t => t <| heap := 0 |> |>.

(** When there is no tnode for a new file, [yaffs_CreateNewObject] gives its object back
    to the free list although [yaffs_AllocateEmptyObject] has just hung it into
    lost-and-found: the free list runs through the pointer that chains the children, so the
    model, where a chained object must hang in no directory, is stuck.  A directory is
    created all the same. *)
Theorem CreateNewObject_frees_child :
  yaffs_CreateNewObject sample_cfg 300 OBJECT_TYPE_FILE (out_of_memory mounted_fs) = None /\
  exists a s', yaffs_CreateNewObject sample_cfg 300 OBJECT_TYPE_DIRECTORY (out_of_memory mounted_fs) = Some (a, s').
Proof.
  split; [vm_compute; reflexivity|].
  eexists _, _. vm_compute. reflexivity.
Qed.
