(* ===== verification/File.v ===== *)
(** * The data of files ([yaffs_guts.c])

    A chunk of a file is found through the file's tree and recognised by its tags; writing a
    chunk writes a new page, hangs it into the tree and deletes the page it replaces; deleting
    a file only counts its pages as soft deleted.  The garbage collection that a write starts
    with is a parameter, since it calls back into these functions; [Collector] says what it
    promises to them.  The theorems show that a file's chunks are a map from chunk numbers to
    data: writing inserts, reading looks up, and no other file is touched. *)
From S2P Require Import Prelude Monad ObjHeader Tags Device Nand Sim BlockInv Blocks Medium Blank Tnode Tree Objects.

Definition yaffs_TagsMatch (tags : ExtendedTags) (objectId_ chunkInObject : Z) : bool :=
  (chunkId tags =? u32 chunkInObject) && (objectId tags =? u32 objectId_) &&
  negb (ztrue (chunkDeleted tags)).

Section find.
Context {N : Type} {nd : NandDriver N} (cfg : Config).

(** The loop of [yaffs_FindChunkInGroup], [n] passes at most: the chunk or -1, and the tags
    that were read last. *)
Fixpoint find_in_group (n : nat) (theChunk : Z) (tags : ExtendedTags) (objectId_ chunkInInode : Z)
    : M (State N) (Z * ExtendedTags) :=
  match n with
  | O => mret (-1, tags)
  | S n =>
      if ztrue theChunk then
        used ← yaffs_CheckChunkBit cfg (Z.quot theChunk (nChunksPerBlock cfg))
                 (Z.rem theChunk (nChunksPerBlock cfg));
        if (used : bool) then
          r ← yaffs_ReadChunkWithTagsFromNAND cfg theChunk None tags;
          let tags := snd r in
          if yaffs_TagsMatch tags objectId_ chunkInInode then mret (theChunk, tags)
          else find_in_group n (theChunk + 1) tags objectId_ chunkInInode
        else find_in_group n (theChunk + 1) tags objectId_ chunkInInode
      else mret (-1, tags)
  end.

Definition yaffs_FindChunkInGroup (theChunk : Z) (tags : ExtendedTags) (objectId_ chunkInInode : Z)
    : M (State N) (Z * ExtendedTags) :=
  find_in_group (Z.to_nat (chunkGroupSize cfg)) theChunk tags objectId_ chunkInInode.

Definition yaffs_SoftDeleteChunk (chunk : Z) : M (State N) unit :=
  _ ← set_block_info cfg (Z.quot chunk (nChunksPerBlock cfg))
        (fun bi => bi <| softDeletions ::= fun x => swrap 10 (x + 1) |>);
  modB (fun b => b <| nFreeChunks ::= Z.succ |>).
End find.

Section file.
Context {N K : Type} {nd : NandDriver N} `{!Kmalloc K} (cfg : Config).
Local Abbreviation St := (FS N K).

(** ** Chunks of a file *)

(** With a null pointer for [tags] the tags are a local variable. *)
Definition yaffs_FindChunkInFile (in_ chunkInInode : Z) (tags : ExtendedTags)
    : M St (Z * ExtendedTags) :=
  f ← get_file in_;
  tn ← on_tns (yaffs_FindLevel0Tnode f chunkInInode);
  if ztrue tn then
    theChunk ← on_tns (yaffs_GetChunkGroupBase cfg tn chunkInInode);
    o ← get_obj in_;
    on_dev (yaffs_FindChunkInGroup cfg (i32 theChunk) tags (objId o) chunkInInode)
  else mret (-1, tags).

Definition yaffs_FindAndDeleteChunkInFile (in_ chunkInInode : Z) (tags : ExtendedTags)
    : M St (Z * ExtendedTags) :=
  f ← get_file in_;
  tn ← on_tns (yaffs_FindLevel0Tnode f chunkInInode);
  if ztrue tn then
    theChunk ← on_tns (yaffs_GetChunkGroupBase cfg tn chunkInInode);
    o ← get_obj in_;
    r ← on_dev (yaffs_FindChunkInGroup cfg (i32 theChunk) tags (objId o) chunkInInode);
    _ ← when (negb (fst r =? -1)) (on_tns (yaffs_PutLevel0Tnode cfg tn chunkInInode 0));
    mret r
  else mret (-1, tags).

(** The clash of two chunks while scanning: [None] ends the function, [Some existingChunk]
    goes on. *)
Definition scan_clash (in_ chunkInInode chunkInNAND inScan existingChunk : Z) : M St (option Z) :=
  r ← (if 0 <? inScan then
    new ← on_dev (yaffs_ReadChunkWithTagsFromNAND cfg chunkInNAND None stack_tags);
    old ← yaffs_FindChunkInFile in_ chunkInInode stack_tags;
    mret (fst old, snd old, snd new)
  else mret (existingChunk, stack_tags, stack_tags));
  let '(existingChunk, existingTags, newTags) := r in
  let newSerial := serialNumber newTags in
  let existingSerial := serialNumber existingTags in
  if (0 <? inScan) && (isYaffs2 cfg || (existingChunk <=? 0) ||
      (Z.land (u32 (existingSerial + 1)) 3 =? newSerial)) then
    _ ← on_dev (yaffs_DeleteChunk cfg existingChunk true);
    mret (Some existingChunk)
  else
    _ ← on_dev (yaffs_DeleteChunk cfg chunkInNAND true);
    mret None.

(** A data chunk for an object that is no file is dropped. *)
Definition yaffs_PutChunkIntoFile (in_ chunkInInode chunkInNAND inScan : Z) : M St Z :=
  o ← get_obj in_;
  if negb (variantType o =? OBJECT_TYPE_FILE) then
    _ ← on_dev (yaffs_DeleteChunk cfg chunkInNAND true);
    mret YAFFS_OK
  else
    f ← get_file in_;
    r ← on_tns (yaffs_AddOrFindLevel0Tnode cfg f chunkInInode 0);
    let '(tn, f) := r in
    _ ← set_file in_ f;
    if negb (ztrue tn) then mret YAFFS_FAIL else
    base ← on_tns (yaffs_GetChunkGroupBase cfg tn chunkInInode);
    let existingChunk := i32 base in
    go ← (if ztrue inScan && ztrue existingChunk
          then scan_clash in_ chunkInInode chunkInNAND inScan existingChunk
          else mret (Some existingChunk));
    match go with
    | None => mret YAFFS_OK
    | Some existingChunk =>
        _ ← when (existingChunk =? 0) (mod_obj in_ (fun o => o <| nDataChunks ::= Z.succ |>));
        _ ← on_tns (yaffs_PutLevel0Tnode cfg tn chunkInInode chunkInNAND);
        mret YAFFS_OK
    end.

(** [memset(buffer, 0, n)]; [None] when the buffer is shorter. *)
Definition zero_fill (n : Z) (buffer : list Z) : option (list Z) :=
  if Z.of_nat (length buffer) <? n then None
  else Some (replicate (Z.to_nat n) 0 ++ drop (Z.to_nat n) buffer).

(** The result and what is in the buffer then; a hole reads as zeros. *)
Definition yaffs_ReadChunkDataFromObject (in_ chunkInInode : Z) (buffer : list Z)
    : M St (Z * list Z) :=
  c ← yaffs_FindChunkInFile in_ chunkInInode stack_tags;
  if 0 <=? fst c then
    r ← on_dev (yaffs_ReadChunkWithTagsFromNAND cfg (fst c) (Some buffer) stack_tags);
    let '(res, data, _) := r in
    data ← of_option data;
    mret (res, data)
  else
    data ← of_option (zero_fill (nDataBytesPerChunk cfg) buffer);
    mret (0, data).

(** [collect] is [yaffs_CheckGarbageCollection]. *)
Definition yaffs_WriteChunkDataToObject (collect : M St Z) (in_ chunkInInode : Z) (buffer : list Z)
    (nBytes : Z) (useReserve : bool) : M St Z :=
  _ ← collect;
  prev ← yaffs_FindChunkInFile in_ chunkInInode stack_tags;
  let '(prevChunkId, prevTags) := prev in
  o ← get_obj in_;
  let newTags := yaffs_InitialiseTags <| chunkId := u32 chunkInInode |> <| objectId := u32 (objId o) |>
    <| serialNumber := if 0 <=? prevChunkId then u32 (serialNumber prevTags + 1) else 1 |>
    <| byteCount := u32 nBytes |> in
  newChunkId ← on_dev (yaffs_WriteNewChunkWithTagsToNAND cfg (Some buffer) newTags useReserve);
  _ ← when (0 <=? newChunkId) (
    _ ← yaffs_PutChunkIntoFile in_ chunkInInode newChunkId 0;
    when (0 <=? prevChunkId) (on_dev (yaffs_DeleteChunk cfg prevChunkId true)));
  mret newChunkId.

(** ** Soft deletion and shrinking *)

(** [1] if the tree below [tn] was deleted; [level] levels of internal tnodes are left. *)
Fixpoint yaffs_SoftDeleteWorker (level : nat) (tn : Z) : M St bool :=
  if ztrue tn then
    match level with
    | S l =>
        for_acc (rev (seqZ 0 YAFFS_NTNODES_INTERNAL)) (fun i allDone =>
          if (allDone : bool) then
            child ← on_tns (get_word tn i);
            if ztrue child then
              allDone ← yaffs_SoftDeleteWorker l child;
              _ ← when allDone (
                _ ← on_tns (yaffs_FreeTnode child);
                on_tns (put_word tn i 0));
              mret allDone
            else mret allDone
          else mret false) true
    | O =>
        _ ← for_each (rev (seqZ 0 YAFFS_NTNODES_LEVEL0)) (fun i =>
          theChunk ← on_tns (yaffs_GetChunkGroupBase cfg tn i);
          when (ztrue (i32 theChunk)) (
            _ ← on_dev (yaffs_SoftDeleteChunk cfg (i32 theChunk));
            on_tns (yaffs_PutLevel0Tnode cfg tn i 0)));
        mret true
    end
  else mret true.

(** The old size is an [int].  The loop goes down from the last chunk; chunk numbers outside
    the device are only reported. *)
Definition yaffs_PruneResizedChunks (in_ newSize : Z) : M St unit :=
  f ← get_file in_;
  let oldFileSize := i32 (fileSize f) in
  let lastDel := 1 + Z.quot (oldFileSize - 1) (nDataBytesPerChunk cfg) in
  let startDel := 1 + Z.quot (newSize + nDataBytesPerChunk cfg - 1) (nDataBytesPerChunk cfg) in
  for_each (rev (seqZ startDel (lastDel + 1 - startDel))) (fun i =>
    r ← yaffs_FindAndDeleteChunkInFile in_ i stack_tags;
    let chunkId_ := fst r in
    when (0 <? chunkId_) (
      when (negb ((chunkId_ <? internalStartBlock cfg * nChunksPerBlock cfg) ||
                  ((internalEndBlock cfg + 1) * nChunksPerBlock cfg <=? chunkId_))) (
        _ ← mod_obj in_ (fun o => o <| nDataChunks ::= Z.pred |>);
        on_dev (yaffs_DeleteChunk cfg chunkId_ true)))).
End file.

(** ** The state of the file system *)

(** Tags that name chunk [id] of object [o]. *)
Definition names (o id : Z) (t : ExtendedTags) : Prop :=
  objectId t = o /\ chunkId t = id /\ chunkDeleted t = 0.

Lemma names_match o id t : 0 <= o < 2 ^ 32 -> 0 <= id < 2 ^ 32 -> names o id t -> yaffs_TagsMatch t o id = true.
Proof.
  intros Ho Hid (H1 & H2 & H3). unfold yaffs_TagsMatch. rewrite H1, H2, H3, !wrap_small by done.
  by rewrite !Z.eqb_refl.
Qed.

Lemma same_chunk_names o id t t' : same_chunk t t' -> names o id t -> names o id t'.
Proof. intros (H1 & H2 & H3 & _) (A1 & A2 & A3). repeat split; congruence. Qed.

(** A device whose tnode entries have room for every chunk number, so that a group is one
    chunk: what mounting makes of every device unless wide tnodes are disabled. *)
Record plain_groups (cfg : Config) : Prop := {
  pg_bits : chunkGroupBits cfg = 0;
  pg_size : chunkGroupSize cfg = 1;
  pg_room : (internalEndBlock cfg + 1) * nChunksPerBlock cfg <= 2 ^ tnodeWidth cfg
}.

Section state.
Context {N K : Type} {nd : NandDriver N} `{!Kmalloc K} `{!KmallocLaws K} (cfg : Config).
Context (Hcfg : cfg_ok cfg) (Htn : tn_cfg_ok cfg) (Hpg : plain_groups cfg).
Context {nm : NandMedium nd cfg} {nb : NandBlank nd cfg}.
Implicit Types (s : FS N K) (o : Object) (f : FileStructure).

(** Chunk [c] is in use and holds [d], chunk [id] of object [num], under tags that can be
    written again. *)
Definition holds (s : State N) (c : Z) (d : list Z) (num id : Z) : Prop :=
  valid_chunk cfg c /\ in_use cfg s c /\ Z.of_nat (length d) = nDataBytesPerChunk cfg /\
  exists t, content (nand s) c = Some (d, t) /\ names num id t /\ fits cfg t.

(** An object in the hash table, and one that is a file. *)
Definition is_object s (a : Z) o : Prop := hashed (obs s) a /\ objects (obs s) !! a = Some o.
Definition any_file s (a : Z) o f : Prop := is_object s a o /\ variant o = FileVariant f.

(** A file that has neither been deleted nor freed (an object that the VFS still knows is
    only marked to be freed). *)
Definition dead o : bool := deleted o || deferedFree o.
Definition is_file s (a : Z) o f : Prop := any_file s a o f /\ dead o = false.

(** The tnodes of a file; a deleted one has at most its top left. *)
Definition tree_of s (U : gset Z) o f (F : gset Z) : Prop :=
  if dead o then F ⊆ U /\ (top f = 0 /\ F = ∅ \/ top f <> 0 /\ F = {[top f]})
  else file_ok (tns s) U f F.

(** Chunk [c] is where the object with that number, if there is one, looks for its chunk [id];
    a deleted file looks for none of its data. *)
Definition belongs s (c num id : Z) : Prop := forall a o, is_object s a o -> objId o = num ->
  (id = 0 -> hdrChunk o = c) /\
  (id <> 0 -> exists f, variant o = FileVariant f /\ (dead o = false -> file_entry cfg (tns s) f id = c)).

(** A header has a name, and the alias of a symbolic link. *)
Definition header_ok o (d : list Z) : Prop :=
  (exists n, name_in d n) /\ (variantType o = OBJECT_TYPE_SYMLINK -> exists t, alias_in d t).

(** The books of the whole device: memory, blocks, the soft-deleted chunks [D], the tnodes
    [Fs] of the files; every chunk that a file or an object points to is in use and says so
    itself; every chunk in use, but [x] (the one that an operation has in hand), is one that
    its object points to, if there is that object and it is not deleted; and soft-deleted
    chunks are data of deleted objects. *)
Record fs_but (x : Z) s (U : gset Z) (l : list Z) (Fs : Z -> gset Z) (D : gset Z) : Prop := {
  fk_mem : mem_ok cfg s U l;
  fk_flash : flash_ok cfg D (dev s);
  fk_number : forall a o, is_object s a o -> 0 <= objId o < 2 ^ 32;
  fk_tree : forall a o f, any_file s a o f -> tree_of s U o f (Fs a);
  fk_apart : forall a a' o o' f f', any_file s a o f -> any_file s a' o' f' -> a <> a' -> Fs a ## Fs a';
  fk_entry : forall a o f id, is_file s a o f -> 0 <= id <= YAFFS_MAX_CHUNK_ID ->
    file_entry cfg (tns s) f id <> 0 ->
    exists d, holds (dev s) (file_entry cfg (tns s) f id) d (objId o) id;
  fk_header : forall a o, is_object s a o -> 0 < hdrChunk o ->
    exists d, holds (dev s) (hdrChunk o) d (objId o) 0 /\ header_ok o d;
  fk_lazy : forall a o, is_object s a o -> lazyLoaded o = true -> 0 < hdrChunk o;
  fk_owner : forall c, valid_chunk cfg c -> in_use cfg (dev s) c -> c <> x ->
    exists d num id, holds (dev s) c d num id /\ belongs s c num id;
  fk_gone : forall c, c ∈ D -> exists d num id, holds (dev s) c d num id /\ id <> 0 /\
    forall a o, is_object s a o -> objId o = num -> dead o = true;
  fk_dirs : dirs_ok (obs s);
  fk_zero : forall a o f, is_file s a o f -> file_entry cfg (tns s) f 0 = 0;
  fk_short : forall a o, is_object s a o -> Z.of_nat (length (shortName o)) <= YAFFS_SHORT_NAME_LENGTH;
  fk_freed : forall a o, is_object s a o -> deferedFree o = true -> hdrChunk o <= 0;
  fk_file : forall a o f, any_file s a o f -> hdrChunk o <> 0
}.

(** The chunk 0 does not exist. *)
Definition fs_ok := fs_but 0.

(** The abstract file system: the data of chunk [id] of the file at [a]. *)
Definition file_data s (a id : Z) : option (list Z) :=
  match objects (obs s) !! a with
  | Some o => match variant o with
      | FileVariant f =>
          let e := file_entry cfg (tns s) f id in
          if e =? 0 then None else fst <$> content (nand (dev s)) e
      | _ => None
      end
  | None => None
  end.

Lemma file_data_entry s a o f id :
  is_file s a o f -> file_data s a id =
    if file_entry cfg (tns s) f id =? 0 then None
    else fst <$> content (nand (dev s)) (file_entry cfg (tns s) f id).
Proof. intros [[[_ Ho] Hv] _]. unfold file_data. by rewrite Ho, Hv. Qed.

Lemma any_file_unique s a o f o' f' : any_file s a o f -> any_file s a o' f' -> o' = o /\ f' = f.
Proof.
  intros [[_ Ho] Hf] [[_ Ho'] Hf']. rewrite Ho in Ho'. injection Ho' as <-.
  rewrite Hf in Hf'. by injection Hf' as <-.
Qed.

Lemma file_unique s a o f o' f' : is_file s a o f -> is_file s a o' f' -> o' = o /\ f' = f.
Proof. intros [H _] [H' _]. by eapply any_file_unique. Qed.

Lemma live_tree x s U l Fs D a o f :
  fs_but x s U l Fs D -> is_file s a o f -> file_ok (tns s) U f (Fs a).
Proof. intros Hs [Hf Hd]. pose proof (fk_tree _ _ _ _ _ _ Hs a o f Hf) as H. unfold tree_of in H. by rewrite Hd in H. Qed.

(** A number is that of one object. *)
Lemma object_unique x s U l Fs D a a' o o' :
  fs_but x s U l Fs D -> is_object s a o -> is_object s a' o' -> objId o = objId o' -> a' = a /\ o' = o.
Proof.
  intros Hs [Ha Ho] [Ha' Ho'] He.
  assert (a' = a) as -> by (symmetry; by apply (to_unique _ (mo_table _ _ _ _ (fk_mem _ _ _ _ _ _ Hs)) a a' o o')).
  rewrite Ho in Ho'. by injection Ho' as <-.
Qed.

(** A chunk holds one thing. *)
Lemma holds_inj ds c d d' num num' id id' :
  holds ds c d num id -> holds ds c d' num' id' -> d' = d /\ num' = num /\ id' = id.
Proof.
  intros (_ & _ & _ & t & Hc & (H1 & H2 & _) & _) (_ & _ & _ & t' & Hc' & (H1' & H2' & _) & _).
  rewrite Hc in Hc'. injection Hc' as <- <-. split; [done|]. split; congruence.
Qed.

Lemma holds_range ds c d num id : holds ds c d num id -> 0 <= num < 2 ^ 18 /\ 0 <= id <= YAFFS_MAX_CHUNK_ID.
Proof.
  intros (_ & _ & _ & t & _ & (H1 & H2 & _) & (F1 & F2 & _)). rewrite H1 in F1. rewrite H2 in F2. lia.
Qed.

Lemma holds_kept ex ds ds' c d num id :
  kept_but cfg ex ds ds' -> c <> ex -> holds ds c d num id -> holds ds' c d num id.
Proof.
  intros [Hk _] He (Hv & Hu & Hl & t & Hc & Ht). destruct (Hk c Hv He Hu) as [Hu' Hc'].
  split; [done|]. split; [done|]. split; [done|]. exists t. by rewrite Hc'.
Qed.

Lemma stores_holds ds c d tags : stores cfg ds c d tags -> Z.of_nat (length d) = nDataBytesPerChunk cfg ->
  fits cfg tags -> holds ds c d (objectId tags) (chunkId tags).
Proof.
  intros (Hv & Hu & t & Hc & Hsc) Hl Hfit. pose proof (fits_same_chunk cfg _ _ Hsc Hfit) as Hfit'.
  destruct Hsc as (H1 & H2 & H3 & _). split; [done|]. split; [done|]. split; [done|].
  exists t. split; [done|]. split; [|done]. split; [done|]. split; [done|]. apply Hfit'.
Qed.

(** What a live file or an object points to is not soft deleted. *)
Lemma entry_not_gone x s U l Fs D a o f id :
  fs_but x s U l Fs D -> is_file s a o f -> 0 <= id <= YAFFS_MAX_CHUNK_ID ->
  file_entry cfg (tns s) f id <> 0 -> file_entry cfg (tns s) f id ∉ D.
Proof.
  intros Hs Hf Hid Hne HD. destruct (fk_entry _ _ _ _ _ _ Hs a o f id Hf Hid Hne) as [d Hd].
  destruct (fk_gone _ _ _ _ _ _ Hs _ HD) as (d' & num & id' & Hd' & _ & Hgone).
  destruct (holds_inj _ _ _ _ _ _ _ _ Hd Hd') as (_ & Hnum & _).
  destruct Hf as [[Hobj _] Hdel]. by rewrite (Hgone a o Hobj (eq_sym Hnum)) in Hdel.
Qed.

Lemma header_not_gone x s U l Fs D a o :
  fs_but x s U l Fs D -> is_object s a o -> 0 < hdrChunk o -> hdrChunk o ∉ D.
Proof.
  intros Hs Ho Hpos HD. destruct (fk_header _ _ _ _ _ _ Hs a o Ho Hpos) as (d & Hd & _).
  destruct (fk_gone _ _ _ _ _ _ Hs _ HD) as (d' & num & id' & Hd' & Hne & _).
  by destruct (holds_inj _ _ _ _ _ _ _ _ Hd Hd') as (_ & _ & ->).
Qed.

(** ** Steps of the device alone *)

(** Nothing points to chunk [ex]. *)
Definition unreferenced s (ex : Z) : Prop :=
  (forall a o f id, is_file s a o f -> 0 <= id <= YAFFS_MAX_CHUNK_ID ->
    file_entry cfg (tns s) f id <> 0 -> file_entry cfg (tns s) f id <> ex) /\
  (forall a o, is_object s a o -> 0 < hdrChunk o -> hdrChunk o <> ex).

Definition with_dev s (d : State N) : FS N K := s <| dev := d |>.

(** The chunk in hand goes from [x] to [z], while [ex] may lose what it holds, and chunks may
    no longer be counted as soft deleted. *)
Lemma dev_step_gone x z s U l Fs D D' ex d' :
  fs_but x s U l Fs D -> D' ⊆ D -> unreferenced s ex -> ex ∉ D' -> kept_but cfg ex (dev s) d' -> flash_ok cfg D' d' ->
  (forall c, valid_chunk cfg c -> in_use cfg d' c -> c <> z -> in_use cfg (dev s) c /\ c <> x /\ c <> ex) ->
  fs_but z (with_dev s d') U l Fs D' /\
  forall a o f id, is_file s a o f -> 0 <= id <= YAFFS_MAX_CHUNK_ID ->
    file_data (with_dev s d') a id = file_data s a id.
Proof.
  intros [[Hst Ht Hown] Hmd Hnum Htr Hap He Hh Hlz Hb Hg Hdo Hz0 Hsn Hfr Hfh] HDD [Hr1 Hr2] HexD Hk Hm' Hz. split.
  - split; try done.
    + intros a o f id Hf Hid Hne. destruct (He a o f id Hf Hid Hne) as [d Hd].
      exists d. eapply holds_kept; [exact Hk| |exact Hd]. by apply (Hr1 a o f id).
    + intros a o Ho Hpos. destruct (Hh a o Ho Hpos) as (d & Hd & Hok).
      exists d. split; [|done]. eapply holds_kept; [exact Hk| |exact Hd]. by apply (Hr2 a o).
    + intros c Hv Hu Hne. destruct (Hz c Hv Hu Hne) as (Hu0 & Hx & Hex).
      destruct (Hb c Hv Hu0 Hx) as (d & num & id & Hd & Hbel). exists d, num, id.
      split; [by eapply holds_kept|exact Hbel].
    + intros c Hc. destruct (Hg c (HDD c Hc)) as (d & num & id & Hd & Hne & Hgone). exists d, num, id.
      split; [|done]. eapply holds_kept; [exact Hk| |exact Hd]. by intros ->.
  - intros a o f id Hf Hid. rewrite (file_data_entry s a o f) by done.
    rewrite (file_data_entry (with_dev s d') a o f) by done. change (tns (with_dev s d')) with (tns s).
    destruct (Z.eqb_spec (file_entry cfg (tns s) f id) 0) as [|Hne]; [done|].
    destruct (He a o f id Hf Hid Hne) as [d (Hv & Hu & _)].
    destruct (kb_chunks _ _ _ _ Hk _ Hv (Hr1 a o f id Hf Hid Hne) Hu) as [_ Hc]. by rewrite <- Hc.
Qed.

Lemma dev_step x z s U l Fs D ex d' :
  fs_but x s U l Fs D -> unreferenced s ex -> ex ∉ D -> kept_but cfg ex (dev s) d' -> flash_ok cfg D d' ->
  (forall c, valid_chunk cfg c -> in_use cfg d' c -> c <> z -> in_use cfg (dev s) c /\ c <> x /\ c <> ex) ->
  fs_but z (with_dev s d') U l Fs D /\
  forall a o f id, is_file s a o f -> 0 <= id <= YAFFS_MAX_CHUNK_ID ->
    file_data (with_dev s d') a id = file_data s a id.
Proof. intros Hs. by apply (dev_step_gone x z s U l Fs D D ex d'). Qed.
End state.

Section data.
Context {N K : Type} {nd : NandDriver N} `{!Kmalloc K} `{!KmallocLaws K} (cfg : Config).
Context (Hcfg : cfg_ok cfg) (Htn : tn_cfg_ok cfg) (Hpg : plain_groups cfg).
Context {nf : NandFrame nd cfg} {nm : NandMedium nd cfg} {nb : NandBlank nd cfg}.
Context (Haware : is_Some drv_markBlockBad) (Halign : marks_aligned nd cfg).
Implicit Types (s : FS N K) (o : Object) (f : FileStructure).

Lemma valid_positive c : valid_chunk cfg c -> 0 < c < 2 ^ 31 /\ c < 2 ^ tnodeWidth cfg.
Proof.
  intros [H1 H2]. destruct Hcfg as [Hs _ Hn _ Hc _]. pose proof (pg_room _ Hpg). split; [nia|lia].
Qed.

Lemma gone_positive x s U l Fs D : fs_but cfg x s U l Fs D -> 0 ∉ D /\ -1 ∉ D.
Proof.
  intros Hs. split; intros H; destruct (fk_gone _ _ _ _ _ _ _ Hs _ H) as (d & num & id & (Hv & _) & _);
    apply valid_positive in Hv; lia.
Qed.

Lemma wp_get_file a o f (Q : FileStructure -> FS N K -> Prop) s :
  objects (obs s) !! a = Some o -> variant o = FileVariant f -> Q f s -> wp (get_file a) Q s.
Proof.
  intros Ho Hf HQ. unfold get_file. apply wp_bind, (wp_get_obj a o); [done|]. by rewrite Hf.
Qed.

Lemma same_entry (t : Objects) a o : objects t !! a = Some o -> t = t <| objects ::= <[a := o]> |>.
Proof.
  intros Ho. assert (H : <[a := o]> (objects t) = objects t) by (by apply insert_id).
  destruct t. unfold field_update, upd_objects. cbn in *. by rewrite H.
Qed.

Lemma same_tns s : s <| tns := tns s |> = s.
Proof. by destruct s. Qed.

(** ** Finding a chunk *)

(** Reading leaves everything as it was but for error flags. *)
Record dev_read (D : gset Z) (ds ds' : State N) : Prop := {
  dr_flash : flash_ok cfg D ds';
  dr_kept : kept cfg ds ds';
  dr_gc : isDoingGC (blks ds') = isDoingGC (blks ds);
  dr_bits : chunkBits (blks ds') = chunkBits (blks ds);
  dr_content : forall c, content (nand ds') c = content (nand ds) c
}.
Definition only_read (D : gset Z) s s' : Prop :=
  exists ds', s' = with_dev s ds' /\ dev_read D (dev s) ds'.

Lemma dev_read_refl D ds : flash_ok cfg D ds -> dev_read D ds ds.
Proof. intros H. split; try done. apply kept_but_refl. Qed.

Lemma only_read_refl D s : flash_ok cfg D (dev s) -> only_read D s s.
Proof. intros H. exists (dev s). split; [by destruct s|by apply dev_read_refl]. Qed.

Lemma only_read_trans D s1 s2 s3 : only_read D s1 s2 -> only_read D s2 s3 -> only_read D s1 s3.
Proof.
  intros (d2 & -> & [M2 K2 G2 B2 C2]) (d3 & -> & [M3 K3 G3 B3 C3]). exists d3. split; [done|].
  change (dev (with_dev s1 d2)) with d2 in *. split; [done|by eapply kept_but_trans|congruence..|].
  intros c. by rewrite C3, C2.
Qed.

Lemma unreferenced_none x s U l Fs D : fs_but cfg x s U l Fs D -> unreferenced cfg s (-1).
Proof.
  intros Hs. split.
  - intros a o f id Hf Hid Hne. destruct (fk_entry _ _ _ _ _ _ _ Hs a o f id Hf Hid Hne) as [d (Hv & _)].
    apply valid_positive in Hv. lia.
  - intros a o Ho Hp. lia.
Qed.

Lemma only_read_ok x s s' U l Fs D :
  fs_but cfg x s U l Fs D -> only_read D s s' ->
  fs_but cfg x s' U l Fs D /\ (forall a o f, is_file s' a o f <-> is_file s a o f) /\
  forall a id, file_data cfg s' a id = file_data cfg s a id.
Proof.
  intros Hs (ds' & -> & [Hm Hk Hgc Hb Hc]). split; [|split; [done|]].
  - destruct (dev_step cfg x x s U l Fs D (-1) ds' Hs) as [H _]; [by eapply unreferenced_none|by eapply gone_positive|done|done| |done].
    intros c Hv Hu Hne. unfold in_use in Hu. rewrite Hb in Hu. split; [done|]. split; [done|].
    apply valid_positive in Hv. lia.
  - intros a id. unfold file_data. change (obs (with_dev s ds')) with (obs s).
    destruct (objects (obs s) !! a) as [o|]; [|done]. destruct (variant o) as [|f| | |]; try done.
    change (tns (with_dev s ds')) with (tns s). change (dev (with_dev s ds')) with ds'. by rewrite Hc.
Qed.

(** Reading a page that holds something. *)
Lemma read_held D ds c d num id buffer t0 :
  flash_ok cfg D ds -> holds cfg ds c d num id -> buffer_ok cfg buffer ->
  wp (yaffs_ReadChunkWithTagsFromNAND cfg c buffer t0) (fun r ds' =>
    dev_read D ds ds' /\ snd (fst r) = (fun _ => d) <$> buffer /\ names num id (snd r) /\ fits cfg (snd r)) ds.
Proof.
  intros Hm (Hv & Hu & Hl & t & Hc & Ht & Hfit) Hb.
  eapply wp_mono; [by apply (Read_flash cfg Hcfg D c buffer t0)|].
  intros r ds' (Hm' & Hk & Hgc & Hbits & Hcont & _ & Hrd). destruct (Hrd d t Hc) as (_ & Hd & Hsc).
  split; [done|]. split; [done|]. split; [by eapply same_chunk_names|by eapply fits_same_chunk].
Qed.

Lemma FindChunkInGroup_spec D ds e d num id t0 :
  flash_ok cfg D ds -> holds cfg ds e d num id -> 0 <= num < 2 ^ 32 -> 0 <= id < 2 ^ 32 ->
  wp (yaffs_FindChunkInGroup cfg e t0 num id) (fun r ds' =>
    fst r = e /\ names num id (snd r) /\ dev_read D ds ds') ds.
Proof.
  intros Hm Hh Hnum Hid. pose proof Hh as (Hv & Hu & _). destruct (valid_positive e Hv) as [Hpos _].
  unfold yaffs_FindChunkInGroup. rewrite (pg_size _ Hpg). change (Z.to_nat 1) with 1%nat.
  cbn [find_in_group]. unfold ztrue. rewrite (proj2 (Z.eqb_neq e 0)) by lia.
  destruct (chunk_place cfg Hcfg e Hv) as (Hvb & Hr & _). cbn [negb].
  apply wp_bind, (wp_CheckChunkBit cfg Hcfg); [apply Hm|done|done|]. unfold in_use in Hu. rewrite Hu.
  eapply wp_seq; [by apply (read_held D ds e d num id None t0)|].
  intros [[r b] t'] ds' (Hdr & _ & Hn & _). cbn [fst snd] in *.
  rewrite (names_match num id t') by done. by apply wp_ret.
Qed.

Definition found s o f (id : Z) (r : Z * ExtendedTags) : Prop :=
  (file_entry cfg (tns s) f id = 0 /\ fst r = -1) \/
  (file_entry cfg (tns s) f id <> 0 /\ fst r = file_entry cfg (tns s) f id /\ names (objId o) id (snd r)).

Lemma FindChunkInFile_spec x s U l Fs D a o f id t0 :
  fs_but cfg x s U l Fs D -> is_file s a o f -> 0 <= id <= YAFFS_MAX_CHUNK_ID ->
  wp (yaffs_FindChunkInFile cfg a id t0) (fun r s' => found s o f id r /\ only_read D s s') s.
Proof.
  intros Hs Hf Hid. pose proof Hf as [[[Ha Ho] Hv] Hdel].
  pose proof (live_tree _ _ _ _ _ _ _ _ _ _ Hs Hf) as Hfo.
  pose proof (find_group_spec cfg Htn (tns s) U l f (Fs a) id (mo_store _ _ _ _ (fk_mem _ _ _ _ _ _ _ Hs)) Hfo Hid) as Hg.
  apply wp_bind_inv in Hg. unfold yaffs_FindChunkInFile.
  apply wp_bind, (wp_get_file a o f); [done|done|].
  apply wp_bind, wp_on_tns. eapply wp_mono; [exact Hg|]. clear Hg. intros tn t1 Hg. cbv beta in *.
  destruct (ztrue tn).
  - apply wp_bind, wp_on_tns. eapply wp_mono; [exact Hg|]. clear Hg. intros e t2 [-> ->]. simp_fields.
    set (e := file_entry cfg (tns s) f id) in *.
    apply wp_bind, (wp_get_obj a o); [done|].
    rewrite same_tns.
    destruct (decide (e = 0)) as [He|He].
    + rewrite He. apply wp_on_dev. unfold yaffs_FindChunkInGroup. rewrite (pg_size _ Hpg).
      apply wp_ret. split; [by left|]. eexists. split; [done|]. apply dev_read_refl, Hs.
    + destruct (fk_entry _ _ _ _ _ _ _ Hs a o f id Hf Hid He) as [d Hd]. fold e in Hd.
      pose proof (proj1 Hd) as Hvc. destruct (valid_positive e Hvc) as [Hpos _].
      rewrite (swrap_small 32 e) by lia. apply wp_on_dev.
      eapply wp_mono; [apply (FindChunkInGroup_spec D (dev s) e d (objId o) id t0)|]; [apply Hs|done| |lia|].
      { by apply (fk_number _ _ _ _ _ _ _ Hs a). }
      intros r ds' (Hr & Hn & Hdr). split; [right; by rewrite Hr|]. by exists ds'.
  - destruct Hg as [H0 ->]. apply wp_ret.
    rewrite same_tns.
    split; [by left|]. apply only_read_refl, Hs.
Qed.

(** A chunk of a file reads as the data it holds, a hole as zeros. *)
Lemma ReadChunkData_spec x s U l Fs D a o f id buffer :
  fs_but cfg x s U l Fs D -> is_file s a o f -> 0 <= id <= YAFFS_MAX_CHUNK_ID ->
  Z.of_nat (length buffer) = nDataBytesPerChunk cfg ->
  wp (yaffs_ReadChunkDataFromObject cfg a id buffer) (fun r s' => only_read D s s' /\
    snd r = default (replicate (Z.to_nat (nDataBytesPerChunk cfg)) 0) (file_data cfg s a id)) s.
Proof.
  intros Hs Hf Hid Hb. unfold yaffs_ReadChunkDataFromObject.
  eapply wp_seq; [by eapply (FindChunkInFile_spec x s U l Fs D a o f id stack_tags)|].
  intros r s1 [Hr Hs1]. destruct (only_read_ok x s s1 U l Fs D Hs Hs1) as (Hok1 & Hf1 & _).
  rewrite (file_data_entry cfg s a o f id Hf).
  destruct Hr as [[He ->]|(He & -> & _)].
  - change (0 <=? -1) with false. cbv iota. rewrite He. change (0 =? 0) with true. cbv iota.
    apply wp_bind, wp_of_option with (replicate (Z.to_nat (nDataBytesPerChunk cfg)) 0).
    + unfold zero_fill. rewrite Hb, Z.ltb_irrefl, drop_ge by lia. by rewrite app_nil_r.
    + apply wp_ret. by split.
  - destruct (fk_entry _ _ _ _ _ _ _ Hok1 a o f id) as [d Hd]; [by apply Hf1|done| |].
    { destruct Hs1 as (ds1 & -> & _). exact He. }
    assert (Htns : tns s1 = tns s) by (destruct Hs1 as (ds1 & -> & _); done). rewrite Htns in Hd.
    set (e := file_entry cfg (tns s) f id) in *. destruct (valid_positive e (proj1 Hd)) as [Hpos _].
    rewrite (proj2 (Z.leb_le 0 e)), (proj2 (Z.eqb_neq e 0)) by lia. cbv iota.
    apply wp_bind, wp_on_dev. eapply wp_mono.
    { apply (read_held D (dev s1) e d (objId o) id (Some buffer) stack_tags); [apply Hok1|done|].
      by intros b [= <-]. }
    intros [[res b] t'] ds' (Hdr & Hb' & _). cbn [fst snd] in *. rewrite Hb'. cbn [fmap option_fmap option_map].
    apply wp_bind, wp_of_option with d; [done|]. apply wp_ret. cbn [snd]. split.
    + eapply only_read_trans; [exact Hs1|]. exists ds'. by split.
    + destruct Hs1 as (ds1 & -> & [_ _ _ _ C1]). destruct Hd as (_ & _ & _ & t & Hc & _).
      change (dev (with_dev s ds1)) with ds1 in Hc. by rewrite <- C1, Hc.
Qed.

(** ** Changing the tree of a file *)

Definition set_tnodes (Fs : Z -> gset Z) (a : Z) (F : gset Z) (x : Z) : gset Z :=
  if x =? a then F else Fs x.

(** The object is the same file, up to its tree, size and counts. *)
Record same_file o o' : Prop := {
  sf_id : objId o' = objId o;
  sf_hdr : hdrChunk o' = hdrChunk o;
  sf_dead : dead o' = dead o;
  sf_type : variantType o' = variantType o;
  sf_lazy : lazyLoaded o' = lazyLoaded o;
  sf_parent : parent o' = parent o;
  sf_short : shortName o' = shortName o;
  sf_rest : o' = o <| nDataChunks := nDataChunks o' |> <| variant := variant o' |>
}.

Lemma same_file_refl o : same_file o o.
Proof. split; try done. by destruct o. Qed.
Lemma same_file_trans o1 o2 o3 : same_file o1 o2 -> same_file o2 o3 -> same_file o1 o3.
Proof.
  intros [A1 A2 A3 A4 A5 A6 A7 A8] [B1 B2 B3 B4 B5 B6 B7 B8]. split; try congruence.
  rewrite B8, A8. by destruct o1, o2, o3.
Qed.

Lemma file_step_mem s s' U l a o o' New l' :
  mem_ok cfg s U l -> objects (obs s) !! a = Some o -> objId o' = objId o ->
  (exists f, variant o = FileVariant f) -> (exists f', variant o' = FileVariant f') ->
  variantType o' = variantType o -> hashed (obs s) a ->
  obs s' = (obs s) <| objects ::= <[a := o']> |> ->
  store_ok cfg (tns s') (New ∪ U) l' -> heap_le (tns s) (tns s') -> mem_ok cfg s' (New ∪ U) l'.
Proof.
  intros [Hst Ht Hown] Ho Hid [f Hv] [f' Hv'] Hty Ha Hobs Hst' Hheap.
  assert (Htyped : typed o').
  { destruct (hashed_linked (obs s) a Ht Ha) as (i & b & _ & _ & _ & o1 & Ho1 & _ & Hty1).
    rewrite Ho in Ho1. injection Ho1 as <-. unfold typed in *. rewrite Hv in Hty1. rewrite Hv'. congruence. }
  split; [done|..].
  - rewrite Hobs. apply (table_ok_mod (obs s) a o (fun _ => o')); [done..|].
    intros c (cs & Hcs & _). by rewrite Hv' in Hcs.
  - rewrite Hobs. intros x Hx. apply Hheap, Hown. simp_fields_in Hx. destruct Hx as [[ox Hx]|Hx]; [left|by right].
    apply lookup_insert_Some in Hx as [[<- _]|[_ Hx]]; by eexists.
Qed.

(** What another operation on file [a] leaves of the other files. *)
Definition others_same s s' (a : Z) : Prop := forall a2 o2 f2, a2 <> a -> is_file s a2 o2 f2 ->
  is_file s' a2 o2 f2 /\ forall id, file_data cfg s' a2 id = file_data cfg s a2 id.

Lemma others_same_trans s1 s2 s3 a : others_same s1 s2 a -> others_same s2 s3 a -> others_same s1 s3 a.
Proof.
  intros H1 H2 a2 o2 f2 Hne Hf. destruct (H1 a2 o2 f2 Hne Hf) as [Hf2 E2].
  destruct (H2 a2 o2 f2 Hne Hf2) as [Hf3 E3]. split; [done|]. intros id. by rewrite E3, E2.
Qed.

(** A new tree [f'] for file [a], in the tnodes it had and in [New] ones, whose entries are old
    or lead to chunks that are the file's; every chunk of the file but [z] is found where it was. *)
Lemma file_step x z s s' U l Fs D a o o' f f' New l' :
  fs_but cfg x s U l Fs D -> is_file s a o f -> same_file o o' -> variant o' = FileVariant f' ->
  dev s' = dev s -> obs s' = (obs s) <| objects ::= <[a := o']> |> ->
  New ## U -> store_ok cfg (tns s') (New ∪ U) l' -> heap_le (tns s) (tns s') ->
  file_ok (tns s') (New ∪ U) f' (New ∪ Fs a) ->
  (forall q, q ∈ U -> q ∉ Fs a -> tnodes (tns s') !! q = tnodes (tns s) !! q) ->
  (forall id, 0 <= id <= YAFFS_MAX_CHUNK_ID -> file_entry cfg (tns s') f' id <> 0 ->
    file_entry cfg (tns s') f' id = file_entry cfg (tns s) f id \/
    exists d, holds cfg (dev s) (file_entry cfg (tns s') f' id) d (objId o) id) ->
  (forall c d id, holds cfg (dev s) c d (objId o) id -> id <> 0 -> c <> z ->
    (c <> x -> file_entry cfg (tns s) f id = c) -> file_entry cfg (tns s') f' id = c) ->
  (x = z \/ exists d id, holds cfg (dev s) x d (objId o) id /\ id <> 0) ->
  file_entry cfg (tns s') f' 0 = file_entry cfg (tns s) f 0 ->
  fs_but cfg z s' (New ∪ U) l' (set_tnodes Fs a (New ∪ Fs a)) D /\ is_file s' a o' f' /\
  others_same s s' a.
Proof.
  intros Hs Hf Hsf Hv' Hdev Hobs Hnew Hst Hheap Hfo Hfr Hent Hown Hx Hz1.
  pose proof Hsf as [Hid Hhdr Hdel Hty Hlazy Hpar Hsn' Hrest].
  pose proof Hf as [[[Ha Ho] Hv] Hlive]. destruct Hs as [Hmem Hmd Hnum Htr Hap He Hh Hlz Hb Hg Hdo Hz0 Hsn Hfd Hfh].
  assert (Hlook : objects (obs s') = <[a := o']> (objects (obs s))) by (rewrite Hobs; done).
  assert (Hhash : forall y, hashed (obs s') y <-> hashed (obs s) y) by (intros y; by rewrite Hobs).
  assert (Hobj : forall y oy, is_object s' y oy -> (y = a /\ oy = o') \/ (y <> a /\ is_object s y oy)).
  { intros y oy [Hy%Hhash Hoy]. rewrite Hlook in Hoy.
    apply lookup_insert_Some in Hoy as [[<- <-]|[Hne Hoy]]; [by left|right; by split]. }
  assert (Hobj' : forall y oy, y <> a -> is_object s y oy -> is_object s' y oy).
  { intros y oy Hne [Hy Hoy]. split; [by apply Hhash|]. by rewrite Hlook, lookup_insert_ne. }
  assert (Hself : is_file s' a o' f').
  { split; [split; [|done]|congruence]. split; [by apply Hhash|]. by rewrite Hlook, lookup_insert_eq. }
  assert (Hany : forall y oy fy, any_file s' y oy fy -> (y = a /\ oy = o' /\ fy = f') \/ (y <> a /\ any_file s y oy fy)).
  { intros y oy fy [[[-> ->]|[Hne Hoy]]%Hobj Hvy]; [|right; by repeat split; try apply Hoy].
    left. rewrite Hv' in Hvy. injection Hvy as <-. done. }
  assert (Hframe : forall y oy fy, y <> a -> any_file s y oy fy ->
    tree_of s' (New ∪ U) oy fy (Fs y) /\ (dead oy = false ->
    forall id, file_entry cfg (tns s') fy id = file_entry cfg (tns s) fy id)).
  { intros y oy fy Hne Hfy. pose proof (Htr y oy fy Hfy) as Hty'. unfold tree_of in *.
    destruct (dead oy) eqn:Hd; [split; [|done]; destruct Hty'; split; [set_solver|done]|].
    destruct (file_ok_frame cfg (tns s) (tns s') U (New ∪ U) fy (Fs y)) as [H1 H2]; [done|..|done].
    - pose proof (fo_used _ _ _ _ Hty'). set_solver.
    - intros q Hq. pose proof (fo_used _ _ _ _ Hty'). pose proof (Hap y a oy o fy f Hfy (proj1 Hf) Hne).
      apply Hfr; set_solver. }
  assert (Hset : forall y, y <> a -> set_tnodes Fs a (New ∪ Fs a) y = Fs y).
  { intros y Hne. unfold set_tnodes. by rewrite (proj2 (Z.eqb_neq y a)). }
  assert (Hseta : set_tnodes Fs a (New ∪ Fs a) a = New ∪ Fs a) by (unfold set_tnodes; by rewrite Z.eqb_refl).
  assert (HaU : forall y oy fy, y <> a -> any_file s y oy fy -> Fs y ## New ∪ Fs a).
  { intros y oy fy Hne Hfy. assert (Fs y ⊆ U).
    { pose proof (Htr y oy fy Hfy) as Hty'. unfold tree_of in Hty'.
      destruct (dead oy); [apply Hty'|apply (fo_used _ _ _ _ Hty')]. }
    pose proof (Hap y a oy o fy f Hfy (proj1 Hf) Hne). set_solver. }
  assert (Hbel : forall c d num id, holds cfg (dev s) c d num id -> c <> z ->
    (c <> x -> belongs cfg s c num id) -> (c = x -> num = objId o /\ id <> 0) -> belongs cfg s' c num id).
  { intros c d num id Hc Hne Hcb Hcx y oy [[-> ->]|[Hya Hoy]]%Hobj Hnumy.
    - rewrite Hid in Hnumy. subst num. split.
      + intros H0. rewrite Hhdr. destruct (decide (c = x)) as [He0|Hne0]; [by destruct (Hcx He0)|].
        by apply (Hcb Hne0 a o).
      + intros Hn0. exists f'. split; [done|]. intros _. apply (Hown c d id); [done..|].
        intros Hcx'. destruct (Hcb Hcx' a o) as [_ H]; [done|done|].
        destruct (H Hn0) as (f0 & Hv0 & H0). rewrite Hv in Hv0. injection Hv0 as <-. by apply H0.
    - destruct (decide (c = x)) as [He0|Hne0].
      + exfalso. apply Hya. destruct (Hcx He0) as [Hno _].
        apply (to_unique _ (mo_table _ _ _ _ Hmem) y a oy o); [apply Hoy|done|apply Hoy|done|congruence].
      + destruct (Hcb Hne0 y oy Hoy Hnumy) as [H1 H2]. split; [done|]. intros Hn0.
        destruct (H2 Hn0) as (fy & Hvy & H3). exists fy. split; [done|]. intros Hdy.
        rewrite (proj2 (Hframe y oy fy Hya (conj Hoy Hvy)) Hdy). by apply H3. }
  split; [|split; [done|]].
  - split.
    + apply (file_step_mem s s' U l a o o' New l'); [done|done|done|by exists f|by exists f'|done..].
    + by rewrite Hdev.
    + intros y oy [[-> ->]|[_ Hoy]]%Hobj; [rewrite Hid; by apply (Hnum a)|by apply (Hnum y)].
    + intros y oy fy [(-> & -> & ->)|[Hne Hfy]]%Hany.
      * rewrite Hseta. unfold tree_of. by rewrite Hdel, Hlive.
      * rewrite Hset by done. by apply (Hframe y oy fy).
    + intros y y' oy oy' fy fy' Hfy Hfy' Hne.
      destruct (Hany _ _ _ Hfy) as [(-> & -> & ->)|[Hn Hg1]]; destruct (Hany _ _ _ Hfy') as [(-> & -> & ->)|[Hn' Hg2]];
        [done|..].
      * rewrite Hseta, Hset by done. symmetry. by apply (HaU y' oy' fy').
      * rewrite Hseta, Hset by done. by apply (HaU y oy fy).
      * rewrite !Hset by done. by apply (Hap y y' oy oy' fy fy').
    + intros y oy fy id [Hfy Hly] Hidr Hne0. rewrite Hdev.
      destruct (Hany _ _ _ Hfy) as [(-> & -> & ->)|[Hne Hfy0]].
      * rewrite Hid. destruct (Hent id Hidr Hne0) as [Heq|Hnew']; [|done]. rewrite Heq in *. by apply (He a o f id).
      * rewrite (proj2 (Hframe y oy fy Hne Hfy0) Hly) in *. by apply (He y oy fy).
    + intros y oy [[-> ->]|[_ Hoy]]%Hobj Hpos; rewrite Hdev; [|by apply (Hh y)].
      rewrite Hhdr, Hid in *. unfold header_ok. rewrite Hty. by apply (Hh a o).
    + intros y oy [[-> ->]|[_ Hoy]]%Hobj Hly; [|by apply (Hlz y)].
      rewrite Hhdr. apply (Hlz a o); [done|congruence].
    + intros c Hvc Hu Hne. rewrite Hdev in Hu |- *. destruct (decide (c = x)) as [->|Hcx].
      * destruct Hx as [->|(d & id & Hd & Hn0)]; [done|]. exists d, (objId o), id. split; [done|].
        by apply (Hbel x d).
      * destruct (Hb c Hvc Hu Hcx) as (d & num & id & Hd & Hcb). exists d, num, id. split; [done|].
        by apply (Hbel c d).
    + intros c Hc. rewrite Hdev. destruct (Hg c Hc) as (d & num & id & Hd & Hn0 & Hgone). exists d, num, id.
      split; [done|]. split; [done|]. intros y oy [[-> ->]|[_ Hoy]]%Hobj Hny; [|by apply (Hgone y)].
      rewrite Hdel. apply (Hgone a o); [done|congruence].
    + apply (dirs_ok_same (obs s)); [done|by rewrite Hobs|done| |].
      * intros y oy Hy Hoy. rewrite Hlook. destruct (decide (y = a)) as [->|Hne]; [|exists oy; by rewrite lookup_insert_ne].
        rewrite Ho in Hoy. injection Hoy as <-. exists o'. rewrite lookup_insert_eq. split; [done|]. split; [done|].
        split; [by rewrite Hrest|]. intros cs. by rewrite Hv, Hv'.
      * intros y oy Hy Hoy. rewrite Hlook in Hoy. destruct (decide (y = a)) as [->|Hne]; [by eexists|].
        rewrite lookup_insert_ne in Hoy by done. by eexists.
    + intros y oy fy [Hfy Hly]. destruct (Hany _ _ _ Hfy) as [(-> & -> & ->)|[Hne Hfy0]].
      * rewrite Hz1. by apply (Hz0 a o).
      * rewrite (proj2 (Hframe y oy fy Hne Hfy0) Hly). by apply (Hz0 y oy).
    + intros y oy [[-> ->]|[_ Hoy]]%Hobj; [rewrite Hsn'; by apply (Hsn a)|by apply (Hsn y)].
    + intros y oy [[-> ->]|[_ Hoy]]%Hobj; [|by apply (Hfd y)]. rewrite Hhdr. intros Hdf.
      apply (Hfd a o); [done|]. rewrite <- Hdf, Hrest. done.
    + intros y oy fy [(-> & -> & ->)|[Hne Hfy]]%Hany; [rewrite Hhdr; by apply (Hfh a o f)|by apply (Hfh y oy fy)].
  - intros y oy fy Hne [Hfy Hly]. assert (Hfy' : is_file s' y oy fy).
    { split; [split; [|apply Hfy]|done]. apply Hobj'; [done|apply Hfy]. }
    split; [done|]. intros id.
    rewrite (file_data_entry cfg s' y oy fy), (file_data_entry cfg s y oy fy) by done.
    by rewrite (proj2 (Hframe y oy fy Hne Hfy) Hly), Hdev.
Qed.

(** Nothing in the object table changes but object [a]. *)
Definition only_entry (a : Z) s s' : Prop :=
  exists o', obs s' = (obs s) <| objects ::= <[a := o']> |>.

Lemma only_entry_trans a s1 s2 s3 : only_entry a s1 s2 -> only_entry a s2 s3 -> only_entry a s1 s3.
Proof.
  intros [o2 H2] [o3 H3]. exists o3. rewrite H3, H2. destruct (obs s1).
  unfold field_update, upd_objects. cbn. by rewrite insert_insert_eq.
Qed.

(** Changing counts of a file, not its tree. *)
Lemma wp_mod_file x s U l Fs D a o f g (Q : unit -> FS N K -> Prop) :
  fs_but cfg x s U l Fs D -> is_file s a o f -> same_file o (g o) -> variant (g o) = FileVariant f ->
  (forall s', fs_but cfg x s' U l (set_tnodes Fs a (Fs a)) D -> is_file s' a (g o) f ->
    dev s' = dev s -> tns s' = tns s -> caches s' = caches s -> others_same s s' a -> only_entry a s s' ->
    Q tt s') ->
  wp (mod_obj a g) Q s.
Proof.
  intros Hs Hf Hsf Hv HQ. pose proof Hf as [[[Ha Ho] _] _]. apply (wp_mod_obj a o); [done|].
  set (s1 := s <| obs ::= _ |>).
  pose proof (live_tree _ _ _ _ _ _ _ _ _ _ Hs Hf) as Hfo. pose proof (mo_store _ _ _ _ (fk_mem _ _ _ _ _ _ _ Hs)) as Hst.
  destruct (file_step x x s s1 U l Fs D a o (g o) f f ∅ l Hs Hf Hsf Hv) as (H1 & H2 & H3);
    rewrite ?union_empty_l_L in *; try done.
  { by intros y Hy. }
  { intros id _ _; by left. }
  { intros c d id _ _ Hne H. by apply H. }
  { by left. }
  apply HQ; try done. by exists (g o).
Qed.

(** ** Putting a chunk into a file *)

(** The entry of a level-0 tnode that is there. *)
Lemma leaf_group t U l f F id tn :
  store_ok cfg t U l -> file_ok t U f F -> 0 <= id < reach (topLevel f) ->
  walk (tnodes t) (Z.to_nat (topLevel f)) (top f) id = tn -> tn <> 0 ->
  wp (yaffs_GetChunkGroupBase cfg tn id) (fun e t' => e = file_entry cfg t f id /\ t' = t) t.
Proof.
  intros Hst [Hl Htree HU _] Hid Hw Hne.
  assert (Htn_F : tn ∈ F) by (rewrite <- Hw; apply walk_in; [done|by rewrite Hw]).
  destruct (store_lookup cfg t U l tn Hst) as (ws & Hws & Hok); [by apply HU|].
  apply (wp_GetChunkGroupBase cfg Htn tn id ws); [done|done|]. split; [|done].
  unfold file_entry. rewrite (proj2 (Z.ltb_lt _ _)) by lia. unfold entry, leaf_entry.
  by rewrite Hw, (proj2 (Z.eqb_neq tn 0)), Hws by done.
Qed.

(** An entry has room for a whole chunk number. *)
Lemma chunk_group_self c : valid_chunk cfg c -> chunk_group cfg c = c.
Proof.
  intros Hv. destruct (valid_positive c Hv) as [Hp Hw]. pose proof (tn_width _ Htn).
  rewrite (chunk_group_fits cfg Htn) by (rewrite ?(pg_bits _ Hpg), ?Z.add_0_r; lia).
  rewrite (pg_bits _ Hpg), Z.pow_0_r, Z.div_1_r. lia.
Qed.

(** An operation that takes at most [n] tnodes and leaves the cache alone. *)
Definition spent (n : Z) s s' : Prop :=
  nFreeTnodes (tns s) <= nFreeTnodes (tns s') + n /\ caches s' = caches s.

Lemma spent_trans n m s1 s2 s3 : spent n s1 s2 -> spent m s2 s3 -> spent (n + m) s1 s3.
Proof. intros [H1 C1] [H2 C2]. split; [lia|congruence]. Qed.

Lemma spent_le n m s s' : n <= m -> spent n s s' -> spent m s s'.
Proof. intros Hn [H C]. split; [lia|done]. Qed.

Lemma spent_same n s s' : 0 <= n -> tns s' = tns s -> caches s' = caches s -> spent n s s'.
Proof. intros Hn Ht Hc. split; [rewrite Ht; lia|done]. Qed.

(** File [a] with other entries, the medium as it was, chunk [z] in hand. *)
Record retreed (n z : Z) s s' (D : gset Z) (a : Z) o f (ent : Z -> Z) : Prop := {
  rt_fs : exists U l Fs o' f', fs_but cfg z s' U l Fs D /\ is_file s' a o' f' /\
    same_file o o' /\ fileSize f' = fileSize f /\
    forall id, 0 <= id -> file_entry cfg (tns s') f' id = ent id;
  rt_dev : dev s' = dev s;
  rt_others : others_same s s' a;
  rt_spent : spent n s s';
  rt_entry : only_entry a s s'
}.

Lemma file_typed x s U l Fs D a o f : fs_but cfg x s U l Fs D -> any_file s a o f -> variantType o = OBJECT_TYPE_FILE.
Proof.
  intros Hs [[Ha Ho] Hv]. destruct (hashed_linked (obs s) a (mo_table _ _ _ _ (fk_mem _ _ _ _ _ _ _ Hs)) Ha)
    as (i & b & _ & _ & _ & o1 & Ho1 & _ & Hty1).
  rewrite Ho in Ho1. injection Ho1 as <-. unfold typed in Hty1. by rewrite Hv in Hty1.
Qed.

(** The chunk in hand becomes the file's; the one it replaces is in hand then. *)
Lemma PutChunk_spec n s U l Fs D a o f id new d :
  fs_but cfg new s U l Fs D -> is_file s a o f -> 1 <= id <= YAFFS_MAX_CHUNK_ID ->
  makes_room cfg n (tns s) U l f (Fs a) id ->
  holds cfg (dev s) new d (objId o) id ->
  wp (yaffs_PutChunkIntoFile cfg a id new 0) (fun r s' => r = YAFFS_OK /\
    retreed (Z.of_nat n) (file_entry cfg (tns s) f id) s s' D a o f
      (fun id' => if id' =? id then new else file_entry cfg (tns s) f id')) s.
Proof.
  intros Hs Hf Hid Hl Hnew. pose proof Hf as [[[Ha Ho] Hv] Hlive].
  pose proof (live_tree _ _ _ _ _ _ _ _ _ _ Hs Hf) as Hfo.
  pose proof (fk_mem _ _ _ _ _ _ _ Hs) as [Hst Ht _].
  pose proof (file_typed _ _ _ _ _ _ _ _ _ Hs (proj1 Hf)) as Hty.
  unfold yaffs_PutChunkIntoFile. apply wp_bind, (wp_get_obj a o); [done|].
  rewrite Hty. change (negb (OBJECT_TYPE_FILE =? OBJECT_TYPE_FILE)) with false. cbv iota.
  apply wp_bind, (wp_get_file a o f); [done|done|]. apply wp_bind, wp_on_tns.
  eapply wp_mono; [apply wp_heap; [apply grows_AddOrFindLevel0Tnode|];
    exact Hl|].
  intros [tn f1] t1 [(New & l1 & Hst1 & Hlen1 & [Hn Ho1 Hr Hw Hne Hent Hfrm Hsz]) Hheap]. cbv beta iota.
  set (o1 := o <| variant := FileVariant f1 |>).
  apply wp_bind. unfold set_file. apply wp_bind, (wp_get_file a o f); [done|done|].
  apply (wp_mod_obj a o); [done|]. set (s1 := (s <| tns := t1 |>) <| obs ::= _ |>).
  destruct (file_step new new s s1 U l Fs D a o o1 f f1 New l1 Hs Hf) as (Hs1 & Hf1 & Hoth1); try done.
  { intros id' Hid' _. left. apply Hent. lia. }
  { intros c d' id' Hc _ Hn1 H. unfold s1. simp_fields. pose proof (holds_range cfg _ _ _ _ _ Hc). rewrite Hent by lia. by apply H. }
  { by left. }
  { apply Hent. lia. }
  unfold ztrue at 1. rewrite (proj2 (Z.eqb_neq tn 0)) by done. cbn [negb].
  apply wp_bind, wp_on_tns.
  eapply wp_mono; [apply (leaf_group t1 (New ∪ U) l1 f1 (New ∪ Fs a) id tn); [done|done|lia|done|done]|].
  intros e t2 [-> ->]. change (s1 <| tns := t1 |>) with s1. change (ztrue 0) with false. cbn [andb]. apply wp_bind, wp_ret.
  set (o1' := fun oo : Object => oo <| nDataChunks ::= Z.succ |>).
  apply (wp_seq _ _ (fun _ s2 => exists Fs2 o2, fs_but cfg new s2 (New ∪ U) l1 Fs2 D /\ is_file s2 a o2 f1 /\
    same_file o o2 /\ dev s2 = dev s /\ tns s2 = t1 /\ caches s2 = caches s /\ (New ∪ Fs a = Fs2 a) /\
    others_same s s2 a /\ only_entry a s s2)).
  { apply wp_when. destruct (_ =? 0).
    - apply (wp_mod_file new s1 _ _ _ _ a o1 f1 o1' _ Hs1 Hf1); [by split|done|].
      intros s2 Hs2 Hf2 Hd2 Ht2 Hc2 Hoth2 Het2. eexists _, _. split; [exact Hs2|]. split; [exact Hf2|].
      split; [by split|]. split; [done|]. split; [done|]. split; [done|].
      split; [unfold set_tnodes; by rewrite !Z.eqb_refl|].
      split; [by eapply others_same_trans|]. apply (only_entry_trans a s s1 s2); [by exists o1|done].
    - exists (set_tnodes Fs a (New ∪ Fs a)), o1. split; [done|]. split; [done|]. split; [by split|].
      do 3 (split; [done|]). split; [unfold set_tnodes; by rewrite !Z.eqb_refl|split; [done|by exists o1]]. }
  intros [] s2 (Fs2 & o2 & Hs2 & Hf2 & Hsf2 & Hd2 & Ht2 & Hc2 & HF2 & Hoth2 & Het2).
  apply wp_bind, wp_on_tns. rewrite Ht2.
  eapply wp_mono; [apply wp_heap; [apply grows_PutLevel0Tnode|];
    apply (Put_spec cfg Htn t1 (New ∪ U) l1 f1 (New ∪ Fs a) id tn new); [done|done|lia|done|done]|].
  intros [] t3 [(Hst3 & Hfo3 & Hent3 & Hfrm3) Hheap3]. apply wp_ret. split; [done|].
  set (s3 := s2 <| tns := t3 |>). set (old := file_entry cfg (tns s) f id).
  assert (Hnewv : chunk_group cfg new = new) by (apply chunk_group_self, Hnew).
  destruct (file_step new old s2 s3 (New ∪ U) l1 Fs2 D a o2 o2 f1 f1 ∅ l1 Hs2 Hf2) as (Hs3 & Hf3 & Hoth3);
    rewrite ?union_empty_l_L, <- ?HF2 in *; try done.
  - apply same_file_refl.
  - apply Hf2.
  - apply same_entry, Hf2.
  - by rewrite Ht2.
  - intros q HqU HqF. unfold s3. simp_fields. rewrite Ht2. by apply Hfrm3.
  - intros id' Hid' Hne'. unfold s3 in *. simp_fields. simp_fields_in Hne'.
    rewrite Hent3 in * by lia. rewrite Ht2. destruct (Z.eqb_spec id' id) as [->|]; [right|by left].
    rewrite Hnewv, (sf_id _ _ Hsf2), Hd2. by exists d.
  - intros c d' id' Hc Hn0 Hne' Hold'. unfold s3. simp_fields. rewrite (sf_id _ _ Hsf2), Hd2 in Hc.
    pose proof (holds_range cfg _ _ _ _ _ Hc) as [_ Hr']. rewrite Hent3, Hnewv by lia. rewrite Ht2 in Hold'.
    destruct (decide (c = new)) as [->|Hcn].
    + destruct (holds_inj cfg _ _ _ _ _ _ _ _ Hnew Hc) as (_ & _ & ->). by rewrite Z.eqb_refl.
    + specialize (Hold' Hcn). destruct (Z.eqb_spec id' id) as [->|]; [|done].
      exfalso. apply Hne'. unfold old. rewrite <- Hold'. by rewrite Hent by lia.
  - right. rewrite Hd2, (sf_id _ _ Hsf2). exists d, id. split; [done|lia].
  - unfold s3. simp_fields. rewrite Hent3, Ht2 by lia. by rewrite (proj2 (Z.eqb_neq 0 id)) by lia.
  - split; [|done|by eapply others_same_trans| |by exact Het2].
    2: { split; [|done]. pose proof (so_count _ _ _ _ Hst). pose proof (so_count _ _ _ _ Hst3).
         unfold s3. simp_fields. lia. }
    eexists _, _, _, _, _. split; [exact Hs3|]. split; [exact Hf3|]. split; [done|].
    split; [apply Hsz|]. intros id' Hid'. unfold s3. simp_fields. rewrite Hent3, Hnewv by done.
    destruct (id' =? id); [done|by apply Hent].
Qed.

(** ** Writing a chunk *)

(** Every file that is not deleted is still there, the same object with the same size, and
    its chunks are what [data] says. *)
Definition data_step s s' (data : Z -> Z -> option (list Z)) : Prop :=
  forall a o f, is_file s a o f -> exists o' f', is_file s' a o' f' /\
    objId o' = objId o /\ fileSize f' = fileSize f /\
    forall id, 0 <= id <= YAFFS_MAX_CHUNK_ID -> file_data cfg s' a id = data a id.

Lemma data_step_trans s1 s2 s3 g h :
  data_step s1 s2 g -> data_step s2 s3 h ->
  forall k, (forall a id, (exists o f, is_file s1 a o f) -> 0 <= id <= YAFFS_MAX_CHUNK_ID ->
    file_data cfg s2 a id = g a id -> h a id = k a id) -> data_step s1 s3 k.
Proof.
  intros H1 H2 k Hk a o f Hf. destruct (H1 a o f Hf) as (o2 & f2 & Hf2 & I2 & S2 & E2).
  destruct (H2 a o2 f2 Hf2) as (o3 & f3 & Hf3 & I3 & S3 & E3). exists o3, f3.
  split; [done|]. split; [congruence|]. split; [congruence|]. intros id Hid.
  rewrite E3 by done. apply Hk; [by exists o, f|done|by apply E2].
Qed.

(** Steps that keep all data. *)
Definition data_kept s s' : Prop := data_step s s' (file_data cfg s).

Lemma data_kept_trans s1 s2 s3 : data_kept s1 s2 -> data_kept s2 s3 -> data_kept s1 s3.
Proof. intros H1 H2. eapply data_step_trans; [exact H1|exact H2|]. by intros a id _ _. Qed.

Lemma data_kept_refl s : data_kept s s.
Proof. intros a o f Hf. exists o, f. done. Qed.

Lemma data_step_same s s' :
  (forall a o f, is_file s a o f -> is_file s' a o f) ->
  (forall a o f id, is_file s a o f -> 0 <= id <= YAFFS_MAX_CHUNK_ID ->
    file_data cfg s' a id = file_data cfg s a id) -> data_kept s s'.
Proof.
  intros Hf Hd a o f Ha. exists o, f. split; [by apply Hf|]. do 2 (split; [done|]).
  intros id Hid. by eapply Hd.
Qed.

Lemma only_read_kept x s s' U l Fs D : fs_but cfg x s U l Fs D -> only_read D s s' -> data_kept s s'.
Proof.
  intros Hs Hr. destruct (only_read_ok x s s' U l Fs D Hs Hr) as (_ & H1 & H2). apply data_step_same.
  - intros a o f Hf. by apply H1.
  - intros a o f id _ _. apply H2.
Qed.

(** What a garbage collection may do to an object that is not deleted: its header may move
    (and lose its last two fields), and with it the serial number; chunks of its data may
    move; deleted objects may leave a directory; and the details may be loaded. *)
Definition variant_kept (v v' : Variant) : Prop :=
  match v with
  | FileVariant f => exists f', v' = FileVariant f' /\ fileSize f' = fileSize f
  | DirectoryVariant cs => exists cs', v' = DirectoryVariant cs'
  | _ => v' = v
  end.

Record object_kept (ds ds' : State N) o o' : Prop := {
  ok_id : objId o' = objId o;
  ok_type : variantType o' = variantType o;
  ok_deleted : deleted o' = deleted o;
  ok_freed : deferedFree o' = deferedFree o;
  ok_parent : parent o' = parent o;
  ok_lazy : lazyLoaded o' = true -> lazyLoaded o = true;
  ok_variant : variantType o <> OBJECT_TYPE_SYMLINK -> variant_kept (variant o) (variant o');
  ok_loaded : lazyLoaded o = false -> variant_kept (variant o) (variant o') /\
    o' = o <| hdrChunk := hdrChunk o' |> <| serial := serial o' |> <| nDataChunks := nDataChunks o' |>
           <| variant := variant o' |>;
  ok_none : hdrChunk o <= 0 -> hdrChunk o' = hdrChunk o;
  ok_header : 0 < hdrChunk o -> 0 < hdrChunk o' /\
    forall d t, content (nand ds) (hdrChunk o) = Some (d, t) ->
      exists d' t', content (nand ds') (hdrChunk o') = Some (d', t') /\ take 504 d' = take 504 d
}.

(** No object is new, and the ones that are not deleted are kept. *)
Record objects_kept s s' : Prop := {
  kp_roots : same_roots (obs s) (obs s');
  kp_live : forall a o, is_object s a o -> deleted o = false ->
    exists o', is_object s' a o' /\ object_kept (dev s) (dev s') o o';
  kp_old : forall a o', is_object s' a o' -> exists o, is_object s a o /\ objId o' = objId o /\
    deleted o' = deleted o /\ variantType o' = variantType o;
  kp_child : forall a o o' c, is_object s a o -> is_object s' a o' -> child_of o' c ->
    child_of o c \/ exists oc, is_object s c oc /\ deleted oc = true
}.

Lemma variant_kept_refl v : variant_kept v v.
Proof. destruct v; cbn; eauto. Qed.

Lemma object_kept_refl ds ds' o :
  (0 < hdrChunk o -> content (nand ds') (hdrChunk o) = content (nand ds) (hdrChunk o)) -> object_kept ds ds' o o.
Proof.
  intros Hc. split; try done.
  - intros _. apply variant_kept_refl.
  - intros _. split; [apply variant_kept_refl|by destruct o].
  - intros Hp. split; [done|]. intros d t Hd. exists d, t. by rewrite Hc.
Qed.

Lemma is_object_eq s a o o' : is_object s a o -> is_object s a o' -> o = o'.
Proof. intros [_ Ho] [_ Ho']. congruence. Qed.

Lemma objects_kept_refl s : objects_kept s s.
Proof.
  split; [by repeat split| |by eauto|].
  - intros a o Ho _. exists o. split; [done|]. by apply object_kept_refl.
  - intros a o o' c Ho Ho' Hc. left. by rewrite (is_object_eq _ _ _ _ Ho Ho').
Qed.

(** The interface to garbage collection: started in a state it is [ready] for, it keeps the
    books, takes no free tnodes away, every file keeps its data, and the objects that are not
    deleted stay. *)
Class Collector (collect : M (FS N K) Z) (ready : FS N K -> Prop) : Prop := {
  collector_ok : forall s U l Fs D, ready s -> fs_ok cfg s U l Fs D ->
    wp collect (fun _ s' => exists U' l' Fs' D', fs_ok cfg s' U' l' Fs' D' /\
      spent 0 s s' /\ data_kept s s' /\ objects_kept s s') s
}.

(** A chunk that its object does not point to. *)
Lemma unreferenced_chunk x s U l Fs D c d num id :
  fs_but cfg x s U l Fs D -> holds cfg (dev s) c d num id -> ~ (exists a o, is_object s a o /\ objId o = num /\
    ((id = 0 /\ hdrChunk o = c) \/ (exists f, is_file s a o f /\ file_entry cfg (tns s) f id = c))) ->
  unreferenced cfg s c.
Proof.
  intros Hs Hold Hno. split.
  - intros a o f id2 Hf2 Hid2 Hne2 He. destruct (fk_entry _ _ _ _ _ _ _ Hs a o f id2 Hf2 Hid2 Hne2) as [d2 H2].
    rewrite He in H2. destruct (holds_inj cfg _ _ _ _ _ _ _ _ Hold H2) as (_ & Ho & ->).
    apply Hno. exists a, o. split; [apply Hf2|]. split; [done|]. right. by exists f.
  - intros a o Ho Hpos He. destruct (fk_header _ _ _ _ _ _ _ Hs a o Ho Hpos) as (d2 & H2 & _).
    rewrite He in H2. destruct (holds_inj cfg _ _ _ _ _ _ _ _ Hold H2) as (_ & Hn & H0).
    apply Hno. exists a, o. split; [done|]. split; [done|]. by left.
Qed.

(** Deleting a chunk that nothing points to, the one in hand or another. *)
Lemma delete_unreferenced x s U l Fs D c markNAND :
  fs_but cfg x s U l Fs D -> valid_chunk cfg c -> in_use cfg (dev s) c -> c ∉ D -> unreferenced cfg s c ->
  wp (on_dev (yaffs_DeleteChunk cfg c markNAND)) (fun _ s' =>
    fs_but cfg (if c =? x then 0 else x) s' U l Fs D /\ data_kept s s' /\ tns s' = tns s /\ obs s' = obs s /\
    caches s' = caches s /\ none_new cfg (dev s) (dev s') /\ kept_but cfg c (dev s) (dev s') /\
    ~ in_use cfg (dev s') c /\ isDoingGC (blks (dev s')) = isDoingGC (blks (dev s))) s.
Proof.
  intros Hs Hv Hu Hc Hr. apply wp_on_dev.
  eapply wp_mono; [by apply (DeleteChunk_flash cfg Hcfg Haware Halign D c markNAND); [apply Hs|..]|].
  intros [] ds' (Hm & Hk & Hnu & Hgc & Hsh).
  destruct (dev_step cfg x (if c =? x then 0 else x) s U l Fs D c ds' Hs Hr Hc Hk Hm) as [H1 H2].
  { intros c' Hv' Hu' Hne. split; [by apply Hsh|]. split; [|by intros ->].
    destruct (Z.eqb_spec c x) as [->|]; [by intros ->|done]. }
  split; [exact H1|]. split; [|done]. apply data_step_same; [done|]. intros a o f id' Hf Hid'. by apply (H2 a o f).
Qed.

(** Writing a page: it is in hand then. *)
Lemma write_page s U l Fs D d tags useReserve :
  0 < yaffs_wr_attempts cfg -> fs_ok cfg s U l Fs D -> fits cfg tags ->
  Z.of_nat (length d) = nDataBytesPerChunk cfg ->
  wp (on_dev (yaffs_WriteNewChunkWithTagsToNAND cfg (Some d) tags useReserve))
    (fun r s' => exists ds', s' = with_dev s ds' /\ kept cfg (dev s) ds' /\ data_kept s s' /\
      isDoingGC (blks ds') = isDoingGC (blks (dev s)) /\ none_new_but cfg r (dev s) ds' /\
      ((r = -1 /\ no_page cfg useReserve ds' /\ fs_ok cfg s' U l Fs D) \/
       (0 < r /\ fs_but cfg r s' U l Fs D /\ ~ in_use cfg (dev s) r /\ (r ∉ D) /\
        holds cfg ds' r d (objectId tags) (chunkId tags)))) s.
Proof.
  intros Hwr Hs Hfit Hb. apply wp_on_dev.
  eapply wp_mono; [apply wp_pc; [by apply (WriteNewChunk_flash cfg Hcfg Haware Halign D); [|apply Hs|..]|
    intros r ds' Hrun; exact Hrun]|].
  intros r ds' [(Hm & Hk & Hgc & Hsh & Hr) Hrun]. exists ds'. split; [done|]. split; [done|].
  assert (Hz : forall c z, valid_chunk cfg c -> in_use cfg ds' c -> (r = z \/ r = -1) -> c <> z ->
    in_use cfg (dev s) c /\ c <> 0 /\ c <> -1).
  { intros c z Hv Hu Hrz Hne. pose proof (valid_positive c Hv). destruct (Hsh c Hv Hu); [split; [done|lia]|].
    destruct Hrz; lia. }
  assert (Hstep : forall z, (r = z \/ r = -1) -> fs_but cfg z (with_dev s ds') U l Fs D /\ data_kept s (with_dev s ds')).
  { intros z Hrz. destruct (dev_step cfg 0 z s U l Fs D (-1) ds' Hs) as [H1 H2]; [by eapply unreferenced_none|by eapply gone_positive|done|done| |].
    { intros c Hv Hu Hne. by apply (Hz c z). }
    split; [done|]. apply data_step_same; [done|]. intros a o f id' Hf Hid'. by apply (H2 a o f). }
  split; [apply (Hstep r); by left|]. split; [done|]. split; [done|].
  destruct Hr as [->|[Hfree Hst]]; [left|right].
  - split; [done|]. split; [|apply (Hstep 0); by right].
    apply (write_failed cfg Hcfg Haware (dev s) ds' d tags); [done| |done].
    apply (mo_blocks _ _ _ (fl_media _ _ _ (fk_flash _ _ _ _ _ _ _ Hs))).
  - split; [apply valid_positive, Hst|]. split; [apply Hstep; by left|]. split; [done|]. split.
    + intros HD. apply Hfree. by apply (mo_gone _ _ _ (fl_media _ _ _ (fk_flash _ _ _ _ _ _ _ Hs))).
    + by apply stores_holds.
Qed.

(** The data after a write. *)
Definition with_chunk (data : Z -> Z -> option (list Z)) (a id : Z) (d : list Z) (a2 id2 : Z)
    : option (list Z) :=
  if (a2 =? a) && (id2 =? id) then Some d else data a2 id2.

Lemma retreed_step n z s s' D a o f id new d :
  is_file s a o f -> 0 < new ->
  retreed n z s s' D a o f (fun id' => if id' =? id then new else file_entry cfg (tns s) f id') ->
  holds cfg (dev s) new d (objId o) id ->
  data_step s s' (with_chunk (file_data cfg s) a id d).
Proof.
  intros Hf Hpos [(U & l & Fs & o' & f' & Hs' & Hf' & Hsf & Hsz & Hent) Hdev Hoth _ _] (_ & _ & _ & t & Hc & _).
  intros a2 o2 f2 Hf2. unfold with_chunk. destruct (Z.eqb_spec a2 a) as [->|Hne].
  - destruct (file_unique _ _ _ _ _ _ Hf Hf2) as [-> ->]. exists o', f'. split; [done|].
    split; [apply Hsf|]. split; [done|]. intros id2 Hid2. cbn [andb].
    rewrite (file_data_entry cfg s' a o' f'), (file_data_entry cfg s a o f) by done.
    rewrite Hent, Hdev by lia. destruct (Z.eqb_spec id2 id) as [->|]; [|done].
    rewrite (proj2 (Z.eqb_neq new 0)) by lia. by rewrite Hc.
  - destruct (Hoth a2 o2 f2 Hne Hf2) as [Hf2' E]. exists o2, f2. split; [done|]. do 2 (split; [done|]).
    intros id2 _. by rewrite E.
Qed.

(** The tags of a chunk of a file. *)
Definition chunk_tags (num id serial_ nBytes : Z) : ExtendedTags :=
  yaffs_InitialiseTags <| chunkId := u32 id |> <| objectId := u32 num |>
    <| serialNumber := serial_ |> <| byteCount := u32 nBytes |>.

Lemma chunk_tags_fit num id q nBytes :
  0 <= num < 2 ^ 18 -> 0 <= id <= YAFFS_MAX_CHUNK_ID -> 0 <= nBytes <= nDataBytesPerChunk cfg ->
  nDataBytesPerChunk cfg < 2 ^ 32 ->
  fits cfg (chunk_tags num id q nBytes) /\ objectId (chunk_tags num id q nBytes) = num /\
  chunkId (chunk_tags num id q nBytes) = id.
Proof.
  intros Hnum Hid HnB Hdata. unfold fits, chunk_tags. simp_fields. rewrite !wrap_small by lia.
  split; [|done]. split; [lia|]. split; [lia|]. split; [intros _; lia|done].
Qed.

(** Replacing the chunk of a file by the one in hand and deleting it, if there was one. *)
Lemma replace_chunk s U l Fs D a o f id new d :
  fs_but cfg new s U l Fs D -> is_file s a o f -> 1 <= id <= YAFFS_MAX_CHUNK_ID -> (12 <= length l)%nat ->
  holds cfg (dev s) new d (objId o) id -> file_entry cfg (tns s) f id <> new ->
  let old := file_entry cfg (tns s) f id in
  wp (_ ← yaffs_PutChunkIntoFile cfg a id new 0;
      when (negb (old =? 0)) (on_dev (yaffs_DeleteChunk cfg old true))) (fun _ s' =>
    (exists U' l' Fs', fs_ok cfg s' U' l' Fs' D) /\ spent 12 s s' /\
    data_step s s' (with_chunk (file_data cfg s) a id d)) s.
Proof.
  intros Hs Hf Hid Hl Hholds Hne old. pose proof (valid_positive _ (proj1 Hholds)) as [Hpos _].
  eapply wp_seq.
  { apply (PutChunk_spec 12 s U l Fs D a o f id new d); [done..| |done].
    apply AddOrFind_spec; [done|apply Hs|by eapply live_tree|lia|done]. }
  fold old.
  intros r4 s4 [-> Hrt]. assert (Hpos' : 0 < new) by lia.
  pose proof (retreed_step _ _ _ _ _ _ _ _ _ _ _ Hf Hpos' Hrt Hholds) as Hstep4.
  destruct Hrt as [(U4 & l4 & Fs4 & o4 & f4 & Hs4 & Hf4 & Hsf4 & Hsz4 & Hent4) Hdev4 _ Hsp4 _].
  apply wp_when. destruct (Z.eqb_spec old 0) as [H0|H0]; cbn [negb].
  { rewrite H0 in Hs4. split; [by exists U4, l4, Fs4|done]. }
  destruct (fk_entry _ _ _ _ _ _ _ Hs a o f id Hf) as [d0 Hold]; [lia|done|]. fold old in Hold.
  assert (Hunr : unreferenced cfg s4 old).
  { eapply (unreferenced_chunk old s4 U4 l4 Fs4 D old d0); [exact Hs4|rewrite Hdev4; exact Hold|].
    intros (a2 & o2 & Ho2 & Hn2 & Hcase).
    assert (Ho4 : objId o = objId o4) by (symmetry; apply Hsf4). rewrite Ho4 in Hn2.
    destruct (object_unique _ _ _ _ _ _ _ _ _ _ _ Hs4 (proj1 (proj1 Hf4)) Ho2) as [-> ->]; [done|].
    destruct Hcase as [[? _]|(f2 & Hf2 & He2)]; [lia|].
    destruct (file_unique _ _ _ _ _ _ Hf4 Hf2) as [_ ->].
    rewrite Hent4, Z.eqb_refl in He2 by lia. done. }
  eapply wp_mono; [apply (delete_unreferenced old s4 U4 l4 Fs4 D old true); [done|apply Hold|rewrite Hdev4; apply Hold| |done]|].
  { eapply entry_not_gone; [exact Hs|exact Hf|lia|done]. }
  intros [] s5 (Hs5 & Hstep5 & Ht5 & _ & Hc5 & _). rewrite Z.eqb_refl in Hs5. split; [by exists U4, l4, Fs4|].
  split; [apply (spent_trans 12 0 s s4 s5); [done|by apply spent_same]|].
  eapply data_step_trans; [exact Hstep4|exact Hstep5|]. by intros a' id' _ _.
Qed.

(** [-1]: the chunk was not written. *)
Definition after_write s s' (a id : Z) (d : list Z) (r : Z) : Prop :=
  (r = -1 /\ data_kept s s') \/ (0 < r /\ data_step s s' (with_chunk (file_data cfg s) a id d)).

Lemma WriteChunkData_spec collect ready `{!Collector collect ready} s U l Fs D a o f id buffer nBytes useReserve :
  0 < yaffs_wr_attempts cfg -> nDataBytesPerChunk cfg < 2 ^ 32 ->
  ready s -> fs_ok cfg s U l Fs D -> is_file s a o f -> 0 <= objId o < 2 ^ 18 ->
  1 <= id <= YAFFS_MAX_CHUNK_ID -> (12 <= length l)%nat -> 0 <= nBytes <= nDataBytesPerChunk cfg ->
  Z.of_nat (length buffer) = nDataBytesPerChunk cfg ->
  wp (yaffs_WriteChunkDataToObject cfg collect a id buffer nBytes useReserve) (fun r s' =>
    (exists U' l' Fs' D', fs_ok cfg s' U' l' Fs' D') /\ spent 12 s s' /\ after_write s s' a id buffer r /\
    (r <= 0 -> no_page cfg useReserve (dev s'))) s.
Proof.
  intros Hwr Hdata Hready Hs Hf Hnum Hid Hl HnB Hb. unfold yaffs_WriteChunkDataToObject.
  eapply wp_seq; [by eapply collector_ok|].
  intros _ s1 (U1 & l1 & Fs1 & D1 & Hs1 & Hsp1 & Hstep1 & _).
  assert (Hl1 : (length l <= length l1)%nat).
  { pose proof (so_count _ _ _ _ (mo_store _ _ _ _ (fk_mem _ _ _ _ _ _ _ Hs))).
    pose proof (so_count _ _ _ _ (mo_store _ _ _ _ (fk_mem _ _ _ _ _ _ _ Hs1))). destruct Hsp1. lia. }
  destruct (Hstep1 a o f Hf) as (o1 & f1 & Hf1 & Hid1 & _ & _).
  eapply wp_seq; [apply (FindChunkInFile_spec 0 s1 U1 l1 Fs1 D1 a o1 f1 id stack_tags); [done|done|lia]|].
  intros [prev prevTags] s2 [Hfound Hread2].
  destruct (only_read_ok 0 s1 s2 U1 l1 Fs1 D1 Hs1 Hread2) as (Hs2 & Hf12 & Hd12).
  pose proof (proj2 (Hf12 a o1 f1) Hf1) as Hf2.
  assert (Hstep2 : data_kept s s2) by (eapply data_kept_trans; [exact Hstep1|by eapply only_read_kept]).
  assert (Htns : tns s2 = tns s1) by (by destruct Hread2 as (? & -> & _)).
  assert (Hsp2 : spent 0 s s2).
  { apply (spent_trans 0 0 s s1 s2); [done|]. apply spent_same; [done|done|]. by destruct Hread2 as (? & -> & _). }
  cbv beta iota zeta. apply wp_bind, (wp_get_obj a o1); [apply Hf2|].
  set (q := if 0 <=? prev then _ else 1).
  destruct (chunk_tags_fit (objId o1) id q nBytes) as (Hfit & Ht1 & Ht2); [by rewrite Hid1|lia|done|done|].
  eapply wp_seq; [by apply (write_page s2 U1 l1 Fs1 D1 buffer (chunk_tags (objId o1) id q nBytes) useReserve)|].
  intros new s3 (ds3 & -> & Hk3 & Hstep3 & _ & _ & Hnew). set (s3 := with_dev s2 ds3) in *.
  assert (Hs_3 : data_kept s s3) by (by eapply data_kept_trans).
  destruct Hnew as [(-> & Hnp & Hs3) | (Hpos & Hs3 & Hfree & HnD & Hholds)].
  { change (0 <=? -1) with false. apply wp_bind, wp_ret, wp_ret. split; [by exists U1, l1, Fs1, D1|].
    split; [by apply (spent_le 0)|]. split; [by left|done]. }
  rewrite Ht1, Ht2 in Hholds. rewrite (proj2 (Z.leb_le 0 new)) by lia.
  assert (Hf3 : is_file s3 a o1 f1) by done.
  set (old := file_entry cfg (tns s3) f1 id).
  assert (Hprev : (0 <=? prev) = negb (old =? 0) /\ (old <> 0 -> prev = old)).
  { unfold old. change (tns s3) with (tns s2). rewrite Htns.
    destruct Hfound as [[He Hm1]|(He & Hpe & _)]; cbn [fst] in *.
    - rewrite He, Hm1. by split.
    - rewrite Hpe, (proj2 (Z.eqb_neq _ 0)) by done. split; [|done]. apply Z.leb_le.
      destruct (fk_entry _ _ _ _ _ _ _ Hs1 a o1 f1 id Hf1) as [d0 Hold]; [lia|done|].
      pose proof (valid_positive _ (proj1 Hold)). lia. }
  destruct Hprev as [Hp1 Hp2].
  assert (Hne : old <> new).
  { intros He. apply Hfree. rewrite <- He. destruct (fk_entry _ _ _ _ _ _ _ Hs2 a o1 f1 id Hf2) as [d0 Hold]; [lia| |apply Hold].
    change (tns s2) with (tns s3). fold old. lia. }
  pose proof (replace_chunk s3 U1 l1 Fs1 D1 a o1 f1 id new buffer Hs3 Hf3 Hid (Nat.le_trans _ _ _ Hl Hl1) Hholds Hne) as Hrep.
  fold old in Hrep. apply wp_bind, wp_when. cbv iota. apply wp_bind_inv in Hrep. apply wp_bind.
  eapply wp_mono; [exact Hrep|]. intros r s4 Hw. cbv beta in *.
  apply wp_when. unfold when in Hw. rewrite Hp1. destruct (Z.eqb_spec old 0) as [H0|H0]; cbn [negb] in *.
  - apply wp_ret. destruct Hw as ((U4 & l4 & Fs4 & Hs4) & Hsp4 & Hstep4). split; [by exists U4, l4, Fs4, D1|].
    split; [by apply (spent_trans 0 12 s s3 s4)|]. split; [right|lia].
    split; [done|]. eapply data_step_trans; [exact Hs_3|exact Hstep4|].
    intros a' id' _ _ He. unfold with_chunk. by rewrite He.
  - rewrite (Hp2 H0). eapply wp_mono; [exact Hw|].
    intros [] s5 ((U4 & l4 & Fs4 & Hs4) & Hsp4 & Hstep4). apply wp_ret. split; [by exists U4, l4, Fs4, D1|].
    split; [by apply (spent_trans 0 12 s s3 s5)|]. split; [right|lia].
    split; [done|]. eapply data_step_trans; [exact Hs_3|exact Hstep4|].
    intros a' id' _ _ He. unfold with_chunk. by rewrite He.
Qed.
End data.

(** ** The properties *)

(** ** New objects in the books *)

Lemma relisted_fields o o' : relisted o o' -> objId o' = objId o /\ variantType o' = variantType o /\
  dead o' = dead o /\ hdrChunk o' = hdrChunk o /\ lazyLoaded o' = lazyLoaded o /\
  (forall f, variant o' = FileVariant f <-> variant o = FileVariant f) /\ shortName o' = shortName o /\
  deferedFree o' = deferedFree o.
Proof. intros [->|(cs & cs' & Hv & ->)]; [done|]. do 5 (split; [done|]). split; [|done]. intros f. by rewrite Hv. Qed.

Section newcomer.
Context {N K : Type} {nd : NandDriver N} `{!Kmalloc K} `{!KmallocLaws K} (cfg : Config).
Context (Hcfg : cfg_ok cfg) (Htn : tn_cfg_ok cfg).
Context {nf : NandFrame nd cfg} {nm : NandMedium nd cfg} {nb : NandBlank nd cfg}.
Implicit Types (s : FS N K) (o : Object) (f : FileStructure).

(** What is in use after a creation, and what it was. *)
Lemma created_old s s' U l number type a x o' :
  mem_ok cfg s U l -> created cfg s s' U number type a -> is_object s' x o' -> x <> a ->
  exists o, is_object s x o /\ relisted o o'.
Proof.
  intros Hm Hcr [Hx Ho'] Hne. apply (cr_hashed _ _ _ _ _ _ _ Hcr) in Hx as [->|Hx]; [done|].
  destruct (hashed_linked (obs s) x (mo_table _ _ _ _ Hm) Hx) as (i & b & _ & _ & _ & o & Ho & _).
  exists o. split; [by split|]. destruct (cr_other _ _ _ _ _ _ _ Hcr x o Hne Ho) as (o2 & Ho2 & Hr).
  rewrite Ho' in Ho2. by injection Ho2 as <-.
Qed.

Lemma new_file_entry s tn id :
  tnodes (tns s) !! tn = Some (replicate (Z.to_nat (tnodeWords cfg)) 0) ->
  file_entry cfg (tns s) (MkFileStructure 0 0 0xFFFFFFFF 0 tn) id = 0.
Proof.
  intros Hz. unfold file_entry, entry, leaf_entry. simpl. destruct (id <? _); [|done].
  destruct (Z.eqb_spec tn 0); [done|]. rewrite Hz. by apply group_of_zero.
Qed.

(** The tnodes of the new object. *)
Definition first_tnode (type tn : Z) : gset Z := if type =? OBJECT_TYPE_FILE then {[tn]} else ∅.

(** The files of before are as they were. *)
Lemma created_file s s' U l number type a x o' f :
  mem_ok cfg s U l -> created cfg s s' U number type a -> any_file s' x o' f -> x <> a -> any_file s x o' f.
Proof.
  intros Hm Hcr [Ho Hv] Hne. destruct (created_old s s' U l number type a x o' Hm Hcr Ho Hne) as (o & Ho1 & Hr).
  assert (Hvo : variant o = FileVariant f) by (by apply (relisted_fields o o')).
  pose proof (relisted_file o o' f Hr Hvo) as ->. by split.
Qed.

(** An object whose number no chunk bears yet enters the books. *)
Lemma created_fs_ok s s' U l Fs D number type a :
  fs_ok cfg s U l Fs D -> lostNFoundDir (obs s) <> 0 -> created cfg s s' U number type a ->
  (forall c d id, ~ holds cfg (dev s) c d (u32 number) id) ->
  exists tn l', fs_ok cfg s' (first_tnode type tn ∪ U) l'
    (fun x => if decide (x = a) then first_tnode type tn else Fs x) D /\
  exists o, objects (obs s') !! a = Some o /\ starts_as number type tn o /\
    (forall f, is_file s' a o f -> f = MkFileStructure 0 0 0xFFFFFFFF 0 tn /\
      forall id, file_entry cfg (tns s') f id = 0).
Proof.
  intros Hs Hlf Hcr Hno. pose proof (fk_mem _ _ _ _ _ _ _ Hs) as Hm.
  destruct (cr_self _ _ _ _ _ _ _ Hcr) as (tn & l' & o & Ho & Hst & Hself). exists tn, l'.
  pose proof Hst as (Hid & Hty & Htyp & Hdel0 & Hsoft & Hdf & Hhdr & _ & _ & _ & Hlz & Hshort & Hv).
  assert (Hdel : dead o = false) by (unfold dead; by rewrite Hdel0, Hdf).
  pose proof (cr_dev _ _ _ _ _ _ _ Hcr) as Hdev. unfold first_tnode.
  assert (Hm' : mem_ok cfg s' ((if type =? OBJECT_TYPE_FILE then {[tn]} else ∅) ∪ U) l').
  { destruct (type =? OBJECT_TYPE_FILE); [by destruct Hself as (_ & _ & ? & _)|]. by rewrite union_empty_l_L. }
  assert (Hnew : forall o2, is_object s' a o2 -> o2 = o).
  { intros o2 [_ H2]. rewrite Ho in H2. by injection H2 as <-. }
  assert (Hold : forall x o', is_object s' x o' -> x <> a -> exists o0, is_object s x o0 /\ relisted o0 o')
    by (intros x o' Hx Hne; by apply (created_old s s' U l number type a x o' Hm Hcr)).
  assert (Hfile : forall x o' f, any_file s' x o' f ->
    (x = a /\ o' = o /\ type = OBJECT_TYPE_FILE /\ f = MkFileStructure 0 0 0xFFFFFFFF 0 tn) \/
    (x <> a /\ any_file s x o' f)).
  { intros x o' f Hf. destruct (decide (x = a)) as [->|Hne].
    - left. destruct Hf as [Hx Hvf]. pose proof (Hnew o' Hx) as ->. split; [done|]. split; [done|].
      rewrite Hv in Hvf. unfold new_variant in Hvf.
      destruct (Z.eqb_spec type OBJECT_TYPE_FILE); [by injection Hvf as <-|].
      by destruct (type =? OBJECT_TYPE_DIRECTORY).
    - right. split; [done|]. by apply (created_file s s' U l number type a x o' f). }
  assert (Hzero : type = OBJECT_TYPE_FILE -> forall id, file_entry cfg (tns s') (MkFileStructure 0 0 0xFFFFFFFF 0 tn) id = 0).
  { intros -> id. rewrite Z.eqb_refl in Hself. destruct Hself as (_ & _ & _ & Hz). by apply new_file_entry. }
  assert (Htree : forall x o' f, any_file s x o' f -> tree_of s' ((if type =? OBJECT_TYPE_FILE then {[tn]} else ∅) ∪ U) o' f (Fs x) /\
    (dead o' = false -> forall id, file_entry cfg (tns s') f id = file_entry cfg (tns s) f id) /\ Fs x ⊆ U).
  { intros x o' f Hf. pose proof (fk_tree _ _ _ _ _ _ _ Hs x o' f Hf) as Ht. unfold tree_of in *.
    destruct (dead o').
    - destruct Ht as [Hsub Htop]. split; [split; [set_solver|done]|]. by split.
    - pose proof (fo_used _ _ _ _ Ht) as Hsub.
      destruct (file_ok_frame cfg (tns s) (tns s') U ((if type =? OBJECT_TYPE_FILE then {[tn]} else ∅) ∪ U) f (Fs x) Ht)
        as [H1 H2]; [set_solver| |by split].
      intros q Hq. apply (cr_tnodes _ _ _ _ _ _ _ Hcr). by apply Hsub. }
  assert (Hapart : forall x o' f, any_file s x o' f -> type = OBJECT_TYPE_FILE -> {[tn]} ## Fs x).
  { intros x o' f Hf ->. rewrite Z.eqb_refl in Hself. destruct Hself as (_ & Hni & _).
    destruct (Htree x o' f Hf) as (_ & _ & Hsub). set_solver. }
  split; [split|].
  - done.
  - rewrite Hdev. by apply Hs.
  - intros x o' Hx. destruct (decide (x = a)) as [->|Hne].
    + rewrite (Hnew o' Hx), Hid. apply Z.mod_pos_bound. lia.
    + destruct (Hold x o' Hx Hne) as (o0 & Ho0 & Hr). rewrite (relisted_objId _ _ Hr). by apply (fk_number _ _ _ _ _ _ _ Hs x).
  - intros x o' f [(-> & -> & -> & ->)|[Hne Hf]]%Hfile.
    + rewrite decide_True by done. rewrite Z.eqb_refl in *. destruct Hself as (Htn0 & Hni & _ & Hz).
      unfold tree_of. rewrite Hdel. split; [simpl; lia| |set_solver|done]. right. split; [set_solver|done].
    + rewrite decide_False by done. by apply Htree.
  - intros x x' o1 o2 f1 f2 [(-> & -> & Ht & ->)|[Hne1 Hf1]]%Hfile [(-> & -> & Ht2 & ->)|[Hne2 Hf2]]%Hfile Hne; try done.
    + rewrite decide_True, decide_False by done. rewrite (proj2 (Z.eqb_eq _ _) Ht). by apply (Hapart x' o2 f2).
    + rewrite decide_False, decide_True by done. rewrite (proj2 (Z.eqb_eq _ _) Ht2). symmetry. by apply (Hapart x o1 f1).
    + rewrite !decide_False by done. by apply (fk_apart _ _ _ _ _ _ _ Hs x x' o1 o2 f1 f2).
  - intros x o' f id [[(-> & -> & Ht & ->)|[Hne Hf]]%Hfile Hd] Hidr Hnz; [by rewrite Hzero in Hnz|].
    destruct (Htree x o' f Hf) as (_ & He & _). rewrite (He Hd) in *. rewrite Hdev.
    by apply (fk_entry _ _ _ _ _ _ _ Hs x o' f id).
  - intros x o' Hx Hp. destruct (decide (x = a)) as [->|Hne].
    + rewrite (Hnew o' Hx), Hhdr in Hp. lia.
    + destruct (Hold x o' Hx Hne) as (o0 & Ho0 & Hr). destruct (relisted_fields _ _ Hr) as (E1 & E2 & _ & E4 & _).
      unfold header_ok. rewrite Hdev, E1, E2, E4 in *. by apply (fk_header _ _ _ _ _ _ _ Hs x).
  - intros x o' Hx Hl. destruct (decide (x = a)) as [->|Hne]; [by rewrite (Hnew o' Hx), Hlz in Hl|].
    destruct (Hold x o' Hx Hne) as (o0 & Ho0 & Hr). destruct (relisted_fields _ _ Hr) as (_ & _ & _ & E4 & E5 & _).
    rewrite E4, E5 in *. by apply (fk_lazy _ _ _ _ _ _ _ Hs x).
  - intros c Hc Hu Hc0. rewrite Hdev in Hu |- *. destruct (fk_owner _ _ _ _ _ _ _ Hs c Hc Hu Hc0) as (d & num & id & Hd & Hb).
    exists d, num, id. split; [done|]. intros x o' Hx Hn. destruct (decide (x = a)) as [->|Hne].
    + rewrite (Hnew o' Hx), Hid in Hn. subst num. by destruct (Hno c d id).
    + destruct (Hold x o' Hx Hne) as (o0 & Ho0 & Hr). destruct (relisted_fields _ _ Hr) as (E1 & _ & E3 & E4 & _ & E6 & _).
      destruct (Hb x o0 Ho0) as [B1 B2]; [by rewrite <- E1|]. rewrite E3, E4. split; [done|]. intros Hi.
      destruct (B2 Hi) as (f & Hvf & Hef). exists f. split; [by apply E6|]. intros Hd0.
      destruct (Htree x o0 f) as (_ & He & _); [by split|]. by rewrite He; [apply Hef|].
  - intros c HD. rewrite Hdev. destruct (fk_gone _ _ _ _ _ _ _ Hs c HD) as (d & num & id & Hd & Hne & Hg).
    exists d, num, id. split; [done|]. split; [done|]. intros x o' Hx Hn. destruct (decide (x = a)) as [->|Hxa].
    + rewrite (Hnew o' Hx), Hid in Hn. subst num. by destruct (Hno c d id).
    + destruct (Hold x o' Hx Hxa) as (o0 & Ho0 & Hr). destruct (relisted_fields _ _ Hr) as (E1 & _ & E3 & _).
      rewrite E3. apply (Hg x o0 Ho0). by rewrite <- E1.
  - apply (cr_dirs _ _ _ _ _ _ _ Hcr); [done|]. by apply Hs.
  - intros x o' f [[(-> & -> & Ht & ->)|[Hne Hf]]%Hfile Hd]; [by rewrite Hzero|].
    destruct (Htree x o' f Hf) as (_ & He & _). rewrite (He Hd). by apply (fk_zero _ _ _ _ _ _ _ Hs x o').
  - intros x o' Hx. destruct (decide (x = a)) as [->|Hne]; [by rewrite (Hnew o' Hx), Hshort|].
    destruct (Hold x o' Hx Hne) as (o0 & Ho0 & Hr). destruct (relisted_fields _ _ Hr) as (_ & _ & _ & _ & _ & _ & E7 & _).
    rewrite E7. by apply (fk_short _ _ _ _ _ _ _ Hs x).
  - intros x o' Hx. destruct (decide (x = a)) as [->|Hne]; [by rewrite (Hnew o' Hx), Hdf|].
    destruct (Hold x o' Hx Hne) as (o0 & Ho0 & Hr). destruct (relisted_fields _ _ Hr) as (_ & _ & _ & E4 & _ & _ & _ & E8).
    rewrite E4, E8. by apply (fk_freed _ _ _ _ _ _ _ Hs x).
  - intros x o' f [(-> & -> & _ & _)|[Hne Hf]]%Hfile; [by rewrite Hhdr|by apply (fk_file _ _ _ _ _ _ _ Hs x o' f)].
  - exists o. split; [done|]. split; [done|].
    intros f [[(_ & _ & Ht & ->)|[? _]]%Hfile _]; [|done]. split; [done|]. by apply Hzero.
Qed.
End newcomer.

Section properties.
Context {N K : Type} {nd : NandDriver N} `{!Kmalloc K} `{!KmallocLaws K} (cfg : Config).
Context {nf : NandFrame nd cfg} {nm : NandMedium nd cfg} {nb : NandBlank nd cfg}.
Implicit Types (s : FS N K) (o : Object) (f : FileStructure).

(** A device that files can be written on. *)
Record device_ok : Prop := {
  dv_cfg : cfg_ok cfg;
  dv_tnodes : tn_cfg_ok cfg;
  dv_plain : plain_groups cfg;
  dv_aware : is_Some drv_markBlockBad;
  dv_marks : marks_aligned nd cfg;
  dv_attempts : 0 < yaffs_wr_attempts cfg;
  dv_chunk : nDataBytesPerChunk cfg < 2 ^ 32
}.

(** C4. Writing a chunk of a file, with the garbage collection it starts with, refines an
    update of the map from files and chunk numbers to data: the chunk written is replaced if
    a page was found for it (if not, -1 is returned: no page may be handed out, or the write
    was tried as often as it may be), every other chunk of every file is as before, and the
    books of the device (blocks, pages, tnodes, objects, and that every chunk pointed to says whose it
    is) are right again. *)
Theorem WriteChunk_refines collect ready `{!Collector cfg collect ready} s U l Fs D a o f id buffer
    nBytes useReserve (Hdev : device_ok) (Hready : ready s) (Hs : fs_ok cfg s U l Fs D)
    (Hf : is_file s a o f) (Hnum : 0 <= objId o < 2 ^ 18)
    (Hid : 1 <= id <= YAFFS_MAX_CHUNK_ID) (Hl : (12 <= length l)%nat)
    (HnB : 0 <= nBytes <= nDataBytesPerChunk cfg)
    (Hb : Z.of_nat (length buffer) = nDataBytesPerChunk cfg) :
  wp (yaffs_WriteChunkDataToObject cfg collect a id buffer nBytes useReserve) (fun r s' =>
    (exists U' l' Fs' D', fs_ok cfg s' U' l' Fs' D') /\
    ((r = -1 /\ no_page cfg useReserve (dev s') /\ data_kept cfg s s') \/
     (0 < r /\ data_step cfg s s' (with_chunk (file_data cfg s) a id buffer)))) s.
Proof.
  destruct Hdev as [Hcfg Htn Hpg Haw Hal Hwr Hdata].
  eapply wp_mono; [by apply (WriteChunkData_spec cfg Hcfg Htn Hpg Haw Hal collect ready s U l Fs D a o f)|].
  intros r s' (H1 & _ & [[-> H2]|H2] & H3); (split; [done|]); [left|by right].
  split; [done|]. split; [by apply H3|done].
Qed.

(** C5. What a file reads as after a chunk was written: the data of the write if it is that
    chunk and the write was successful, what was there before otherwise, and zeros where
    nothing was ever written. *)
Theorem WriteChunk_reads_back collect ready `{!Collector cfg collect ready} s U l Fs D a o f id buffer
    nBytes useReserve a2 o2 f2 id2 buffer2 (Hdev : device_ok) (Hready : ready s) (Hs : fs_ok cfg s U l Fs D)
    (Hf : is_file s a o f) (Hnum : 0 <= objId o < 2 ^ 18)
    (Hid : 1 <= id <= YAFFS_MAX_CHUNK_ID) (Hl : (12 <= length l)%nat)
    (HnB : 0 <= nBytes <= nDataBytesPerChunk cfg)
    (Hb : Z.of_nat (length buffer) = nDataBytesPerChunk cfg)
    (Hf2 : is_file s a2 o2 f2) (Hid2 : 0 <= id2 <= YAFFS_MAX_CHUNK_ID)
    (Hb2 : Z.of_nat (length buffer2) = nDataBytesPerChunk cfg) :
  wp (r ← yaffs_WriteChunkDataToObject cfg collect a id buffer nBytes useReserve;
      x ← yaffs_ReadChunkDataFromObject cfg a2 id2 buffer2;
      mret (r, snd x)) (fun '(r, data) _ =>
    data = if (0 <? r) && (a2 =? a) && (id2 =? id) then buffer
           else default (replicate (Z.to_nat (nDataBytesPerChunk cfg)) 0) (file_data cfg s a2 id2)) s.
Proof.
  destruct Hdev as [Hcfg Htn Hpg Haw Hal Hwr Hdata].
  eapply wp_seq; [by apply (WriteChunkData_spec cfg Hcfg Htn Hpg Haw Hal collect ready s U l Fs D a o f)|].
  intros r s1 ((U1 & l1 & Fs1 & D1 & Hs1) & _ & Hw & _).
  assert (Hstep : data_step cfg s s1 (fun x y => if (0 <? r) && (x =? a) && (y =? id) then Some buffer else file_data cfg s x y)).
  { destruct Hw as [[-> H]|[Hr H]]; [exact H|]. rewrite (proj2 (Z.ltb_lt 0 r)) by done. exact H. }
  destruct (Hstep a2 o2 f2 Hf2) as (o3 & f3 & Hf3 & _ & _ & Hdat).
  eapply wp_seq; [apply (ReadChunkData_spec cfg Hcfg Htn Hpg 0 s1 U1 l1 Fs1 D1 a2 o3 f3 id2 buffer2); done|].
  intros x s2 [_ ->]. apply wp_ret. rewrite Hdat by done. cbv beta.
  by destruct (_ && _ && _).
Qed.
End properties.

(** ** A device with one file *)

(** The mounted device with tnodes in stock, and with a file. *)
Definition stocked_fs : FS Flash Z :=
  run_state (on_tns (yaffs_CreateTnodes sample_cfg YAFFS_ALLOCATION_NTNODES)) mounted_fs.
Definition file_fs : FS Flash Z := run_state (yaffs_CreateNewObject sample_cfg 257 OBJECT_TYPE_FILE) stocked_fs.
Definition the_file : Z := default 0 (fst <$> yaffs_CreateNewObject sample_cfg 257 OBJECT_TYPE_FILE stocked_fs).

Lemma sample_unused c : valid_chunk sample_cfg c -> ~ in_use sample_cfg sample_state c.
Proof.
  intros Hv Hu. destruct (chunk_place sample_cfg sample_cfg_ok c Hv) as (Hvb & Hr & _).
  destruct (get_block sample_cfg 0 0 _ _ sample_ok Hvb) as [bi Hb].
  pose proof (bk_pages _ _ (ok_block _ _ _ _ sample_ok _ bi Hvb Hb)) as Hp.
  assert (H0 : pagesInUse bi = 0).
  { destruct (sample_valid _ Hvb) as [He | [He | [He | He]]]; rewrite He in Hb; vm_compute in Hb; by injection Hb as <-. }
  rewrite H0 in Hp. unfold in_use in Hu.
  change (blks sample_state) with sample_blocks in Hu. by rewrite (used_zero_inv sample_cfg _ _ _ (eq_sym Hp) Hr) in Hu.
Qed.

Lemma sample_flash : flash_ok sample_cfg ∅ sample_state.
Proof.
  split; [split|].
  - exact sample_ok.
  - by intros c ?%not_elem_of_empty.
  - intros blk bi Hv Hb. destruct (sample_valid blk Hv) as [-> | [-> | [-> | ->]]];
      vm_compute in Hb; injection Hb as <-; vm_compute; discriminate.
  - apply (stocked_alloc sample_cfg); [exact sample_ok|]. intros c _ _. apply (lookup_empty (M := gmap Z)).
Qed.

Lemma sample_plain : plain_groups sample_cfg.
Proof. split; [done..|]. vm_compute. discriminate. Qed.

Lemma sample_device : device_ok sample_cfg.
Proof.
  split; [exact sample_cfg_ok|exact sample_tn_cfg_ok|exact sample_plain|exact sim_can_mark
    |exact sim_aligned|done|done].
Qed.

(** The garbage collector while it is at work: called again, it does nothing. *)
#[export] Instance busy_collector : Collector sample_cfg (mret YAFFS_OK : M (FS Flash Z) Z) (fun _ => True).
Proof.
  split. intros s U l Fs D _ Hs. apply wp_ret. exists U, l, Fs, D. split; [done|]. split; [by apply spent_same|].
  split; [by apply data_kept_refl|by apply objects_kept_refl].
Qed.

(** Directories without headers whose parents and children are among [ds] and match. *)
Definition has_child (t : Objects) (d c : Z) : bool :=
  match variant <$> objects t !! d with Some (DirectoryVariant cs) => bool_decide (c ∈ cs) | _ => false end.
Definition has_parent (t : Objects) (c d : Z) : bool :=
  match objects t !! c with Some o => parent o =? d | None => false end.
Definition plain_dir (t : Objects) (ds : list Z) (a : Z) : bool :=
  match objects t !! a with
  | Some o => (hdrChunk o <=? 0) && negb (lazyLoaded o) && negb (deleted o) && bool_decide (shortName o = []) &&
      ((parent o =? 0) || bool_decide (parent o ∈ ds) && has_child t (parent o) a) &&
      match variant o with
      | DirectoryVariant cs => forallb (fun c => bool_decide (c ∈ ds) && has_parent t c a) cs
      | _ => false
      end
  | None => false
  end.

Lemma plain_dir_inv (t : Objects) ds a : plain_dir t ds a = true -> exists o cs, objects t !! a = Some o /\
  hdrChunk o <= 0 /\ lazyLoaded o = false /\ deleted o = false /\ shortName o = [] /\ variant o = DirectoryVariant cs /\
  (parent o <> 0 -> parent o ∈ ds /\ exists od, objects t !! parent o = Some od /\ child_of od a) /\
  (forall c, c ∈ cs -> c ∈ ds /\ exists oc, objects t !! c = Some oc /\ parent oc = a).
Proof.
  unfold plain_dir. destruct (objects t !! a) as [o|]; [|done]. intros H. exists o.
  apply andb_true_iff in H as [H Hv]. apply andb_true_iff in H as [H Hp].
  apply andb_true_iff in H as [H Hsn]. apply andb_true_iff in H as [H Hd]. apply andb_true_iff in H as [Hh Hl].
  destruct (variant o) as [|f|cs|t1 t2|t1 t2] eqn:Ho; try done. exists cs. split; [done|]. split; [by apply Z.leb_le|].
  split; [by apply negb_true_iff|]. split; [by apply negb_true_iff|].
  split; [by apply bool_decide_eq_true in Hsn|]. split; [done|]. split.
  - intros Hne. rewrite (proj2 (Z.eqb_neq _ _) Hne) in Hp. apply andb_true_iff in Hp as [Hin Hc].
    split; [by apply bool_decide_eq_true in Hin|]. unfold has_child in Hc.
    destruct (objects t !! parent o) as [od|]; [|done]. exists od. split; [done|]. simpl in Hc.
    destruct (variant od) as [|f|cs2|t1 t2|t1 t2] eqn:Hod; try done. apply bool_decide_eq_true in Hc. by exists cs2.
  - intros c Hc. rewrite forallb_forall in Hv. specialize (Hv c ltac:(by apply list_elem_of_In)).
    apply andb_true_iff in Hv as [Hin Hpc]. split; [by apply bool_decide_eq_true in Hin|]. unfold has_parent in Hpc.
    destruct (objects t !! c) as [oc|]; [|done]. exists oc. split; [done|]. by apply Z.eqb_eq.
Qed.

Lemma plain_dirs (t : Objects) ds :
  (forall x, hashed t x <-> x ∈ ds) -> forallb (plain_dir t ds) ds = true ->
  [rootDir t; lostNFoundDir t; unlinkedDir t; deletedDir t] ⊆ ds -> unlinkedDir t <> deletedDir t ->
  dirs_ok t /\ forall x o, hashed t x -> objects t !! x = Some o ->
    hdrChunk o <= 0 /\ lazyLoaded o = false /\ shortName o = [] /\ exists cs, variant o = DirectoryVariant cs.
Proof.
  intros Hh Hp Hr Hd. rewrite forallb_forall in Hp.
  assert (Hq : forall x, hashed t x -> plain_dir t ds x = true).
  { intros x Hx%Hh. by apply Hp, list_elem_of_In. }
  split; [split|].
  - intros a o Ha Ho Hne. destruct (plain_dir_inv t ds a (Hq a Ha)) as (o2 & cs & Ho2 & _ & _ & _ & _ & _ & Hpar & _).
    rewrite Ho in Ho2. injection Ho2 as <-. destruct (Hpar Hne) as [Hin H]. split; [by apply Hh|done].
  - intros d od c Hdh Hod (cs & Hv & Hc). destruct (plain_dir_inv t ds d (Hq d Hdh)) as (o2 & cs2 & Ho2 & _ & _ & _ & _ & Hv2 & _ & Hch).
    rewrite Hod in Ho2. injection Ho2 as <-. rewrite Hv in Hv2. injection Hv2 as <-.
    destruct (Hch c Hc) as [Hin H]. split; [by apply Hh|done].
  - intros d Hin. specialize (Hr d Hin). apply Hh in Hr. split; [done|].
    destruct (plain_dir_inv t ds d (Hq d Hr)) as (o & cs & Ho & _ & _ & Hdel & _ & Hv & _). by exists o, cs.
  - done.
  - intros x o Hx Ho. destruct (plain_dir_inv t ds x (Hq x Hx)) as (o2 & cs & Ho2 & H1 & H2 & _ & H4 & H3 & _).
    rewrite Ho in Ho2. injection Ho2 as <-. do 3 (split; [done|]). by exists cs.
Qed.

Lemma stocked_same : obs stocked_fs = obs mounted_fs /\ dev stocked_fs = sample_state.
Proof. vm_compute. by split. Qed.

Lemma stocked_mem : exists l, mem_ok sample_cfg stocked_fs ∅ l /\ length l = 100%nat.
Proof.
  destruct mounted_fs_ok as (l & [Hst Ht Hown] & _).
  assert (Hl : length l = 0%nat).
  { pose proof (so_count _ _ _ _ Hst) as Hc. assert (nFreeTnodes (tns mounted_fs) = 0) by (vm_compute; reflexivity). lia. }
  destruct l; [|done].
  set (Q := fun (r : Z) (s' : FS Flash Z) =>
    ((exists new, store_ok sample_cfg (tns s') ∅ (new ++ []) /\ (new = [] <-> refused sample_cfg 100 (tns mounted_fs)) /\ (r = YAFFS_OK -> Z.of_nat (length new) = 100)) /\
      (forall q, q ∈ (∅ : gset Z) -> tnodes (tns s') !! q = tnodes (tns mounted_fs) !! q)) /\
    heap_le (tns mounted_fs) (tns s')).
  assert (Hwp : wp (on_tns (yaffs_CreateTnodes sample_cfg YAFFS_ALLOCATION_NTNODES)) Q mounted_fs).
  { apply wp_on_tns. apply (wp_heap (yaffs_CreateTnodes sample_cfg YAFFS_ALLOCATION_NTNODES) (fun r t =>
      (exists new, store_ok sample_cfg t ∅ (new ++ []) /\ (new = [] <-> refused sample_cfg 100 (tns mounted_fs)) /\ (r = YAFFS_OK -> Z.of_nat (length new) = 100)) /\
      (forall q, q ∈ (∅ : gset Z) -> tnodes t !! q = tnodes (tns mounted_fs) !! q))); [apply grows_CreateTnodes|].
    by apply CreateTnodes_spec; [apply sample_tn_cfg_ok| |]. }
  assert (HQ : Q YAFFS_OK stocked_fs).
  { apply (run_state_result _ _ mounted_fs YAFFS_OK Hwp). vm_compute. reflexivity. }
  destruct HQ as [[(new & Hn & _ & Hlen) _] Hle]. rewrite app_nil_r in Hn. exists new. split; [|specialize (Hlen eq_refl); lia].
  destruct stocked_same as [Ho _]. split; [exact Hn|by rewrite Ho|]. rewrite Ho.
  intros x Hx. apply Hle. by apply Hown.
Qed.

Lemma stocked_plain : dirs_ok (obs stocked_fs) /\ forall x o, hashed (obs stocked_fs) x ->
  objects (obs stocked_fs) !! x = Some o ->
    hdrChunk o <= 0 /\ lazyLoaded o = false /\ shortName o = [] /\ exists cs, variant o = DirectoryVariant cs.
Proof.
  destruct mounted_fs_ok as (_ & _ & Hr & Hh). destruct stocked_same as [-> _].
  apply (plain_dirs _ _ Hh).
  - vm_compute. reflexivity.
  - intros x. rewrite !elem_of_cons. tauto.
  - pose proof (ro_nodup _ Hr) as Hnd. apply NoDup_cons_1_1 in Hnd. intros He. apply Hnd. rewrite He. by left.
Qed.

Lemma stocked_fs_ok : exists l, fs_ok sample_cfg stocked_fs ∅ l (fun _ => ∅) ∅ /\ length l = 100%nat.
Proof.
  destruct stocked_mem as (l & Hm & Hlen). destruct stocked_plain as [Hdirs Hplain].
  destruct mounted_fs_ok as (_ & _ & Hr & Hh). destruct stocked_same as [Hob Hdev]. exists l.
  split; [|done].
  assert (Hno : forall x o f, ~ any_file stocked_fs x o f).
  { intros x o f [[Hx Ho] Hv]. destruct (Hplain x o Hx Ho) as (_ & _ & _ & cs & Hv2). by rewrite Hv in Hv2. }
  split.
  - exact Hm.
  - rewrite Hdev. exact sample_flash.
  - intros x o [Hx Ho]. rewrite Hob in Hx, Ho. pose proof (roots_numbers _ x o Hr Hh Hx Ho). lia.
  - intros x o f Hf. by destruct (Hno x o f).
  - intros x x' o o' f f' Hf. by destruct (Hno x o f).
  - intros x o f id [Hf _]. by destruct (Hno x o f).
  - intros x o [Hx Ho] Hp. destruct (Hplain x o Hx Ho). lia.
  - intros x o [Hx Ho] Hl. destruct (Hplain x o Hx Ho) as (_ & Hl2 & _). rewrite Hl2 in Hl. discriminate Hl.
  - intros c Hc Hu. rewrite Hdev in Hu. destruct (sample_unused c Hc Hu).
  - intros c Hc. destruct (not_elem_of_empty _ Hc).
  - exact Hdirs.
  - intros x o f [Hf _]. destruct (Hno x o f Hf).
  - intros x o [Hx Ho]. destruct (Hplain x o Hx Ho) as (_ & _ & Hsn & _). rewrite Hsn. vm_compute. discriminate.
  - intros x o [Hx Ho] _. by destruct (Hplain x o Hx Ho).
  - intros x o f Hf. destruct (Hno x o f Hf).
Qed.

Lemma file_fs_created : created sample_cfg stocked_fs file_fs ∅ 257 OBJECT_TYPE_FILE the_file.
Proof.
  destruct mounted_fs_ok as (_ & _ & Hr & Hh). destruct stocked_same as [Hob _].
  destruct stocked_mem as (l & Hm & Hl).
  destruct (run_state_result _ _ stocked_fs the_file
    (create_numbered sample_cfg sample_tn_cfg_ok stocked_fs ∅ l 257 OBJECT_TYPE_FILE Hm
      ltac:(rewrite Hob; by apply roots_lost) ltac:(lia)
      ltac:(rewrite Hob; intros x o Hx Ho; pose proof (roots_numbers _ x o Hr Hh Hx Ho) as Hn;
            change (u32 257) with 257; lia)
      ltac:(intros _; right; apply (tnodes_at_hand sample_cfg stocked_fs ∅ l Hm); by destruct l)))
    as [_ [[H0 _]|Hcr]].
  { vm_compute. reflexivity. }
  { vm_compute in H0. discriminate. }
  exact Hcr.
Qed.

Lemma file_fs_ok : exists U l Fs o f, fs_ok sample_cfg file_fs U l Fs ∅ /\ is_file file_fs the_file o f /\
  objId o = 257 /\ length l = 99%nat /\ fileSize f = 0 /\ hdrChunk o = -1 /\
  (forall id, file_data sample_cfg file_fs the_file id = None).
Proof.
  destruct stocked_fs_ok as (l0 & Hs0 & _). destruct stocked_same as [_ Hdev].
  destruct (created_fs_ok sample_cfg sample_cfg_ok sample_tn_cfg_ok stocked_fs file_fs ∅ l0 (fun _ => ∅) ∅ 257 OBJECT_TYPE_FILE
    the_file Hs0) as (tn & l & Hs & o & Ho & Hst & Hnew).
  - vm_compute. discriminate.
  - exact file_fs_created.
  - intros c d id (Hv & Hu & _). rewrite Hdev in Hu. by apply sample_unused in Hu.
  - pose proof Hst as (Hid & _ & _ & Hdel & _ & Hdf & Hhdr & _ & _ & _ & _ & _ & Hv).
    assert (Hf : is_file file_fs the_file o (MkFileStructure 0 0 0xFFFFFFFF 0 tn)).
    { split; [|unfold dead; by rewrite Hdel, Hdf]. split; [|exact Hv]. split; [|done].
      apply (cr_hashed _ _ _ _ _ _ _ file_fs_created). by left. }
    destruct (Hnew _ Hf) as [_ He]. eexists _, l, _, o, _. split; [exact Hs|]. split; [exact Hf|].
    split; [rewrite Hid; reflexivity|]. split.
    { pose proof (so_count _ _ _ _ (mo_store _ _ _ _ (fk_mem _ _ _ _ _ _ _ Hs))) as Hc.
      assert (nFreeTnodes (tns file_fs) = 99) by (vm_compute; reflexivity). lia. }
    split; [done|]. split; [exact Hhdr|].
    intros id. by rewrite (file_data_entry sample_cfg file_fs the_file o _ id Hf), He.
Qed.

Lemma WriteChunk_refines_witness :
  wp (yaffs_WriteChunkDataToObject sample_cfg (mret YAFFS_OK) the_file 1 (sample_data 7) 512 false) (fun r s' =>
    (exists U' l' Fs' D', fs_ok sample_cfg s' U' l' Fs' D') /\
    ((r = -1 /\ no_page sample_cfg false (dev s') /\ data_kept sample_cfg file_fs s') \/
     (0 < r /\ data_step sample_cfg file_fs s'
       (with_chunk (file_data sample_cfg file_fs) the_file 1 (sample_data 7))))) file_fs.
Proof.
  destruct file_fs_ok as (U & l & Fs & o & f & Hs & Hf & Hid & Hl & _).
  apply (WriteChunk_refines sample_cfg (mret YAFFS_OK) (fun _ => True) file_fs U l Fs ∅ the_file o f 1
    (sample_data 7) 512 false sample_device I Hs Hf);
    [rewrite Hid; lia|lia|rewrite Hl; lia|change (nDataBytesPerChunk sample_cfg) with 512; lia|reflexivity].
Defined.

Lemma WriteChunk_reads_back_witness :
  wp (r ← yaffs_WriteChunkDataToObject sample_cfg (mret YAFFS_OK) the_file 1 (sample_data 7) 512 false;
      x ← yaffs_ReadChunkDataFromObject sample_cfg the_file 1 (sample_data 0);
      mret (r, snd x)) (fun '(r, data) _ =>
    data = if (0 <? r) && (the_file =? the_file) && (1 =? 1) then sample_data 7
           else default (replicate (Z.to_nat (nDataBytesPerChunk sample_cfg)) 0)
                  (file_data sample_cfg file_fs the_file 1)) file_fs.
Proof.
  destruct file_fs_ok as (U & l & Fs & o & f & Hs & Hf & Hid & Hl & _).
  apply (WriteChunk_reads_back sample_cfg (mret YAFFS_OK) (fun _ => True) file_fs U l Fs ∅ the_file o f 1
    (sample_data 7) 512 false the_file o f 1 (sample_data 0) sample_device I Hs Hf);
    [rewrite Hid; lia|lia|rewrite Hl; lia|change (nDataBytesPerChunk sample_cfg) with 512; lia|reflexivity
    |exact Hf|lia|reflexivity].
Defined.
