(* ===== verification/Steps.v ===== *)
(** * Steps that change objects but no file's data

    Most operations on objects (names, times, directories, headers) leave the trees and the
    data of files alone.  [objects_step] carries the books of the device over such a step;
    [view] is the common case, in which headers stay as well, and [header_step] the one in
    which an object gets a new header. *)
From S2P Require Import Prelude Monad ObjHeader Tags Device Nand Sim BlockInv Blocks Medium Blank Tnode Tree Objects File.

Section steps.
Context {N K : Type} {nd : NandDriver N} `{!Kmalloc K} `{!KmallocLaws K} (cfg : Config).
Context {nf : NandFrame nd cfg} {nm : NandMedium nd cfg} {nb : NandBlank nd cfg}.
Implicit Types (s : FS N K) (o : Object) (f : FileStructure).

(** The object is the same but for its header's place and what is not about its data. *)
Record viewed o o' : Prop := {
  vd_id : objId o' = objId o;
  vd_deleted : deleted o' = deleted o;
  vd_freed : deferedFree o' = deferedFree o;
  vd_type : variantType o' = variantType o;
  vd_lazy : lazyLoaded o' = true -> lazyLoaded o = true;
  vd_file : forall f, variant o' = FileVariant f <-> variant o = FileVariant f;
  vd_short : Z.of_nat (length (shortName o)) <= YAFFS_SHORT_NAME_LENGTH ->
    Z.of_nat (length (shortName o')) <= YAFFS_SHORT_NAME_LENGTH
}.

Lemma vd_dead o o' : viewed o o' -> dead o' = dead o.
Proof. intros []. unfold dead. congruence. Qed.

#[export] Instance viewed_refl : Reflexive viewed.
Proof. by split. Qed.
#[export] Instance viewed_trans : Transitive viewed.
Proof.
  intros o1 o2 o3 [A1 A2 A0 A3 A4 A5 A6] [B1 B2 B0 B3 B4 B5 B6]. split; [congruence..|auto| |auto].
  intros f. by rewrite B5, A5.
Qed.

(** Every object in use is another one, related by [R]; tnodes, device and hash table are as
    they were. *)
Record objects_changed (R : Object -> Object -> Prop) s s' : Prop := {
  oc_dev : dev s' = dev s;
  oc_tnodes : tnodes (tns s') = tnodes (tns s);
  oc_hashed : forall a, hashed (obs s') a <-> hashed (obs s) a;
  oc_roots : same_roots (obs s) (obs s');
  oc_fwd : forall a o, is_object s a o -> exists o', is_object s' a o' /\ R o o';
  oc_back : forall a o', is_object s' a o' -> exists o, is_object s a o /\ R o o'
}.

Lemma objects_changed_refl (R : Object -> Object -> Prop) `{!Reflexive R} s : objects_changed R s s.
Proof. split; try done; intros a o Ho; by exists o. Qed.

Lemma objects_changed_trans (R : Object -> Object -> Prop) `{!Transitive R} s1 s2 s3 :
  objects_changed R s1 s2 -> objects_changed R s2 s3 -> objects_changed R s1 s3.
Proof.
  intros [A1 A2 A3 (A6 & A7 & A8 & A9) A4 A5] [B1 B2 B3 (B6 & B7 & B8 & B9) B4 B5].
  split; [congruence..|intros a; by rewrite B3, A3|repeat split; congruence| |].
  - intros a o Ho. destruct (A4 a o Ho) as (o2 & Ho2 & R2). destruct (B4 a o2 Ho2) as (o3 & Ho3 & R3).
    exists o3. split; [done|by transitivity o2].
  - intros a o Ho. destruct (B5 a o Ho) as (o2 & Ho2 & R2). destruct (A5 a o2 Ho2) as (o1 & Ho1 & R1).
    exists o1. split; [done|by transitivity o2].
Qed.

Lemma changed_entry R s s' f id :
  objects_changed R s s' -> file_entry cfg (tns s') f id = file_entry cfg (tns s) f id.
Proof. intros [_ Ht _ _ _ _]. unfold file_entry. by rewrite Ht. Qed.

Lemma changed_file s s' a o' f :
  objects_changed viewed s s' -> any_file s' a o' f -> exists o, any_file s a o f /\ viewed o o'.
Proof.
  intros Hc [Ho Hv]. destruct (oc_back _ _ _ Hc a o' Ho) as (o & Ho1 & Hvw). exists o.
  split; [split; [done|]|done]. by apply (vd_file _ _ Hvw).
Qed.

Lemma changed_live s s' a o f :
  objects_changed viewed s s' -> is_file s a o f -> exists o', is_file s' a o' f /\ viewed o o'.
Proof.
  intros Hc [[Ho Hv] Hd]. destruct (oc_fwd _ _ _ Hc a o Ho) as (o' & Ho1 & Hvw). exists o'.
  split; [split; [split; [done|]|]|done]; [by apply (vd_file _ _ Hvw)|by rewrite (vd_dead _ _ Hvw)].
Qed.

Lemma changed_data_kept s s' : objects_changed viewed s s' -> data_kept cfg s s'.
Proof.
  intros Hc a o f Hf. destruct (changed_live s s' a o f Hc Hf) as (o' & Hf' & Hvw). exists o', f.
  split; [done|]. split; [apply Hvw|]. split; [done|]. intros id _.
  rewrite (file_data_entry cfg s' a o' f), (file_data_entry cfg s a o f) by done.
  by rewrite (changed_entry _ _ _ _ _ Hc), (oc_dev _ _ _ Hc).
Qed.

(** The books after such a step.  The chunk in hand goes from [x] to [z]; the headers are
    those of the new objects, and every header in use but [z] is its object's. *)
Lemma objects_step x z s s' U l l' Fs D :
  fs_but cfg x s U l Fs D -> objects_changed viewed s s' -> mem_ok cfg s' U l' ->
  (forall a o', is_object s' a o' -> 0 < hdrChunk o' ->
    exists d, holds cfg (dev s) (hdrChunk o') d (objId o') 0 /\ header_ok o' d) ->
  (forall a o', is_object s' a o' -> lazyLoaded o' = true -> 0 < hdrChunk o') ->
  (forall a o', is_object s' a o' -> forall c d, holds cfg (dev s) c d (objId o') 0 -> c <> z -> hdrChunk o' = c) ->
  (x = z \/ exists d num, holds cfg (dev s) x d num 0) ->
  dirs_ok (obs s') ->
  (forall a o', is_object s' a o' -> deferedFree o' = true -> hdrChunk o' <= 0) ->
  (forall a o' f, any_file s' a o' f -> hdrChunk o' <> 0) ->
  fs_but cfg z s' U l' Fs D.
Proof.
  intros [Hmem Hfl Hnum Htr Hap He Hh Hlz Hb Hg _ Hz0 Hsn _ _] Hc Hmem' Hh' Hlz' Hb' Hx Hdirs Hfr' Hfh'.
  assert (Hdev : dev s' = dev s) by apply Hc.
  assert (Hent : forall f id, file_entry cfg (tns s') f id = file_entry cfg (tns s) f id)
    by (intros f id; by apply (changed_entry viewed)).
  assert (Hbel : forall c d num id, holds cfg (dev s) c d num id -> c <> z -> (c <> x -> belongs cfg s c num id) ->
    belongs cfg s' c num id).
  { intros c d num id Hhc Hne Hcb a o' Ho' Hn. split.
    - intros ->. subst num. by apply (Hb' a o' Ho' c d).
    - intros Hid. destruct (oc_back _ _ _ Hc a o' Ho') as (o & Ho & Hvw).
      assert (Hcb0 : belongs cfg s c num id).
      { refine (Hcb _). intros ->. destruct Hx as [->|(d0 & num0 & Hx)]; [done|].
        by destruct (holds_inj cfg _ _ _ _ _ _ _ _ Hhc Hx) as (_ & _ & ?). }
      destruct (Hcb0 a o Ho) as [_ Hcb']; [by rewrite <- (vd_id _ _ Hvw)|].
      destruct (Hcb' Hid) as (f & Hv & Hf). exists f. split; [by apply (vd_file _ _ Hvw)|].
      rewrite Hent, (vd_dead _ _ Hvw). exact Hf. }
  split.
  - done.
  - by rewrite Hdev.
  - intros a o' Ho'. destruct (oc_back _ _ _ Hc a o' Ho') as (o & Ho & Hvw). rewrite (vd_id _ _ Hvw). by apply (Hnum a).
  - intros a o' f Hf. destruct (changed_file s s' a o' f Hc Hf) as (o & Hf0 & Hvw).
    pose proof (Htr a o f Hf0) as Ht. unfold tree_of in *. rewrite (vd_dead _ _ Hvw).
    destruct (dead o); [done|]. destruct (file_ok_frame cfg (tns s) (tns s') U U f (Fs a)) as [H _]; [done|..|done].
    + apply (fo_used _ _ _ _ Ht).
    + intros q _. by rewrite (oc_tnodes _ _ _ Hc).
  - intros a a' o1 o2 f1 f2 H1 H2 Hne. destruct (changed_file s s' a o1 f1 Hc H1) as (p1 & Hf1 & _).
    destruct (changed_file s s' a' o2 f2 Hc H2) as (p2 & Hf2 & _). by apply (Hap a a' p1 p2 f1 f2).
  - intros a o' f id [Hf Hl] Hid Hne. destruct (changed_file s s' a o' f Hc Hf) as (o & Hf0 & Hvw).
    rewrite Hent in *. rewrite Hdev, (vd_id _ _ Hvw). apply (He a o f id); [|done|done].
    split; [done|by rewrite <- (vd_dead _ _ Hvw)].
  - intros a o' Ho' Hp. rewrite Hdev. by apply (Hh' a).
  - done.
  - intros c Hv Hu Hne. rewrite Hdev in Hu |- *. destruct (decide (c = x)) as [->|Hcx].
    + destruct Hx as [->|(d & num & Hd)]; [done|]. exists d, num, 0. split; [done|]. by apply (Hbel x d).
    + destruct (Hb c Hv Hu Hcx) as (d & num & id & Hd & Hcb). exists d, num, id. split; [done|]. by apply (Hbel c d).
  - intros c HD. rewrite Hdev. destruct (Hg c HD) as (d & num & id & Hd & Hne & Hgone). exists d, num, id.
    split; [done|]. split; [done|]. intros a o' Ho' Hn. destruct (oc_back _ _ _ Hc a o' Ho') as (o & Ho & Hvw).
    rewrite (vd_dead _ _ Hvw). apply (Hgone a o Ho). by rewrite <- (vd_id _ _ Hvw).
  - done.
  - intros a o' f [Hf Hl]. destruct (changed_file s s' a o' f Hc Hf) as (o & Hf0 & Hvw). rewrite Hent.
    apply (Hz0 a o). split; [done|]. by rewrite <- (vd_dead _ _ Hvw).
  - intros a o' Ho'. destruct (oc_back _ _ _ Hc a o' Ho') as (o & Ho & Hvw). apply (vd_short _ _ Hvw). by apply (Hsn a).
  - done.
  - done.
Qed.

(** ** Steps that leave the headers *)

(** The same place in the tree of directories. *)
Record same_place o o' : Prop := {
  sp_parent : parent o' = parent o;
  sp_deleted : deleted o' = deleted o;
  sp_children : same_children o o'
}.

#[export] Instance same_place_refl : Reflexive same_place.
Proof. by split. Qed.
#[export] Instance same_place_trans : Transitive same_place.
Proof.
  intros o1 o2 o3 [A1 A2 A3] [B1 B2 B3]. split; [congruence..|]. intros cs. rewrite (B3 cs). apply A3.
Qed.

(** Such steps leave the directories alone. *)
Lemma changed_dirs R s s' U l :
  (forall o o', R o o' -> same_place o o') -> objects_changed R s s' -> mem_ok cfg s U l ->
  dirs_ok (obs s) -> dirs_ok (obs s').
Proof.
  intros HR [_ _ Hh Hr Hf Hb] Hm Hd. apply (dirs_ok_same (obs s)); [done..| |].
  - intros x o Hx Ho. destruct (Hf x o) as (o' & [_ Ho'] & H); [by split|]. exists o'. apply HR in H as [].
    by split.
  - intros x o' Hx Ho'. destruct (Hb x o') as (o & [_ Ho] & _); [split; [by apply Hh|done]|by eexists].
Qed.

Definition same_view o o' : Prop := viewed o o' /\ same_place o o' /\ hdrChunk o' = hdrChunk o.

#[export] Instance same_view_refl : Reflexive same_view.
Proof. intros o. by split. Qed.
#[export] Instance same_view_trans : Transitive same_view.
Proof. intros o1 o2 o3 (A1 & A2 & A3) (B1 & B2 & B3). split; [by transitivity o2|]. split; [by transitivity o2|congruence]. Qed.

Abbreviation view := (objects_changed same_view).

Lemma changed_mono (R R' : Object -> Object -> Prop) s s' :
  (forall o o', R o o' -> R' o o') -> objects_changed R s s' -> objects_changed R' s s'.
Proof.
  intros HR [H1 H2 H3 H0 H4 H5]. split; try done.
  - intros a o Ho. destruct (H4 a o Ho) as (o' & Ho' & H). exists o'. auto.
  - intros a o Ho. destruct (H5 a o Ho) as (o' & Ho' & H). exists o'. auto.
Qed.

Lemma view_viewed s s' : view s s' -> objects_changed viewed s s'.
Proof. apply changed_mono. by intros o o' (? & _). Qed.

Lemma view_data_kept s s' : view s s' -> data_kept cfg s s'.
Proof. intros H. by apply changed_data_kept, view_viewed. Qed.

(** Objects move between directories, and the headers stay. *)
Definition same_header o o' : Prop := viewed o o' /\ hdrChunk o' = hdrChunk o.

Lemma headers_stay x s s' U l l' Fs D :
  fs_but cfg x s U l Fs D -> objects_changed same_header s s' -> mem_ok cfg s' U l' -> dirs_ok (obs s') ->
  fs_but cfg x s' U l' Fs D.
Proof.
  intros Hs Hc Hm Hd.
  apply (objects_step x x s s' U l l' Fs D); [done| |done| | | |by left|done| |].
  - by apply (changed_mono same_header); [intros o o' (? & _)|].
  - intros a o' Ho' Hp. destruct (oc_back _ _ _ Hc a o' Ho') as (o & Ho & Hvw & Hh). rewrite Hh in *.
    destruct (fk_header _ _ _ _ _ _ _ Hs a o Ho Hp) as (d & Hhd & Hok). exists d.
    rewrite (vd_id _ _ Hvw). split; [done|]. unfold header_ok. by rewrite (vd_type _ _ Hvw).
  - intros a o' Ho' Hlz. destruct (oc_back _ _ _ Hc a o' Ho') as (o & Ho & Hvw & Hh). rewrite Hh.
    apply (fk_lazy _ _ _ _ _ _ _ Hs a o Ho). by apply (vd_lazy _ _ Hvw).
  - intros a o' Ho' c d Hhd Hne. destruct (oc_back _ _ _ Hc a o' Ho') as (o & Ho & Hvw & Hh). rewrite Hh.
    rewrite (vd_id _ _ Hvw) in Hhd. pose proof Hhd as (Hv & Hu & _).
    destruct (fk_owner _ _ _ _ _ _ _ Hs c Hv Hu Hne) as (d1 & num1 & id1 & Hd1 & Hbel).
    destruct (holds_inj cfg _ _ _ _ _ _ _ _ Hhd Hd1) as (_ & -> & ->). by apply (Hbel a o).
  - intros a o' Ho'. destruct (oc_back _ _ _ Hc a o' Ho') as (o & Ho & Hvw & Hh). rewrite Hh, (vd_freed _ _ Hvw).
    by apply (fk_freed _ _ _ _ _ _ _ Hs a).
  - intros a o' f [Ho' Hv]. destruct (oc_back _ _ _ Hc a o' Ho') as (o & Ho & Hvw & Hh). rewrite Hh.
    apply (fk_file _ _ _ _ _ _ _ Hs a o f). split; [done|]. by apply (vd_file _ _ Hvw).
Qed.

Lemma view_ok x s s' U l l' Fs D :
  fs_but cfg x s U l Fs D -> view s s' -> mem_ok cfg s' U l' -> fs_but cfg x s' U l' Fs D.
Proof.
  intros Hs Hc Hm. apply (headers_stay x s s' U l l' Fs D); [done| |done|].
  - by apply (changed_mono same_view); [intros o o' (? & _ & ?)|].
  - apply (changed_dirs same_view s s' U l); [by intros o o' (_ & ? & _)|done|by apply Hs|by apply Hs].
Qed.

(** Changing one object. *)
Definition with_obj s (a : Z) (o : Object) : FS N K :=
  s <| obs ::= fun t => t <| objects ::= <[a := o]> |> |>.

Lemma changed_mod (R : Object -> Object -> Prop) `{!Reflexive R} s a o o' :
  objects (obs s) !! a = Some o -> R o o' -> objects_changed R s (with_obj s a o').
Proof.
  intros Ho HR. assert (Hh : forall y, hashed (obs (with_obj s a o')) y <-> hashed (obs s) y) by done.
  assert (Hl : objects (obs (with_obj s a o')) = <[a := o']> (objects (obs s))) by done.
  split; [done..|by repeat split| |]; intros y oy [Hy Hoy].
  - destruct (decide (y = a)) as [->|Hne].
    + rewrite Ho in Hoy. injection Hoy as <-. exists o'. split; [|done]. split; [by apply Hh|].
      by rewrite Hl, lookup_insert_eq.
    + exists oy. split; [|done]. split; [by apply Hh|]. by rewrite Hl, lookup_insert_ne.
  - rewrite Hl in Hoy. apply Hh in Hy. apply lookup_insert_Some in Hoy as [[<- <-]|[Hne Hoy]].
    + exists o. by split.
    + exists oy. by split.
Qed.

Lemma object_typed x s U l Fs D a o : fs_but cfg x s U l Fs D -> is_object s a o -> typed o.
Proof.
  intros Hs [Hh Ho].
  destruct (hashed_linked (obs s) a (mo_table _ _ _ _ (fk_mem _ _ _ _ _ _ _ Hs)) Hh) as (i & b & _ & _ & _ & o1 & Ho1 & _ & Ht).
  rewrite Ho in Ho1. by injection Ho1 as <-.
Qed.

Lemma object_nonzero x s U l Fs D a o : fs_but cfg x s U l Fs D -> is_object s a o -> a <> 0.
Proof.
  intros Hs [Hh Ho].
  by destruct (hashed_linked (obs s) a (mo_table _ _ _ _ (fk_mem _ _ _ _ _ _ _ Hs)) Hh) as (i & b & _ & _ & ? & _).
Qed.

Lemma wp_mod_view x s U l Fs D a o g (Q : unit -> FS N K -> Prop) :
  fs_but cfg x s U l Fs D -> objects (obs s) !! a = Some o -> same_view o (g o) -> (typed o -> typed (g o)) ->
  (forall c, child_of (g o) c -> child_of o c) ->
  (fs_but cfg x (with_obj s a (g o)) U l Fs D -> view s (with_obj s a (g o)) -> Q tt (with_obj s a (g o))) ->
  wp (mod_obj a g) Q s.
Proof.
  intros Hs Ho Hvw Hty Hch HQ. apply (wp_mod_obj a o); [done|].
  pose proof (fk_mem _ _ _ _ _ _ _ Hs) as Hm.
  assert (Hview : view s (with_obj s a (g o))) by (by apply (changed_mod same_view s a o)).
  apply HQ; [|done]. apply (view_ok x s _ U l l); [done|done|].
  apply (mem_ok_mod cfg s U l a o g); [done|done|apply Hvw|intros Hh; apply Hty|done].
  by apply (object_typed x s U l Fs D a o Hs).
Qed.

End steps.
Abbreviation view := (objects_changed same_view).

(** ** A new header *)

Section headers.
Context {N K : Type} {nd : NandDriver N} `{!Kmalloc K} `{!KmallocLaws K} (cfg : Config).
Context (Hcfg : cfg_ok cfg) (Hpg : plain_groups cfg).
Context {nf : NandFrame nd cfg} {nm : NandMedium nd cfg} {nb : NandBlank nd cfg}.
Implicit Types (s : FS N K) (o : Object) (f : FileStructure).

(** The header in hand becomes that of its object; the old one is in hand then. *)
Lemma header_step new s U l Fs D a o o' d :
  fs_but cfg new s U l Fs D -> is_object s a o -> viewed o o' -> same_place o o' -> hdrChunk o' = new ->
  deferedFree o = false ->
  (typed o -> typed o') -> (forall c, child_of o' c -> child_of o c) ->
  holds cfg (dev s) new d (objId o) 0 -> header_ok o d ->
  fs_but cfg (Z.max 0 (hdrChunk o)) (with_obj s a o') U l Fs D /\ objects_changed viewed s (with_obj s a o').
Proof.
  intros Hs Ho Hvw Hpl Hnew Hlive Hty Hch Hd Hok. pose proof Ho as [Hhash Hlook].
  pose proof (fk_mem _ _ _ _ _ _ _ Hs) as Hm. set (s' := with_obj s a o').
  assert (Hc : objects_changed viewed s s') by (by apply (changed_mod viewed s a o)).
  split; [|done]. destruct (valid_positive cfg Hcfg Hpg new (proj1 Hd)) as [Hpos _].
  assert (Hobj : forall y oy, is_object s' y oy -> (y = a /\ oy = o') \/ (y <> a /\ is_object s y oy)).
  { intros y oy [Hy Hoy]. change (objects (obs s')) with (<[a := o']> (objects (obs s))) in Hoy.
    apply lookup_insert_Some in Hoy as [[<- <-]|[Hne Hoy]]; [by left|right; by split]. }
  apply (objects_step cfg new _ s s' U l l); [done|done| | | | |right; by exists d, (objId o)| | |].
  - apply (mem_ok_mod cfg s U l a o (fun _ => o')); [done|done|apply Hvw|intros _; apply Hty|done].
    by apply (object_typed cfg new s U l Fs D a o Hs).
  - intros y oy [[-> ->]|[_ Hoy]]%Hobj Hp; [|by apply (fk_header _ _ _ _ _ _ _ Hs y)].
    exists d. rewrite Hnew, (vd_id _ _ Hvw). split; [done|]. unfold header_ok. by rewrite (vd_type _ _ Hvw).
  - intros y oy [[-> ->]|[_ Hoy]]%Hobj Hlz; [lia|by apply (fk_lazy _ _ _ _ _ _ _ Hs y oy)].
  - intros y oy Hy c dc Hdc Hne. destruct (decide (c = new)) as [->|Hcn].
    + destruct (Hobj y oy Hy) as [[-> ->]|[Hya Hoy]]; [done|].
      destruct (holds_inj cfg _ _ _ _ _ _ _ _ Hd Hdc) as (_ & Hn & _).
      destruct (object_unique cfg new s U l Fs D a y o oy Hs Ho Hoy (eq_sym Hn)); congruence.
    + pose proof Hdc as (Hv & Hu & _). destruct (fk_owner _ _ _ _ _ _ _ Hs c Hv Hu Hcn) as (d1 & num1 & id1 & Hd1 & Hbel).
      destruct (holds_inj cfg _ _ _ _ _ _ _ _ Hdc Hd1) as (_ & -> & ->).
      destruct (Hobj y oy Hy) as [[-> ->]|[Hya Hoy]]; [|by apply (Hbel y oy)].
      destruct (Hbel a o Ho) as [H0 _]; [by rewrite (vd_id _ _ Hvw)|].
      pose proof (valid_positive cfg Hcfg Hpg c Hv). specialize (H0 eq_refl). lia.
  - apply (changed_dirs cfg same_place s s' U l); [done| |by apply Hs|by apply Hs].
    by apply (changed_mod same_place s a o).
  - intros y oy [[-> ->]|[_ Hoy]]%Hobj; [|by apply (fk_freed _ _ _ _ _ _ _ Hs y)].
    rewrite (vd_freed _ _ Hvw). congruence.
  - intros y oy fy [[[-> ->]|[_ Hoy]]%Hobj Hv]; [lia|]. by apply (fk_file _ _ _ _ _ _ _ Hs y oy fy).
Qed.
End headers.
