(* ===== verification/Cache.v ===== *)
(** * The short-operation cache ([yaffs_guts.c])

    A few chunk-sized buffers collect short writes before they go to flash.  A slot is named
    by its index; a null slot pointer is -1. *)
From S2P Require Import Prelude Monad Tags Device Nand Sim BlockInv Blocks Medium Blank Tnode Tree Objects File.

Section cache.
Context {N K : Type} {nd : NandDriver N} `{!Kmalloc K} (cfg : Config).
Local Abbreviation St := (FS N K).

Definition getCh {A} (f : Caches -> A) : M St A := gets (fun s => f (caches s)).
Definition modCh (f : Caches -> Caches) : M St unit := modify (fun s => s <| caches ::= f |>).

(** [dev->srCache[i]], read and written. *)
Definition get_slot (i : Z) : M St ChunkCache :=
  l ← getCh srCache;
  of_option (lookupZ i l).
Definition mod_slot (i : Z) (f : ChunkCache -> ChunkCache) : M St unit :=
  c ← get_slot i;
  l ← getCh srCache;
  l ← of_option (updateZ i (f c) l);
  modCh (fun t => t <| srCache := l |>).

Definition slots : list Z := seqZ 0 (nShortOpCaches cfg).

(** [obj->myDev]: there is one device, but [obj] must be an object. *)
Definition yaffs_ObjectHasCachedWriteData (obj : Z) : M St bool :=
  _ ← get_obj obj;
  r ← for_break slots (fun i =>
    cache ← get_slot i;
    mret (if (cc_object cache =? obj) && cc_dirty cache then Some tt else None));
  mret (bool_decide (is_Some r)).

(** "Find the dirty cache for this object with the lowest chunk id": the slot, or -1, and
    [lowest]. *)
Definition lowest_dirty (obj : Z) : M St (Z * Z) :=
  for_acc slots (fun i acc =>
    let '(cache, lowest) := acc in
    c ← get_slot i;
    mret (if (cc_object c =? obj) && cc_dirty c && ((cache <? 0) || (cc_chunkId c <? lowest))
          then (i, cc_chunkId c) else acc)) (-1, -99).

(** [yaffs_WriteChunkDataToObject]: what the slots are written with. *)
Definition Writer : Type := Z -> Z -> list Z -> Z -> bool -> M St Z.

(** The loop, [fuel] passes at most. *)
Fixpoint flush_loop (fuel : nat) (write : Writer) (obj chunkWritten : Z) : M St unit :=
  match fuel with
  | O => fail
  | S fuel =>
      r ← lowest_dirty obj;
      let cache := fst r in
      if cache <? 0 then mret tt else
      c ← get_slot cache;
      if cc_locked c then
        if 0 <? chunkWritten then flush_loop fuel write obj chunkWritten else mret tt
      else
        chunkWritten ← write (cc_object c) (cc_chunkId c) (cc_data c)
                         (cc_nBytes c) true;
        _ ← mod_slot cache (fun c => c <| cc_dirty := false |>);
        _ ← mod_slot cache (fun c => c <| cc_object := 0 |>);
        if 0 <? chunkWritten then flush_loop fuel write obj chunkWritten else mret tt
  end.

(** Every pass but the last empties a slot. *)
Definition flush_fuel : nat := S (Z.to_nat (nShortOpCaches cfg)).

Definition yaffs_FlushFilesChunkCache (write : Writer) (obj : Z) : M St unit :=
  _ ← get_obj obj;
  when (0 <? nShortOpCaches cfg) (flush_loop flush_fuel write obj 0).

Fixpoint flush_device_loop (fuel : nat) (write : Writer) : M St unit :=
  match fuel with
  | O => fail
  | S fuel =>
      r ← for_break slots (fun i =>
        c ← get_slot i;
        mret (if ztrue (cc_object c) && cc_dirty c then Some (cc_object c) else None));
      match r with
      | Some obj => _ ← yaffs_FlushFilesChunkCache write obj; flush_device_loop fuel write
      | None => mret tt
      end
  end.

(** Every pass but the last empties a slot. *)
Definition yaffs_FlushEntireDeviceCache (write : Writer) : M St unit :=
  flush_device_loop flush_fuel write.

(** An empty slot, or -1; what follows the second [return] of the function is never run. *)
Definition yaffs_GrabChunkCacheWorker : M St Z :=
  r ← for_break slots (fun i =>
    c ← get_slot i;
    mret (if ztrue (cc_object c) then None else Some i));
  mret (default (-1) r).

(** The slot that was used least recently, if one is not locked: the slot, [usage] and
    [theObj]. *)
Definition push_out : M St (Z * Z * Z) :=
  for_acc slots (fun i acc =>
    let '(cache, usage, theObj) := acc in
    c ← get_slot i;
    mret (if ztrue (cc_object c) && negb (cc_locked c) && ((cc_lastUse c <? usage) || (cache <? 0))
          then (i, cc_lastUse c, cc_object c) else acc)) (-1, -1, 0).

Definition yaffs_GrabChunkCache (write : Writer) : M St Z :=
  if 0 <? nShortOpCaches cfg then
    cache ← yaffs_GrabChunkCacheWorker;
    if 0 <=? cache then mret cache else
    p ← push_out;
    let '(cache, _, theObj) := p in
    dirty_ ← (if cache <? 0 then mret true else c ← get_slot cache; mret (cc_dirty c));
    if (dirty_ : bool) then
      _ ← yaffs_FlushFilesChunkCache write theObj;
      yaffs_GrabChunkCacheWorker
    else mret cache
  else mret (-1).

Definition yaffs_FindChunkCache (obj chunk : Z) : M St Z :=
  _ ← get_obj obj;
  if 0 <? nShortOpCaches cfg then
    r ← for_break slots (fun i =>
      c ← get_slot i;
      if (cc_object c =? obj) && (cc_chunkId c =? chunk) then
        _ ← modCh (fun t => t <| cacheHits ::= fun n => i32 (n + 1) |>);
        mret (Some i)
      else mret None);
    mret (default (-1) r)
  else mret (-1).

Definition yaffs_UseChunkCache (cache : Z) (isAWrite : bool) : M St unit :=
  when (0 <? nShortOpCaches cfg) (
    last ← getCh srLastUse;
    _ ← when ((last <? 0) || (100000000 <? last)) (
      _ ← for_each (seqZ 1 (nShortOpCaches cfg - 1)) (fun i =>
        mod_slot i (fun c => c <| cc_lastUse := 0 |>));
      modCh (fun t => t <| srLastUse := 0 |>));
    _ ← modCh (fun t => t <| srLastUse ::= Z.succ |>);
    last ← getCh srLastUse;
    _ ← mod_slot cache (fun c => c <| cc_lastUse := last |>);
    when isAWrite (mod_slot cache (fun c => c <| cc_dirty := true |>))).

Definition yaffs_InvalidateChunkCache (object chunk : Z) : M St unit :=
  _ ← get_obj object;
  when (0 <? nShortOpCaches cfg) (
    cache ← yaffs_FindChunkCache object chunk;
    when (0 <=? cache) (mod_slot cache (fun c => c <| cc_object := 0 |>))).

Definition yaffs_InvalidateWholeChunkCache (in_ : Z) : M St unit :=
  _ ← get_obj in_;
  when (0 <? nShortOpCaches cfg) (
    for_each slots (fun i =>
      c ← get_slot i;
      when (cc_object c =? in_) (mod_slot i (fun c => c <| cc_object := 0 |>)))).
End cache.
Arguments Writer : clear implicits.

(** ** What the cache holds *)

(** Slot [c] holds dirty data of chunk [id] of object [a]. *)
Definition holds_dirty (a id : Z) (c : ChunkCache) : bool :=
  (cc_object c =? a) && cc_dirty c && (cc_chunkId c =? id).

(** The data that waits to be written for a chunk. *)
Definition pending (l : list ChunkCache) (a id : Z) : option (list Z) :=
  cc_data <$> find (holds_dirty a id) l.

(** No two slots are for the same chunk. *)
Definition distinct (l : list ChunkCache) : Prop := forall i j c c',
  l !! i = Some c -> l !! j = Some c' -> cc_object c <> 0 ->
  cc_object c' = cc_object c -> cc_chunkId c' = cc_chunkId c -> j = i.

Definition clean_slot (c : ChunkCache) : ChunkCache :=
  c <| cc_dirty := false |> <| cc_object := 0 |>.

Lemma holds_dirty_true a id c :
  holds_dirty a id c = true <-> cc_object c = a /\ cc_dirty c = true /\ cc_chunkId c = id.
Proof. unfold holds_dirty. rewrite !andb_true_iff, !Z.eqb_eq. tauto. Qed.

Lemma pending_Some l a id d :
  distinct l -> a <> 0 -> pending l a id = Some d <->
  exists i c, l !! i = Some c /\ holds_dirty a id c = true /\ cc_data c = d.
Proof.
  intros Hd Ha. unfold pending. split.
  - intros H. destruct (find _ l) as [c|] eqn:E; [|done]. simpl in H. injection H as <-.
    apply find_some in E as [Hin Hc]. apply list_elem_of_In in Hin.
    apply list_elem_of_lookup in Hin as [i Hi]. by exists i, c.
  - intros (i & c & Hi & Hc & <-). destruct (find _ l) as [c'|] eqn:E.
    + apply find_some in E as [Hin Hc']. apply list_elem_of_In in Hin.
      apply list_elem_of_lookup in Hin as [j Hj]. apply holds_dirty_true in Hc as (H1 & _ & H2).
      apply holds_dirty_true in Hc' as (H1' & _ & H2').
      rewrite (Hd i j c c' Hi Hj) in Hj by congruence. rewrite Hi in Hj. by injection Hj as <-.
    + pose proof (find_none _ _ E c) as Hn. rewrite Hn in Hc; [done|].
      by apply list_elem_of_In, list_elem_of_lookup_2 with i.
Qed.

Lemma distinct_clean l i c : l !! i = Some c -> distinct l -> distinct (<[i := clean_slot c]> l).
Proof.
  intros Hi Hd j k cj ck Hj Hk Hne H1 H2.
  apply list_lookup_insert_Some in Hj as [(_ & <- & _)|[_ Hj]]; [done|].
  apply list_lookup_insert_Some in Hk as [(_ & <- & _)|[_ Hk]]; [by rewrite <- H1 in Hne|].
  by apply (Hd j k cj ck).
Qed.

(** A slot that was written is no longer dirty. *)
Lemma pending_clean l i c a id :
  l !! i = Some c -> cc_object c <> 0 -> cc_dirty c = true -> distinct l -> a <> 0 ->
  pending (<[i := clean_slot c]> l) a id =
  if (a =? cc_object c) && (id =? cc_chunkId c) then None else pending l a id.
Proof.
  intros Hi Hc0 Hdc Hd Ha. apply option_eq. intros d.
  rewrite pending_Some by (done || by apply distinct_clean).
  destruct (Z.eqb_spec a (cc_object c)) as [Hac|Hac]; simpl; [destruct (Z.eqb_spec id (cc_chunkId c)) as [Hic|Hic]|].
  - split; [|done]. intros (j & c' & Hj & Hc' & _). apply holds_dirty_true in Hc' as (H1 & H2 & H3).
    apply list_lookup_insert_Some in Hj as [(_ & <- & _)|[Hne Hj]]; [done|].
    destruct Hne. symmetry. apply (Hd i j c c'); congruence.
  - rewrite pending_Some by done. split; intros (j & c' & Hj & Hc' & Hdat); exists j, c'; split; try done.
    + apply list_lookup_insert_Some in Hj as [(_ & <- & _)|[Hne Hj]]; [|done].
      by apply holds_dirty_true in Hc' as (_ & ? & _).
    + rewrite list_lookup_insert_ne; [done|]. intros ->. rewrite Hi in Hj. injection Hj as <-.
      apply holds_dirty_true in Hc' as (_ & _ & H3). congruence.
  - rewrite pending_Some by done. split; intros (j & c' & Hj & Hc' & Hdat); exists j, c'; split; try done.
    + apply list_lookup_insert_Some in Hj as [(_ & <- & _)|[Hne Hj]]; [|done].
      by apply holds_dirty_true in Hc' as (_ & ? & _).
    + rewrite list_lookup_insert_ne; [done|]. intros ->. rewrite Hi in Hj. injection Hj as <-.
      apply holds_dirty_true in Hc' as (H3 & _ & _). congruence.
Qed.

(** How many slots are dirty with data of object [a]. *)
Definition dirty_count (l : list ChunkCache) (a : Z) : Z :=
  sumZ (fun c => ind ((cc_object c =? a) && cc_dirty c)) l.

Lemma dirty_count_clean l i c a :
  l !! i = Some c -> cc_object c = a -> cc_dirty c = true ->
  dirty_count (<[i := clean_slot c]> l) a = dirty_count l a - 1.
Proof.
  intros Hi Ha Hd. unfold dirty_count. rewrite (sumZ_insert _ l i c) by done.
  unfold clean_slot. simp_fields. rewrite Ha, Z.eqb_refl, Hd, andb_false_r. simpl. lia.
Qed.

Lemma dirty_count_range l a : 0 <= dirty_count l a <= Z.of_nat (length l).
Proof.
  unfold dirty_count. split; [apply sumZ_nonneg; intros; apply ind_range|].
  etrans; [apply (sumZ_le _ (fun _ => 1)); intros; apply ind_range|]. rewrite sumZ_const. lia.
Qed.

Section flush.
Context {N K : Type} {nd : NandDriver N} `{!Kmalloc K} `{!KmallocLaws K} (cfg : Config).
Context {nf : NandFrame nd cfg} {nm : NandMedium nd cfg} {nb : NandBlank nd cfg}.
Implicit Types (s : FS N K).

(** What the slots are written with, in states with [inv]: it ends and keeps the books. *)
Context (write : Writer N K) (inv : FS N K -> Prop).
Context (Hwrite : forall s U l Fs D a o f id buffer nBytes ur, inv s -> fs_ok cfg s U l Fs D ->
  is_file s a o f -> 0 <= objId o < 2 ^ 18 -> 1 <= id <= YAFFS_MAX_CHUNK_ID -> (12 <= length l)%nat ->
  0 <= nBytes <= nDataBytesPerChunk cfg -> Z.of_nat (length buffer) = nDataBytesPerChunk cfg ->
  wp (write a id buffer nBytes ur) (fun r s' =>
    (exists U' l' Fs' D', fs_ok cfg s' U' l' Fs' D') /\ inv s' /\ spent 12 s s' /\ after_write cfg s s' a id buffer r /\
    (r <= 0 -> no_page cfg ur (dev s'))) s).
Context (Hslots : forall s l, inv s -> inv (s <| caches ::= fun t => t <| srCache := l |> |>)).

Lemma wp_get_slot i c (Q : ChunkCache -> FS N K -> Prop) s :
  0 <= i -> srCache (caches s) !! Z.to_nat i = Some c -> Q c s -> wp (get_slot i) Q s.
Proof.
  intros Hi Hc HQ. unfold get_slot, getCh. apply wp_bind, wp_gets, wp_of_option with c; [|done].
  unfold lookupZ. by rewrite (proj2 (Z.leb_le 0 i)).
Qed.

Lemma wp_mod_slot i c g (Q : unit -> FS N K -> Prop) s :
  0 <= i -> srCache (caches s) !! Z.to_nat i = Some c ->
  Q tt (s <| caches ::= fun t => t <| srCache := <[Z.to_nat i := g c]> (srCache (caches s)) |> |>) ->
  wp (mod_slot i g) Q s.
Proof.
  intros Hi Hc HQ. unfold mod_slot. apply wp_bind, (wp_get_slot i c); [done|done|].
  unfold getCh. apply wp_bind, wp_gets. pose proof (lookup_lt_Some _ _ _ Hc).
  apply wp_bind, (wp_of_option _ (<[Z.to_nat i := g c]> (srCache (caches s)))); [apply updateZ_Some; lia|].
  by apply wp_modify.
Qed.

(** A dirty slot is for a chunk of a file; no slot is locked. *)
Definition slot_ok s (c : ChunkCache) : Prop :=
  cc_locked c = false /\ (cc_object c <> 0 -> cc_dirty c = true ->
    (exists o f, is_file s (cc_object c) o f /\ 0 <= objId o < 2 ^ 18) /\
    1 <= cc_chunkId c <= YAFFS_MAX_CHUNK_ID /\ 0 <= cc_nBytes c <= nDataBytesPerChunk cfg /\
    Z.of_nat (length (cc_data c)) = nDataBytesPerChunk cfg).

Record cache_ok s : Prop := {
  ca_size : Z.of_nat (length (srCache (caches s))) = nShortOpCaches cfg;
  ca_slots : Forall (slot_ok s) (srCache (caches s));
  ca_distinct : distinct (srCache (caches s))
}.

(** What a chunk of a file is: what waits in the cache, or what the flash has. *)
Definition contents s (a id : Z) : option (list Z) :=
  match pending (srCache (caches s)) a id with
  | Some d => Some d
  | None => file_data cfg s a id
  end.

(** The search for the dirty slot with the lowest chunk number. *)
Lemma lowest_dirty_spec s a :
  Z.of_nat (length (srCache (caches s))) = nShortOpCaches cfg -> wp (lowest_dirty cfg a) (fun r s' => s' = s /\
    ((fst r = -1 /\ dirty_count (srCache (caches s)) a = 0) \/
     exists c, 0 <= fst r /\ srCache (caches s) !! Z.to_nat (fst r) = Some c /\
       cc_object c = a /\ cc_dirty c = true)) s.
Proof.
  intros Hsz. unfold lowest_dirty. set (l := srCache (caches s)) in *.
  eapply wp_mono; [apply (wp_for_acc (fun d r s' => s' = s /\
    ((fst r = -1 /\ dirty_count (take (length d) l) a = 0) \/
     exists c, 0 <= fst r /\ l !! Z.to_nat (fst r) = Some c /\ cc_object c = a /\ cc_dirty c = true)))|].
  - split; [done|]. by left.
  - intros d i rest [x low] s' Hseq [-> Hr]. apply seqZ_split in Hseq as [-> Hi]; simpl in Hr.
    assert (Hlt : (length d < length l)%nat) by lia.
    destruct (lookup_lt_is_Some_2 l _ Hlt) as [c Hc].
    apply wp_bind, (wp_get_slot _ c); [lia|by rewrite Z.add_0_l, Nat2Z.id|]. apply wp_ret. split; [done|].
    rewrite length_app, Nat.add_1_r, (take_S_r _ _ c) by done. unfold dirty_count.
    rewrite sumZ_app, sumZ_cons, sumZ_nil. fold (dirty_count (take (length d) l) a).
    destruct ((cc_object c =? a) && cc_dirty c) eqn:Hd; simpl.
    + destruct (_ || _) eqn:Hb; simpl.
      * right. exists c. apply andb_prop in Hd as [H1%Z.eqb_eq H2].
        split; [lia|]. rewrite Z.add_0_l, Nat2Z.id. done.
      * apply orb_false_elim in Hb as [Hx _]. right. destruct Hr as [[-> _]|H]; [done|exact H].
    + destruct Hr as [[-> H0]|H]; [left|by right]. split; [done|]. rewrite H0. done.
  - intros r s' [-> [[H1 H2]|H]]; (split; [done|]); [left|by right]. split; [done|].
    rewrite take_ge in H2; [done|]. unfold slots. rewrite length_seqZ. lia.
Qed.

(** Nothing but the cache changed. *)
Definition with_slots s (l : list ChunkCache) : FS N K :=
  s <| caches ::= fun t => t <| srCache := l |> |>.

Lemma fs_but_slots x s l0 U l Fs D : fs_but cfg x s U l Fs D -> fs_but cfg x (with_slots s l0) U l Fs D.
Proof. intros [[H1 H2 H3] Hf Hn Ht Ha He Hh Hl Ho Hg]. by split. Qed.

Lemma slot_step s s' g c : data_step cfg s s' g -> slot_ok s c -> slot_ok s' c.
Proof.
  intros Hstep [Hl Hs]. split; [done|]. intros Hc Hd. destruct (Hs Hc Hd) as ((o & f & Hf & Hn) & Hr).
  split; [|done]. destruct (Hstep _ o f Hf) as (o' & f' & Hf' & Hid & _). exists o', f'. by rewrite Hid.
Qed.

Lemma clean_cache s s' i c g :
  cache_ok s -> caches s' = caches s -> data_step cfg s s' g -> srCache (caches s) !! i = Some c ->
  cache_ok (with_slots s' (<[i := clean_slot c]> (srCache (caches s')))).
Proof.
  intros [Hsz Hsl Hd] Hc Hstep Hi. unfold with_slots. split; simp_fields; rewrite Hc.
  - by rewrite length_insert.
  - apply Forall_insert; [eapply Forall_impl; [exact Hsl|]; intros x Hx|].
    + by apply (slot_step s s' g) in Hx.
    + destruct (proj1 (Forall_lookup _ _) Hsl i c Hi) as [Hlk _]. by split.
  - by apply distinct_clean.
Qed.

(** All files are still there. *)
Definition same_files s s' : Prop := data_step cfg s s' (file_data cfg s').

Lemma same_files_step s s' g : data_step cfg s s' g -> same_files s s'.
Proof.
  intros H a o f Hf. destruct (H a o f Hf) as (o' & f' & Hf' & H1 & H2 & _). by exists o', f'.
Qed.

Lemma same_files_trans s1 s2 s3 : same_files s1 s2 -> same_files s2 s3 -> same_files s1 s3.
Proof. intros H1 H2. eapply data_step_trans; [exact H1|exact H2|]. done. Qed.

(** The contents of all files but those of chunk [id] of the file at [a]. *)
Definition contents_kept s s' (but : Z -> Z -> Prop) : Prop := forall x o f y,
  is_file s x o f -> 0 <= y <= YAFFS_MAX_CHUNK_ID -> ~ but x y -> contents s' x y = contents s x y.

(** The outcome of a flush: everything is written, or one chunk could not be, for want of a
    page, and is lost. *)
Definition flushed s s' (a : Z) : Prop :=
  (dirty_count (srCache (caches s')) a = 0 /\ contents_kept s s' (fun _ _ => False)) \/
  no_page cfg true (dev s') /\ exists id, 0 <= id <= YAFFS_MAX_CHUNK_ID /\ is_Some (pending (srCache (caches s)) a id) /\
    contents s' a id = file_data cfg s a id /\ contents_kept s s' (fun x y => x = a /\ y = id).

Lemma address_not_0 x s U l Fs D a o f : fs_but cfg x s U l Fs D -> is_file s a o f -> a <> 0.
Proof.
  intros Hs [[[Ha _] _] _].
  by destruct (hashed_linked (obs s) a (mo_table _ _ _ _ (fk_mem _ _ _ _ _ _ _ Hs)) Ha) as (i & b & _ & _ & ? & _).
Qed.

(** Writing out one slot, when there was a page for it and when there was none. *)
Lemma slot_written s s' i c r :
  cache_ok s -> caches s' = caches s -> srCache (caches s) !! i = Some c -> cc_object c <> 0 ->
  (forall x o f, is_file s x o f -> x <> 0) -> cc_dirty c = true ->
  after_write cfg s s' (cc_object c) (cc_chunkId c) (cc_data c) r ->
  let s2 := with_slots s' (<[i := clean_slot c]> (srCache (caches s'))) in
  if 0 <? r then contents_kept s s2 (fun _ _ => False)
  else contents s2 (cc_object c) (cc_chunkId c) = file_data cfg s (cc_object c) (cc_chunkId c) /\
    contents_kept s s2 (fun x y => x = cc_object c /\ y = cc_chunkId c).
Proof.
  intros [Hsz Hsl Hdis] Hc Hi Hne Hnz Hd Hw s2.
  assert (Hpend : forall x y, x <> 0 -> pending (srCache (caches s2)) x y =
    if (x =? cc_object c) && (y =? cc_chunkId c) then None else pending (srCache (caches s)) x y).
  { intros x y Hx. unfold s2, with_slots. simp_fields. rewrite Hc. by apply pending_clean. }
  destruct (proj1 (Forall_lookup _ _) Hsl i c Hi) as [_ Hok]. destruct (Hok Hne Hd) as ((oc & fc & Hfc & _) & Hcid & _).
  destruct Hw as [[-> Hstep]|[Hr Hstep]].
  - change (0 <? -1) with false. cbv iota.
    assert (Hdat : forall x o f y, is_file s x o f -> 0 <= y <= YAFFS_MAX_CHUNK_ID ->
      file_data cfg s2 x y = file_data cfg s x y).
    { intros x o f y Hx Hy. destruct (Hstep x o f Hx) as (_ & _ & _ & _ & _ & E). by apply E. }
    split.
    + unfold contents. rewrite Hpend, !Z.eqb_refl by done. simpl. apply (Hdat _ oc fc); [done|lia].
    + intros x o f y Hx Hy Hbut. unfold contents. rewrite Hpend by (by eapply Hnz). rewrite (Hdat x o f) by done.
      destruct (Z.eqb_spec x (cc_object c)), (Z.eqb_spec y (cc_chunkId c)); simpl; try done. by destruct Hbut.
  - rewrite (proj2 (Z.ltb_lt 0 r)) by done. intros x o f y Hx Hy _. unfold contents.
    destruct (Hstep x o f Hx) as (_ & _ & _ & _ & _ & E). specialize (E y Hy).
    change (file_data cfg s2 x y) with (file_data cfg s' x y). rewrite E, Hpend by (by eapply Hnz). unfold with_chunk.
    destruct (Z.eqb_spec x (cc_object c)) as [->|], (Z.eqb_spec y (cc_chunkId c)) as [->|]; simpl; try done.
    by rewrite (proj2 (pending_Some _ _ _ (cc_data c) Hdis Hne)) by
      (exists i, c; split; [done|]; split; [by apply holds_dirty_true|done]).
Qed.

Lemma live_not_0 s U l Fs D : fs_ok cfg s U l Fs D -> forall x o f, is_file s x o f -> x <> 0.
Proof. intros Hs x o f. by eapply address_not_0. Qed.

Lemma flushed_step s s1 s2 s3 a c i U l Fs D r :
  fs_ok cfg s U l Fs D -> cache_ok s -> srCache (caches s) !! i = Some c -> cc_object c = a -> cc_dirty c = true ->
  caches s1 = caches s -> after_write cfg s s1 a (cc_chunkId c) (cc_data c) r -> 0 < r -> a <> 0 ->
  s2 = with_slots s1 (<[i := clean_slot c]> (srCache (caches s1))) ->
  same_files s s2 -> flushed s2 s3 a -> flushed s s3 a.
Proof.
  intros Hs Hca Hi Hca1 Hd Hc Hw Hr Ha -> Hfiles Hfl. subst a.
  pose proof (slot_written s s1 i c r Hca Hc Hi Ha (live_not_0 s U l Fs D Hs) Hd Hw) as Hsw. cbv zeta in Hsw.
  rewrite (proj2 (Z.ltb_lt 0 r)) in Hsw by done. set (s2 := with_slots _ _) in *.
  assert (Hk : forall but, contents_kept s2 s3 but -> contents_kept s s3 but).
  { intros but H x o f y Hx Hy Hb. destruct (Hfiles x o f Hx) as (o' & f' & Hx' & _).
    rewrite (H x o' f') by done. by apply (Hsw x o f); [..|intros []]. }
  destruct Hfl as [[H0 H]|(Hnp & id & Hid & Hp & Hl & H)]; [left|right; split; [done|]]; [split; [done|by apply Hk]|].
  assert (Hps : pending (srCache (caches s2)) (cc_object c) id =
    if (cc_object c =? cc_object c) && (id =? cc_chunkId c) then None
    else pending (srCache (caches s)) (cc_object c) id).
  { unfold s2, with_slots. simp_fields. rewrite Hc. apply pending_clean; [done..|apply Hca|done]. }
  rewrite Z.eqb_refl in Hps. cbn [andb] in Hps. rewrite Hps in Hp.
  destruct (Z.eqb_spec id (cc_chunkId c)) as [|Hne]; [by destruct Hp|].
  exists id. split; [done|]. split; [done|]. split; [|by apply Hk]. rewrite Hl.
  destruct Hw as [[-> _]|[_ Hstep]]; [done|].
  destruct (proj1 (Forall_lookup _ _) (ca_slots _ Hca) i c Hi) as [_ Hok].
  destruct (Hok Ha Hd) as ((oc & fc & Hfc & _) & _). destruct (Hstep _ oc fc Hfc) as (_ & _ & _ & _ & _ & E).
  change (file_data cfg s2 (cc_object c) id) with (file_data cfg s1 (cc_object c) id). rewrite E by done.
  unfold with_chunk. by rewrite Z.eqb_refl, (proj2 (Z.eqb_neq id _)).
Qed.

(** Emptying slot [i], in two assignments. *)
Lemma wp_clean_slot {B} i c (k : M (FS N K) B) (Q : B -> FS N K -> Prop) s :
  0 <= i -> srCache (caches s) !! Z.to_nat i = Some c ->
  wp k Q (with_slots s (<[Z.to_nat i := clean_slot c]> (srCache (caches s)))) ->
  wp (_ ← mod_slot i (fun c => c <| cc_dirty := false |>);
      _ ← mod_slot i (fun c => c <| cc_object := 0 |>); k) Q s.
Proof.
  intros Hi Hc HQ. pose proof (lookup_lt_Some _ _ _ Hc) as Hlt.
  apply wp_bind, (wp_mod_slot i c); [done|done|].
  apply wp_bind, (wp_mod_slot i (c <| cc_dirty := false |>)); [done|simp_fields; by apply list_lookup_insert_eq|].
  unfold with_slots, clean_slot in HQ. simp_fields. rewrite list_insert_insert_eq. exact HQ.
Qed.

Definition flush_post s a s' : Prop :=
  (exists U l Fs D, fs_ok cfg s' U l Fs D) /\ inv s' /\ cache_ok s' /\ flushed s s' a /\ same_files s s'.

Lemma flush_loop_spec fuel s U l Fs D a o f w :
  fs_ok cfg s U l Fs D -> inv s -> cache_ok s -> is_file s a o f ->
  dirty_count (srCache (caches s)) a < Z.of_nat fuel ->
  12 * dirty_count (srCache (caches s)) a <= nFreeTnodes (tns s) ->
  wp (flush_loop cfg fuel write a w) (fun _ => flush_post s a) s.
Proof.
  revert s U l Fs D o f w. induction fuel as [|fuel IH]; intros s U l Fs D o f w Hs Hinv Hca Hf Hfuel Hfree.
  { pose proof (dirty_count_range (srCache (caches s)) a). lia. }
  pose proof (address_not_0 _ _ _ _ _ _ _ _ _ Hs Hf) as Ha.
  cbn [flush_loop]. eapply wp_seq; [by apply lowest_dirty_spec, ca_size|].
  intros [i low] s0 [-> Hr]. cbn [fst] in *. cbv zeta.
  destruct Hr as [[-> Hnone]|(c & Hi & Hc & Hobj & Hd)].
  { apply wp_ret. split; [by exists U, l, Fs, D|]. split; [done|]. split; [done|].
    split; [left; by split|]. by intros x ox fx Hx; exists ox, fx. }
  rewrite (proj2 (Z.ltb_ge i 0)) by done.
  apply wp_bind, (wp_get_slot i c); [done|done|].
  destruct (proj1 (Forall_lookup _ _) (ca_slots _ Hca) _ c Hc) as [Hlk Hok]. rewrite Hlk.
  destruct (Hok) as ((oc & fc & Hfc & Hnum) & Hcid & HnB & Hlen); [by rewrite Hobj|done|].
  pose proof (dirty_count_clean _ _ _ a Hc Hobj Hd) as Hcount.
  pose proof (dirty_count_range (<[Z.to_nat i := clean_slot c]> (srCache (caches s))) a) as Hrange.
  pose proof (so_count _ _ _ _ (mo_store _ _ _ _ (fk_mem _ _ _ _ _ _ _ Hs))) as Hll.
  eapply wp_seq; [apply (Hwrite s U l Fs D (cc_object c) oc fc); try done; lia|].
  intros r s1 ((U1 & l1 & Fs1 & D1 & Hs1) & Hinv1 & [Hsp Hcc] & Hw & Hnp). rewrite Hobj in Hw.
  assert (Hc1 : srCache (caches s1) !! Z.to_nat i = Some c) by by rewrite Hcc.
  assert (Hstep : exists g, data_step cfg s s1 g) by (destruct Hw as [[_ H]|[_ H]]; by eexists).
  destruct Hstep as [g Hstep].
  set (s2 := with_slots s1 (<[Z.to_nat i := clean_slot c]> (srCache (caches s1)))).
  assert (Hs2 : fs_ok cfg s2 U1 l1 Fs1 D1) by by apply fs_but_slots.
  assert (Hca2 : cache_ok s2) by by apply (clean_cache s s1 _ c g).
  assert (Hfiles : same_files s s2) by apply (same_files_step s s1 g Hstep).
  apply (wp_clean_slot i c); [done|done|]. fold s2.
  assert (Hcount2 : dirty_count (srCache (caches s2)) a = dirty_count (srCache (caches s)) a - 1).
  { unfold s2, with_slots. simp_fields. by rewrite Hcc. }
  assert (Hsp2 : nFreeTnodes (tns s) <= nFreeTnodes (tns s2) + 12) by exact Hsp.
  destruct (Hstep a o f Hf) as (o1 & f1 & Hf1 & _).
  destruct (Z.ltb_spec 0 r) as [Hr|Hr].
  - eapply wp_mono; [apply (IH s2 U1 l1 Fs1 D1 o1 f1 r); [done|by apply Hslots|done|exact Hf1|lia|lia]|].
    intros [] s3 (Hs3 & Hinv3 & Hca3 & Hfl & Hfiles3). split; [done|]. split; [done|]. split; [done|]. split; [|by eapply same_files_trans].
    by apply (flushed_step s s1 s2 s3 a c (Z.to_nat i) U l Fs D r).
  - apply wp_ret. split; [by exists U1, l1, Fs1, D1|]. split; [by apply Hslots|]. split; [done|].
    split; [right; split; [by apply Hnp|]|done].
    rewrite <- Hobj in Hw, Ha.
    pose proof (slot_written s s1 _ c r Hca Hcc Hc Ha (live_not_0 s U l Fs D Hs) Hd Hw) as Hsw.
    cbv zeta in Hsw. rewrite (proj2 (Z.ltb_ge 0 r)) in Hsw by done. fold s2 in Hsw. rewrite Hobj in Hsw.
    exists (cc_chunkId c). split; [lia|]. split; [|done]. exists (cc_data c).
    apply pending_Some; [apply Hca|by rewrite <- Hobj|]. exists (Z.to_nat i), c.
    split; [done|]. split; [|done]. by apply holds_dirty_true.
Qed.
Lemma FlushFile_spec s U l Fs D a o f :
  fs_ok cfg s U l Fs D -> inv s -> cache_ok s -> is_file s a o f -> 12 * nShortOpCaches cfg <= nFreeTnodes (tns s) ->
  wp (yaffs_FlushFilesChunkCache cfg write a) (fun _ => flush_post s a) s.
Proof.
  intros Hs Hinv Hca Hf Hfree. unfold yaffs_FlushFilesChunkCache. apply wp_bind, (wp_get_obj a o); [apply Hf|].
  pose proof (dirty_count_range (srCache (caches s)) a) as Hr. rewrite (ca_size _ Hca) in Hr.
  apply wp_when. destruct (Z.ltb_spec 0 (nShortOpCaches cfg)).
  - apply (flush_loop_spec (flush_fuel cfg) s U l Fs D a o f 0); [done..| |lia]. unfold flush_fuel. lia.
  - split; [by exists U, l, Fs, D|]. split; [done|]. split; [done|]. split; [left; split; [lia|done]|].
    by intros x ox fx Hx; exists ox, fx.
Qed.
End flush.

(** ** A file with a cached chunk *)

Definition empty_slot : ChunkCache := MkChunkCache 0 0 0 false 0 false [].
Definition cached_slots : list ChunkCache :=
  [MkChunkCache the_file 1 1 true 512 false (sample_data 7); empty_slot].
Definition cached_fs : FS Flash Z := with_slots file_fs cached_slots.

Lemma distinct_one c : distinct [c; empty_slot].
Proof.
  intros [|[|i]] [|[|j]] x y; cbn; intros [= <-] [= <-]; try done.
Qed.

Lemma cached_fs_ok o f : is_file file_fs the_file o f -> objId o = 257 -> cache_ok sample_cfg cached_fs.
Proof.
  intros Hf Hid. split.
  - reflexivity.
  - change (srCache (caches cached_fs)) with cached_slots. unfold cached_slots.
    apply list.Forall_cons; split; [|apply list.Forall_singleton]; split; try done.
    intros _ _. split; [exists o, f; rewrite Hid; split; [exact Hf|lia]|]. simpl. split; [lia|]. split; [lia|done].
  - change (srCache (caches cached_fs)) with cached_slots. apply distinct_one.
Qed.
