(* ===== verification/Names.v ===== *)
(** * Names, object headers on flash and directories of names ([yaffs_guts.c])

    The name of an object is in the header on flash; a short one is also kept in memory, and
    a checksum of every name is.  [yaffs_UpdateObjectHeader] writes a new header and deletes
    the old one; [yaffs_FindObjectByName] searches a directory.  A pointer to a string is
    [None] when it is null and the characters otherwise. *)
From S2P Require Import Prelude Monad ObjHeader Tags Device Nand Sim BlockInv Blocks Medium Blank Tnode Tree Objects File Steps Cache.

Section names.
Context {N K : Type} {nd : NandDriver N} `{!Kmalloc K} `{!Clock K} (cfg : Config).
Local Abbreviation St := (FS N K).

Definition yaffs_SetObjectName (obj : Z) (name : option (list Z)) : M St unit :=
  _ ← mod_obj obj (fun o => o <| shortName :=
    match name with
    | Some s => if Z.of_nat (length s) <=? YAFFS_SHORT_NAME_LENGTH then s else []
    | None => []
    end |>);
  mod_obj obj (fun o => o <| nameSum := yaffs_CalcNameSum name |>).

(** The copy and its address; 0 and no characters for the null pointer. *)
Definition yaffs_CloneString (str : option (list Z)) : M St (Z * list Z) :=
  match str with
  | Some (c :: s) =>
      newStr ← on_tns (YMALLOC (Z.of_nat (length (c :: s)) + 1));
      mret (if ztrue newStr then (newStr, c :: s) else (0, []))
  | _ => mret (0, [])
  end.

(** The fields that are taken from the header. *)
Definition load_details (oh : list Z) (o : Object) : Object :=
  o <| yst_mode := get_field oh_yst_mode oh |> <| yst_uid := get_field oh_yst_uid oh |>
    <| yst_gid := get_field oh_yst_gid oh |> <| yst_atime := get_field oh_yst_atime oh |>
    <| yst_mtime := get_field oh_yst_mtime oh |> <| yst_ctime := get_field oh_yst_ctime oh |>
    <| yst_rdev := get_field oh_yst_rdev oh |>.

Definition yaffs_CheckObjectDetailsLoaded (in_ : Z) : M St unit :=
  o ← get_obj in_;
  when (lazyLoaded o) (
    _ ← mod_obj in_ (fun o => o <| lazyLoaded := false |>);
    r ← on_dev (yaffs_ReadChunkWithTagsFromNAND cfg (hdrChunk o) (Some (temp_buffer cfg)) stack_tags);
    let '(_, data, _) := r in
    data ← of_option data;
    oh ← of_option (as_header data);
    _ ← mod_obj in_ (load_details oh);
    name ← of_option (c_str (from_field oh_name oh));
    _ ← yaffs_SetObjectName in_ (Some name);
    when (variantType o =? OBJECT_TYPE_SYMLINK) (
      alias ← of_option (c_str (from_field oh_alias oh));
      r ← yaffs_CloneString (Some alias);
      mod_obj in_ (fun o => o <| variant := SymLinkVariant (fst r) (snd r) |>))).

(** [strncpy(name, s, buffSize - 1)] into a buffer of zeros. *)
Definition name_copy (buffSize : nat) (s : list Z) : list Z := strncpy_bytes (buffSize - 1) s ++ [0].

(** The buffer [name] of [buffSize] bytes, one or more, and the length of the string in it. *)
Definition yaffs_GetObjectName (obj : Z) (buffSize : nat) : M St (Z * list Z) :=
  _ ← yaffs_CheckObjectDetailsLoaded obj;
  o ← get_obj obj;
  name ← (
    if objId o =? YAFFS_OBJECTID_LOSTNFOUND then mret (name_copy buffSize YAFFS_LOSTNFOUND_NAME)
    else if hdrChunk o <=? 0 then
      mret (name_copy buffSize (YAFFS_LOSTNFOUND_PREFIX ++ print_int (i32 (objId o))))
    else if negb (bool_decide (shortName o = [])) then
      if (length (shortName o) <? buffSize)%nat
      then mret (shortName o ++ replicate (buffSize - length (shortName o)) 0) else fail
    else
      data ← (if 0 <=? hdrChunk o then
        r ← on_dev (yaffs_ReadChunkWithTagsFromNAND cfg (hdrChunk o)
                      (Some (replicate (Z.to_nat (nDataBytesPerChunk cfg)) 0)) stack_tags);
        of_option (snd (fst r))
      else mret (replicate (Z.to_nat (nDataBytesPerChunk cfg)) 0));
      oh ← of_option (as_header data);
      s ← of_option (strn (buffSize - 1) (from_field oh_name oh));
      mret (name_copy buffSize s));
  s ← of_option (c_str name);
  mret (Z.of_nat (length s), name).

(** The address of the object, or 0.  A directory that is a null pointer or no directory
    only prints a message before it is used. *)
Definition yaffs_FindObjectByName (directory : Z) (name : option (list Z)) : M St Z :=
  match name with
  | None => mret 0
  | Some name =>
      let sum := yaffs_CalcNameSum (Some name) in
      children ← get_children directory;
      r ← for_break children (fun l =>
        _ ← yaffs_CheckObjectDetailsLoaded l;
        o ← get_obj l;
        if objId o =? YAFFS_OBJECTID_LOSTNFOUND then
          mret (if bool_decide (name = YAFFS_LOSTNFOUND_NAME) then Some l else None)
        else if (nameSum o =? sum) || (hdrChunk o <=? 0) then
          b ← yaffs_GetObjectName l (Z.to_nat YAFFS_MAX_NAME_LENGTH);
          buffer ← of_option (c_str (snd b));
          mret (if strncmp_eq (Z.to_nat YAFFS_MAX_NAME_LENGTH) name buffer then Some l else None)
        else mret None);
      mret (default 0 r)
  end.

Definition yaffs_GetEquivalentObject (obj : Z) : M St Z :=
  if ztrue obj then
    o ← get_obj obj;
    if variantType o =? OBJECT_TYPE_HARDLINK then
      match variant o with
      | HardLinkVariant equivalentObject _ =>
          _ ← yaffs_CheckObjectDetailsLoaded equivalentObject;
          mret equivalentObject
      | _ => fail
      end
    else mret obj
  else mret obj.

(** ** Writing headers *)

(** The fields every header has. *)
Definition header_base (o : Object) (shadows parentId : Z) (oh : list Z) : list Z :=
  let oh := put_field oh_type (variantType o) oh in
  let oh := put_field oh_yst_mode (yst_mode o) oh in
  let oh := put_field oh_shadowsObject shadows oh in
  let oh := put_field oh_yst_uid (yst_uid o) oh in
  let oh := put_field oh_yst_gid (yst_gid o) oh in
  let oh := put_field oh_yst_atime (yst_atime o) oh in
  let oh := put_field oh_yst_mtime (yst_mtime o) oh in
  let oh := put_field oh_yst_ctime (yst_ctime o) oh in
  let oh := put_field oh_yst_rdev (yst_rdev o) oh in
  put_field oh_parentObjectId parentId oh.

(** The bytes of the name: a new one, the old one, or none. *)
Definition name_bytes (name : option (list Z)) (oldName : option (list Z)) : list Z :=
  match name, oldName with
  | Some (c :: s), _ => strncpy_bytes (Z.to_nat YAFFS_MAX_NAME_LENGTH) (c :: s) ++ [0]
  | _, Some oldName => oldName
  | _, None => replicate (f_size oh_name) 0
  end.

(** The fields that depend on the type; a symbolic link without an alias is a null pointer
    that is read. *)
Definition header_variant (o : Object) (oh : list Z) : option (list Z) :=
  let t := variantType o in
  if t =? OBJECT_TYPE_FILE then
    match variant o with
    | FileVariant f =>
        let p := i32 (get_field oh_parentObjectId oh) in
        Some (put_field oh_fileSize
          (if (p =? YAFFS_OBJECTID_DELETED) || (p =? YAFFS_OBJECTID_UNLINKED) then 0 else fileSize f) oh)
    | _ => None
    end
  else if t =? OBJECT_TYPE_HARDLINK then
    match variant o with
    | HardLinkVariant _ equivalentObjectId => Some (put_field oh_equivalentObjectId equivalentObjectId oh)
    | _ => None
    end
  else if t =? OBJECT_TYPE_SYMLINK then
    match variant o with
    | SymLinkVariant alias text =>
        if ztrue alias then
          Some (put_bytes oh_alias (strncpy_bytes (Z.to_nat YAFFS_MAX_ALIAS_LENGTH) text ++ [0]) oh)
        else None
    | _ => None
    end
  else Some oh.

(** The tags of a header. *)
Definition header_tags (o : Object) (oh : list Z) : ExtendedTags :=
  yaffs_InitialiseTags <| chunkId := 0 |> <| objectId := objId o |> <| serialNumber := serial o |>
    <| extraHeaderInfoAvailable := 1 |>
    <| extraParentObjectId := get_field oh_parentObjectId oh |>
    <| extraFileLength := get_field oh_fileSize oh |>
    <| extraIsShrinkHeader := get_field oh_isShrink oh |>
    <| extraEquivalentObjectId := get_field oh_equivalentObjectId oh |>
    <| extraShadows := flag (0 <? i32 (get_field oh_shadowsObject oh)) |>
    <| extraObjectType := variantType o |>.

(** The header of an object; the bytes between the fields are those of an erased page. *)
Definition new_header (o : Object) (name oldName : option (list Z)) (isShrink : bool) (shadows parentId : Z)
    : option (list Z) :=
  oh ← as_header (replicate (Z.to_nat (nDataBytesPerChunk cfg)) 0xFF);
  let oh := header_base o shadows parentId oh in
  let oh := put_bytes oh_name (name_bytes name oldName) oh in
  header_variant o (put_field oh_isShrink (flag isShrink) oh).

(** The bytes of the name in the header that is there. *)
Definition read_old_name (prevChunkId : Z) : M St (option (list Z)) :=
  if 0 <=? prevChunkId then
    r ← on_dev (yaffs_ReadChunkWithTagsFromNAND cfg prevChunkId (Some (temp_buffer cfg)) stack_tags);
    data ← of_option (snd (fst r));
    oh ← of_option (as_header data);
    mret (Some (get_bytes oh_name oh))
  else mret None.

(** The chunk that was written becomes the header. *)
Definition install_header (in_ prevChunkId newChunkId : Z) (isShrink : bool) : M St unit :=
  when (0 <=? newChunkId) (
    _ ← mod_obj in_ (fun o => o <| hdrChunk := newChunkId |>);
    _ ← when (0 <=? prevChunkId) (on_dev (yaffs_DeleteChunk cfg prevChunkId true));
    cached ← yaffs_ObjectHasCachedWriteData cfg in_;
    _ ← when (negb cached) (mod_obj in_ (fun o => o <| dirty := false |>));
    when isShrink (on_dev (set_block_info cfg (Z.quot newChunkId (nChunksPerBlock cfg))
      (fun bi => bi <| hasShrinkHeader := true |>)))).

(** What follows the garbage collection. *)
Definition write_header (in_ : Z) (name : option (list Z)) (isShrink : bool) (shadows : Z) : M St Z :=
  _ ← yaffs_CheckObjectDetailsLoaded in_;
  o ← get_obj in_;
  let prevChunkId := hdrChunk o in
  oldName ← read_old_name prevChunkId;
  parentId ← (if ztrue (parent o) then p ← get_obj (parent o); mret (objId p) else mret 0);
  oh ← of_option (new_header o name oldName isShrink shadows parentId);
  _ ← mod_obj in_ (fun o => o <| serial ::= fun x => u8 (x + 1) |>);
  o ← get_obj in_;
  newChunkId ← on_dev (yaffs_WriteNewChunkWithTagsToNAND cfg (Some oh) (header_tags o oh) (0 <=? prevChunkId));
  _ ← install_header in_ prevChunkId newChunkId isShrink;
  mret newChunkId.

(** [collect] is [yaffs_CheckGarbageCollection]. *)
Definition yaffs_UpdateObjectHeader (collect : M St Z) (in_ : Z) (name : option (list Z))
    (force isShrink : bool) (shadows : Z) : M St Z :=
  o ← get_obj in_;
  if negb (fake o) || force then
    _ ← collect;
    write_header in_ name isShrink shadows
  else mret 0.

(** ** Changing names *)

Definition yaffs_ChangeObjectName (collect : M St Z) (obj newDir : Z) (newName : option (list Z))
    (force : bool) (shadows : Z) : M St Z :=
  o ← get_obj obj;
  let newDir := if ztrue newDir then newDir else parent o in
  d ← get_obj newDir;
  unlinkedDir ← getO unlinkedDir;
  deletedDir ← getO deletedDir;
  let unlinkOp := (newDir =? unlinkedDir) && (isYaffs2 cfg || (variantType o =? OBJECT_TYPE_FILE)) in
  let deleteOp := newDir =? deletedDir in
  existingTarget ← yaffs_FindObjectByName newDir newName;
  if (unlinkOp || deleteOp || force || (0 <? shadows) || negb (ztrue existingTarget)) &&
     (variantType d =? OBJECT_TYPE_DIRECTORY) then
    _ ← yaffs_SetObjectName obj newName;
    _ ← mod_obj obj (fun o => o <| dirty := true |>);
    _ ← yaffs_AddObjectToDirectory newDir obj;
    _ ← when unlinkOp (mod_obj obj (fun o => o <| unlinked := true |>));
    r ← yaffs_UpdateObjectHeader collect obj newName false deleteOp shadows;
    mret (if 0 <=? r then YAFFS_OK else YAFFS_FAIL)
  else mret YAFFS_FAIL.
End names.

(** ** Names of objects *)

Definition short_name (n : list Z) : list Z :=
  if Z.of_nat (length n) <=? YAFFS_SHORT_NAME_LENGTH then n else [].

(** The object once its name has been set. *)
Definition named (n : list Z) (o : Object) : Object :=
  o <| shortName := short_name n |> <| nameSum := yaffs_CalcNameSum (Some n) |>.

(** The object once its details have been read from header [d]; [v] is its variant then. *)
Definition loaded (d n : list Z) (v : Variant) (o : Object) : Object :=
  named n (load_details d (o <| lazyLoaded := false |>)) <| variant := v |>.

(** The new variant of a symbolic link may have its alias; other variants stay. *)
Definition reloads (o : Object) (v : Variant) : Prop :=
  if variantType o =? OBJECT_TYPE_SYMLINK then exists p t, v = SymLinkVariant p t else v = variant o.

(** The state with another device state and another kernel heap. *)
Definition with_heap {N K} (s : FS N K) (k : K) : FS N K := s <| tns ::= fun t => t <| heap := k |> |>.

Section loading.
Context {N K : Type} {nd : NandDriver N} `{!Kmalloc K} `{!KmallocLaws K} `{!Clock K} (cfg : Config).
Context (Hcfg : cfg_ok cfg) (Htn : tn_cfg_ok cfg) (Hpg : plain_groups cfg).
Context {nf : NandFrame nd cfg} {nm : NandMedium nd cfg} {nb : NandBlank nd cfg}.
Context (Haware : is_Some drv_markBlockBad) (Halign : marks_aligned nd cfg).
Context (Hsize : 512 <= nDataBytesPerChunk cfg).
Implicit Types (s : FS N K) (o : Object) (f : FileStructure).

Lemma as_header_ok d : Z.of_nat (length d) = nDataBytesPerChunk cfg -> as_header d = Some d.
Proof. intros Hd. unfold as_header. by rewrite (proj2 (Z.ltb_ge _ _)) by lia. Qed.

Lemma wp_SetObjectName a o n (Q : unit -> FS N K -> Prop) s :
  objects (obs s) !! a = Some o -> Q tt (with_obj s a (named n o)) ->
  wp (yaffs_SetObjectName a (Some n)) Q s.
Proof.
  intros Ho HQ. unfold yaffs_SetObjectName. apply wp_bind, (wp_mod_obj a o); [done|].
  apply (wp_mod_obj a (o <| shortName := short_name n |>)); [simp_fields; apply lookup_insert_eq|].
  unfold with_obj, named in HQ. destruct s as [d t [] c]. unfold field_update, upd_obs, upd_objects in *. cbn in *.
  by rewrite insert_insert_eq.
Qed.

Lemma heap_mono s k' x U l Fs D :
  fs_but cfg x s U l Fs D -> (forall p, owned (heap (tns s)) p -> owned k' p) ->
  fs_but cfg x (with_heap s k') U l Fs D.
Proof.
  intros Hs Hk. apply (view_ok cfg x s _ U l l); [done|by split; try done; intros a o Ho; exists o|].
  destruct (fk_mem _ _ _ _ _ _ _ Hs) as [Hst Ht Hown]. split; [by apply store_ok_heap|done|].
  intros p Hp. by apply Hk, Hown.
Qed.

Lemma CloneString_spec str s (Q : Z * list Z -> FS N K -> Prop) :
  (forall r k', (forall p, owned (heap (tns s)) p -> owned k' p) -> Q r (with_heap s k')) ->
  wp (yaffs_CloneString str) Q s.
Proof.
  intros HQ. assert (Hself : Q (0, []) s).
  { replace s with (with_heap s (heap (tns s))); [by apply HQ|]. by destruct s as [? [] ? ?]. }
  unfold yaffs_CloneString. destruct str as [[|c t]|]; [by apply wp_ret| |by apply wp_ret].
  apply wp_bind, wp_YMALLOC, wp_ret. apply HQ. intros p. apply ymalloc_keeps.
Qed.

(** The details of an object are there afterwards, those of its header if they were not. *)
Definition details_loaded D s s' (a : Z) o : Prop :=
  (lazyLoaded o = false /\ s' = s) \/
  (lazyLoaded o = true /\ exists d n v ds' k', holds cfg (dev s) (hdrChunk o) d (objId o) 0 /\ name_in d n /\
    reloads o v /\ dev_read cfg D (dev s) ds' /\ (forall p, owned (heap (tns s)) p -> owned k' p) /\
    s' = with_obj (with_heap (with_dev s ds') k') a (loaded d n v o)).

Lemma with_obj_twice s a o1 o2 : with_obj (with_obj s a o1) a o2 = with_obj s a o2.
Proof.
  destruct s as [d t [] c]. unfold with_obj, field_update, upd_obs, upd_objects. cbn.
  by rewrite insert_insert_eq.
Qed.

Lemma CheckObjectDetailsLoaded_run x s U l Fs D a o :
  fs_but cfg x s U l Fs D -> is_object s a o ->
  wp (yaffs_CheckObjectDetailsLoaded cfg a) (fun _ s' => details_loaded D s s' a o) s.
Proof.
  intros Hs Ho. pose proof Ho as [Hh Hlook]. unfold yaffs_CheckObjectDetailsLoaded.
  apply wp_bind, (wp_get_obj a o); [done|]. apply wp_when. destruct (lazyLoaded o) eqn:Hlz; [|by left].
  pose proof (fk_lazy _ _ _ _ _ _ _ Hs a o Ho Hlz) as Hpos.
  destruct (fk_header _ _ _ _ _ _ _ Hs a o Ho Hpos) as (d & Hd & [n Hn] & Hal).
  assert (Hdl : Z.of_nat (length d) = nDataBytesPerChunk cfg) by apply Hd.
  set (o1 := o <| lazyLoaded := false |>). apply wp_bind, (wp_mod_obj a o); [done|].
  change (s <| obs ::= _ |>) with (with_obj s a o1).
  apply wp_bind, wp_on_dev. eapply wp_mono.
  { apply (read_held cfg Hcfg D (dev s) (hdrChunk o) d (objId o) 0); [apply Hs|done|by apply temp_buffer_ok]. }
  intros [[r b] t'] ds' (Hdr & Hb & _). cbn [fst snd] in *. rewrite Hb. cbn [fmap option_fmap option_map].
  set (s1 := with_dev s ds'). change ((with_obj s a o1) <| dev := ds' |>) with (with_obj s1 a o1).
  apply wp_bind, wp_of_option with d; [done|]. apply wp_bind, wp_of_option with d; [by apply as_header_ok|].
  apply wp_bind, (wp_mod_obj a o1); [apply lookup_insert_eq|]. set (o2 := load_details d o1).
  change ((with_obj s1 a o1) <| obs ::= _ |>) with (with_obj (with_obj s1 a o1) a o2). rewrite with_obj_twice.
  apply wp_bind, wp_of_option with n; [by apply c_str_field|].
  apply wp_bind, (wp_SetObjectName a o2); [apply lookup_insert_eq|]. rewrite with_obj_twice.
  set (o3 := named n o2).
  assert (Hend : forall v k', reloads o v -> (forall p, owned (heap (tns s)) p -> owned k' p) ->
    details_loaded D s (with_obj (with_heap s1 k') a (o3 <| variant := v |>)) a o).
  { intros v k' Hv Hk. right. split; [done|]. by exists d, n, v, ds', k'. }
  apply wp_when. destruct (Z.eqb_spec (variantType o) OBJECT_TYPE_SYMLINK) as [Hty|Hty].
  - destruct (Hal Hty) as [t Ht]. apply wp_bind, wp_of_option with t; [by apply c_str_field|].
    apply wp_bind, CloneString_spec. intros [p q] k' Hk. cbn [fst snd].
    apply (wp_mod_obj a o3); [apply lookup_insert_eq|].
    change (with_heap (with_obj s1 a o3) k') with (with_obj (with_heap s1 k') a o3).
    change ((with_obj (with_heap s1 k') a o3) <| obs ::= _ |>)
      with (with_obj (with_obj (with_heap s1 k') a o3) a (o3 <| variant := SymLinkVariant p q |>)).
    rewrite with_obj_twice. apply Hend; [|exact Hk]. unfold reloads. rewrite (proj2 (Z.eqb_eq _ _) Hty). by exists p, q.
  - replace (with_obj s1 a o3) with (with_obj (with_heap s1 (heap (tns s))) a (o3 <| variant := variant o |>)).
    { apply Hend; [|done]. unfold reloads. by rewrite (proj2 (Z.eqb_neq _ _) Hty). }
    replace (o3 <| variant := variant o |>) with o3 by by destruct o.
    unfold s1, with_heap. by destruct s as [? [] ? ?].
Qed.

Lemma short_name_short n : Z.of_nat (length (short_name n)) <= YAFFS_SHORT_NAME_LENGTH.
Proof. unfold short_name. destruct (Z.leb_spec (Z.of_nat (length n)) YAFFS_SHORT_NAME_LENGTH); [done|]. simpl. unfold YAFFS_SHORT_NAME_LENGTH. lia. Qed.

Lemma loaded_view o d n v : typed o -> reloads o v ->
  same_view o (loaded d n v o) /\ typed (loaded d n v o) /\ (forall c, child_of (loaded d n v o) c -> child_of o c).
Proof.
  intros Ht Hv. unfold reloads in Hv. destruct (Z.eqb_spec (variantType o) OBJECT_TYPE_SYMLINK) as [Hty|Hty].
  - destruct Hv as (p & t & ->). split; [|split].
    + split; [|split; [|done]]; split; try done.
      * intros f. split; [done|]. intros Hf. unfold typed in Ht. by rewrite Hf, Hty in Ht.
      * intros _. apply short_name_short.
      * intros cs. split; [done|]. intros Hc. unfold typed in Ht. by rewrite Hc, Hty in Ht.
    + change (variantType o <> OBJECT_TYPE_FILE /\ variantType o <> OBJECT_TYPE_DIRECTORY). by rewrite Hty.
    + by intros c (cs & Hcs & _).
  - subst v. split; [|split]; [|exact Ht|done]. split; [|by split]. split; try done. intros _. apply short_name_short.
Qed.

Lemma details_loaded_ok x s s' U l Fs D a o :
  fs_but cfg x s U l Fs D -> is_object s a o -> details_loaded D s s' a o ->
  fs_but cfg x s' U l Fs D /\ data_kept cfg s s' /\ spent 0 s s' /\
  view (with_dev s (dev s')) s' /\ dev_read cfg D (dev s) (dev s').
Proof.
  intros Hs Ho [[_ ->]|(_ & d & n & v & ds' & k' & Hd & Hn & Hv & Hdr & Hk & ->)].
  - split; [done|]. split; [apply data_kept_refl|]. split; [by apply spent_same|].
    split; [by split; try done; intros y oy Hy; exists oy|]. by apply dev_read_refl, Hs.
  - assert (Hr : only_read cfg D s (with_dev s ds')) by by exists ds'.
    destruct (only_read_ok cfg Hcfg Hpg x s (with_dev s ds') U l Fs D Hs Hr) as (Hs1 & _).
    pose proof (heap_mono _ k' _ _ _ _ _ Hs1 Hk) as Hs2. set (s2 := with_heap (with_dev s ds') k') in *.
    destruct (loaded_view o d n v (object_typed cfg x s U l Fs D a o Hs Ho) Hv) as (Hvw & Hty & Hch).
    assert (Hview : view s2 (with_obj s2 a (loaded d n v o))) by (by apply (changed_mod same_view s2 a o); [apply Ho|]).
    split; [|split; [|split; [|split]]].
    + apply (view_ok cfg x s2 _ U l l); [done|done|].
      apply (mem_ok_mod cfg s2 U l a o (fun _ => loaded d n v o)); [apply Hs2|apply Ho|done|done|done].
    + eapply data_kept_trans; [by eapply (only_read_kept cfg Hcfg Hpg x s); [exact Hs|exact Hr]|].
      apply (data_kept_trans cfg _ s2); [|by apply view_data_kept].
      apply view_data_kept. by split; try done; intros y oy Hy; exists oy.
    + split; [change (nFreeTnodes (tns s) <= nFreeTnodes (tns s) + 0); lia|done].
    + change (dev (with_obj s2 a (loaded d n v o))) with ds'. apply (objects_changed_trans same_view _ s2); [|done].
      by split; try done; intros y oy Hy; exists oy.
    + exact Hdr.
Qed.
End loading.
