(* ===== verification/Delete.v ===== *)
(** * Deleting, unlinking and creating objects ([yaffs_guts.c])
    An object is deleted for good by [yaffs_DoGenericObjectDeletion]; a file with data is soft
    deleted, and the garbage collection that discards its last chunk deletes it for good.  An
    object that is unlinked moves to the unlinked directory while the VFS still has its inode,
    and to the deleted directory when it has not.  [collect] is [yaffs_CheckGarbageCollection]
    throughout: writing a header starts with it. *)
From S2P Require Import Prelude Monad ObjHeader Tags Device Nand Sim BlockInv Blocks Medium Blank Tnode Tree Objects File Steps Cache Names.

(** ["deleted"] and ["unlinked"] *)
Definition deleted_name : list Z := [100; 101; 108; 101; 116; 101; 100].
Definition unlinked_name : list Z := [117; 110; 108; 105; 110; 107; 101; 100].

Section delete.
Context {N K : Type} {nd : NandDriver N} `{!Kmalloc K} `{!Clock K} (cfg : Config).
Local Abbreviation St := (FS N K).

Definition yaffs_DoGenericObjectDeletion (collect : M St Z) (in_ : Z) : M St Z :=
  _ ← yaffs_InvalidateWholeChunkCache cfg in_;
  o ← get_obj in_;
  deletedDir ← getO deletedDir;
  _ ← when (isYaffs2 cfg && negb (parent o =? deletedDir)) (
    _ ← yaffs_ChangeObjectName cfg collect in_ deletedDir (Some deleted_name) false 0;
    mret tt);
  _ ← yaffs_RemoveObjectFromDirectory in_;
  o ← get_obj in_;
  _ ← on_dev (yaffs_DeleteChunk cfg (hdrChunk o) true);
  _ ← mod_obj in_ (fun o => o <| hdrChunk := -1 |>);
  _ ← yaffs_FreeObject in_;
  mret YAFFS_OK.

(** [yaffs_FreeTnode(dev, obj->variant.fileVariant.top)] and [top = NULL] *)
Definition free_top (obj : Z) : M St unit :=
  f ← get_file obj;
  _ ← on_tns (yaffs_FreeTnode (top f));
  set_file obj (f <| top := 0 |>).

Definition yaffs_SoftDeleteFile (collect : M St Z) (obj : Z) : M St unit :=
  o ← get_obj obj;
  when (deleted o && (variantType o =? OBJECT_TYPE_FILE) && negb (softDeleted o)) (
    if nDataChunks o <=? 0 then
      _ ← free_top obj;
      _ ← yaffs_DoGenericObjectDeletion collect obj;
      mret tt
    else
      f ← get_file obj;
      _ ← yaffs_SoftDeleteWorker cfg (Z.to_nat (topLevel f)) (top f);
      mod_obj obj (fun o => o <| softDeleted := true |>)).

(** An inode of the VFS keeps the object. *)
Definition yaffs_UnlinkFile (collect : M St Z) (in_ : Z) : M St Z :=
  o ← get_obj in_;
  if myInode o =? 0 then
    deletedDir ← getO deletedDir;
    retVal ← yaffs_ChangeObjectName cfg collect in_ deletedDir (Some deleted_name) false 0;
    _ ← mod_obj in_ (fun o => o <| deleted := true |>);
    _ ← modO (fun t => t <| nDeletedFiles ::= Z.succ |>);
    _ ← yaffs_SoftDeleteFile collect in_;
    mret retVal
  else
    unlinkedDir ← getO unlinkedDir;
    yaffs_ChangeObjectName cfg collect in_ unlinkedDir (Some unlinked_name) false 0.

Definition yaffs_DeleteFile (collect : M St Z) (in_ : Z) : M St Z :=
  o ← get_obj in_;
  if 0 <? nDataChunks o then
    retVal ← (if negb (unlinked o) then yaffs_UnlinkFile collect in_ else mret YAFFS_OK);
    o ← get_obj in_;
    _ ← when ((retVal =? YAFFS_OK) && unlinked o && negb (deleted o)) (
      _ ← mod_obj in_ (fun o => o <| deleted := true |>);
      _ ← modO (fun t => t <| nDeletedFiles ::= Z.succ |>);
      yaffs_SoftDeleteFile collect in_);
    o ← get_obj in_;
    mret (if deleted o then YAFFS_OK else YAFFS_FAIL)
  else
    _ ← free_top in_;
    _ ← yaffs_DoGenericObjectDeletion collect in_;
    mret YAFFS_OK.

Definition yaffs_DeleteDirectory (collect : M St Z) (in_ : Z) : M St Z :=
  children ← get_children in_;
  match children with
  | [] => yaffs_DoGenericObjectDeletion collect in_
  | _ => mret YAFFS_FAIL
  end.

(** The pointer to the alias stays when its memory is given back, and what was there is gone. *)
Definition yaffs_DeleteSymLink (collect : M St Z) (in_ : Z) : M St Z :=
  o ← get_obj in_;
  match variant o with
  | SymLinkVariant alias _ =>
      _ ← when (ztrue alias) (
        _ ← on_tns (YFREE alias);
        mod_obj in_ (fun o => o <| variant := NoVariant |>));
      yaffs_DoGenericObjectDeletion collect in_
  | _ => fail
  end.

(** [list_del(&obj->hardLinks)] of a hard link: out of the list of its object. *)
Definition list_del_hardLink (a : Z) : M St unit :=
  modO (fun t => t <| objects ::= fmap (fun o => o <| hardLinks ::= filter (fun c => c <> a) |>) |>).

Definition yaffs_DeleteHardLink (collect : M St Z) (in_ : Z) : M St Z :=
  _ ← get_obj in_;
  _ ← list_del_hardLink in_;
  yaffs_DoGenericObjectDeletion collect in_.

Definition yaffs_DestroyObject (collect : M St Z) (obj : Z) : M St unit :=
  o ← get_obj obj;
  let t := variantType o in
  _ ← (if t =? OBJECT_TYPE_FILE then yaffs_DeleteFile collect obj
       else if t =? OBJECT_TYPE_DIRECTORY then yaffs_DeleteDirectory collect obj
       else if t =? OBJECT_TYPE_SYMLINK then yaffs_DeleteSymLink collect obj
       else if t =? OBJECT_TYPE_HARDLINK then yaffs_DeleteHardLink collect obj
       else if t =? OBJECT_TYPE_SPECIAL then yaffs_DoGenericObjectDeletion collect obj
       else mret YAFFS_FAIL);
  mret tt.

(** An object with hard links takes the place of the first of them. *)
Definition yaffs_UnlinkWorker (collect : M St Z) (obj : Z) : M St Z :=
  o ← get_obj obj;
  let t := variantType o in
  if t =? OBJECT_TYPE_HARDLINK then yaffs_DeleteHardLink collect obj else
  match hardLinks o with
  | hl :: _ =>
      _ ← list_del_hardLink hl;
      _ ← list_del_sibling hl;
      r ← yaffs_GetObjectName cfg hl (Z.to_nat YAFFS_MAX_NAME_LENGTH + 1);
      name ← of_option (c_str (snd r));
      h ← get_obj hl;
      retVal ← yaffs_ChangeObjectName cfg collect obj (parent h) (Some name) false 0;
      if retVal =? YAFFS_OK then yaffs_DoGenericObjectDeletion collect hl else mret retVal
  | [] =>
      if t =? OBJECT_TYPE_FILE then yaffs_UnlinkFile collect obj
      else if t =? OBJECT_TYPE_DIRECTORY then yaffs_DeleteDirectory collect obj
      else if t =? OBJECT_TYPE_SYMLINK then yaffs_DeleteSymLink collect obj
      else if t =? OBJECT_TYPE_SPECIAL then yaffs_DoGenericObjectDeletion collect obj
      else mret YAFFS_FAIL
  end.

Definition yaffs_UnlinkObject (collect : M St Z) (obj : Z) : M St Z :=
  if ztrue obj then
    o ← get_obj obj;
    if unlinkAllowed o then yaffs_UnlinkWorker collect obj else mret YAFFS_FAIL
  else mret YAFFS_FAIL.

Definition yaffs_Unlink (collect : M St Z) (dir : Z) (name : option (list Z)) : M St Z :=
  obj ← yaffs_FindObjectByName cfg dir name;
  yaffs_UnlinkObject collect obj.

(** ** New objects with names *)

(** What a new object gets by its type. *)
Definition set_new_variant (type in_ : Z) (str : Z * list Z) (equivalentObject : Z) : M St unit :=
  if type =? OBJECT_TYPE_SYMLINK then
    mod_obj in_ (fun o => o <| variant := SymLinkVariant (fst str) (snd str) |>)
  else if type =? OBJECT_TYPE_HARDLINK then
    e ← get_obj equivalentObject;
    _ ← mod_obj in_ (fun o => o <| variant := HardLinkVariant equivalentObject (objId e) |>);
    mod_obj equivalentObject (fun o => o <| hardLinks ::= cons in_ |>)
  else mret tt.

Definition yaffs_MknodObject (collect : M St Z) (type parent_ : Z) (name : option (list Z))
    (mode uid gid equivalentObject : Z) (aliasString : option (list Z)) (rdev : Z) : M St Z :=
  _ ← get_obj parent_;
  existing ← yaffs_FindObjectByName cfg parent_ name;
  if ztrue existing then mret 0 else
  in_ ← yaffs_CreateNewObject cfg (-1) type;
  str ← (if type =? OBJECT_TYPE_SYMLINK then yaffs_CloneString aliasString else mret (0, []));
  if (type =? OBJECT_TYPE_SYMLINK) && negb (ztrue (fst str)) then
    _ ← yaffs_FreeObject in_;
    mret 0
  else if negb (ztrue in_) then mret 0 else
    now ← gets (fun s => current_time (heap (tns s)));
    _ ← mod_obj in_ (fun o => o <| hdrChunk := -1 |> <| valid := true |> <| variantType := type |>
      <| yst_mode := mode |> <| yst_atime := now |> <| yst_mtime := now |> <| yst_ctime := now |>);
    _ ← mod_obj in_ (fun o => o <| yst_rdev := rdev |> <| yst_uid := uid |> <| yst_gid := gid |>
      <| nDataChunks := 0 |>);
    _ ← yaffs_SetObjectName in_ name;
    _ ← mod_obj in_ (fun o => o <| dirty := true |>);
    _ ← yaffs_AddObjectToDirectory parent_ in_;
    _ ← set_new_variant type in_ str equivalentObject;
    r ← yaffs_UpdateObjectHeader cfg collect in_ name false false 0;
    if r <? 0 then
      _ ← yaffs_DestroyObject collect in_;
      mret 0
    else mret in_.

Definition yaffs_MknodFile (collect : M St Z) (parent_ : Z) (name : option (list Z)) (mode uid gid : Z)
    : M St Z :=
  yaffs_MknodObject collect OBJECT_TYPE_FILE parent_ name mode uid gid 0 None 0.
Definition yaffs_MknodDirectory (collect : M St Z) (parent_ : Z) (name : option (list Z)) (mode uid gid : Z)
    : M St Z :=
  yaffs_MknodObject collect OBJECT_TYPE_DIRECTORY parent_ name mode uid gid 0 None 0.
Definition yaffs_MknodSpecial (collect : M St Z) (parent_ : Z) (name : option (list Z))
    (mode uid gid rdev : Z) : M St Z :=
  yaffs_MknodObject collect OBJECT_TYPE_SPECIAL parent_ name mode uid gid 0 None rdev.
Definition yaffs_MknodSymLink (collect : M St Z) (parent_ : Z) (name : option (list Z)) (mode uid gid : Z)
    (alias : option (list Z)) : M St Z :=
  yaffs_MknodObject collect OBJECT_TYPE_SYMLINK parent_ name mode uid gid 0 alias 0.

Definition yaffs_Link (collect : M St Z) (parent_ : Z) (name : option (list Z)) (equivalentObject : Z)
    : M St Z :=
  equivalentObject ← yaffs_GetEquivalentObject cfg equivalentObject;
  r ← yaffs_MknodObject collect OBJECT_TYPE_HARDLINK parent_ name 0 0 0 equivalentObject None 0;
  mret (if ztrue r then equivalentObject else 0).

(** ** Renaming *)

(** The object is used before it is known that it was found. *)
Definition yaffs_RenameObject (collect : M St Z) (oldDir : Z) (oldName : option (list Z)) (newDir : Z)
    (newName : option (list Z)) : M St Z :=
  obj ← yaffs_FindObjectByName cfg oldDir oldName;
  o ← get_obj obj;
  name ← of_option newName;
  let limit := if variantType o =? OBJECT_TYPE_SYMLINK then YAFFS_MAX_ALIAS_LENGTH
               else YAFFS_MAX_NAME_LENGTH in
  if limit <? Z.of_nat (length name) then mret YAFFS_FAIL else
  if renameAllowed o then
    existingTarget ← yaffs_FindObjectByName cfg newDir newName;
    full ← (if ztrue existingTarget then
        t ← get_obj existingTarget;
        if variantType t =? OBJECT_TYPE_DIRECTORY then
          children ← get_children existingTarget;
          mret (negb (bool_decide (children = [])))
        else mret false
      else mret false);
    if (full : bool) then mret YAFFS_FAIL else
    _ ← when (ztrue existingTarget && negb (existingTarget =? obj)) (
      t ← get_obj existingTarget;
      _ ← yaffs_ChangeObjectName cfg collect obj newDir newName false (i32 (objId t));
      _ ← yaffs_UnlinkObject collect existingTarget;
      mret tt);
    yaffs_ChangeObjectName cfg collect obj newDir newName true 0
  else mret YAFFS_FAIL.
End delete.
