(* ===== verification/Collect.v ===== *)
(** * Garbage collection ([yaffs_GarbageCollectBlock], [yaffs_CheckGarbageCollection])
    The pages of the chosen block that are in use are copied to new pages or, when they are
    data of deleted files, dropped; then they are deleted, and with the last one the block is
    erased.  A deleted file whose last data was dropped is deleted for good. *)
From S2P Require Import Prelude Monad ObjHeader Tags Device Nand Sim BlockInv Blocks Medium Blank Tnode Tree Gc Objects File Steps Cache Names Delete.

(** The shrink and shadow marks of a header have done their work. *)
Definition clear_marks (oh : list Z) : list Z :=
  put_field oh_shadowsObject (-1) (put_field oh_isShrink 0 oh).

(** The local variables of a collection: [buffer], [retVal] and the numbers of the objects to
    clean up ([gcCleanupList], [cleanups] of them). *)
Record Collecting := MkCollecting { gc_buffer : list Z; gc_retVal : Z; gc_cleanups : list Z }.

Section collect.
Context {N K : Type} {nd : NandDriver N} `{!Kmalloc K} `{!Clock K} (cfg : Config).
Local Abbreviation St := (FS N K).

(** [yaffs_CheckGarbageCollection] called back while a collection is at work. *)
Definition nested_collection : M St Z :=
  busy ← on_dev (getB isDoingGC);
  if (busy : bool) then mret YAFFS_OK else fail.

(** "Ok, now fix up the Tnodes etc." *)
Definition gc_fix_up (object newChunk : Z) (tags : ExtendedTags) : M St unit :=
  if chunkId tags =? 0 then
    _ ← mod_obj object (fun o => o <| hdrChunk := newChunk |>);
    mod_obj object (fun o => o <| serial := u8 (serialNumber tags) |>)
  else
    _ ← yaffs_PutChunkIntoFile cfg object (i32 (chunkId tags)) newChunk 0;
    mret tt.

(** What is in the buffer is written to a new page: [YAFFS_FAIL] if there is none. *)
Definition gc_copy (object : Z) (buffer : list Z) (tags : ExtendedTags) : M St (list Z * Z) :=
  let tags := tags <| serialNumber ::= fun n => u32 (n + 1) |> in
  _ ← on_dev (modS (fun s => s <| nGCCopies ::= Z.succ |>));
  header ← (if chunkId tags =? 0 then
              oh ← of_option (as_header buffer);
              mret (clear_marks oh, tags <| extraShadows := 0 |> <| extraIsShrinkHeader := 0 |>)
            else mret (buffer, tags));
  let '(buffer, tags) := header in
  newChunk ← on_dev (yaffs_WriteNewChunkWithTagsToNAND cfg (Some buffer) tags true);
  if newChunk <? 0 then mret (buffer, YAFFS_FAIL)
  else _ ← gc_fix_up object newChunk tags; mret (buffer, YAFFS_OK).

(** One page in use. *)
Definition gc_chunk (oldChunk : Z) (c : Collecting) : M St Collecting :=
  r ← on_dev (yaffs_ReadChunkWithTagsFromNAND cfg oldChunk (Some (gc_buffer c)) yaffs_InitialiseTags);
  let '(_, data, tags) := r in
  buffer ← of_option data;
  object ← yaffs_FindObjectByNumber (objectId tags);
  if negb (ztrue object) then
    _ ← on_dev (yaffs_DeleteChunk cfg oldChunk true);
    mret (MkCollecting buffer (gc_retVal c) (gc_cleanups c))
  else
    o ← get_obj object;
    if deleted o && negb (chunkId tags =? 0) then
      _ ← mod_obj object (fun o => o <| nDataChunks ::= Z.pred |>);
      o ← get_obj object;
      _ ← on_dev (yaffs_DeleteChunk cfg oldChunk false);
      mret (MkCollecting buffer (gc_retVal c)
              (if nDataChunks o <=? 0 then gc_cleanups c ++ [objectId tags] else gc_cleanups c))
    else
      copy ← gc_copy object buffer tags;
      let '(buffer, res) := copy in
      _ ← on_dev (yaffs_DeleteChunk cfg oldChunk true);
      mret (MkCollecting buffer (if res =? YAFFS_FAIL then YAFFS_FAIL else gc_retVal c) (gc_cleanups c)).

(** The pages [pages] of the block, as long as there is one in use. *)
Fixpoint gc_chunks (block : Z) (pages : list Z) (c : Collecting) : M St Collecting :=
  match pages with
  | [] => mret c
  | chunkInBlock :: pages =>
      some ← on_dev (yaffs_StillSomeChunkBits cfg block);
      if (some : bool) then
        used ← on_dev (yaffs_CheckChunkBit cfg block chunkInBlock);
        c ← (if (used : bool) then gc_chunk (block * nChunksPerBlock cfg + chunkInBlock) c else mret c);
        gc_chunks block pages c
      else mret c
  end.

(** "Time to delete the file too" *)
Definition gc_cleanup (number : Z) : M St unit :=
  object ← yaffs_FindObjectByNumber number;
  when (ztrue object) (
    _ ← free_top object;
    _ ← yaffs_DoGenericObjectDeletion cfg nested_collection object;
    modO (fun t => t <| nDeletedFiles ::= Z.pred |>)).

(** The pages and then the files that are left without any: [retVal]. *)
Definition gc_pages (block : Z) : M St Z :=
  c ← gc_chunks block (seqZ 0 (nChunksPerBlock cfg)) (MkCollecting (temp_buffer cfg) YAFFS_OK []);
  _ ← for_each (gc_cleanups c) gc_cleanup;
  mret (gc_retVal c).

(** The block is marked: [true] if there is nothing to copy. *)
Definition gc_start (block : Z) : M (State N) bool :=
  bi ← yaffs_GetBlockInfo cfg block;
  let isCheckpointBlock := is_state (blockState bi) BLOCK_STATE_CHECKPOINT in
  _ ← set_block_info cfg block (fun bi => bi <| blockState := BLOCK_STATE_COLLECTING |>);
  _ ← set_block_info cfg block (fun bi => bi <| hasShrinkHeader := false |>);
  bi ← yaffs_GetBlockInfo cfg block;
  _ ← modB (fun b => b <| nFreeChunks ::= fun n => n - softDeletions bi |>);
  _ ← modB (fun b => b <| isDoingGC := true |>);
  some ← yaffs_StillSomeChunkBits cfg block;
  mret (isCheckpointBlock || negb some).

(** The body: [retVal], which the function computes and does not return. *)
Definition gc_block (block : Z) : M St Z :=
  empty ← on_dev (gc_start block);
  retVal ← (if (empty : bool) then _ ← on_dev (yaffs_BlockBecameDirty cfg block); mret YAFFS_OK
            else gc_pages block);
  _ ← on_dev (modB (fun b => b <| isDoingGC := false |>));
  mret retVal.

Definition yaffs_GarbageCollectBlock (block : Z) : M St Z :=
  _ ← on_dev (yaffs_GetErasedChunks cfg);
  _ ← gc_block block;
  mret YAFFS_OK.

(** A block is chosen and collected: the block and [gcOk].  [collect_block] is
    [yaffs_GarbageCollectBlock]. *)
Definition gc_pass (collect_block : Z -> M St Z) (aggressive : bool) (gcOk : Z) : M St (Z * Z) :=
  block ← on_dev (yaffs_FindBlockForGarbageCollection cfg aggressive);
  gcOk ← (if 0 <? block then
      _ ← on_dev (modS (fun s => s <| garbageCollections ::= Z.succ |>));
      _ ← when (negb aggressive) (on_dev (modS (fun s => s <| passiveGarbageCollections ::= Z.succ |>)));
      collect_block block
    else mret gcOk);
  mret (block, gcOk).

(** The loop, [fuel] passes at most. *)
Fixpoint gc_tries (collect_block : Z -> M St Z) (fuel : nat) (maxTries : Z) (gcOk : Z) : M St Z :=
  match fuel with
  | O => fail
  | S fuel =>
      let maxTries := maxTries + 1 in
      inCheckpoint ← on_dev (getC blocksInCheckpoint);
      let adjust := nCheckpointReservedBlocks cfg - inCheckpoint in
      let adjust := if adjust <? 0 then 0 else adjust in
      erased ← on_dev (getB nErasedBlocks);
      let aggressive := erased <? nReservedBlocks cfg + adjust + 2 in
      pass ← gc_pass collect_block aggressive gcOk;
      let '(block, gcOk) := pass in
      erased ← on_dev (getB nErasedBlocks);
      if (erased <? nReservedBlocks cfg) && (0 <? block) && (maxTries <? 2)
      then gc_tries collect_block fuel maxTries gcOk
      else mret (if aggressive then gcOk else YAFFS_OK)
  end.

(** There are two passes at most. *)
Definition yaffs_CheckGarbageCollection : M St Z :=
  busy ← on_dev (getB isDoingGC);
  if (busy : bool) then mret YAFFS_OK else gc_tries yaffs_GarbageCollectBlock 2 0 YAFFS_OK.
End collect.
