(* ===== verification/Watch.v ===== *)
(** * The collection, watched
    [yaffs_GarbageCollectBlock] deletes a page in use also where it could not be copied, and goes
    on.  The functions here are those of the collection but for that: they stop there, in the
    state in which the copy failed, and return [None].  Where they do not stop, the collection
    of the code does the same and ends in the same state. *)
From S2P Require Import Prelude Monad ObjHeader Tags Device Nand Sim BlockInv Blocks Medium Blank Tnode Tree Gc Objects File Steps Cache Names Delete Collect.

(** ** Computations that may stop *)
Section stop.
Context {S : Type}.

(** [f] after [m], unless that stopped. *)
Definition unless_stopped {A B} (m : M S (option A)) (f : A -> M S (option B)) : M S (option B) :=
  o ← m;
  match o with Some a => f a | None => mret None end.

(** Where [m1] does not stop, [m2] does the same. *)
Definition agrees {A} (m1 : M S (option A)) (m2 : M S A) : Prop := forall s a s',
  m1 s = Some (Some a, s') -> m2 s = Some (a, s').

Lemma agrees_ret {A} (a : A) : agrees (mret (Some a)) (mret a).
Proof. by intros s b s' [= -> ->]. Qed.

Lemma agrees_stop {A} (m : M S A) : agrees (mret None) m.
Proof. by intros s b s'. Qed.

Lemma agrees_bind {A B} (m : M S A) (f1 : A -> M S (option B)) (f2 : A -> M S B) :
  (forall a, agrees (f1 a) (f2 a)) -> agrees (mbind f1 m) (mbind f2 m).
Proof.
  intros H s b s'. unfold mbind, M_bind. destruct (m s) as [[a s1]|]; [|done]. apply H.
Qed.

Lemma agrees_unless {A B} (m1 : M S (option A)) (m2 : M S A) (f1 : A -> M S (option B)) (f2 : A -> M S B) :
  agrees m1 m2 -> (forall a, agrees (f1 a) (f2 a)) -> agrees (unless_stopped m1 f1) (mbind f2 m2).
Proof.
  intros Hm Hf s b s'. unfold unless_stopped, mbind, M_bind. destruct (m1 s) as [[[a|] s1]|] eqn:E; [|done|done].
  rewrite (Hm _ _ _ E). apply Hf.
Qed.

Lemma agrees_if {A} (c : bool) (m1 n1 : M S (option A)) (m2 n2 : M S A) :
  agrees m1 m2 -> agrees n1 n2 -> agrees (if c then m1 else n1) (if c then m2 else n2).
Proof. by destruct c. Qed.
End stop.

Ltac agrees_step := first
  [ apply agrees_ret | apply agrees_stop | apply agrees_unless; [|intros ?] | apply agrees_if
  | apply agrees_bind; intros ?
  | match goal with |- agrees (let '(_, _) := ?p in _) _ => destruct p end ].

(** ** The functions *)
Section watch.
Context {N K : Type} {nd : NandDriver N} `{!Kmalloc K} `{!Clock K} (cfg : Config).
Local Abbreviation St := (FS N K).

Definition watched_chunk (oldChunk : Z) (c : Collecting) : M St (option Collecting) :=
  r ← on_dev (yaffs_ReadChunkWithTagsFromNAND cfg oldChunk (Some (gc_buffer c)) yaffs_InitialiseTags);
  let '(_, data, tags) := r in
  buffer ← of_option data;
  object ← yaffs_FindObjectByNumber (objectId tags);
  if negb (ztrue object) then
    _ ← on_dev (yaffs_DeleteChunk cfg oldChunk true);
    mret (Some (MkCollecting buffer (gc_retVal c) (gc_cleanups c)))
  else
    o ← get_obj object;
    if deleted o && negb (chunkId tags =? 0) then
      _ ← mod_obj object (fun o => o <| nDataChunks ::= Z.pred |>);
      o ← get_obj object;
      _ ← on_dev (yaffs_DeleteChunk cfg oldChunk false);
      mret (Some (MkCollecting buffer (gc_retVal c)
              (if nDataChunks o <=? 0 then gc_cleanups c ++ [objectId tags] else gc_cleanups c)))
    else
      copy ← gc_copy cfg object buffer tags;
      let '(buffer, res) := copy in
      if res =? YAFFS_FAIL then mret None else
      _ ← on_dev (yaffs_DeleteChunk cfg oldChunk true);
      mret (Some (MkCollecting buffer (gc_retVal c) (gc_cleanups c))).

Fixpoint watched_chunks (block : Z) (pages : list Z) (c : Collecting) : M St (option Collecting) :=
  match pages with
  | [] => mret (Some c)
  | chunkInBlock :: pages =>
      some ← on_dev (yaffs_StillSomeChunkBits cfg block);
      if (some : bool) then
        used ← on_dev (yaffs_CheckChunkBit cfg block chunkInBlock);
        unless_stopped
          (if (used : bool) then watched_chunk (block * nChunksPerBlock cfg + chunkInBlock) c else mret (Some c))
          (watched_chunks block pages)
      else mret (Some c)
  end.

Definition watched_pages (block : Z) : M St (option Z) :=
  unless_stopped (watched_chunks block (seqZ 0 (nChunksPerBlock cfg)) (MkCollecting (temp_buffer cfg) YAFFS_OK []))
    (fun c => _ ← for_each (gc_cleanups c) (gc_cleanup cfg); mret (Some (gc_retVal c))).

Definition watched_block (block : Z) : M St (option Z) :=
  _ ← on_dev (yaffs_GetErasedChunks cfg);
  empty ← on_dev (gc_start cfg block);
  unless_stopped
    (if (empty : bool) then _ ← on_dev (yaffs_BlockBecameDirty cfg block); mret (Some YAFFS_OK)
     else watched_pages block)
    (fun _ => _ ← on_dev (modB (fun b => b <| isDoingGC := false |>)); mret (Some YAFFS_OK)).

Definition watched_pass (aggressive : bool) (gcOk : Z) : M St (option (Z * Z)) :=
  block ← on_dev (yaffs_FindBlockForGarbageCollection cfg aggressive);
  unless_stopped (if 0 <? block then
      _ ← on_dev (modS (fun s => s <| garbageCollections ::= Z.succ |>));
      _ ← when (negb aggressive) (on_dev (modS (fun s => s <| passiveGarbageCollections ::= Z.succ |>)));
      watched_block block
    else mret (Some gcOk))
    (fun gcOk => mret (Some (block, gcOk))).

Fixpoint watched_tries (fuel : nat) (maxTries : Z) (gcOk : Z) : M St (option Z) :=
  match fuel with
  | O => fail
  | S fuel =>
      let maxTries := maxTries + 1 in
      inCheckpoint ← on_dev (getC blocksInCheckpoint);
      let adjust := nCheckpointReservedBlocks cfg - inCheckpoint in
      let adjust := if adjust <? 0 then 0 else adjust in
      erased ← on_dev (getB nErasedBlocks);
      let aggressive := erased <? nReservedBlocks cfg + adjust + 2 in
      unless_stopped (watched_pass aggressive gcOk) (fun pass =>
        let '(block, gcOk) := pass in
        erased ← on_dev (getB nErasedBlocks);
        if (erased <? nReservedBlocks cfg) && (0 <? block) && (maxTries <? 2)
        then watched_tries fuel maxTries gcOk
        else mret (Some (if aggressive then gcOk else YAFFS_OK)))
  end.

(** [yaffs_CheckGarbageCollection], which stops at the first page that cannot be copied. *)
Definition watched_collection : M St (option Z) :=
  busy ← on_dev (getB isDoingGC);
  if (busy : bool) then mret (Some YAFFS_OK) else watched_tries 2 0 YAFFS_OK.

(** ** They are the functions of the code *)

Lemma watched_chunk_agrees oldChunk c : agrees (watched_chunk oldChunk c) (gc_chunk cfg oldChunk c).
Proof.
  unfold watched_chunk, gc_chunk. agrees_step. destruct a as [[r data] tags].
  repeat agrees_step. destruct (z =? YAFFS_FAIL); by repeat agrees_step.
Qed.

Lemma watched_chunks_agrees block pages : forall c, agrees (watched_chunks block pages c) (gc_chunks cfg block pages c).
Proof.
  induction pages as [|p pages IH]; intros c; [apply agrees_ret|]. cbn [watched_chunks gc_chunks].
  repeat (apply watched_chunk_agrees || apply IH || agrees_step).
Qed.

Lemma watched_pages_agrees block : agrees (watched_pages block) (gc_pages cfg block).
Proof. unfold watched_pages, gc_pages. repeat (apply watched_chunks_agrees || agrees_step). Qed.

(** Binding in another order. *)
Lemma agrees_assoc {A B C} (m1 : M St (option C)) (m2 : M St A) (f : A -> M St B) (g : B -> M St C) :
  agrees m1 (mbind (fun a => mbind g (f a)) m2) -> agrees m1 (mbind g (mbind f m2)).
Proof.
  intros H s c s' Hm. rewrite <- (H s c s' Hm). unfold mbind, M_bind. by destruct (m2 s) as [[a s1]|].
Qed.

Lemma watched_block_agrees block : agrees (watched_block block) (yaffs_GarbageCollectBlock cfg block).
Proof.
  unfold watched_block, yaffs_GarbageCollectBlock, gc_block. agrees_step. apply agrees_assoc. agrees_step.
  apply agrees_assoc. agrees_step; [by repeat (apply watched_pages_agrees || agrees_step)|].
  apply agrees_assoc. by repeat agrees_step.
Qed.

Lemma watched_tries_agrees fuel : forall maxTries gcOk,
  agrees (watched_tries fuel maxTries gcOk) (gc_tries cfg (yaffs_GarbageCollectBlock cfg) fuel maxTries gcOk).
Proof.
  induction fuel as [|fuel IH]; intros m r; [by intros s a s'|]. cbn [watched_tries gc_tries]. cbv zeta.
  unfold watched_pass, gc_pass. repeat (apply watched_block_agrees || apply IH || agrees_step).
Qed.

Lemma watched_agrees : agrees watched_collection (yaffs_CheckGarbageCollection cfg).
Proof. unfold watched_collection, yaffs_CheckGarbageCollection. repeat (apply watched_tries_agrees || agrees_step). Qed.
End watch.
