(* ===== verification/Start.v ===== *)
(** * The start of a collection and its end, on the block layer
    The block is marked as being collected, and with that its soft-deleted chunks are no longer
    counted as free; in the end a block without pages in use is erased. *)
From S2P Require Import Prelude Monad ObjHeader Tags Device Nand Sim BlockInv Blocks Medium Blank Tnode Tree Gc Objects File Steps Cache Names Delete Collect.

Section start.
Context {N : Type} {nd : NandDriver N} (cfg : Config) (Hcfg : cfg_ok cfg).
Context {nf : NandFrame nd cfg} {nm : NandMedium nd cfg} {nb : NandBlank nd cfg}.
Context (Haware : is_Some drv_markBlockBad) (Halign : marks_aligned nd cfg).
Implicit Types (s : State N).
Let n := nChunksPerBlock cfg.

(** The search for a bit reads the bytes of the block. *)
Lemma wp_StillSomeChunkBits blk (Q : bool -> State N -> Prop) s :
  tables_ok cfg (blks s) -> valid_block cfg blk ->
  (forall r, (r = false -> used cfg (chunkBits (blks s)) (knum cfg blk) = 0) -> Q r s) ->
  wp (yaffs_StillSomeChunkBits cfg blk) Q s.
Proof.
  intros Ht Hv HQ. unfold yaffs_StillSomeChunkBits. apply wp_bind.
  pose proof (knum_range cfg blk Hv) as Hk. pose proof (stride_pos cfg Hcfg) as Hst.
  set (bits := chunkBits (blks s)). set (b0 := yaffs_BlockBits cfg blk).
  assert (Hb0 : b0 = chunkBitmapStride cfg * knum cfg blk) by done.
  apply (wp_for_break (fun l s' => s' = s /\ forall i, i ∈ l -> lookupZ i bits = Some 0)).
  - split; [done|]. intros i Hi. by apply elem_of_nil in Hi.
  - intros l x r s' Hl [-> Hz].
    assert (Hx : b0 <= x < b0 + chunkBitmapStride cfg).
    { apply elem_of_seqZ. rewrite Hl. apply elem_of_app. right. by left. }
    destruct (lookupZ_Some x bits) as [y Hy].
    { unfold bits. rewrite (t_bits _ _ Ht). nia. }
    unfold read_bits, getB. wp_steps. apply wp_of_option with y; [done|]. wp_steps.
    destruct (ztrue y) eqn:Ey.
    + apply wp_ret, HQ. done.
    + split; [done|]. intros i [Hi| ->%list_elem_of_singleton]%elem_of_app; [by apply Hz|].
      rewrite Hy. f_equal. unfold ztrue in Ey. lia.
  - intros s' [-> Hz]. apply wp_ret, HQ. intros _. apply (used_zero cfg). intros c Hc.
    unfold chunk_bit. pose proof (chunk_byte cfg Hcfg c Hc). fold bits.
    rewrite (Hz (chunkBitmapStride cfg * knum cfg blk + c / 8)); [apply Z.testbit_0_l|].
    apply elem_of_seqZ. lia.
Qed.

(** The soft-deleted chunks outside a block. *)
Definition gone_elsewhere (D : gset Z) (blk : Z) : gset Z := filter (fun c => Z.quot c n <> blk) D.

Lemma soft_count_elsewhere D blk blk' : valid_block cfg blk' -> blk' <> blk ->
  soft_count cfg (gone_elsewhere D blk) blk' = soft_count cfg D blk'.
Proof.
  intros Hv Hne. apply sumZ_ext. intros c Hc%elem_of_seqZ. f_equal. apply bool_decide_ext.
  unfold gone_elsewhere. rewrite elem_of_filter. split; [by intros [_ ?]|]. intros HD. split; [|done].
  fold n in Hc. pose proof (c_start _ Hcfg). unfold valid_block in Hv.
  rewrite Z.quot_div_nonneg by (unfold n in *; nia). fold n. rewrite Z.div_add_l by lia.
  rewrite Z.div_small by lia. lia.
Qed.

Lemma soft_count_nonneg D blk : 0 <= soft_count cfg D blk.
Proof. apply sumZ_nonneg. intros c _. unfold ind. case_match; lia. Qed.

(** The books of the block that is marked. *)
Lemma marked_ok D blk bi s s' :
  flash_ok cfg D s -> valid_block cfg blk -> blockInfo (blks s) !! index cfg blk = Some bi ->
  blockState bi = BLOCK_STATE_FULL ->
  blockInfo (blks s') = <[index cfg blk := bi <| blockState := BLOCK_STATE_COLLECTING |>
    <| hasShrinkHeader := false |>]> (blockInfo (blks s)) ->
  chunkBits (blks s') = chunkBits (blks s) -> allocationBlock (blks s') = allocationBlock (blks s) ->
  allocationPage (blks s') = allocationPage (blks s) -> nErasedBlocks (blks s') = nErasedBlocks (blks s) ->
  nFreeChunks (blks s') = nFreeChunks (blks s) - softDeletions bi -> nand s' = nand s ->
  flash_ok cfg (gone_elsewhere D blk) s' /\ kept cfg s s'.
Proof.
  intros [Hm Hst] Hv Hb HF Hi Hbits Hab Hap He Hf Hn. pose proof (mo_blocks _ _ _ Hm) as Hok.
  set (bi' := bi <| blockState := BLOCK_STATE_COLLECTING |> <| hasShrinkHeader := false |>) in *.
  destruct (ok_block _ _ _ _ Hok blk bi Hv Hb) as [Hpages Hsoft _ _].
  assert (Hs0 : soft_of bi' = 0) by done. assert (Hs1 : soft_of bi = softDeletions bi) by (unfold soft_of; by rewrite HF).
  assert (Hk : kept cfg s s').
  { apply kept_same; [done..|]. apply (soft_le_info cfg blk bi bi'); try done. lia. }
  split; [|done]. split.
  - split.
    + apply (blocks_ok_change cfg 0 0 0 0 (blks s) (blks s') blk bi bi'); try done.
      * rewrite Hbits. apply (other_bits_refl cfg (blks s)). apply Hok.
      * rewrite Hbits. split; [done|rewrite Hs0; change (pagesInUse bi') with (pagesInUse bi); rewrite Hpages| |done].
        { pose proof (used_range cfg Hcfg (chunkBits (blks s)) (knum cfg blk)). lia. }
        change (blockState bi') with BLOCK_STATE_COLLECTING. intros [?|[?|[?|?]]]; done.
      * rewrite He. unfold empty_ind, is_state. rewrite HF. change (blockState bi') with BLOCK_STATE_COLLECTING.
        rewrite !bool_decide_eq_false_2 by done. lia.
      * rewrite Hf. unfold free_of. rewrite HF, Hs1, Hs0. change (blockState bi') with BLOCK_STATE_COLLECTING.
        change (pagesInUse bi') with (pagesInUse bi). simpl counted_state. cbv iota. lia.
      * apply (allocator_ok_change cfg (blks s) (blks s') blk bi bi'); try done.
        -- apply Hok.
        -- rewrite Hbits. apply (other_bits_refl cfg (blks s)). apply Hok.
        -- congruence.
    + intros c [_ HD]%elem_of_filter. destruct (mo_gone _ _ _ Hm c HD) as [Hvc Hu]. split; [done|].
      unfold in_use. by rewrite Hbits.
    + rewrite Hi. intros blk' x Hv' Hx.
      apply (lookup_insert_block cfg _ _ bi) in Hx as [[-> ->]|[Hne Hx]]; [..|done|done|done].
      * rewrite Hs0. apply soft_count_nonneg.
      * rewrite soft_count_elsewhere by done. by apply (mo_soft _ _ _ Hm).
  - apply (tidy_info cfg Hcfg blk bi bi' s s'); try done. by rewrite HF.
Qed.

Definition block_state (blk : Z) (st : BlockState) (s : State N) : Prop :=
  exists bi, blockInfo (blks s) !! index cfg blk = Some bi /\ blockState bi = st.

(** The marking of a full block. *)
Lemma gc_start_spec D blk s :
  flash_ok cfg D s -> valid_block cfg blk -> block_state blk BLOCK_STATE_FULL s ->
  wp (gc_start cfg blk) (fun empty s' =>
    flash_ok cfg (gone_elsewhere D blk) s' /\ kept cfg s s' /\ chunkBits (blks s') = chunkBits (blks s) /\
    nand s' = nand s /\ isDoingGC (blks s') = true /\ block_state blk BLOCK_STATE_COLLECTING s' /\
    (empty = true -> used cfg (chunkBits (blks s')) (knum cfg blk) = 0)) s.
Proof.
  intros Hfl Hv (bi & Hb & HF). assert (Hlo : internalStartBlock cfg <= blk) by apply Hv.
  pose proof (lookup_lt_Some _ _ _ Hb) as Hlen. unfold gc_start.
  apply wp_bind, (wp_GetBlockInfo cfg blk bi); [done|done|].
  apply wp_bind, (wp_set_block_info cfg blk _ bi); [done|done|].
  apply wp_bind. eapply wp_set_block_info; [done|exact (list_lookup_insert_eq _ _ _ Hlen)|].
  set (bi' := bi <| blockState := BLOCK_STATE_COLLECTING |> <| hasShrinkHeader := false |>).
  set (s2 := with_infos _ (with_infos _ s)).
  assert (Hi2 : blockInfo (blks s2) = <[index cfg blk := bi']> (blockInfo (blks s)))
    by exact (list_insert_insert_eq _ _ _ _).
  assert (Hb2 : blockInfo (blks s2) !! index cfg blk = Some bi') by (rewrite Hi2; by apply list_lookup_insert_eq).
  apply wp_bind, (wp_GetBlockInfo cfg blk bi'); [done|exact Hb2|].
  apply wp_bind, wp_modify, wp_bind, wp_modify.
  set (s4 := s2 <| blks ::= _ |> <| blks ::= _ |>).
  destruct (marked_ok D blk bi s s4 Hfl Hv Hb HF) as [H4 Hk]; [exact Hi2|done..|].
  apply wp_bind, wp_StillSomeChunkBits; [apply H4|done|]. intros r Hr. apply wp_ret.
  split; [done|]. split; [done|]. split; [done|]. split; [done|]. split; [done|]. split; [by exists bi'|].
  rewrite HF. intros Hor. apply Hr. by destruct r.
Qed.

(** A block under collection without pages in use is erased. *)
Lemma BlockBecameDirty_flash D blk s :
  flash_ok cfg D s -> valid_block cfg blk -> block_state blk BLOCK_STATE_COLLECTING s ->
  used cfg (chunkBits (blks s)) (knum cfg blk) = 0 ->
  wp (yaffs_BlockBecameDirty cfg blk) (fun _ s' =>
    flash_ok cfg D s' /\ kept cfg s s' /\ none_new cfg s s' /\ isDoingGC (blks s') = isDoingGC (blks s)) s.
Proof.
  intros [Hm Hst] Hv (bi & Hb & HC) Hu. pose proof (mo_blocks _ _ _ Hm) as Hok.
  pose proof (calm_ok cfg 0 0 s Hok) as Hcalm.
  eapply wp_mono; [apply wp_pc; [|apply pc_and]|].
  - apply (BlockBecameDirty_spec cfg Hcfg Haware blk s bi); try done; [by right|].
    destruct (ok_block _ _ _ _ Hok blk bi Hv Hb) as [-> _ _ _]. done.
  - by apply (BlockBecameDirty_safe cfg Hcfg Haware Halign blk s).
  - apply (BlockBecameDirty_tidy cfg Hcfg Haware Halign blk s bi); try done. congruence.
  - intros [] s' [(Hok' & Hstep & Hbits & Hin) [[_ Hk] [Hst' Hnn]]].
    split; [|split; [done|split; [done|apply Hstep]]]. split; [|done].
    apply (media_kept cfg D (-1) s); [done|done| |done].
    intros HD. destruct (mo_gone _ _ _ Hm _ HD) as [Hc _]. unfold valid_chunk in Hc.
    pose proof (c_start _ Hcfg). pose proof (c_npb _ Hcfg). nia.
Qed.
End start.
