(* ===== verification/Headers.v ===== *)
(** * Writing object headers ([yaffs_UpdateObjectHeader] and [yaffs_ChangeObjectName])

    A header that is written has the name, the attributes, the parent and the type of its
    object; it takes the place of the old header, whose chunk is deleted; and nothing else on
    the device changes.  Where no header could be written the object keeps the one it had. *)
From S2P Require Import Prelude Monad ObjHeader Tags Device Nand Sim BlockInv Blocks Medium Blank Tnode Tree Objects File Steps Cache Names.

(** ** The bytes of a header *)

(** What an object needs so that its header can be made. *)
Record header_ready (o : Object) : Prop := {
  hr_link : variantType o = OBJECT_TYPE_HARDLINK -> exists e id, variant o = HardLinkVariant e id;
  hr_alias : variantType o = OBJECT_TYPE_SYMLINK -> lazyLoaded o = false /\
    exists p t, variant o = SymLinkVariant p t /\ p <> 0 /\ chars t
}.

(** The name in the header: the new one, cut to 255 characters, or the old one. *)
Definition next_name (name old : option (list Z)) : list Z :=
  match name with
  | Some (c :: s) => take (Z.to_nat YAFFS_MAX_NAME_LENGTH) (c :: s)
  | _ => default [] old
  end.

(** The bytes [bs] of a name that was read, and the name [n] in them. *)
Definition old_name (bs n : option (list Z)) : Prop :=
  match bs, n with
  | Some bs, Some n => length bs = f_size oh_name /\ c_str bs = Some n
  | None, None => True
  | _, _ => False
  end.

Definition attributes (o : Object) : list Z :=
  [yst_mode o; yst_uid o; yst_gid o; yst_atime o; yst_mtime o; yst_ctime o; yst_rdev o].
Definition header_attributes (d : list Z) : list Z :=
  (fun f => get_field f d) <$> [oh_yst_mode; oh_yst_uid; oh_yst_gid; oh_yst_atime; oh_yst_mtime; oh_yst_ctime; oh_yst_rdev].

(** Header [d] says of the object what is in memory. *)
Record describes (d : list Z) (o : Object) (n : list Z) (parentId : Z) : Prop := {
  ds_ok : header_ok o d;
  ds_name : name_in d n;
  ds_type : get_field oh_type d = u32 (variantType o);
  ds_parent : get_field oh_parentObjectId d = u32 parentId;
  ds_attributes : header_attributes d = u32 <$> attributes o
}.

Lemma name_bytes_ok name bs old :
  match name with Some n => chars n | None => True end -> old_name bs old ->
  length (name_bytes name bs) = f_size oh_name /\ c_str (name_bytes name bs) = Some (next_name name old).
Proof.
  intros Hc Ho. unfold name_bytes, next_name.
  assert (Hold : length (match bs with Some b => b | None => replicate (f_size oh_name) 0 end) = f_size oh_name /\
    c_str (match bs with Some b => b | None => replicate (f_size oh_name) 0 end) = Some (default [] old)).
  { destruct bs as [b|], old as [n|]; cbn in Ho; done. }
  destruct name as [[|c s]|]; try done. split; [|by apply strncpy_c_str].
  rewrite length_app, length_strncpy. done.
Qed.

(** Fields that a step before does not touch. *)
Ltac header_fields := repeat first
  [ rewrite put_field_apart by reflexivity | rewrite put_field_field_apart by reflexivity
  | rewrite get_put_apart by (reflexivity || done) | rewrite get_field_apart by (reflexivity || done) ].

Section bytes.
Context (cfg : Config) (Hsize : 512 <= nDataBytesPerChunk cfg).

Lemma length_header_base o shadows p oh : length (header_base o shadows p oh) = length oh.
Proof. unfold header_base. by rewrite !length_put_field. Qed.

Lemma get_field_put f v oh : (f_off f + f_size f <= length oh)%nat -> f_size f = 4%nat ->
  get_field f (put_field f v oh) = u32 v.
Proof. intros Hl H4. rewrite get_put_field by done. by rewrite H4. Qed.

Lemma header_base_fields o shadows p oh : (512 <= length oh)%nat ->
  let d := header_base o shadows p oh in
  get_field oh_type d = u32 (variantType o) /\ get_field oh_parentObjectId d = u32 p /\
  header_attributes d = u32 <$> attributes o.
Proof.
  intros Hl d. unfold d, header_attributes, attributes, header_base. cbn [fmap list_fmap].
  split; [|split]; repeat (header_fields; rewrite get_field_put by (rewrite ?length_put_field; cbn; lia || done)); done.
Qed.

(** What the type adds leaves the common fields alone. *)
Lemma header_variant_keeps o oh oh' : (512 <= length oh)%nat -> header_variant o oh = Some oh' ->
  length oh' = length oh /\ get_bytes oh_name oh' = get_bytes oh_name oh /\
  get_field oh_type oh' = get_field oh_type oh /\
  get_field oh_parentObjectId oh' = get_field oh_parentObjectId oh /\
  header_attributes oh' = header_attributes oh.
Proof.
  intros Hl. assert (Halias : forall t, length (strncpy_bytes (Z.to_nat YAFFS_MAX_ALIAS_LENGTH) t ++ [0]) = f_size oh_alias).
  { intros t. by rewrite length_app, length_strncpy. }
  unfold header_variant. destruct (_ =? OBJECT_TYPE_FILE); [|destruct (_ =? OBJECT_TYPE_HARDLINK); [|destruct (_ =? OBJECT_TYPE_SYMLINK)]].
  - destruct (variant o); try done. intros [= <-]. unfold header_attributes. cbn [fmap list_fmap].
    rewrite length_put_field. by header_fields.
  - destruct (variant o); try done. intros [= <-]. unfold header_attributes. cbn [fmap list_fmap].
    rewrite length_put_field. by header_fields.
  - destruct (variant o) as [| | |p t|]; try done. destruct (ztrue p); [|done]. intros [= <-].
    unfold header_attributes. cbn [fmap list_fmap]. rewrite length_put_bytes.
    by repeat first [rewrite get_put_apart by (reflexivity || apply Halias) | rewrite get_field_apart by (reflexivity || apply Halias)].
  - by intros [= <-].
Qed.

Lemma header_variant_some o oh : header_ready o -> typed o -> (512 <= length oh)%nat ->
  exists oh', header_variant o oh = Some oh' /\
    (variantType o = OBJECT_TYPE_SYMLINK -> exists t, alias_in oh' t).
Proof.
  intros [Hlink Halias] Ht Hl. unfold header_variant.
  destruct (Z.eqb_spec (variantType o) OBJECT_TYPE_FILE) as [Hf|Hf].
  { rewrite Hf. unfold typed in Ht. destruct (variant o) as [|f|cs|p t|e id]; rewrite ?Hf in Ht; try done; try by destruct Ht.
    eexists. by split. }
  destruct (Z.eqb_spec (variantType o) OBJECT_TYPE_HARDLINK) as [Hh|Hh].
  { destruct (Hlink Hh) as (e & id & ->). eexists. split; [done|]. by rewrite Hh. }
  destruct (Z.eqb_spec (variantType o) OBJECT_TYPE_SYMLINK) as [Hy|Hy]; [|by eexists].
  destruct (Halias Hy) as (_ & p & t & -> & Hp & Hc). unfold ztrue. rewrite (proj2 (Z.eqb_neq p 0)) by done.
  eexists. split; [done|]. intros _. exists (take (Z.to_nat YAFFS_MAX_ALIAS_LENGTH) t). unfold alias_in.
  rewrite get_put_same; [by apply strncpy_c_str|by rewrite length_app, length_strncpy|cbn; lia].
Qed.

Lemma new_header_ok o name bs old isShrink shadows p :
  header_ready o -> typed o -> match name with Some n => chars n | None => True end -> old_name bs old ->
  exists d, new_header cfg o name bs isShrink shadows p = Some d /\
    Z.of_nat (length d) = nDataBytesPerChunk cfg /\ describes d o (next_name name old) p.
Proof.
  intros Hr Ht Hc Ho. destruct (name_bytes_ok name bs old Hc Ho) as [Hnl Hns]. unfold new_header.
  set (b := replicate (Z.to_nat (nDataBytesPerChunk cfg)) 255).
  assert (Hlb : Z.of_nat (length b) = nDataBytesPerChunk cfg) by (unfold b; rewrite length_replicate; lia).
  assert (Hah : as_header b = Some b) by (unfold as_header; by rewrite (proj2 (Z.ltb_ge _ _)) by lia).
  rewrite Hah. cbn [mbind option_bind].
  destruct (header_base_fields o shadows p b ltac:(lia)) as (F1 & F2 & F3). cbv zeta in *.
  set (d1 := header_base o shadows p b) in *. pose proof (length_header_base o shadows p b) as Hl1. fold d1 in Hl1.
  set (d2 := put_bytes oh_name (name_bytes name bs) d1). set (d3 := put_field oh_isShrink (flag isShrink) d2).
  assert (Hl3 : length d3 = length b) by (unfold d3, d2; by rewrite length_put_field, length_put_bytes).
  destruct (header_variant_some o d3 Hr Ht) as (d & Hd & Hal); [lia|]. exists d. split; [exact Hd|].
  destruct (header_variant_keeps o d3 d) as (L & G1 & G2 & G3 & G4); [lia|done|]. split; [lia|].
  assert (Hname : name_in d (next_name name old)).
  { unfold name_in. rewrite G1. unfold d3, d2. rewrite put_field_apart by done.
    by rewrite get_put_same by (rewrite ?Hl1; done || (cbn; lia)). }
  split.
  - split; [by eexists|exact Hal].
  - exact Hname.
  - rewrite G2. unfold d3, d2. rewrite put_field_field_apart by done. by rewrite get_field_apart by done.
  - rewrite G3. unfold d3, d2. rewrite put_field_field_apart by done. by rewrite get_field_apart by done.
  - rewrite G4, <- F3. unfold header_attributes, d3, d2. cbn [fmap list_fmap].
    by repeat first [rewrite put_field_field_apart by reflexivity | rewrite get_field_apart by (reflexivity || done)].
Qed.
End bytes.

(** ** Steps at one object *)

(** Nothing but object [a], the device and the kernel heap changes. *)
Record only_at {N K} (a : Z) (s s' : FS N K) : Prop := {
  oa_hashed : forall x, hashed (obs s') x <-> hashed (obs s) x;
  oa_roots : same_roots (obs s) (obs s');
  oa_others : forall x, x <> a -> objects (obs s') !! x = objects (obs s) !! x;
  oa_tnodes : tnodes (tns s') = tnodes (tns s);
  oa_free : nFreeTnodes (tns s') = nFreeTnodes (tns s);
  oa_caches : caches s' = caches s
}.

#[export] Instance only_at_refl {N K} a : Reflexive (@only_at N K a).
Proof. intros s. by split. Qed.
#[export] Instance only_at_trans {N K} a : Transitive (@only_at N K a).
Proof.
  intros s1 s2 s3 [A1 (A2 & A3 & A4 & A5) A6 A7 A8 A9] [B1 (B2 & B3 & B4 & B5) B6 B7 B8 B9].
  split; [intros x; by rewrite B1, A1|repeat split; congruence| |congruence..].
  intros x Hx. by rewrite B6, A6.
Qed.

Lemma only_at_with_obj {N K} (s : FS N K) a o : only_at a s (with_obj s a o).
Proof.
  split; try done. intros x Hx. change (objects (obs (with_obj s a o))) with (<[a := o]> (objects (obs s))).
  by rewrite lookup_insert_ne.
Qed.

Lemma only_at_dev {N K} (s : FS N K) a ds : only_at a s (with_dev s ds).
Proof. by split. Qed.
Lemma only_at_heap {N K} (s : FS N K) a k : only_at a s (with_heap s k).
Proof. by split. Qed.

Lemma only_at_spent {N K} (s s' : FS N K) a : only_at a s s' -> spent 0 s s'.
Proof. intros []. split; [lia|done]. Qed.

Lemma only_at_object {N K} (s s' : FS N K) a x o : only_at a s s' -> x <> a -> is_object s x o <-> is_object s' x o.
Proof. intros [] Hx. unfold is_object. by rewrite oa_others0, oa_hashed0. Qed.

(** What may differ in an object whose header was written: its details if they had to be
    loaded, the place of the header, the serial number and whether it is dirty. *)
Definition retouch o o' : Object :=
  o <| lazyLoaded := lazyLoaded o' |> <| yst_mode := yst_mode o' |> <| yst_uid := yst_uid o' |>
    <| yst_gid := yst_gid o' |> <| yst_atime := yst_atime o' |> <| yst_mtime := yst_mtime o' |>
    <| yst_ctime := yst_ctime o' |> <| yst_rdev := yst_rdev o' |> <| shortName := shortName o' |>
    <| nameSum := nameSum o' |> <| variant := variant o' |> <| hdrChunk := hdrChunk o' |>
    <| serial := serial o' |> <| dirty := dirty o' |>.

Record touched o o' : Prop := {
  tc_viewed : viewed o o';
  tc_place : same_place o o';
  tc_rest : o' = retouch o o';
  tc_loaded : lazyLoaded o = false -> attributes o' = attributes o /\ shortName o' = shortName o /\
    nameSum o' = nameSum o /\ variant o' = variant o
}.

#[export] Instance touched_refl : Reflexive touched.
Proof. intros o. split; try done. by destruct o. Qed.
#[export] Instance touched_trans : Transitive touched.
Proof.
  intros o1 o2 o3 [A1 A2 A3 A4] [B1 B2 B3 B4]. split; [by transitivity o2|by transitivity o2| |].
  - rewrite B3, A3. by destruct o1, o2, o3.
  - intros Hl. destruct (A4 Hl) as (E1 & E2 & E3 & E4).
    destruct (B4) as (F1 & F2 & F3 & F4); [|repeat split; congruence].
    destruct (lazyLoaded o2) eqn:H2; [|done]. pose proof (vd_lazy _ _ A1 H2). congruence.
Qed.

(** The tags of a header name the object and chunk 0. *)
Definition heads (n : Z) (t : ExtendedTags) : Prop := objectId t = n /\ chunkId t = 0 /\ chunkDeleted t = 0.

Lemma heads_step n (u : ExtendedTags -> ExtendedTags) t :
  (forall t, objectId (u t) = objectId t /\ chunkId (u t) = chunkId t /\ chunkDeleted (u t) = chunkDeleted t) ->
  heads n t -> heads n (u t).
Proof. intros Hu (H1 & H2 & H3). destruct (Hu t) as (U1 & U2 & U3). repeat split; congruence. Qed.

Lemma header_tags_heads o d : heads (objId o) (header_tags o d).
Proof.
  unfold header_tags. do 8 (apply heads_step; [by intros []|]). done.
Qed.

Section writing.
Context {N K : Type} {nd : NandDriver N} `{!Kmalloc K} `{!KmallocLaws K} `{!Clock K} (cfg : Config).
Context {nf : NandFrame nd cfg} {nm : NandMedium nd cfg} {nb : NandBlank nd cfg}.
Context (Hdev : device_ok cfg) (Hsize : 512 <= nDataBytesPerChunk cfg).
Implicit Types (s : FS N K) (o : Object) (f : FileStructure).

Local Abbreviation Hcfg := (dv_cfg cfg Hdev).
Local Abbreviation Hpg := (dv_plain cfg Hdev).
Local Abbreviation Haware := (dv_aware cfg Hdev).
Local Abbreviation Halign := (dv_marks cfg Hdev).

(** Marking the block of the new header. *)
Lemma mark_shrink_flash D blk (d : State N) :
  flash_ok cfg D d -> valid_block cfg blk ->
  wp (set_block_info cfg blk (fun bi => bi <| hasShrinkHeader := true |>)) (fun _ d' =>
    flash_ok cfg D d' /\ kept cfg d d' /\ chunkBits (blks d') = chunkBits (blks d) /\ nand d' = nand d /\
    isDoingGC (blks d') = isDoingGC (blks d)) d.
Proof.
  intros [Hm Hst] Hv. destruct (get_block cfg 0 0 _ _ (mo_blocks _ _ _ Hm) Hv) as [bi Hb].
  apply (wp_set_block_info cfg blk _ bi); [apply Hv|done|]. set (bi' := bi <| hasShrinkHeader := true |>).
  set (d' := with_infos _ d). pose proof (mo_blocks _ _ _ Hm) as Hok.
  assert (Hk : kept cfg d d').
  { apply kept_same; [done..|]. apply (soft_le_info cfg blk bi bi'); try done.
    change (soft_of bi') with (soft_of bi). lia. }
  split; [|done]. split.
  - apply (media_kept cfg D (-1) d); [done|done| |].
    { intros HD. destruct (mo_gone _ _ _ Hm _ HD) as [Hc _]. apply (valid_positive cfg Hcfg Hpg) in Hc. lia. }
    apply (blocks_ok_change cfg 0 0 0 0 (blks d) (blks d') blk bi bi'); try done.
    + apply (other_bits_refl cfg (blks d)). apply Hok.
    + destruct (ok_block _ _ _ _ Hok blk bi Hv Hb) as []. by split.
    + change (empty_ind bi') with (empty_ind bi). change (nErasedBlocks (blks d')) with (nErasedBlocks (blks d)). lia.
    + change (free_of cfg bi') with (free_of cfg bi). change (nFreeChunks (blks d')) with (nFreeChunks (blks d)). lia.
    + by apply (allocator_ok_clear cfg (blks d) (blks d') blk bi bi'); [apply Hok|..].
  - by apply (tidy_info cfg Hcfg blk bi bi' d d'); try done; left.
Qed.

(** The table of cached chunks has its size. *)
Definition slots_ok s : Prop := length (srCache (caches s)) = Z.to_nat (nShortOpCaches cfg).

Lemma for_break_keeps {A R} (l : list A) (body : A -> M (FS N K) (option R)) s :
  (forall x, x ∈ l -> wp (body x) (fun _ s' => s' = s) s) -> wp (for_break l body) (fun _ s' => s' = s) s.
Proof.
  induction l as [|x l IH]; intros H; [by apply wp_ret|]. cbn [for_break].
  eapply wp_seq; [apply H; by left|]. intros [r|] s' ->; [by apply wp_ret|].
  apply IH. intros y Hy. apply H. by right.
Qed.

Lemma HasCached_spec s a o : slots_ok s -> objects (obs s) !! a = Some o ->
  wp (yaffs_ObjectHasCachedWriteData cfg a) (fun _ s' => s' = s) s.
Proof.
  intros Hsl Ho. unfold yaffs_ObjectHasCachedWriteData. apply wp_bind, (wp_get_obj a o); [done|].
  apply (wp_seq _ _ (fun _ s' => s' = s)); [|by intros r s' ->; apply wp_ret]. apply for_break_keeps.
  intros i Hi. unfold slots in Hi. apply elem_of_seqZ in Hi.
  destruct (lookup_lt_is_Some_2 (srCache (caches s)) (Z.to_nat i)) as [c Hc]; [unfold slots_ok in Hsl; lia|].
  apply wp_bind, (wp_get_slot i c); [lia|done|]. by apply wp_ret.
Qed.


(** The chunk of the old header, if there was one. *)
Definition old_chunk o : Z := if 0 <? hdrChunk o then hdrChunk o else -1.

(** The chunk in hand becomes the header of its object. *)
Lemma install_header_spec new s U l Fs D a o d isShrink :
  fs_but cfg new s U l Fs D -> is_object s a o -> holds cfg (dev s) new d (objId o) 0 -> header_ok o d ->
  hdrChunk o <> 0 -> hdrChunk o <> new -> deferedFree o = false -> slots_ok s ->
  wp (install_header cfg a (hdrChunk o) new isShrink) (fun _ s' =>
    fs_ok cfg s' U l Fs D /\ data_kept cfg s s' /\ only_at a s s' /\
    kept_but cfg (old_chunk o) (dev s) (dev s') /\ isDoingGC (blks (dev s')) = isDoingGC (blks (dev s)) /\
    exists dt, is_object s' a (o <| hdrChunk := new |> <| dirty := dt |>)) s.
Proof.
  intros Hs Ho Hd Hok Hp0 Hpn Hdf Hsl. pose proof Ho as [Hh Hlook].
  pose proof (valid_positive cfg Hcfg Hpg new (proj1 Hd)) as [Hpos _].
  unfold install_header. rewrite (proj2 (Z.leb_le 0 new)) by lia. cbn [when].
  apply wp_bind, (wp_mod_obj a o); [done|]. set (o1 := o <| hdrChunk := new |>).
  change (s <| obs ::= _ |>) with (with_obj s a o1). set (s1 := with_obj s a o1).
  destruct (header_step cfg Hcfg Hpg new s U l Fs D a o o1 d Hs Ho) as [Hs1 Hc1]; try done.
  assert (Hk1 : data_kept cfg s s1) by by apply changed_data_kept.
  assert (Ho1 : is_object s1 a o1) by (split; [done|apply lookup_insert_eq]).
  apply (wp_seq _ _ (fun _ s2 => fs_ok cfg s2 U l Fs D /\ data_kept cfg s s2 /\ s2 = with_dev s1 (dev s2) /\
    kept_but cfg (old_chunk o) (dev s) (dev s2) /\ isDoingGC (blks (dev s2)) = isDoingGC (blks (dev s)))).
  { apply wp_when. unfold old_chunk. destruct (Z.leb_spec 0 (hdrChunk o)).
    - rewrite (proj2 (Z.ltb_lt 0 (hdrChunk o))) by lia. rewrite Z.max_r in Hs1 by lia.
      destruct (fk_header _ _ _ _ _ _ _ Hs a o Ho) as (d0 & Hd0 & _); [lia|].
      eapply wp_mono; [apply (delete_unreferenced cfg Hcfg Haware Halign (hdrChunk o) s1 U l Fs D (hdrChunk o) true)|]; try done.
      + apply Hd0.
      + apply Hd0.
      + by apply (header_not_gone cfg new s U l Fs D a o Hs Ho); lia.
      + apply (unreferenced_chunk cfg (hdrChunk o) s1 U l Fs D (hdrChunk o) d0 (objId o) 0 Hs1 Hd0).
        intros (x & ox & Hx & Hid & [[_ He]|(fx & Hfx & He)]).
        * destruct (object_unique cfg (hdrChunk o) s1 U l Fs D a x o1 ox Hs1 Ho1 Hx (eq_sym Hid)) as [-> ->].
          change (new = hdrChunk o) in He. done.
        * apply Hp0. rewrite <- He. exact (fk_zero _ _ _ _ _ _ _ Hs1 x ox fx Hfx).
      + intros [] s2 (Hs2 & Hk2 & Ht2 & Hob2 & Hca2 & _ & Hkb & _ & Hgc). rewrite Z.eqb_refl in Hs2.
        split; [done|]. split; [by eapply data_kept_trans|].
        split; [destruct s1, s2; unfold with_dev; cbn in *; by subst|]. done.
    - rewrite (proj2 (Z.ltb_ge 0 (hdrChunk o))) by lia. rewrite Z.max_l in Hs1 by lia.
      split; [done|]. split; [done|]. split; [done|]. split; [apply kept_but_refl|done]. }
  intros [] s2 (Hs2 & Hk2 & He2 & Hkb2 & Hgc2).
  assert (Ho2 : is_object s2 a o1) by by rewrite He2.
  assert (Hat2 : only_at a s s2) by (rewrite He2; transitivity s1; [apply only_at_with_obj|apply only_at_dev]).
  assert (Hsl2 : slots_ok s2) by (unfold slots_ok; by rewrite (oa_caches _ _ _ Hat2)).
  eapply wp_seq; [apply (HasCached_spec s2 a o1 Hsl2), Ho2|]. intros cached s3 ->.
  apply (wp_seq _ _ (fun _ s3 => fs_ok cfg s3 U l Fs D /\ view s2 s3 /\ exists dt, s3 = with_obj s2 a (o1 <| dirty := dt |>))).
  { apply wp_when. destruct cached; cbn [negb].
    - split; [done|]. split; [by apply objects_changed_refl|]. exists (dirty o1).
      destruct Ho2 as [_ Ho2]. apply same_entry in Ho2. replace (o1 <| dirty := dirty o1 |>) with o1 by by destruct o1.
      unfold with_obj. destruct s2 as [? ? t ?]. unfold field_update, upd_obs in *. cbn in *. by rewrite <- Ho2.
    - apply (wp_mod_view cfg 0 s2 U l Fs D a o1 (fun o => o <| dirty := false |>)); [done|apply Ho2|by split; [|split]|done|done|].
      intros Hs3 Hv3. split; [done|]. split; [done|]. by exists false. }
  intros [] s3 (Hs3 & Hv3 & dt & ->). set (s3 := with_obj s2 a (o1 <| dirty := dt |>)) in *.
  assert (Hk3 : data_kept cfg s s3) by (eapply data_kept_trans; [exact Hk2|by apply view_data_kept]).
  assert (Hat3 : only_at a s s3) by (transitivity s2; [done|apply only_at_with_obj]).
  assert (Ho3 : is_object s3 a (o1 <| dirty := dt |>)) by (split; [apply Ho2|apply lookup_insert_eq]).
  apply wp_when. destruct isShrink.
  - apply wp_on_dev. eapply wp_mono; [apply (mark_shrink_flash D); [apply Hs3|by apply (chunk_place cfg Hcfg new), Hd]|].
    intros [] d' (Hfl & Hkd & Hbits & Hnand & Hgc). change (s3 <| dev := d' |>) with (with_dev s3 d').
    assert (Hr : only_read cfg D s3 (with_dev s3 d')).
    { exists d'. split; [done|]. split; try done. intros c. by rewrite Hnand. }
    destruct (only_read_ok cfg Hcfg Hpg 0 s3 _ U l Fs D Hs3 Hr) as [Hs4 _]. split; [done|].
    split; [exact (data_kept_trans cfg _ _ _ Hk3 (only_read_kept cfg Hcfg Hpg 0 _ _ _ _ _ _ Hs3 Hr))|].
    split; [transitivity s3; [done|apply only_at_dev]|].
    split; [eapply kept_but_trans; [exact Hkb2|exact (kept_any cfg Hcfg _ _ _ Hkd)]|]. split; [by etransitivity; [exact Hgc|]|]. by exists dt.
  - do 3 (split; [done|]). split; [done|]. split; [done|]. by exists dt.
Qed.

(** ** The whole write *)

(** The name in the header on flash, if there is one. *)
Definition header_name s o (m : option (list Z)) : Prop :=
  match m with
  | Some n => exists d, holds cfg (dev s) (hdrChunk o) d (objId o) 0 /\ name_in d n
  | None => hdrChunk o < 0
  end.

Lemma read_old_name_spec s U l Fs D a o :
  fs_ok cfg s U l Fs D -> is_object s a o -> hdrChunk o <> 0 ->
  wp (read_old_name cfg (hdrChunk o)) (fun bs s' => only_read cfg D s s' /\
    exists m, old_name bs m /\ header_name s o m) s.
Proof.
  intros Hs Ho Hp0. unfold read_old_name. destruct (Z.leb_spec 0 (hdrChunk o)).
  - destruct (fk_header _ _ _ _ _ _ _ Hs a o Ho) as (d & Hd & [n Hn] & _); [lia|].
    assert (Hdl : Z.of_nat (length d) = nDataBytesPerChunk cfg) by apply Hd.
    apply wp_bind, wp_on_dev. eapply wp_mono; [apply (read_held cfg Hcfg D (dev s) (hdrChunk o) d (objId o) 0);
      [apply Hs|done|apply (temp_buffer_ok cfg Hcfg)]|].
    intros [[r b] t'] ds' (Hdr & Hb & _). cbn [fst snd] in *. rewrite Hb. cbn [fmap option_fmap option_map].
    apply wp_bind, wp_of_option with d; [done|]. apply wp_bind, wp_of_option with d; [by apply (as_header_ok cfg)|].
    apply wp_ret. split; [by exists ds'|]. exists (Some n). split; [|by exists d]. split; [|exact Hn].
    unfold get_bytes. rewrite length_take, length_drop.
    change (f_size oh_name) with 256%nat. change (f_off oh_name) with 10%nat. lia.
  - apply wp_ret. split; [apply only_read_refl, Hs|]. exists None. by split; [|simpl; lia].
Qed.

(** The number of the parent; 0 for none. *)
Definition parent_number s o (p : Z) : Prop :=
  (parent o = 0 /\ p = 0) \/ (parent o <> 0 /\ exists op, is_object s (parent o) op /\ objId op = p).

Lemma wp_parent_number x s U l Fs D a o (Q : Z -> FS N K -> Prop) :
  fs_but cfg x s U l Fs D -> is_object s a o -> (forall p, parent_number s o p -> Q p s) ->
  wp (if ztrue (parent o) then p ← get_obj (parent o); mret (objId p) else mret 0) Q s.
Proof.
  intros Hs [Hh Ho] HQ. unfold ztrue. destruct (Z.eqb_spec (parent o) 0) as [H0|H0]; cbn [negb].
  - apply wp_ret, HQ. by left.
  - destruct (do_parent _ (fk_dirs _ _ _ _ _ _ _ Hs) a o Hh Ho H0) as (Hph & op & Hop & _).
    apply wp_bind, (wp_get_obj (parent o) op); [done|]. apply wp_ret, HQ. right. split; [done|]. by exists op.
Qed.

Lemma loaded_touched o d n v : typed o -> reloads o v -> lazyLoaded o = true -> touched o (loaded d n v o).
Proof.
  intros Ht Hv Hl. destruct (loaded_view o d n v Ht Hv) as ((H1 & H2 & _) & _ & _).
  split; [done|done|by destruct o|]. by rewrite Hl.
Qed.

(** The details of the object are there, whether they had to be read or not. *)
Lemma details_touched x s s1 U l Fs D a o :
  fs_but cfg x s U l Fs D -> is_object s a o -> header_ready o -> details_loaded cfg D s s1 a o ->
  only_at a s s1 /\ exists o1, is_object s1 a o1 /\ touched o o1 /\ header_ready o1 /\
    lazyLoaded o1 = false /\ hdrChunk o1 = hdrChunk o.
Proof.
  intros Hs Ho [Hlink Halias] [[Hl ->]|(Hl & d & n & v & ds' & k' & Hd & Hn & Hv & Hdr & Hk & ->)].
  { split; [done|]. by exists o. }
  pose proof (object_typed cfg x s U l Fs D a o Hs Ho) as Ht. split.
  { transitivity (with_heap (with_dev s ds') k'); [by split|apply only_at_with_obj]. }
  exists (loaded d n v o). split; [split; [apply Ho|apply lookup_insert_eq]|].
  split; [by apply loaded_touched|]. split; [|done]. split.
  - change (variantType (loaded d n v o)) with (variantType o). change (variant (loaded d n v o)) with v.
    intros Hh. unfold reloads in Hv. rewrite Hh in Hv. cbn in Hv. subst v. by apply Hlink.
  - change (variantType (loaded d n v o)) with (variantType o). intros Hy.
    destruct (Halias Hy) as [Hl2 _]. congruence.
Qed.

Lemma header_name_back x s s1 U l Fs D a o o1 m :
  fs_but cfg x s U l Fs D -> is_object s a o -> kept cfg (dev s) (dev s1) -> objId o1 = objId o ->
  hdrChunk o1 = hdrChunk o -> header_name s1 o1 m -> header_name s o m.
Proof.
  intros Hs Ho Hk Hid Hh. unfold header_name. rewrite Hid, Hh. destruct m as [n|]; [|done].
  intros (d & Hd & Hn). pose proof (valid_positive cfg Hcfg Hpg _ (proj1 Hd)) as [Hpos _].
  destruct (fk_header _ _ _ _ _ _ _ Hs a o Ho) as (d0 & Hd0 & _); [lia|]. exists d0. split; [done|].
  assert (Hd1 : holds cfg (dev s1) (hdrChunk o) d0 (objId o) 0) by (by apply (holds_kept cfg (-1) (dev s)); [|lia|]).
  by destruct (holds_inj cfg _ _ _ _ _ _ _ _ Hd1 Hd) as (<- & _ & _).
Qed.

Lemma parent_number_back s s2 a o o1 p :
  is_object s a o -> is_object s2 a o1 -> only_at a s s2 -> objId o1 = objId o -> parent o1 = parent o ->
  parent_number s2 o1 p -> parent_number s o p.
Proof.
  intros Ho Ho1 Hat Hid Hpar. unfold parent_number. rewrite Hpar. intros [?|(Hne & op & Hop & Hp)]; [by left|].
  right. split; [done|]. destruct (decide (parent o = a)) as [He|Hpa].
  - exists o. rewrite He in *. split; [done|]. destruct Hop as [_ Hop]. destruct Ho1 as [_ Ho1].
    rewrite Hop in Ho1. injection Ho1 as ->. congruence.
  - exists op. split; [|done]. by apply (only_at_object s s2 a).
Qed.

Record written s s' (a : Z) o name (r : Z) : Prop := {
  wr_only : only_at a s s';
  wr_data : data_kept cfg s s';
  wr_kept : kept_but cfg (old_chunk o) (dev s) (dev s');
  wr_gc : isDoingGC (blks (dev s')) = isDoingGC (blks (dev s));
  wr_self : exists o', is_object s' a o' /\ touched o o' /\ lazyLoaded o' = false /\
    ((r = -1 /\ hdrChunk o' = hdrChunk o /\ kept cfg (dev s) (dev s') /\ no_page cfg (0 <=? hdrChunk o) (dev s')) \/
     (0 < r /\ hdrChunk o' = r /\ ~ in_use cfg (dev s) r /\ exists d m p, holds cfg (dev s') r d (objId o) 0 /\
        header_name s o m /\ parent_number s o p /\ describes d o' (next_name name m) p))
}.

Lemma write_header_spec s U l Fs D a o name isShrink shadows :
  fs_ok cfg s U l Fs D -> is_object s a o -> header_ready o -> hdrChunk o <> 0 -> deferedFree o = false ->
  0 <= objId o < 2 ^ 18 -> match name with Some n => chars n | None => True end -> slots_ok s ->
  wp (write_header cfg a name isShrink shadows) (fun r s' =>
    fs_ok cfg s' U l Fs D /\ written s s' a o name r) s.
Proof.
  intros Hs Ho Hr Hp0 Hdf Hnum Hch Hsl. unfold write_header.
  eapply wp_seq; [by apply (CheckObjectDetailsLoaded_run cfg Hcfg Hsize 0 s U l Fs D a o)|].
  intros [] s1 Hdl. destruct (details_loaded_ok cfg Hcfg Hpg 0 s s1 U l Fs D a o Hs Ho Hdl) as (Hs1 & Hk1 & _ & _ & Hdr1).
  destruct (details_touched 0 s s1 U l Fs D a o Hs Ho Hr Hdl) as (Hat1 & o1 & Ho1 & Ht1 & Hr1 & Hl1 & Hh1).
  apply wp_bind, (wp_get_obj a o1); [apply Ho1|]. cbv zeta.
  eapply wp_seq; [apply (read_old_name_spec s1 U l Fs D a o1); [done|done|congruence]|].
  intros bs s2 [Hrd (m & Hold & Hm)]. destruct (only_read_ok cfg Hcfg Hpg 0 s1 s2 U l Fs D Hs1 Hrd) as [Hs2 _].
  pose proof (only_read_kept cfg Hcfg Hpg 0 s1 s2 U l Fs D Hs1 Hrd) as Hk2. destruct Hrd as (ds2 & -> & Hdr2).
  set (s2 := with_dev s1 ds2) in *. assert (Ho2 : is_object s2 a o1) by done.
  apply wp_bind, (wp_parent_number 0 s2 U l Fs D a o1); [done|done|]. intros p Hp.
  destruct (new_header_ok cfg Hsize o1 name bs m isShrink shadows p Hr1) as (d & Hd & Hdl2 & Hds);
    [by apply (object_typed cfg 0 s2 U l Fs D a)|done|done|].
  apply wp_bind, wp_of_option with d; [done|].
  set (o2 := o1 <| serial ::= fun x => u8 (x + 1) |>).
  apply wp_bind, (wp_mod_view cfg 0 s2 U l Fs D a o1 (fun o => o <| serial ::= fun x => u8 (x + 1) |>));
    [done|apply Ho2|by split; [|split]|done|done|].
  fold o2. intros Hs3 Hv3. set (s3 := with_obj s2 a o2) in *.
  assert (Ho3 : is_object s3 a o2) by (split; [apply Ho2|apply lookup_insert_eq]).
  apply wp_bind, (wp_get_obj a o2); [apply Ho3|].
  assert (Hnum2 : objId o2 = objId o) by apply Ht1.
  eapply wp_seq; [apply (write_page cfg Hcfg Hpg Haware Halign s3 U l Fs D d (header_tags o2 d)); [apply Hdev|done| |done]|].
  { unfold fits. destruct (header_tags_heads o2 d) as (-> & -> & ->). rewrite Hnum2.
    split; [done|]. split; [lia|]. by split; [intros []|]. }
  intros new s4 (ds4 & -> & Hkp4 & Hk4 & Hgc4 & _ & Hnew). set (s4 := with_dev s3 ds4) in *.
  assert (Hat4 : only_at a s s4).
  { transitivity s1; [done|]. transitivity s2; [apply only_at_dev|]. transitivity s3; [apply only_at_with_obj|apply only_at_dev]. }
  assert (Hdk4 : data_kept cfg s s4).
  { eapply data_kept_trans; [exact Hk1|]. eapply data_kept_trans; [exact Hk2|].
    eapply data_kept_trans; [by apply view_data_kept|exact Hk4]. }
  assert (Hkept3 : kept cfg (dev s) (dev s3)) by (eapply kept_but_trans; [apply Hdr1|apply Hdr2]).
  assert (Hkept4 : kept cfg (dev s) ds4) by (by eapply kept_but_trans).
  assert (Hgc : isDoingGC (blks ds4) = isDoingGC (blks (dev s))).
  { rewrite Hgc4. change (dev s3) with ds2. rewrite (dr_gc _ _ _ _ Hdr2). apply Hdr1. }
  assert (Ho4 : is_object s4 a o2) by done.
  assert (Ht2 : touched o o2) by (etransitivity; [exact Ht1|]; split; try done; by destruct o1).
  assert (Hsl4 : slots_ok s4) by (unfold slots_ok; by rewrite (oa_caches _ _ _ Hat4)).
  destruct Hnew as [(-> & Hnp & Hs4)|(Hpos & Hs4 & Hfree & HnD & Hholds)].
  - apply wp_bind, wp_when. change (0 <=? -1) with false. cbv iota. apply wp_ret. split; [done|].
    split; [done|done|by apply (kept_any cfg Hcfg)|done|]. exists o2. split; [done|]. split; [done|].
    split; [done|]. left. split; [done|]. split; [exact Hh1|]. split; [exact Hkept4|]. by rewrite <- Hh1.
  - destruct (header_tags_heads o2 d) as (E1 & E2 & _). rewrite E1, E2 in Hholds.
    assert (Hh2 : hdrChunk o2 = hdrChunk o) by exact Hh1.
    assert (Hpn : hdrChunk o2 <> new).
    { intros He. apply Hfree. rewrite <- He.
      destruct (fk_header _ _ _ _ _ _ _ Hs3 a o2 Ho3) as (d0 & Hd0 & _); [lia|]. apply Hd0. }
    replace (hdrChunk o1) with (hdrChunk o2) by (by rewrite Hh1, Hh2).
    eapply wp_seq; [apply (install_header_spec new s4 U l Fs D a o2 d isShrink); try done|].
    { exact (ds_ok _ _ _ _ Hds). }
    { lia. }
    { rewrite <- Hdf. apply Ht2. }
    intros [] s5 (Hs5 & Hk5 & Hat5 & Hkb5 & Hgc5 & dt & Ho5). apply wp_ret. split; [done|].
    assert (Hold5 : old_chunk o2 = old_chunk o) by (unfold old_chunk; by rewrite Hh2). rewrite Hold5 in Hkb5.
    split.
    + by transitivity s4.
    + by eapply data_kept_trans.
    + eapply kept_but_trans; [exact (kept_any cfg Hcfg _ _ _ Hkept4)|exact Hkb5].
    + by rewrite Hgc5.
    + exists (o2 <| hdrChunk := new |> <| dirty := dt |>). split; [done|].
      split; [transitivity o2; [done|]; split; try done; by destruct o2|]. split; [done|]. right.
      split; [done|]. split; [done|]. split.
      { intros Hu. apply Hfree. apply (kb_chunks _ _ _ _ Hkept3 new); [apply Hholds|lia|done]. }
      exists d, m, p. split.
      { rewrite <- Hnum2. apply (holds_kept cfg (old_chunk o) (dev s4)); [done| |done].
        unfold old_chunk. destruct (Z.ltb_spec 0 (hdrChunk o)); lia. }
      split; [apply (header_name_back 0 s s1 U l Fs D a o o1 m Hs Ho (dr_kept _ _ _ _ Hdr1)); [by apply Ht1|done|done]|].
      split; [apply (parent_number_back s s2 a o o1 p Ho Ho2); [transitivity s1; [done|apply only_at_dev]|apply Ht1|apply Ht1|done]|]. destruct Hds. by split.
Qed.

(** ** After a garbage collection *)

Lemma kept_ready ds ds' o o' : object_kept cfg ds ds' o o' -> header_ready o -> header_ready o'.
Proof.
  intros Hk [Hlink Halias]. split; rewrite (ok_type _ _ _ _ _ Hk).
  - intros Ht. destruct (Hlink Ht) as (e & id & Hv). exists e, id.
    pose proof (ok_variant _ _ _ _ _ Hk) as Hkv. rewrite Hv, Ht in Hkv. by apply Hkv.
  - intros Ht. destruct (Halias Ht) as (Hl & p & t & Hv & Hp). split.
    + destruct (lazyLoaded o') eqn:Hl'; [|done]. by rewrite (ok_lazy _ _ _ _ _ Hk Hl') in Hl.
    + destruct (ok_loaded _ _ _ _ _ Hk Hl) as [Hkv _]. rewrite Hv in Hkv. by exists p, t.
Qed.

(** The name is in the part of the header that a collection copies. *)
Lemma name_in_take d d' n : take 504 d' = take 504 d -> name_in d n -> name_in d' n.
Proof.
  unfold name_in, get_bytes. intros He. replace (take (f_size oh_name) (drop (f_off oh_name) d'))
    with (take (f_size oh_name) (drop (f_off oh_name) d)); [done|].
  change (f_size oh_name) with 256%nat. change (f_off oh_name) with 10%nat.
  assert (H : forall x : list Z, take 256 (drop 10 x) = take 256 (drop 10 (take 504 x))).
  { intros x. rewrite skipn_firstn_comm, take_take. by replace (256 `min` (504 - 10))%nat with 256%nat by lia. }
  by rewrite H, <- He, <- H.
Qed.

Lemma kept_name x s s1 U l Fs D a o o1 m :
  fs_but cfg x s U l Fs D -> is_object s a o -> object_kept cfg (dev s) (dev s1) o o1 -> hdrChunk o <> 0 ->
  header_name s1 o1 m -> header_name s o m.
Proof.
  intros Hs Ho Hk Hp0. unfold header_name. destruct m as [n|].
  - intros (d & Hd & Hn). pose proof (valid_positive cfg Hcfg Hpg _ (proj1 Hd)) as [Hpos _].
    assert (Hpo : 0 < hdrChunk o).
    { destruct (Z.ltb_spec 0 (hdrChunk o)); [done|]. rewrite (ok_none _ _ _ _ _ Hk) in Hpos by done. lia. }
    destruct (fk_header _ _ _ _ _ _ _ Hs a o Ho Hpo) as (d0 & Hd0 & _). exists d0. split; [done|].
    destruct (ok_header _ _ _ _ _ Hk Hpo) as [_ Hc]. destruct Hd0 as (_ & _ & _ & t0 & Hc0 & _).
    destruct (Hc d0 t0 Hc0) as (d' & t' & Hc' & Ht'). destruct Hd as (_ & _ & _ & t & Hct & _).
    rewrite Hct in Hc'. injection Hc' as <- <-. by apply (name_in_take d).
  - destruct (Z.ltb_spec 0 (hdrChunk o)); [|lia]. intros Hneg. destruct (ok_header _ _ _ _ _ Hk) as [? _]; [done|lia].
Qed.

Lemma kept_parent s s1 o o1 p :
  objects_kept cfg s s1 -> object_kept cfg (dev s) (dev s1) o o1 -> parent_number s1 o1 p -> parent_number s o p.
Proof.
  intros Hks Hk. unfold parent_number. rewrite (ok_parent _ _ _ _ _ Hk). intros [?|(Hne & op & Hop & Hp)]; [by left|].
  right. split; [done|]. destruct (kp_old _ _ _ Hks _ op Hop) as (op0 & Hop0 & Hid & _). exists op0. split; [done|congruence].
Qed.

(** The same object: where it is in the tree, and what is in memory of it. *)
Record same_object o o' : Prop := {
  so_id : objId o' = objId o;
  so_type : variantType o' = variantType o;
  so_deleted : deleted o' = deleted o;
  so_parent : parent o' = parent o;
  so_loaded : lazyLoaded o = false -> attributes o' = attributes o /\ shortName o' = shortName o /\ nameSum o' = nameSum o
}.

Lemma kept_same_object ds ds' o o' : object_kept cfg ds ds' o o' -> same_object o o'.
Proof.
  intros Hk. split; [apply Hk..|]. intros Hl. destruct (ok_loaded _ _ _ _ _ Hk Hl) as [_ ->]. done.
Qed.

Lemma touched_same_object o o' : touched o o' -> same_object o o'.
Proof. intros [[] [] _ Hl]. split; try done. intros H. destruct (Hl H) as (? & ? & ? & _). done. Qed.

Lemma same_object_trans o1 o2 o3 : (lazyLoaded o1 = false -> lazyLoaded o2 = false) ->
  same_object o1 o2 -> same_object o2 o3 -> same_object o1 o3.
Proof.
  intros Hl [A1 A2 A3 A4 A5] [B1 B2 B3 B4 B5]. split; [congruence..|]. intros H1.
  destruct (A5 H1) as (? & ? & ?). destruct (B5 (Hl H1)) as (? & ? & ?). repeat split; congruence.
Qed.

(** The object has the header it had: on the same page, or on the one to which a collection
    copied all of it but the marks at its end. *)
Definition header_stays (ds ds' : State N) o o' : Prop :=
  if 0 <? hdrChunk o then exists d d', holds cfg ds (hdrChunk o) d (objId o) 0 /\
    holds cfg ds' (hdrChunk o') d' (objId o) 0 /\ take 504 d' = take 504 d
  else hdrChunk o' = hdrChunk o.

(** The outcome of writing a header, by what the object was before. *)
Definition header_outcome s s' (a : Z) o name (r : Z) : Prop :=
  exists o', is_object s' a o' /\ same_object o o' /\
    ((r = -1 /\ no_page cfg (0 <=? hdrChunk o) (dev s') /\ header_stays (dev s) (dev s') o o') \/
     (0 < r /\ hdrChunk o' = r /\ exists d m p, holds cfg (dev s') r d (objId o) 0 /\
      header_name s o m /\ parent_number s o p /\ describes d o' (next_name name m) p)).

Lemma kept_header_stays s s1 s' U l Fs D U1 l1 Fs1 D1 a o o1 o2 :
  fs_ok cfg s U l Fs D -> fs_ok cfg s1 U1 l1 Fs1 D1 -> is_object s a o -> is_object s1 a o1 ->
  object_kept cfg (dev s) (dev s1) o o1 -> kept cfg (dev s1) (dev s') -> hdrChunk o2 = hdrChunk o1 ->
  header_stays (dev s) (dev s') o o2.
Proof.
  intros Hs Hs1 Ho Ho1 Hok Hk Hh. unfold header_stays. rewrite Hh. destruct (Z.ltb_spec 0 (hdrChunk o)) as [Hp|Hp].
  - destruct (fk_header _ _ _ _ _ _ _ Hs a o Ho Hp) as (d & Hd & _). pose proof Hd as (_ & _ & _ & t & Hc & _).
    destruct (ok_header _ _ _ _ _ Hok Hp) as [Hp1 Hcp]. destruct (Hcp d t Hc) as (d' & t' & Hc' & Htake).
    destruct (fk_header _ _ _ _ _ _ _ Hs1 a o1 Ho1 Hp1) as (d1 & Hd1 & _). pose proof Hd1 as (_ & _ & _ & t1 & Hc1 & _).
    rewrite Hc' in Hc1. injection Hc1 as <- <-. exists d, d'. split; [done|]. split; [|done].
    rewrite <- (ok_id _ _ _ _ _ Hok). apply (holds_kept cfg (-1) (dev s1)); [done|lia|done].
  - exact (ok_none _ _ _ _ _ Hok Hp).
Qed.

Lemma UpdateObjectHeader_spec collect ready `{!Collector cfg collect ready} s U l Fs D a o name force isShrink shadows :
  ready s -> fs_ok cfg s U l Fs D -> is_object s a o -> dead o = false -> header_ready o ->
  hdrChunk o <> 0 -> 0 <= objId o < 2 ^ 18 -> match name with Some n => chars n | None => True end ->
  slots_ok s -> negb (fake o) || force = true ->
  wp (yaffs_UpdateObjectHeader cfg collect a name force isShrink shadows) (fun r s' =>
    (exists U' l' Fs' D', fs_ok cfg s' U' l' Fs' D') /\ data_kept cfg s s' /\ spent 0 s s' /\
    header_outcome s s' a o name r /\
    exists s1 o1, objects_kept cfg s s1 /\ is_object s1 a o1 /\ object_kept cfg (dev s) (dev s1) o o1 /\
      written s1 s' a o1 name r) s.
Proof.
  intros Hrd Hs Ho Hlive Hr Hp0 Hnum Hch Hsl Hff. unfold yaffs_UpdateObjectHeader.
  apply wp_bind, (wp_get_obj a o); [apply Ho|]. rewrite Hff.
  eapply wp_seq; [by eapply collector_ok|].
  intros _ s1 (U1 & l1 & Fs1 & D1 & Hs1 & Hsp1 & Hk1 & Hko).
  apply orb_false_iff in Hlive as [Hlive Hdf]. destruct (kp_live _ _ _ Hko a o Ho Hlive) as (o1 & Ho1 & Hok).
  assert (Hsl1 : slots_ok s1) by (unfold slots_ok; destruct Hsp1 as [_ ->]; done).
  assert (Hp1 : hdrChunk o1 <> 0).
  { destruct (Z.ltb_spec 0 (hdrChunk o)); [|by rewrite (ok_none _ _ _ _ _ Hok)].
    destruct (ok_header _ _ _ _ _ Hok); lia. }
  eapply wp_mono; [apply (write_header_spec s1 U1 l1 Fs1 D1 a o1 name isShrink shadows Hs1 Ho1); try done|].
  { by eapply kept_ready. }
  { by rewrite (ok_freed _ _ _ _ _ Hok). }
  { by rewrite (ok_id _ _ _ _ _ Hok). }
  intros r s' [Hs' Hw]. pose proof Hw as [Hat Hdk _ _ (o2 & Ho2 & Ht & Hl2 & Hres)].
  split; [by exists U1, l1, Fs1, D1|]. split; [by eapply data_kept_trans|].
  split; [apply (spent_trans 0 0 s s1 s'); [done|by eapply only_at_spent]|].
  split; [|by exists s1, o1]. exists o2. split; [done|]. split.
  { apply (same_object_trans o o1 o2); [|by eapply kept_same_object|by apply touched_same_object].
    intros Hl. destruct (lazyLoaded o1) eqn:E; [|done]. by rewrite (ok_lazy _ _ _ _ _ Hok E) in Hl. }
  destruct Hres as [(-> & Hh2 & Hkp & Hnp)|(Hpos & Hh2 & _ & d & m & p & Hd & Hm & Hp & Hds)]; [left|right].
  { split; [done|]. split; [|by apply (kept_header_stays s s1 s' U l Fs D U1 l1 Fs1 D1 a o o1)].
    assert (E : (0 <=? hdrChunk o) = (0 <=? hdrChunk o1)); [|by rewrite E].
    destruct (Z.ltb_spec 0 (hdrChunk o)) as [Hp|Hp].
    - destruct (ok_header _ _ _ _ _ Hok Hp) as [Hp2 _]. by rewrite !(proj2 (Z.leb_le _ _)) by lia.
    - by rewrite (ok_none _ _ _ _ _ Hok Hp). }
  split; [done|]. split; [done|]. exists d, m, p. split; [by rewrite <- (ok_id _ _ _ _ _ Hok)|].
  split; [by apply (kept_name 0 s s1 U l Fs D a o o1)|]. split; [by apply (kept_parent s s1 o o1)|done].
Qed.
End writing.

Section properties.
Context {N K : Type} {nd : NandDriver N} `{!Kmalloc K} `{!KmallocLaws K} `{!Clock K} (cfg : Config).
Context {nf : NandFrame nd cfg} {nm : NandMedium nd cfg} {nb : NandBlank nd cfg}.
Implicit Types (s : FS N K) (o : Object).

(** C10. Updating the header of an object, with the garbage collection it starts with: either
    the object's header is on a new page, and it says the new name (cut to 255 characters; the
    old name if none was given), the number of the parent, the type and the attributes that are
    in memory; or the function returns -1, as no page was left that it may use or the write
    failed as often as is allowed, and the object still has the header it had, on its page or on
    the one a collection copied it to (only its serial number may be another).  In both cases the
    object has its number, type, parent, attributes and name in memory, no file loses data and
    the books of the device are kept. *)
Theorem UpdateObjectHeader_describes collect ready `{!Collector cfg collect ready} s U l Fs D a o name
    force isShrink shadows (Hdev : device_ok cfg) (Hsize : 512 <= nDataBytesPerChunk cfg) (Hrd : ready s)
    (Hs : fs_ok cfg s U l Fs D) (Ho : is_object s a o) (Hlive : dead o = false) (Hr : header_ready o)
    (Hp0 : hdrChunk o <> 0) (Hnum : 0 <= objId o < 2 ^ 18)
    (Hch : match name with Some n => chars n | None => True end)
    (Hsl : slots_ok cfg s) (Hff : negb (fake o) || force = true) :
  wp (yaffs_UpdateObjectHeader cfg collect a name force isShrink shadows) (fun r s' =>
    (exists U' l' Fs' D', fs_ok cfg s' U' l' Fs' D') /\ data_kept cfg s s' /\
    header_outcome cfg s s' a o name r) s.
Proof.
  eapply wp_mono; [by apply (UpdateObjectHeader_spec cfg Hdev Hsize collect ready s U l Fs D a o)|].
  by intros r s' (H1 & H2 & _ & H3 & _).
Qed.
End properties.

(** ** The file of the sample device gets its first header *)

Definition sample_name : list Z := [104; 101; 97; 100].

Lemma cached_file : exists U l Fs o f, fs_ok sample_cfg cached_fs U l Fs ∅ /\ is_file cached_fs the_file o f /\
  objId o = 257 /\ hdrChunk o = -1 /\ slots_ok sample_cfg cached_fs /\ length l = 99%nat.
Proof.
  destruct file_fs_ok as (U & l & Fs & o & f & Hs & Hf & Hid & Hl & _ & Hh & _). exists U, l, Fs, o, f.
  split; [by apply fs_but_slots|]. split; [exact Hf|]. split; [exact Hid|]. split; [exact Hh|]. split; [reflexivity|exact Hl].
Qed.

Lemma UpdateObjectHeader_describes_witness : exists o,
  is_object cached_fs the_file o /\ objId o = 257 /\
  wp (yaffs_UpdateObjectHeader sample_cfg (mret YAFFS_OK) the_file (Some sample_name) true false 0) (fun r s' =>
    (exists U' l' Fs' D', fs_ok sample_cfg s' U' l' Fs' D') /\ data_kept sample_cfg cached_fs s' /\
    header_outcome sample_cfg cached_fs s' the_file o (Some sample_name) r) cached_fs.
Proof.
  destruct cached_file as (U & l & Fs & o & f & Hs & Hf & Hid & Hh & Hsl & _).
  pose proof (file_typed sample_cfg 0 cached_fs U l Fs ∅ the_file o f Hs (proj1 Hf)) as Hty.
  exists o. split; [exact (proj1 (proj1 Hf))|]. split; [exact Hid|].
  apply (UpdateObjectHeader_describes sample_cfg (mret YAFFS_OK) (fun _ => True) cached_fs U l Fs ∅ the_file o
    (Some sample_name) true false 0 sample_device (Z.le_refl 512) I Hs (proj1 (proj1 Hf)) (proj2 Hf)).
  - split; rewrite Hty; intros H; discriminate H.
  - rewrite Hh. discriminate.
  - rewrite Hid. lia.
  - repeat constructor; lia.
  - exact Hsl.
  - apply orb_true_r.
Defined.
