(* ===== verification/Lookup.v ===== *)
(** * Names of objects and searching directories ([yaffs_GetObjectName], [yaffs_FindObjectByName])

    The name of an object is the one in its header on flash; what memory keeps of it, a
    checksum and a short name, only saves reading.  A search of a directory returns the first
    child with the name. *)
From S2P Require Import Prelude Monad ObjHeader Tags Device Nand Sim BlockInv Blocks Medium Blank Tnode Tree Objects File Steps Cache Names Headers.

(** ** Strings *)

Lemma digits_chars fuel n : 0 <= n -> chars (digits fuel n).
Proof.
  revert n. induction fuel as [|fuel IH]; intros n Hn; [constructor|]. cbn [digits].
  pose proof (Z.mod_pos_bound n 10 ltac:(lia)). apply Forall_app. split.
  - destruct (n <? 10); [constructor|]. apply IH. apply Z.div_pos; lia.
  - constructor; [lia|constructor].
Qed.

Lemma print_int_chars n : chars (print_int n).
Proof.
  unfold print_int. destruct (Z.ltb_spec n 0).
  - constructor; [lia|]. apply digits_chars. lia.
  - by apply digits_chars.
Qed.

(** The checksum counts at most 126 characters. *)
Lemma CalcNameSum_loop_take k n i sum : 1 <= i -> 127 - i <= Z.of_nat k -> Z.of_nat k < 60000 ->
  CalcNameSum_loop (take k n) i sum = CalcNameSum_loop n i sum.
Proof.
  revert n i sum. induction k as [|k IH]; intros n i sum Hi Hk Hm.
  - destruct n as [|c n]; [done|]. simpl. change (YAFFS_MAX_NAME_LENGTH / 2) with 127.
    by rewrite (proj2 (Z.ltb_ge i 127)) by lia.
  - destruct n as [|c n]; [done|]. cbn [take CalcNameSum_loop]. change (YAFFS_MAX_NAME_LENGTH / 2) with 127.
    destruct (Z.ltb_spec i 127); [|done]. rewrite (wrap_small 16 (i + 1)) by lia. apply IH; lia.
Qed.

Lemma CalcNameSum_take n : yaffs_CalcNameSum (Some (take 254 n)) = yaffs_CalcNameSum (Some n).
Proof. by apply CalcNameSum_loop_take. Qed.

(** The comparison of the search: names of 255 characters and more match nothing. *)
Lemma strncmp_found name n : strncmp_eq (Z.to_nat YAFFS_MAX_NAME_LENGTH) name (take 254 n) = true <->
  name = take 254 n.
Proof.
  unfold strncmp_eq. rewrite bool_decide_eq_true. change (Z.to_nat YAFFS_MAX_NAME_LENGTH) with 255%nat.
  rewrite (firstn_all2 (take 254 n)) by (rewrite length_take; lia). split.
  - intros H. rewrite <- H. symmetry. apply firstn_all2.
    assert (length (take 255 name) <= 254)%nat by (rewrite H, length_take; lia).
    rewrite length_take in H0. lia.
  - intros ->. apply firstn_all2. rewrite length_take. lia.
Qed.

Section lookup.
Context {N K : Type} {nd : NandDriver N} `{!Kmalloc K} `{!KmallocLaws K} `{!Clock K} (cfg : Config).
Context {nf : NandFrame nd cfg} {nm : NandMedium nd cfg} {nb : NandBlank nd cfg}.
Context (Hdev : device_ok cfg) (Hsize : 512 <= nDataBytesPerChunk cfg).
Implicit Types (s : FS N K) (o : Object) (f : FileStructure).

Local Abbreviation Hcfg := (dv_cfg cfg Hdev).
Local Abbreviation Hpg := (dv_plain cfg Hdev).

(** The name of an object. *)
Definition object_name (ds : State N) o (n : list Z) : Prop :=
  if objId o =? YAFFS_OBJECTID_LOSTNFOUND then n = YAFFS_LOSTNFOUND_NAME
  else if hdrChunk o <=? 0 then n = YAFFS_LOSTNFOUND_PREFIX ++ print_int (i32 (objId o))
  else exists d, holds cfg ds (hdrChunk o) d (objId o) 0 /\ name_in d n.

(** What memory has of the name of an object is what its header says. *)
Definition name_agrees (ds : State N) o : Prop :=
  lazyLoaded o = false -> forall d n, holds cfg ds (hdrChunk o) d (objId o) 0 -> name_in d n ->
    nameSum o = yaffs_CalcNameSum (Some n) /\ shortName o = short_name n.

Lemma holds_read D ds ds' c d num id : dev_read cfg D ds ds' -> holds cfg ds' c d num id <-> holds cfg ds c d num id.
Proof.
  intros [_ _ _ Hb Hc]. unfold holds, in_use. by rewrite Hb, Hc.
Qed.

Lemma object_name_read D ds ds' o n : dev_read cfg D ds ds' -> object_name ds' o n <-> object_name ds o n.
Proof.
  intros Hr. unfold object_name. destruct (_ =? _); [done|]. destruct (_ <=? _); [done|].
  split; intros (d & Hd & Hn); exists d; (split; [by apply (holds_read D ds ds')|done]).
Qed.

Lemma name_agrees_read D ds ds' o : dev_read cfg D ds ds' -> name_agrees ds o -> name_agrees ds' o.
Proof. intros Hr Ha Hl d n Hd. apply (Ha Hl d n). by apply (holds_read D ds ds'). Qed.

Lemma object_name_same ds o o' n : objId o' = objId o -> hdrChunk o' = hdrChunk o ->
  object_name ds o' n <-> object_name ds o n.
Proof. intros Hi Hh. unfold object_name. by rewrite Hi, Hh. Qed.

Lemma name_in_unique d n n' : name_in d n -> name_in d n' -> n' = n.
Proof. unfold name_in. intros H. rewrite H. by intros [= ->]. Qed.

Lemma name_in_chars d n : name_in d n -> chars n.
Proof. unfold name_in. intros H. apply c_str_inv in H as (m & _ & Hc). exact Hc. Qed.

Lemma object_name_unique ds o n n' : object_name ds o n -> object_name ds o n' -> n' = n.
Proof.
  unfold object_name. destruct (_ =? _); [congruence|]. destruct (_ <=? _); [congruence|].
  intros (d & Hd & Hn) (d' & Hd' & Hn'). destruct (holds_inj cfg _ _ _ _ _ _ _ _ Hd Hd') as (-> & _).
  by apply (name_in_unique d).
Qed.

Lemma object_name_chars ds o n : object_name ds o n -> chars n.
Proof.
  unfold object_name. destruct (_ =? _); [intros ->; repeat constructor; lia|].
  destruct (_ <=? _); [intros ->|by intros (d & _ & Hn); eapply name_in_chars].
  apply Forall_app. split; [repeat constructor; lia|apply print_int_chars].
Qed.

(** Every object has a name. *)
Lemma object_named s U l Fs D a o : fs_ok cfg s U l Fs D -> is_object s a o -> exists n, object_name (dev s) o n.
Proof.
  intros Hs Ho. unfold object_name. destruct (_ =? _); [by eexists|]. destruct (Z.leb_spec (hdrChunk o) 0); [by eexists|].
  destruct (fk_header _ _ _ _ _ _ _ Hs a o Ho) as (d & Hd & [n Hn] & _); [done|]. by exists n, d.
Qed.

(** ** Reading a name *)

Lemma name_copy_c_str buffSize n : chars n -> c_str (name_copy buffSize n) = Some (take (buffSize - 1) n).
Proof. apply strncpy_c_str. Qed.

Lemma pad_c_str n k : chars n -> (length n < k)%nat -> c_str (n ++ replicate (k - length n) 0) = Some n.
Proof.
  intros Hc Hk. replace (k - length n)%nat with (S (k - length n - 1)) by lia. by apply c_str_chars.
Qed.

(** The part of [yaffs_GetObjectName] that follows the loading of the details. *)
Lemma GetObjectName_loaded s U l Fs D a o n buffSize :
  fs_ok cfg s U l Fs D -> is_object s a o -> lazyLoaded o = false -> name_agrees (dev s) o ->
  object_name (dev s) o n -> (15 < buffSize)%nat ->
  wp (yaffs_GetObjectName cfg a buffSize) (fun r s' => only_read cfg D s s' /\
    fst r = Z.of_nat (length (take (buffSize - 1) n)) /\ c_str (snd r) = Some (take (buffSize - 1) n)) s.
Proof.
  intros Hs Ho Hl Hag Hn Hb. pose proof (object_name_chars _ _ _ Hn) as Hch. unfold yaffs_GetObjectName.
  apply (wp_seq _ _ (fun _ s' => s' = s)).
  { unfold yaffs_CheckObjectDetailsLoaded. apply wp_bind, (wp_get_obj a o); [apply Ho|]. by rewrite Hl. }
  intros [] s0 ->. apply wp_bind, (wp_get_obj a o); [apply Ho|].
  apply (wp_seq _ _ (fun buf s' => only_read cfg D s s' /\ c_str buf = Some (take (buffSize - 1) n))).
  2: { intros buf s1 [Hr Hc]. apply wp_bind, wp_of_option with (take (buffSize - 1) n); [done|]. by apply wp_ret. }
  assert (Hrefl : only_read cfg D s s) by apply only_read_refl, Hs.
  unfold object_name in Hn. destruct (objId o =? YAFFS_OBJECTID_LOSTNFOUND).
  { subst n. apply wp_ret. split; [done|]. by apply name_copy_c_str. }
  destruct (Z.leb_spec (hdrChunk o) 0) as [Hh|Hh].
  { subst n. apply wp_ret. split; [done|]. by apply name_copy_c_str. }
  destruct Hn as (d & Hd & Hn). destruct (Hag Hl d n Hd Hn) as [_ Hsn].
  destruct (bool_decide_reflect (shortName o = [])) as [He|Hne]; cbn [negb].
  - rewrite (proj2 (Z.leb_le 0 (hdrChunk o))) by lia. apply wp_bind, wp_bind, wp_on_dev.
    eapply wp_mono; [apply (read_held cfg Hcfg D (dev s) (hdrChunk o) d (objId o) 0); [apply Hs|done|]|].
    { intros b [= <-]. rewrite length_replicate. destruct Hcfg. lia. }
    intros [[r b] t'] ds' (Hdr & Hb' & _). cbn [fst snd] in *. rewrite Hb'. cbn [fmap option_fmap option_map].
    apply wp_of_option with d; [done|]. apply wp_bind, wp_of_option with d; [apply (as_header_ok cfg Hsize), Hd|].
    apply wp_bind, wp_of_option with (take (buffSize - 1) n); [by apply strn_c_str, c_str_field|].
    apply wp_ret. split; [by exists ds'|]. rewrite name_copy_c_str by by apply Forall_take.
    by rewrite take_take, Nat.min_id.
  - assert (Hs15 : shortName o = n /\ (length n <= 15)%nat).
    { rewrite Hsn in Hne |- *. unfold short_name, YAFFS_SHORT_NAME_LENGTH in *.
      destruct (Z.leb_spec (Z.of_nat (length n)) 15); [split; [done|lia]|done]. }
    destruct Hs15 as [-> Hlen]. rewrite (proj2 (Nat.ltb_lt _ _)) by lia. apply wp_ret. split; [done|].
    rewrite pad_c_str by (done || lia). by rewrite firstn_all2 by lia.
Qed.

(** The details of a child are there, and its name agrees. *)
Lemma loaded_agrees ds o d n v : holds cfg ds (hdrChunk o) d (objId o) 0 -> name_in d n ->
  name_agrees ds (loaded d n v o).
Proof.
  intros Hd Hn _ d' n' Hd' Hn'. destruct (holds_inj cfg _ _ _ _ _ _ _ _ Hd Hd') as (-> & _).
  by rewrite (name_in_unique d n n').
Qed.

(** ** Searching *)

(** Details of objects may have been loaded, and nothing else happened. *)
Record searched D s s' : Prop := {
  se_view : view (with_dev s (dev s')) s';
  se_read : dev_read cfg D (dev s) (dev s');
  se_agrees : forall a o o', is_object s a o -> is_object s' a o' -> name_agrees (dev s) o -> name_agrees (dev s') o';
  se_spent : spent 0 s s'
}.

Lemma only_read_searched D s s' : only_read cfg D s s' -> searched D s s'.
Proof.
  intros (ds' & -> & Hr). split; [by apply objects_changed_refl|exact Hr| |by apply spent_same].
  intros a o o' [_ Ho] [_ Ho'] Ha. change (objects (obs s) !! a = Some o') in Ho'.
  rewrite Ho in Ho'. injection Ho' as <-. by eapply name_agrees_read.
Qed.

Lemma searched_refl D s : flash_ok cfg D (dev s) -> searched D s s.
Proof. intros H. by apply only_read_searched, only_read_refl. Qed.

Lemma dev_read_trans D d1 d2 d3 : dev_read cfg D d1 d2 -> dev_read cfg D d2 d3 -> dev_read cfg D d1 d3.
Proof.
  intros [M2 K2 G2 B2 C2] [M3 K3 G3 B3 C3]. split; [done|by eapply kept_but_trans|congruence..|].
  intros c. by rewrite C3, C2.
Qed.

Lemma searched_trans D s1 s2 s3 : searched D s1 s2 -> searched D s2 s3 -> searched D s1 s3.
Proof.
  intros [V1 R1 A1 S1] [V2 R2 A2 S2]. split.
  - destruct V1 as [_ T1 H1 (E1 & E2 & E3 & E4) F1 B1], V2 as [_ T2 H2 (E5 & E6 & E7 & E8) F2 B2].
    split; [done|by etransitivity|intros a; by rewrite H2, H1|repeat split; by etransitivity| |].
    + intros a o Ho. destruct (F1 a o Ho) as (o2 & Ho2 & V2). destruct (F2 a o2 Ho2) as (o3 & Ho3 & V3).
      exists o3. split; [done|by transitivity o2].
    + intros a o Ho. destruct (B2 a o Ho) as (o2 & Ho2 & V2). destruct (B1 a o2 Ho2) as (o1 & Ho1 & V1).
      exists o1. split; [done|by transitivity o2].
  - by eapply dev_read_trans.
  - intros a o o3 Ho Ho3 Ha. destruct (oc_fwd _ _ _ V1 a o Ho) as (o2 & Ho2 & _).
    apply (A2 a o2 o3 Ho2 Ho3). by apply (A1 a o o2).
  - by apply (spent_trans 0 0 s1 s2 s3).
Qed.

Lemma details_searched s s' U l Fs D a o : fs_ok cfg s U l Fs D -> is_object s a o ->
  details_loaded cfg D s s' a o -> fs_ok cfg s' U l Fs D /\ data_kept cfg s s' /\ searched D s s' /\
  exists o', is_object s' a o' /\ lazyLoaded o' = false /\ same_view o o'.
Proof.
  intros Hs Ho Hd. destruct (details_loaded_ok cfg Hcfg Hpg 0 s s' U l Fs D a o Hs Ho Hd) as (Hs' & Hk & Hsp & Hv & Hr).
  split; [done|]. split; [done|]. assert (Hself : exists o', is_object s' a o' /\ lazyLoaded o' = false /\ same_view o o' /\
    (o' = o \/ name_agrees (dev s') o')).
  { destruct Hd as [[Hl ->]|(Hl & d & n & v & ds' & k' & Hhd & Hn & Hrl & Hdr & Hkk & ->)].
    - exists o. repeat (split; [done|]). by left.
    - destruct (loaded_view o d n v (object_typed cfg 0 s U l Fs D a o Hs Ho) Hrl) as (Hvw & _).
      exists (loaded d n v o). split; [split; [apply Ho|apply lookup_insert_eq]|]. split; [done|]. split; [done|].
      right. apply (name_agrees_read D (dev s)); [done|]. by apply loaded_agrees. }
  destruct Hself as (o' & Ho' & Hl' & Hvw & Hag). split; [|by exists o'].
  split; [done|done| |done]. intros x ox ox' Hx Hx' Hax. destruct (decide (x = a)) as [->|Hne].
  - destruct Hx as [_ Hx], Hx' as [_ Hx'], Ho as [_ Ho], Ho' as [_ Ho'].
    assert (ox = o) as -> by congruence. assert (ox' = o') as -> by congruence.
    destruct Hag as [->|?]; [|done]. by apply (name_agrees_read D (dev s)).
  - assert (ox' = ox) as ->; [|by apply (name_agrees_read D (dev s))].
    destruct Hd as [[_ ->]|(_ & d & n & v & ds' & k' & _ & _ & _ & _ & _ & ->)].
    + destruct Hx as [_ Hx], Hx' as [_ Hx']. congruence.
    + destruct Hx as [_ Hx], Hx' as [_ Hx'].
      change (objects (obs (with_obj (with_heap (with_dev s ds') k') a (loaded d n v o)))) with
        (<[a := loaded d n v o]> (objects (obs s))) in Hx'. rewrite lookup_insert_ne in Hx' by done. congruence.
Qed.

(** The object has the name that is searched for. *)
Definition hit o (name n : list Z) : bool :=
  if objId o =? YAFFS_OBJECTID_LOSTNFOUND then bool_decide (name = n) else bool_decide (name = take 254 n).
Definition hits s (name : list Z) (c : Z) : Prop :=
  exists o n, is_object s c o /\ object_name (dev s) o n /\ hit o name n = true.

(** [r] is the first of the children [cs] with the name, or 0. *)
Definition first_hit s (name : list Z) (cs : list Z) (r : option Z) : Prop :=
  match r with
  | Some c => exists pre post, cs = pre ++ c :: post /\ hits s name c /\ Forall (fun x => ~ hits s name x) pre
  | None => Forall (fun x => ~ hits s name x) cs
  end.

Lemma hits_searched D s s' name c : searched D s s' -> hits s' name c <-> hits s name c.
Proof.
  intros [[_ _ _ _ Hf Hb] Hr _ _]. split.
  - intros (o' & n & Ho' & Hn & Hh). destruct (Hb c o' Ho') as (o & Ho & Hvw & _ & Hhd).
    exists o, n. split; [done|]. unfold hit in *. rewrite (vd_id _ _ Hvw) in Hh. split; [|done].
    apply (object_name_read D (dev s) (dev s')); [done|]. by apply (object_name_same (dev s') o o'); [apply Hvw|..].
  - intros (o & n & Ho & Hn & Hh). destruct (Hf c o Ho) as (o' & Ho' & Hvw & _ & Hhd).
    exists o', n. split; [done|]. unfold hit in *. rewrite (vd_id _ _ Hvw). split; [|done].
    apply (object_name_same (dev s') o o'); [apply Hvw|done|]. by apply (object_name_read D (dev s) (dev s')).
Qed.

(** One pass of the search. *)
Definition search_child (name : list Z) (l : Z) : M (FS N K) (option Z) :=
  _ ← yaffs_CheckObjectDetailsLoaded cfg l;
  o ← get_obj l;
  if objId o =? YAFFS_OBJECTID_LOSTNFOUND then
    mret (if bool_decide (name = YAFFS_LOSTNFOUND_NAME) then Some l else None)
  else if (nameSum o =? yaffs_CalcNameSum (Some name)) || (hdrChunk o <=? 0) then
    b ← yaffs_GetObjectName cfg l (Z.to_nat YAFFS_MAX_NAME_LENGTH);
    buffer ← of_option (c_str (snd b));
    mret (if strncmp_eq (Z.to_nat YAFFS_MAX_NAME_LENGTH) name buffer then Some l else None)
  else mret None.

Lemma search_child_spec s U l Fs D name c o :
  fs_ok cfg s U l Fs D -> is_object s c o -> name_agrees (dev s) o ->
  wp (search_child name c) (fun r s' => fs_ok cfg s' U l Fs D /\ data_kept cfg s s' /\ searched D s s' /\
    ((r = Some c /\ hits s name c) \/ (r = None /\ ~ hits s name c))) s.
Proof.
  intros Hs Ho Hag. unfold search_child.
  eapply wp_seq; [by apply (CheckObjectDetailsLoaded_run cfg Hcfg Hsize 0 s U l Fs D c o)|].
  intros [] s1 Hd. destruct (details_searched s s1 U l Fs D c o Hs Ho Hd) as (Hs1 & Hk1 & Hse1 & o1 & Ho1 & Hl1 & Hvw).
  apply wp_bind, (wp_get_obj c o1); [apply Ho1|].
  destruct (object_named s U l Fs D c o Hs Ho) as [n Hn].
  assert (Hn1 : object_name (dev s1) o1 n).
  { apply (object_name_same (dev s1) o o1); [apply Hvw|apply Hvw|]. by apply (object_name_read D (dev s)); [apply Hse1|]. }
  assert (Hag1 : name_agrees (dev s1) o1) by by apply (se_agrees _ _ _ Hse1 c o o1).
  assert (Hhit : forall b : bool, (b = true <-> hit o name n = true) ->
    (((if b then Some c else None) = Some c /\ hits s name c) \/ ((if b then Some c else None) = None /\ ~ hits s name c))).
  { intros b Hb. assert (Hhb : b = true <-> hits s name c).
    { rewrite Hb. split; [intros H; by exists o, n|]. intros (o2 & n2 & Ho2 & Hn2 & H2).
      assert (o2 = o) as -> by (destruct Ho, Ho2; congruence). by rewrite <- (object_name_unique _ _ _ _ Hn Hn2). }
    destruct b; [left|right]; (split; [done|]); [by apply Hhb|intros H; by apply Hhb in H]. }
  unfold hit in Hhit. rewrite <- (vd_id _ _ (proj1 Hvw)) in Hhit.
  destruct (Z.eqb_spec (objId o1) YAFFS_OBJECTID_LOSTNFOUND) as [Hlf|Hlf].
  { apply wp_ret. do 3 (split; [done|]). apply Hhit. unfold object_name in Hn1.
    rewrite (proj2 (Z.eqb_eq _ _) Hlf) in Hn1. by rewrite Hn1. }
  destruct ((nameSum o1 =? _) || (hdrChunk o1 <=? 0)) eqn:Hfilter.
  - eapply wp_seq; [apply (GetObjectName_loaded s1 U l Fs D c o1 n (Z.to_nat YAFFS_MAX_NAME_LENGTH)); try done;
      unfold YAFFS_MAX_NAME_LENGTH; lia|].
    intros [len b] s2 (Hr2 & _ & Hb). cbn [fst snd] in *. destruct (only_read_ok cfg Hcfg Hpg 0 s1 s2 U l Fs D Hs1 Hr2) as [Hs2 _].
    apply wp_bind, wp_of_option with (take 254 n); [exact Hb|]. apply wp_ret. split; [done|].
    split; [exact (data_kept_trans cfg _ _ _ Hk1 (only_read_kept cfg Hcfg Hpg 0 _ _ _ _ _ _ Hs1 Hr2))|].
    split; [exact (searched_trans _ _ _ _ Hse1 (only_read_searched _ _ _ Hr2))|]. apply Hhit.
    by rewrite strncmp_found, bool_decide_eq_true.
  - apply wp_ret. do 3 (split; [done|]). apply (Hhit false). split; [done|]. rewrite bool_decide_eq_true. intros ->.
    exfalso. apply orb_false_iff in Hfilter as [Hsum Hh]. apply Z.eqb_neq in Hsum. apply Hsum.
    unfold object_name in Hn1. rewrite (proj2 (Z.eqb_neq _ _) Hlf), Hh in Hn1. destruct Hn1 as (d & Hd1 & Hnd).
    destruct (Hag1 Hl1 d n Hd1 Hnd) as [-> _]. by rewrite CalcNameSum_take.
Qed.

Lemma search_loop_spec cs s U l Fs D name :
  fs_ok cfg s U l Fs D -> (forall c, c ∈ cs -> exists o, is_object s c o /\ name_agrees (dev s) o) ->
  wp (for_break cs (search_child name)) (fun r s' => fs_ok cfg s' U l Fs D /\ data_kept cfg s s' /\
    searched D s s' /\ first_hit s name cs r) s.
Proof.
  revert s. induction cs as [|c cs IH]; intros s Hs Hcs.
  { apply wp_ret. split; [done|]. split; [apply data_kept_refl|]. split; [by apply searched_refl, Hs|constructor]. }
  cbn [for_break]. destruct (Hcs c) as (o & Ho & Hag); [by left|].
  eapply wp_seq; [by apply (search_child_spec s U l Fs D name c o)|].
  intros r s1 (Hs1 & Hk1 & Hse1 & Hr). destruct Hr as [[-> Hhit]|[-> Hmiss]].
  { apply wp_ret. do 3 (split; [done|]). by exists [], cs. }
  eapply wp_mono; [apply (IH s1 Hs1)|].
  - intros x Hx. destruct (Hcs x) as (ox & Hox & Hax); [by right|].
    destruct (oc_fwd _ _ _ (se_view _ _ _ Hse1) x ox Hox) as (ox1 & Hox1 & _). exists ox1. split; [done|].
    by apply (se_agrees _ _ _ Hse1 x ox ox1).
  - intros r s2 (Hs2 & Hk2 & Hse2 & Hr). split; [done|]. split; [by eapply data_kept_trans|].
    split; [by eapply searched_trans|]. assert (Hh : forall x, hits s1 name x <-> hits s name x) by (intros x; by eapply hits_searched).
    destruct r as [r|]; cbn in Hr |- *.
    + destruct Hr as (pre & post & -> & Hhr & Hpre). exists (c :: pre), post. split; [done|].
      split; [by apply Hh|]. constructor; [done|]. eapply Forall_impl; [exact Hpre|]. intros x Hx. by rewrite <- Hh.
    + constructor; [done|]. eapply Forall_impl; [exact Hr|]. intros x Hx. by rewrite <- Hh.
Qed.

Lemma FindObjectByName_spec s U l Fs D d od cs name :
  fs_ok cfg s U l Fs D -> is_object s d od -> variant od = DirectoryVariant cs ->
  (forall c o, c ∈ cs -> is_object s c o -> name_agrees (dev s) o) ->
  wp (yaffs_FindObjectByName cfg d (Some name)) (fun r s' => fs_ok cfg s' U l Fs D /\ data_kept cfg s s' /\
    searched D s s' /\ exists h, r = default 0 h /\ first_hit s name cs h) s.
Proof.
  intros Hs [Hd Hod] Hv Hag. unfold yaffs_FindObjectByName, get_children.
  apply wp_bind, wp_bind, (wp_get_obj d od); [done|]. rewrite Hv. apply wp_ret.
  change (for_break cs _) with (for_break cs (search_child name)).
  eapply wp_seq; [apply (search_loop_spec cs s U l Fs D name Hs)|].
  - intros c Hc. destruct (do_child _ (fk_dirs _ _ _ _ _ _ _ Hs) d od c Hd Hod) as (Hch & oc & Hoc & _); [by exists cs|].
    exists oc. split; [by split|]. apply (Hag c oc Hc). by split.
  - intros h s' (Hs' & Hk & Hse & Hh). apply wp_ret. do 3 (split; [done|]). by exists h.
Qed.
End lookup.

Section properties.
Context {N K : Type} {nd : NandDriver N} `{!Kmalloc K} `{!KmallocLaws K} `{!Clock K} (cfg : Config).
Context {nf : NandFrame nd cfg} {nm : NandMedium nd cfg} {nb : NandBlank nd cfg}.
Implicit Types (s : FS N K) (o : Object).

(** A new name and a new header. *)
Lemma rename_run collect ready `{!Collector cfg collect ready} s U l Fs D a o n force isShrink shadows
    (Hdev : device_ok cfg) (Hsize : 512 <= nDataBytesPerChunk cfg) (Hrd : ready (with_obj s a (named n o)))
    (Hs : fs_ok cfg s U l Fs D) (Ho : is_object s a o) (Hlive : dead o = false) (Hr : header_ready o)
    (Hp0 : hdrChunk o <> 0) (Hnum : 0 <= objId o < 2 ^ 18) (Hlost : objId o <> YAFFS_OBJECTID_LOSTNFOUND)
    (Hlz : lazyLoaded o = false) (Hn : n <> []) (Hch : chars n) (Hlen : Z.of_nat (length n) <= 254)
    (Hsl : slots_ok cfg s) (Hff : negb (fake o) || force = true) :
  wp (_ ← yaffs_SetObjectName a (Some n); yaffs_UpdateObjectHeader cfg collect a (Some n) force isShrink shadows)
    (fun r s' => (exists U' l' Fs' D', fs_ok cfg s' U' l' Fs' D') /\ data_kept cfg s s' /\
      ((r = -1 /\ no_page cfg (0 <=? hdrChunk o) (dev s')) \/
       (0 < r /\ hits cfg s' n a /\ forall o', is_object s' a o' -> name_agrees cfg (dev s') o'))) s.
Proof.
  apply (wp_seq _ _ (fun _ s1 => s1 = with_obj s a (named n o) /\ fs_ok cfg s1 U l Fs D /\ data_kept cfg s s1)).
  { unfold yaffs_SetObjectName. apply wp_bind, (wp_mod_view cfg 0 s U l Fs D a o (fun o => o <| shortName := short_name n |>));
      [done|apply Ho|split; [|done]; split; try done; intros _; apply short_name_short|done|done|].
    cbv beta. set (o1 := o <| shortName := short_name n |>). intros Hs1 Hv1.
    apply (wp_mod_view cfg 0 _ U l Fs D a o1 (fun o => o <| nameSum := yaffs_CalcNameSum (Some n) |>));
      [done|apply lookup_insert_eq|done|done|done|]. intros Hs2 Hv2. rewrite with_obj_twice in *. split; [done|]. split; [done|].
    eapply data_kept_trans; [by apply view_data_kept|]. by apply view_data_kept. }
  intros [] s1 (-> & Hs1 & Hk1). set (s1 := with_obj s a (named n o)) in *.
  assert (Ho1 : is_object s1 a (named n o)) by (split; [apply Ho|apply lookup_insert_eq]).
  eapply wp_mono; [apply (UpdateObjectHeader_spec cfg Hdev Hsize collect ready s1 U l Fs D a (named n o)); try done|].
  { destruct Hr as [H1 H2]. by split. }
  intros r s' (H1 & H2 & _ & (o' & Ho' & Hso & Hres) & _). split; [done|]. split; [by eapply data_kept_trans|].
  destruct Hres as [(-> & Hnp & _)|(Hpos & Hh & d & m & p & Hd & _ & _ & Hds)]; [by left|right]. split; [done|].
  assert (Hnn : next_name (Some n) m = n).
  { unfold next_name. destruct n as [|c n']; [done|]. apply firstn_all2. unfold YAFFS_MAX_NAME_LENGTH. lia. }
  rewrite Hnn in Hds. pose proof (ds_name _ _ _ _ Hds) as Hin. change (objId (named n o)) with (objId o) in Hd.
  pose proof (so_id _ _ Hso) as Hi. change (objId (named n o)) with (objId o) in Hi.
  rewrite <- Hh, <- Hi in Hd. split.
  - exists o', n. split; [done|]. unfold object_name, hit. rewrite Hi, (proj2 (Z.eqb_neq _ _)) by done.
    rewrite (proj2 (Z.leb_gt _ _)) by lia. split; [exists d; rewrite <- Hi; by split|]. rewrite bool_decide_eq_true.
    symmetry. apply firstn_all2. lia.
  - intros o2 Ho2. assert (o2 = o') as -> by (destruct Ho2, Ho'; congruence).
    intros _ d2 n2 Hd2 Hn2. destruct (holds_inj cfg _ _ _ _ _ _ _ _ Hd Hd2) as (-> & _).
    rewrite (name_in_unique _ _ _ Hin Hn2). by destruct (so_loaded _ _ Hso Hlz) as (_ & -> & ->).
Qed.

(** C11. Searching a directory for a name.  The hypothesis is that what memory has of the names
    of the children whose details are loaded, a checksum and a short name, agrees with their
    headers; it is so when they are loaded and after a rename whose header was written.  Then
    the search finds the first child whose name on flash is the one searched for, or nothing
    when there is none: the checksums and short names save reads and change no result.  A child
    with a name of 255 characters is found under the first 254 of them, and under no other
    name; [lost+found] is found under its fixed name, and a child without a header under the
    name that is made of its number.  What memory has of the children's names agrees again, no
    file changes and the books are kept. *)
Theorem FindObjectByName_first s U l Fs D d od cs name (Hdev : device_ok cfg)
    (Hsize : 512 <= nDataBytesPerChunk cfg) (Hs : fs_ok cfg s U l Fs D) (Hod : is_object s d od)
    (Hcs : variant od = DirectoryVariant cs)
    (Hag : forall c o, c ∈ cs -> is_object s c o -> name_agrees cfg (dev s) o) :
  wp (yaffs_FindObjectByName cfg d (Some name)) (fun r s' =>
    fs_ok cfg s' U l Fs D /\ data_kept cfg s s' /\
    (forall c o, c ∈ cs -> is_object s' c o -> name_agrees cfg (dev s') o) /\
    ((r = 0 /\ Forall (fun c => ~ hits cfg s name c) cs) \/
     (exists pre post, cs = pre ++ r :: post /\ hits cfg s name r /\ Forall (fun c => ~ hits cfg s name c) pre))) s.
Proof.
  eapply wp_mono; [by apply (FindObjectByName_spec cfg Hdev Hsize s U l Fs D d od cs)|].
  intros r s' (H1 & H2 & Hse & h & -> & Hh). split; [done|]. split; [done|].
  split; [|destruct h; [by right|by left]]. intros c o' Hc Ho'.
  destruct (oc_back _ _ _ (se_view _ _ _ _ Hse) c o' Ho') as (o & Ho & _).
  by apply (se_agrees _ _ _ _ Hse c o o'), (Hag c o).
Qed.

End properties.

(** ** A file with a name in a directory of the sample device *)

Lemma cached_lazy o f : is_file cached_fs the_file o f -> lazyLoaded o = false.
Proof.
  intros [[[_ Ho] _] _]. assert (H : lazyLoaded <$> objects (obs cached_fs) !! the_file = Some false) by (vm_compute; reflexivity).
  rewrite Ho in H. by injection H.
Qed.


(** The file has its name and its header. *)
Definition named_fs : FS Flash Z :=
  run_state (_ ← yaffs_SetObjectName the_file (Some sample_name);
             yaffs_UpdateObjectHeader sample_cfg (mret YAFFS_OK) the_file (Some sample_name) true false 0) cached_fs.

Lemma named_run :
  wp (_ ← yaffs_SetObjectName the_file (Some sample_name);
      yaffs_UpdateObjectHeader sample_cfg (mret YAFFS_OK) the_file (Some sample_name) true false 0)
    (fun r s' => (exists U' l' Fs' D', fs_ok sample_cfg s' U' l' Fs' D') /\ data_kept sample_cfg cached_fs s' /\
      ((r = -1 /\ no_page sample_cfg false (dev s')) \/ (0 < r /\ hits sample_cfg s' sample_name the_file /\
        forall o', is_object s' the_file o' -> name_agrees sample_cfg (dev s') o'))) cached_fs.
Proof.
  destruct cached_file as (U & l & Fs & o & f & Hs & Hf & Hid & Hh & Hsl & _).
  pose proof (file_typed sample_cfg 0 cached_fs U l Fs ∅ the_file o f Hs (proj1 Hf)) as Hty.
  assert (Hrv : (0 <=? hdrChunk o) = false) by (by rewrite Hh).
  eapply wp_mono; [apply (rename_run sample_cfg (mret YAFFS_OK) (fun _ => True) cached_fs U l Fs ∅ the_file o
    sample_name true false 0 sample_device (Z.le_refl 512) I Hs (proj1 (proj1 Hf)) (proj2 Hf))|
    intros r s' (H1 & H2 & H3); rewrite Hrv in H3; exact (conj H1 (conj H2 H3))].
  - split; rewrite Hty; intros H; discriminate H.
  - rewrite Hh. discriminate.
  - rewrite Hid. lia.
  - rewrite Hid. discriminate.
  - exact (cached_lazy o f Hf).
  - discriminate.
  - repeat constructor; lia.
  - vm_compute. discriminate.
  - exact Hsl.
  - apply orb_true_r.
Qed.

Lemma named_fs_ok : (exists U l Fs D, fs_ok sample_cfg named_fs U l Fs D) /\
  forall o, is_object named_fs the_file o -> name_agrees sample_cfg (dev named_fs) o.
Proof.
  assert (Hr : fst <$> (_ ← yaffs_SetObjectName the_file (Some sample_name);
    yaffs_UpdateObjectHeader sample_cfg (mret YAFFS_OK) the_file (Some sample_name) true false 0) cached_fs = Some 4)
    by (vm_compute; reflexivity).
  destruct (run_state_result _ _ cached_fs 4 named_run Hr) as (H1 & _ & [[H _]|(_ & _ & H2)]); [discriminate H|].
  split; [exact H1|exact H2].
Qed.

Lemma named_dir : exists od, is_object named_fs (lostNFoundDir (obs named_fs)) od /\ variant od = DirectoryVariant [the_file].
Proof.
  assert (H : variant <$> objects (obs named_fs) !! lostNFoundDir (obs named_fs) = Some (DirectoryVariant [the_file])) by (vm_compute; reflexivity).
  destruct (objects (obs named_fs) !! lostNFoundDir (obs named_fs)) as [od|] eqn:E; [|discriminate H].
  injection H as H. exists od. split; [split; [|exact E]|exact H].
  destruct named_fs_ok as [(U & l & Fs & D & Hs) _].
  destruct (do_roots _ (fk_dirs _ _ _ _ _ _ _ Hs) (lostNFoundDir (obs named_fs))) as (Hh & _); [right; by left|exact Hh].
Qed.

(** It is found by its name in the directory [lost+found], where it was made. *)
Lemma FindObjectByName_first_witness :
  let d := lostNFoundDir (obs named_fs) in
  fst <$> yaffs_FindObjectByName sample_cfg d (Some sample_name) named_fs = Some the_file /\
  fst <$> yaffs_FindObjectByName sample_cfg d (Some (tail sample_name)) named_fs = Some 0 /\
  exists U l Fs D, wp (yaffs_FindObjectByName sample_cfg d (Some sample_name)) (fun r s' =>
    fs_ok sample_cfg s' U l Fs D /\ data_kept sample_cfg named_fs s' /\
    (forall c o, c ∈ [the_file] -> is_object s' c o -> name_agrees sample_cfg (dev s') o) /\
    ((r = 0 /\ Forall (fun c => ~ hits sample_cfg named_fs sample_name c) [the_file]) \/
     (exists pre post, [the_file] = pre ++ r :: post /\ hits sample_cfg named_fs sample_name r /\
       Forall (fun c => ~ hits sample_cfg named_fs sample_name c) pre))) named_fs.
Proof.
  split; [vm_compute; reflexivity|]. split; [vm_compute; reflexivity|].
  destruct named_fs_ok as [(U & l & Fs & D & Hs) Hag]. destruct named_dir as (od & Hod & Hv). exists U, l, Fs, D.
  apply (FindObjectByName_first sample_cfg named_fs U l Fs D (lostNFoundDir (obs named_fs)) od [the_file]
    sample_name sample_device (Z.le_refl 512) Hs Hod Hv).
  intros c o ->%list_elem_of_singleton Ho. exact (Hag o Ho).
Defined.
