(* ===== verification/Copy.v ===== *)
(** * Copying a page during garbage collection
    One page of the block: data of a deleted file is dropped, a page without an object is
    dropped, and any other page is written again, becomes what its object points to, and the
    old one is deleted.  Each of these keeps the books, the data of all files and the objects. *)
From S2P Require Import Prelude Monad ObjHeader Tags Device Nand Sim BlockInv Blocks Medium Blank Tnode Tree Gc Objects File Steps Cache Names Headers Delete Collect Watch Start.

(** ** Marks of a header *)

Lemma clear_marks_length d : length (clear_marks d) = length d.
Proof. unfold clear_marks. by rewrite !length_put_field. Qed.

Lemma take_put_field k f v d : (k <= f_off f)%nat -> take k (put_field f v d) = take k d.
Proof.
  intros Hk. apply list_eq. intros i. destruct (decide (i < k)%nat) as [Hi|Hi]; [|by rewrite !lookup_take_ge by lia].
  rewrite !lookup_take_lt by done. apply list_lookup_inserts_lt. lia.
Qed.

Lemma clear_marks_take d : take 504 (clear_marks d) = take 504 d.
Proof. unfold clear_marks. by rewrite !take_put_field by (simpl; lia). Qed.

Lemma clear_marks_ok o d : header_ok o d -> header_ok o (clear_marks d).
Proof.
  unfold header_ok, name_in, alias_in, clear_marks. by rewrite !put_field_apart by reflexivity.
Qed.

Section copy.
Context {N K : Type} {nd : NandDriver N} `{!Kmalloc K} `{!KmallocLaws K} `{!Clock K} (cfg : Config).
Context {nf : NandFrame nd cfg} {nm : NandMedium nd cfg} {nb : NandBlank nd cfg}.
Context (Hdev : device_ok cfg) (Hsize : 512 <= nDataBytesPerChunk cfg).
Implicit Types (s : FS N K) (o : Object) (f : FileStructure).
Local Abbreviation Hcfg := (dv_cfg cfg Hdev).
Local Abbreviation Hpg := (dv_plain cfg Hdev).
Local Abbreviation Haware := (dv_aware cfg Hdev).
Local Abbreviation Halign := (dv_marks cfg Hdev).

(** ** What a step of the collection keeps *)

Lemma variant_kept_trans v1 v2 v3 : variant_kept v1 v2 -> variant_kept v2 v3 -> variant_kept v1 v3.
Proof.
  destruct v1 as [|f|cs|p t|e i]; simpl.
  - by intros ->.
  - intros (f2 & -> & H2) (f3 & -> & H3). exists f3. split; [done|congruence].
  - intros (cs2 & ->) (cs3 & ->). by exists cs3.
  - by intros ->.
  - by intros ->.
Qed.

Lemma object_kept_trans d1 d2 d3 o1 o2 o3 :
  object_kept cfg d1 d2 o1 o2 -> object_kept cfg d2 d3 o2 o3 -> object_kept cfg d1 d3 o1 o3.
Proof.
  intros [A1 A2 A3 A4 A5 A6 A7 A8 A9 A10] [B1 B2 B3 B4 B5 B6 B7 B8 B9 B10].
  split; [congruence..|auto| | | |].
  - intros Hn. eapply variant_kept_trans; [by apply A7|]. apply B7. congruence.
  - intros Hlz. destruct (A8 Hlz) as [HA EA].
    assert (Hlz2 : lazyLoaded o2 = false) by (destruct (lazyLoaded o2) eqn:E; [rewrite A6 in Hlz|]; done).
    destruct (B8 Hlz2) as [HB EB]. split; [by eapply variant_kept_trans|]. rewrite EB, EA. done.
  - intros Hh. rewrite B9, A9; [done|done|]. by rewrite A9.
  - intros Hh. destruct (A10 Hh) as [H2 HA]. destruct (B10 H2) as [H3 HB]. split; [done|].
    intros d t Hc. destruct (HA d t Hc) as (d' & t' & Hc' & E'). destruct (HB d' t' Hc') as (d'' & t'' & Hc'' & E'').
    exists d'', t''. split; [done|congruence].
Qed.

Lemma objects_kept_trans s1 s2 s3 : objects_kept cfg s1 s2 -> objects_kept cfg s2 s3 -> objects_kept cfg s1 s3.
Proof.
  intros [(A1 & A2 & A3 & A4) A5 A6 A7] [(B1 & B2 & B3 & B4) B5 B6 B7]. split.
  - repeat split; congruence.
  - intros a o Ho Hd. destruct (A5 a o Ho Hd) as (o2 & Ho2 & H2).
    destruct (B5 a o2 Ho2) as (o3 & Ho3 & H3); [by rewrite (ok_deleted _ _ _ _ _ H2)|].
    exists o3. split; [done|]. by eapply object_kept_trans.
  - intros a o3 Ho3. destruct (B6 a o3 Ho3) as (o2 & Ho2 & Hi2 & Hd2 & Ht2). destruct (A6 a o2 Ho2) as (o1 & Ho1 & Hi1 & Hd1 & Ht1).
    exists o1. repeat split; congruence || apply Ho1.
  - intros a o1 o3 c Ho1 Ho3 Hc. destruct (B6 a o3 Ho3) as (o2 & Ho2 & _).
    destruct (B7 a o2 o3 c Ho2 Ho3 Hc) as [Hc2|(oc & Hoc & Hd)]; [by apply (A7 a o1 o2)|].
    destruct (A6 c oc Hoc) as (oc1 & Hoc1 & _ & Hd1 & _). right. exists oc1. split; [done|congruence].
Qed.

(** The books with chunk [x] in hand, and nothing is lost since [s]. *)
Record good (x : Z) (D : gset Z) s s' : Prop := {
  gd_fs : exists U l Fs, fs_but cfg x s' U l Fs D;
  gd_spent : spent 0 s s';
  gd_data : data_kept cfg s s';
  gd_objects : objects_kept cfg s s';
  gd_gc : isDoingGC (blks (dev s')) = isDoingGC (blks (dev s))
}.

Lemma good_trans x1 x2 D1 D2 s1 s2 s3 : good x1 D1 s1 s2 -> good x2 D2 s2 s3 -> good x2 D2 s1 s3.
Proof.
  intros [_ A2 A3 A4 A5] [B1 B2 B3 B4 B5]. split; [done|by apply (spent_trans 0 0 s1 s2 s3)| | |congruence].
  - by apply (data_kept_trans cfg s1 s2 s3).
  - by apply (objects_kept_trans s1 s2 s3).
Qed.

Lemma good_refl x U l Fs D s : fs_but cfg x s U l Fs D -> good x D s s.
Proof.
  intros Hs. split; [by exists U, l, Fs|by apply spent_same|apply data_kept_refl|apply objects_kept_refl|done].
Qed.

(** Steps of the device alone. *)
Lemma dev_objects_kept x s U l Fs D ex ds' :
  fs_but cfg x s U l Fs D -> unreferenced cfg s ex -> kept_but cfg ex (dev s) ds' -> objects_kept cfg s (with_dev s ds').
Proof.
  intros Hs [_ Hr] Hk. split; [done| | |].
  - intros a o Ho _. exists o. split; [done|]. apply object_kept_refl. intros Hp.
    destruct (fk_header _ _ _ _ _ _ _ Hs a o Ho Hp) as (d & (Hv & Hu & _) & _).
    by apply (kb_chunks _ _ _ _ Hk _ Hv (Hr a o Ho Hp) Hu).
  - intros a o Ho. by exists o.
  - intros a o o' c Ho Ho' Hc. left. by rewrite (is_object_eq _ _ _ _ Ho Ho').
Qed.

Lemma good_read x s s' U l Fs D : fs_but cfg x s U l Fs D -> only_read cfg D s s' -> good x D s s'.
Proof.
  intros Hs Hr. pose proof (only_read_ok cfg Hcfg Hpg x s s' U l Fs D Hs Hr) as (Hs' & _).
  pose proof (only_read_kept cfg Hcfg Hpg x s s' U l Fs D Hs Hr) as Hd.
  destruct Hr as (ds' & -> & Hr). split; [by exists U, l, Fs|by apply spent_same|done| |apply Hr].
  apply (dev_objects_kept x s U l Fs D (-1)); [done|by apply (unreferenced_none cfg Hcfg Hpg x s U l Fs D)|apply Hr].
Qed.

(** Counters are not in the books. *)
Lemma stats_read D s g : flash_ok cfg D (dev s) ->
  wp (on_dev (modS g)) (fun _ s' => only_read cfg D s s') s.
Proof.
  intros [[H1 H2 H3] [H4 H5]]. apply wp_on_dev, wp_modify. eexists. split; [done|].
  split; [|apply kept_same; [done|done|by apply soft_le_same]|done..]. split; [|by split]. by split.
Qed.

(** Changing the entry of one object. *)
Lemma entry_objects_kept s s' a o o' :
  is_object s a o -> obs s' = (obs s) <| objects ::= <[a := o']> |> -> dev s' = dev s ->
  objId o' = objId o -> deleted o' = deleted o -> variantType o' = variantType o ->
  (forall c, child_of o' c -> child_of o c) ->
  (deleted o = false -> object_kept cfg (dev s) (dev s) o o') -> objects_kept cfg s s'.
Proof.
  intros [Hh Ho] Hobs Hd Hi Hdel Hty Hch Hk.
  assert (Hl : forall x, objects (obs s') !! x = if decide (x = a) then Some o' else objects (obs s) !! x).
  { intros x. rewrite Hobs. simp_fields. destruct (decide (x = a)) as [->|]; [by rewrite lookup_insert_eq|].
    by rewrite lookup_insert_ne. }
  assert (Hhash : forall x, hashed (obs s') x <-> hashed (obs s) x) by (intros x; by rewrite Hobs).
  split; [by rewrite Hobs| | |].
  - intros x ox [Hx Hox] Hl0. destruct (decide (x = a)) as [->|Hne].
    + rewrite Ho in Hox. injection Hox as <-. exists o'. split; [|rewrite Hd; by apply Hk]. split; [by apply Hhash|].
      rewrite Hl. by rewrite decide_True.
    + exists ox. split; [split; [by apply Hhash|by rewrite Hl, decide_False]|]. apply object_kept_refl. by rewrite Hd.
  - intros x ox [Hx Hox]. apply Hhash in Hx. rewrite Hl in Hox. destruct (decide (x = a)) as [->|Hne].
    + injection Hox as <-. exists o. by repeat split.
    + by exists ox.
  - intros x ox ox' c [_ Hox] [_ Hox'] Hc. left. rewrite Hl in Hox'. destruct (decide (x = a)) as [->|Hne].
    + injection Hox' as <-. rewrite Ho in Hox. injection Hox as <-. by apply Hch.
    + congruence.
Qed.

(** ** Steps of the copy *)

Lemma good_write s U l Fs D d tags :
  fs_ok cfg s U l Fs D -> fits cfg tags -> Z.of_nat (length d) = nDataBytesPerChunk cfg ->
  wp (on_dev (yaffs_WriteNewChunkWithTagsToNAND cfg (Some d) tags true)) (fun r s' =>
    (r = -1 /\ no_page cfg true (dev s') /\ good 0 D s s' /\ kept cfg (dev s) (dev s')) \/
    (0 < r /\ fs_but cfg r s' U l Fs D /\ good r D s s' /\ ~ in_use cfg (dev s) r /\
      holds cfg (dev s') r d (objectId tags) (chunkId tags) /\ obs s' = obs s /\ tns s' = tns s /\
      kept cfg (dev s) (dev s'))) s.
Proof.
  intros Hs Hfit Hb.
  destruct (wp_run _ _ _ (write_page cfg Hcfg Hpg Haware Halign s U l Fs D d tags true (dv_attempts cfg Hdev) Hs Hfit Hb))
    as (r & s' & Hrun & ds' & -> & Hk & Hd & Hgc & _ & Hr).
  assert (Hobj : objects_kept cfg s (with_dev s ds')).
  { apply (dev_objects_kept 0 s U l Fs D (-1)); [done|by apply (unreferenced_none cfg Hcfg Hpg 0 s U l Fs D)|done]. }
  apply (wp_of_run _ _ _ r (with_dev s ds')); [done|]. destruct Hr as [(-> & Hnp & Hs')|(Hpos & Hs' & Hfree & _ & Hh)]; [left|right].
  - split; [done|]. split; [done|]. split; [|done].
    split; [by exists U, l, Fs|by apply spent_same|done|done|done].
  - split; [done|]. split; [done|]. split; [|done].
    split; [by exists U, l, Fs|by apply spent_same|done|done|done].
Qed.

Lemma good_delete x s U l Fs D c markNAND :
  fs_but cfg x s U l Fs D -> valid_chunk cfg c -> in_use cfg (dev s) c -> c ∉ D -> unreferenced cfg s c ->
  wp (on_dev (yaffs_DeleteChunk cfg c markNAND)) (fun _ s' =>
    good (if c =? x then 0 else x) D s s' /\ obs s' = obs s /\ tns s' = tns s) s.
Proof.
  intros Hs Hv Hu Hc Hr.
  eapply wp_mono; [apply (delete_unreferenced cfg Hcfg Haware Halign x s U l Fs D c markNAND Hs Hv Hu Hc Hr)|].
  intros [] s' (Hs' & Hd & Ht & Ho & Hca & _ & Hk & _ & Hgc). split; [|done].
  split; [by exists U, l, Fs|by apply spent_same|done| |done].
  pose proof (dev_objects_kept x s U l Fs D c (dev s') Hs Hr Hk) as [H1 H2 H3 H4].
  assert (Hio : forall a o, is_object s' a o <-> is_object (with_dev s (dev s')) a o)
    by (intros a o; unfold is_object; by rewrite Ho).
  split; [by rewrite Ho| | |].
  - intros a o Hao Hl. destruct (H2 a o Hao Hl) as (o' & Ho' & Hk'). exists o'. split; [by apply Hio|done].
  - intros a o' Ho'. apply H3. by apply Hio.
  - intros a o o' ch Hao Hao' Hch. apply (H4 a o o' ch); [done|by apply Hio|done].
Qed.

(** The copy of a header becomes the header of its object. *)
Lemma fix_up_header new s U l Fs D a o d d' tags :
  fs_but cfg new s U l Fs D -> is_object s a o -> deferedFree o = false -> chunkId tags = 0 ->
  hdrChunk o <> new -> 0 < hdrChunk o ->
  holds cfg (dev s) (hdrChunk o) d (objId o) 0 -> holds cfg (dev s) new d' (objId o) 0 ->
  header_ok o d' -> take 504 d' = take 504 d ->
  wp (gc_fix_up cfg a new tags) (fun _ s' =>
    good (hdrChunk o) D s s' /\ dev s' = dev s /\ unreferenced cfg s' (hdrChunk o)) s.
Proof.
  intros Hs Ho Hfr Hid Hne Hpos Hold Hnew Hok Htake. pose proof Ho as [Hhash Hlook].
  unfold gc_fix_up. rewrite Hid. change (0 =? 0) with true. cbv iota.
  apply wp_bind, (wp_mod_obj a o); [done|]. set (o1 := o <| hdrChunk := new |>).
  assert (Hpos' : 0 < new) by apply (valid_positive cfg Hcfg Hpg new (proj1 Hnew)).
  destruct (header_step cfg Hcfg Hpg new s U l Fs D a o o1 d' Hs Ho) as [H1 Hc1]; try done.
  rewrite Z.max_r in H1 by lia. change (s <| obs ::= _ |>) with (with_obj s a o1). set (s1 := with_obj s a o1) in *.
  assert (Ho1 : is_object s1 a o1) by (split; [done|apply lookup_insert_eq]).
  apply (wp_mod_view cfg (hdrChunk o) s1 U l Fs D a o1 (fun o => o <| serial := u8 (serialNumber tags) |>));
    [done|apply Ho1|done|done|done|].
  set (o2 := o1 <| serial := _ |>). set (s2 := with_obj s1 a o2). intros Hs2 Hv2.
  assert (Ho2 : is_object s2 a o2) by (split; [done|apply lookup_insert_eq]).
  split; [|split; [done|]].
  - split; [by exists U, l, Fs|by apply spent_same| | |done].
    + apply (data_kept_trans cfg s s1 s2); [by apply changed_data_kept|by apply view_data_kept].
    + apply (entry_objects_kept s s2 a o o2); [done|unfold s2, s1; by rewrite with_obj_twice|done..|]. intros _.
      split; try done.
      * intros _. apply variant_kept_refl.
      * intros _. split; [apply variant_kept_refl|done].
      * lia.
      * intros _. split; [done|]. intros d0 t0 Hc. destruct Hold as (_ & _ & _ & t1 & Hc1' & _).
        rewrite Hc in Hc1'. injection Hc1' as -> ->. destruct Hnew as (_ & _ & _ & t2 & Hc2 & _).
        exists d', t2. by split.
  - apply (unreferenced_chunk cfg (hdrChunk o) s2 U l Fs D (hdrChunk o) d (objId o) 0 Hs2 Hold).
    intros (a2 & oo & Hoo & Hn & Hcase).
    destruct (object_unique cfg (hdrChunk o) s2 U l Fs D a a2 o2 oo Hs2 Ho2 Hoo) as [-> ->]; [done|].
    destruct Hcase as [[_ Hh]|(f & Hf & He)]; [by apply Hne|].
    pose proof (fk_zero _ _ _ _ _ _ _ Hs2 a o2 f Hf). lia.
Qed.

(** The copy of a chunk of a file goes into its tree. *)
Lemma fix_up_data new s U l Fs D a o f c d tags :
  fs_but cfg new s U l Fs D -> is_file s a o f -> 1 <= chunkId tags <= YAFFS_MAX_CHUNK_ID ->
  file_entry cfg (tns s) f (chunkId tags) = c -> c <> new -> c <> 0 ->
  holds cfg (dev s) c d (objId o) (chunkId tags) -> holds cfg (dev s) new d (objId o) (chunkId tags) ->
  wp (gc_fix_up cfg a new tags) (fun _ s' =>
    good c D s s' /\ dev s' = dev s /\ unreferenced cfg s' c) s.
Proof.
  intros Hs Hf Hid He Hne Hc0 Hold Hnew. set (id := chunkId tags) in *. pose proof Hf as [[[Ha Ho] Hv] Hlive].
  unfold gc_fix_up. fold id. rewrite (proj2 (Z.eqb_neq id 0)) by lia.
  assert (Hidi : i32 id = id) by (apply swrap_small; lia). rewrite Hidi.
  eapply wp_seq.
  { apply (PutChunk_spec cfg Hcfg (dv_tnodes cfg Hdev) Hpg Haware Halign 0 s U l Fs D a o f id new d); [done..| |done].
    apply AddOrFind_found; [apply Hdev|apply Hs|by eapply live_tree|lia|congruence]. }
  intros r s' [-> Hrt]. apply wp_ret. rewrite He in Hrt.
  pose proof (valid_positive cfg Hcfg Hpg new (proj1 Hnew)) as [[Hnp _] _].
  pose proof (retreed_step cfg 0 c s s' D a o f id new d Hf Hnp Hrt Hnew) as Hst.
  destruct Hrt as [(U' & l' & Fs' & o' & f' & Hs' & Hf' & Hsf & Hsz & Hent) Hd' Hoth Hsp [o1 Hobs]].
  assert (o1 = o').
  { destruct Hf' as [[[_ Ho'] _] _]. rewrite Hobs in Ho'. simp_fields_in Ho'. rewrite lookup_insert_eq in Ho'. congruence. }
  subst o1. pose proof Hf' as [[[Ha' Ho'] Hv'] Hlive'].
  assert (Hdead : deleted o' = deleted o /\ deferedFree o' = deferedFree o).
  { rewrite (sf_rest _ _ Hsf). done. }
  split; [|split; [done|]].
  - split; [by exists U', l', Fs'|done| | |by rewrite Hd'].
    + intros a2 o2 f2 Hf2. destruct (Hst a2 o2 f2 Hf2) as (o3 & f3 & Hf3 & H1 & H2 & H3). exists o3, f3.
      split; [done|]. split; [done|]. split; [done|]. intros id2 Hid2. rewrite H3 by done. unfold with_chunk.
      destruct (Z.eqb_spec a2 a) as [->|]; [|done]. destruct (Z.eqb_spec id2 id) as [->|]; [|done]. cbn [andb].
      rewrite (file_data_entry cfg s a o f id Hf), He, (proj2 (Z.eqb_neq c 0)) by done.
      destruct Hold as (_ & _ & _ & t & -> & _). done.
    + assert (Hvk : variant_kept (variant o) (variant o')) by (rewrite Hv, Hv'; by exists f').
      apply (entry_objects_kept s s' a o o'); [by split|done|done|apply Hsf|apply Hdead|apply Hsf| |].
      { intros ch (cs & Hcs & _). congruence. }
      intros _. split; try apply Hsf; try apply Hdead.
      * by rewrite (sf_lazy _ _ Hsf).
      * by intros _.
      * intros _. split; [done|]. rewrite (sf_rest _ _ Hsf). done.
      * by rewrite (sf_hdr _ _ Hsf).
      * rewrite (sf_hdr _ _ Hsf). intros Hp. split; [done|]. intros d0 t0 Hc. by exists d0, t0.
  - apply (unreferenced_chunk cfg c s' U' l' Fs' D c d (objId o) id Hs'); [by rewrite Hd'|].
    intros (a2 & oo & Hoo & Hn & Hcase).
    destruct (object_unique cfg c s' U' l' Fs' D a a2 o' oo Hs') as [-> ->]; [by split|done|by rewrite (sf_id _ _ Hsf)|].
    destruct Hcase as [[? _]|(f2 & Hf2 & He2)]; [lia|].
    destruct (file_unique _ _ _ _ _ _ Hf' Hf2) as [_ ->]. rewrite Hent, Z.eqb_refl in He2 by lia. by apply Hne.
Qed.

(** ** Copying a page *)

(** Chunk [c] is where object [o] has its chunk [id]. *)
Definition in_place s (a : Z) o (c id : Z) : Prop :=
  (id = 0 /\ hdrChunk o = c /\ deferedFree o = false) \/
  (id <> 0 /\ exists f, is_file s a o f /\ file_entry cfg (tns s) f id = c).

Lemma gc_fix_up_spec new s U l Fs D a o c d d' tags :
  fs_but cfg new s U l Fs D -> is_object s a o -> in_place s a o c (chunkId tags) -> c <> new ->
  holds cfg (dev s) c d (objId o) (chunkId tags) -> holds cfg (dev s) new d' (objId o) (chunkId tags) ->
  (chunkId tags = 0 -> header_ok o d' /\ take 504 d' = take 504 d) -> (chunkId tags <> 0 -> d' = d) ->
  wp (gc_fix_up cfg a new tags) (fun _ s' =>
    good c D s s' /\ dev s' = dev s /\ unreferenced cfg s' c) s.
Proof.
  intros Hs Ho Hpl Hne Hold Hnew Hhd Hdata. pose proof (valid_positive cfg Hcfg Hpg c (proj1 Hold)) as [[Hc0 _] _].
  destruct Hpl as [(Hid & <- & Hfr)|(Hid & f & Hf & He)].
  - destruct (Hhd Hid) as [Hok Htake]. rewrite Hid in Hold, Hnew.
    by apply (fix_up_header new s U l Fs D a o d d' tags).
  - rewrite Hdata in Hnew by done. pose proof (holds_range cfg _ _ _ _ _ Hold).
    apply (fix_up_data new s U l Fs D a o f c d tags); [done|done|lia|done|done|lia|done|done].
Qed.

Lemma gc_copy_spec s U l Fs D a o c d id t :
  fs_ok cfg s U l Fs D -> is_object s a o -> in_place s a o c id ->
  holds cfg (dev s) c d (objId o) id -> names (objId o) id t -> fits cfg t ->
  wp (gc_copy cfg a d t) (fun r s' => Z.of_nat (length (fst r)) = nDataBytesPerChunk cfg /\
    holds cfg (dev s') c d (objId o) id /\
    ((snd r = YAFFS_FAIL /\ good 0 D s s' /\ no_page cfg true (dev s')) \/
     (snd r = YAFFS_OK /\ good c D s s' /\ unreferenced cfg s' c))) s.
Proof.
  intros Hs Ho Hpl Hold (Hn1 & Hn2 & Hn3) Hfit. pose proof Hold as (Hv & Hu & Hlen & _).
  unfold gc_copy. eapply wp_seq; [apply (stats_read D), Hs|]. intros [] s1 Hr1.
  pose proof (only_read_ok cfg Hcfg Hpg 0 s s1 U l Fs D Hs Hr1) as (Hs1 & _).
  pose proof (good_read 0 s s1 U l Fs D Hs Hr1) as Hg1.
  destruct Hr1 as (ds1 & -> & Hr1). set (s1 := with_dev s ds1) in *.
  assert (Hold1 : holds cfg (dev s1) c d (objId o) id).
  { apply (holds_kept cfg (-1) (dev s)); [apply Hr1| |done]. pose proof (valid_positive cfg Hcfg Hpg c Hv). lia. }
  set (t1 := t <| serialNumber ::= _ |>).
  apply (wp_seq _ _ (fun h s2 => s2 = s1 /\ Z.of_nat (length (fst h)) = nDataBytesPerChunk cfg /\
    names (objId o) id (snd h) /\ fits cfg (snd h) /\
    (id = 0 -> header_ok o (fst h) /\ take 504 (fst h) = take 504 d) /\ (id <> 0 -> fst h = d))).
  { change (chunkId t1) with (chunkId t). rewrite Hn2. destruct (Z.eqb_spec id 0) as [Hid|Hid].
    - apply wp_bind, wp_of_option with d; [by apply (as_header_ok cfg Hsize)|]. apply wp_ret.
      split; [done|]. split; [cbn [fst]; by rewrite clear_marks_length|]. split; [by split|]. split; [exact Hfit|].
      split; [|done]. intros _. cbn [fst]. split; [|apply clear_marks_take]. apply clear_marks_ok.
      destruct Hpl as [(_ & Hh & _)|[? _]]; [|done].
      pose proof (valid_positive cfg Hcfg Hpg c Hv).
      destruct (fk_header _ _ _ _ _ _ _ Hs a o Ho) as (d0 & Hd0 & Hok); [lia|]. rewrite Hh in Hd0.
      by destruct (holds_inj cfg _ _ _ _ _ _ _ _ Hold Hd0) as (-> & _).
    - apply wp_ret. split; [done|]. split; [done|]. split; [by split|]. split; [exact Hfit|]. by split. }
  intros [d' t2] s2 (-> & Hl2 & (Hm1 & Hm2 & Hm3) & Hfit2 & Hhd & Hdata). cbn [fst snd] in *. cbv iota.
  eapply wp_seq; [apply (good_write s1 U l Fs D d' t2 Hs1 Hfit2 Hl2)|].
  intros r s3 [(-> & Hnp & Hg3 & Hk3)|(Hpos & Hs3 & Hg3 & Hfree & Hnew & Hob3 & Ht3 & Hk3)].
  - change (-1 <? 0) with true. cbv iota. apply wp_ret. split; [done|].
    split; [|left; split; [done|split; [by eapply good_trans|done]]].
    apply (holds_kept cfg (-1) (dev s1)); [done| |done]. pose proof (valid_positive cfg Hcfg Hpg c Hv). lia.
  - rewrite (proj2 (Z.ltb_ge r 0)) by lia. rewrite Hm1, Hm2 in Hnew.
    assert (Hold3 : holds cfg (dev s3) c d (objId o) id).
    { apply (holds_kept cfg (-1) (dev s1)); [done| |done]. pose proof (valid_positive cfg Hcfg Hpg c Hv). lia. }
    assert (Ho3 : is_object s3 a o) by (unfold is_object; rewrite Hob3; exact Ho).
    assert (Hpl3 : in_place s3 a o c id).
    { destruct Hpl as [?|(Hid & f & Hf & He)]; [by left|right]. split; [done|]. exists f.
      unfold is_file, any_file, is_object. rewrite Hob3, Ht3. split; [exact Hf|exact He]. }
    assert (Hcr : c <> r) by (intros ->; by apply Hfree, Hold1).
    eapply wp_seq.
    { apply (gc_fix_up_spec r s3 U l Fs D a o c d d' t2); rewrite ?Hm2; done. }
    intros [] s4 (Hg4 & Hd4 & Hun4). apply wp_ret. split; [done|]. split; [by rewrite Hd4|]. right.
    split; [done|]. split; [|done]. eapply good_trans; [exact Hg1|]. by eapply good_trans.
Qed.

(** ** One page *)

(** The object with that number, if there is one, is a deleted file. *)
Definition to_clean s (num : Z) : Prop := 0 <= num < 2 ^ 18 /\
  forall a o, is_object s a o -> objId o = num -> deleted o = true /\ variantType o = OBJECT_TYPE_FILE.

Lemma to_clean_good x D s s' num : good x D s s' -> to_clean s num -> to_clean s' num.
Proof.
  intros [_ _ _ Hk _] [Hr Hc]. split; [done|]. intros a o' Ho' Hn.
  destruct (kp_old _ _ _ Hk a o' Ho') as (o & Ho & Hi & -> & ->). apply (Hc a o Ho). congruence.
Qed.

Lemma to_clean_all x D s s' l : good x D s s' -> Forall (to_clean s) l -> Forall (to_clean s') l.
Proof. intros Hg Hl. eapply Forall_impl; [exact Hl|]. intros y. by apply (to_clean_good x D). Qed.

(** Where the page belongs, by what a look-up of its object's number gives. *)
Lemma page_owner s U l Fs D c d num id :
  fs_ok cfg s U l Fs D -> holds cfg (dev s) c d num id -> forall a o, is_object s a o -> objId o = num ->
  deferedFree o = false -> (id <> 0 -> deleted o = false) -> in_place s a o c id.
Proof.
  intros Hs Hh a o Ho Hn Hfr Hdel. pose proof Hh as (Hv & Hu & _).
  pose proof (valid_positive cfg Hcfg Hpg c Hv).
  destruct (fk_owner _ _ _ _ _ _ _ Hs c Hv Hu) as (d1 & num1 & id1 & Hh1 & Hbel); [lia|].
  destruct (holds_inj cfg _ _ _ _ _ _ _ _ Hh Hh1) as (_ & -> & ->).
  destruct (Hbel a o Ho Hn) as [H0 H1]. destruct (decide (id = 0)) as [Hid|Hid]; [left; auto|right].
  split; [done|]. destruct (H1 Hid) as (f & Hf & He). exists f.
  assert (Hdead : dead o = false) by (unfold dead; by rewrite Hdel, Hfr).
  split; [split; [by split|done]|auto].
Qed.

(** A page that is no part of a live object is referenced by nothing. *)
Lemma orphan_unreferenced s U l Fs D c d num id :
  fs_ok cfg s U l Fs D -> holds cfg (dev s) c d num id ->
  (forall a o, is_object s a o -> objId o = num -> deferedFree o = true \/ (deleted o = true /\ id <> 0)) ->
  unreferenced cfg s c.
Proof.
  intros Hs Hh Hor. pose proof (valid_positive cfg Hcfg Hpg c (proj1 Hh)).
  apply (unreferenced_chunk cfg 0 s U l Fs D c d num id Hs Hh).
  intros (a & o & Ho & Hn & Hcase). destruct (Hor a o Ho Hn) as [Hfr|[Hdel Hid]].
  - pose proof (fk_freed _ _ _ _ _ _ _ Hs a o Ho Hfr). destruct Hcase as [[_ He]|(f & [_ Hl] & _)]; [lia|].
    unfold dead in Hl. rewrite Hfr in Hl. by destruct (deleted o).
  - destruct Hcase as [[? _]|(f & [_ Hl] & _)]; [done|]. unfold dead in Hl. by rewrite Hdel in Hl.
Qed.

(** The local variables after a page.  Nothing is marked as failed: a watched collection stops
    then. *)
Record page_done (D : gset Z) s s' (c c' : Collecting) : Prop := {
  pd_good : good 0 D s s';
  pd_buffer : Z.of_nat (length (gc_buffer c')) = nDataBytesPerChunk cfg;
  pd_retVal : gc_retVal c' = gc_retVal c;
  pd_cleanups : Forall (to_clean s) (gc_cleanups c) -> Forall (to_clean s') (gc_cleanups c')
}.

Lemma watched_chunk_spec s U l Fs D c x :
  fs_ok cfg s U l Fs D -> valid_chunk cfg c -> in_use cfg (dev s) c -> c ∉ D ->
  Z.of_nat (length (gc_buffer x)) = nDataBytesPerChunk cfg ->
  wp (watched_chunk cfg c x) (fun res s' => match res with
    | Some x' => page_done D s s' x x'
    | None => good 0 D s s' /\ no_page cfg true (dev s')
    end) s.
Proof.
  intros Hs Hv Hu Hc Hb. pose proof (valid_positive cfg Hcfg Hpg c Hv) as [[Hpos _] _].
  destruct (fk_owner _ _ _ _ _ _ _ Hs c Hv Hu) as (d & num & id & Hh & Hbel); [lia|].
  unfold watched_chunk. apply wp_bind, wp_on_dev.
  assert (Hbok : buffer_ok cfg (Some (gc_buffer x))) by (by intros ? [= <-]).
  eapply wp_mono; [apply (read_held cfg Hcfg D (dev s) c d num id (Some (gc_buffer x)) _ ltac:(apply Hs) Hh Hbok)|].
  intros [[res data] t] ds1 (Hr1 & Hdata & Hnm & Hfit). cbn [fst snd] in *. rewrite Hdata. cbv iota.
  change (s <| dev := ds1 |>) with (with_dev s ds1). set (s1 := with_dev s ds1).
  assert (Hor1 : only_read cfg D s s1) by by exists ds1.
  pose proof (only_read_ok cfg Hcfg Hpg 0 s s1 U l Fs D Hs Hor1) as (Hs1 & _).
  pose proof (good_read 0 s s1 U l Fs D Hs Hor1) as Hg1.
  assert (Hh1 : holds cfg (dev s1) c d num id) by (apply (holds_kept cfg (-1) (dev s)); [apply Hr1|lia|done]).
  assert (Hu1 : in_use cfg (dev s1) c) by apply Hh1.
  apply wp_bind, wp_of_option with d; [done|].
  assert (Hld : Z.of_nat (length d) = nDataBytesPerChunk cfg) by apply Hh.
  destruct Hnm as (Hm1 & Hm2 & Hm3). rewrite Hm1, Hm2.
  eapply wp_seq; [apply FindObjectByNumber_spec, (fk_mem _ _ _ _ _ _ _ Hs1)|].
  intros a s2 [-> Hnum]. unfold numbered in Hnum. unfold ztrue at 1. destruct (Z.eqb_spec a 0) as [Ha|Ha]; cbn [negb].
  - eapply wp_seq; [apply (good_delete 0 s1 U l Fs D c true Hs1 Hv Hu1 Hc)|].
    { apply (orphan_unreferenced s1 U l Fs D c d num id Hs1 Hh1). intros a1 o1 [Hha Hoa] Hn. left. by apply (Hnum a1 o1). }
    intros [] s2 [Hg2 _]. apply wp_ret. rewrite (proj2 (Z.eqb_neq c 0)) in Hg2 by lia.
    assert (Hg : good 0 D s s2) by (by eapply good_trans). split; [done|done|done|].
    by apply (to_clean_all 0 D).
  - destruct Hnum as (Hha & o & Hoa & Hn & Hfr). assert (Ho : is_object s1 a o) by by split.
    apply wp_bind, (wp_get_obj a o); [done|].
    destruct (deleted o && negb (id =? 0)) eqn:Edel.
    + apply andb_true_iff in Edel as [Hdel Hid]. apply negb_true_iff, Z.eqb_neq in Hid.
      set (o2 := o <| nDataChunks ::= Z.pred |>).
      apply wp_bind, (wp_mod_view cfg 0 s1 U l Fs D a o (fun o => o <| nDataChunks ::= Z.pred |>)); [done|done|done|done|done|].
      cbv beta. fold o2. set (s2 := with_obj s1 a o2). intros Hs2 Hv2.
      assert (Ho2 : is_object s2 a o2) by (split; [done|apply lookup_insert_eq]).
      assert (Hg2 : good 0 D s1 s2).
      { split; [by exists U, l, Fs|by apply spent_same|by apply view_data_kept| |done].
        apply (entry_objects_kept s1 s2 a o o2); try done. by rewrite Hdel. }
      apply wp_bind, (wp_get_obj a o2); [apply Ho2|].
      eapply wp_seq; [apply (good_delete 0 s2 U l Fs D c false Hs2 Hv Hu1 Hc)|].
      { apply (orphan_unreferenced s2 U l Fs D c d num id Hs2 Hh1). intros a2 oo Hoo Hn2. right.
        destruct (object_unique cfg 0 s2 U l Fs D a a2 o2 oo Hs2 Ho2 Hoo) as [_ ->]; [|done].
        change (objId o2) with (objId o). congruence. }
      intros [] s3 [Hg3 _]. apply wp_ret. rewrite (proj2 (Z.eqb_neq c 0)) in Hg3 by lia.
      assert (Hg : good 0 D s s3) by (eapply good_trans; [exact Hg1|]; by eapply good_trans).
      split; [done|done|done|]. cbn [gc_cleanups]. intros Hcl.
      assert (Hcl3 : Forall (to_clean s3) (gc_cleanups x)) by by apply (to_clean_all 0 D s).
      destruct (_ <=? 0); [|done]. apply Forall_app. split; [done|]. apply list.Forall_singleton.
      apply (to_clean_good 0 D s1); [by eapply good_trans|]. split; [by apply (holds_range cfg _ _ _ _ _ Hh)|].
      intros a2 oo Hoo Hn2. destruct (object_unique cfg 0 s1 U l Fs D a a2 o oo Hs1 Ho Hoo) as [-> ->]; [congruence|].
      split; [done|]. destruct (fk_owner _ _ _ _ _ _ _ Hs1 c Hv Hu1) as (d3 & num3 & id3 & Hh3 & Hbel3); [lia|].
      destruct (holds_inj cfg _ _ _ _ _ _ _ _ Hh1 Hh3) as (_ & -> & ->).
      destruct (Hbel3 a o Ho Hn) as [_ Hf3]. destruct (Hf3 Hid) as (f & Hf & _).
      pose proof (object_typed cfg 0 s1 U l Fs D a o Hs1 Ho) as Hty. unfold typed in Hty. by rewrite Hf in Hty.
    + assert (Hpl : in_place s1 a o c id).
      { apply (page_owner s1 U l Fs D c d num id); [done|done|done|done|done|].
        intros Hid. destruct (deleted o); [|done]. cbn [andb] in Edel. by rewrite (proj2 (Z.eqb_neq id 0)) in Edel by done. }
      rewrite <- Hn in Hh1, Hm1. eapply wp_seq.
      { apply (gc_copy_spec s1 U l Fs D a o c d id t); [done..|by split|done]. }
      intros [d' res'] s2 (Hl2 & Hh2 & Hcase). cbn [fst snd] in *. cbv iota.
      assert (Hu2 : in_use cfg (dev s2) c) by apply Hh2.
      destruct Hcase as [(-> & Hg2 & Hnp)|(-> & Hg2 & Hun)].
      * apply wp_ret. split; [by eapply good_trans|done].
      * change (YAFFS_OK =? YAFFS_FAIL) with false. cbv iota.
        destruct (gd_fs _ _ _ _ Hg2) as (U2 & l2 & Fs2 & Hs2).
        eapply wp_seq; [apply (good_delete c s2 U2 l2 Fs2 D c true Hs2 Hv Hu2 Hc Hun)|].
        intros [] s3 [Hg3 _]. apply wp_ret. rewrite Z.eqb_refl in Hg3.
        assert (Hg : good 0 D s s3) by (eapply good_trans; [exact Hg1|]; by eapply good_trans).
        split; [done|done|done|]. by apply (to_clean_all 0 D).
Qed.
End copy.
