(* ===== verification/Choose.v ===== *)
(** * The choice of a block, seen from the collection
    Whatever the search remembers from calls before, it leaves the flash as it is, and what it
    gives is a full block or none. *)
From S2P Require Import Prelude Monad ObjHeader Tags Device Nand Sim BlockInv Blocks Medium Blank Tnode Tree Gc Objects File Steps Cache Names Delete Collect Start.

Section choose.
Context {N : Type} {nd : NandDriver N} (cfg : Config) (Hcfg : cfg_ok cfg).
Context {nf : NandFrame nd cfg} {nm : NandMedium nd cfg} {nb : NandBlank nd cfg}.
Implicit Types (s : State N).

(** Only what the search remembers and what is counted may differ. *)
Record same_flash s s' : Prop := {
  sf_info : blockInfo (blks s') = blockInfo (blks s);
  sf_bits : chunkBits (blks s') = chunkBits (blks s);
  sf_block : allocationBlock (blks s') = allocationBlock (blks s);
  sf_page : allocationPage (blks s') = allocationPage (blks s);
  sf_erased : nErasedBlocks (blks s') = nErasedBlocks (blks s);
  sf_free : nFreeChunks (blks s') = nFreeChunks (blks s);
  sf_nand : nand s' = nand s
}.

Lemma same_flash_refl s : same_flash s s.
Proof. done. Qed.

Lemma same_flash_trans s1 s2 s3 : same_flash s1 s2 -> same_flash s2 s3 -> same_flash s1 s3.
Proof. intros [] []. split; congruence. Qed.

Lemma same_flash_ok D s s' : flash_ok cfg D s -> same_flash s s' -> flash_ok cfg D s'.
Proof.
  intros [[H1 H2 H3] Hst] [Ei Eb Ea Ep Ee Ef En]. split; [split|].
  - destruct H1 as [[T1 T2 T3] Hblk [A1 A2 A3 A4] He Hf]. split.
    + split; by rewrite ?Ei, ?Eb.
    + by rewrite Ei, Eb.
    + split; by rewrite ?Ei, ?Eb, ?Ea, ?Ep.
    + by rewrite Ee, Ei.
    + by rewrite Ef, Ei.
  - intros c Hc. unfold in_use. rewrite Eb. by apply H2.
  - intros blk bi. rewrite Ei. by apply H3.
  - by apply (tidy_same cfg s s').
Qed.

Lemma same_block s0 s blk (Q : BlockInfo -> State N -> Prop) :
  tables_ok cfg (blks s0) -> same_flash s0 s -> valid_block cfg blk ->
  (forall bi, blockInfo (blks s0) !! index cfg blk = Some bi -> Q bi s) ->
  wp (yaffs_GetBlockInfo cfg blk) Q s.
Proof.
  intros Ht Hs Hv HQ. destruct (block_info_lookup cfg (blks s0) blk Ht Hv) as [bi Hb].
  apply (wp_GetBlockInfo cfg blk bi); [apply Hv|by rewrite (sf_info _ _ Hs)|by apply HQ].
Qed.

Lemma find_oldest_dirty_same s0 s :
  tables_ok cfg (blks s0) -> same_flash s0 s -> wp (find_oldest_dirty cfg) (fun _ s' => s' = s) s.
Proof.
  intros Ht Hs. unfold find_oldest_dirty, getB. wp_steps.
  eapply wp_mono; [apply (wp_for_acc (fun d acc s' => s' = s)); [done|]|done].
  intros d x r acc s' Hseq ->. apply (seqZ_block cfg) in Hseq as [Hv _].
  apply wp_bind, (same_block s0); [done|done|done|]. intros bi _. by apply wp_ret.
Qed.

Lemma NotDisqualified_same s0 s bi :
  tables_ok cfg (blks s0) -> same_flash s0 s ->
  wp (yaffs_BlockNotDisqualifiedFromGC cfg bi) (fun _ s' => same_flash s0 s') s.
Proof.
  intros Ht Hs. unfold yaffs_BlockNotDisqualifiedFromGC.
  destruct (negb _); [by apply wp_ret|]. destruct (negb _); [by apply wp_ret|].
  unfold getB. apply wp_bind, wp_gets. eapply (wp_seq _ _ (fun _ s' => same_flash s0 s')).
  - apply wp_when. destruct (negb _); [|done].
    eapply wp_seq; [by apply (find_oldest_dirty_same s0)|]. intros seq s' ->. apply wp_modify.
    by destruct Hs.
  - intros [] s' Hs'. wp_steps. by apply wp_ret.
Qed.

(** None, or a full block. *)
Definition full_block_at s (blk : Z) : Prop := valid_block cfg blk /\ block_state cfg blk BLOCK_STATE_FULL s.

Lemma find_prioritised_same s0 s :
  tables_ok cfg (blks s0) -> same_flash s0 s ->
  wp (find_prioritised cfg) (fun r s' => same_flash s0 s' /\
    match r with Some (i, _) => full_block_at s0 i | None => True end) s.
Proof.
  intros Ht Hs. unfold find_prioritised, getB. wp_steps. destruct (negb _); [by apply wp_ret|].
  eapply wp_seq; [apply (wp_for_acc (fun d acc s' => same_flash s0 s' /\
    match snd acc with Some (i, _) => full_block_at s0 i | None => True end))|].
  - done.
  - intros d x r [pend found] s' Hseq [Hs' Hf]. cbn [snd] in Hf.
    assert (Hv : valid_block cfg x).
    { assert (Hx : x ∈ seqZ (internalStartBlock cfg) (internalEndBlock cfg - internalStartBlock cfg)).
      { rewrite Hseq. apply elem_of_app. right. by left. }
      apply elem_of_seqZ in Hx. unfold valid_block. lia. }
    destruct found as [f|]; [by apply wp_ret|].
    apply wp_bind, (same_block s0); [done|done|done|]. intros bi Hb.
    apply wp_if. destruct (gcPrioritise bi); [|by apply wp_ret].
    eapply (wp_seq _ _ (fun ok s3 => same_flash s0 s3 /\ (ok = true -> blockState bi = BLOCK_STATE_FULL))).
    + apply wp_if. destruct (is_state _ _) eqn:Ef; [|by apply wp_ret].
      eapply wp_mono; [by apply (NotDisqualified_same s0)|]. intros ok s3 H3. split; [done|]. intros _.
      unfold is_state in Ef. by apply bool_decide_eq_true in Ef.
    + intros ok s3 [H3 Hok]. apply wp_ret. split; [done|]. cbn [snd]. destruct ok; [|done].
      split; [done|]. exists bi. auto.
  - intros [pend found] s' [Hs' Hf]. unfold modB. apply wp_bind, wp_when. cbn [fst snd] in *.
    destruct (negb pend); [|by apply wp_ret]. apply wp_modify, wp_ret. split; [|done]. by destruct Hs'.
Qed.

Lemma search_step_same s0 s acc :
  tables_ok cfg (blks s0) -> same_flash s0 s -> (let '(_, d, _) := acc in d = -1 \/ full_block_at s0 d) ->
  wp (search_step cfg acc) (fun acc' s' => same_flash s0 s' /\
    let '(_, d, _) := acc' in d = -1 \/ full_block_at s0 d) s.
Proof.
  intros Ht Hs. destruct acc as [[b dirtiest] pages]. intros Hd. unfold search_step.
  apply wp_if. destruct (0 <? pages); [|by apply wp_ret].
  fold (next_block cfg b). pose proof (next_block_valid cfg Hcfg b) as Hv.
  apply wp_bind, (same_block s0); [done|done|done|]. intros bi Hb.
  eapply (wp_seq _ _ (fun ok s3 => same_flash s0 s3 /\ (ok = true -> blockState bi = BLOCK_STATE_FULL))).
  - apply wp_if. destruct (is_state _ _) eqn:Ef; [|by apply wp_ret].
    cbn [andb]. destruct (_ <? _); [|by apply wp_ret].
    eapply wp_mono; [by apply (NotDisqualified_same s0)|]. intros ok s3 H3. split; [done|]. intros _.
    unfold is_state in Ef. by apply bool_decide_eq_true in Ef.
  - intros ok s3 [H3 Hok]. apply wp_ret. split; [done|]. destruct ok; [|done]. right.
    split; [done|]. exists bi. auto.
Qed.

Lemma FindBlock_chooses s aggressive :
  tables_ok cfg (blks s) ->
  wp (yaffs_FindBlockForGarbageCollection cfg aggressive) (fun r s' => same_flash s s' /\
    (r = -1 \/ full_block_at s r)) s.
Proof.
  intros Ht. unfold yaffs_FindBlockForGarbageCollection, getB. apply wp_bind, wp_gets.
  eapply wp_seq; [by apply (find_prioritised_same s)|]. intros found s1 [H1 Hf]. unfold modB.
  apply wp_bind, wp_modify, wp_bind, wp_gets.
  set (s2 := s1 <| blks ::= _ |>). assert (H2 : same_flash s s2) by by destruct H1.
  apply wp_if. destruct (negb _ && _); [apply wp_ret; split; [done|by left]|].
  eapply (wp_seq _ _ (fun r s3 => same_flash s s3 /\ let '(_, d, _) := r in d = -1 \/ full_block_at s d)).
  { destruct found as [[i pages]|]; [apply wp_ret; split; [done|by right]|].
    apply (wp_for_acc (fun _ acc s3 => same_flash s s3 /\ let '(_, d, _) := acc in d = -1 \/ full_block_at s d)).
    - split; [done|by left].
    - intros d x r acc s3 _ [H3 Hd]. by apply search_step_same. }
  intros [[b d] p] s3 [H3 Hd]. apply wp_bind, wp_modify, wp_bind, wp_modify. set (s4 := s3 <| blks ::= _ |> <| blks ::= _ |>).
  assert (H4 : same_flash s s4) by by destruct H3.
  eapply (wp_seq _ _ (fun _ s5 => same_flash s s5)).
  - apply wp_when. destruct (0 <? d); [|done]. apply wp_modify. by destruct H4.
  - intros [] s5 H5. by apply wp_ret.
Qed.
End choose.
