(* ===== verification/Collector.v ===== *)
(** * The collection as a whole
    A collection keeps the books, the data of all files and the objects, unless a page that is
    in use could not be copied because no page was left: then the old page is deleted all the
    same.  It is followed up to that point by the watched collection of Watch.v, which always
    ends; [yaffs_CheckGarbageCollection] is a [Collector] for the states in which the watched
    one does not stop. *)
From S2P Require Import Prelude Monad ObjHeader Tags Device Nand Sim BlockInv Blocks Medium Blank Tnode Tree Gc Objects File Steps Cache Names Headers Delete Collect Watch Start Copy Choose.

Section collector.
Context {N K : Type} {nd : NandDriver N} `{!Kmalloc K} `{!KmallocLaws K} `{!Clock K} (cfg : Config).
Context {nf : NandFrame nd cfg} {nm : NandMedium nd cfg} {nb : NandBlank nd cfg}.
Context (Hdev : device_ok cfg) (Hsize : 512 <= nDataBytesPerChunk cfg).
Implicit Types (s : FS N K) (o : Object) (f : FileStructure).
Local Abbreviation Hcfg := (dv_cfg cfg Hdev).
Local Abbreviation Hpg := (dv_plain cfg Hdev).
Local Abbreviation Haware := (dv_aware cfg Hdev).
Local Abbreviation Halign := (dv_marks cfg Hdev).
Let n := nChunksPerBlock cfg.

(** The file system after a step, and nothing is lost. *)
Definition kept_all s s' : Prop := exists U l Fs D,
  fs_ok cfg s' U l Fs D /\ spent 0 s s' /\ data_kept cfg s s' /\ objects_kept cfg s s'.

Lemma kept_all_trans s1 s2 s3 : kept_all s1 s2 -> kept_all s2 s3 -> kept_all s1 s3.
Proof.
  intros (_ & _ & _ & _ & _ & A1 & A2 & A3) (U & l & Fs & D & Hs & B1 & B2 & B3). exists U, l, Fs, D.
  split; [done|]. split; [by apply (spent_trans 0 0 s1 s2 s3)|].
  split; [by apply (data_kept_trans cfg s1 s2 s3)|by apply (objects_kept_trans cfg s1 s2 s3)].
Qed.

Lemma good_kept_all D s s' : good cfg 0 D s s' -> kept_all s s'.
Proof. intros [(U & l & Fs & Hs) H2 H3 H4 _]. by exists U, l, Fs, D. Qed.

(** Steps of the device that bring no chunk into use. *)
Lemma dev_kept_all s U l Fs D D' ds' :
  fs_ok cfg s U l Fs D -> D' ⊆ D -> flash_ok cfg D' ds' -> kept cfg (dev s) ds' -> none_new cfg (dev s) ds' ->
  fs_ok cfg (with_dev s ds') U l Fs D' /\ kept_all s (with_dev s ds').
Proof.
  intros Hs HDD Hfl Hk Hnn. pose proof (unreferenced_none cfg Hcfg Hpg 0 s U l Fs D Hs) as Hun.
  destruct (dev_step_gone cfg 0 0 s U l Fs D D' (-1) ds' Hs HDD Hun) as [H1 H2]; [|done|done| |].
  - intros Hc. apply (gone_positive cfg Hcfg Hpg 0 s U l Fs D Hs); by apply HDD.
  - intros c Hv Hu Hne. split; [by apply Hnn|]. pose proof (valid_positive cfg Hcfg Hpg c Hv). lia.
  - split; [done|]. exists U, l, Fs, D'. split; [done|]. split; [by apply spent_same|].
    split; [|by apply (dev_objects_kept cfg 0 s U l Fs D (-1))].
    by apply data_step_same.
Qed.

Lemma same_flash_kept s U l Fs D ds' :
  fs_ok cfg s U l Fs D -> same_flash (dev s) ds' ->
  fs_ok cfg (with_dev s ds') U l Fs D /\ kept_all s (with_dev s ds').
Proof.
  intros Hs Hf. apply (dev_kept_all s U l Fs D D); [done|done| | |].
  - apply (same_flash_ok cfg D (dev s)); [apply Hs|done].
  - destruct Hf. by apply kept_same, soft_le_same.
  - destruct Hf. by apply none_new_bits.
Qed.

(** ** The pages of a block *)

Lemma page_done_refl D s U l Fs x : fs_ok cfg s U l Fs D -> Z.of_nat (length (gc_buffer x)) = nDataBytesPerChunk cfg ->
  page_done cfg D s s x x.
Proof. intros Hs Hb. split; [by apply (good_refl cfg 0 U l Fs D s)|done..]. Qed.

Lemma page_done_trans D s1 s2 s3 x1 x2 x3 :
  page_done cfg D s1 s2 x1 x2 -> page_done cfg D s2 s3 x2 x3 -> page_done cfg D s1 s3 x1 x3.
Proof.
  intros [A1 A2 A3 A4] [B1 B2 B3 B4]. split; [by apply (good_trans cfg 0 0 D D s1 s2 s3)|done|congruence|auto].
Qed.

(** A page of a block. *)
Lemma page_of blk p : valid_block cfg blk -> 0 <= p < n ->
  valid_chunk cfg (blk * n + p) /\ Z.quot (blk * n + p) n = blk /\ Z.rem (blk * n + p) n = p.
Proof.
  intros [H1 H2] Hp. pose proof (c_start _ Hcfg). assert (H0 : 0 <= blk * n + p) by nia.
  split; [unfold valid_chunk; fold n; nia|]. rewrite Z.quot_div_nonneg, Z.rem_mod_nonneg by lia.
  rewrite Z.div_add_l, Z.div_small by lia. split; [lia|]. by rewrite Z.add_comm, Z.mod_add, Z.mod_small by lia.
Qed.

Lemma chunks_spec D blk (Hv : valid_block cfg blk) (HD : forall c, c ∈ D -> Z.quot c n <> blk) pages :
  (forall p, p ∈ pages -> 0 <= p < n) -> forall s x,
  (exists U l Fs, fs_ok cfg s U l Fs D) -> Z.of_nat (length (gc_buffer x)) = nDataBytesPerChunk cfg ->
  wp (watched_chunks cfg blk pages x) (fun r s' => match r with
    | Some x' => page_done cfg D s s' x x'
    | None => good cfg 0 D s s' /\ no_page cfg true (dev s')
    end) s.
Proof.
  induction pages as [|p pages IH]; intros Hp s x (U & l & Fs & Hs) Hb.
  { apply wp_ret. by apply (page_done_refl D s U l Fs). }
  cbn [watched_chunks]. pose proof (mo_blocks _ _ _ (fl_media _ _ _ (fk_flash _ _ _ _ _ _ _ Hs))) as Hok.
  apply (wp_seq _ _ (fun _ s' => s' = s)).
  { apply wp_on_dev, (wp_StillSomeChunkBits cfg Hcfg); [apply Hok|done|]. intros r _. by destruct s. }
  intros some s1 ->. destruct some; [|apply wp_ret; by apply (page_done_refl D s U l Fs)].
  assert (Hp0 : 0 <= p < n) by (apply Hp; left). destruct (page_of blk p Hv Hp0) as (Hvc & Hq & Hr).
  apply (wp_seq _ _ (fun used s' => s' = s /\ (used = true -> in_use cfg (dev s) (blk * n + p)))).
  { apply wp_on_dev, (wp_CheckChunkBit cfg Hcfg); [apply Hok|done|done|]. split; [by destruct s|].
    unfold in_use. fold n. by rewrite Hq, Hr. }
  intros used s1 [-> Hu]. apply (wp_seq _ _ (fun r s' => match r with
    | Some x' => page_done cfg D s s' x x'
    | None => good cfg 0 D s s' /\ no_page cfg true (dev s')
    end)).
  - destruct used; [|apply wp_ret; by apply (page_done_refl D s U l Fs)].
    apply (watched_chunk_spec cfg Hdev Hsize s U l Fs D); [done|done|by apply Hu| |done].
    intros Hc. by apply (HD _ Hc).
  - intros [x'|] s' Hpd; [|by apply wp_ret]. pose proof Hpd as [Hg Hb' _ _].
    eapply wp_mono; [apply (IH (fun q Hq => Hp q (list_elem_of_further _ _ _ Hq)) s' x'); [apply Hg|done]|].
    intros [x2|] s2 H2; [by apply (page_done_trans D s s' s2 x x' x2)|].
    destruct H2 as [H2 Hn]. split; [by eapply good_trans|done].
Qed.

(** ** A block *)

(** No object is deleted that still has pages: nothing is left to clean up. *)
Definition none_deleted s : Prop := forall a o, is_object s a o -> deleted o = false.

Lemma none_deleted_kept s s' : none_deleted s -> kept_all s s' -> none_deleted s'.
Proof.
  intros Hd (_ & _ & _ & _ & _ & _ & _ & Hk) a o' Ho'.
  destruct (kp_old _ _ _ Hk a o' Ho') as (o & Ho & _ & -> & _). by apply (Hd a o).
Qed.

Lemma gc_cleanup_none s U l Fs D num :
  fs_ok cfg s U l Fs D -> none_deleted s -> to_clean s num -> wp (gc_cleanup cfg num) (fun _ s' => s' = s) s.
Proof.
  intros Hs Hd [_ Hc]. unfold gc_cleanup.
  eapply wp_seq; [apply FindObjectByNumber_spec, (fk_mem _ _ _ _ _ _ _ Hs)|].
  intros a s1 [-> Hnum]. apply wp_when. unfold ztrue, numbered in *. destruct (Z.eqb_spec a 0) as [|Ha]; cbn [negb]; [done|].
  destruct Hnum as (Hh & o & Ho & Hn & _). destruct (Hc a o) as [Hdel _]; [by split|done|].
  rewrite (Hd a o) in Hdel by by split. done.
Qed.

Lemma gc_cleanups_none s U l Fs D nums :
  fs_ok cfg s U l Fs D -> none_deleted s -> Forall (to_clean s) nums ->
  wp (for_each nums (gc_cleanup cfg)) (fun _ s' => s' = s) s.
Proof.
  intros Hs Hd Hc. eapply wp_mono; [apply (wp_for_each (fun _ s' => s' = s)); [done|]|done].
  intros d num r s' -> ->. apply (gc_cleanup_none s U l Fs D); [done|done|].
  apply Forall_app in Hc as [_ Hc]. by apply Forall_cons in Hc as [? _].
Qed.

(** Everything is kept, and where the collection stopped no page was to be had. *)
Definition kept_or_stopped {A} s (r : option A) s' : Prop := kept_all s s' /\ (r = None -> no_page cfg true (dev s')).

Lemma kept_or_stopped_trans {A} s1 s2 (r : option A) s3 :
  kept_all s1 s2 -> kept_or_stopped s2 r s3 -> kept_or_stopped s1 r s3.
Proof. intros H1 [H2 Hn]. split; [by apply (kept_all_trans s1 s2)|done]. Qed.

(** What follows a part that may stop. *)
Lemma wp_unless_stopped {A B} (m : M (FS N K) (option A)) (f : A -> M (FS N K) (option B)) s :
  wp m (fun r s' => kept_or_stopped s r s') s ->
  (forall a s', kept_all s s' -> wp (f a) (fun r s2 => kept_or_stopped s' r s2) s') ->
  wp (unless_stopped m f) (fun r s' => kept_or_stopped s r s') s.
Proof.
  intros Hm Hf. eapply wp_seq; [exact Hm|]. intros [a|] s1 [H1 Hn]; [|apply wp_ret; split; [done|intros _; by apply Hn]].
  eapply wp_mono; [by apply Hf|]. intros r s2. by apply kept_or_stopped_trans.
Qed.

Lemma kept_some {A} s (a : A) s' : kept_all s s' -> kept_or_stopped s (Some a) s'.
Proof. by intros H. Qed.

Lemma kept_all_refl s U l Fs D : fs_ok cfg s U l Fs D -> kept_all s s.
Proof.
  intros Hs. exists U, l, Fs, D. split; [done|]. split; [by apply spent_same|].
  split; [apply data_kept_refl|apply objects_kept_refl].
Qed.

Lemma pages_spec D blk s U l Fs :
  fs_ok cfg s U l Fs D -> valid_block cfg blk -> (forall c, c ∈ D -> Z.quot c n <> blk) -> none_deleted s ->
  wp (watched_pages cfg blk) (fun r s' => kept_or_stopped s r s') s.
Proof.
  intros Hs Hv HD Hd. unfold watched_pages.
  set (x0 := MkCollecting (temp_buffer cfg) YAFFS_OK []).
  eapply wp_seq; [apply (chunks_spec D blk Hv HD)|].
  - intros p Hp%elem_of_seqZ. fold n in Hp. lia.
  - by exists U, l, Fs.
  - by apply (temp_buffer_ok cfg Hcfg).
  - intros [x'|] s' Hpd; [|destruct Hpd as [Hg Hn]; apply wp_ret; split; [by apply (good_kept_all D)|done]].
    destruct Hpd as [Hg _ Hr Hc]. pose proof Hg as [(U' & l' & Fs' & Hs') _ _ _ _].
    eapply wp_seq; [apply (gc_cleanups_none s' U' l' Fs' D); [done| |apply Hc; constructor]|].
    + apply (none_deleted_kept s); [done|by apply (good_kept_all D)].
    + intros [] s2 ->. apply wp_ret, kept_some. by apply (good_kept_all D).
Qed.

Lemma GetErased_same (Q : Z -> FS N K -> Prop) s : (forall r, Q r s) -> wp (on_dev (yaffs_GetErasedChunks cfg)) Q s.
Proof.
  intros HQ. apply wp_on_dev. unfold yaffs_GetErasedChunks, getB. wp_steps. apply wp_ret.
  by destruct s.
Qed.

Lemma block_spec D blk s U l Fs :
  fs_ok cfg s U l Fs D -> full_block_at cfg (dev s) blk -> none_deleted s ->
  wp (watched_block cfg blk) (fun r s' => kept_or_stopped s r s') s.
Proof.
  intros Hs [Hv Hfull] Hd. unfold watched_block.
  apply (wp_seq _ _ (fun _ s' => s' = s)); [by apply GetErased_same|]. intros e s0 ->.
  pose proof (gc_start_spec cfg Hcfg D blk (dev s) (fk_flash _ _ _ _ _ _ _ Hs) Hv Hfull) as Hst.
  apply (wp_seq _ _ (fun empty s1 => exists U l Fs, fs_ok cfg s1 U l Fs (gone_elsewhere cfg D blk) /\
    kept_all s s1 /\ block_state cfg blk BLOCK_STATE_COLLECTING (dev s1) /\
    (empty = true -> used cfg (chunkBits (blks (dev s1))) (knum cfg blk) = 0))).
  { apply wp_on_dev. eapply wp_mono; [exact Hst|]. intros empty ds' (Hfl & Hk & Hbits & _ & _ & Hc & He).
    destruct (dev_kept_all s U l Fs D (gone_elsewhere cfg D blk) ds' Hs) as [H1 H2]; [|done|done|by apply none_new_bits|].
    { intros c [_ Hc']%elem_of_filter. done. }
    by exists U, l, Fs. }
  intros empty s1 (U1 & l1 & Fs1 & Hs1 & Hk1 & Hb1 & He).
  assert (Hd1 : none_deleted s1) by by apply (none_deleted_kept s).
  eapply wp_mono; [apply (wp_unless_stopped _ _ s1)|intros r s2; by apply kept_or_stopped_trans].
  - destruct empty.
    + pose proof (BlockBecameDirty_flash cfg Hcfg Haware Halign _ blk (dev s1) (fk_flash _ _ _ _ _ _ _ Hs1) Hv Hb1 (He eq_refl)) as Hbd.
      apply (wp_seq _ _ (fun _ s2 => kept_all s1 s2)); [|intros [] s2 H2; by apply wp_ret, kept_some].
      apply wp_on_dev. eapply wp_mono; [exact Hbd|]. intros [] ds' (Hfl & Hk & Hnn & _).
      by destruct (dev_kept_all s1 U1 l1 Fs1 _ _ ds' Hs1 (reflexivity _) Hfl Hk Hnn) as [H1 H2].
    + apply (pages_spec (gone_elsewhere cfg D blk) blk s1 U1 l1 Fs1); [done|done| |done].
      by intros c [Hq _]%elem_of_filter.
  - intros r s2 (U2 & l2 & Fs2 & D2 & Hs2 & _).
    apply (wp_seq _ _ (fun _ s3 => kept_all s2 s3)); [|intros [] s3 H3; by apply wp_ret, kept_some].
    apply wp_on_dev, wp_modify. by eapply (same_flash_kept s2 U2 l2 Fs2 D2).
Qed.

(** ** The search and the passes *)

Lemma dev_gets {A} (g : State N -> A) s : wp (on_dev (gets g)) (fun a s' => a = g (dev s) /\ s' = s) s.
Proof. apply wp_on_dev, wp_gets. split; [done|by destruct s]. Qed.

(** A full block at the end of a step that leaves the flash as it is. *)
Definition at_flash s s' : Prop := same_flash (dev s) (dev s') /\ s' = with_dev s (dev s').

Lemma stats_flash (g : Stats -> Stats) s0 s : at_flash s0 s -> wp (on_dev (modS g)) (fun _ s' => at_flash s0 s') s.
Proof.
  intros [[] Heq]. apply wp_on_dev, wp_modify. split; [done|]. rewrite Heq. by destruct s0.
Qed.

Lemma pass_spec s U l Fs D (aggressive : bool) gcOk : fs_ok cfg s U l Fs D -> none_deleted s ->
  wp (watched_pass cfg aggressive gcOk) (fun r s' => kept_or_stopped s r s') s.
Proof.
  intros Hs Hd. unfold watched_pass. pose proof (ok_tables _ _ _ _ (mo_blocks _ _ _ (fl_media _ _ _ (fk_flash _ _ _ _ _ _ _ Hs)))) as Ht.
  apply (wp_seq _ _ (fun r s1 => at_flash s s1 /\ (r = -1 \/ full_block_at cfg (dev s) r))).
  { apply wp_on_dev. eapply wp_mono; [by apply (FindBlock_chooses cfg Hcfg)|]. by intros r ds' [H1 H2]. }
  intros r s1 [H1 Hr]. apply (wp_seq _ _ (fun res s' => kept_or_stopped s res s')).
  - destruct (0 <? r) eqn:E.
    + destruct Hr as [->|Hfull]; [done|].
      eapply wp_seq; [by apply (stats_flash _ s s1)|]. intros [] s2 H2.
      apply (wp_seq _ _ (fun _ s3 => at_flash s s3)); [apply wp_when; destruct (negb _); [by apply stats_flash|done]|].
      intros [] s3 [H3 Heq]. rewrite Heq. destruct (same_flash_kept s U l Fs D (dev s3) Hs H3) as [Hs3 Hk3].
      eapply wp_mono; [apply (block_spec D r _ U l Fs Hs3)|].
      * destruct Hfull as [Hv (bi & Hb & Hst)]. split; [done|]. exists bi.
        change (dev (with_dev s (dev s3))) with (dev s3). by rewrite (sf_info _ _ H3).
      * by apply (none_deleted_kept s).
      * intros ok s4. by apply kept_or_stopped_trans.
    + apply wp_ret, kept_some. destruct H1 as [H1 ->]. by apply (same_flash_kept s U l Fs D).
  - intros [ok|] s2 [H2 Hn]; apply wp_ret; [by apply kept_some|split; [done|intros _; by apply Hn]].
Qed.

Lemma tries_step fuel maxTries gcOk s U l Fs D : fs_ok cfg s U l Fs D -> none_deleted s ->
  (forall ok s1 U1 l1 Fs1 D1, maxTries + 1 < 2 -> fs_ok cfg s1 U1 l1 Fs1 D1 -> none_deleted s1 ->
    wp (watched_tries cfg fuel (maxTries + 1) ok) (fun r s' => kept_or_stopped s1 r s') s1) ->
  wp (watched_tries cfg (S fuel) maxTries gcOk) (fun r s' => kept_or_stopped s r s') s.
Proof.
  intros Hs Hd Hnext. cbn [watched_tries].
  eapply wp_seq; [apply dev_gets|]; intros inCheckpoint s1 [_ ->].
  eapply wp_seq; [apply dev_gets|]; intros erased s1 [_ ->].
  apply wp_unless_stopped; [by apply (pass_spec s U l Fs D)|].
  intros [block ok] s1 H1. eapply wp_seq; [apply dev_gets|]; intros e s2 [_ ->].
  pose proof H1 as (U1 & l1 & Fs1 & D1 & Hs1 & _).
  destruct (_ && _) eqn:Eb; [|apply wp_ret, kept_some; by eapply kept_all_refl].
  apply andb_true_iff in Eb as [_ Hm%Z.ltb_lt].
  apply (Hnext ok s1 U1 l1 Fs1 D1); [done|done|by apply (none_deleted_kept s)].
Qed.

(** [fuel] passes are enough for the tries that are left. *)
Lemma tries_spec : forall fuel maxTries gcOk s U l Fs D,
  Z.of_nat (S fuel) + maxTries = 2 -> fs_ok cfg s U l Fs D -> none_deleted s ->
  wp (watched_tries cfg (S fuel) maxTries gcOk) (fun r s' => kept_or_stopped s r s') s.
Proof.
  intros fuel. induction fuel as [|fuel IH]; intros maxTries gcOk s U l Fs D Hf Hs Hd;
    apply (tries_step _ maxTries gcOk s U l Fs D Hs Hd); [lia|].
  intros ok s1 U1 l1 Fs1 D1 _ Hs1 Hd1. apply (IH (maxTries + 1) ok s1 U1 l1 Fs1 D1); [lia|done|done].
Qed.

Lemma watched_spec s U l Fs D : fs_ok cfg s U l Fs D -> none_deleted s ->
  wp (watched_collection cfg) (fun r s' => kept_or_stopped s r s') s.
Proof.
  intros Hs Hd. unfold watched_collection, getB. eapply wp_seq; [apply dev_gets|]. intros busy s1 [-> ->].
  destruct (isDoingGC (blks (dev s))); [apply wp_ret, kept_some; by eapply kept_all_refl|].
  by apply (tries_spec 1 0 YAFFS_OK s U l Fs D).
Qed.

(** ** The interface of the writers *)

(** The watched collection does not stop. *)
Definition not_stopped s : Prop := match watched_collection cfg s with Some (Some _, _) => True | _ => False end.

#[export] Instance not_stopped_dec s : Decision (not_stopped s).
Proof. unfold not_stopped. destruct (watched_collection cfg s) as [[[?|] ?]|]; apply _. Defined.

(** Every page in use can be copied. *)
Definition can_collect s : Prop := none_deleted s /\ not_stopped s.

#[export] Instance gc_collector : Collector cfg (yaffs_CheckGarbageCollection cfg) can_collect.
Proof.
  split. intros s U l Fs D [Hd Hrun] Hs. unfold not_stopped in Hrun. unfold wp.
  destruct (wp_run _ _ _ (watched_spec s U l Fs D Hs Hd)) as (r & s' & Hw & Hk & _). rewrite Hw in Hrun.
  destruct r as [r|]; [|done]. by rewrite (watched_agrees cfg s r s' Hw).
Qed.

(** C6. The collection before a write.  From a state with right books in which no deleted
    object is left, the watched collection ends, and then the books are right, no tnodes were
    taken, every file reads as before and every object stays, with its header on flash.  If it
    was not stopped, [yaffs_CheckGarbageCollection] gives the same result and ends in the same
    state.  If it was, that state is the one in which a page in use could not be copied: a
    write that may use the reserve has just failed there, as no block is being filled and none
    is erased, or as the page was written in vain as often as is allowed. *)
Theorem CheckGarbageCollection_keeps s U l Fs D :
  fs_ok cfg s U l Fs D -> none_deleted s ->
  exists r s', watched_collection cfg s = Some (r, s') /\ kept_all s s' /\
    match r with
    | Some gcOk => yaffs_CheckGarbageCollection cfg s = Some (gcOk, s')
    | None => no_page cfg true (dev s')
    end.
Proof.
  intros Hs Hd. destruct (wp_run _ _ _ (watched_spec s U l Fs D Hs Hd)) as (r & s' & Hw & Hk & Hn).
  exists r, s'. split; [done|]. split; [done|]. destruct r as [r|]; [by apply watched_agrees|by apply Hn].
Qed.
End collector.

(** ** The sample device is collected *)

(** The file gets its first chunk and five versions of its second; no collection is asked for. *)
Definition rewrite_chunk (v id : Z) (s : FS Flash Z) : FS Flash Z :=
  run_state (yaffs_WriteChunkDataToObject sample_cfg (mret YAFFS_OK) the_file id (sample_data v) 512 false) s.
Definition worn_fs : FS Flash Z := Nat.iter 4 (rewrite_chunk 8 2) (rewrite_chunk 7 1 file_fs).

(** The file is there, and there are [k] free tnodes. *)
Definition has_file (k : Z) (s : FS Flash Z) : Prop := exists U l Fs D o f,
  fs_ok sample_cfg s U l Fs D /\ is_file s the_file o f /\ objId o = 257 /\ k <= Z.of_nat (length l).

Lemma rewrite_chunk_ok k v id s : 12 <= k -> 1 <= id <= YAFFS_MAX_CHUNK_ID -> has_file k s ->
  has_file (k - 12) (rewrite_chunk v id s).
Proof.
  intros Hk Hid (U & l & Fs & D & o & f & Hs & Hf & Hn & Hl). unfold rewrite_chunk.
  destruct sample_device as [Hcfg Htn Hpg Haw Hal Hwr Hdata].
  apply (run_state_wp _ _ _ s (WriteChunkData_spec sample_cfg Hcfg Htn Hpg Haw Hal (mret YAFFS_OK) (fun _ => True) s U l Fs D
    the_file o f id (sample_data v) 512 false Hwr Hdata I Hs Hf ltac:(rewrite Hn; lia) Hid ltac:(lia)
    ltac:(change (nDataBytesPerChunk sample_cfg) with 512; lia) ltac:(by unfold sample_data; rewrite length_replicate))).
  intros r s' ((U' & l' & Fs' & D' & Hs') & [Hsp _] & Hw & _).
  assert (Hf' : exists o' f', is_file s' the_file o' f' /\ objId o' = objId o).
  { destruct Hw as [[_ Hd]|[_ Hd]]; destruct (Hd the_file o f Hf) as (o' & f' & H1 & H2 & _); by exists o', f'. }
  destruct Hf' as (o' & f' & Hf' & Hn'). exists U', l', Fs', D', o', f'. split; [done|]. split; [done|].
  split; [congruence|].
  pose proof (so_count _ _ _ _ (mo_store _ _ _ _ (fk_mem _ _ _ _ _ _ _ Hs))).
  pose proof (so_count _ _ _ _ (mo_store _ _ _ _ (fk_mem _ _ _ _ _ _ _ Hs'))). lia.
Qed.

Lemma worn_has_file : has_file 39 worn_fs.
Proof.
  assert (H0 : has_file 99 file_fs).
  { destruct file_fs_ok as (U & l & Fs & o & f & Hs & Hf & Hid & Hl & _). exists U, l, Fs, ∅, o, f.
    rewrite Hl. split; [done|]. split; [done|]. split; [done|lia]. }
  unfold worn_fs. cbn [Nat.iter nat_rect]. change 39 with (99 - 12 - 12 - 12 - 12 - 12).
  do 5 (apply rewrite_chunk_ok; [lia|lia|]). exact H0.
Qed.

Lemma worn_fs_ok : exists U l Fs D, fs_ok sample_cfg worn_fs U l Fs D.
Proof.
  destruct worn_has_file as (U & l & Fs & D & _ & _ & Hs & _). by exists U, l, Fs, D.
Qed.

Lemma worn_none_deleted : none_deleted worn_fs.
Proof.
  assert (H : map_Forall (fun _ o => deleted o = false) (objects (obs worn_fs))).
  { apply (bool_decide_unpack _). vm_compute. exact I. }
  intros a o [_ Ho]. exact (H a o Ho).
Qed.

(** The first chunk is all that is left of block 1: it is copied, and the block is erased. *)
Lemma CheckGarbageCollection_keeps_witness :
  (fun p => (nErasedBlocks (blks (dev worn_fs)), nErasedBlocks (blks (dev (snd p))), nGCCopies (stats (dev (snd p)))))
    <$> yaffs_CheckGarbageCollection sample_cfg worn_fs = Some (2, 3, 1) /\
  not_stopped sample_cfg worn_fs /\
  exists r s', watched_collection sample_cfg worn_fs = Some (r, s') /\ kept_all sample_cfg worn_fs s' /\
    match r with
    | Some gcOk => yaffs_CheckGarbageCollection sample_cfg worn_fs = Some (gcOk, s')
    | None => no_page sample_cfg true (dev s')
    end.
Proof.
  split; [vm_compute; reflexivity|]. split; [apply (bool_decide_unpack _); vm_compute; exact I|].
  destruct worn_fs_ok as (U & l & Fs & D & Hs).
  exact (CheckGarbageCollection_keeps sample_cfg sample_device (Z.le_refl 512) worn_fs U l Fs D Hs worn_none_deleted).
Defined.
