(* ===== verification/DataFile.v ===== *)
(** * Reading and writing files ([yaffs_guts.c])
    Bytes of a file are read and written chunk by chunk.  A part of a chunk goes through a slot
    of the cache (or, on a device without one, through a buffer of its own), a whole chunk
    straight to the flash.  [write] is [yaffs_WriteChunkDataToObject] throughout. *)
From S2P Require Import Prelude Monad ObjHeader Tags Device Nand Sim BlockInv Blocks Medium Blank Tnode Tree Objects File Steps Cache Names.

(** [memcpy(dest, src + start, n)]: what is copied, where the source is long enough. *)
Definition memcpy_from (start n : Z) (src : list Z) : option (list Z) :=
  if Z.of_nat (length src) <? start + n then None
  else Some (take (Z.to_nat n) (drop (Z.to_nat start) src)).

(** [memcpy(dest + start, src, length)], where the destination is long enough. *)
Definition memcpy_to (start : Z) (src dest : list Z) : option (list Z) :=
  if Z.of_nat (length dest) <? start + Z.of_nat (length src) then None
  else Some (list_inserts (Z.to_nat start) src dest).

Section data.
Context {N K : Type} {nd : NandDriver N} `{!Kmalloc K} `{!Clock K} (cfg : Config).
Local Abbreviation St := (FS N K).

(** A slot of the cache is loaded with a chunk. *)
Definition load_slot (cache in_ chunk : Z) : M St unit :=
  _ ← mod_slot cache (fun c => c <| cc_object := in_ |> <| cc_chunkId := chunk |>
                                 <| cc_dirty := false |> <| cc_locked := false |>);
  c ← get_slot cache;
  r ← yaffs_ReadChunkDataFromObject cfg in_ chunk (cc_data c);
  mod_slot cache (fun c => c <| cc_data := snd r |>).

Definition set_locked (cache : Z) (b : bool) : M St unit := mod_slot cache (fun c => c <| cc_locked := b |>).

(** [nToCopy] bytes of chunk [chunk] from byte [start] on, for [buffer], of which the first
    [nToCopy] bytes are meant. *)
Definition read_part (write : Writer N K) (in_ chunk start nToCopy : Z) (buffer : list Z) : M St (list Z) :=
  cache ← yaffs_FindChunkCache cfg in_ chunk;
  if (0 <=? cache) || negb (nToCopy =? nDataBytesPerChunk cfg) then
    if 0 <? nShortOpCaches cfg then
      cache ← (if 0 <=? cache then mret cache else
        cache ← yaffs_GrabChunkCache cfg write;
        _ ← load_slot cache in_ chunk;
        _ ← mod_slot cache (fun c => c <| cc_nBytes := 0 |>);
        mret cache);
      _ ← yaffs_UseChunkCache cfg cache false;
      _ ← set_locked cache true;
      c ← get_slot cache;
      piece ← of_option (memcpy_from start nToCopy (cc_data c));
      _ ← set_locked cache false;
      mret piece
    else
      r ← yaffs_ReadChunkDataFromObject cfg in_ chunk (temp_buffer cfg);
      of_option (memcpy_from start nToCopy (snd r))
  else
    r ← yaffs_ReadChunkDataFromObject cfg in_ chunk (take (Z.to_nat nToCopy) buffer);
    mret (snd r).

(** The number of the chunk of a file address, from 1 on, and the byte in it. *)
Definition chunk_of (offset : Z) : M St (Z * Z) :=
  a ← of_option (yaffs_AddrToChunk cfg offset);
  let '(chunk, start) := a in
  mret (i32 (i32 chunk + 1), i32 start).

(** How much of the [n] bytes is in the chunk. *)
Definition bytes_in_chunk (start n : Z) : Z :=
  if start + n <? nDataBytesPerChunk cfg then n else nDataBytesPerChunk cfg - start.

(** The loop, [fuel] passes at most: [nDone], and what is in the buffer then. *)
Fixpoint read_loop (fuel : nat) (write : Writer N K) (in_ : Z) (buffer : list Z) (offset n nDone : Z)
    : M St (Z * list Z) :=
  match fuel with
  | O => fail
  | S fuel =>
      if 0 <? n then
        a ← chunk_of offset;
        let '(chunk, start) := a in
        let nToCopy := bytes_in_chunk start n in
        piece ← read_part write in_ chunk start nToCopy buffer;
        if Z.of_nat (length buffer) <? nToCopy then fail else
        r ← read_loop fuel write in_ (drop (Z.to_nat nToCopy) buffer) (offset + nToCopy) (n - nToCopy)
              (nDone + nToCopy);
        mret (fst r, piece ++ snd r)
      else mret (nDone, buffer)
  end.

(** Every pass reads a byte at least. *)
Definition yaffs_ReadDataFromFile (write : Writer N K) (in_ : Z) (buffer : list Z) (offset nBytes : Z)
    : M St (Z * list Z) :=
  _ ← get_obj in_;
  read_loop (S (Z.to_nat nBytes)) write in_ buffer offset nBytes 0.

(** "calculate how many bytes to write back": as much as was there before. *)
Definition write_back (size chunk start n : Z) : Z :=
  if start + n <? nDataBytesPerChunk cfg then
    let nBytesRead := i32 (u32 (size - (chunk - 1) * nDataBytesPerChunk cfg)) in
    let nBytesRead := if nDataBytesPerChunk cfg <? nBytesRead then nDataBytesPerChunk cfg else nBytesRead in
    if start + n <? nBytesRead then nBytesRead else start + n
  else nDataBytesPerChunk cfg.

(** The slot a part of a chunk is written to, or -1.  A slot that was only read is not used if
    there is no space. *)
Definition slot_for_write (write : Writer N K) (in_ chunk : Z) : M St Z :=
  cache ← yaffs_FindChunkCache cfg in_ chunk;
  if cache <? 0 then
    space ← on_dev (yaffs_CheckSpaceForAllocation cfg);
    if (space : bool) then
      cache ← yaffs_GrabChunkCache cfg write;
      _ ← load_slot cache in_ chunk;
      mret cache
    else mret (-1)
  else
    c ← get_slot cache;
    if cc_dirty c then mret cache else
    space ← on_dev (yaffs_CheckSpaceForAllocation cfg);
    mret (if (space : bool) then cache else -1).

(** The bytes [piece] into a slot. *)
Definition copy_to_slot (cache start : Z) (piece : list Z) (nToWriteBack : Z) : M St unit :=
  _ ← yaffs_UseChunkCache cfg cache true;
  _ ← set_locked cache true;
  c ← get_slot cache;
  data ← of_option (memcpy_to start piece (cc_data c));
  _ ← mod_slot cache (fun c => c <| cc_data := data |>);
  mod_slot cache (fun c => c <| cc_locked := false |> <| cc_nBytes := nToWriteBack |>).

(** The bytes [piece] into chunk [chunk] from byte [start] on: the new [chunkWritten]. *)
Definition write_part (write : Writer N K) (in_ chunk start : Z) (piece : list Z) (nToWriteBack chunkWritten : Z)
    (writeThrough : bool) : M St Z :=
  if Z.of_nat (length piece) =? nDataBytesPerChunk cfg then
    r ← write in_ chunk piece (nDataBytesPerChunk cfg) false;
    _ ← yaffs_InvalidateChunkCache cfg in_ chunk;
    mret r
  else if 0 <? nShortOpCaches cfg then
    cache ← slot_for_write write in_ chunk;
    if 0 <=? cache then
      _ ← copy_to_slot cache start piece nToWriteBack;
      if writeThrough then
        c ← get_slot cache;
        r ← write (cc_object c) (cc_chunkId c) (cc_data c) (cc_nBytes c) true;
        _ ← mod_slot cache (fun c => c <| cc_dirty := false |>);
        mret r
      else mret chunkWritten
    else mret (-1)
  else
    r ← yaffs_ReadChunkDataFromObject cfg in_ chunk (temp_buffer cfg);
    data ← of_option (memcpy_to start piece (snd r));
    write in_ chunk data nToWriteBack false.

(** The loop, [fuel] passes at most: [nDone]. *)
Fixpoint write_loop (fuel : nat) (write : Writer N K) (in_ : Z) (buffer : list Z) (offset n nDone chunkWritten : Z)
    (writeThrough : bool) : M St Z :=
  match fuel with
  | O => fail
  | S fuel =>
      if (0 <? n) && (0 <=? chunkWritten) then
        a ← chunk_of offset;
        let '(chunk, start) := a in
        f ← get_file in_;
        let nToCopy := bytes_in_chunk start n in
        piece ← of_option (memcpy_from 0 nToCopy buffer);
        chunkWritten ← write_part write in_ chunk start piece (write_back (fileSize f) chunk start n) chunkWritten
                         writeThrough;
        if 0 <=? chunkWritten then
          write_loop fuel write in_ (drop (Z.to_nat nToCopy) buffer) (offset + nToCopy) (n - nToCopy)
            (nDone + nToCopy) chunkWritten writeThrough
        else write_loop fuel write in_ buffer offset n nDone chunkWritten writeThrough
      else mret nDone
  end.

(** Every pass but the last two writes a byte at least. *)
Definition yaffs_WriteDataToFile (write : Writer N K) (in_ : Z) (buffer : list Z) (offset nBytes : Z)
    (writeThrough : bool) : M St Z :=
  let startOfWrite := i32 offset in
  nDone ← write_loop (S (S (Z.to_nat nBytes))) write in_ buffer offset nBytes 0 0 writeThrough;
  f ← get_file in_;
  _ ← when (fileSize f <? u32 (startOfWrite + nDone)) (
    set_file in_ (f <| fileSize := u32 (startOfWrite + nDone) |>));
  _ ← mod_obj in_ (fun o => o <| dirty := true |>);
  mret nDone.

(** ** Size *)

(** [alias] of a symbolic link as a string; undefined if it could not be allocated. *)
Definition symlink_alias (o : Object) : option (list Z) :=
  match variant o with SymLinkVariant p t => if ztrue p then Some t else None | _ => None end.

Definition yaffs_GetFileSize (obj : Z) : M St Z :=
  obj ← yaffs_GetEquivalentObject cfg obj;
  o ← get_obj obj;
  if variantType o =? OBJECT_TYPE_FILE then f ← get_file obj; mret (fileSize f)
  else if variantType o =? OBJECT_TYPE_SYMLINK then
    s ← of_option (symlink_alias o); mret (Z.of_nat (length s))
  else mret 0.

(** The last chunk is cut and written again. *)
Definition cut_last_chunk (write : Writer N K) (in_ lastChunk size : Z) : M St unit :=
  r ← yaffs_ReadChunkDataFromObject cfg in_ lastChunk (temp_buffer cfg);
  data ← of_option (memcpy_to size (replicate (Z.to_nat (nDataBytesPerChunk cfg - size)) 0) (snd r));
  _ ← write in_ lastChunk data size true;
  mret tt.

(** The size as an [int], as the function returns it; the old size is of no use where the object
    is no file.  [collect] is [yaffs_CheckGarbageCollection]. *)
Definition yaffs_ResizeFile (collect : M St Z) (write : Writer N K) (in_ newSize : Z) : M St Z :=
  o ← get_obj in_;
  let oldFileSize := match variant o with FileVariant f => i32 (fileSize f) | _ => 0 end in
  a ← of_option (yaffs_AddrToChunk cfg newSize);
  let '(newFullChunks, newSizeOfPartialChunk) := a in
  _ ← yaffs_FlushFilesChunkCache cfg write in_;
  _ ← yaffs_InvalidateWholeChunkCache cfg in_;
  _ ← collect;
  o ← get_obj in_;
  if negb (variantType o =? OBJECT_TYPE_FILE) then r ← yaffs_GetFileSize in_; mret (i32 r) else
  if newSize =? oldFileSize then mret oldFileSize else
  _ ← (if newSize <? oldFileSize then
      _ ← yaffs_PruneResizedChunks cfg in_ (i32 newSize);
      _ ← when (ztrue newSizeOfPartialChunk)
            (cut_last_chunk write in_ (i32 (1 + i32 newFullChunks)) (i32 newSizeOfPartialChunk));
      f ← get_file in_;
      let f := f <| fileSize := u32 newSize |> in
      _ ← set_file in_ f;
      r ← on_tns (yaffs_PruneFileStructure f);
      set_file in_ (snd r)
    else
      f ← get_file in_;
      set_file in_ (f <| fileSize := u32 newSize |>));
  o ← get_obj in_;
  p ← get_obj (parent o);
  _ ← when (negb (objId p =? YAFFS_OBJECTID_UNLINKED) && negb (objId p =? YAFFS_OBJECTID_DELETED)) (
    _ ← yaffs_UpdateObjectHeader cfg collect in_ None false (newSize <? oldFileSize) 0;
    mret tt);
  mret (i32 newSize).

Definition yaffs_FlushFile (collect : M St Z) (write : Writer N K) (in_ : Z) (updateTime : bool) : M St Z :=
  o ← get_obj in_;
  if dirty o then
    _ ← yaffs_FlushFilesChunkCache cfg write in_;
    _ ← when updateTime (
      now ← gets (fun s => current_time (heap (tns s)));
      mod_obj in_ (fun o => o <| yst_mtime := now |>));
    r ← yaffs_UpdateObjectHeader cfg collect in_ None false false 0;
    mret (if 0 <=? r then YAFFS_OK else YAFFS_FAIL)
  else mret YAFFS_OK.
End data.
