(* ===== verification/Slots.v ===== *)
(** * The cache as part of what files contain
    What a chunk of a file reads as is what its slot of the cache holds, if it has one, and what
    is on flash otherwise.  The operations on slots leave that as it is.  A computation is
    followed in two ways: a [total] run must end, with the books right, whatever fails; a run
    with a writer that stops where no page is left must, if it ends, have lost nothing. *)
From S2P Require Import Prelude Monad ObjHeader Tags Device Nand Sim BlockInv Blocks Medium Blank Tnode Tree Objects File Steps Cache Names DataFile.

(** ** Total and partial runs *)
Section run.
Context {S : Type}.

Definition run {A} (total : bool) (m : M S A) (Q : A -> S -> Prop) (s : S) : Prop :=
  if total then wp m Q s else pc m Q s.

Lemma run_wp {A} b (m : M S A) (Q : A -> S -> Prop) s : wp m Q s -> run b m Q s.
Proof. destruct b; [done|]. apply pc_wp. Qed.

Lemma run_mono {A} b (m : M S A) (Q Q' : A -> S -> Prop) s :
  run b m Q s -> (forall a s', Q a s' -> Q' a s') -> run b m Q' s.
Proof. destruct b; intros H HQ; [by eapply wp_mono|by eapply pc_mono]. Qed.

Lemma run_ret {A} b (a : A) (Q : A -> S -> Prop) s : Q a s -> run b (mret a) Q s.
Proof. intros H. by apply run_wp, wp_ret. Qed.

Lemma run_bind {A B} b (m : M S A) (f : A -> M S B) (Q : B -> S -> Prop) s :
  run b m (fun a s' => run b (f a) Q s') s -> run b (mbind f m) Q s.
Proof. destruct b; [apply wp_bind|apply pc_bind]. Qed.

Lemma run_seq {A B} b (m : M S A) (f : A -> M S B) P (Q : B -> S -> Prop) s :
  run b m P s -> (forall a s', P a s' -> run b (f a) Q s') -> run b (mbind f m) Q s.
Proof. intros Hm Hf. apply run_bind. by eapply run_mono. Qed.

Lemma run_step {A B} b (m : M S A) (f : A -> M S B) P (Q : B -> S -> Prop) s :
  wp m P s -> (forall a s', P a s' -> run b (f a) Q s') -> run b (mbind f m) Q s.
Proof. intros Hm. apply run_seq. by apply run_wp. Qed.
End run.

(** ** The slots *)

Definition is_slot (a id : Z) (c : ChunkCache) : bool := (cc_object c =? a) && (cc_chunkId c =? id).

Definition slot_of (l : list ChunkCache) (a id : Z) : option ChunkCache := find (is_slot a id) l.

Lemma is_slot_true a id c : is_slot a id c = true <-> cc_object c = a /\ cc_chunkId c = id.
Proof. unfold is_slot. by rewrite andb_true_iff, !Z.eqb_eq. Qed.

Lemma slot_of_Some l a id c : distinct l -> a <> 0 ->
  slot_of l a id = Some c <-> exists i, l !! i = Some c /\ is_slot a id c = true.
Proof.
  intros Hd Ha. unfold slot_of. split.
  - intros [Hin Hc]%find_some. apply list_elem_of_In, list_elem_of_lookup in Hin as [i Hi]. by exists i.
  - intros (i & Hi & Hc). destruct (find _ l) as [c'|] eqn:E.
    + apply find_some in E as [Hin Hc']. apply list_elem_of_In, list_elem_of_lookup in Hin as [j Hj].
      apply is_slot_true in Hc as [H1 H2], Hc' as [H1' H2'].
      rewrite (Hd i j c c' Hi Hj) in Hj by congruence. congruence.
    + pose proof (find_none _ _ E c) as Hn. rewrite Hn in Hc; [done|].
      by apply list_elem_of_In, list_elem_of_lookup_2 with i.
Qed.

(** Slot [i] gets other contents. *)
Lemma slot_of_insert l i c c' a id :
  l !! i = Some c -> distinct l -> distinct (<[i := c']> l) -> a <> 0 ->
  slot_of (<[i := c']> l) a id =
    if is_slot a id c' then Some c' else if is_slot a id c then None else slot_of l a id.
Proof.
  intros Hi Hd Hd' Ha. pose proof (lookup_lt_Some _ _ _ Hi) as Hlt.
  destruct (is_slot a id c') eqn:E'.
  { apply slot_of_Some; [done..|]. exists i. split; [by apply list_lookup_insert_eq|done]. }
  apply option_eq. intros x. rewrite slot_of_Some by done. destruct (is_slot a id c) eqn:E.
  - split; [|done]. intros (j & Hj & Hx).
    apply list_lookup_insert_Some in Hj as [(_ & <- & _)|[Hne Hj]]; [congruence|].
    apply is_slot_true in E as [H1 H2], Hx as [H3 H4]. destruct Hne. symmetry. apply (Hd i j c x); congruence.
  - rewrite slot_of_Some by done. split; intros (j & Hj & Hx); exists j; (split; [|done]).
    + apply list_lookup_insert_Some in Hj as [(_ & <- & _)|[_ Hj]]; congruence.
    + rewrite list_lookup_insert_ne; [done|]. intros ->. congruence.
Qed.

(** A slot that is for the same chunk as before, or for none, or for one that no slot is for. *)
Lemma distinct_insert l i c c' :
  l !! i = Some c -> distinct l ->
  (cc_object c' <> 0 -> is_slot (cc_object c') (cc_chunkId c') c = true \/ slot_of l (cc_object c') (cc_chunkId c') = None) ->
  distinct (<[i := c']> l).
Proof.
  intros Hi Hd Hc' j k cj ck Hj Hk Hne H1 H2.
  assert (Hother : forall m x, l !! m = Some x -> m <> i -> cc_object x <> 0 -> cc_object c' = cc_object x ->
    cc_chunkId c' = cc_chunkId x -> False).
  { intros m x Hm Hmi Hx0 Ho Hid. destruct Hc' as [Hsame|Hnone]; [congruence| |].
    - apply is_slot_true in Hsame as [E1 E2]. destruct Hmi. apply (Hd i m c x); congruence.
    - unfold slot_of in Hnone. pose proof (find_none _ _ Hnone x) as Hn.
      assert (He : is_slot (cc_object c') (cc_chunkId c') x = true) by by apply is_slot_true.
      rewrite Hn in He; [done|]. by apply list_elem_of_In, list_elem_of_lookup_2 with m. }
  apply list_lookup_insert_Some in Hj as [(-> & <- & _)|[Hij Hj]];
    apply list_lookup_insert_Some in Hk as [(-> & <- & _)|[Hik Hk]]; [done| | |by apply (Hd j k cj ck)].
  - destruct (Hother k ck Hk); [done|congruence..].
  - destruct (Hother j cj Hj); [done|congruence..].
Qed.

(** How many slots wait to be written. *)
Definition dirties (l : list ChunkCache) : Z := sumZ (fun c => ind (negb (cc_object c =? 0) && cc_dirty c)) l.

Lemma dirties_insert l i c c' : l !! i = Some c ->
  dirties (<[i := c']> l) = dirties l - ind (negb (cc_object c =? 0) && cc_dirty c)
    + ind (negb (cc_object c' =? 0) && cc_dirty c').
Proof. intros Hi. unfold dirties. rewrite (sumZ_insert _ l i c) by done. lia. Qed.

Lemma dirties_range l : 0 <= dirties l <= Z.of_nat (length l).
Proof.
  unfold dirties. split; [apply sumZ_nonneg; intros; apply ind_range|].
  etrans; [apply (sumZ_le _ (fun _ => 1)); intros; apply ind_range|]. rewrite sumZ_const. lia.
Qed.

Section slots.
Context {N K : Type} {nd : NandDriver N} `{!Kmalloc K} `{!KmallocLaws K} (cfg : Config).
Context {nf : NandFrame nd cfg} {nm : NandMedium nd cfg} {nb : NandBlank nd cfg}.
Context (Hdev : device_ok cfg).
Implicit Types (s : FS N K) (o : Object) (f : FileStructure).
Local Abbreviation Hcfg := (dv_cfg cfg Hdev).
Local Abbreviation Htn := (dv_tnodes cfg Hdev).
Local Abbreviation Hpg := (dv_plain cfg Hdev).
Let n := nDataBytesPerChunk cfg.

(** What is on flash for a chunk, and what it reads as. *)
Definition on_flash s (a id : Z) : list Z := default (replicate (Z.to_nat n) 0) (file_data cfg s a id).
Definition reads_as s (a id : Z) : list Z :=
  match slot_of (srCache (caches s)) a id with
  | Some c => cc_data c
  | None => on_flash s a id
  end.

(** A slot has a buffer, and one in use is for a chunk of a file. *)
Record slot_safe s (c : ChunkCache) : Prop := {
  ss_locked : cc_locked c = false;
  ss_data : Z.of_nat (length (cc_data c)) = n;
  ss_file : cc_object c <> 0 -> exists o f, is_file s (cc_object c) o f /\ 0 <= objId o < 2 ^ 18;
  ss_chunk : cc_object c <> 0 -> 1 <= cc_chunkId c <= YAFFS_MAX_CHUNK_ID;
  ss_bytes : cc_object c <> 0 -> cc_dirty c = true -> 0 <= cc_nBytes c <= n
}.

Record slots_safe s : Prop := {
  sl_size : Z.of_nat (length (srCache (caches s))) = nShortOpCaches cfg;
  sl_each : Forall (slot_safe s) (srCache (caches s));
  sl_distinct : distinct (srCache (caches s))
}.

(** A slot that need not be written has what is on flash. *)
Definition coherent s : Prop := forall i c, srCache (caches s) !! i = Some c -> cc_object c <> 0 -> cc_dirty c = false ->
  cc_data c = on_flash s (cc_object c) (cc_chunkId c).

(** The books, with tnodes for the slots that wait and for [k] more chunks. *)
Record books (inv : FS N K -> Prop) (k : Z) s : Prop := {
  bo_fs : exists U l Fs D, fs_ok cfg s U l Fs D;
  bo_free : 12 * (dirties (srCache (caches s)) + k) <= nFreeTnodes (tns s);
  bo_slots : slots_safe s;
  bo_inv : inv s
}.

(** All files are there, and their chunks read as [g] says. *)
Definition now s s' (g : Z -> Z -> list Z) : Prop := forall a o f, is_file s a o f ->
  exists o' f', is_file s' a o' f' /\ objId o' = objId o /\ fileSize f' = fileSize f /\
    forall id, 0 <= id <= YAFFS_MAX_CHUNK_ID -> reads_as s' a id = g a id.
Definition reads_same s s' : Prop := now s s' (reads_as s).

Lemma now_trans s1 s2 s3 g h k : now s1 s2 g -> now s2 s3 h ->
  (forall a o f id, is_file s1 a o f -> 0 <= id <= YAFFS_MAX_CHUNK_ID -> reads_as s2 a id = g a id -> h a id = k a id) ->
  now s1 s3 k.
Proof.
  intros H1 H2 Hk a o f Hf. destruct (H1 a o f Hf) as (o2 & f2 & Hf2 & I2 & S2 & E2).
  destruct (H2 a o2 f2 Hf2) as (o3 & f3 & Hf3 & I3 & S3 & E3). exists o3, f3.
  split; [done|]. split; [congruence|]. split; [congruence|]. intros id Hid.
  rewrite E3 by done. apply (Hk a o f); [done|done|by apply E2].
Qed.

Lemma reads_same_trans s1 s2 s3 : reads_same s1 s2 -> reads_same s2 s3 -> reads_same s1 s3.
Proof. intros H1 H2. eapply now_trans; [exact H1|exact H2|]. done. Qed.

Lemma reads_same_refl s : reads_same s s.
Proof. intros a o f Hf. by exists o, f. Qed.

(** ** Steps *)

(** The files are there and the slots are safe; and where the slots were coherent they are
    again, and chunks read as [g] says.  In a total run only the first is known. *)
Record step (total : bool) s s' (g : Z -> Z -> list Z) : Prop := {
  st_files : same_files cfg s s';
  st_safe : slots_safe s';
  st_reads : total = false -> coherent s -> coherent s' /\ now s s' g
}.
Definition keeps total s s' : Prop := step total s s' (reads_as s).

Lemma step_trans b s1 s2 s3 g h k : step b s1 s2 g -> step b s2 s3 h ->
  (forall a o f id, is_file s1 a o f -> 0 <= id <= YAFFS_MAX_CHUNK_ID -> reads_as s2 a id = g a id -> h a id = k a id) ->
  step b s1 s3 k.
Proof.
  intros [A1 A2 A3] [B1 B2 B3] Hk. split; [by eapply same_files_trans|done|]. intros Hb Hc.
  destruct (A3 Hb Hc) as [Hc2 Hn2]. destruct (B3 Hb Hc2) as [Hc3 Hn3]. split; [done|]. by eapply now_trans.
Qed.

Lemma keeps_trans b s1 s2 s3 : keeps b s1 s2 -> keeps b s2 s3 -> keeps b s1 s3.
Proof. intros H1 H2. eapply step_trans; [exact H1|exact H2|]. done. Qed.

Lemma same_files_refl s : same_files cfg s s.
Proof. intros a o f Hf. by exists o, f. Qed.

Lemma keeps_refl b s : slots_safe s -> keeps b s s.
Proof. intros Hs. split; [apply same_files_refl|done|]. intros _ Hc. split; [done|apply reads_same_refl]. Qed.

Lemma slot_safe_files s s' c : same_files cfg s s' -> slot_safe s c -> slot_safe s' c.
Proof.
  intros Hf [H1 H2 H3 H4 H5]. split; [done|done| |done|done]. intros Hc. destruct (H3 Hc) as (o & f & Ho & Hn).
  destruct (Hf _ o f Ho) as (o' & f' & Ho' & Hi & _). exists o', f'. split; [done|]. by rewrite Hi.
Qed.

Lemma safe_file s i c : slots_safe s -> srCache (caches s) !! i = Some c -> cc_object c <> 0 ->
  exists o f, is_file s (cc_object c) o f /\ 0 <= cc_chunkId c <= YAFFS_MAX_CHUNK_ID.
Proof.
  intros [_ He _] Hi Hne. destruct (proj1 (Forall_lookup _ _) He i c Hi) as [_ _ Hf Hid _].
  destruct (Hf Hne) as (o & f & Ho & _). exists o, f. split; [done|]. pose proof (Hid Hne). lia.
Qed.

(** Steps that leave the slots, and chunks as they are on flash. *)
Lemma data_kept_keeps b s s' : slots_safe s -> data_kept cfg s s' -> caches s' = caches s -> keeps b s s'.
Proof.
  intros Hs Hd Hc. assert (Hfiles : same_files cfg s s') by by apply (same_files_step cfg s s' (file_data cfg s)).
  split; [done| |].
  - destruct Hs as [H1 H2 H3]. split; rewrite ?Hc; [done| |done]. eapply Forall_impl; [exact H2|].
    intros c. by apply slot_safe_files.
  - intros _ Hco.
    assert (Hfl : forall a o f id, is_file s a o f -> 0 <= id <= YAFFS_MAX_CHUNK_ID -> on_flash s' a id = on_flash s a id).
    { intros a o f id Hf Hid. unfold on_flash. destruct (Hd a o f Hf) as (o' & f' & _ & _ & _ & E). by rewrite E. }
    split.
    + intros i c. rewrite Hc. intros Hi Hne Hdc. rewrite (Hco i c Hi Hne Hdc).
      destruct (safe_file s i c Hs Hi Hne) as (o & f & Hf & Hid). by rewrite (Hfl _ o f).
    + intros a o f Hf. destruct (Hd a o f Hf) as (o' & f' & Hf' & H1 & H2 & _). exists o', f'.
      split; [done|]. split; [done|]. split; [done|]. intros id Hid. unfold reads_as. rewrite Hc.
      destruct (slot_of _ a id); [done|]. by apply (Hfl a o f).
Qed.

(** Slot [i] becomes [c'], and nothing else changes. *)
Definition put_slot s (i : nat) (c' : ChunkCache) : FS N K := with_slots s (<[i := c']> (srCache (caches s))).

Lemma put_slot_slots s i c' : srCache (caches (put_slot s i c')) = <[i := c']> (srCache (caches s)).
Proof. done. Qed.

Lemma put_slot_step b s i c c' g :
  slots_safe s -> srCache (caches s) !! i = Some c -> slot_safe s c' -> distinct (<[i := c']> (srCache (caches s))) ->
  (b = false -> coherent s ->
    (cc_object c' <> 0 -> cc_dirty c' = false -> cc_data c' = on_flash s (cc_object c') (cc_chunkId c')) /\
    forall a o f id, is_file s a o f -> a <> 0 -> 0 <= id <= YAFFS_MAX_CHUNK_ID ->
      (if is_slot a id c' then cc_data c' else if is_slot a id c then on_flash s a id else reads_as s a id) = g a id) ->
  (forall a o f, is_file s a o f -> a <> 0) ->
  step b s (put_slot s i c') g.
Proof.
  intros [H1 H2 H3] Hi Hc' Hdis Hg Hnz. split.
  - intros a o f Hf. by exists o, f.
  - split; rewrite ?put_slot_slots; [by rewrite length_insert| |done]. 
    assert (Hfiles : same_files cfg s (put_slot s i c')) by (intros a o f Hf; by exists o, f).
    apply Forall_insert; [|by apply (slot_safe_files s)].
    eapply Forall_impl; [exact H2|]. intros x. by apply slot_safe_files.
  - intros Hb Hco. destruct (Hg Hb Hco) as [Hcc Hr]. split.
    + intros j x. rewrite put_slot_slots. intros Hj.
      apply list_lookup_insert_Some in Hj as [(_ & <- & _)|[_ Hj]]; [done|]. by apply (Hco j).
    + intros a o f Hf. exists o, f. split; [done|]. split; [done|]. split; [done|]. intros id Hid.
      pose proof (Hnz a o f Hf) as Ha. rewrite <- (Hr a o f id) by done. unfold reads_as. rewrite put_slot_slots.
      rewrite (slot_of_insert _ i c c') by done. destruct (is_slot a id c'); [done|]. by destruct (is_slot a id c).
Qed.

(** ** The writer *)

(** No object is new, and the deleted ones are the same. *)
Definition quiet s s' : Prop := forall a o', is_object s' a o' -> exists o, is_object s a o /\ deleted o' = deleted o.

Lemma quiet_objects s s' : obs s' = obs s -> quiet s s'.
Proof. intros H a o' [Hh Ho]. exists o'. unfold is_object. by rewrite <- H. Qed.

Lemma quiet_trans s1 s2 s3 : quiet s1 s2 -> quiet s2 s3 -> quiet s1 s3.
Proof.
  intros H1 H2 a o3 Ho3. destruct (H2 a o3 Ho3) as (o2 & Ho2 & E2). destruct (H1 a o2 Ho2) as (o1 & Ho1 & E1).
  exists o1. split; [done|congruence].
Qed.

(** What writes a chunk of a file, in states with [inv]: it ends and keeps the books, if the run
    is [total], and gives a number below 0 in no other run. *)
Class FileWriter (total : bool) (write : Writer N K) (inv : FS N K -> Prop) : Prop := {
  fw_quiet : forall s s', inv s -> quiet s s' -> inv s';
  fw_write : forall s U l Fs D a o f id buffer nBytes useReserve, inv s -> fs_ok cfg s U l Fs D ->
    is_file s a o f -> 0 <= objId o < 2 ^ 18 -> 1 <= id <= YAFFS_MAX_CHUNK_ID -> (12 <= length l)%nat ->
    0 <= nBytes <= n -> Z.of_nat (length buffer) = n ->
    run total (write a id buffer nBytes useReserve) (fun r s' =>
      (exists U' l' Fs' D', fs_ok cfg s' U' l' Fs' D') /\ inv s' /\ spent 12 s s' /\
      after_write cfg s s' a id buffer r /\ (r = -1 -> total = true)) s
}.

Context (total : bool) (write : Writer N K) (inv : FS N K -> Prop) {fw : FileWriter total write inv}.

Lemma books_live k s : books inv k s -> forall a o f, is_file s a o f -> a <> 0.
Proof. intros [(U & l & Fs & D & Hs) _ _ _] a o f. by eapply live_not_0. Qed.

Lemma books_safe k s : books inv k s -> slots_safe s.
Proof. by intros []. Qed.

(** The books after slot [i] was changed. *)
Lemma books_put k k' s i c c' g :
  books inv k s -> srCache (caches s) !! i = Some c -> step total s (put_slot s i c') g ->
  k' + ind (negb (cc_object c' =? 0) && cc_dirty c') <= k + ind (negb (cc_object c =? 0) && cc_dirty c) ->
  books inv k' (put_slot s i c').
Proof.
  intros [(U & l & Fs & D & Hs) Hfree _ Hinv] Hi [_ Hsafe _] Hk. split.
  - exists U, l, Fs, D. by apply fs_but_slots.
  - rewrite put_slot_slots, (dirties_insert _ _ c) by done.
    change (nFreeTnodes (tns (put_slot s i c'))) with (nFreeTnodes (tns s)). lia.
  - done.
  - apply (fw_quiet s); [done|]. by apply quiet_objects.
Qed.

(** One chunk is written. *)
Lemma write_spec k s a o f id buffer nBytes useReserve :
  books inv k s -> 0 < dirties (srCache (caches s)) + k ->
  is_file s a o f -> 0 <= objId o < 2 ^ 18 -> 1 <= id <= YAFFS_MAX_CHUNK_ID ->
  0 <= nBytes <= n -> Z.of_nat (length buffer) = n ->
  run total (write a id buffer nBytes useReserve) (fun r s' =>
    books inv (k - 1) s' /\ caches s' = caches s /\ after_write cfg s s' a id buffer r /\
    (r = -1 -> total = true)) s.
Proof.
  intros [(U & l & Fs & D & Hs) Hfree Hsl Hinv] Hpos Hf Hnum Hid HnB Hb.
  pose proof (so_count _ _ _ _ (mo_store _ _ _ _ (fk_mem _ _ _ _ _ _ _ Hs))) as Hl.
  eapply run_mono; [apply (fw_write s U l Fs D a o f id buffer nBytes useReserve); try done; lia|].
  intros r s' (Hs' & Hinv' & [Hsp Hc] & Hw & Ht). split; [|done]. split; [done| | |done].
  - rewrite Hc. lia.
  - assert (Hfiles : same_files cfg s s').
    { destruct Hw as [[_ Hw]|[_ Hw]]; by eapply same_files_step. }
    destruct Hsl as [H1 H2 H3]. split; rewrite ?Hc; [done| |done]. eapply Forall_impl; [exact H2|].
    intros x. by apply slot_safe_files.
Qed.

(** What is on flash after a chunk was written. *)
Lemma after_write_flash s s1 a id d r x o f y : after_write cfg s s1 a id d r -> 0 < r ->
  is_file s x o f -> 0 <= y <= YAFFS_MAX_CHUNK_ID ->
  on_flash s1 x y = if (x =? a) && (y =? id) then d else on_flash s x y.
Proof.
  intros [[-> _]|[_ Hw]] Hr Hf Hy; [lia|]. destruct (Hw x o f Hf) as (_ & _ & _ & _ & _ & E).
  unfold on_flash. rewrite E by done. unfold with_chunk. by destruct (_ && _).
Qed.

Lemma after_write_files s s1 a id d r : after_write cfg s s1 a id d r -> same_files cfg s s1.
Proof. intros [[_ Hw]|[_ Hw]]; by eapply same_files_step. Qed.

Lemma lossless r : (r = -1 -> total = true) -> forall s s1 a id d, after_write cfg s s1 a id d r -> total = false -> 0 < r.
Proof. intros Hr s s1 a id d [[-> _]|[? _]] Ht; [|done]. by rewrite Hr in Ht. Qed.

(** Writing what a slot holds, to its chunk. *)
Lemma after_write_keeps k s s1 i c r :
  books inv k s -> slots_safe s1 -> caches s1 = caches s -> srCache (caches s) !! i = Some c -> cc_object c <> 0 ->
  after_write cfg s s1 (cc_object c) (cc_chunkId c) (cc_data c) r -> (r = -1 -> total = true) ->
  keeps total s s1 /\ (total = false -> on_flash s1 (cc_object c) (cc_chunkId c) = cc_data c).
Proof.
  intros Hbo Hs1 Hc Hi Hne Hw Hr. pose proof (books_safe k s Hbo) as Hs.
  pose proof (books_live k s Hbo) as Hnz. destruct (safe_file s i c Hs Hi Hne) as (oc & fc & Hfc & Hidc).
  assert (Hown : total = false -> on_flash s1 (cc_object c) (cc_chunkId c) = cc_data c).
  { intros Ht. pose proof (lossless r Hr _ _ _ _ _ Hw Ht) as Hpos.
    rewrite (after_write_flash s s1 _ _ _ r _ oc fc _ Hw Hpos) by done. by rewrite !Z.eqb_refl. }
  split; [|done]. split; [by eapply after_write_files|done|]. intros Ht Hco.
  pose proof (lossless r Hr _ _ _ _ _ Hw Ht) as Hpos. split.
  - intros j x. rewrite Hc. intros Hj Hx0 Hxd. destruct (is_slot (cc_object c) (cc_chunkId c) x) eqn:Ek.
    + apply is_slot_true in Ek as [E1 E2]. rewrite E1, E2.
      assert (j = i) as -> by (apply (sl_distinct _ Hs i j c x); congruence).
      rewrite Hi in Hj. injection Hj as <-. by rewrite Hown.
    + destruct (safe_file s j x Hs Hj Hx0) as (o & f & Hf & Hid).
      rewrite (after_write_flash s s1 _ _ _ r _ o f _ Hw Hpos) by done. unfold is_slot in Ek. rewrite Ek. by apply (Hco j).
  - intros a o f Hf. destruct Hw as [[-> _]|[_ Hw]]; [lia|].
    destruct (Hw a o f Hf) as (o' & f' & Hf' & H1 & H2 & E). exists o', f'. split; [done|]. split; [done|]. split; [done|].
    intros id Hid. unfold reads_as. rewrite Hc. destruct (slot_of _ a id) as [x|] eqn:Ex; [done|].
    unfold on_flash. rewrite E by done. unfold with_chunk.
    destruct ((a =? cc_object c) && (id =? cc_chunkId c)) eqn:Ek; [|done].
    apply andb_true_iff in Ek as [->%Z.eqb_eq ->%Z.eqb_eq].
    assert (Hsome : slot_of (srCache (caches s)) (cc_object c) (cc_chunkId c) = Some c).
    { apply slot_of_Some; [apply Hs|done|]. exists i. split; [done|]. by apply is_slot_true. }
    congruence.
Qed.

Lemma slot_safe_clean s c : slot_safe s c -> slot_safe s (clean_slot c).
Proof. by intros [H1 H2 _ _ _]. Qed.

Lemma is_slot_clean a id c : a <> 0 -> is_slot a id (clean_slot c) = false.
Proof. intros Ha. unfold is_slot, clean_slot. simp_fields. by rewrite (proj2 (Z.eqb_neq 0 a)). Qed.

(** A slot that is emptied, where the flash has what it held. *)
Lemma clean_keeps k s i c :
  books inv k s -> srCache (caches s) !! i = Some c ->
  (total = false -> coherent s -> cc_object c <> 0 -> on_flash s (cc_object c) (cc_chunkId c) = cc_data c) ->
  keeps total s (put_slot s i (clean_slot c)).
Proof.
  intros Hbo Hi Hfl. pose proof (books_safe k s Hbo) as Hs.
  apply (put_slot_step total s i c (clean_slot c)); [done|done| | | |by apply (books_live k)].
  - apply slot_safe_clean. by apply (proj1 (Forall_lookup _ _) (sl_each _ Hs) i).
  - apply distinct_clean; [done|apply Hs].
  - intros Ht Hco. split; [done|]. intros a o f id Hf Ha Hid. rewrite is_slot_clean by done.
    destruct (is_slot a id c) eqn:Ek; [|done]. pose proof Ek as [E1 E2]%is_slot_true. subst a id.
    unfold reads_as. rewrite (proj2 (slot_of_Some _ _ _ c (sl_distinct _ Hs) Ha)) by by exists i.
    by apply Hfl.
Qed.

(** ** Flushing *)

Definition has_empty s : Prop := exists i c, srCache (caches s) !! i = Some c /\ cc_object c = 0.

Lemma has_empty_clean s i c : srCache (caches s) !! i = Some c -> has_empty (put_slot s i (clean_slot c)).
Proof.
  intros Hi. exists i, (clean_slot c). split; [|done]. rewrite put_slot_slots.
  exact (list_lookup_insert_eq _ _ _ (lookup_lt_Some _ _ _ Hi)).
Qed.

(** Slots in use are as before; others may have been emptied. *)
Definition fewer s s' : Prop := forall i c, srCache (caches s') !! i = Some c -> cc_object c <> 0 ->
  srCache (caches s) !! i = Some c.

Lemma fewer_refl s : fewer s s.
Proof. by intros i c. Qed.

Lemma fewer_trans s1 s2 s3 : fewer s1 s2 -> fewer s2 s3 -> fewer s1 s3.
Proof. intros H1 H2 i c Hc Hne. apply H1; [|done]. by apply H2. Qed.

Lemma fewer_clean s s1 i c : srCache (caches s1) = srCache (caches s) -> fewer s (put_slot s1 i (clean_slot c)).
Proof.
  intros Hs j x. rewrite put_slot_slots, Hs. intros [(_ & <- & _)|[_ Hj]]%list_lookup_insert_Some Hne; done.
Qed.

Lemma fewer_none s s' a id : fewer s s' -> slots_safe s -> slots_safe s' -> a <> 0 ->
  slot_of (srCache (caches s)) a id = None -> slot_of (srCache (caches s')) a id = None.
Proof.
  intros Hf Hs Hs' Ha Hno. destruct (slot_of (srCache (caches s')) a id) as [c|] eqn:E; [|done].
  apply slot_of_Some in E as (i & Hi & Hc); [|apply Hs'|done].
  rewrite (proj2 (slot_of_Some _ _ _ c (sl_distinct _ Hs) Ha)) in Hno; [done|]. exists i. split; [|done].
  apply Hf; [done|]. apply is_slot_true in Hc as [-> _]. done.
Qed.

Lemma run_clean_slot {B} i c (kont : M (FS N K) B) (Q : B -> FS N K -> Prop) s :
  0 <= i -> srCache (caches s) !! Z.to_nat i = Some c ->
  run total kont Q (put_slot s (Z.to_nat i) (clean_slot c)) ->
  run total (_ ← mod_slot i (fun c => c <| cc_dirty := false |>);
             _ ← mod_slot i (fun c => c <| cc_object := 0 |>); kont) Q s.
Proof.
  intros Hi Hc HQ. pose proof (lookup_lt_Some _ _ _ Hc) as Hlt.
  apply run_bind, run_wp, (wp_mod_slot i c); [done|done|].
  apply run_bind, run_wp, (wp_mod_slot i (c <| cc_dirty := false |>)); [done|simp_fields; by apply list_lookup_insert_eq|].
  unfold put_slot, with_slots, clean_slot in HQ. simp_fields. rewrite list_insert_insert_eq. exact HQ.
Qed.

(** One slot is written and emptied. *)
Lemma flush_slot k s i c (useReserve : bool) : books inv k s -> 0 <= k -> srCache (caches s) !! i = Some c ->
  cc_object c <> 0 -> cc_dirty c = true ->
  run total (write (cc_object c) (cc_chunkId c) (cc_data c) (cc_nBytes c) useReserve) (fun r s1 =>
    srCache (caches s1) = srCache (caches s) /\ (total = false -> 0 < r) /\
    books inv k (put_slot s1 i (clean_slot c)) /\ keeps total s (put_slot s1 i (clean_slot c))) s.
Proof.
  intros Hbo Hk Hi Hne Hd. pose proof (books_safe k s Hbo) as Hs.
  destruct (proj1 (Forall_lookup _ _) (sl_each _ Hs) i c Hi) as [_ Hlen Hfile Hid HnB].
  destruct (Hfile Hne) as (o & f & Hf & Hnum).
  assert (Hone : ind (negb (cc_object c =? 0) && cc_dirty c) = 1) by (by rewrite Hd, (proj2 (Z.eqb_neq _ 0) Hne)).
  assert (Hpos : 0 < dirties (srCache (caches s))).
  { pose proof (dirties_range (<[i := clean_slot c]> (srCache (caches s)))) as Hr.
    rewrite (dirties_insert _ _ c), Hone in Hr by done. unfold clean_slot in Hr. simp_fields_in Hr. cbn [ind negb andb Z.eqb] in Hr. lia. }
  eapply run_mono; [apply (write_spec k s (cc_object c) o f); [done|lia|done|done|by apply Hid|by apply HnB|done]|].
  intros r s1 (Hbo1 & Hc & Hw & Hr). rewrite Hc.
  assert (Hi1 : srCache (caches s1) !! i = Some c) by by rewrite Hc.
  destruct (after_write_keeps k s s1 i c r Hbo (books_safe _ _ Hbo1) Hc Hi Hne Hw Hr) as [Hk1 Hown].
  pose proof (clean_keeps (k - 1) s1 i c Hbo1 Hi1 (fun Ht _ _ => Hown Ht)) as Hk2.
  split; [done|]. split; [intros Ht; by apply (lossless r Hr _ _ _ _ _ Hw)|]. split; [|by eapply keeps_trans].
  apply (books_put (k - 1) k s1 i c _ (reads_as s1)); [done|done|done|]. rewrite Hone. unfold clean_slot. simp_fields.
  cbn [ind negb andb Z.eqb]. lia.
Qed.

Lemma flush_loop_run fuel : forall k s a o f w, books inv k s -> 0 <= k -> is_file s a o f ->
  dirty_count (srCache (caches s)) a < Z.of_nat fuel ->
  run total (flush_loop cfg fuel write a w) (fun _ s' => books inv k s' /\ keeps total s s' /\ fewer s s' /\
    (has_empty s \/ 0 < dirty_count (srCache (caches s)) a -> has_empty s') /\
    (total = false -> dirty_count (srCache (caches s')) a = 0)) s.
Proof.
  induction fuel as [|fuel IH]; intros k s a o f w Hbo Hk Hf Hfuel.
  { pose proof (dirty_count_range (srCache (caches s)) a). lia. }
  pose proof (books_safe k s Hbo) as Hs. pose proof (books_live k s Hbo a o f Hf) as Ha.
  cbn [flush_loop]. eapply run_step; [by apply (lowest_dirty_spec cfg), sl_size|].
  intros [i low] s0 [-> Hr]. cbn [fst] in *. cbv zeta.
  destruct Hr as [[-> Hnone]|(c & Hi & Hc & Hobj & Hd)].
  { apply run_ret. split; [done|]. split; [by apply keeps_refl|]. split; [apply fewer_refl|].
    split; [|done]. intros [?|?]; [done|lia]. }
  rewrite (proj2 (Z.ltb_ge i 0)) by done. eapply run_bind, run_wp, (wp_get_slot i c); [done|done|].
  destruct (proj1 (Forall_lookup _ _) (sl_each _ Hs) _ c Hc) as [Hlk _ _ _ _]. rewrite Hlk.
  eapply run_seq; [apply (flush_slot k s (Z.to_nat i) c true); [done|done|done|by rewrite Hobj|done]|].
  intros r s1 (Hc1 & Hr & Hbo2 & Hk2).
  assert (Hi1 : srCache (caches s1) !! Z.to_nat i = Some c) by by rewrite Hc1.
  apply (run_clean_slot i c); [done|done|]. set (s2 := put_slot s1 _ _) in *.
  assert (Hcount : dirty_count (srCache (caches s2)) a = dirty_count (srCache (caches s)) a - 1).
  { unfold s2. rewrite put_slot_slots, Hc1. by apply (dirty_count_clean _ _ c). }
  assert (He : has_empty s2) by by apply has_empty_clean. assert (Hfw : fewer s s2) by by apply fewer_clean.
  destruct (Z.ltb_spec 0 r) as [Hpos|Hneg].
  - destruct (st_files _ _ _ _ Hk2 a o f Hf) as (o2 & f2 & Hf2 & _).
    eapply run_mono; [apply (IH k s2 a o2 f2 r); [done|done|done|lia]|].
    intros [] s3 (Hbo3 & Hk3 & Hfw3 & He3 & Hz). split; [done|]. split; [by eapply keeps_trans|].
    split; [by eapply fewer_trans|]. split; [|done].
    intros _. apply He3. by left.
  - apply run_ret. do 4 (split; [done|]). intros Ht. specialize (Hr Ht). lia.
Qed.

Lemma Flush_run k s a o f : books inv k s -> 0 <= k -> is_file s a o f ->
  run total (yaffs_FlushFilesChunkCache cfg write a) (fun _ s' => books inv k s' /\ keeps total s s' /\ fewer s s' /\
    (has_empty s \/ 0 < dirty_count (srCache (caches s)) a -> has_empty s') /\
    (total = false -> dirty_count (srCache (caches s')) a = 0)) s.
Proof.
  intros Hbo Hk Hf. unfold yaffs_FlushFilesChunkCache. eapply run_bind, run_wp, (wp_get_obj a o); [apply Hf|].
  pose proof (dirty_count_range (srCache (caches s)) a) as Hr. rewrite (sl_size _ (books_safe k s Hbo)) in Hr.
  unfold when. destruct (Z.ltb_spec 0 (nShortOpCaches cfg)).
  - apply (flush_loop_run _ k s a o f); [done..|]. unfold flush_fuel. lia.
  - apply run_ret. split; [done|]. split; [by eapply keeps_refl, books_safe|]. split; [apply fewer_refl|].
    split; [|lia]. intros [?|?]; [done|lia].
Qed.

(** ** Getting a slot *)

Lemma slot_index s d i r : slots_safe s -> slots cfg = d ++ i :: r ->
  i = Z.of_nat (length d) /\ exists c, srCache (caches s) !! Z.to_nat i = Some c /\ 0 <= i /\ slot_safe s c.
Proof.
  intros [Hsz He _] Hseq. unfold slots in Hseq. apply seqZ_split in Hseq as [-> Hi].
  rewrite Z.add_0_l, Nat2Z.id in *. split; [done|].
  destruct (lookup_lt_is_Some_2 (srCache (caches s)) (length d)) as [c Hc]; [lia|].
  exists c. split; [done|]. split; [lia|]. by apply (proj1 (Forall_lookup _ _) He (length d)).
Qed.

Lemma GrabWorker_spec s : slots_safe s ->
  wp (yaffs_GrabChunkCacheWorker cfg) (fun i s' => s' = s /\
    ((exists c, 0 <= i /\ srCache (caches s) !! Z.to_nat i = Some c /\ cc_object c = 0) \/
     (i = -1 /\ ~ has_empty s))) s.
Proof.
  intros Hs. unfold yaffs_GrabChunkCacheWorker. apply wp_bind.
  apply (wp_for_break (fun d s' => s' = s /\ forall j c, (j < length d)%nat -> srCache (caches s) !! j = Some c -> cc_object c <> 0)).
  - split; [done|]. intros j c Hj. simpl in Hj. lia.
  - intros d i r s' Hseq [-> Hd]. destruct (slot_index s d i r Hs Hseq) as (-> & c & Hc & Hi & _).
    apply wp_bind, (wp_get_slot _ c); [done|done|]. apply wp_ret. unfold ztrue.
    destruct (Z.eqb_spec (cc_object c) 0) as [H0|H0]; cbn [negb].
    + apply wp_ret. cbn [default]. split; [done|]. left. by exists c.
    + split; [done|]. intros j c' Hj Hc'. rewrite length_app in Hj. simpl in Hj. rewrite Nat2Z.id in Hc.
      destruct (decide (j = length d)) as [->|]; [congruence|]. apply (Hd j); [lia|done].
  - intros s' [-> Hd]. apply wp_ret. split; [done|]. right. split; [done|]. intros (i & c & Hi & H0).
    apply (Hd i c); [|done|done]. unfold slots. rewrite length_seqZ. pose proof (lookup_lt_Some _ _ _ Hi).
    pose proof (sl_size _ Hs). lia.
Qed.

(** The slot to push out. *)
Lemma push_out_spec s : slots_safe s -> ~ has_empty s -> 0 < nShortOpCaches cfg ->
  wp (push_out cfg) (fun r s' => s' = s /\ let '(i, _, theObj) := r in
    exists c, 0 <= i /\ srCache (caches s) !! Z.to_nat i = Some c /\ cc_object c = theObj /\ theObj <> 0) s.
Proof.
  intros Hs Hne Hn. unfold push_out.
  eapply wp_mono; [apply (wp_for_acc (fun d r s' => s' = s /\ let '(i, _, theObj) := r in
    (d = [] /\ i = -1) \/
    exists c, 0 <= i /\ srCache (caches s) !! Z.to_nat i = Some c /\ cc_object c = theObj /\ theObj <> 0))|].
  - split; [done|by left].
  - intros d i r [[j u] ob] s' Hseq [-> Hacc]. destruct (slot_index s d i r Hs Hseq) as (-> & c & Hc & Hi & Hcs).
    apply wp_bind, (wp_get_slot _ c); [done|done|]. apply wp_ret. split; [done|].
    assert (H0 : cc_object c <> 0) by (intros H0; apply Hne; by exists (Z.to_nat (Z.of_nat (length d))), c).
    unfold ztrue. rewrite (ss_locked _ _ Hcs), (proj2 (Z.eqb_neq _ 0) H0). cbn [negb andb].
    destruct ((cc_lastUse c <? u) || (j <? 0)) eqn:E.
    + right. by exists c.
    + right. apply orb_false_iff in E as [_ E%Z.ltb_ge]. destruct Hacc as [[_ ->]|Hacc]; [lia|exact Hacc].
  - intros [[i u] ob] s' [-> Hacc]. split; [done|]. destruct Hacc as [[Hnil _]|H]; [|exact H].
    assert (Hl : length (slots cfg) = Z.to_nat (nShortOpCaches cfg)) by (unfold slots; by rewrite length_seqZ).
    rewrite Hnil in Hl. simpl in Hl. lia.
Qed.

Lemma dirty_count_pos l i c a : l !! i = Some c -> cc_object c = a -> cc_dirty c = true -> 0 < dirty_count l a.
Proof.
  intros Hi Ha Hd. pose proof (dirty_count_range (<[i := clean_slot c]> l) a).
  rewrite (dirty_count_clean l i c a) in * by done. lia.
Qed.

(** The slot that is got has nothing to write. *)
Definition spare s (i : Z) : Prop := 0 <= i /\ exists c, srCache (caches s) !! Z.to_nat i = Some c /\
  (cc_object c = 0 \/ cc_dirty c = false).

Lemma Grab_run k s : books inv k s -> 0 <= k -> 0 < nShortOpCaches cfg ->
  run total (yaffs_GrabChunkCache cfg write) (fun i s' => books inv k s' /\ keeps total s s' /\
    fewer s s' /\ spare s' i) s.
Proof.
  intros Hbo Hk Hn. pose proof (books_safe k s Hbo) as Hs. unfold yaffs_GrabChunkCache.
  rewrite (proj2 (Z.ltb_lt 0 _) Hn). eapply run_step; [by apply GrabWorker_spec|].
  intros i s1 [-> [(c & Hi & Hc & H0)|[-> Hne]]].
  { rewrite (proj2 (Z.leb_le 0 i)) by done. apply run_ret. split; [done|]. split; [by apply keeps_refl|].
    split; [apply fewer_refl|]. split; [done|]. exists c. auto. }
  change (0 <=? -1) with false. cbv iota. eapply run_step; [by apply push_out_spec|].
  intros [[j u] ob] s1 (-> & c & Hj & Hc & Hob & Hob0). rewrite (proj2 (Z.ltb_ge j 0)) by done.
  eapply run_bind, run_bind, run_wp, (wp_get_slot j c); [done|done|]. apply run_ret.
  destruct (cc_dirty c) eqn:Hd.
  - destruct (safe_file s _ c Hs Hc) as (o & f & Hf & _); [congruence|]. rewrite Hob in Hf.
    eapply run_seq; [by apply (Flush_run k s ob o f)|]. intros [] s1 (Hbo1 & Hk1 & Hfw & He & _).
    pose proof (books_safe k s1 Hbo1) as Hs1.
    assert (He1 : has_empty s1) by (apply He; right; by apply (dirty_count_pos _ (Z.to_nat j) c)).
    eapply run_wp, wp_mono; [by apply GrabWorker_spec|]. intros i s2 [-> [(c' & Hi & Hc' & H0)|[_ Hne1]]]; [|done].
    do 4 (split; [done|]). exists c'. auto.
  - apply run_ret. split; [done|]. split; [by apply keeps_refl|]. split; [apply fewer_refl|].
    split; [done|]. exists c. auto.
Qed.

(** ** Marks of use *)

(** Another cache in memory. *)
Definition with_caches s (ch : Caches) : FS N K := s <| caches := ch |>.

Definition same_use (c c' : ChunkCache) : Prop := c' = c <| cc_lastUse := cc_lastUse c' |>.

Lemma same_use_refl c : same_use c c.
Proof. by destruct c. Qed.

Lemma same_use_trans c1 c2 c3 : same_use c1 c2 -> same_use c2 c3 -> same_use c1 c3.
Proof. unfold same_use. intros -> ->. done. Qed.

Definition same_uses : list ChunkCache -> list ChunkCache -> Prop := Forall2 same_use.

Lemma same_uses_refl l : same_uses l l.
Proof. apply Forall_Forall2_diag, Forall_true. apply same_use_refl. Qed.

Lemma same_uses_trans l1 l2 l3 : same_uses l1 l2 -> same_uses l2 l3 -> same_uses l1 l3.
Proof. apply Forall2_trans. apply same_use_trans. Qed.

Lemma same_uses_insert l i c u : l !! i = Some c -> same_uses l (<[i := c <| cc_lastUse := u |>]> l).
Proof.
  intros Hi. rewrite <- (list_insert_id l i c) at 1 by done. apply Forall2_insert; [apply same_uses_refl|done].
Qed.

Lemma same_uses_find l l' a id : same_uses l l' -> cc_data <$> slot_of l' a id = cc_data <$> slot_of l a id.
Proof.
  intros H. induction H as [|c c' l l' Hc Hl IH]; [done|]. unfold slot_of. cbn [find].
  rewrite Hc. change (is_slot a id (c <| cc_lastUse := cc_lastUse c' |>)) with (is_slot a id c).
  by destruct (is_slot a id c).
Qed.

Lemma same_uses_dirties l l' : same_uses l l' -> dirties l' = dirties l.
Proof.
  intros H. induction H as [|c c' l l' Hc Hl IH]; [done|]. unfold dirties in *. rewrite !sumZ_cons, IH. by rewrite Hc.
Qed.

Lemma same_uses_lookup l l' i c' : same_uses l l' -> l' !! i = Some c' -> exists c, l !! i = Some c /\ same_use c c'.
Proof. intros H Hi. destruct (Forall2_lookup_r _ _ _ _ _ H Hi) as (c & Hc & Hu). by exists c. Qed.

Lemma reads_as_caches s ch a id : same_uses (srCache (caches s)) (srCache ch) -> reads_as (with_caches s ch) a id = reads_as s a id.
Proof.
  intros H. pose proof (same_uses_find _ _ a id H) as Hf. unfold reads_as.
  change (srCache (caches (with_caches s ch))) with (srCache ch).
  change (on_flash (with_caches s ch) a id) with (on_flash s a id).
  destruct (slot_of (srCache ch) a id), (slot_of (srCache (caches s)) a id); try done. by injection Hf.
Qed.

Lemma caches_keeps b s ch : slots_safe s -> same_uses (srCache (caches s)) (srCache ch) -> keeps b s (with_caches s ch).
Proof.
  intros [H1 H2 H3] Hu. assert (Hfiles : same_files cfg s (with_caches s ch)) by (intros a o f Hf; by exists o, f).
  split; [done| |].
  - split; change (srCache (caches (with_caches s ch))) with (srCache ch).
    + by rewrite <- (Forall2_length _ _ _ Hu).
    + apply Forall_lookup. intros i c' Hi. destruct (same_uses_lookup _ _ _ _ Hu Hi) as (c & Hc & ->).
      apply (slot_safe_files s); [done|]. destruct (proj1 (Forall_lookup _ _) H2 i c Hc). by split.
    + intros i j c c' Hi Hj. destruct (same_uses_lookup _ _ _ _ Hu Hi) as (x & Hx & ->).
      destruct (same_uses_lookup _ _ _ _ Hu Hj) as (y & Hy & ->). exact (H3 i j x y Hx Hy).
  - intros _ Hco. split.
    + intros i c'. change (srCache (caches (with_caches s ch))) with (srCache ch). intros Hi.
      destruct (same_uses_lookup _ _ _ _ Hu Hi) as (x & Hx & ->). exact (Hco i x Hx).
    + intros a o f Hf. exists o, f. do 3 (split; [done|]). intros id _. by apply reads_as_caches.
Qed.

Lemma books_caches k s ch : books inv k s -> same_uses (srCache (caches s)) (srCache ch) -> books inv k (with_caches s ch).
Proof.
  intros Hbo Hu. pose proof Hbo as [(U & l & Fs & D & Hs) Hfree Hsl Hinv].
  pose proof (caches_keeps total s ch Hsl Hu) as [_ Hsafe _]. split.
  - exists U, l, Fs, D. destruct Hs as [[M1 M2 M3] F1 F2 F3 F4 F5 F6 F7 F8 F9]. by split.
  - change (srCache (caches (with_caches s ch))) with (srCache ch). by rewrite (same_uses_dirties _ _ Hu).
  - done.
  - apply (fw_quiet s); [done|]. by apply quiet_objects.
Qed.

(** The look-up of a slot counts hits. *)
Lemma FindCache_spec k s a id o : books inv k s -> objects (obs s) !! a = Some o -> a <> 0 ->
  wp (yaffs_FindChunkCache cfg a id) (fun i s' => exists ch, s' = with_caches s ch /\ srCache ch = srCache (caches s) /\
    ((exists c, 0 <= i /\ srCache ch !! Z.to_nat i = Some c /\ slot_of (srCache ch) a id = Some c /\ 0 < nShortOpCaches cfg) \/
     (i = -1 /\ slot_of (srCache ch) a id = None))) s.
Proof.
  intros Hbo Ho Ha. pose proof (books_safe k s Hbo) as Hs. unfold yaffs_FindChunkCache.
  apply wp_bind, (wp_get_obj a o); [done|]. apply wp_if. destruct (Z.ltb_spec 0 (nShortOpCaches cfg)) as [Hn|Hn].
  - apply wp_bind. apply (wp_for_break (fun d s' => s' = s /\ forall j c, (j < length d)%nat ->
      srCache (caches s) !! j = Some c -> is_slot a id c = false)).
    + split; [done|]. intros j c Hj. simpl in Hj. lia.
    + intros d i r s' Hseq [-> Hd]. destruct (slot_index s d i r Hs Hseq) as (-> & c & Hc & Hi & _).
      apply wp_bind, (wp_get_slot _ c); [done|done|]. fold (is_slot a id c). apply wp_if. destruct (is_slot a id c) eqn:E.
      * unfold modCh. apply wp_bind, wp_modify, wp_ret, wp_ret. cbn [default].
        eexists. split; [done|]. split; [done|]. left. exists c. split; [done|]. split; [done|]. split; [|done].
        apply slot_of_Some; [apply Hs|done|]. by eexists.
      * apply wp_ret. split; [done|]. intros j c' Hj Hc'. rewrite length_app in Hj. simpl in Hj. rewrite Nat2Z.id in Hc.
        destruct (decide (j = length d)) as [->|]; [congruence|]. apply (Hd j); [lia|done].
    + intros s' [-> Hd]. apply wp_ret. exists (caches s). split; [by destruct s|]. split; [done|]. right. split; [done|].
      destruct (slot_of _ a id) as [c|] eqn:E; [|done]. apply slot_of_Some in E as (i & Hi & Hc); [|apply Hs|done].
      rewrite (Hd i c) in Hc; [done| |done]. unfold slots. rewrite length_seqZ. pose proof (lookup_lt_Some _ _ _ Hi).
      pose proof (sl_size _ Hs). lia.
  - apply wp_ret. exists (caches s). split; [by destruct s|]. split; [done|]. right. split; [done|].
    assert (Hnil : srCache (caches s) = []) by (apply nil_length_inv; pose proof (sl_size _ Hs); lia). by rewrite Hnil.
Qed.

(** Only marks of use differ. *)
Definition only_use s s' : Prop := s' = with_caches s (caches s') /\ same_uses (srCache (caches s)) (srCache (caches s')).

Lemma only_use_refl s : only_use s s.
Proof. split; [by destruct s|apply same_uses_refl]. Qed.

Lemma only_use_trans s1 s2 s3 : only_use s1 s2 -> only_use s2 s3 -> only_use s1 s3.
Proof.
  intros [E1 H1] [E2 H2]. split; [|by eapply same_uses_trans]. rewrite E2, E1. by destruct s1, s2, s3.
Qed.

Lemma only_use_count s (g : Caches -> Caches) : (forall ch, srCache (g ch) = srCache ch) -> only_use s (s <| caches ::= g |>).
Proof.
  intros Hg. split; [by destruct s|]. change (caches (s <| caches ::= g |>)) with (g (caches s)).
  rewrite Hg. apply same_uses_refl.
Qed.

Lemma wp_mark_use s0 s i u (Q : unit -> FS N K -> Prop) : only_use s0 s -> 0 <= i < Z.of_nat (length (srCache (caches s0))) ->
  (forall s', only_use s0 s' -> Q tt s') -> wp (mod_slot i (fun c => c <| cc_lastUse := u |>)) Q s.
Proof.
  intros Hu Hi HQ. pose proof (Forall2_length _ _ _ (proj2 Hu)) as Hl.
  destruct (lookup_lt_is_Some_2 (srCache (caches s)) (Z.to_nat i)) as [c Hc]; [lia|].
  apply (wp_mod_slot i c); [lia|done|]. apply HQ. eapply only_use_trans; [exact Hu|].
  split; [by destruct s|]. exact (same_uses_insert _ _ _ u Hc).
Qed.

Lemma only_use_lookup s s' i c : only_use s s' -> srCache (caches s) !! i = Some c ->
  exists c', srCache (caches s') !! i = Some c' /\ same_use c c'.
Proof. intros [_ Hu] Hi. destruct (Forall2_lookup_l _ _ _ _ _ Hu Hi) as (c' & Hc & Huc). by exists c'. Qed.

(** A slot is marked as used; for a write, as one to be written. *)
Lemma Use_spec s i c (isAWrite : bool) : slots_safe s -> 0 < nShortOpCaches cfg -> 0 <= i -> srCache (caches s) !! Z.to_nat i = Some c ->
  wp (yaffs_UseChunkCache cfg i isAWrite) (fun _ s' => exists s1 c1, only_use s s1 /\
    srCache (caches s1) !! Z.to_nat i = Some c1 /\ same_use c c1 /\
    s' = if isAWrite then put_slot s1 (Z.to_nat i) (c1 <| cc_dirty := true |>) else s1) s.
Proof.
  intros Hs Hn Hi Hc. pose proof (sl_size _ Hs) as Hsz. pose proof (lookup_lt_Some _ _ _ Hc) as Hlt.
  unfold yaffs_UseChunkCache, getCh, modCh. apply wp_when. rewrite (proj2 (Z.ltb_lt 0 _) Hn).
  apply wp_bind, wp_gets. eapply (wp_seq _ _ (fun _ s' => only_use s s')).
  { apply wp_when. destruct (_ || _); [|apply only_use_refl].
    eapply wp_seq; [apply (wp_for_each (fun _ s' => only_use s s')); [apply only_use_refl|]|].
    - intros d j r s' Hseq Hu. assert (Hj : j ∈ seqZ 1 (nShortOpCaches cfg - 1)) by (rewrite Hseq; apply elem_of_app; right; by left).
      apply elem_of_seqZ in Hj. apply (wp_mark_use s); [done|lia|done].
    - intros [] s' Hu. apply wp_modify. eapply only_use_trans; [exact Hu|]. by apply only_use_count. }
  intros [] s1 H1. apply wp_bind, wp_modify, wp_bind, wp_gets.
  apply wp_bind, (wp_mark_use s); [eapply only_use_trans; [exact H1|]; by apply only_use_count|lia|].
  intros s2 H2. destruct (only_use_lookup _ _ _ _ H2 Hc) as (c2 & Hc2 & Hu2).
  apply wp_when. destruct isAWrite; [|by exists s2, c2].
  apply (wp_mod_slot i c2); [done|done|]. by exists s2, c2.
Qed.

Lemma only_use_keeps k s s' : books inv k s -> only_use s s' -> books inv k s' /\ keeps total s s'.
Proof.
  intros Hbo [-> Hu]. split; [by apply books_caches|]. by eapply caches_keeps, Hu; eapply books_safe.
Qed.

(** Locking and unlocking. *)
Lemma put_slot_put s i c1 c2 : put_slot (put_slot s i c1) i c2 = put_slot s i c2.
Proof. unfold put_slot, with_slots. destruct s as [d t o [l u h]]. cbn. by rewrite list_insert_insert_eq. Qed.

Lemma put_slot_id s i c : srCache (caches s) !! i = Some c -> put_slot s i c = s.
Proof. intros Hc. unfold put_slot, with_slots. destruct s as [d t o [l u h]]. cbn in *. by rewrite list_insert_id. Qed.

(** What a file has on flash is as long as a chunk. *)
Lemma on_flash_length s U l Fs D a o f id : fs_ok cfg s U l Fs D -> is_file s a o f -> 0 <= id <= YAFFS_MAX_CHUNK_ID ->
  Z.of_nat (length (on_flash s a id)) = n.
Proof.
  intros Hs Hf Hid. unfold on_flash. rewrite (file_data_entry cfg s a o f) by done.
  assert (Hn : 0 <= n) by (destruct Hcfg; unfold n; lia).
  destruct (Z.eqb_spec (file_entry cfg (tns s) f id) 0) as [_|Hne]; [cbn [default]; rewrite length_replicate; lia|].
  destruct (fk_entry _ _ _ _ _ _ _ Hs a o f id Hf Hid Hne) as (d & _ & _ & Hl & t & Hc & _). rewrite Hc. exact Hl.
Qed.

Lemma reads_slot s i c : slots_safe s -> srCache (caches s) !! i = Some c -> cc_object c <> 0 ->
  reads_as s (cc_object c) (cc_chunkId c) = cc_data c.
Proof.
  intros Hs Hi Hne. unfold reads_as.
  rewrite (proj2 (slot_of_Some _ _ _ c (sl_distinct _ Hs) Hne)); [done|]. exists i. split; [done|]. by apply is_slot_true.
Qed.

(** A slot for the same chunk with the same data. *)
Lemma put_same k s i c c' : books inv k s -> srCache (caches s) !! i = Some c ->
  cc_object c' = cc_object c -> cc_chunkId c' = cc_chunkId c -> cc_dirty c' = cc_dirty c -> cc_data c' = cc_data c ->
  slot_safe s c' -> books inv k (put_slot s i c') /\ keeps total s (put_slot s i c').
Proof.
  intros Hbo Hi E1 E2 E3 E4 Hsafe. pose proof (books_safe k s Hbo) as Hs.
  assert (Hk : keeps total s (put_slot s i c')).
  { apply (put_slot_step total s i c c'); [done|done|done| | |by apply (books_live k)].
    - apply (distinct_insert _ i c); [done|apply Hs|]. intros _. left. by apply is_slot_true.
    - intros Ht Hco. split; [rewrite E1, E2, E3, E4; by apply (Hco i)|]. intros a o f id Hf Ha Hid. unfold is_slot.
      rewrite E1, E2. fold (is_slot a id c). destruct (is_slot a id c) eqn:Ek; [|done].
      apply is_slot_true in Ek as [<- <-]. rewrite E4. symmetry. by apply (reads_slot s i). }
  split; [|done]. apply (books_put k k s i c c' (reads_as s)); [done|done|done|]. rewrite E1, E3. lia.
Qed.

(** A spare slot is loaded. *)
Lemma load_spec k s i a o f id : books inv k s -> 0 <= k -> spare s i -> is_file s a o f -> 0 <= objId o < 2 ^ 18 ->
  1 <= id <= YAFFS_MAX_CHUNK_ID -> slot_of (srCache (caches s)) a id = None ->
  wp (load_slot cfg i a id) (fun _ s' => exists c', books inv k s' /\ keeps total s s' /\
    srCache (caches s') !! Z.to_nat i = Some c' /\ cc_object c' = a /\ cc_chunkId c' = id /\ cc_dirty c' = false /\
    cc_data c' = reads_as s' a id) s.
Proof.
  intros Hbo Hk (Hi & c & Hc & Hcd) Hf Hnum Hid Hno. pose proof (books_safe k s Hbo) as Hs.
  pose proof (books_live k s Hbo a o f Hf) as Ha. pose proof Hbo as [(U & l & Fs & D & Hfs) Hfree _ Hinv].
  pose proof (proj1 (Forall_lookup _ _) (sl_each _ Hs) _ c Hc) as Hsafe.
  pose proof (lookup_lt_Some _ _ _ Hc) as Hlt. unfold load_slot.
  apply wp_bind, (wp_mod_slot i c); [done|done|].
  set (c1 := c <| cc_object := a |> <| cc_chunkId := id |> <| cc_dirty := false |> <| cc_locked := false |>).
  fold (with_slots s (<[Z.to_nat i := c1]> (srCache (caches s)))). fold (put_slot s (Z.to_nat i) c1).
  assert (Hi1 : srCache (caches (put_slot s (Z.to_nat i) c1)) !! Z.to_nat i = Some c1) by exact (list_lookup_insert_eq _ _ _ Hlt).
  apply wp_bind, (wp_get_slot i c1); [done|done|].
  eapply wp_seq.
  { apply (ReadChunkData_spec cfg Hcfg Htn Hpg 0 (put_slot s (Z.to_nat i) c1) U l Fs D a o f id (cc_data c1)).
    - by apply fs_but_slots.
    - exact Hf.
    - lia.
    - apply Hsafe. }
  intros r s2 [(ds' & -> & Hrd) Hdata]. change (file_data cfg (put_slot s (Z.to_nat i) c1) a id) with (file_data cfg s a id) in Hdata.
  assert (Hor : only_read cfg D s (with_dev s ds')) by by exists ds'. set (s' := with_dev s ds') in *.
  pose proof (only_read_ok cfg Hcfg Hpg 0 s s' U l Fs D Hfs Hor) as (Hs' & _).
  pose proof (only_read_kept cfg Hcfg Hpg 0 s s' U l Fs D Hfs Hor) as Hdk.
  pose proof (data_kept_keeps total s s' Hs Hdk eq_refl) as Hk1.
  apply (wp_mod_slot i c1); [done|exact Hi1|].
  set (c2 := c1 <| cc_data := snd r |>).
  match goal with |- ex (fun c' => books inv k ?x /\ _) => assert (Heq : x = put_slot s' (Z.to_nat i) c2) end.
  { transitivity (put_slot (put_slot s' (Z.to_nat i) c1) (Z.to_nat i) c2); [done|apply put_slot_put]. }
  rewrite Heq. clear Heq.
  assert (Hbo' : books inv k s').
  { split; [by exists U, l, Fs, D|exact Hfree|apply Hk1|]. apply (fw_quiet s); [done|]. by apply quiet_objects. }
  assert (Hflash : on_flash s' a id = snd r).
  { rewrite Hdata. destruct (Hdk a o f Hf) as (_ & _ & _ & _ & _ & E). unfold on_flash. rewrite E by lia. done. }
  assert (Hsafe2 : slot_safe s' c2).
  { destruct Hsafe as [L1 L2 L3 L4 L5]. split; [done| | | |done].
    - change (cc_data c2) with (snd r). rewrite <- Hflash. apply (on_flash_length s' U l Fs D a o f id); [done|done|lia].
    - intros _. exists o, f. by split.
    - intros _. done. }
  assert (Hk2 : keeps total s' (put_slot s' (Z.to_nat i) c2)).
  { apply (put_slot_step total s' (Z.to_nat i) c c2); [apply Hk1|done|done| | |by apply (books_live k)].
    - apply (distinct_insert _ _ c); [done|apply Hs|]. intros _. right. exact Hno.
    - intros Ht Hco. split; [by intros _ _|]. intros a' o' f' id' Hf' Ha' Hid'.
      destruct (is_slot a' id' c2) eqn:Ek.
      + apply is_slot_true in Ek as [<- <-]. unfold reads_as. change (cc_object c2) with a. change (cc_chunkId c2) with id.
        change (srCache (caches s')) with (srCache (caches s)). by rewrite Hno.
      + destruct (is_slot a' id' c) eqn:Ek2; [|done]. apply is_slot_true in Ek2 as [<- <-].
        destruct Hcd as [H0|Hd]; [done|]. rewrite <- (Hco (Z.to_nat i) c) by done. symmetry. by apply (reads_slot s' (Z.to_nat i)); [apply Hk1|..]. }
  exists c2. split; [|split; [by eapply keeps_trans|]].
  - apply (books_put k k s' (Z.to_nat i) c c2 (reads_as s')); [done|done|done|].
    change (cc_dirty c2) with false. rewrite andb_false_r. cbn [ind]. pose proof (ind_range (negb (cc_object c =? 0) && cc_dirty c)). lia.
  - assert (Hi2 : srCache (caches (put_slot s' (Z.to_nat i) c2)) !! Z.to_nat i = Some c2) by exact (list_lookup_insert_eq _ _ _ Hlt).
    split; [done|]. do 3 (split; [done|]). symmetry. apply (reads_slot _ (Z.to_nat i) c2); [apply Hk2|done|done].
Qed.
End slots.
