(* ===== verification/Bytes.v ===== *)
(** * What reading and writing the bytes of a file means
    A file is a sequence of bytes: byte [p] is in chunk [p / n + 1].  Reading gives the bytes,
    writing replaces them, and neither touches another byte of any file, if no write to the
    flash found the device without a page. *)
From S2P Require Import Prelude Monad ObjHeader Tags Device Nand Sim BlockInv Blocks Medium Blank Tnode Tree Objects File Steps Cache Names DataFile Slots.

Section bytes.
Context {N K : Type} {nd : NandDriver N} `{!Kmalloc K} `{!KmallocLaws K} `{!Clock K} (cfg : Config).
Context {nf : NandFrame nd cfg} {nm : NandMedium nd cfg} {nb : NandBlank nd cfg}.
Context (Hdev : device_ok cfg).
Implicit Types (s : FS N K) (o : Object) (f : FileStructure).
Local Abbreviation Hcfg := (dv_cfg cfg Hdev).
Local Abbreviation Htn := (dv_tnodes cfg Hdev).
Local Abbreviation Hpg := (dv_plain cfg Hdev).
Let n := nDataBytesPerChunk cfg.
Context (total : bool) (write : Writer N K) (inv : FS N K -> Prop) {fw : FileWriter cfg total write inv}.

Lemma n_pos : 0 < n.
Proof. destruct Hcfg. unfold n. lia. Qed.

Definition piece_of (start m : Z) (d : list Z) : list Z := take (Z.to_nat m) (drop (Z.to_nat start) d).

Lemma memcpy_from_some start m d : 0 <= start -> 0 <= m -> start + m <= Z.of_nat (length d) ->
  memcpy_from start m d = Some (piece_of start m d).
Proof. intros H1 H2 H3. unfold memcpy_from. by rewrite (proj2 (Z.ltb_ge _ _)) by lia. Qed.

Lemma piece_of_length start m d : 0 <= start -> 0 <= m -> start + m <= Z.of_nat (length d) ->
  Z.of_nat (length (piece_of start m d)) = m.
Proof. intros H1 H2 H3. unfold piece_of. rewrite length_take, length_drop. lia. Qed.

(** ** Reading *)

(** A part of what a slot holds. *)
Lemma slot_part s i c start m : slots_safe cfg s -> 0 < nShortOpCaches cfg -> 0 <= i ->
  srCache (caches s) !! Z.to_nat i = Some c -> 0 <= start -> 0 <= m -> start + m <= n ->
  wp (_ ← yaffs_UseChunkCache cfg i false; _ ← set_locked i true; c ← get_slot i;
      piece ← of_option (memcpy_from start m (cc_data c)); _ ← set_locked i false; mret piece)
    (fun piece s' => only_use s s' /\ piece = piece_of start m (cc_data c)) s.
Proof.
  intros Hs Hn Hi Hc H1 H2 H3. pose proof (proj1 (Forall_lookup _ _) (sl_each _ _ Hs) _ c Hc) as [Hlk Hlen _ _ _].
  eapply wp_seq; [by apply (Use_spec cfg s i c false)|]. intros [] s' (s1 & c1 & Hu & Hc1 & Hsu & ->).
  assert (E : cc_data c1 = cc_data c /\ cc_locked c1 = false) by (by rewrite Hsu). destruct E as [Ed El].
  unfold set_locked. apply wp_bind, (wp_mod_slot i c1); [done|done|].
  set (c2 := c1 <| cc_locked := true |>). fold (with_slots s1 (<[Z.to_nat i := c2]> (srCache (caches s1)))).
  fold (put_slot s1 (Z.to_nat i) c2). pose proof (lookup_lt_Some _ _ _ Hc1) as Hlt.
  assert (Hc2 : srCache (caches (put_slot s1 (Z.to_nat i) c2)) !! Z.to_nat i = Some c2) by exact (list_lookup_insert_eq _ _ _ Hlt).
  apply wp_bind, (wp_get_slot i c2); [done|done|]. change (cc_data c2) with (cc_data c1). rewrite Ed.
  apply wp_bind, (wp_of_option _ (piece_of start m (cc_data c))); [apply memcpy_from_some; lia|].
  apply wp_bind, (wp_mod_slot i c2); [done|done|]. apply wp_ret. split; [|done].
  match goal with |- only_use _ ?x => assert (Heq : x = s1) end.
  { transitivity (put_slot (put_slot s1 (Z.to_nat i) c2) (Z.to_nat i) (c2 <| cc_locked := false |>)); [done|].
    rewrite put_slot_put. apply put_slot_id. rewrite Hc1. f_equal. unfold c2. clear -El. destruct c1. cbn in *. by rewrite El. }
  by rewrite Heq.
Qed.

(** A slot that is found or loaded. *)
Lemma part_of_slot k s0 s i c a o f id start m : books cfg inv k s -> keeps cfg total s0 s -> is_file s0 a o f ->
  0 < nShortOpCaches cfg -> 0 <= i ->
  srCache (caches s) !! Z.to_nat i = Some c -> cc_object c = a -> cc_chunkId c = id -> 0 <= start -> 0 <= m -> start + m <= n ->
  1 <= id <= YAFFS_MAX_CHUNK_ID ->
  wp (_ ← yaffs_UseChunkCache cfg i false; _ ← set_locked i true; c ← get_slot i;
      piece ← of_option (memcpy_from start m (cc_data c)); _ ← set_locked i false; mret piece)
    (fun piece s' => books cfg inv k s' /\ keeps cfg total s0 s' /\ Z.of_nat (length piece) = m /\
      (total = false -> coherent cfg s0 -> piece = piece_of start m (reads_as cfg s0 a id))) s.
Proof.
  intros Hbo Hk0 Hf Hn Hi Hc Ha Hid H1 H2 H3 Hidr. pose proof (books_safe cfg inv k s Hbo) as Hs.
  destruct (st_files _ _ _ _ _ Hk0 a o f Hf) as (o1 & f1 & Hf1 & _).
  pose proof (books_live cfg inv k s Hbo a o1 f1 Hf1) as Hnz.
  pose proof (proj1 (Forall_lookup _ _) (sl_each _ _ Hs) _ c Hc) as [_ Hlen _ _ _].
  eapply wp_mono; [by apply (slot_part s i c start m)|]. intros piece s' [Hu ->].
  destruct (only_use_keeps cfg total write inv k s s' Hbo Hu) as [Hbo' Hk'].
  split; [done|]. split; [by eapply keeps_trans|]. split; [apply piece_of_length; unfold n in *; lia|].
  intros Ht Hco. destruct (st_reads _ _ _ _ _ Hk0 Ht Hco) as [_ Hnow]. destruct (Hnow a o f Hf) as (_ & _ & _ & _ & _ & E).
  rewrite <- E by lia. rewrite <- (reads_slot cfg s _ c Hs Hc) by congruence. by rewrite Ha, Hid.
Qed.

(** Reading a chunk past the cache. *)
Lemma flash_read k s a o f id buffer : books cfg inv k s -> is_file s a o f -> 1 <= id <= YAFFS_MAX_CHUNK_ID ->
  Z.of_nat (length buffer) = n ->
  wp (yaffs_ReadChunkDataFromObject cfg a id buffer) (fun r s' => books cfg inv k s' /\ keeps cfg total s s' /\
    snd r = on_flash cfg s a id /\ Z.of_nat (length (snd r)) = n) s.
Proof.
  intros Hbo Hf Hid Hb. pose proof (books_safe cfg inv k s Hbo) as Hs. pose proof Hbo as [(U & l & Fs & D & Hfs) Hfree _ Hinv].
  eapply wp_mono; [apply (ReadChunkData_spec cfg Hcfg Htn Hpg 0 s U l Fs D a o f id buffer); [done|done|lia|done]|].
  intros r s' [Hor Hd]. pose proof (only_read_ok cfg Hcfg Hpg 0 s s' U l Fs D Hfs Hor) as (Hs' & _).
  pose proof (only_read_kept cfg Hcfg Hpg 0 s s' U l Fs D Hfs Hor) as Hdk. destruct Hor as (ds' & -> & _).
  pose proof (data_kept_keeps cfg total s (with_dev s ds') Hs Hdk eq_refl) as Hk.
  split; [|split; [done|split; [done|]]].
  - split; [by exists U, l, Fs, D|exact Hfree|apply Hk|]. apply (fw_quiet cfg s); [done|]. by apply quiet_objects.
  - rewrite Hd. apply (on_flash_length cfg Hdev s U l Fs D a o f id); [done|done|lia].
Qed.

Lemma read_part_run k s a o f id start m buffer : books cfg inv k s -> 0 <= k -> is_file s a o f -> 0 <= objId o < 2 ^ 18 ->
  1 <= id <= YAFFS_MAX_CHUNK_ID -> 0 <= start -> 0 <= m -> start + m <= n -> m <= Z.of_nat (length buffer) ->
  run total (read_part cfg write a id start m buffer) (fun piece s' => books cfg inv k s' /\ keeps cfg total s s' /\
    Z.of_nat (length piece) = m /\
    (total = false -> coherent cfg s -> piece = piece_of start m (reads_as cfg s a id))) s.
Proof.
  intros Hbo Hk Hf Hnum Hid H1 H2 H3 Hb. pose proof (books_safe cfg inv k s Hbo) as Hs.
  pose proof (books_live cfg inv k s Hbo a o f Hf) as Ha. unfold read_part.
  eapply run_step; [apply (FindCache_spec cfg inv k s a id o Hbo); [apply Hf|done]|].
  intros i s1 (ch & -> & Hch & Hcase). set (s1 := with_caches s ch).
  assert (Hu : only_use s s1) by (split; [by destruct s|change (same_uses (srCache (caches s)) (srCache ch)); rewrite Hch; apply same_uses_refl]).
  destruct (only_use_keeps cfg total write inv k s s1 Hbo Hu) as [Hbo1 Hk1].
  assert (Hf1 : is_file s1 a o f) by exact Hf.
  destruct Hcase as [(c & Hi & Hc & Hsl & Hn)|[-> Hno]].
  - rewrite (proj2 (Z.leb_le 0 i)) by done. cbn [orb]. rewrite (proj2 (Z.ltb_lt 0 _) Hn).
    eapply run_bind, run_ret. apply slot_of_Some in Hsl as (j & Hj & Hjc); [|rewrite Hch; apply Hs|done].
    assert (Hkey : is_slot a id c = true) by done. apply is_slot_true in Hkey as [E1 E2].
    apply run_wp, (part_of_slot k s s1 i c a o f id); done.
  - change (0 <=? -1) with false. cbn [orb]. destruct (Z.eqb_spec m (nDataBytesPerChunk cfg)) as [Hm|Hm]; cbn [negb].
    + (* a whole chunk *)
      eapply run_step.
      { apply (flash_read k s1 a o f id (take (Z.to_nat m) buffer)); [done|done|done|]. rewrite length_take. unfold n. lia. }
      intros r s2 (Hbo2 & Hk2 & Hd & Hl). apply run_ret. split; [done|]. split; [by eapply keeps_trans|]. split; [unfold n in *; lia|].
      intros _ _. rewrite Hd. change (on_flash cfg s1 a id) with (on_flash cfg s a id).
      assert (start = 0) as -> by (unfold n in *; lia). unfold piece_of, reads_as. rewrite <- Hch, Hno. cbn [Z.to_nat drop].
      symmetry. apply take_ge. rewrite Hd in Hl. change (on_flash cfg s1 a id) with (on_flash cfg s a id) in Hl.
      unfold n in *. lia.
    + destruct (Z.ltb_spec 0 (nShortOpCaches cfg)) as [Hn|Hn].
      * change (0 <=? -1) with false. cbv iota. eapply run_bind, run_seq; [by apply (Grab_run cfg total write inv k s1)|].
        intros i s2 (Hbo2 & Hk2 & Hfw & Hsp). pose proof (books_safe cfg inv k s2 Hbo2) as Hs2.
        destruct (st_files _ _ _ _ _ Hk2 a o f Hf1) as (o2 & f2 & Hf2 & Hn2 & _).
        assert (Hno2 : slot_of (srCache (caches s2)) a id = None).
        { apply (fewer_none cfg s1 s2); [done|by apply (books_safe cfg inv k)|done|done|done]. }
        eapply run_step; [apply (load_spec cfg Hdev total write inv k s2 i a o2 f2 id); try done; by rewrite Hn2|].
        intros [] s3 (c & Hbo3 & Hk3 & Hc & E1 & E2 & E3 & E4). destruct Hsp as [Hi _].
        eapply run_step; [apply (wp_mod_slot i c); [done|done|]; exact (conj eq_refl eq_refl : (fun _ s' => _ = s' /\ _ = s') tt _)|].
        intros [] s4 [<- _]. apply run_ret.
        set (c' := c <| cc_nBytes := 0 |>). fold (with_slots s3 (<[Z.to_nat i := c']> (srCache (caches s3)))).
        fold (put_slot s3 (Z.to_nat i) c'). pose proof (books_safe cfg inv k s3 Hbo3) as Hs3.
        destruct (put_same cfg total write inv k s3 (Z.to_nat i) c c') as [Hbo4 Hk4]; [done..| |].
        { destruct (proj1 (Forall_lookup _ _) (sl_each _ _ Hs3) _ c Hc) as [L1 L2 L3 L4 L5]. split; [done..|].
          intros _ _. change (cc_nBytes c') with 0. pose proof n_pos. unfold n in *. lia. }
        assert (Hk04 : keeps cfg total s (put_slot s3 (Z.to_nat i) c')).
        { eapply keeps_trans; [exact Hk1|]. eapply keeps_trans; [exact Hk2|]. by eapply keeps_trans. }
        pose proof (lookup_lt_Some _ _ _ Hc) as Hlt.
        apply run_wp, (part_of_slot k s _ i c' a o f id); try done. exact (list_lookup_insert_eq _ _ _ Hlt).
      * assert (Hbo1' := Hbo1). eapply run_step; [apply (flash_read k s1 a o f id (temp_buffer cfg)); [done|done|done|by apply (temp_buffer_ok cfg Hcfg)]|].
        intros r s2 (Hbo2 & Hk2 & Hd & Hl). eapply run_wp, (wp_of_option _ (piece_of start m (snd r))); [apply memcpy_from_some; unfold n in *; lia|].
        split; [done|]. split; [by eapply keeps_trans|]. split; [apply piece_of_length; unfold n in *; lia|].
        intros _ _. rewrite Hd. unfold reads_as. by rewrite <- Hch, Hno.
Qed.

(** ** Bytes *)

(** Byte [p] of the chunks [g]. *)
Definition byte_of (g : Z -> list Z) (p : Z) : Z := nth (Z.to_nat (p mod n)) (g (p / n + 1)) 0.
Definition bytes_of (g : Z -> list Z) (off m : Z) : list Z := map (byte_of g) (seqZ off m).

Lemma bytes_of_length g off m : 0 <= m -> Z.of_nat (length (bytes_of g off m)) = m.
Proof. intros Hm. unfold bytes_of. rewrite length_map, length_seqZ. lia. Qed.

Lemma bytes_of_app g off m1 m2 : 0 <= m1 -> 0 <= m2 ->
  bytes_of g off (m1 + m2) = bytes_of g off m1 ++ bytes_of g (off + m1) m2.
Proof. intros H1 H2. unfold bytes_of. by rewrite seqZ_app, map_app. Qed.

Lemma bytes_of_ext g h off m : (forall p, off <= p < off + m -> byte_of g p = byte_of h p) -> bytes_of g off m = bytes_of h off m.
Proof. intros H. apply map_ext_in. intros p Hp%list_elem_of_In%elem_of_seqZ. apply H. lia. Qed.

Lemma in_chunk q start : 0 <= start < n -> (q * n + start) / n = q /\ (q * n + start) mod n = start.
Proof.
  intros Hs. pose proof n_pos. split; [rewrite Z.div_add_l, Z.div_small; lia|].
  by rewrite Z.add_comm, Z.mod_add, Z.mod_small by lia.
Qed.

(** A part of a chunk. *)
Lemma piece_bytes g q start m : Z.of_nat (length (g (q + 1))) = n -> 0 <= start -> 0 <= m -> start + m <= n ->
  piece_of start m (g (q + 1)) = bytes_of g (q * n + start) m.
Proof.
  intros Hl H1 H2 H3. pose proof n_pos. apply list_eq. intros i. unfold bytes_of. rewrite list_lookup_fmap.
  destruct (decide (i < Z.to_nat m)%nat) as [Hi|Hi].
  - assert (Hz : seqZ (q * n + start) m !! i = Some (q * n + start + Z.of_nat i)) by (apply lookup_seqZ; lia).
    rewrite Hz. cbn [fmap option_fmap option_map].
    unfold piece_of. rewrite lookup_take_lt, lookup_drop by done. unfold byte_of.
    replace (q * n + start + Z.of_nat i) with (q * n + (start + Z.of_nat i)) by lia.
    destruct (in_chunk q (start + Z.of_nat i)) as [-> ->]; [lia|].
    replace (Z.to_nat (start + Z.of_nat i)) with (Z.to_nat start + i)%nat by lia.
    destruct (lookup_lt_is_Some_2 (g (q + 1)) (Z.to_nat start + i)) as [x Hx]; [lia|]. rewrite Hx. f_equal.
    symmetry. by apply nth_lookup_Some.
  - unfold piece_of. rewrite lookup_take_ge by lia. rewrite lookup_ge_None_2; [done|]. rewrite length_seqZ. lia.
Qed.

(** File addresses split into chunk and byte. *)
Definition addresses_split : Prop := forall addr, 0 <= addr < 2 ^ 31 -> yaffs_AddrToChunk cfg addr = Some (addr / n, addr mod n).
Context (Haddr : addresses_split).

Definition in_range (off m : Z) : Prop := 0 <= off /\ 0 <= m /\ off + m < 2 ^ 31 /\ off + m <= n * YAFFS_MAX_CHUNK_ID.

Lemma chunk_of_spec off m s : in_range off m -> 0 < m ->
  wp (chunk_of cfg off) (fun r s' => s' = s /\ r = (off / n + 1, off mod n)) s.
Proof.
  intros (H0 & _ & H1 & H2) Hm. pose proof n_pos. unfold chunk_of. apply wp_bind, (wp_of_option _ (off / n, off mod n)); [apply Haddr; lia|].
  assert (Hq : 0 <= off / n < YAFFS_MAX_CHUNK_ID).
  { split; [apply Z.div_pos; lia|]. apply Z.div_lt_upper_bound; lia. }
  assert (Hr : 0 <= off mod n < n) by (apply Z.mod_pos_bound; lia).
  assert (Hr2 : off mod n <= off) by (apply Z.mod_le; lia).
  apply wp_ret. split; [done|]. by rewrite (swrap_small 32 (off / n)), (swrap_small 32 (off / n + 1)), (swrap_small 32 (off mod n)) by lia.
Qed.

Lemma bytes_in_chunk_spec off m : 0 <= off -> 0 < m -> let t := bytes_in_chunk cfg (off mod n) m in
  1 <= t <= m /\ off mod n + t <= n /\ off = off / n * n + off mod n /\ 0 <= off mod n < n.
Proof.
  intros H0 Hm. pose proof n_pos. pose proof (Z.mod_pos_bound off n ltac:(lia)). pose proof (Z.div_mod off n ltac:(lia)).
  unfold bytes_in_chunk. fold n. cbv zeta. destruct (Z.ltb_spec (off mod n + m) n); lia.
Qed.

Lemma chunk_range off m : in_range off m -> 0 < m -> 1 <= off / n + 1 <= YAFFS_MAX_CHUNK_ID.
Proof.
  intros (H0 & _ & H1 & H2) Hm. pose proof n_pos. pose proof (Z.div_pos off n H0 ltac:(lia)).
  pose proof (Z.div_lt_upper_bound off n YAFFS_MAX_CHUNK_ID ltac:(lia)). lia.
Qed.

Lemma reads_as_length k s a o f id : books cfg inv k s -> is_file s a o f -> 0 <= id <= YAFFS_MAX_CHUNK_ID ->
  Z.of_nat (length (reads_as cfg s a id)) = n.
Proof.
  intros Hbo Hf Hid. pose proof (books_safe cfg inv k s Hbo) as Hs. pose proof Hbo as [(U & l & Fs & D & Hfs) _ _ _].
  unfold reads_as. destruct (slot_of _ a id) as [c|] eqn:Es.
  - apply find_some in Es as [Hin _]. apply list_elem_of_In in Hin.
    by destruct (proj1 (Forall_forall _ _) (sl_each _ _ Hs) c Hin).
  - by apply (on_flash_length cfg Hdev s U l Fs D a o f id).
Qed.

(** ** The loop of a read *)

Lemma read_loop_run fuel : forall k s a o f buffer off m nDone, books cfg inv k s -> 0 <= k -> is_file s a o f ->
  0 <= objId o < 2 ^ 18 -> in_range off m -> m < Z.of_nat fuel -> m <= Z.of_nat (length buffer) ->
  run total (read_loop cfg fuel write a buffer off m nDone) (fun r s' => books cfg inv k s' /\ keeps cfg total s s' /\
    fst r = nDone + m /\
    (total = false -> coherent cfg s -> snd r = bytes_of (reads_as cfg s a) off m ++ drop (Z.to_nat m) buffer)) s.
Proof.
  induction fuel as [|fuel IH]; intros k s a o f buffer off m nDone Hbo Hk Hf Hnum Hr Hfuel Hb; [destruct Hr; lia|].
  cbn [read_loop]. destruct (Z.ltb_spec 0 m) as [Hm|Hm].
  2:{ assert (m = 0) as -> by (destruct Hr; lia). apply run_ret. split; [done|].
      split; [by eapply keeps_refl, books_safe|]. split; [cbn [fst]; lia|]. done. }
  eapply run_step; [by apply (chunk_of_spec off m)|]. intros x s1 [-> ->]. cbv iota beta.
  pose proof Hr as (Hoff & _ & Hlim & Hmax).
  pose proof (bytes_in_chunk_spec off m Hoff Hm) as Ht. cbv zeta in Ht. set (t := bytes_in_chunk cfg (off mod n) m) in *.
  destruct Ht as (Ht1 & Ht2 & Hsplit & Hmod). pose proof (chunk_range off m (conj Hoff (conj (Z.lt_le_incl _ _ Hm) (conj Hlim Hmax))) Hm) as Hid.
  eapply run_seq; [apply (read_part_run k s a o f); try done; lia|].
  intros piece s1 (Hbo1 & Hk1 & Hpl & Hp). rewrite (proj2 (Z.ltb_ge _ _)) by lia.
  destruct (st_files _ _ _ _ _ Hk1 a o f Hf) as (o1 & f1 & Hf1 & Hn1 & _).
  eapply run_seq; [apply (IH k s1 a o1 f1); [done|done|done|by rewrite Hn1|unfold in_range; lia|lia|rewrite length_drop; lia]|].
  intros [dn data] s2 (Hbo2 & Hk2 & Hdn & Hdata). apply run_ret. cbn [fst snd] in *.
  split; [done|]. split; [by eapply keeps_trans|]. split; [lia|]. intros Htot Hco.
  destruct (st_reads _ _ _ _ _ Hk1 Htot Hco) as [Hco1 Hnow]. destruct (Hnow a o f Hf) as (_ & _ & _ & _ & _ & Hsame).
  rewrite (Hp Htot Hco), (Hdata Htot Hco1), drop_drop.
  assert (Hcut : bytes_of (reads_as cfg s a) off m =
    bytes_of (reads_as cfg s a) off t ++ bytes_of (reads_as cfg s a) (off + t) (m - t)).
  { rewrite <- bytes_of_app by lia. f_equal. lia. }
  rewrite Hcut, <- app_assoc. f_equal; [|f_equal].
  - pose proof (reads_as_length k s a o f (off / n + 1) Hbo Hf ltac:(lia)) as Hlen.
    rewrite (piece_bytes (reads_as cfg s a)) by (done || lia). by rewrite <- Hsplit.
  - apply bytes_of_ext. intros p Hp'. unfold byte_of. rewrite Hsame; [done|].
    pose proof (chunk_range p 1 ltac:(unfold in_range; lia) ltac:(lia)). lia.
  - f_equal. lia.
Qed.

(** ** Writing *)

(** Chunk [id] of the file at [a] becomes [d]. *)
Definition override s (a id : Z) (d : list Z) (x y : Z) : list Z :=
  if (x =? a) && (y =? id) then d else reads_as cfg s x y.

(** A chunk no slot is for goes to the flash. *)
Lemma direct_step s s2 a id d r : slots_safe cfg s -> slots_safe cfg s2 -> srCache (caches s2) = srCache (caches s) ->
  slot_of (srCache (caches s)) a id = None -> a <> 0 -> after_write cfg s s2 a id d r -> 0 < r ->
  step cfg total s s2 (override s a id d).
Proof.
  intros Hs Hs2 Hc Hno Ha Hw Hr. split; [by eapply after_write_files|done|]. intros _ Hco. split.
  - intros i c. rewrite Hc. intros Hi Hne Hd. destruct (safe_file cfg s i c Hs Hi Hne) as (o & f & Hf & Hid).
    rewrite (after_write_flash cfg s s2 a id d r _ o f _ Hw Hr) by done.
    destruct ((cc_object c =? a) && (cc_chunkId c =? id)) eqn:E; [|by apply (Hco i)].
    rewrite (proj2 (slot_of_Some _ a id c (sl_distinct _ _ Hs) Ha)) in Hno; [done|]. by exists i.
  - intros x o f Hf. destruct Hw as [[-> _]|[_ Hw]]; [lia|].
    destruct (Hw x o f Hf) as (o' & f' & Hf' & H1 & H2 & E). exists o', f'. do 3 (split; [done|]). intros y Hy.
    unfold reads_as, override. rewrite Hc. unfold on_flash. rewrite E by done. unfold with_chunk.
    destruct ((x =? a) && (y =? id)) eqn:Ek; [|by unfold reads_as].
    apply andb_true_iff in Ek as [->%Z.eqb_eq ->%Z.eqb_eq]. by rewrite Hno.
Qed.

(** A slot is dropped. *)
Lemma drop_step k s i c : books cfg inv k s -> srCache (caches s) !! i = Some c -> cc_object c <> 0 ->
  let s' := put_slot s i (c <| cc_object := 0 |>) in
  books cfg inv k s' /\ slot_of (srCache (caches s')) (cc_object c) (cc_chunkId c) = None /\
  step cfg total s s' (override s (cc_object c) (cc_chunkId c) (on_flash cfg s (cc_object c) (cc_chunkId c))).
Proof.
  intros Hbo Hi Hne s'. pose proof (books_safe cfg inv k s Hbo) as Hs. set (c' := c <| cc_object := 0 |>).
  pose proof (proj1 (Forall_lookup _ _) (sl_each _ _ Hs) i c Hi) as [L1 L2 _ _ _].
  assert (Hdis : distinct (<[i := c']> (srCache (caches s)))) by (apply (distinct_insert _ i c); [done|apply Hs|done]).
  assert (Hst : step cfg total s s' (override s (cc_object c) (cc_chunkId c) (on_flash cfg s (cc_object c) (cc_chunkId c)))).
  { apply (put_slot_step cfg total s i c c'); [done|done|by split|done| |by apply (books_live cfg inv k)].
    intros _ _. split; [done|]. intros x o f y Hf Hx Hy. unfold is_slot at 1. change (cc_object c') with 0.
    rewrite (proj2 (Z.eqb_neq 0 x)) by done. cbn [andb]. unfold override, is_slot.
    rewrite (Z.eqb_sym (cc_object c)), (Z.eqb_sym (cc_chunkId c)).
    destruct ((x =? cc_object c) && (y =? cc_chunkId c)) eqn:E; [|done].
    by apply andb_true_iff in E as [->%Z.eqb_eq ->%Z.eqb_eq]. }
  split; [|split; [|done]].
  - eapply (books_put cfg total write inv k k s i c c'); [done|done|exact Hst|].
    change (cc_object c') with 0. cbn [Z.eqb negb andb ind]. pose proof (ind_range (negb (cc_object c =? 0) && cc_dirty c)). lia.
  - unfold s'. rewrite put_slot_slots. fold c'. rewrite (slot_of_insert _ i c c') by (done || apply Hs).
    unfold is_slot at 1. change (cc_object c') with 0. rewrite (proj2 (Z.eqb_neq 0 _)) by done. cbn [andb].
    by rewrite (proj2 (is_slot_true _ _ _)).
Qed.

(** A whole chunk, past the cache. *)
Lemma write_whole k s a o f id d : books cfg inv (k + 1) s -> 0 <= k -> is_file s a o f -> 0 <= objId o < 2 ^ 18 ->
  1 <= id <= YAFFS_MAX_CHUNK_ID -> Z.of_nat (length d) = n ->
  run total (r ← write a id d (nDataBytesPerChunk cfg) false; _ ← yaffs_InvalidateChunkCache cfg a id; mret r)
    (fun r s' => books cfg inv k s' /\
      if r <? 0 then keeps cfg total s s' else step cfg total s s' (override s a id d)) s.
Proof.
  intros Hbo Hk Hf Hnum Hid Hd. pose proof (books_safe cfg inv _ s Hbo) as Hs.
  pose proof (books_live cfg inv _ s Hbo a o f Hf) as Ha. pose proof n_pos as Hn. pose proof (dirties_range (srCache (caches s))) as Hdr.
  eapply run_seq; [apply (write_spec cfg total write inv (k + 1) s a o f); try done; unfold n in *; lia|].
  intros r s1 (Hbo1 & Hc1 & Hw & Hr). replace (k + 1 - 1) with k in Hbo1 by lia.
  pose proof (after_write_files cfg _ _ _ _ _ _ Hw) as Hfiles. destruct (Hfiles a o f Hf) as (o1 & f1 & Hf1 & _).
  unfold yaffs_InvalidateChunkCache. eapply run_bind, run_bind, run_wp, (wp_get_obj a o1); [apply Hf1|].
  assert (Hend : forall s2, books cfg inv k s2 -> same_files cfg s s2 -> (0 < r -> step cfg total s s2 (override s a id d)) ->
    books cfg inv k s2 /\ if r <? 0 then keeps cfg total s s2 else step cfg total s s2 (override s a id d)).
  { intros s2 Hb2 Hf2 Hs2. split; [done|]. destruct Hw as [[-> _]|[Hpos _]].
    - change (-1 <? 0) with true. cbv iota. split; [done|by apply (books_safe cfg inv k)|]. intros Ht. by rewrite Hr in Ht.
    - rewrite (proj2 (Z.ltb_ge r 0)) by lia. by apply Hs2. }
  unfold when. destruct (Z.ltb_spec 0 (nShortOpCaches cfg)) as [Hns|Hns].
  - eapply run_step; [apply (FindCache_spec cfg inv k s1 a id o1 Hbo1); [apply Hf1|done]|].
    intros i s2 (ch & -> & Hch & Hcase). set (s2 := with_caches s1 ch).
    assert (Hu : only_use s1 s2) by (split; [by destruct s1|change (same_uses (srCache (caches s1)) (srCache ch)); rewrite Hch; apply same_uses_refl]).
    destruct (only_use_keeps cfg total write inv k s1 s2 Hbo1 Hu) as [Hbo2 _].
    assert (Hw2 : after_write cfg s s2 a id d r) by exact Hw. change (srCache ch) with (srCache (caches s2)) in *.
    destruct Hcase as [(c & Hi & Hc & Hsl & _)|[-> Hno]].
    + rewrite (proj2 (Z.leb_le 0 i)) by done. eapply run_wp, (wp_mod_slot i c); [done|done|].
      apply run_ret. fold (with_slots s2 (<[Z.to_nat i := c <| cc_object := 0 |>]> (srCache (caches s2)))).
      fold (put_slot s2 (Z.to_nat i) (c <| cc_object := 0 |>)).
      apply slot_of_Some in Hsl as (j & Hj & Hjc); [|by eapply sl_distinct, books_safe|done].
      apply is_slot_true in Hjc as [E1 E2].
      destruct (drop_step k s2 (Z.to_nat i) c Hbo2 Hc) as (Hbo3 & _ & Hst3); [congruence|].
      assert (Hc0 : srCache (caches s) !! Z.to_nat i = Some c) by (rewrite <- Hc1, <- Hch; exact Hc).
      destruct (drop_step (k + 1) s (Z.to_nat i) c Hbo Hc0) as (Hbo0 & Hno0 & Hst0); [congruence|]. rewrite E1, E2 in *.
      apply Hend; [done|intros x ox fx Hx; destruct (Hfiles x ox fx Hx) as (o' & f' & ?); by exists o', f'|].
      intros Hpos. eapply step_trans; [exact Hst0|..].
      * apply (direct_step _ _ a id d r); [by apply (books_safe cfg inv (k + 1))|by apply (books_safe cfg inv k)| |done|done|exact Hw|done].
        rewrite !put_slot_slots. f_equal. rewrite <- Hc1, <- Hch. done.
      * intros x ox fx y Hx Hy Hg. unfold override in *. destruct (_ && _); done.
    + change (0 <=? -1) with false. eapply run_ret, run_ret. apply Hend; [done|done|].
      intros Hpos. apply (direct_step s s2 a id d r); try done; [by apply (books_safe cfg inv k)|congruence|].
      rewrite <- Hc1, <- Hch. done.
  - eapply run_ret, run_ret. apply Hend; [done|done|]. intros Hpos.
    assert (Hnil : srCache (caches s) = []) by (apply nil_length_inv; pose proof (sl_size _ _ Hs); lia).
    apply (direct_step s s1 a id d r); try done; [by apply (books_safe cfg inv k)|congruence|by rewrite Hnil].
Qed.

(** A part of a chunk is replaced. *)
Definition patch (start : Z) (piece d : list Z) : list Z := list_inserts (Z.to_nat start) piece d.

Lemma memcpy_to_some start piece d : start + Z.of_nat (length piece) <= Z.of_nat (length d) ->
  memcpy_to start piece d = Some (patch start piece d).
Proof. intros H. unfold memcpy_to. by rewrite (proj2 (Z.ltb_ge _ _)) by lia. Qed.

Lemma patch_length start piece d : length (patch start piece d) = length d.
Proof. apply length_inserts. Qed.

Lemma CheckSpace_spec s : wp (on_dev (yaffs_CheckSpaceForAllocation cfg)) (fun _ s' => s' = s) s.
Proof.
  apply wp_on_dev. unfold yaffs_CheckSpaceForAllocation, getB, getC. wp_steps. by destruct s.
Qed.

Definition slot_at s (i a id : Z) : Prop := 0 <= i /\ exists c, srCache (caches s) !! Z.to_nat i = Some c /\
  cc_object c = a /\ cc_chunkId c = id.

Lemma slot_for_write_run k s a o f id : books cfg inv k s -> 0 <= k -> is_file s a o f -> 0 <= objId o < 2 ^ 18 ->
  1 <= id <= YAFFS_MAX_CHUNK_ID -> 0 < nShortOpCaches cfg ->
  run total (slot_for_write cfg write a id) (fun i s' => books cfg inv k s' /\ keeps cfg total s s' /\
    (i = -1 \/ slot_at s' i a id)) s.
Proof.
  intros Hbo Hk Hf Hnum Hid Hn. pose proof (books_safe cfg inv k s Hbo) as Hs.
  pose proof (books_live cfg inv k s Hbo a o f Hf) as Ha. unfold slot_for_write.
  eapply run_step; [apply (FindCache_spec cfg inv k s a id o Hbo); [apply Hf|done]|].
  intros i s1 (ch & -> & Hch & Hcase). set (s1 := with_caches s ch).
  assert (Hu : only_use s s1) by (split; [by destruct s|change (same_uses (srCache (caches s)) (srCache ch)); rewrite Hch; apply same_uses_refl]).
  destruct (only_use_keeps cfg total write inv k s s1 Hbo Hu) as [Hbo1 Hk1].
  assert (Hf1 : is_file s1 a o f) by exact Hf. change (srCache ch) with (srCache (caches s1)) in *.
  destruct Hcase as [(c & Hi & Hc & Hsl & _)|[-> Hno]].
  - rewrite (proj2 (Z.ltb_ge i 0)) by done. eapply run_bind, run_wp, (wp_get_slot i c); [done|done|].
    assert (Hat : slot_at s1 i a id).
    { split; [done|]. exists c. split; [done|]. apply slot_of_Some in Hsl as (j & Hj & Hjc); [|by eapply sl_distinct, books_safe|done].
      by apply is_slot_true in Hjc. }
    destruct (cc_dirty c); [apply run_ret; split; [done|]; split; [done|by right]|].
    eapply run_step; [apply CheckSpace_spec|]. intros space s2 ->. apply run_ret. split; [done|]. split; [done|].
    destruct space; [by right|by left].
  - change (-1 <? 0) with true. cbv iota. eapply run_step; [apply CheckSpace_spec|]. intros space s2 ->.
    destruct space; [|apply run_ret; split; [done|]; split; [done|by left]].
    eapply run_seq; [by apply (Grab_run cfg total write inv k s1)|].
    intros i s2 (Hbo2 & Hk2 & Hfw & Hsp).
    destruct (st_files _ _ _ _ _ Hk2 a o f Hf1) as (o2 & f2 & Hf2 & Hn2 & _).
    assert (Hno2 : slot_of (srCache (caches s2)) a id = None).
    { apply (fewer_none cfg s1 s2); [done|by apply (books_safe cfg inv k)|by apply (books_safe cfg inv k)|done|done]. }
    eapply run_step; [apply (load_spec cfg Hdev total write inv k s2 i a o2 f2 id); try done; by rewrite Hn2|].
    intros [] s3 (c & Hbo3 & Hk3 & Hc & E1 & E2 & _). apply run_ret. split; [done|].
    split; [eapply keeps_trans; [exact Hk1|]; by eapply keeps_trans|]. right. split; [apply Hsp|]. by exists c.
Qed.

(** What a write leaves in a slot. *)
Definition written (c : ChunkCache) (data : list Z) (nBytes : Z) : ChunkCache :=
  c <| cc_dirty := true |> <| cc_data := data |> <| cc_nBytes := nBytes |>.

Lemma slot_patched s i c start piece nBytes : slots_safe cfg s -> 0 < nShortOpCaches cfg -> 0 <= i ->
  srCache (caches s) !! Z.to_nat i = Some c -> start + Z.of_nat (length piece) <= n ->
  wp (copy_to_slot cfg i start piece nBytes) (fun _ s' => exists s1 c1, only_use s s1 /\ srCache (caches s1) !! Z.to_nat i = Some c1 /\ same_use c c1 /\
      s' = put_slot s1 (Z.to_nat i) (written c1 (patch start piece (cc_data c)) nBytes)) s.
Proof.
  intros Hs Hn Hi Hc H3. unfold copy_to_slot. pose proof (proj1 (Forall_lookup _ _) (sl_each _ _ Hs) _ c Hc) as [Hlk Hlen _ _ _].
  eapply wp_seq; [by apply (Use_spec cfg s i c true)|]. intros [] s' (s1 & c1 & Hu & Hc1 & Hsu & ->).
  assert (E : cc_data c1 = cc_data c /\ cc_locked c1 = false) by (by rewrite Hsu). destruct E as [Ed El].
  pose proof (lookup_lt_Some _ _ _ Hc1) as Hlt.
  assert (Hat : forall c', srCache (caches (put_slot s1 (Z.to_nat i) c')) !! Z.to_nat i = Some c')
    by (intros c'; exact (list_lookup_insert_eq _ _ _ Hlt)).
  assert (Hput : forall c' g (Q : unit -> FS N K -> Prop), Q tt (put_slot s1 (Z.to_nat i) (g c')) ->
    wp (mod_slot i g) Q (put_slot s1 (Z.to_nat i) c')).
  { intros c' g Q HQ. apply (wp_mod_slot i c'); [done|apply Hat|].
    match goal with |- Q tt ?x => assert (Heq : x = put_slot s1 (Z.to_nat i) (g c')) end.
    { transitivity (put_slot (put_slot s1 (Z.to_nat i) c') (Z.to_nat i) (g c')); [done|apply put_slot_put]. }
    by rewrite Heq. }
  unfold set_locked. apply wp_bind, Hput. apply wp_bind, (wp_get_slot i (c1 <| cc_dirty := true |> <| cc_locked := true |>)); [done|apply Hat|].
  change (cc_data (c1 <| cc_dirty := true |> <| cc_locked := true |>)) with (cc_data c1). rewrite Ed.
  apply wp_bind, (wp_of_option _ (patch start piece (cc_data c))); [apply memcpy_to_some; lia|].
  apply wp_bind, Hput, Hput. exists s1, c1. do 3 (split; [done|]). f_equal. unfold written. clear -El.
  destruct c1. cbn in *. by rewrite El.
Qed.

(** The slot with new data. *)
Lemma written_step k s i c data nBytes : books cfg inv (k + 1) s -> srCache (caches s) !! i = Some c -> cc_object c <> 0 ->
  Z.of_nat (length data) = n -> 0 <= nBytes <= n ->
  let s' := put_slot s i (written c data nBytes) in
  books cfg inv k s' /\ step cfg total s s' (override s (cc_object c) (cc_chunkId c) data).
Proof.
  intros Hbo Hi Hne Hd HnB s'. pose proof (books_safe cfg inv _ s Hbo) as Hs. set (c' := written c data nBytes) in *.
  destruct (proj1 (Forall_lookup _ _) (sl_each _ _ Hs) i c Hi) as [L1 L2 L3 L4 _].
  assert (Hst : step cfg total s s' (override s (cc_object c) (cc_chunkId c) data)).
  { apply (put_slot_step cfg total s i c c'); [done|done|by split| | |by apply (books_live cfg inv (k + 1))].
    - apply (distinct_insert _ i c); [done|apply Hs|]. intros _. left. by apply is_slot_true.
    - intros _ _. split; [done|]. intros x o f y Hf Hx Hy. unfold override, is_slot.
      change (cc_object c') with (cc_object c). change (cc_chunkId c') with (cc_chunkId c).
      rewrite (Z.eqb_sym (cc_object c)), (Z.eqb_sym (cc_chunkId c)). by destruct (_ && _). }
  split; [|done]. eapply (books_put cfg total write inv (k + 1) k s i c c'); [done|done|exact Hst|].
  pose proof (ind_range (negb (cc_object c =? 0) && cc_dirty c)). pose proof (ind_range (negb (cc_object c' =? 0) && cc_dirty c')). lia.
Qed.

(** A slot that was written through is no longer to be written. *)
Lemma through_run k s i c : books cfg inv k s -> 0 <= k -> 0 <= i -> srCache (caches s) !! Z.to_nat i = Some c ->
  cc_object c <> 0 -> cc_dirty c = true ->
  run total (r ← write (cc_object c) (cc_chunkId c) (cc_data c) (cc_nBytes c) true;
             _ ← mod_slot i (fun c => c <| cc_dirty := false |>); mret r)
    (fun r s' => books cfg inv k s' /\ keeps cfg total s s' /\ (total = false -> 0 < r)) s.
Proof.
  intros Hbo Hk Hi Hc Hne Hd. pose proof (books_safe cfg inv k s Hbo) as Hs.
  destruct (proj1 (Forall_lookup _ _) (sl_each _ _ Hs) _ c Hc) as [L1 L2 L3 L4 L5]. destruct (L3 Hne) as (o & f & Hf & Hnum).
  assert (Hone : ind (negb (cc_object c =? 0) && cc_dirty c) = 1) by (by rewrite Hd, (proj2 (Z.eqb_neq _ 0) Hne)).
  assert (Hpos : 0 < dirties (srCache (caches s))).
  { pose proof (dirties_range (<[Z.to_nat i := clean_slot c]> (srCache (caches s)))) as Hr.
    rewrite (dirties_insert _ _ c), Hone in Hr by done. unfold clean_slot in Hr. simp_fields_in Hr. cbn [ind negb andb Z.eqb] in Hr. lia. }
  eapply run_seq; [apply (write_spec cfg total write inv k s (cc_object c) o f); [done|lia|done|done|by apply L4|by apply L5|done]|].
  intros r s1 (Hbo1 & Hc1 & Hw & Hr). assert (Hi1 : srCache (caches s1) !! Z.to_nat i = Some c) by by rewrite Hc1.
  pose proof (books_safe cfg inv _ s1 Hbo1) as Hs1.
  destruct (after_write_keeps cfg total inv k s s1 _ c r Hbo Hs1 Hc1 Hc Hne Hw Hr) as [Hk1 Hown].
  eapply run_bind, run_wp, (wp_mod_slot i c); [done|done|]. apply run_ret.
  set (c' := c <| cc_dirty := false |>). fold (with_slots s1 (<[Z.to_nat i := c']> (srCache (caches s1)))).
  fold (put_slot s1 (Z.to_nat i) c').
  assert (Hk2 : keeps cfg total s1 (put_slot s1 (Z.to_nat i) c')).
  { apply (put_slot_step cfg total s1 _ c c'); [done|done| | | |by apply (books_live cfg inv (k - 1))].
    - destruct (proj1 (Forall_lookup _ _) (sl_each _ _ Hs1) _ c Hi1) as [M1 M2 M3 M4 _]. by split.
    - apply (distinct_insert _ _ c); [done|apply Hs1|]. intros _. left. by apply is_slot_true.
    - intros Ht Hco. split; [intros _ _; symmetry; exact (Hown Ht)|]. intros x ox fx y Hx Hx0 Hy.
      unfold is_slot at 1. change (cc_object c') with (cc_object c). change (cc_chunkId c') with (cc_chunkId c).
      fold (is_slot x y c). destruct (is_slot x y c) eqn:Ek; [|done]. apply is_slot_true in Ek as [<- <-].
      symmetry. exact (reads_slot cfg s1 (Z.to_nat i) c Hs1 Hi1 Hne). }
  split; [|split; [by eapply keeps_trans|intros Ht; by apply (lossless cfg total r Hr _ _ _ _ _ Hw)]].
  apply (books_put cfg total write inv (k - 1) k s1 _ c c' (reads_as cfg s1)); [done|done|done|]. rewrite Hone.
  change (cc_dirty c') with false. rewrite andb_false_r. cbn [ind]. lia.
Qed.

(** A part of a chunk into its slot, and on to the flash if [writeThrough] says so. *)
Lemma write_slot_run k s i a o f id start piece nBytes w (writeThrough : bool) :
  books cfg inv (k + 1) s -> 0 <= k -> is_file s a o f -> 1 <= id <= YAFFS_MAX_CHUNK_ID -> 0 < nShortOpCaches cfg ->
  slot_at s i a id -> start + Z.of_nat (length piece) <= n -> 0 <= nBytes <= n -> 0 <= w ->
  run total (_ ← copy_to_slot cfg i start piece nBytes;
             if writeThrough then
               c ← get_slot i;
               r ← write (cc_object c) (cc_chunkId c) (cc_data c) (cc_nBytes c) true;
               _ ← mod_slot i (fun c => c <| cc_dirty := false |>);
               mret r
             else mret w) (fun r s' => books cfg inv k s' /\
    if r <? 0 then keeps cfg total s s' else step cfg total s s' (override s a id (patch start piece (reads_as cfg s a id)))) s.
Proof.
  intros Hbo Hk Hf Hid Hn (Hi & c & Hc & Ea & Eid) H3 HnB Hw0. pose proof (books_safe cfg inv _ s Hbo) as Hs.
  pose proof (books_live cfg inv _ s Hbo a o f Hf) as Ha.
  assert (Hdata : cc_data c = reads_as cfg s a id) by (rewrite <- Ea, <- Eid; symmetry; apply (reads_slot cfg s _ c Hs Hc); congruence).
  eapply run_step; [by apply (slot_patched s i c start piece nBytes)|].
  intros [] s2 (s1 & c1 & Hu & Hc1 & Hsu & ->). destruct (only_use_keeps cfg total write inv _ s s1 Hbo Hu) as [Hbo1 Hk1].
  assert (E : cc_object c1 = a /\ cc_chunkId c1 = id) by (by rewrite Hsu). destruct E as [Ea1 Eid1].
  pose proof (proj1 (Forall_lookup _ _) (sl_each _ _ Hs) _ c Hc) as [_ Hlen _ _ _].
  destruct (written_step k s1 _ c1 (patch start piece (cc_data c)) nBytes Hbo1 Hc1) as [Hbo2 Hst]; [congruence|by rewrite patch_length|done|].
  rewrite Ea1, Eid1 in Hst. set (s2 := put_slot s1 _ _) in *.
  assert (Hst2 : step cfg total s s2 (override s a id (patch start piece (reads_as cfg s a id)))).
  { rewrite <- Hdata. eapply step_trans; [exact Hk1|exact Hst|]. intros x ox fx y _ _. unfold override.
    intros ->. by destruct (_ && _). }
  destruct writeThrough.
  - pose proof (lookup_lt_Some _ _ _ Hc1) as Hlt. set (c2 := written c1 (patch start piece (cc_data c)) nBytes) in *.
    assert (Hc2 : srCache (caches s2) !! Z.to_nat i = Some c2) by exact (list_lookup_insert_eq _ _ _ Hlt).
    eapply run_bind, run_wp, (wp_get_slot i c2); [done|done|].
    eapply run_mono; [apply (through_run k s2 i c2); try done; change (cc_object c2) with (cc_object c1); congruence|].
    intros r s3 (Hbo3 & Hk3 & Hr). split; [done|]. destruct (Z.ltb_spec r 0) as [Hneg|_].
    + destruct Hst2 as [F1 _ _], Hk3 as [F2 S2 _]. split; [by eapply same_files_trans|done|]. intros Ht. specialize (Hr Ht). lia.
    + eapply step_trans; [exact Hst2|exact Hk3|done].
  - apply run_ret. split; [done|]. by rewrite (proj2 (Z.ltb_ge w 0)).
Qed.

(** One part of the write: a part of a chunk, or all of it. *)
Lemma write_part_run k s a o f id start piece nBytes w (writeThrough : bool) :
  books cfg inv (k + 1) s -> 0 <= k -> is_file s a o f -> 0 <= objId o < 2 ^ 18 -> 1 <= id <= YAFFS_MAX_CHUNK_ID ->
  0 <= start -> start + Z.of_nat (length piece) <= n -> 0 <= nBytes <= n -> 0 <= w ->
  run total (write_part cfg write a id start piece nBytes w writeThrough) (fun r s' => books cfg inv k s' /\
    if r <? 0 then keeps cfg total s s' else step cfg total s s' (override s a id (patch start piece (reads_as cfg s a id)))) s.
Proof.
  intros Hbo Hk Hf Hnum Hid H1 H3 HnB Hw. pose proof (books_safe cfg inv _ s Hbo) as Hs. pose proof n_pos as Hn0.
  pose proof (books_live cfg inv _ s Hbo a o f Hf) as Ha. unfold write_part.
  pose proof (reads_as_length _ s a o f id Hbo Hf ltac:(lia)) as Hl.
  destruct (Z.eqb_spec (Z.of_nat (length piece)) (nDataBytesPerChunk cfg)) as [Hfull|Hpart]; [|destruct (Z.ltb_spec 0 (nShortOpCaches cfg)) as [Hn|Hn]].
  - assert (Hp : patch start piece (reads_as cfg s a id) = piece).
    { unfold patch. assert (start = 0) as -> by (unfold n in *; lia).
      apply list_eq. intros i. destruct (decide (i < length piece)%nat).
      - rewrite list_lookup_inserts by (unfold n in *; lia). f_equal. lia.
      - rewrite !lookup_ge_None_2; [done|lia|]. rewrite length_inserts. unfold n in *. lia. }
    rewrite Hp. exact (write_whole k s a o f id piece Hbo Hk Hf Hnum Hid Hfull).
  - eapply run_seq; [apply (slot_for_write_run (k + 1) s a o f id); try done; lia|].
    intros i s1 (Hbo1 & Hk1 & [->|Hat]).
    + change (0 <=? -1) with false. cbv iota. apply run_ret. split; [|done].
      destruct Hbo1 as [B1 B2 B3 B4]. split; [done|lia|done|done].
    + rewrite (proj2 (Z.leb_le 0 i)) by apply Hat. destruct (st_files _ _ _ _ _ Hk1 a o f Hf) as (o1 & f1 & Hf1 & _).
      pose proof (write_slot_run k s1 i a o1 f1 id start piece nBytes w writeThrough Hbo1 Hk Hf1 Hid Hn Hat H3 HnB Hw) as Hrun.
      eapply run_mono; [exact Hrun|]. intros r s2 [Hbo2 Hr]. split; [done|].
      destruct (r <? 0); [by eapply keeps_trans|]. eapply step_trans; [exact Hk1|exact Hr|].
      intros x ox fx y _ _ Hxy. unfold override. destruct ((x =? a) && (y =? id)) eqn:E; [|done].
      apply andb_true_iff in E as [->%Z.eqb_eq ->%Z.eqb_eq]. by rewrite Hxy.
  - eapply run_step; [apply (flash_read (k + 1) s a o f id (temp_buffer cfg)); [done|done|done|by apply (temp_buffer_ok cfg Hcfg)]|].
    intros r s1 (Hbo1 & Hk1 & Hd & Hl1). pose proof (books_safe cfg inv _ s1 Hbo1) as Hs1.
    assert (Hnil : forall s', slots_safe cfg s' -> srCache (caches s') = []).
    { intros s' Hs'. apply nil_length_inv. pose proof (sl_size _ _ Hs'). lia. }
    assert (Hrd : reads_as cfg s a id = snd r) by (unfold reads_as; by rewrite (Hnil s Hs)).
    eapply run_bind, run_wp, (wp_of_option _ (patch start piece (snd r))); [apply memcpy_to_some; unfold n in *; lia|].
    destruct (st_files _ _ _ _ _ Hk1 a o f Hf) as (o1 & f1 & Hf1 & Hn1 & _).
    pose proof (dirties_range (srCache (caches s1))) as Hdr.
    eapply run_mono; [apply (write_spec cfg total write inv (k + 1) s1 a o1 f1); try done; [lia|by rewrite Hn1|by rewrite patch_length]|].
    intros r' s2 (Hbo2 & Hc2 & Hw2 & Hr2). replace (k + 1 - 1) with k in Hbo2 by lia. split; [done|].
    pose proof (books_safe cfg inv _ s2 Hbo2) as Hs2.
    destruct (Z.ltb_spec r' 0) as [Hneg|Hpos].
    + split; [|done|]; [eapply same_files_trans; [exact (st_files _ _ _ _ _ Hk1)|by eapply after_write_files]|].
      intros Ht. pose proof (lossless cfg total r' Hr2 _ _ _ _ _ Hw2 Ht). lia.
    + assert (0 < r') by (destruct Hw2 as [[-> _]|[? _]]; lia). eapply step_trans; [exact Hk1|..].
      * apply (direct_step s1 s2 a id (patch start piece (snd r)) r'); try done; [by rewrite (Hnil s1 Hs1), (Hnil s2 Hs2)|by rewrite (Hnil s1 Hs1)].
      * intros x ox fx y _ _ Hxy. rewrite Hrd. unfold override. by rewrite Hxy.
Qed.

(** ** The bytes after a write *)

(** The chunks [g] with [data] from byte [off] of the file on. *)
Definition splice (g : Z -> list Z) (off : Z) (data : list Z) (y : Z) : list Z :=
  map (fun i => let p := (y - 1) * n + i in
    if (off <=? p) && (p <? off + Z.of_nat (length data)) then nth (Z.to_nat (p - off)) data 0
    else nth (Z.to_nat i) (g y) 0) (seqZ 0 n).

Lemma splice_length g off data y : Z.of_nat (length (splice g off data y)) = n.
Proof. pose proof n_pos. unfold splice. rewrite length_map, length_seqZ. lia. Qed.

Lemma splice_nth g off data y i : 0 <= i < n -> nth (Z.to_nat i) (splice g off data y) 0 =
  let p := (y - 1) * n + i in
  if (off <=? p) && (p <? off + Z.of_nat (length data)) then nth (Z.to_nat (p - off)) data 0
  else nth (Z.to_nat i) (g y) 0.
Proof.
  intros Hi. apply nth_lookup_Some. unfold splice. rewrite list_lookup_fmap.
  assert (Hz : seqZ 0 n !! Z.to_nat i = Some i) by (apply lookup_seqZ; lia). rewrite Hz. done.
Qed.

Lemma chunk_ext (l1 l2 : list Z) : Z.of_nat (length l1) = n -> Z.of_nat (length l2) = n ->
  (forall i, 0 <= i < n -> nth (Z.to_nat i) l1 0 = nth (Z.to_nat i) l2 0) -> l1 = l2.
Proof.
  intros H1 H2 H. apply (nth_ext _ _ 0 0); [lia|]. intros i Hi. specialize (H (Z.of_nat i) ltac:(lia)). by rewrite Nat2Z.id in H.
Qed.

Lemma splice_nil g off y : Z.of_nat (length (g y)) = n -> splice g off [] y = g y.
Proof.
  intros Hl. apply chunk_ext; [apply splice_length|done|]. intros i Hi. rewrite splice_nth by done. cbv zeta. cbn [length].
  destruct (Z.leb_spec off ((y - 1) * n + i)); cbn [andb]; [|done]. by rewrite (proj2 (Z.ltb_ge _ _)) by lia.
Qed.

Lemma splice_ext g h off data y : g y = h y -> splice g off data y = splice h off data y.
Proof. intros H. unfold splice. by rewrite H. Qed.

Lemma splice_app g off d1 d2 y : splice (splice g off d1) (off + Z.of_nat (length d1)) d2 y = splice g off (d1 ++ d2) y.
Proof.
  apply chunk_ext; [apply splice_length..|]. intros i Hi. rewrite !splice_nth by done. cbv zeta.
  set (p := (y - 1) * n + i). rewrite length_app, Nat2Z.inj_add.
  destruct (Z.leb_spec off p), (Z.ltb_spec p (off + Z.of_nat (length d1)));
    destruct (Z.leb_spec (off + Z.of_nat (length d1)) p), (Z.ltb_spec p (off + Z.of_nat (length d1) + Z.of_nat (length d2)));
    destruct (Z.ltb_spec p (off + (Z.of_nat (length d1) + Z.of_nat (length d2)))); cbn [andb]; try lia; try done.
  - by rewrite app_nth1 by lia.
  - rewrite app_nth2 by lia. f_equal. lia.
Qed.

Lemma splice_byte g off data p : byte_of (splice g off data) p =
  if (off <=? p) && (p <? off + Z.of_nat (length data)) then nth (Z.to_nat (p - off)) data 0 else byte_of g p.
Proof.
  pose proof n_pos. pose proof (Z.mod_pos_bound p n ltac:(lia)). pose proof (Z.div_mod p n ltac:(lia)).
  unfold byte_of at 1. rewrite splice_nth by lia. cbv zeta.
  replace ((p / n + 1 - 1) * n + p mod n) with p by lia. by destruct (_ && _).
Qed.

(** A part of one chunk. *)
Lemma patch_splice g q start piece y : Z.of_nat (length (g y)) = n -> 0 <= start ->
  start + Z.of_nat (length piece) <= n ->
  (if y =? q + 1 then patch start piece (g y) else g y) = splice g (q * n + start) piece y.
Proof.
  intros Hl H1 H2. pose proof n_pos. apply chunk_ext; [destruct (_ =? _); [by rewrite patch_length|done]|apply splice_length|].
  intros i Hi. rewrite splice_nth by done. cbv zeta. destruct (Z.eqb_spec y (q + 1)) as [->|Hne].
  - replace ((q + 1 - 1) * n + i) with (q * n + i) by lia. unfold patch.
    destruct (Z.leb_spec (q * n + start) (q * n + i)); cbn [andb];
      [destruct (Z.ltb_spec (q * n + i) (q * n + start + Z.of_nat (length piece)))|].
    + rewrite !nth_lookup, list_lookup_inserts by lia. do 2 f_equal. lia.
    + rewrite !nth_lookup, list_lookup_inserts_ge by lia. done.
    + rewrite !nth_lookup, list_lookup_inserts_lt by lia. done.
  - destruct (Z.leb_spec (q * n + start) ((y - 1) * n + i)); cbn [andb]; [|done].
    rewrite (proj2 (Z.ltb_ge _ _)); [done|]. nia.
Qed.

Lemma write_back_range size chunk start m : 0 <= start -> 0 <= m -> 0 <= write_back cfg size chunk start m <= n.
Proof.
  intros H1 H2. pose proof n_pos. unfold write_back. fold n. destruct (Z.ltb_spec (start + m) n); [|lia].
  cbv zeta. destruct (Z.ltb_spec n (i32 (u32 (size - (chunk - 1) * n)))).
  - destruct (_ <? _); lia.
  - destruct (Z.ltb_spec (start + m) (i32 (u32 (size - (chunk - 1) * n)))); lia.
Qed.

(** ** The loop of a write *)

(** How many chunks the bytes are in. *)
Definition parts (off m : Z) : Z := (off + m + n - 1) / n - off / n.

Lemma parts_next off m : 0 <= off -> 0 < m -> let t := bytes_in_chunk cfg (off mod n) m in
  1 <= parts off m /\ (0 < m - t -> parts (off + t) (m - t) = parts off m - 1).
Proof.
  intros H0 Hm t. destruct (bytes_in_chunk_spec off m H0 Hm) as (Ht1 & Ht2 & Hs & Hmod). fold t in Ht1, Ht2.
  pose proof n_pos. unfold parts. split.
  - assert (off / n + 1 <= (off + m + n - 1) / n) by (apply Z.div_le_lower_bound; nia). lia.
  - intros Hlt. replace (off + t + (m - t)) with (off + m) by lia.
    assert (Hend : off mod n + t = n).
    { revert Hlt. unfold t, bytes_in_chunk. fold n. destruct (Z.ltb_spec (off mod n + m) n); lia. }
    assert (Hq : (off + t) / n = off / n + 1) by (symmetry; apply (Z.div_unique _ _ _ 0); lia).
    rewrite Hq. lia.
Qed.

(** What files read as after a write: [data] from byte [off] of the file at [a] on. *)
Definition spliced s (a off : Z) (data : list Z) (x y : Z) : list Z :=
  if x =? a then splice (reads_as cfg s a) off data y else reads_as cfg s x y.

Lemma step_ext s s' g h : step cfg total s s' g ->
  (forall a o f id, is_file s a o f -> 0 <= id <= YAFFS_MAX_CHUNK_ID -> g a id = h a id) -> step cfg total s s' h.
Proof.
  intros [A1 A2 A3] Hgh. split; [done|done|]. intros Ht Hco. destruct (A3 Ht Hco) as [Hc Hn]. split; [done|].
  intros a o f Hf. destruct (Hn a o f Hf) as (o' & f' & Hf' & H1 & H2 & E). exists o', f'. do 3 (split; [done|]).
  intros id Hid. rewrite E by done. by apply (Hgh a o f).
Qed.

Lemma books_weaken k k' s : k' <= k -> books cfg inv k s -> books cfg inv k' s.
Proof. intros Hk [B1 B2 B3 B4]. split; [done|lia|done|done]. Qed.

(** Nothing was written. *)
Lemma keeps_spliced k s s' a off : books cfg inv k s -> keeps cfg total s s' -> step cfg total s s' (spliced s a off []).
Proof.
  intros Hbo Hk. apply (step_ext s s' (reads_as cfg s)); [done|]. intros x o f y Hf Hy. unfold spliced.
  destruct (Z.eqb_spec x a) as [->|]; [|done]. symmetry. apply splice_nil. by apply (reads_as_length k s a o f).
Qed.

Lemma write_loop_run fuel : forall k s a o f buffer off m nDone w wt, books cfg inv k s -> 0 <= k -> is_file s a o f ->
  0 <= objId o < 2 ^ 18 -> in_range off m -> m + 1 < Z.of_nat fuel -> m <= Z.of_nat (length buffer) ->
  (0 < m -> parts off m <= k) -> 0 <= w ->
  run total (write_loop cfg fuel write a buffer off m nDone w wt) (fun r s' => books cfg inv 0 s' /\
    exists d, 0 <= d <= m /\ r = nDone + d /\ step cfg total s s' (spliced s a off (take (Z.to_nat d) buffer))) s.
Proof.
  induction fuel as [|fuel IH]; intros k s a o f buffer off m nDone w wt Hbo Hk Hf Hnum Hr Hfuel Hb Hparts Hw; [destruct Hr; lia|].
  pose proof (books_safe cfg inv k s Hbo) as Hs. cbn [write_loop]. destruct (Z.ltb_spec 0 m) as [Hm|Hm]; cbn [andb].
  2:{ apply run_ret. split; [by apply (books_weaken k 0)|]. exists 0. split; [destruct Hr; lia|]. split; [lia|].
      cbn [Z.to_nat take]. by apply (keeps_spliced k); [|apply keeps_refl]. }
  rewrite (proj2 (Z.leb_le 0 w)) by done.
  eapply run_step; [by apply (chunk_of_spec off m)|]. intros x s1 [-> ->]. cbv iota beta.
  pose proof Hr as (Hoff & _ & Hlim & Hmax).
  pose proof (bytes_in_chunk_spec off m Hoff Hm) as Ht. cbv zeta in Ht.
  pose proof (parts_next off m Hoff Hm) as Hpn. cbv zeta in Hpn. set (t := bytes_in_chunk cfg (off mod n) m) in *.
  destruct Ht as (Ht1 & Ht2 & Hsplit & Hmod). destruct Hpn as [Hp1 Hp2]. specialize (Hparts Hm).
  pose proof (chunk_range off m Hr Hm) as Hid.
  eapply run_bind, run_wp, (wp_get_file a o f); [apply Hf|apply Hf|].
  eapply run_bind, run_wp, (wp_of_option _ (piece_of 0 t buffer)); [apply memcpy_from_some; lia|].
  assert (Hpl : Z.of_nat (length (piece_of 0 t buffer)) = t) by (apply piece_of_length; lia).
  assert (Hpc : piece_of 0 t buffer = take (Z.to_nat t) buffer) by done.
  eapply run_seq; [apply (write_part_run (k - 1) s a o f (off / n + 1) (off mod n)); try done; [by apply (books_weaken k); [lia|]|lia|lia|lia|by apply write_back_range; lia]|].
  intros r s1 [Hbo1 Hst]. destruct (Z.ltb_spec r 0) as [Hneg|Hpos].
  - rewrite (proj2 (Z.leb_gt 0 r)) by done. destruct fuel as [|fuel]; [lia|]. cbn [write_loop].
    rewrite (proj2 (Z.leb_gt 0 r)), andb_false_r by done. apply run_ret. split; [by apply (books_weaken (k - 1)); [lia|]|].
    exists 0. split; [lia|]. split; [lia|]. cbn [Z.to_nat take]. by apply (keeps_spliced k).
  - rewrite (proj2 (Z.leb_le 0 r)) by done.
    assert (Hst1 : step cfg total s s1 (spliced s a off (take (Z.to_nat t) buffer))).
    { eapply step_ext; [exact Hst|]. intros x ox fx y Hx Hy. unfold override, spliced.
      destruct (Z.eqb_spec x a) as [->|]; cbn [andb]; [|done]. rewrite Hsplit at 4. rewrite Hpc.
      rewrite <- (patch_splice (reads_as cfg s a) (off / n) (off mod n)).
      - by destruct (Z.eqb_spec y (off / n + 1)) as [->|].
      - by apply (reads_as_length k s a ox fx).
      - lia.
      - rewrite <- Hpc, Hpl. lia. }
    destruct (st_files _ _ _ _ _ Hst1 a o f Hf) as (o1 & f1 & Hf1 & Hn1 & _).
    eapply run_mono; [apply (IH (k - 1) s1 a o1 f1 (drop (Z.to_nat t) buffer)); try done;
      [lia|by rewrite Hn1|unfold in_range; lia|lia|rewrite length_drop; lia|lia]|].
    intros r2 s2 (Hbo2 & d & Hd & -> & Hst2). split; [done|]. exists (t + d). split; [lia|]. split; [lia|].
    eapply step_trans; [exact Hst1|exact Hst2|]. intros x ox fx y Hx Hy. unfold spliced.
    destruct (Z.eqb_spec x a) as [->|]; [|done]. intros Hxy.
    rewrite (splice_ext (reads_as cfg s1 a) (splice (reads_as cfg s a) off (take (Z.to_nat t) buffer)) (off + t)) by done.
    rewrite <- Hpl at 2. rewrite Hpc, splice_app. f_equal.
    rewrite Z2Nat.inj_add by lia. apply take_take_drop.
Qed.
End bytes.
