(* ===== verification/Files.v ===== *)
(** * Reading and writing files, with and without pages to write on
    The writers that [yaffs_ReadDataFromFile], [yaffs_WriteDataToFile] and the flush of the cache
    are followed with.  [gc_write] is the one of the code.  [careful_write] has a collection that
    gives up where a page in use cannot be copied, instead of deleting it: its runs always end.
    Strict writers and collections fail there, or where no page is left for the data; where a
    strict run gets to its end, the others are the same. *)
From S2P Require Import Prelude Monad ObjHeader Tags Device Nand Sim BlockInv Blocks Medium Blank Tnode Tree Gc Objects File Steps Cache Names Headers Delete Collect Watch Start Copy Choose Collector DataFile Slots Bytes.

(** ** Runs with another writer *)
Section runs.
Context {S : Type}.

(** [m2] runs as [m1] does, where [m1] runs. *)
Definition runs_as {A} (m1 m2 : M S A) : Prop := forall s r, m1 s = Some r -> m2 s = Some r.

Lemma runs_as_refl {A} (m : M S A) : runs_as m m.
Proof. by intros s r. Qed.

Lemma runs_as_bind {A B} (m1 m2 : M S A) (f1 f2 : A -> M S B) :
  runs_as m1 m2 -> (forall a, runs_as (f1 a) (f2 a)) -> runs_as (mbind f1 m1) (mbind f2 m2).
Proof.
  intros Hm Hf s r. unfold mbind, M_bind. destruct (m1 s) as [[a s']|] eqn:E; [|done].
  rewrite (Hm s _ E). apply Hf.
Qed.

(** Two runs that are both that of a third, which ends. *)
Lemma runs_same {A} (m m1 m2 : M S A) s : runs_as m m1 -> runs_as m m2 -> is_Some (m s) -> m1 s = m2 s.
Proof. intros H1 H2 [r Hr]. by rewrite (H1 s r Hr), (H2 s r Hr). Qed.
End runs.

(** A run that ends, and what is known of it if the strict run ends too. *)
Lemma both_runs {St A} (m1 m2 : M St A) Q1 Q2 s : runs_as m1 m2 -> wp m2 Q2 s -> pc m1 Q1 s ->
  wp m2 (fun r s' => Q2 r s' /\ (Q1 r s' \/ m1 s = None)) s.
Proof.
  intros Hrun Hw Hp. destruct (m1 s) as [[r s']|] eqn:E.
  - pose proof (Hrun s _ E) as E2. unfold wp in *. rewrite E2 in *. split; [done|]. left. by apply Hp.
  - eapply wp_mono; [exact Hw|]. intros r s' H. split; [done|]. by right.
Qed.

Section strict.
Context {N K : Type} {nd : NandDriver N} `{!Kmalloc K} `{!Clock K} (cfg : Config).
Implicit Types (w : Writer N K).

(** The writer that stops where no page is left. *)
Definition strict_write w : Writer N K := fun a id buffer nBytes useReserve =>
  r ← w a id buffer nBytes useReserve;
  if r <? 0 then fail else mret r.

Definition writes_as (w1 w2 : Writer N K) : Prop := forall a id buffer nBytes useReserve,
  runs_as (w1 a id buffer nBytes useReserve) (w2 a id buffer nBytes useReserve).

Lemma strict_writes w : writes_as (strict_write w) w.
Proof.
  intros a id buffer nBytes ur s r. unfold strict_write, mbind, M_bind.
  destruct (w a id buffer nBytes ur s) as [[x s']|]; [|done]. by destruct (x <? 0).
Qed.

Context (w1 w2 : Writer N K) (Hw : writes_as w1 w2).

Ltac runs_as_step := first
  [ apply runs_as_refl | apply Hw
  | apply runs_as_bind; [|intros ?]
  | match goal with |- runs_as (if ?b then _ else _) _ => destruct b end
  | match goal with |- runs_as (let '(_, _) := ?p in _) _ => destruct p end ].

Lemma flush_loop_runs fuel : forall a x, runs_as (flush_loop cfg fuel w1 a x) (flush_loop cfg fuel w2 a x).
Proof.
  induction fuel as [|fuel IH]; intros a x; [apply runs_as_refl|]. cbn [flush_loop]. cbv zeta.
  repeat (apply IH || runs_as_step).
Qed.

Lemma Flush_runs a : runs_as (yaffs_FlushFilesChunkCache cfg w1 a) (yaffs_FlushFilesChunkCache cfg w2 a).
Proof. unfold yaffs_FlushFilesChunkCache, when. repeat (apply flush_loop_runs || runs_as_step). Qed.

Lemma Grab_runs : runs_as (yaffs_GrabChunkCache cfg w1) (yaffs_GrabChunkCache cfg w2).
Proof. unfold yaffs_GrabChunkCache. repeat (apply Flush_runs || runs_as_step). Qed.

Lemma read_loop_runs fuel : forall a buffer off m d,
  runs_as (read_loop cfg fuel w1 a buffer off m d) (read_loop cfg fuel w2 a buffer off m d).
Proof.
  induction fuel as [|fuel IH]; intros a buffer off m d; [apply runs_as_refl|]. cbn [read_loop]. cbv zeta.
  unfold read_part. repeat (apply IH || apply Grab_runs || runs_as_step).
Qed.

Lemma Read_runs a buffer off m : runs_as (yaffs_ReadDataFromFile cfg w1 a buffer off m) (yaffs_ReadDataFromFile cfg w2 a buffer off m).
Proof. unfold yaffs_ReadDataFromFile. repeat (apply read_loop_runs || runs_as_step). Qed.

Lemma write_loop_runs fuel : forall a buffer off m d x wt,
  runs_as (write_loop cfg fuel w1 a buffer off m d x wt) (write_loop cfg fuel w2 a buffer off m d x wt).
Proof.
  induction fuel as [|fuel IH]; intros a buffer off m d x wt; [apply runs_as_refl|]. cbn [write_loop]. cbv zeta.
  unfold write_part, slot_for_write. repeat (apply IH || apply Grab_runs || runs_as_step).
Qed.

Lemma Write_runs a buffer off m wt :
  runs_as (yaffs_WriteDataToFile cfg w1 a buffer off m wt) (yaffs_WriteDataToFile cfg w2 a buffer off m wt).
Proof. unfold yaffs_WriteDataToFile. repeat (apply write_loop_runs || runs_as_step). Qed.
End strict.

(** ** The writers of the file system *)
Section calm.
Context {N K : Type} {nd : NandDriver N} `{!Kmalloc K} `{!Clock K} (cfg : Config).
Local Abbreviation St := (FS N K).
Implicit Types (s : St) (o : Object).

(** Steps that make no object and delete none. *)
Definition calm {A} (m : M St A) : Prop := forall s, pc m (fun _ s' => quiet s s') s.

Lemma quiet_refl s : quiet s s.
Proof. by apply quiet_objects. Qed.

Lemma calm_gets {A} (g : St -> A) : calm (gets g).
Proof. intros s. apply pc_gets, quiet_refl. Qed.

Lemma calm_ret {A} (a : A) : calm (mret a).
Proof. intros s. apply pc_ret, quiet_refl. Qed.

Lemma calm_of_option {A} (a : option A) : calm (of_option a).
Proof. intros s. apply pc_of_option. intros _ _. apply quiet_refl. Qed.

Lemma calm_bind {A B} (m : M St A) (k : A -> M St B) : calm m -> (forall a, calm (k a)) -> calm (mbind k m).
Proof.
  intros Hm Hk s. eapply pc_seq; [apply Hm|]. intros a s1 H1. eapply pc_mono; [apply Hk|].
  intros b s2 H2. by apply (quiet_trans s s1 s2).
Qed.

Lemma calm_on_dev {A} (m : M (State N) A) : calm (on_dev m).
Proof.
  intros s a s'. unfold on_dev. destruct (m (dev s)) as [[x d]|]; [|done].
  intros [= <- <-]. by apply quiet_objects.
Qed.

Lemma calm_on_tns {A} (m : M (Tnodes K) A) : calm (on_tns m).
Proof.
  intros s a s'. unfold on_tns. destruct (m (tns s)) as [[x t]|]; [|done].
  intros [= <- <-]. by apply quiet_objects.
Qed.

Lemma calm_get_obj a : calm (get_obj a).
Proof. unfold get_obj, getO. apply calm_bind; [apply calm_gets|]. intros t. apply calm_of_option. Qed.

Lemma calm_get_file a : calm (get_file a).
Proof.
  unfold get_file. apply calm_bind; [apply calm_get_obj|]. intros o.
  destruct (variant o); try (intros s; apply pc_fail). apply calm_ret.
Qed.

Lemma with_obj_quiet s a o o' : objects (obs s) !! a = Some o -> deleted o' = deleted o -> quiet s (with_obj s a o').
Proof.
  intros Ho Hd y oy [Hy Hoy]. change (<[a := o']> (objects (obs s)) !! y = Some oy) in Hoy. change (hashed (obs s) y) in Hy.
  destruct (decide (a = y)) as [->|Hne].
  - rewrite lookup_insert_eq in Hoy. injection Hoy as <-. exists o. split; [by split|done].
  - rewrite lookup_insert_ne in Hoy by done. exists oy. by repeat split.
Qed.

Lemma calm_mod_obj a g : (forall o, deleted (g o) = deleted o) -> calm (mod_obj a g).
Proof.
  intros Hg s. unfold mod_obj. apply pc_bind. unfold get_obj, getO. apply pc_bind, pc_gets, pc_of_option.
  intros o Ho. unfold modO. apply pc_modify, (with_obj_quiet s a o); [done|apply Hg].
Qed.

Lemma calm_set_file a f : calm (set_file a f).
Proof. unfold set_file. apply calm_bind; [apply calm_get_file|]. intros _. by apply calm_mod_obj. Qed.

Lemma calm_when (b : bool) (m : M St unit) : calm m -> calm (when b m).
Proof. destruct b; [done|]. intros _. apply calm_ret. Qed.

Ltac calm_step := first
  [ apply calm_ret | apply calm_on_dev | apply calm_on_tns | apply calm_get_obj | apply calm_get_file
  | apply calm_of_option | apply calm_set_file | (apply calm_mod_obj; by intros) | apply calm_when
  | apply calm_bind; [|intros ?]
  | match goal with |- calm (if ?b then _ else _) => destruct b end
  | match goal with |- calm (let '(_, _) := ?p in _) => destruct p end
  | match goal with |- calm (match ?x with None => _ | Some _ => _ end) => destruct x end ].

Lemma calm_FindChunk a id t : calm (yaffs_FindChunkInFile cfg a id t).
Proof. unfold yaffs_FindChunkInFile. repeat calm_step. Qed.

Lemma calm_PutChunk a id c : calm (yaffs_PutChunkIntoFile cfg a id c 0).
Proof.
  unfold yaffs_PutChunkIntoFile. change (ztrue 0) with false. cbn [andb]. repeat calm_step.
Qed.

Lemma calm_WriteChunk collect a id buffer nBytes useReserve :
  calm collect -> calm (yaffs_WriteChunkDataToObject cfg collect a id buffer nBytes useReserve).
Proof.
  intros Hc. unfold yaffs_WriteChunkDataToObject.
  repeat (exact Hc || apply calm_FindChunk || apply calm_PutChunk || calm_step).
Qed.
End calm.

Section writers.
Context {N K : Type} {nd : NandDriver N} `{!Kmalloc K} `{!KmallocLaws K} `{!Clock K} (cfg : Config).
Context {nf : NandFrame nd cfg} {nm : NandMedium nd cfg} {nb : NandBlank nd cfg}.
Context (Hdev : device_ok cfg).
Local Abbreviation St := (FS N K).
Implicit Types (s : St) (o : Object).

(** A writer whose collection is ready in a state. *)
Lemma collecting_writer collect ready `{!Collector cfg collect ready} s U l Fs D a o f id buffer nBytes useReserve :
  ready s -> fs_ok cfg s U l Fs D -> is_file s a o f -> 0 <= objId o < 2 ^ 18 -> 1 <= id <= YAFFS_MAX_CHUNK_ID ->
  (12 <= length l)%nat -> 0 <= nBytes <= nDataBytesPerChunk cfg -> Z.of_nat (length buffer) = nDataBytesPerChunk cfg ->
  wp (yaffs_WriteChunkDataToObject cfg collect a id buffer nBytes useReserve) (fun r s' =>
    (exists U' l' Fs' D', fs_ok cfg s' U' l' Fs' D') /\ spent 12 s s' /\ after_write cfg s s' a id buffer r /\
    (r <= 0 -> no_page cfg useReserve (dev s'))) s.
Proof.
  intros Hr Hs Hf Hnum Hid Hl HnB Hb. destruct Hdev.
  apply (WriteChunkData_spec cfg dv_cfg dv_tnodes dv_plain dv_aware dv_marks collect ready s U l Fs D a o f); done.
Qed.

(** Writes that stop where no page is left, if they are known of the states in question. *)
Lemma pc_strict w a id buffer nBytes ur (Q : Z -> St -> Prop) s :
  pc (w a id buffer nBytes ur) (fun r s' => 0 <= r -> Q r s') s -> pc (strict_write w a id buffer nBytes ur) Q s.
Proof.
  intros Hw. eapply pc_seq; [exact Hw|]. intros r s' H. destruct (Z.ltb_spec r 0); [apply pc_fail|]. apply pc_ret. auto.
Qed.

(** ** The writers of the code, and careful ones *)
(** The collection that gives up where a page in use cannot be copied. *)
Definition careful_gc : M St Z :=
  r ← watched_collection cfg;
  mret (default YAFFS_FAIL r).

(** The collection that is not run to its end then. *)
Definition strict_gc : M St Z :=
  r ← watched_collection cfg;
  of_option r.

Lemma strict_gc_runs : runs_as strict_gc (yaffs_CheckGarbageCollection cfg).
Proof.
  intros s [r s']. unfold strict_gc, mbind, M_bind.
  destruct (watched_collection cfg s) as [[[x|] s1]|] eqn:E; [|done|done].
  intros [= <- <-]. exact (watched_agrees cfg s x s1 E).
Qed.

Lemma strict_gc_careful : runs_as strict_gc careful_gc.
Proof. apply runs_as_bind; [apply runs_as_refl|]. intros [x|]; [apply runs_as_refl|by intros s r]. Qed.

(** A write with a collection that stops, and one with the collection of the code. *)
Lemma WriteChunk_runs c1 c2 : runs_as c1 c2 ->
  writes_as (yaffs_WriteChunkDataToObject cfg c1) (yaffs_WriteChunkDataToObject cfg c2).
Proof. intros H a id buffer nBytes ur. apply runs_as_bind; [done|]. intros _. apply runs_as_refl. Qed.

Definition gc_write : Writer N K := yaffs_WriteChunkDataToObject cfg (yaffs_CheckGarbageCollection cfg).
Definition careful_write : Writer N K := yaffs_WriteChunkDataToObject cfg careful_gc.
(** No collection may stop, but a write may find no page. *)
Definition lossless_write : Writer N K := yaffs_WriteChunkDataToObject cfg strict_gc.
(** Nor may a write. *)
Definition safe_write : Writer N K := strict_write lossless_write.

Lemma lossless_gc : writes_as lossless_write gc_write.
Proof. apply WriteChunk_runs, strict_gc_runs. Qed.

Lemma lossless_careful : writes_as lossless_write careful_write.
Proof. apply WriteChunk_runs, strict_gc_careful. Qed.

Lemma safe_writes : writes_as safe_write gc_write.
Proof. intros a id buffer nBytes ur s r H. by apply lossless_gc, strict_writes. Qed.

Context (Hsize : 512 <= nDataBytesPerChunk cfg).

Lemma kept_all_quiet s s' : kept_all cfg s s' -> quiet s s'.
Proof.
  intros (_ & _ & _ & _ & _ & _ & _ & Hk) y oy Hy. destruct (kp_old _ _ _ Hk y oy Hy) as (oy0 & H0 & _ & H2 & _).
  by exists oy0.
Qed.

Lemma careful_gc_spec s U l Fs D : fs_ok cfg s U l Fs D -> none_deleted s ->
  wp careful_gc (fun _ s' => kept_all cfg s s') s.
Proof.
  intros Hs Hd. eapply wp_seq; [by apply (watched_spec cfg Hdev Hsize s U l Fs D)|].
  intros r s' [Hk _]. by apply wp_ret.
Qed.

#[export] Instance careful_collector : Collector cfg careful_gc none_deleted.
Proof. split. intros s U l Fs D Hd Hs. by apply (careful_gc_spec s U l Fs D). Qed.

Lemma quiet_WriteChunk collect a id buffer nBytes ur s : pc collect (fun _ s' => quiet s s') s ->
  pc (yaffs_WriteChunkDataToObject cfg collect a id buffer nBytes ur) (fun _ s' => quiet s s') s.
Proof.
  intros Hc. change (pc (mbind (fun _ => yaffs_WriteChunkDataToObject cfg (mret YAFFS_OK) a id buffer nBytes ur) collect)
    (fun _ s' => quiet s s') s).
  eapply pc_seq; [exact Hc|]. intros r0 s1 H1. eapply pc_mono; [apply calm_WriteChunk, calm_ret|].
  intros r s2 H2. by apply (quiet_trans s s1 s2).
Qed.

Lemma none_deleted_quiet s s' : none_deleted s -> quiet s s' -> none_deleted s'.
Proof. intros Hd Hq a o' Ho'. destruct (Hq a o' Ho') as (o & Ho & ->). by apply (Hd a). Qed.

(** A careful write ends and keeps the books. *)
Lemma careful_write_spec s U l Fs D a o f id buffer nBytes ur :
  none_deleted s -> fs_ok cfg s U l Fs D -> is_file s a o f -> 0 <= objId o < 2 ^ 18 -> 1 <= id <= YAFFS_MAX_CHUNK_ID ->
  (12 <= length l)%nat -> 0 <= nBytes <= nDataBytesPerChunk cfg -> Z.of_nat (length buffer) = nDataBytesPerChunk cfg ->
  wp (careful_write a id buffer nBytes ur) (fun r s' =>
    (exists U' l' Fs' D', fs_ok cfg s' U' l' Fs' D') /\ none_deleted s' /\ spent 12 s s' /\ after_write cfg s s' a id buffer r /\
    (r <= 0 -> no_page cfg ur (dev s'))) s.
Proof.
  intros Hd Hs Hf Hnum Hid Hl HnB Hb.
  eapply wp_mono; [apply wp_pc; [by apply (collecting_writer careful_gc none_deleted s U l Fs D a o f)|]|].
  - apply (quiet_WriteChunk careful_gc). apply pc_wp.
    eapply wp_mono; [by apply (careful_gc_spec s U l Fs D)|]. intros r s' H. by apply kept_all_quiet.
  - intros r s' [(H1 & H2 & H3) Hq]. split; [done|]. split; [by apply (none_deleted_quiet s)|done].
Qed.

Lemma careful_writer : FileWriter cfg true careful_write none_deleted.
Proof.
  split; [apply none_deleted_quiet|]. intros s U l Fs D a o f id buffer nBytes ur Hd Hs Hf Hnum Hid Hl HnB Hb.
  eapply wp_mono; [by apply (careful_write_spec s U l Fs D a o f)|]. intros r s' (H1 & H2 & H3 & H4 & _).
  exact (conj H1 (conj H2 (conj H3 (conj H4 (fun _ => eq_refl))))).
Qed.

Lemma careful_strict : FileWriter cfg false (strict_write careful_write) none_deleted.
Proof.
  split; [apply none_deleted_quiet|]. intros s U l Fs D a o f id buffer nBytes ur Hd Hs Hf Hnum Hid Hl HnB Hb.
  apply pc_strict, pc_wp. eapply wp_mono; [by apply (careful_write_spec s U l Fs D a o f)|].
  intros r s' (H1 & H2 & H3 & H4 & _) Hr. split; [done|]. split; [done|]. split; [done|]. split; [done|lia].
Qed.

(** Where a write of the code is safe, a careful one is the same. *)
Lemma gc_writer : FileWriter cfg false safe_write none_deleted.
Proof.
  split; [apply none_deleted_quiet|]. intros s U l Fs D a o f id buffer nBytes ur Hd Hs Hf Hnum Hid Hl HnB Hb r s' Hr.
  assert (Hr2 : strict_write careful_write a id buffer nBytes ur s = Some (r, s')).
  { revert Hr. unfold safe_write, strict_write. apply runs_as_bind; [apply lossless_careful|]. intros x. apply runs_as_refl. }
  destruct careful_strict as [_ Hw]. by apply (Hw s U l Fs D a o f id buffer nBytes ur).
Qed.
End writers.
