(* ===== verification/Contents.v ===== *)
(** * The bytes of files
    What [yaffs_ReadDataFromFile] and [yaffs_WriteDataToFile] do to the bytes and the sizes of
    all files, and what a flush of the cache does to their contents.  It is shown of a careful
    collection, with which these functions always end, and the garbage collection of the code
    does the same unless it has to drop a page. *)
From S2P Require Import Prelude Monad ObjHeader Tags Device Nand Sim BlockInv Blocks Medium Blank Tnode Tree Gc Objects File Steps Cache Names Headers Delete Collect Watch Start Copy Choose Collector DataFile Slots Bytes Files.

Section contents.
Context {N K : Type} {nd : NandDriver N} `{!Kmalloc K} `{!KmallocLaws K} `{!Clock K} (cfg : Config).
Context {nf : NandFrame nd cfg} {nm : NandMedium nd cfg} {nb : NandBlank nd cfg}.
Context (Hdev : device_ok cfg).
Implicit Types (s : FS N K) (o : Object) (f : FileStructure).
Let n := nDataBytesPerChunk cfg.

(** ** The size of a file *)

(** The same files with the same data on flash, and the same slots. *)
Record same_data s s' : Prop := {
  sd_caches : caches s' = caches s;
  sd_files : forall x o f, is_file s x o f -> exists o' f', is_file s' x o' f' /\ objId o' = objId o /\
    forall id, 0 <= id <= YAFFS_MAX_CHUNK_ID -> file_data cfg s' x id = file_data cfg s x id
}.

Lemma same_data_safe s s' : slots_safe cfg s -> same_data s s' -> slots_safe cfg s'.
Proof.
  intros [H1 H2 H3] [Hc Hf]. split; rewrite ?Hc; [done| |done]. eapply Forall_impl; [exact H2|].
  intros c [A1 A2 A3 A4 A5]. split; [done|done| |done|done]. intros Hne. destruct (A3 Hne) as (o & f & Ho & Hn).
  destruct (Hf _ o f Ho) as (o' & f' & Ho' & Hi & _). exists o', f'. split; [done|]. by rewrite Hi.
Qed.

Lemma same_data_reads s s' x o f id : same_data s s' -> is_file s x o f -> 0 <= id <= YAFFS_MAX_CHUNK_ID ->
  on_flash cfg s' x id = on_flash cfg s x id /\ reads_as cfg s' x id = reads_as cfg s x id.
Proof.
  intros [Hc Hf] Ho Hid. destruct (Hf x o f Ho) as (_ & _ & _ & _ & Hd).
  assert (H : on_flash cfg s' x id = on_flash cfg s x id) by (unfold on_flash; by rewrite Hd).
  split; [done|]. unfold reads_as. rewrite Hc. by destruct (slot_of _ x id).
Qed.

Lemma same_data_coherent s s' : slots_safe cfg s -> same_data s s' -> coherent cfg s -> coherent cfg s'.
Proof.
  intros Hsl Hd Hco i c Hi Hne Hcl. rewrite (sd_caches _ _ Hd) in Hi.
  destruct (safe_file cfg s i c Hsl Hi Hne) as (o & f & Ho & Hid).
  destruct (same_data_reads s s' _ o f (cc_chunkId c) Hd Ho Hid) as [-> _]. by apply (Hco i).
Qed.

(** The size of the file at [a] is at least [size] then; and where the slots were coherent, they
    are again and chunks read as [g] says.  In a total run the latter is not known. *)
Definition grown (total : bool) s s' (a size : Z) (g : Z -> Z -> list Z) : Prop :=
  (total = false -> coherent cfg s -> coherent cfg s') /\
  forall x o f, is_file s x o f -> exists o' f', is_file s' x o' f' /\ objId o' = objId o /\
    fileSize f' = (if x =? a then Z.max (fileSize f) size else fileSize f) /\
    (total = false -> coherent cfg s -> forall id, 0 <= id <= YAFFS_MAX_CHUNK_ID -> reads_as cfg s' x id = g x id).

(** Another size in the description of a file. *)
Lemma sized_ok s U l Fs D a o f z : fs_ok cfg s U l Fs D -> is_file s a o f ->
  let f' := f <| fileSize := z |> in
  let o' := o <| variant := FileVariant f' |> in let s' := with_obj s a o' in
  (exists Fs', fs_ok cfg s' U l Fs' D) /\ is_file s' a o' f' /\ others_same cfg s s' a /\
  forall id, file_data cfg s' a id = file_data cfg s a id.
Proof.
  intros Hs Hf f' o' s'. pose proof Hf as [[[Ha Ho] Hv] _].
  pose proof (live_tree _ _ _ _ _ _ _ _ _ _ Hs Hf) as [H1 H2 H3 H4].
  pose proof (mo_store _ _ _ _ (fk_mem _ _ _ _ _ _ _ Hs)) as Hst.
  destruct (file_step cfg (dv_cfg cfg Hdev) (dv_tnodes cfg Hdev) (dv_plain cfg Hdev) (dv_aware cfg Hdev) (dv_marks cfg Hdev) 0 0 s s' U l Fs D a o o' f f' ∅ l Hs Hf) as (A1 & A2 & A3);
    rewrite ?union_empty_l_L; try done.
  { by intros q Hq. }
  { intros id _ _. by left. }
  { intros c d id _ _ Hne H. by apply H. }
  { by left. }
  rewrite !union_empty_l_L in A1. split; [by eexists|]. split; [done|]. split; [done|].
  intros id. by rewrite (file_data_entry cfg s' a o' f' id A2), (file_data_entry cfg s a o f id Hf).
Qed.

(** The same data after a step that leaves the slots. *)
Lemma sized_data s U l Fs D a o f z : fs_ok cfg s U l Fs D -> is_file s a o f ->
  let o' := o <| variant := FileVariant (f <| fileSize := z |>) |> in
  same_data s (with_obj s a o').
Proof.
  intros Hs Hf o'. destruct (sized_ok s U l Fs D a o f z Hs Hf) as (_ & H2 & H3 & H4). split; [done|].
  intros x ox fx Hx. destruct (decide (x = a)) as [->|Hne].
  - destruct (any_file_unique s a o f ox fx (proj1 Hf) (proj1 Hx)) as [-> ->].
    exists o', (f <| fileSize := z |>). split; [done|]. split; [done|]. intros id _. apply H4.
  - destruct (H3 x ox fx Hne Hx) as [Hx' Hd]. exists ox, fx. split; [done|]. split; [done|]. intros id _. apply Hd.
Qed.

Lemma kept_same_data s s' : data_kept cfg s s' -> caches s' = caches s -> same_data s s'.
Proof.
  intros Hk Hc. split; [done|]. intros x o f Hf. destruct (Hk x o f Hf) as (o' & f' & Hf' & Hi & _ & Hd).
  exists o', f'. by split; [|split].
Qed.

(** The books after such a step. *)
Lemma books_data inv total write `{!FileWriter cfg total write inv} k s s' :
  books cfg inv k s -> (exists U l Fs D, fs_ok cfg s' U l Fs D) -> same_data s s' -> quiet s s' -> tns s' = tns s ->
  books cfg inv k s'.
Proof.
  intros [_ H2 H3 H4] Hs Hd Hq Ht. split; [done| |by apply (same_data_safe s)|by apply (fw_quiet cfg s)].
  by rewrite (sd_caches _ _ Hd), Ht.
Qed.

Lemma same_data_trans s1 s2 s3 : same_data s1 s2 -> same_data s2 s3 -> same_data s1 s3.
Proof.
  intros [A1 A2] [B1 B2]. split; [congruence|]. intros x o f Hf.
  destruct (A2 x o f Hf) as (o1 & f1 & H1 & Hi1 & Hd1). destruct (B2 x o1 f1 H1) as (o2 & f2 & H2 & Hi2 & Hd2).
  exists o2, f2. split; [done|]. split; [congruence|]. intros id Hid. by rewrite Hd2, Hd1.
Qed.

Lemma same_data_refl s : same_data s s.
Proof. split; [done|]. intros x o f Hf. by exists o, f. Qed.

(** The file at [a] has [size] bytes at least, the others have as many as before. *)
Definition has_sizes s s' (a size : Z) : Prop := forall x o f, is_file s x o f -> exists o' f', is_file s' x o' f' /\
  fileSize f' = (if x =? a then Z.max (fileSize f) size else fileSize f).

(** The end of a write: the size grows, and the object is marked. *)
Definition end_of_write (a size nDone : Z) : M (FS N K) Z :=
  f ← get_file a;
  _ ← when (fileSize f <? size) (set_file a (f <| fileSize := size |>));
  _ ← mod_obj a (fun o => o <| dirty := true |>);
  mret nDone.

Lemma end_of_write_spec inv total write `{!FileWriter cfg total write inv} k s a o f size nDone :
  books cfg inv k s -> is_file s a o f ->
  wp (end_of_write a size nDone) (fun r s' => r = nDone /\ books cfg inv k s' /\ same_data s s' /\
    forall x ox fx, is_file s x ox fx -> exists o' f', is_file s' x o' f' /\
      fileSize f' = (if x =? a then Z.max (fileSize fx) size else fileSize fx)) s.
Proof.
  intros Hbo Hf. pose proof Hf as [[[Ha Ho] Hv] _]. destruct (bo_fs _ _ _ _ Hbo) as (U & l & Fs & D & Hs).
  apply wp_bind, (wp_get_file a o f); [done|done|].
  apply wp_seq with (P := fun _ s1 => books cfg inv k s1 /\ same_data s s1 /\ has_sizes s s1 a size).
  { apply wp_when. destruct (Z.ltb_spec (fileSize f) size) as [Hlt|Hge].
    - unfold set_file. apply wp_bind, (wp_get_file a o f); [done|done|]. apply (wp_mod_obj a o); [done|].
      pose proof (sized_data s U l Fs D a o f size Hs Hf) as Hd.
      destruct (sized_ok s U l Fs D a o f size Hs Hf) as ([Fs' Hs1] & Hf1 & Hot & _).
      split; [|split; [done|]].
      + apply (books_data inv total write k s); [done|by exists U, l, Fs', D|done| |done].
        apply with_obj_quiet with o; done.
      + intros x ox fx Hx. destruct (Z.eqb_spec x a) as [->|Hne].
        * destruct (any_file_unique s a o f ox fx (proj1 Hf) (proj1 Hx)) as [-> ->].
          eexists _, _. split; [exact Hf1|]. cbn. lia.
        * exists ox, fx. by destruct (Hot x ox fx Hne Hx).
    - split; [done|]. split; [by apply same_data_refl|]. intros x ox fx Hx. exists ox, fx. split; [done|].
      destruct (Z.eqb_spec x a) as [->|Hne]; [|done].
      destruct (any_file_unique s a o f ox fx (proj1 Hf) (proj1 Hx)) as [-> ->]. lia. }
  intros [] s1 (Hbo1 & Hd1 & Hsz1). destruct (Hsz1 a o f Hf) as (o1 & f1 & Hf1 & _).
  destruct (bo_fs _ _ _ _ Hbo1) as (U1 & l1 & Fs1 & D1 & Hs1).
  apply wp_bind, (wp_mod_view cfg 0 s1 U1 l1 Fs1 D1 a o1 (fun o => o <| dirty := true |>)); [done|apply Hf1|done|done|done|].
  set (s2 := with_obj s1 a _). intros Hs2 Hv2.
  assert (Hd2 : same_data s1 s2) by (apply kept_same_data; [by apply view_data_kept|done]).
  apply wp_ret. split; [done|]. split; [|split; [by apply (same_data_trans s s1 s2)|]].
  - apply (books_data inv total write k s1); [done|by exists U1, l1, Fs1, D1|done| |done].
    apply with_obj_quiet with o1; [apply Hf1|done].
  - intros x ox fx Hx. destruct (Hsz1 x ox fx Hx) as (o' & f' & Hx1 & Hz).
    destruct (view_data_kept cfg s1 s2 Hv2 x o' f' Hx1) as (o2 & f2 & Hx2 & _ & Hz2 & _).
    exists o2, f2. split; [done|]. by rewrite Hz2.
Qed.

(** ** Reading and writing *)
Context (Haddr : addresses_split cfg).
Context (total : bool) (write : Writer N K) (inv : FS N K -> Prop) {fw : FileWriter cfg total write inv}.

Lemma Read_run k s a o f buffer off m : books cfg inv k s -> 0 <= k -> is_file s a o f ->
  0 <= objId o < 2 ^ 18 -> in_range cfg off m -> m <= Z.of_nat (length buffer) ->
  run total (yaffs_ReadDataFromFile cfg write a buffer off m) (fun r s' => books cfg inv k s' /\ keeps cfg total s s' /\
    fst r = m /\
    (total = false -> coherent cfg s -> snd r = bytes_of cfg (reads_as cfg s a) off m ++ drop (Z.to_nat m) buffer)) s.
Proof.
  intros Hbo Hk Hf Hnum Hrg Hb. unfold yaffs_ReadDataFromFile.
  apply run_bind, run_wp, (wp_get_obj a o); [apply Hf|].
  assert (Hm : 0 <= m) by apply Hrg.
  eapply run_mono; [apply (read_loop_run cfg Hdev total write inv Haddr _ k s a o f buffer off m 0); try done; lia|].
  done.
Qed.

(** What was written is in the file, its size is as large as that asks for, and everything else
    is as before. *)
Lemma Write_run k s a o f buffer off m wt : books cfg inv k s -> is_file s a o f -> 0 <= objId o < 2 ^ 18 ->
  in_range cfg off m -> m <= Z.of_nat (length buffer) -> 0 <= k -> (0 < m -> parts cfg off m <= k) ->
  run total (yaffs_WriteDataToFile cfg write a buffer off m wt) (fun r s' => books cfg inv 0 s' /\ 0 <= r <= m /\
    grown total s s' a (off + r) (spliced cfg s a off (take (Z.to_nat r) buffer))) s.
Proof.
  intros Hbo Hf Hnum Hrg Hb Hk Hparts. unfold yaffs_WriteDataToFile.
  assert (Hm : 0 <= m) by apply Hrg.
  eapply run_seq; [apply (write_loop_run cfg Hdev total write inv Haddr _ k s a o f buffer off m 0 0 wt); try done; lia|].
  cbv beta. intros r s1 (Hbo1 & d & Hd & -> & Hst). rewrite Z.add_0_l.
  destruct (st_files _ _ _ _ _ Hst a o f Hf) as (o1 & f1 & Hf1 & _ & _ & _).
  destruct Hrg as (H0 & _ & Hlim & _).
  rewrite (swrap_small 32 off), (wrap_small 32 (off + d)) by lia.
  change (run total (end_of_write a (off + d) d) (fun r s' => books cfg inv 0 s' /\ 0 <= r <= m /\
    grown total s s' a (off + r) (spliced cfg s a off (take (Z.to_nat r) buffer))) s1).
  apply run_wp. eapply wp_mono; [by apply (end_of_write_spec inv total write 0 s1 a o1 f1)|].
  intros r s2 (-> & Hbo2 & Hd2 & Hsz2). split; [done|]. split; [done|].
  split.
  - intros Ht Hco. apply (same_data_coherent s1); [apply Hst|done|by apply Hst].
  - intros x ox fx Hx. destruct (st_files _ _ _ _ _ Hst x ox fx Hx) as (o1' & f1' & Hx1 & Hi1 & Hz1 & _).
    destruct (Hsz2 x o1' f1' Hx1) as (o2 & f2 & Hx2 & Hz2).
    destruct (sd_files _ _ Hd2 x o1' f1' Hx1) as (o2' & f2' & Hx2' & Hi2 & _).
    destruct (any_file_unique s2 x o2 f2 o2' f2' (proj1 Hx2) (proj1 Hx2')) as [-> ->].
    exists o2, f2. split; [done|]. split; [congruence|]. split; [by rewrite Hz2, Hz1|].
    intros Ht Hco id Hid. destruct (same_data_reads s1 s2 x o1' f1' id Hd2 Hx1 Hid) as [_ ->].
    destruct (st_reads _ _ _ _ _ Hst Ht Hco) as [_ Hnow].
    destruct (Hnow x ox fx Hx) as (_ & _ & _ & _ & _ & Hr). by apply Hr.
Qed.
End contents.

(** ** The theorems *)
Section theorems.
Context {N K : Type} {nd : NandDriver N} `{!Kmalloc K} `{!KmallocLaws K} `{!Clock K} (cfg : Config).
Context {nf : NandFrame nd cfg} {nm : NandMedium nd cfg} {nb : NandBlank nd cfg}.
Context (Hdev : device_ok cfg) (Haddr : addresses_split cfg).
Implicit Types (s : FS N K) (o : Object) (f : FileStructure).
Local Abbreviation n := (nDataBytesPerChunk cfg).

(** Byte [p] of the file at [a], as it is read now. *)
Definition file_byte s (a p : Z) : Z := byte_of cfg (reads_as cfg s a) p.
Definition file_bytes s (a off m : Z) : list Z := bytes_of cfg (reads_as cfg s a) off m.

Definition in_file (p : Z) : Prop := 0 <= p < n * YAFFS_MAX_CHUNK_ID.

Lemma in_file_chunk p : in_file p -> 0 <= p / n + 1 <= YAFFS_MAX_CHUNK_ID.
Proof.
  intros [H0 H1]. assert (0 < n) by apply (n_pos cfg Hdev).
  pose proof (Z.div_pos p n H0 ltac:(lia)). pose proof (Z.div_lt_upper_bound p n YAFFS_MAX_CHUNK_ID ltac:(lia) ltac:(lia)). lia.
Qed.

(** The bytes from [off] on are those of [data], the others as they were. *)
Definition bytes_written s s' (a off : Z) (data : list Z) : Prop := forall x o f p, is_file s x o f -> in_file p ->
  file_byte s' x p =
    if (x =? a) && (off <=? p) && (p <? off + Z.of_nat (length data)) then nth (Z.to_nat (p - off)) data 0
    else file_byte s x p.

Lemma grown_bytes s s' a size off data : grown cfg false s s' a size (spliced cfg s a off data) -> coherent cfg s ->
  bytes_written s s' a off data.
Proof.
  intros [_ Hg] Hco x o f p Hf Hp. destruct (Hg x o f Hf) as (_ & _ & _ & _ & _ & Hr).
  unfold file_byte. unfold byte_of at 1. rewrite Hr; [|done|done|by apply in_file_chunk]. unfold spliced.
  destruct (Z.eqb_spec x a) as [->|Hne]; [|done]. cbn [andb].
  by rewrite <- (splice_byte cfg Hdev).
Qed.


(** ** Reading, writing and flushing *)
Context (Hsize : 512 <= n).

(** C3. Reading a file.  From right books (with safe slots that have what is on flash where they
    need not be written, and no deleted file left), [yaffs_ReadDataFromFile] reads all the [m]
    bytes that were asked for and keeps the books.  They are the bytes of the file at that
    place, from the slots or from flash, zeros in the holes, and the rest of the buffer is as it
    was; no byte and no size of any file changes.  The one exception is that a slot had to be
    emptied for the read and no page was left to write it to: the same read that stops there
    does not get to its end.  All this is shown of the careful collection, which gives up where
    a page in use cannot be copied; with the collection of the code the read is the same one,
    unless a collection has to drop a page. *)
Theorem ReadDataFromFile_bytes s a o f buffer off m
    (Hbooks : books cfg none_deleted 0 s) (Hco : coherent cfg s)
    (Hf : is_file s a o f) (Hnum : 0 <= objId o < 2 ^ 18) (Hrange : in_range cfg off m)
    (Hbuf : m <= Z.of_nat (length buffer)) :
  wp (yaffs_ReadDataFromFile cfg (careful_write cfg) a buffer off m) (fun r s' =>
    books cfg none_deleted 0 s' /\ same_files cfg s s' /\ fst r = m /\
    ((snd r = file_bytes s a off m ++ drop (Z.to_nat m) buffer /\ coherent cfg s' /\ reads_same cfg s s') \/
     yaffs_ReadDataFromFile cfg (strict_write (careful_write cfg)) a buffer off m s = None)) s /\
  (is_Some (yaffs_ReadDataFromFile cfg (lossless_write cfg) a buffer off m s) ->
   yaffs_ReadDataFromFile cfg (gc_write cfg) a buffer off m s = yaffs_ReadDataFromFile cfg (careful_write cfg) a buffer off m s).
Proof.
  split; [|apply runs_same; apply Read_runs; [apply lossless_gc|apply lossless_careful]].
  eapply wp_mono; [apply both_runs; [apply Read_runs, strict_writes| |]|].
  - by apply (Read_run cfg Hdev Haddr true _ none_deleted (fw := careful_writer cfg Hdev Hsize) 0 s a o f).
  - by apply (Read_run cfg Hdev Haddr false _ none_deleted (fw := careful_strict cfg Hdev Hsize) 0 s a o f).
  - intros r s' [(H1 & H2 & H3 & _) Hb]. split; [done|]. split; [apply H2|]. split; [done|].
    destruct Hb as [(_ & Hk & _ & Hr)|Hn]; [left|by right].
    destruct (st_reads _ _ _ _ _ Hk eq_refl Hco). split; [by apply Hr|done].
Qed.

(** C2. Writing a file.  From right books with tnodes for the chunks the bytes are in and no
    deleted file left, [yaffs_WriteDataToFile] ends with right books and says how many bytes [r]
    it wrote, [m] at most; the size of the file is [off + r] at least then, and that of all
    others as before.  The first [r] bytes from [off] on are those of the buffer and every other
    byte of every file is as it was, whether it is in a slot, written through or on flash.  The
    one exception is that no page was left for a chunk that was to be written: the same write
    that stops there does not get to its end.  All this is shown of the careful collection, which
    gives up where a page in use cannot be copied; with the collection of the code the write is
    the same one, unless a collection has to drop a page. *)
Theorem WriteDataToFile_bytes s k a o f buffer off m writeThrough
    (Hbooks : books cfg none_deleted k s) (Hco : coherent cfg s)
    (Hf : is_file s a o f) (Hnum : 0 <= objId o < 2 ^ 18) (Hrange : in_range cfg off m)
    (Hbuf : m <= Z.of_nat (length buffer)) (Hk : 0 <= k /\ (0 < m -> parts cfg off m <= k)) :
  wp (yaffs_WriteDataToFile cfg (careful_write cfg) a buffer off m writeThrough) (fun r s' =>
    books cfg none_deleted 0 s' /\ 0 <= r <= m /\ has_sizes s s' a (off + r) /\
    ((bytes_written s s' a off (take (Z.to_nat r) buffer) /\ coherent cfg s') \/
     yaffs_WriteDataToFile cfg (strict_write (careful_write cfg)) a buffer off m writeThrough s = None)) s /\
  (is_Some (yaffs_WriteDataToFile cfg (lossless_write cfg) a buffer off m writeThrough s) ->
   yaffs_WriteDataToFile cfg (gc_write cfg) a buffer off m writeThrough s =
   yaffs_WriteDataToFile cfg (careful_write cfg) a buffer off m writeThrough s).
Proof.
  split; [|apply runs_same; apply Write_runs; [apply lossless_gc|apply lossless_careful]].
  destruct Hk as [Hk Hparts]. eapply wp_mono; [apply both_runs; [apply Write_runs, strict_writes| |]|].
  - by apply (Write_run cfg Hdev Haddr true _ none_deleted (fw := careful_writer cfg Hdev Hsize) k s a o f).
  - by apply (Write_run cfg Hdev Haddr false _ none_deleted (fw := careful_strict cfg Hdev Hsize) k s a o f).
  - intros r s' [(H1 & H2 & [_ Hg]) Hb]. split; [done|]. split; [done|].
    split; [intros x ox fx Hx; destruct (Hg x ox fx Hx) as (o' & f' & ? & _ & ? & _); by exists o', f'|].
    destruct Hb as [(_ & _ & Hg')|Hn]; [left|by right]. split; [by apply (grown_bytes s s' a (off + r))|by apply Hg'].
Qed.

(** What a flush leaves: the books of the device and of the cache, no deleted file, everything
    written or one chunk lost, and the files themselves. *)
Record flush_done s s' (a : Z) : Prop := {
  fd_books : exists U l Fs D, fs_ok cfg s' U l Fs D;
  fd_deleted : none_deleted s';
  fd_cache : cache_ok cfg s';
  fd_flushed : flushed cfg s s' a;
  fd_files : same_files cfg s s'
}.

(** C9. Flushing the cached chunks of a file ends, and it changes nothing of what any file
    contains (where the cache counts): every dirty chunk of the file is on the flash then, or
    a chunk could not be written for want of a page, and then exactly this cached chunk is lost
    and reads as before it was cached.  The books of the device and of the cache are kept.  This is shown of the
    careful collection, which gives up where a page in use cannot be copied; with the collection
    of the code the flush is the same one, unless a collection has to drop a page. *)
Theorem FlushFile_keeps_contents s U l Fs D a o f
    (Hs : fs_ok cfg s U l Fs D) (Hnd : none_deleted s) (Hca : cache_ok cfg s) (Hf : is_file s a o f)
    (Hfree : 12 * nShortOpCaches cfg <= nFreeTnodes (tns s)) :
  wp (yaffs_FlushFilesChunkCache cfg (careful_write cfg) a) (fun _ s' => flush_done s s' a) s /\
  (is_Some (yaffs_FlushFilesChunkCache cfg (lossless_write cfg) a s) ->
   yaffs_FlushFilesChunkCache cfg (gc_write cfg) a s = yaffs_FlushFilesChunkCache cfg (careful_write cfg) a s).
Proof.
  split; [|apply runs_same; apply Flush_runs; [apply lossless_gc|apply lossless_careful]].
  eapply wp_mono; [apply (FlushFile_spec cfg (careful_write cfg) none_deleted (careful_write_spec cfg Hdev Hsize)
    ltac:(done) s U l Fs D a o f); done|]. by intros [] s' (H1 & H2 & H3 & H4 & H5).
Qed.

(** ** What was written is read back *)

(** A write and a read of what it wrote, at the same place. *)
Definition write_then_read (write : Writer N K) (a : Z) (buffer out : list Z) (off m : Z) (writeThrough : bool)
    : M (FS N K) (Z * (Z * list Z)) :=
  r ← yaffs_WriteDataToFile cfg write a buffer off m writeThrough;
  p ← yaffs_ReadDataFromFile cfg write a out off r;
  mret (r, p).

Lemma write_then_read_runs (w1 w2 : Writer N K) a buffer out off m wt : writes_as w1 w2 ->
  runs_as (write_then_read w1 a buffer out off m wt) (write_then_read w2 a buffer out off m wt).
Proof.
  intros Hw. apply runs_as_bind; [by apply Write_runs|]. intros r.
  apply runs_as_bind; [by apply Read_runs|]. intros p. apply runs_as_refl.
Qed.

Lemma nth_bytes_of g off m i : (Z.of_nat i < m) -> nth i (bytes_of cfg g off m) 0 = byte_of cfg g (off + Z.of_nat i).
Proof.
  intros Hi. unfold bytes_of. change (map ?h ?l) with (h <$> l).
  by rewrite nth_lookup, list_lookup_fmap, lookup_seqZ_lt by lia.
Qed.

Lemma written_bytes s s' a o f off data : is_file s a o f -> bytes_written s s' a off data ->
  in_range cfg off (Z.of_nat (length data)) -> file_bytes s' a off (Z.of_nat (length data)) = data.
Proof.
  intros Hf Hw (H0 & _ & _ & Hlim). apply (nth_ext _ _ 0 0).
  - apply Nat2Z.inj. unfold file_bytes. by rewrite bytes_of_length by lia.
  - intros i Hi. unfold file_bytes in *. pose proof (bytes_of_length cfg (reads_as cfg s' a) off (Z.of_nat (length data)) ltac:(lia)) as Hlen.
    rewrite nth_bytes_of by lia.
    change (byte_of cfg (reads_as cfg s' a) (off + Z.of_nat i)) with (file_byte s' a (off + Z.of_nat i)).
    rewrite (Hw a o f) by (done || (split; lia)). rewrite Z.eqb_refl.
    rewrite (proj2 (Z.leb_le off _)), (proj2 (Z.ltb_lt _ _)) by lia. cbn [andb].
    replace (off + Z.of_nat i - off) with (Z.of_nat i) by lia. by rewrite Nat2Z.id.
Qed.

(** What a write gave is still there after a read. *)
Lemma sizes_kept s s1 s2 a size : has_sizes s s1 a size -> keeps cfg false s1 s2 -> has_sizes s s2 a size.
Proof.
  intros Hsz Hk x o f Hf. destruct (Hsz x o f Hf) as (o1 & f1 & Hf1 & Hz1).
  destruct (st_files _ _ _ _ _ Hk x o1 f1 Hf1) as (o2 & f2 & Hf2 & _ & Hz2 & _). exists o2, f2. split; [done|congruence].
Qed.

Lemma bytes_kept s s1 s2 a off size data : bytes_written s s1 a off data -> has_sizes s s1 a size ->
  keeps cfg false s1 s2 -> coherent cfg s1 -> bytes_written s s2 a off data.
Proof.
  intros Hw Hsz Hk Hco x o f p Hf Hp. rewrite <- (Hw x o f p Hf Hp).
  destruct (Hsz x o f Hf) as (o1 & f1 & Hf1 & _). destruct (st_reads _ _ _ _ _ Hk eq_refl Hco) as [_ Hnow].
  destruct (Hnow x o1 f1 Hf1) as (_ & _ & _ & _ & _ & Hr). unfold file_byte, byte_of. f_equal. by apply Hr, in_file_chunk.
Qed.

(** C1. What was written is read back, garbage collection included.  Where no deleted file waits
    to be cleaned up, a write through the cache followed by a read of as many bytes as were
    written returns these bytes, whatever slots are flushed, blocks collected and pages moved
    on the way, and the books are right again.  The hypothesis is that no page is lost for want
    of space: the same two calls with writes and copies that stop there come to their end. *)
Theorem write_then_read_back s k a o f buffer out off m writeThrough
    (Hbooks : books cfg none_deleted k s) (Hco : coherent cfg s)
    (Hf : is_file s a o f) (Hnum : 0 <= objId o < 2 ^ 18) (Hrange : in_range cfg off m)
    (Hbuf : m <= Z.of_nat (length buffer)) (Hout : m <= Z.of_nat (length out))
    (Hk : 0 <= k /\ (0 < m -> parts cfg off m <= k))
    (Hspace : is_Some (write_then_read (safe_write cfg) a buffer out off m writeThrough s)) :
  wp (write_then_read (gc_write cfg) a buffer out off m writeThrough) (fun p s' => let '(r, (r', data)) := p in
    0 <= r <= m /\ r' = r /\ data = take (Z.to_nat r) buffer ++ drop (Z.to_nat r) out /\
    books cfg none_deleted 0 s' /\ has_sizes s s' a (off + r) /\
    bytes_written s s' a off (take (Z.to_nat r) buffer)) s.
Proof.
  destruct Hspace as [[p s'] Hp]. unfold wp.
  rewrite (write_then_read_runs _ _ a buffer out off m writeThrough (safe_writes cfg) s _ Hp).
  destruct Hk as [Hk Hparts]. pose proof (gc_writer cfg Hdev Hsize) as Hfw. revert p s' Hp.
  change (run false (write_then_read (safe_write cfg) a buffer out off m writeThrough) (fun p s' => let '(r, (r', data)) := p in
    0 <= r <= m /\ r' = r /\ data = take (Z.to_nat r) buffer ++ drop (Z.to_nat r) out /\
    books cfg none_deleted 0 s' /\ has_sizes s s' a (off + r) /\ bytes_written s s' a off (take (Z.to_nat r) buffer)) s).
  eapply run_seq; [by apply (Write_run cfg Hdev Haddr false _ none_deleted k s a o f)|].
  intros r s1 (Hbo1 & Hr & Hgr). destruct Hgr as [Hco1 Hg]. specialize (Hco1 eq_refl Hco).
  assert (Hw : bytes_written s s1 a off (take (Z.to_nat r) buffer)) by (by apply (grown_bytes s s1 a (off + r))).
  destruct (Hg a o f Hf) as (o1 & f1 & Hf1 & Hi1 & _).
  assert (Hlen : Z.of_nat (length (take (Z.to_nat r) buffer)) = r) by (rewrite length_take; lia).
  assert (Hr' : in_range cfg off r) by (destruct Hrange as (? & ? & ? & ?); repeat split; lia).
  eapply run_seq; [apply (Read_run cfg Hdev Haddr false _ none_deleted 0 s1 a o1 f1); try done; by rewrite ?Hi1; lia|].
  intros [r2 data] s2 (Hbo2 & Hst & Hr2 & Hdata). apply run_ret. cbn [fst snd] in Hr2, Hdata.
  split; [done|]. split; [done|]. split; [|split; [done|]].
  - rewrite Hdata by done. f_equal. rewrite <- Hlen at 1. apply (written_bytes s s1 a o f); [done..|]. by rewrite Hlen.
  - assert (Hsz : has_sizes s s1 a (off + r)) by (intros x ox fx Hx; destruct (Hg x ox fx Hx) as (o' & f' & ? & _ & ? & _); by exists o', f').
    split; [by apply (sizes_kept s s1 s2)|by apply (bytes_kept s s1 s2 a off (off + r))].
Qed.
End theorems.

(** ** A file with slots *)

(** File addresses split where the chunk size is a power of two. *)
Lemma shift_splits {N} (cfg : Config) (nd : NandDriver N) : 0 < chunkShift cfg ->
  nDataBytesPerChunk cfg = 2 ^ chunkShift cfg -> chunkMask cfg = nDataBytesPerChunk cfg - 1 -> addresses_split cfg.
Proof.
  intros Hk Hn Hm addr Ha. unfold yaffs_AddrToChunk, ztrue. rewrite (proj2 (Z.eqb_neq _ 0)) by lia. cbn [negb].
  assert (0 < 2 ^ chunkShift cfg) by (apply Z.pow_pos_nonneg; lia).
  rewrite Hm, Hn. replace (2 ^ chunkShift cfg - 1) with (Z.ones (chunkShift cfg)) by (rewrite Z.ones_equiv; lia).
  rewrite Z.land_ones, Z.shiftr_div_pow2 by lia.
  pose proof (Z.mod_pos_bound addr (2 ^ chunkShift cfg) ltac:(lia)).
  pose proof (Z.mod_le addr (2 ^ chunkShift cfg) ltac:(lia) ltac:(lia)).
  pose proof (Z.div_pos addr (2 ^ chunkShift cfg) ltac:(lia) ltac:(lia)).
  assert (addr / 2 ^ chunkShift cfg <= addr) by (apply Z.div_le_upper_bound; [lia|nia]).
  by rewrite !(wrap_small 32) by lia.
Qed.

Lemma sample_splits : addresses_split sample_cfg.
Proof. by apply (shift_splits sample_cfg sim_driver). Qed.

Definition buffer_slot : ChunkCache := MkChunkCache 0 0 0 false 0 false (replicate 512 0).
Definition dirty_slot : ChunkCache := MkChunkCache the_file 1 1 true 512 false (sample_data 7).

Lemma distinct_two c : distinct [c; buffer_slot].
Proof.
  intros [|[|i]] [|[|j]] x y; intros [= <-] [= <-] Hne He Hc; try reflexivity; by destruct Hne.
Qed.

Lemma buffer_slot_safe (s : FS Flash Z) : slot_safe sample_cfg s buffer_slot.
Proof. split; [reflexivity|reflexivity|..]; intros Hne; by destruct Hne. Qed.

Lemma dirty_slot_safe (s : FS Flash Z) o f : is_file s the_file o f -> objId o = 257 -> slot_safe sample_cfg s dirty_slot.
Proof.
  intros Hf Hn. split; [reflexivity|reflexivity|intros _|intros _|intros _ _].
  - exists o, f. split; [exact Hf|]. rewrite Hn. lia.
  - change (cc_chunkId dirty_slot) with 1. lia.
  - change (cc_nBytes dirty_slot) with 512. change (nDataBytesPerChunk sample_cfg) with 512. lia.
Qed.

Lemma sample_books (inv : FS Flash Z -> Prop) s U l Fs D o f k c :
  fs_ok sample_cfg s U l Fs D -> is_file s the_file o f -> objId o = 257 -> 12 * (k + 1) <= Z.of_nat (length l) ->
  (c = buffer_slot \/ c = dirty_slot) -> inv (with_slots s [c; buffer_slot]) ->
  books sample_cfg inv k (with_slots s [c; buffer_slot]) /\ coherent sample_cfg (with_slots s [c; buffer_slot]).
Proof.
  intros Hs Hf Hn Hk Hc Hinv. set (s' := with_slots s [c; buffer_slot]) in *.
  assert (Hsl : srCache (caches s') = [c; buffer_slot]) by done.
  split; [split|]; rewrite ?Hsl.
  - exists U, l, Fs, D. by apply fs_but_slots.
  - pose proof (so_count _ _ _ _ (mo_store _ _ _ _ (fk_mem _ _ _ _ _ _ _ Hs))) as Hct.
    assert (Hd : dirties [c; buffer_slot] <= 1) by (destruct Hc as [->| ->]; vm_compute; discriminate).
    change (tns s') with (tns s). rewrite Hct. lia.
  - split; rewrite Hsl; [reflexivity| |by apply distinct_two].
    apply list.Forall_cons; split; [|apply list.Forall_singleton, buffer_slot_safe].
    destruct Hc as [->| ->]; [apply buffer_slot_safe|]. by apply (dirty_slot_safe s' o f).
  - exact Hinv.
  - intros [|[|i]] x; rewrite Hsl; intros [= <-] Hne Hcl; [|by destruct Hne].
    destruct Hc as [->| ->]; [by destruct Hne|discriminate Hcl].
Qed.

Definition worn_data_fs : FS Flash Z := with_slots worn_fs [dirty_slot; buffer_slot].

Lemma worn_data_ok : exists o f, is_file worn_data_fs the_file o f /\ objId o = 257 /\
  books sample_cfg none_deleted 2 worn_data_fs /\ coherent sample_cfg worn_data_fs.
Proof.
  destruct worn_has_file as (U & l & Fs & D & o & f & Hs & Hf & Hid & Hl). exists o, f. split; [exact Hf|]. split; [exact Hid|].
  apply (sample_books none_deleted worn_fs U l Fs D o f 2 dirty_slot Hs Hf Hid); [lia|by right|exact worn_none_deleted].
Qed.

Lemma range_300 : in_range sample_cfg 300 700.
Proof. unfold in_range. change (nDataBytesPerChunk sample_cfg) with 512. lia. Qed.

(** 212 bytes are in the slot, the rest is in the second chunk, on flash. *)
Lemma ReadDataFromFile_bytes_witness :
  let out := replicate 750 99 in
  fst <$> yaffs_ReadDataFromFile sample_cfg (gc_write sample_cfg) the_file out 300 700 worn_data_fs =
    Some (700, replicate 212 7 ++ replicate 488 8 ++ replicate 50 99) /\
  is_Some (yaffs_ReadDataFromFile sample_cfg (lossless_write sample_cfg) the_file out 300 700 worn_data_fs) /\
  wp (yaffs_ReadDataFromFile sample_cfg (careful_write sample_cfg) the_file out 300 700) (fun r s' =>
    books sample_cfg none_deleted 0 s' /\ same_files sample_cfg worn_data_fs s' /\ fst r = 700 /\
    ((snd r = file_bytes sample_cfg worn_data_fs the_file 300 700 ++ drop (Z.to_nat 700) out /\ coherent sample_cfg s' /\
        reads_same sample_cfg worn_data_fs s') \/
     yaffs_ReadDataFromFile sample_cfg (strict_write (careful_write sample_cfg)) the_file out 300 700 worn_data_fs = None))
    worn_data_fs /\
  (is_Some (yaffs_ReadDataFromFile sample_cfg (lossless_write sample_cfg) the_file out 300 700 worn_data_fs) ->
   yaffs_ReadDataFromFile sample_cfg (gc_write sample_cfg) the_file out 300 700 worn_data_fs =
   yaffs_ReadDataFromFile sample_cfg (careful_write sample_cfg) the_file out 300 700 worn_data_fs).
Proof.
  split; [vm_compute; reflexivity|]. split; [apply (bool_decide_unpack _); vm_compute; exact I|].
  destruct worn_data_ok as (o & f & Hf & Hid & Hbo & Hco).
  apply (ReadDataFromFile_bytes sample_cfg sample_device sample_splits (Z.le_refl 512) worn_data_fs the_file o f
    (replicate 750 99) 300 700).
  - apply (books_weaken sample_cfg none_deleted 2 0); [lia|exact Hbo].
  - exact Hco.
  - exact Hf.
  - rewrite Hid. lia.
  - exact range_300.
  - rewrite length_replicate. lia.
Defined.

(** The write has a block collected, with a page copied. *)
Lemma WriteDataToFile_bytes_witness :
  let buffer := replicate 700 5 in
  (fun p => (fst p, nErasedBlocks (blks (dev (snd p))), nGCCopies (stats (dev (snd p)))))
    <$> yaffs_WriteDataToFile sample_cfg (gc_write sample_cfg) the_file buffer 300 700 true worn_data_fs = Some (700, 3, 1) /\
  is_Some (yaffs_WriteDataToFile sample_cfg (lossless_write sample_cfg) the_file buffer 300 700 true worn_data_fs) /\
  wp (yaffs_WriteDataToFile sample_cfg (careful_write sample_cfg) the_file buffer 300 700 true) (fun r s' =>
    books sample_cfg none_deleted 0 s' /\ 0 <= r <= 700 /\ has_sizes worn_data_fs s' the_file (300 + r) /\
    ((bytes_written sample_cfg worn_data_fs s' the_file 300 (take (Z.to_nat r) buffer) /\ coherent sample_cfg s') \/
     yaffs_WriteDataToFile sample_cfg (strict_write (careful_write sample_cfg)) the_file buffer 300 700 true worn_data_fs = None))
    worn_data_fs /\
  (is_Some (yaffs_WriteDataToFile sample_cfg (lossless_write sample_cfg) the_file buffer 300 700 true worn_data_fs) ->
   yaffs_WriteDataToFile sample_cfg (gc_write sample_cfg) the_file buffer 300 700 true worn_data_fs =
   yaffs_WriteDataToFile sample_cfg (careful_write sample_cfg) the_file buffer 300 700 true worn_data_fs).
Proof.
  split; [vm_compute; reflexivity|]. split; [apply (bool_decide_unpack _); vm_compute; exact I|].
  destruct worn_data_ok as (o & f & Hf & Hid & Hbo & Hco).
  apply (WriteDataToFile_bytes sample_cfg sample_device sample_splits (Z.le_refl 512) worn_data_fs 2 the_file o f
    (replicate 700 5) 300 700 true Hbo Hco Hf).
  - rewrite Hid. lia.
  - exact range_300.
  - rewrite length_replicate. lia.
  - split; [lia|]. intros _. vm_compute. discriminate.
Defined.

Lemma worn_cache_ok o f : is_file worn_data_fs the_file o f -> objId o = 257 -> cache_ok sample_cfg worn_data_fs.
Proof.
  intros Hf Hid. split.
  - reflexivity.
  - change (srCache (caches worn_data_fs)) with [dirty_slot; buffer_slot].
    apply list.Forall_cons; split; [|apply list.Forall_singleton]; (split; [reflexivity|]).
    + intros _ _. split; [exists o, f; rewrite Hid; split; [exact Hf|lia]|].
      change (nDataBytesPerChunk sample_cfg) with 512. cbn [cc_chunkId cc_nBytes dirty_slot cc_data].
      split; [lia|]. split; [lia|]. unfold sample_data. by rewrite length_replicate.
    + intros Hne. by destruct Hne.
  - change (srCache (caches worn_data_fs)) with [dirty_slot; buffer_slot]. apply distinct_two.
Qed.

(** The slot is flushed, and a block is collected for that. *)
Lemma FlushFile_keeps_contents_witness :
  pending (srCache (caches worn_data_fs)) the_file 1 = Some (sample_data 7) /\
  (fun p => (nErasedBlocks (blks (dev (snd p))), nGCCopies (stats (dev (snd p)))))
    <$> yaffs_FlushFilesChunkCache sample_cfg (gc_write sample_cfg) the_file worn_data_fs = Some (3, 1) /\
  is_Some (yaffs_FlushFilesChunkCache sample_cfg (lossless_write sample_cfg) the_file worn_data_fs) /\
  wp (yaffs_FlushFilesChunkCache sample_cfg (careful_write sample_cfg) the_file) (fun _ s' =>
    flush_done sample_cfg worn_data_fs s' the_file) worn_data_fs /\
  (is_Some (yaffs_FlushFilesChunkCache sample_cfg (lossless_write sample_cfg) the_file worn_data_fs) ->
   yaffs_FlushFilesChunkCache sample_cfg (gc_write sample_cfg) the_file worn_data_fs =
   yaffs_FlushFilesChunkCache sample_cfg (careful_write sample_cfg) the_file worn_data_fs).
Proof.
  split; [vm_compute; reflexivity|]. split; [vm_compute; reflexivity|].
  split; [apply (bool_decide_unpack _); vm_compute; exact I|].
  destruct worn_data_ok as (o & f & Hf & Hid & [(U & l & Fs & D & Hs) _ _ Hnd] & _).
  apply (FlushFile_keeps_contents sample_cfg sample_device (Z.le_refl 512) worn_data_fs U l Fs D the_file o f).
  - exact Hs.
  - exact Hnd.
  - exact (worn_cache_ok o f Hf Hid).
  - exact Hf.
  - vm_compute. discriminate.
Defined.

(** The write has a block collected, with a page copied. *)
Lemma write_then_read_back_witness :
  (fun p => (fst (fst p), nErasedBlocks (blks (dev (snd p))), nGCCopies (stats (dev (snd p)))))
    <$> write_then_read sample_cfg (gc_write sample_cfg) the_file (replicate 700 5) (replicate 700 99) 300 700 true worn_data_fs
    = Some (700, 3, 1) /\
  wp (write_then_read sample_cfg (gc_write sample_cfg) the_file (replicate 700 5) (replicate 700 99) 300 700 true)
    (fun p s' => let '(r, (r', data)) := p in
      0 <= r <= 700 /\ r' = r /\ data = take (Z.to_nat r) (replicate 700 5) ++ drop (Z.to_nat r) (replicate 700 99) /\
      books sample_cfg none_deleted 0 s' /\ has_sizes worn_data_fs s' the_file (300 + r) /\
      bytes_written sample_cfg worn_data_fs s' the_file 300 (take (Z.to_nat r) (replicate 700 5))) worn_data_fs.
Proof.
  split; [vm_compute; reflexivity|]. destruct worn_data_ok as (o & f & Hf & Hid & Hbo & Hco).
  apply (write_then_read_back sample_cfg sample_device sample_splits (Z.le_refl 512) worn_data_fs 2 the_file o f
    (replicate 700 5) (replicate 700 99) 300 700 true Hbo Hco Hf).
  - rewrite Hid. lia.
  - exact range_300.
  - rewrite length_replicate. lia.
  - rewrite length_replicate. lia.
  - split; [lia|]. intros _. vm_compute. discriminate.
  - apply (bool_decide_unpack _). vm_compute. exact I.
Defined.
