(* ===== verification/Attributes.v ===== *)
(** * Attributes ([yaffs_guts.c])
    What the VFS asks of an object and tells it: length, links, number, type, alias, and the
    attributes, which are in the object and in its header.  Setting them writes the header; what
    is set on an object whose details are not loaded yet is lost. *)
From S2P Require Import Prelude Monad ObjHeader Tags Device Nand Sim BlockInv Blocks Medium Blank Tnode Tree Objects File Steps Cache Names Headers Lookup DataFile.

(** [struct iattr], with the seconds of the times. *)
Record Iattr := MkIattr {
  ia_valid : Z;
  ia_mode : Z;
  ia_uid : Z;
  ia_gid : Z;
  ia_size : Z;
  ia_atime : Z;
  ia_mtime : Z;
  ia_ctime : Z
}.

Definition ATTR_MODE := 1.
Definition ATTR_UID := 2.
Definition ATTR_GID := 4.
Definition ATTR_SIZE := 8.
Definition ATTR_ATIME := 16.
Definition ATTR_MTIME := 32.
Definition ATTR_CTIME := 64.

Definition DT_FIFO := 1.
Definition DT_CHR := 2.
Definition DT_DIR := 4.
Definition DT_BLK := 6.
Definition DT_REG := 8.
Definition DT_LNK := 10.
Definition DT_SOCK := 12.

Definition S_IFMT := 0xF000.
Definition S_IFSOCK := 0xC000.
Definition S_IFBLK := 0x6000.
Definition S_IFCHR := 0x2000.
Definition S_IFIFO := 0x1000.

Section attributes.
Context {N K : Type} {nd : NandDriver N} `{!Kmalloc K} `{!Clock K} (cfg : Config).
Local Abbreviation St := (FS N K).

(** ** Questions *)

(** The size of a file as an [int]. *)
Definition yaffs_GetObjectFileLength (obj : Z) : M St Z :=
  obj ← yaffs_GetEquivalentObject cfg obj;
  o ← get_obj obj;
  if variantType o =? OBJECT_TYPE_FILE then f ← get_file obj; mret (i32 (fileSize f))
  else if variantType o =? OBJECT_TYPE_SYMLINK then
    s ← of_option (symlink_alias o); mret (Z.of_nat (length s))
  else mret (nDataBytesPerChunk cfg).

Definition yaffs_GetObjectLinkCount (obj : Z) : M St Z :=
  o ← get_obj obj;
  mret ((if unlinked o then 0 else 1) + Z.of_nat (length (hardLinks o))).

Definition yaffs_GetObjectInode (obj : Z) : M St Z :=
  obj ← yaffs_GetEquivalentObject cfg obj;
  o ← get_obj obj;
  mret (objId o).

(** The type of a special file. *)
Definition special_type (mode : Z) : Z :=
  let fmt := Z.land mode S_IFMT in
  if fmt =? S_IFIFO then DT_FIFO else if fmt =? S_IFCHR then DT_CHR
  else if fmt =? S_IFBLK then DT_BLK else if fmt =? S_IFSOCK then DT_SOCK else DT_REG.

Definition yaffs_GetObjectType (obj : Z) : M St Z :=
  obj ← yaffs_GetEquivalentObject cfg obj;
  o ← get_obj obj;
  mret (if variantType o =? OBJECT_TYPE_FILE then DT_REG
        else if variantType o =? OBJECT_TYPE_DIRECTORY then DT_DIR
        else if variantType o =? OBJECT_TYPE_SYMLINK then DT_LNK
        else if variantType o =? OBJECT_TYPE_HARDLINK then DT_REG
        else if variantType o =? OBJECT_TYPE_SPECIAL then special_type (yst_mode o)
        else DT_REG).

(** The copy and its address. *)
Definition yaffs_GetSymlinkAlias (obj : Z) : M St (Z * list Z) :=
  obj ← yaffs_GetEquivalentObject cfg obj;
  o ← get_obj obj;
  if variantType o =? OBJECT_TYPE_SYMLINK then
    match variant o with
    | SymLinkVariant p t => yaffs_CloneString (if ztrue p then Some t else None)
    | _ => fail
    end
  else yaffs_CloneString (Some []).

(** ** Attributes *)

(** What is set in the object. *)
Definition set_attributes (attr : Iattr) (o : Object) : Object :=
  let valid := ia_valid attr in
  let o := if hasbits valid ATTR_MODE then o <| yst_mode := ia_mode attr |> else o in
  let o := if hasbits valid ATTR_UID then o <| yst_uid := ia_uid attr |> else o in
  let o := if hasbits valid ATTR_GID then o <| yst_gid := ia_gid attr |> else o in
  let o := if hasbits valid ATTR_ATIME then o <| yst_atime := u32 (ia_atime attr) |> else o in
  let o := if hasbits valid ATTR_CTIME then o <| yst_ctime := u32 (ia_ctime attr) |> else o in
  if hasbits valid ATTR_MTIME then o <| yst_mtime := u32 (ia_mtime attr) |> else o.

(** [collect] is [yaffs_CheckGarbageCollection], [write] is [yaffs_WriteChunkDataToObject]. *)
Definition yaffs_SetAttributes (collect : M St Z) (write : Writer N K) (obj : Z) (attr : Iattr) : M St Z :=
  _ ← mod_obj obj (set_attributes attr);
  _ ← when (hasbits (ia_valid attr) ATTR_SIZE) (
    _ ← yaffs_ResizeFile cfg collect write obj (ia_size attr);
    mret tt);
  _ ← yaffs_UpdateObjectHeader cfg collect obj None true false 0;
  mret YAFFS_OK.

(** What is in the structure then. *)
Definition yaffs_GetAttributes (obj : Z) : M St Iattr :=
  o ← get_obj obj;
  size ← yaffs_GetFileSize cfg obj;
  mret (MkIattr (ATTR_MODE + ATTR_UID + ATTR_GID + ATTR_ATIME + ATTR_CTIME + ATTR_MTIME + ATTR_SIZE)
    (u16 (yst_mode o)) (yst_uid o) (yst_gid o) size (i32 (yst_atime o)) (i32 (yst_mtime o)) (i32 (yst_ctime o))).
End attributes.

(** ** Attributes that were set *)
Section stored.
Context {N K : Type} {nd : NandDriver N} `{!Kmalloc K} `{!KmallocLaws K} `{!Clock K} (cfg : Config).
Context {nf : NandFrame nd cfg} {nm : NandMedium nd cfg} {nb : NandBlank nd cfg}.
Implicit Types (s : FS N K) (o : Object).

(** Nothing else in the object changes. *)
Lemma set_attributes_same attr o : exists m u g a c t, set_attributes attr o =
  o <| yst_mode := m |> <| yst_uid := u |> <| yst_gid := g |> <| yst_atime := a |> <| yst_ctime := c |> <| yst_mtime := t |>.
Proof.
  exists (if hasbits (ia_valid attr) ATTR_MODE then ia_mode attr else yst_mode o),
    (if hasbits (ia_valid attr) ATTR_UID then ia_uid attr else yst_uid o),
    (if hasbits (ia_valid attr) ATTR_GID then ia_gid attr else yst_gid o),
    (if hasbits (ia_valid attr) ATTR_ATIME then u32 (ia_atime attr) else yst_atime o),
    (if hasbits (ia_valid attr) ATTR_CTIME then u32 (ia_ctime attr) else yst_ctime o),
    (if hasbits (ia_valid attr) ATTR_MTIME then u32 (ia_mtime attr) else yst_mtime o).
  unfold set_attributes. destruct o.
  destruct (hasbits _ ATTR_MODE), (hasbits _ ATTR_UID), (hasbits _ ATTR_GID), (hasbits _ ATTR_ATIME),
    (hasbits _ ATTR_CTIME), (hasbits _ ATTR_MTIME); reflexivity.
Qed.

Lemma set_attributes_view attr o : same_view o (set_attributes attr o).
Proof. destruct (set_attributes_same attr o) as (m & u & g & a & c & t & ->). by split; [|split]. Qed.

(** What a header on flash says of the object. *)
Definition header_says s o : Prop := exists d, holds cfg (dev s) (hdrChunk o) d (objId o) 0 /\
  header_attributes d = u32 <$> attributes o.

Lemma SetAttributes_spec collect ready `{!Collector cfg collect ready} write s U l Fs D a o attr
    (Hdev : device_ok cfg) (Hsize : 512 <= nDataBytesPerChunk cfg) :
  ready (with_obj s a (set_attributes attr o)) -> fs_ok cfg s U l Fs D -> is_object s a o -> dead o = false ->
  header_ready o -> hdrChunk o <> 0 -> 0 <= objId o < 2 ^ 18 -> slots_ok cfg s -> lazyLoaded o = false ->
  hasbits (ia_valid attr) ATTR_SIZE = false ->
  wp (yaffs_SetAttributes cfg collect write a attr) (fun r s' => r = YAFFS_OK /\
    (exists U' l' Fs' D', fs_ok cfg s' U' l' Fs' D') /\ data_kept cfg s s' /\
    exists o', is_object s' a o' /\ same_object (set_attributes attr o) o' /\
      exists r', yaffs_UpdateObjectHeader cfg collect a None true false 0 (with_obj s a (set_attributes attr o)) = Some (r', s') /\
        (r' = -1 \/ header_says s' o')) s.
Proof.
  intros Hrd Hs Ho Hlive Hr Hp0 Hnum Hsl Hlz Hsz. pose proof (set_attributes_view attr o) as Hvw.
  set (o1 := set_attributes attr o) in *. assert (Hx : exists m u g a c t, o1 = o <| yst_mode := m |> <| yst_uid := u |>
    <| yst_gid := g |> <| yst_atime := a |> <| yst_ctime := c |> <| yst_mtime := t |>) by apply set_attributes_same.
  unfold yaffs_SetAttributes. apply wp_bind, (wp_mod_view cfg 0 s U l Fs D a o (set_attributes attr));
    [done|apply Ho|exact Hvw| | |].
  { fold o1. destruct Hx as (m & u & g & a' & c & t & ->). done. }
  { fold o1. intros x. destruct Hx as (m & u & g & a' & c & t & ->). done. }
  fold o1. intros Hs1 Hv1. set (s1 := with_obj s a o1) in *.
  assert (Ho1 : is_object s1 a o1) by (split; [apply Ho|apply lookup_insert_eq]).
  rewrite Hsz. apply wp_bind, wp_ret.
  eapply wp_seq; [apply wp_pc; [apply (UpdateObjectHeader_spec cfg Hdev Hsize collect ready s1 U l Fs D a o1 None true false 0); try done|intros r s2 Hrun; exact Hrun]|].
  { rewrite <- Hlive. apply vd_dead, Hvw. }
  { destruct Hr as [H1 H2]. destruct Hx as (m & u & g & a' & c & t & ->). split; [exact H1|exact H2]. }
  { destruct Hvw as (_ & _ & ->). done. }
  { rewrite (vd_id _ _ (proj1 Hvw)). done. }
  { apply orb_true_r. }
  intros r s2 [(H1 & H2 & _ & (o2 & Ho2 & Hso & Hres) & _) Hrun]. apply wp_ret. split; [done|]. split; [done|].
  split; [by apply (data_kept_trans cfg s s1 s2); [apply view_data_kept|]|].
  exists o2. split; [done|]. split; [done|]. exists r. split; [exact Hrun|].
  destruct Hres as [[-> _]|(Hpos & Hh & d & m & p & Hd & _ & _ & Hds)]; [by left|right].
  exists d. rewrite Hh, (so_id _ _ Hso). split; [done|apply Hds].
Qed.

Lemma i32_u32 z : - 2 ^ 31 <= z < 2 ^ 31 -> i32 (u32 z) = z.
Proof.
  intros Hz. unfold swrap, wrap. change (2 ^ (32 - 1)) with (2 ^ 31). rewrite Zplus_mod_idemp_l.
  rewrite Z.mod_small; [lia|]. change (2 ^ 32) with (2 ^ 31 * 2). lia.
Qed.

(** What a user may set. *)
Record attr_ok (attr : Iattr) : Prop := {
  ao_mode : 0 <= ia_mode attr < 2 ^ 16;
  ao_atime : - 2 ^ 31 <= ia_atime attr < 2 ^ 31;
  ao_mtime : - 2 ^ 31 <= ia_mtime attr < 2 ^ 31;
  ao_ctime : - 2 ^ 31 <= ia_ctime attr < 2 ^ 31
}.

(** C16. Attributes that are set are the ones that are reported.  On an object of a file whose
    details are loaded, [yaffs_SetAttributes] (without a new size) keeps the books and all data
    and reports success; [yaffs_GetAttributes] then reports what was set and, for what was not
    set, what it was before, with the size of the file.  If the update of the header, whose
    result is not looked at, found a page, the header on flash has these attributes. *)
Theorem SetAttributes_GetAttributes collect ready `{!Collector cfg collect ready} write s U l Fs D a o f attr
    (Hdev : device_ok cfg) (Hsize : 512 <= nDataBytesPerChunk cfg)
    (Hrd : ready (with_obj s a (set_attributes attr o))) (Hs : fs_ok cfg s U l Fs D) (Hf : is_file s a o f)
    (Hr : header_ready o) (Hp0 : hdrChunk o <> 0) (Hnum : 0 <= objId o < 2 ^ 18) (Hsl : slots_ok cfg s)
    (Hlz : lazyLoaded o = false) (Hattr : attr_ok attr) (Hsz : hasbits (ia_valid attr) ATTR_SIZE = false) :
  let set_ (bit : Z) (new old : Z) := if hasbits (ia_valid attr) bit then new else old in
  wp (r ← yaffs_SetAttributes cfg collect write a attr; got ← yaffs_GetAttributes cfg a; mret (r, got)) (fun p s' =>
    let '(r, got) := p in
    r = YAFFS_OK /\ (exists U' l' Fs' D', fs_ok cfg s' U' l' Fs' D') /\ data_kept cfg s s' /\
    ia_mode got = set_ ATTR_MODE (ia_mode attr) (u16 (yst_mode o)) /\
    ia_uid got = set_ ATTR_UID (ia_uid attr) (yst_uid o) /\ ia_gid got = set_ ATTR_GID (ia_gid attr) (yst_gid o) /\
    ia_atime got = set_ ATTR_ATIME (ia_atime attr) (i32 (yst_atime o)) /\
    ia_mtime got = set_ ATTR_MTIME (ia_mtime attr) (i32 (yst_mtime o)) /\
    ia_ctime got = set_ ATTR_CTIME (ia_ctime attr) (i32 (yst_ctime o)) /\ ia_size got = fileSize f /\
    exists r' o', is_object s' a o' /\
      yaffs_UpdateObjectHeader cfg collect a None true false 0 (with_obj s a (set_attributes attr o)) = Some (r', s') /\
      (r' = -1 \/ header_says s' o')) s.
Proof.
  intros set_. pose proof (file_typed cfg 0 s U l Fs D a o f Hs (proj1 Hf)) as Hty.
  eapply wp_seq; [apply (SetAttributes_spec collect ready write s U l Fs D a o attr Hdev Hsize Hrd Hs (proj1 (proj1 Hf)) (proj2 Hf) Hr Hp0 Hnum Hsl Hlz Hsz)|].
  intros r s' (-> & (U' & l' & Fs' & D' & Hs') & Hd & o' & Ho' & Hso & r' & Hrun & Hres).
  destruct (Hd a o f Hf) as (o2 & f2 & Hf2 & _ & Hz2 & _). assert (o2 = o') as -> by (eapply is_object_eq; [apply Hf2|exact Ho']).
  pose proof (file_typed cfg 0 s' U' l' Fs' D' a o' f2 Hs' (proj1 Hf2)) as Hty'.
  assert (Ha0 : a <> 0) by (by apply (object_nonzero cfg 0 s' U' l' Fs' D' a o')).
  assert (Hat : attributes o' = attributes (set_attributes attr o)).
  { apply (so_loaded _ _ Hso). destruct (set_attributes_same attr o) as (m & u & g & x & c & t & ->). exact Hlz. }
  unfold yaffs_GetAttributes, yaffs_GetFileSize, yaffs_GetEquivalentObject.
  apply wp_bind, wp_bind, (wp_get_obj a o'); [apply Ho'|]. apply wp_bind, wp_bind.
  assert (Hz : ztrue a = true) by (unfold ztrue; by rewrite (proj2 (Z.eqb_neq a 0))). rewrite Hz. apply wp_bind, (wp_get_obj a o'); [apply Ho'|].
  rewrite Hty'. change (OBJECT_TYPE_FILE =? OBJECT_TYPE_HARDLINK) with false. apply wp_ret.
  apply wp_bind, (wp_get_obj a o'); [apply Ho'|]. rewrite Hty'. rewrite Z.eqb_refl.
  apply wp_bind, (wp_get_file a o' f2); [apply Ho'|apply Hf2|]. apply wp_ret, wp_ret, wp_ret.
  split; [done|]. split; [by exists U', l', Fs', D'|]. split; [done|].
  assert (Hrest : exists r' o', is_object s' a o' /\
      yaffs_UpdateObjectHeader cfg collect a None true false 0 (with_obj s a (set_attributes attr o)) = Some (r', s') /\
      (r' = -1 \/ header_says s' o')) by (by exists r', o').
  destruct Hattr as [Hm Hat1 Hat2 Hat3]. unfold attributes, set_attributes in Hat. subst set_.
  cbn [ia_mode ia_uid ia_gid ia_size ia_atime ia_mtime ia_ctime].
  destruct (hasbits _ ATTR_MODE), (hasbits _ ATTR_UID), (hasbits _ ATTR_GID), (hasbits _ ATTR_ATIME),
    (hasbits _ ATTR_CTIME), (hasbits _ ATTR_MTIME); injection Hat as -> -> -> -> -> -> _;
    repeat split; cbn; rewrite ?i32_u32, ?(wrap_small 16) by done; done.
Qed.
End stored.

(** ** Attributes that are lost *)
Section lost.
Context {N K : Type} {nd : NandDriver N} `{!Kmalloc K} `{!Clock K} (cfg : Config).
Implicit Types (s : FS N K) (o : Object).

(** Loading the details forgets what is set: the two objects differ in nothing else. *)
Lemma load_set_attributes attr oh o :
  load_details oh ((set_attributes attr o) <| lazyLoaded := false |>) = load_details oh (o <| lazyLoaded := false |>).
Proof. destruct (set_attributes_same attr o) as (m & u & g & a & c & t & ->). by destruct o. Qed.

(** Steps of runs. *)
Lemma bind_same {St A B} (m : M St A) (k : A -> M St B) t1 t2 : m t1 = m t2 -> mbind k m t1 = mbind k m t2.
Proof. intros Hm. unfold mbind, M_bind. by rewrite Hm. Qed.

Lemma run_get_obj {B} a o (k : Object -> M (FS N K) B) s :
  objects (obs s) !! a = Some o -> mbind k (get_obj a) s = k o s.
Proof. intros Ho. unfold get_obj, getO, mbind, M_bind, gets. by rewrite Ho. Qed.

Lemma run_mod_obj {B} a o g (k : unit -> M (FS N K) B) s :
  objects (obs s) !! a = Some o -> mbind k (mod_obj a g) s = k tt (with_obj s a (g o)).
Proof. intros Ho. unfold mod_obj, get_obj, getO, mbind, M_bind, gets. by rewrite Ho. Qed.

Lemma run_on_dev {A B} (m : M (State N) A) (k : A -> M (FS N K) B) s :
  mbind k (on_dev m) s = match m (dev s) with Some (x, d) => k x (with_dev s d) | None => None end.
Proof. unfold on_dev, mbind, M_bind. by destruct (m (dev s)) as [[x d]|]. Qed.

Lemma run_of_option {A B} (x : option A) (k : A -> M (FS N K) B) s :
  mbind k (of_option x) s = match x with Some y => k y s | None => None end.
Proof. by destruct x. Qed.

Lemma details_same attr a o s : objects (obs s) !! a = Some o -> lazyLoaded o = true ->
  yaffs_CheckObjectDetailsLoaded cfg a (with_obj s a (set_attributes attr o)) = yaffs_CheckObjectDetailsLoaded cfg a s.
Proof.
  intros Ho Hl. set (o1 := set_attributes attr o). set (s1 := with_obj s a o1).
  assert (Hlook : forall (t : FS N K) x, objects (obs (with_obj t a x)) !! a = Some x) by (intros t x; apply lookup_insert_eq).
  assert (Hx : lazyLoaded o1 = true /\ hdrChunk o1 = hdrChunk o /\ variantType o1 = variantType o).
  { unfold o1. destruct (set_attributes_same attr o) as (m & u & g & x & c & t & ->). done. }
  destruct Hx as (Hl1 & Hh1 & Hv1). unfold yaffs_CheckObjectDetailsLoaded.
  rewrite (run_get_obj a o1 _ s1) by apply Hlook. rewrite (run_get_obj a o _ s) by done.
  rewrite Hl, Hl1, Hh1, Hv1. cbn [when].
  rewrite (run_mod_obj a o1 _ _ s1) by apply Hlook. rewrite (run_mod_obj a o _ _ s) by done.
  rewrite !run_on_dev. change (dev (with_obj s1 a _)) with (dev s). change (dev (with_obj s a _)) with (dev s).
  destruct (yaffs_ReadChunkWithTagsFromNAND cfg (hdrChunk o) _ _ (dev s)) as [[[[r data] t] d]|]; [|done].
  rewrite !run_of_option. destruct data as [data|]; [|done].
  rewrite !run_of_option. destruct (as_header data) as [oh|]; [|done].
  rewrite (run_mod_obj a (o1 <| lazyLoaded := false |>)) by apply Hlook.
  rewrite (run_mod_obj a (o <| lazyLoaded := false |>)) by apply Hlook.
  f_equal. unfold o1. rewrite load_set_attributes. unfold s1, with_obj, with_dev. destruct s as [? ? t0 ?].
  unfold field_update, upd_obs, upd_dev. cbn. f_equal. unfold field_update, upd_objects. cbn. by rewrite !insert_insert_eq.
Qed.

(** C40. Attributes set on an object that is lazily loaded are lost: the header update loads the
    details only after they were set, over them.  While the collection touches nothing but the
    device, [yaffs_SetAttributes] does exactly what an update of the header with the old
    attributes does, and reports success, whatever was to be set. *)
Theorem SetAttributes_lost (gc : M (State N) Z) write s a o attr
    (Ho : objects (obs s) !! a = Some o) (Hl : lazyLoaded o = true)
    (Hsz : hasbits (ia_valid attr) ATTR_SIZE = false) :
  yaffs_SetAttributes cfg (on_dev gc) write a attr s =
    (_ ← yaffs_UpdateObjectHeader cfg (on_dev gc) a None true false 0; mret YAFFS_OK) s.
Proof.
  unfold yaffs_SetAttributes. rewrite (run_mod_obj a o) by done. rewrite Hsz. cbn [when].
  set (o1 := set_attributes attr o). set (s1 := with_obj s a o1).
  assert (Ho1 : objects (obs s1) !! a = Some o1) by apply lookup_insert_eq.
  change (mbind (fun _ => mret YAFFS_OK) (yaffs_UpdateObjectHeader cfg (on_dev gc) a None true false 0) s1 =
    mbind (fun _ => mret YAFFS_OK) (yaffs_UpdateObjectHeader cfg (on_dev gc) a None true false 0) s).
  apply bind_same. unfold yaffs_UpdateObjectHeader.
  rewrite (run_get_obj a o1) by done. rewrite (run_get_obj a o) by done. rewrite !orb_true_r, !run_on_dev.
  change (dev s1) with (dev s). destruct (gc (dev s)) as [[r d]|]; [|done].
  apply bind_same. change (with_dev s1 d) with (with_obj (with_dev s d) a o1).
  by apply details_same.
Qed.
End lost.

(** ** The file of the sample device *)

(** Mode 0644, owner 1000 and a time of modification. *)
Definition sample_attr : Iattr := MkIattr (ATTR_MODE + ATTR_UID + ATTR_MTIME) 420 1000 0 0 0 1300000000 0.

Lemma sample_attr_ok : attr_ok sample_attr.
Proof. split; cbn; lia. Qed.

Lemma SetAttributes_GetAttributes_witness :
  let write : Writer Flash Z := yaffs_WriteChunkDataToObject sample_cfg (mret YAFFS_OK) in
  (fst <$> (r ← yaffs_SetAttributes sample_cfg (mret YAFFS_OK) write the_file sample_attr;
            got ← yaffs_GetAttributes sample_cfg the_file; mret (r, ia_mode got, ia_uid got, ia_mtime got)) cached_fs)
    = Some (YAFFS_OK, 420, 1000, 1300000000) /\
  exists o f, is_file cached_fs the_file o f /\
  let set_ (bit : Z) (new old : Z) := if hasbits (ia_valid sample_attr) bit then new else old in
  wp (r ← yaffs_SetAttributes sample_cfg (mret YAFFS_OK) write the_file sample_attr;
      got ← yaffs_GetAttributes sample_cfg the_file; mret (r, got)) (fun p s' =>
    let '(r, got) := p in
    r = YAFFS_OK /\ (exists U' l' Fs' D', fs_ok sample_cfg s' U' l' Fs' D') /\ data_kept sample_cfg cached_fs s' /\
    ia_mode got = set_ ATTR_MODE (ia_mode sample_attr) (u16 (yst_mode o)) /\
    ia_uid got = set_ ATTR_UID (ia_uid sample_attr) (yst_uid o) /\ ia_gid got = set_ ATTR_GID (ia_gid sample_attr) (yst_gid o) /\
    ia_atime got = set_ ATTR_ATIME (ia_atime sample_attr) (i32 (yst_atime o)) /\
    ia_mtime got = set_ ATTR_MTIME (ia_mtime sample_attr) (i32 (yst_mtime o)) /\
    ia_ctime got = set_ ATTR_CTIME (ia_ctime sample_attr) (i32 (yst_ctime o)) /\ ia_size got = fileSize f /\
    exists r' o', is_object s' the_file o' /\
      yaffs_UpdateObjectHeader sample_cfg (mret YAFFS_OK) the_file None true false 0
        (with_obj cached_fs the_file (set_attributes sample_attr o)) = Some (r', s') /\
      (r' = -1 \/ header_says sample_cfg s' o')) cached_fs.
Proof.
  split; [vm_compute; reflexivity|].
  destruct cached_file as (U & l & Fs & o & f & Hs & Hf & Hid & Hh & Hsl & _).
  pose proof (file_typed sample_cfg 0 cached_fs U l Fs ∅ the_file o f Hs (proj1 Hf)) as Hty.
  exists o, f. split; [exact Hf|].
  apply (SetAttributes_GetAttributes sample_cfg (mret YAFFS_OK) (fun _ => True) _ cached_fs U l Fs ∅ the_file o f sample_attr
    sample_device (Z.le_refl 512) I Hs Hf).
  - split; rewrite Hty; intros H; discriminate H.
  - rewrite Hh. discriminate.
  - rewrite Hid. lia.
  - exact Hsl.
  - exact (cached_lazy o f Hf).
  - exact sample_attr_ok.
  - reflexivity.
Defined.

(** The file has a header, and its details are not loaded, as after a mount. *)
Definition headed_fs : FS Flash Z :=
  run_state (yaffs_UpdateObjectHeader sample_cfg (mret YAFFS_OK) the_file (Some sample_name) true false 0) cached_fs.
Definition lazy_fs : FS Flash Z := run_state (mod_obj the_file (fun o => o <| lazyLoaded := true |>)) headed_fs.

Lemma SetAttributes_lost_witness :
  let write : Writer Flash Z := yaffs_WriteChunkDataToObject sample_cfg (mret YAFFS_OK) in
  (fun p => (fst p, (fun o => (yst_mode o, yst_uid o)) <$> objects (obs (snd p)) !! the_file)) <$>
    yaffs_SetAttributes sample_cfg (on_dev (mret YAFFS_OK)) write the_file sample_attr lazy_fs = Some (YAFFS_OK, Some (0, 0)) /\
  yaffs_SetAttributes sample_cfg (on_dev (mret YAFFS_OK)) write the_file sample_attr lazy_fs =
    (_ ← yaffs_UpdateObjectHeader sample_cfg (on_dev (mret YAFFS_OK)) the_file None true false 0; mret YAFFS_OK) lazy_fs.
Proof.
  split; [vm_compute; reflexivity|].
  assert (H : exists o, objects (obs lazy_fs) !! the_file = Some o /\ lazyLoaded o = true).
  { assert (Hx : lazyLoaded <$> objects (obs lazy_fs) !! the_file = Some true) by (vm_compute; reflexivity).
    destruct (objects (obs lazy_fs) !! the_file) as [o|]; [|discriminate Hx]. exists o. split; [reflexivity|]. by injection Hx. }
  destruct H as (o & Ho & Hl).
  exact (SetAttributes_lost sample_cfg (mret YAFFS_OK) _ lazy_fs the_file o sample_attr Ho Hl eq_refl).
Defined.
