(* ===== verification/Checkpoint.v ===== *)
(** * The contents of a checkpoint ([yaffs_guts.c])
    What is written to the checkpoint stream at unmount and read at the next mount: markers, the
    device's counters and block tables, all objects, the level-0 tnodes of files and a sum.
    The structures are dumped as they lie in memory of this 32-bit little-endian machine. *)
From S2P Require Import Prelude Monad Tags Device Nand Sim BlockInv Checkptrw Blocks Tnode Tree Objects.

(** ** Structures as bytes *)

(** An array of 32-bit fields, and one of them. *)
Definition ints_bytes (l : list Z) : list Z := concat (le_bytes 4 <$> l).
Definition int_at (l : list Z) (i : nat) : Z := le_value (take 4 (drop (4 * i) l)).

Definition YAFFS_MAGIC : Z := 0x5941FF53.
Definition YAFFS_CHECKPOINT_VERSION : Z := 3.

(** [yaffs_CheckpointValidity] *)
Record CheckpointValidity := MkCheckpointValidity { cv_structType : Z; cv_magic : Z; cv_version : Z; cv_head : Z }.
Definition sizeof_CheckpointValidity : Z := 16.
Definition validity_bytes (cp : CheckpointValidity) : list Z :=
  ints_bytes [cv_structType cp; cv_magic cp; cv_version cp; cv_head cp].
Definition validity_of (l : list Z) : CheckpointValidity :=
  MkCheckpointValidity (i32 (int_at l 0)) (int_at l 1) (int_at l 2) (int_at l 3).

(** [yaffs_CheckpointDevice] *)
Record CheckpointDevice := MkCheckpointDevice {
  cd_structType : Z;
  cd_nErasedBlocks : Z;
  cd_allocationBlock : Z;
  cd_allocationPage : Z;
  cd_nFreeChunks : Z;
  cd_nDeletedFiles : Z;
  cd_nUnlinkedFiles : Z;
  cd_nBackgroundDeletions : Z;
  cd_sequenceNumber : Z;
  cd_oldestDirtySequence : Z
}.
Definition sizeof_CheckpointDevice : Z := 40.
Definition device_bytes (cp : CheckpointDevice) : list Z :=
  ints_bytes [cd_structType cp; cd_nErasedBlocks cp; cd_allocationBlock cp; cd_allocationPage cp;
    cd_nFreeChunks cp; cd_nDeletedFiles cp; cd_nUnlinkedFiles cp; cd_nBackgroundDeletions cp;
    cd_sequenceNumber cp; cd_oldestDirtySequence cp].
Definition device_of (l : list Z) : CheckpointDevice :=
  MkCheckpointDevice (i32 (int_at l 0)) (i32 (int_at l 1)) (i32 (int_at l 2)) (int_at l 3)
    (i32 (int_at l 4)) (i32 (int_at l 5)) (i32 (int_at l 6)) (i32 (int_at l 7)) (int_at l 8) (int_at l 9).

(** The numbers of the block states. *)
Definition state_number (s : BlockState) : Z :=
  match s with
  | BLOCK_STATE_UNKNOWN => 0 | BLOCK_STATE_SCANNING => 1 | BLOCK_STATE_NEEDS_SCANNING => 2
  | BLOCK_STATE_EMPTY => 3 | BLOCK_STATE_ALLOCATING => 4 | BLOCK_STATE_FULL => 5
  | BLOCK_STATE_DIRTY => 6 | BLOCK_STATE_CHECKPOINT => 7 | BLOCK_STATE_COLLECTING => 8
  | BLOCK_STATE_DEAD => 9
  end.
Definition state_of (n : Z) : option BlockState :=
  lookupZ n [BLOCK_STATE_UNKNOWN; BLOCK_STATE_SCANNING; BLOCK_STATE_NEEDS_SCANNING;
    BLOCK_STATE_EMPTY; BLOCK_STATE_ALLOCATING; BLOCK_STATE_FULL; BLOCK_STATE_DIRTY;
    BLOCK_STATE_CHECKPOINT; BLOCK_STATE_COLLECTING; BLOCK_STATE_DEAD].

(** Bit-fields [(width, value)], the first in the lowest bits, and their values. *)
Fixpoint pack (fields : list (Z * Z)) : Z :=
  match fields with
  | [] => 0
  | (w, x) :: fields => Z.lor (wrap w x) (Z.shiftl (pack fields) w)
  end.
Definition bits_at (w lo x : Z) : Z := Z.land (Z.shiftr x lo) (Z.ones w).

(** [yaffs_BlockInfo]: 31 bits of bit-fields and the sequence number; the last bit is cleared
    with the table. *)
Definition sizeof_BlockInfo : Z := 8.
Definition info_word (bi : BlockInfo) : Z :=
  pack [(10, softDeletions bi); (10, pagesInUse bi); (4, state_number (blockState bi));
    (1, flag (needsRetiring bi)); (1, flag (skipErasedCheck bi)); (1, flag (gcPrioritise bi));
    (3, chunkErrorStrikes bi); (1, flag (hasShrinkHeader bi))].
Definition info_bytes (bi : BlockInfo) : list Z := ints_bytes [info_word bi; bi_sequenceNumber bi].
(** A number that is no state is in no table that was dumped: the model stops there. *)
Definition info_of (w seq : Z) : option BlockInfo :=
  st ← state_of (bits_at 4 20 w);
  Some (MkBlockInfo (swrap 10 (bits_at 10 0 w)) (swrap 10 (bits_at 10 10 w)) st
    (Z.testbit w 24) (Z.testbit w 25) (Z.testbit w 26) (bits_at 3 27 w) (Z.testbit w 30) seq).
Definition infos_bytes (l : list BlockInfo) : list Z := concat (info_bytes <$> l).
Fixpoint infos_of (n : nat) (l : list Z) : option (list BlockInfo) :=
  match n with
  | O => Some []
  | S n =>
      bi ← info_of (int_at l 0) (int_at l 1);
      rest ← infos_of n (drop 8 l);
      Some (bi :: rest)
  end.

(** [yaffs_CheckpointObject]; [co_bits] and [co_fill] are the unused bits and the unused byte,
    which are dumped with the rest. *)
Record CheckpointObject := MkCheckpointObject {
  co_structType : Z;
  co_objectId : Z;
  co_parentId : Z;
  co_chunkId : Z;
  co_variantType : Z;
  co_deleted : bool;
  co_softDeleted : bool;
  co_unlinked : bool;
  co_fake : bool;
  co_renameAllowed : bool;
  co_unlinkAllowed : bool;
  co_bits : Z;
  co_serial : Z;
  co_fill : Z;
  co_nDataChunks : Z;
  co_fileSizeOrEquivalentObjectId : Z
}.
#[export] Instance eta_CheckpointObject : EtaExpand CheckpointObject := fun r =>
  MkCheckpointObject (co_structType r) (co_objectId r) (co_parentId r) (co_chunkId r) (co_variantType r)
    (co_deleted r) (co_softDeleted r) (co_unlinked r) (co_fake r) (co_renameAllowed r) (co_unlinkAllowed r)
    (co_bits r) (co_serial r) (co_fill r) (co_nDataChunks r) (co_fileSizeOrEquivalentObjectId r).
#[export] Instance upd_co_structType : FieldUpdate co_structType := ltac:(build_field_update).
#[export] Instance upd_co_fileSize : FieldUpdate co_fileSizeOrEquivalentObjectId := ltac:(build_field_update).
Definition sizeof_CheckpointObject : Z := 28.
Definition object_bytes (cp : CheckpointObject) : list Z :=
  ints_bytes [co_structType cp; co_objectId cp; co_parentId cp; co_chunkId cp;
    pack [(3, co_variantType cp); (1, flag (co_deleted cp)); (1, flag (co_softDeleted cp));
      (1, flag (co_unlinked cp)); (1, flag (co_fake cp)); (1, flag (co_renameAllowed cp));
      (1, flag (co_unlinkAllowed cp)); (7, co_bits cp); (8, co_serial cp); (8, co_fill cp)];
    co_nDataChunks cp; co_fileSizeOrEquivalentObjectId cp].
Definition object_of (l : list Z) : CheckpointObject :=
  let w := int_at l 4 in
  MkCheckpointObject (i32 (int_at l 0)) (int_at l 1) (int_at l 2) (i32 (int_at l 3)) (bits_at 3 0 w)
    (Z.testbit w 3) (Z.testbit w 4) (Z.testbit w 5) (Z.testbit w 6) (Z.testbit w 7) (Z.testbit w 8)
    (bits_at 7 9 w) (bits_at 8 16 w) (bits_at 8 24 w) (i32 (int_at l 5)) (int_at l 6).

(** ** On the stream *)
Section stream.
Context {N : Type} {nd : NandDriver N} (cfg : Config).
Local Abbreviation St := (State N).

(** [yaffs_CheckpointWrite] of memory that the writing of a page may change: a byte is read when
    its turn comes. *)
Fixpoint checkpoint_dump_loop (mem : St -> list Z) (n : nat) (i : Z) : M St Z :=
  match n with
  | O => mret i
  | S n =>
      bytes ← gets mem;
      byte ← of_option (lookupZ i bytes);
      ok ← checkpoint_put cfg byte;
      if ztrue ok then checkpoint_dump_loop mem n (i + 1) else mret (i + 1)
  end.
Definition checkpoint_dump (mem : St -> list Z) (n : nat) : M St Z :=
  buf ← getC checkpointBuffer;
  w ← getC checkpointOpenForWrite;
  match buf with
  | None => mret 0
  | Some _ => if negb w then mret (-1) else checkpoint_dump_loop mem n 0
  end.

Definition yaffs_WriteCheckpointValidityMarker (head : bool) : M St Z :=
  let cp := MkCheckpointValidity sizeof_CheckpointValidity YAFFS_MAGIC YAFFS_CHECKPOINT_VERSION (flag head) in
  n ← yaffs_CheckpointWrite cfg (validity_bytes cp);
  mret (flag (n =? sizeof_CheckpointValidity)).

Definition yaffs_ReadCheckpointValidityMarker (head : bool) : M St Z :=
  '(n, l) ← yaffs_CheckpointRead cfg (Z.to_nat sizeof_CheckpointValidity);
  if n =? sizeof_CheckpointValidity then
    let cp := validity_of l in
    mret (flag ((cv_structType cp =? sizeof_CheckpointValidity) && (cv_magic cp =? YAFFS_MAGIC) &&
      (cv_version cp =? YAFFS_CHECKPOINT_VERSION) && (cv_head cp =? flag head)))
  else mret 0.

(** The tables, written and read. *)
Definition dump_blockInfo : M St Z :=
  let nBytes := nBlocks cfg * sizeof_BlockInfo in
  n ← checkpoint_dump (fun s => infos_bytes (blockInfo (blks s))) (Z.to_nat nBytes);
  mret (flag (n =? nBytes)).
Definition dump_chunkBits : M St Z :=
  let nBytes := nBlocks cfg * chunkBitmapStride cfg in
  n ← checkpoint_dump (fun s => chunkBits (blks s)) (Z.to_nat nBytes);
  mret (flag (n =? nBytes)).
Definition load_blockInfo : M St Z :=
  let nBytes := nBlocks cfg * sizeof_BlockInfo in
  '(n, l) ← yaffs_CheckpointRead cfg (Z.to_nat nBytes);
  old ← getB blockInfo;
  infos ← of_option (infos_of (Z.to_nat (nBlocks cfg)) (l ++ drop (length l) (infos_bytes old)));
  _ ← modB (fun b => b <| blockInfo := infos |>);
  mret (flag (n =? nBytes)).
Definition load_chunkBits : M St Z :=
  let nBytes := nBlocks cfg * chunkBitmapStride cfg in
  '(n, l) ← yaffs_CheckpointRead cfg (Z.to_nat nBytes);
  _ ← modB (fun b => b <| chunkBits ::= fun old => l ++ drop (length l) old |>);
  mret (flag (n =? nBytes)).

Definition yaffs_WriteCheckpointSum : M St Z :=
  checkpointSum ← yaffs_GetCheckpointSum;
  n ← yaffs_CheckpointWrite cfg (le_bytes 4 checkpointSum);
  mret (flag (n =? 4)).

Definition yaffs_ReadCheckpointSum : M St Z :=
  checkpointSum0 ← yaffs_GetCheckpointSum;
  '(n, l) ← yaffs_CheckpointRead cfg 4;
  if negb (n =? 4) then mret 0
  else if negb (checkpointSum0 =? le_value l) then mret 0 else mret 1.
End stream.

(** ** The parts of a checkpoint *)
Section checkpoint.
Context {N K : Type} {nd : NandDriver N} `{!Kmalloc K} `{!Clock K} (cfg : Config).
Local Abbreviation St := (FS N K).

(** [a ? b : 0] of two steps of which the second is only done after the first. *)
Definition and_then (ok : Z) (m : M St Z) : M St Z := if ztrue ok then m else mret ok.

Definition yaffs_DeviceToCheckpointDevice (structType : Z) (b : Blocks) (o : Objects) : CheckpointDevice :=
  MkCheckpointDevice structType (nErasedBlocks b) (allocationBlock b) (allocationPage b) (nFreeChunks b)
    (nDeletedFiles o) (nUnlinkedFiles o) (nBackgroundDeletions o) (dev_sequenceNumber b) (oldestDirtySequence b).

Definition yaffs_CheckpointDeviceToDevice (cp : CheckpointDevice) : M St unit :=
  _ ← on_dev (modB (fun b => b <| nErasedBlocks := cd_nErasedBlocks cp |>
      <| allocationBlock := cd_allocationBlock cp |> <| allocationPage := cd_allocationPage cp |>
      <| nFreeChunks := cd_nFreeChunks cp |> <| dev_sequenceNumber := cd_sequenceNumber cp |>
      <| oldestDirtySequence := cd_oldestDirtySequence cp |>));
  modO (fun o => o <| nDeletedFiles := cd_nDeletedFiles cp |> <| nUnlinkedFiles := cd_nUnlinkedFiles cp |>
    <| nBackgroundDeletions := cd_nBackgroundDeletions cp |>).

Definition yaffs_WriteCheckpointDevice : M St Z :=
  cp ← gets (fun s => yaffs_DeviceToCheckpointDevice sizeof_CheckpointDevice (blks (dev s)) (obs s));
  n ← on_dev (yaffs_CheckpointWrite cfg (device_bytes cp));
  let ok := flag (n =? sizeof_CheckpointDevice) in
  ok ← and_then ok (on_dev (dump_blockInfo cfg));
  and_then ok (on_dev (dump_chunkBits cfg)).

Definition yaffs_ReadCheckpointDevice : M St Z :=
  '(n, l) ← on_dev (yaffs_CheckpointRead cfg (Z.to_nat sizeof_CheckpointDevice));
  if negb (n =? sizeof_CheckpointDevice) then mret 0 else
  let cp := device_of l in
  if negb (cd_structType cp =? sizeof_CheckpointDevice) then mret 0 else
  _ ← yaffs_CheckpointDeviceToDevice cp;
  ok ← on_dev (load_blockInfo cfg);
  if negb (ztrue ok) then mret 0 else
  on_dev (load_chunkBits cfg).

(** Fields that are not set keep what the structure has. *)
Definition yaffs_ObjectToCheckpointObject (cp : CheckpointObject) (obj : Z) : M St CheckpointObject :=
  o ← get_obj obj;
  parentId ← (if ztrue (parent o) then p ← get_obj (parent o); mret (objId p) else mret 0);
  equivalent ← (if variantType o =? OBJECT_TYPE_FILE then f ← get_file obj; mret (fileSize f)
    else if variantType o =? OBJECT_TYPE_HARDLINK then
      match variant o with HardLinkVariant _ id => mret id | _ => fail end
    else mret (co_fileSizeOrEquivalentObjectId cp));
  mret (MkCheckpointObject (co_structType cp) (objId o) parentId (hdrChunk o) (variantType o)
    (deleted o) (softDeleted o) (unlinked o) (fake o) (renameAllowed o) (unlinkAllowed o) (co_bits cp)
    (serial o) (co_fill cp) (nDataChunks o) equivalent).

(** The other member of a hard link's variant stays. *)
Definition set_equivalentObjectId (obj id : Z) : M St unit :=
  mod_obj obj (fun o => o <| variant := HardLinkVariant
    (match variant o with HardLinkVariant e _ => e | _ => 0 end) id |>).

Definition yaffs_CheckpointObjectToObject (obj : Z) (cp : CheckpointObject) : M St unit :=
  _ ← mod_obj obj (fun o => o <| objId := co_objectId cp |>);
  parent ← (if ztrue (co_parentId cp) then
      yaffs_FindOrCreateObjectByNumber cfg (i32 (co_parentId cp)) OBJECT_TYPE_DIRECTORY
    else mret 0);
  _ ← when (ztrue parent) (yaffs_AddObjectToDirectory parent obj);
  _ ← mod_obj obj (fun o => o <| hdrChunk := co_chunkId cp |> <| variantType := co_variantType cp |>
    <| deleted := co_deleted cp |> <| softDeleted := co_softDeleted cp |> <| unlinked := co_unlinked cp |>
    <| fake := co_fake cp |> <| renameAllowed := co_renameAllowed cp |>
    <| unlinkAllowed := co_unlinkAllowed cp |> <| serial := co_serial cp |>
    <| nDataChunks := co_nDataChunks cp |>);
  _ ← (if co_variantType cp =? OBJECT_TYPE_FILE then
         f ← get_file obj;
         set_file obj (f <| fileSize := co_fileSizeOrEquivalentObjectId cp |>)
       else when (co_variantType cp =? OBJECT_TYPE_HARDLINK)
         (set_equivalentObjectId obj (co_fileSizeOrEquivalentObjectId cp)));
  when (YAFFS_NOBJECT_BUCKETS <=? co_objectId cp) (mod_obj obj (fun o => o <| lazyLoaded := true |>)).

(** ** Tnodes *)

(** [level] is the number of levels below. *)
Fixpoint yaffs_CheckpointTnodeWorker (level : nat) (tn chunkOffset : Z) : M St Z :=
  if ztrue tn then
    match level with
    | S l =>
        for_acc (seqZ 0 YAFFS_NTNODES_INTERNAL) (fun i ok =>
          if ztrue ok then
            p ← on_tns (get_word tn i);
            if ztrue p then
              yaffs_CheckpointTnodeWorker l p (i32 (Z.shiftl chunkOffset YAFFS_TNODES_INTERNAL_BITS + i))
            else mret ok
          else mret ok) 1
    | O =>
        let baseOffset := u32 (Z.shiftl chunkOffset YAFFS_TNODES_LEVEL0_BITS) in
        n ← on_dev (yaffs_CheckpointWrite cfg (le_bytes 4 baseOffset));
        if n =? 4 then
          mem ← gets (fun s => tnodes (tns s));
          ws ← of_option (mem !! tn);
          n ← on_dev (yaffs_CheckpointWrite cfg (take (Z.to_nat (tnodeSize cfg)) (ints_bytes ws)));
          mret (flag (n =? tnodeSize cfg))
        else mret 0
    end
  else mret 1.

Definition endMarker : Z := 0xFFFFFFFF.

Definition yaffs_WriteCheckpointTnodes (obj : Z) : M St Z :=
  o ← get_obj obj;
  if variantType o =? OBJECT_TYPE_FILE then
    f ← get_file obj;
    ok ← yaffs_CheckpointTnodeWorker (Z.to_nat (topLevel f)) (top f) 0;
    if ztrue ok then
      n ← on_dev (yaffs_CheckpointWrite cfg (le_bytes 4 endMarker));
      mret (flag (n =? 4))
    else mret 0
  else mret 1.

(** [baseChunk], and whether it was read. *)
Definition read_baseChunk : M St (Z * Z) :=
  '(n, l) ← on_dev (yaffs_CheckpointRead cfg 4);
  mret (flag (n =? 4), le_value l).

(** A tnode is read over what it contains. *)
Definition load_tnode (tn : Z) : M St Z :=
  '(n, l) ← on_dev (yaffs_CheckpointRead cfg (Z.to_nat (tnodeSize cfg)));
  mem ← gets (fun s => tnodes (tns s));
  ws ← of_option (mem !! tn);
  let bytes := l ++ drop (length l) (ints_bytes ws) in
  _ ← on_tns (modify (fun s => s <| tnodes := <[tn := int_at bytes <$> seq 0 (length ws)]> mem |>));
  mret (flag (n =? tnodeSize cfg)).

Definition read_tnode (obj baseChunk : Z) : M St Z :=
  tn ← on_tns (yaffs_GetTnodeRaw cfg);
  if ztrue tn then
    ok ← load_tnode tn;
    if ztrue ok then
      f ← get_file obj;
      '(r, f) ← on_tns (yaffs_AddOrFindLevel0Tnode cfg f baseChunk tn);
      _ ← set_file obj f;
      mret (flag (ztrue r))
    else mret 0
  else mret 0.

(** Every round reads from the stream, which ends with the blocks that a reader accepts. *)
Definition read_fuel : nat :=
  S (Z.to_nat ((Z.quot (internalEndBlock cfg - internalStartBlock cfg) 16 + 2) * nChunksPerBlock cfg * nDataBytesPerChunk cfg)).

Fixpoint read_tnodes_loop (fuel : nat) (obj ok baseChunk : Z) : M St Z :=
  match fuel with
  | O => fail
  | S fuel =>
      if ztrue ok && negb (baseChunk =? endMarker) then
        ok ← read_tnode obj baseChunk;
        if ztrue ok then
          '(ok, baseChunk) ← read_baseChunk;
          read_tnodes_loop fuel obj ok baseChunk
        else mret 0
      else mret ok
  end.

Definition yaffs_ReadCheckpointTnodes (obj : Z) : M St Z :=
  '(ok, baseChunk) ← read_baseChunk;
  read_tnodes_loop read_fuel obj ok baseChunk.

(** ** Objects *)

(** One object: the new [ok], and the structure with what was set in it. *)
Definition write_object (obj : Z) (acc : Z * CheckpointObject) : M St (Z * CheckpointObject) :=
  let '(ok, cp) := acc in
  o ← get_obj obj;
  if deferedFree o then mret (ok, cp) else
  cp ← yaffs_ObjectToCheckpointObject cp obj;
  let cp := cp <| co_structType := sizeof_CheckpointObject |> in
  n ← on_dev (yaffs_CheckpointWrite cfg (object_bytes cp));
  let ok := flag (n =? sizeof_CheckpointObject) in
  ok ← (if variantType o =? OBJECT_TYPE_FILE then and_then ok (yaffs_WriteCheckpointTnodes obj) else mret ok);
  mret (ok, cp).

Definition write_bucket (i : Z) (acc : Z * CheckpointObject) : M St (Z * CheckpointObject) :=
  if ztrue (fst acc) then
    b ← get_bucket i;
    for_acc (bucket_list b) write_object acc
  else mret acc.

(** What stands for the end of the list. *)
Definition end_object_bytes : list Z := le_bytes 4 sizeof_CheckpointObject ++ replicate 24 255.

(** [cp] is the uninitialised structure. *)
Definition yaffs_WriteCheckpointObjects (cp : CheckpointObject) : M St Z :=
  acc ← for_acc (seqZ 0 YAFFS_NOBJECT_BUCKETS) write_bucket (1, cp);
  and_then (fst acc) (
    n ← on_dev (yaffs_CheckpointWrite cfg end_object_bytes);
    mret (flag (n =? sizeof_CheckpointObject))).

(** One hard link of [yaffs_HardlinkFixup]. *)
Definition fix_hardlink (hl : Z) : M St unit :=
  h ← get_obj hl;
  match variant h with
  | HardLinkVariant _ id =>
      in_ ← yaffs_FindObjectByNumber id;
      if ztrue in_ then
        _ ← mod_obj hl (fun o => o <| variant := HardLinkVariant in_ id |>);
        mod_obj in_ (fun o => o <| hardLinks ::= cons hl |>)
      else
        _ ← mod_obj hl (fun o => o <| variant := HardLinkVariant 0 id |>);
        mod_obj hl (fun o => o <| hardLinks := [] |>)
  | _ => fail
  end.
(** The list through [hardLinks.next] is a list of addresses. *)
Definition yaffs_HardlinkFixup (hardList : list Z) : M St unit := for_each hardList fix_hardlink.

Fixpoint read_objects_loop (fuel : nat) (hardList : list Z) : M St (Z * list Z) :=
  match fuel with
  | O => fail
  | S fuel =>
      '(n, l) ← on_dev (yaffs_CheckpointRead cfg (Z.to_nat sizeof_CheckpointObject));
      if negb (n =? sizeof_CheckpointObject) then mret (0, hardList) else
      let cp := object_of l in
      if negb (co_structType cp =? sizeof_CheckpointObject) then mret (0, hardList) else
      if co_objectId cp =? 0xFFFFFFFF then mret (1, hardList) else
      obj ← yaffs_FindOrCreateObjectByNumber cfg (i32 (co_objectId cp)) (co_variantType cp);
      if ztrue obj then
        _ ← yaffs_CheckpointObjectToObject obj cp;
        o ← get_obj obj;
        if variantType o =? OBJECT_TYPE_FILE then
          ok ← yaffs_ReadCheckpointTnodes obj;
          if ztrue ok then read_objects_loop fuel hardList else mret (0, hardList)
        else if variantType o =? OBJECT_TYPE_HARDLINK then read_objects_loop fuel (obj :: hardList)
        else read_objects_loop fuel hardList
      else read_objects_loop fuel hardList
  end.

Definition yaffs_ReadCheckpointObjects : M St Z :=
  '(ok, hardList) ← read_objects_loop (read_fuel) [];
  _ ← when (ztrue ok) (yaffs_HardlinkFixup hardList);
  mret ok.

(** ** All of it *)

Definition set_checkpointed (ok : Z) : M St Z :=
  _ ← on_dev (modC (fun c => c <| isCheckpointed := ztrue ok |>));
  mret (flag (ztrue ok)).

(** [buf] and [lst] are what the allocations in [yaffs_CheckpointOpen] give, [cp] is the
    uninitialised structure of [yaffs_WriteCheckpointObjects]. *)
Definition yaffs_WriteCheckpointData (buf : option (list Z)) (cp : CheckpointObject) : M St Z :=
  let ok := flag (negb (skipCheckpointWrite cfg || negb (isYaffs2 cfg))) in
  ok ← and_then ok (on_dev (yaffs_CheckpointOpen cfg true buf None));
  ok ← and_then ok (on_dev (yaffs_WriteCheckpointValidityMarker cfg true));
  ok ← and_then ok yaffs_WriteCheckpointDevice;
  ok ← and_then ok (yaffs_WriteCheckpointObjects cp);
  ok ← and_then ok (on_dev (yaffs_WriteCheckpointValidityMarker cfg false));
  ok ← and_then ok (on_dev (yaffs_WriteCheckpointSum cfg));
  closed ← on_dev (yaffs_CheckpointClose cfg);
  set_checkpointed (if ztrue closed then ok else 0).

Definition yaffs_ReadCheckpointData (buf lst : option (list Z)) : M St Z :=
  let ok := flag (negb (skipCheckpointRead cfg || negb (isYaffs2 cfg))) in
  ok ← and_then ok (on_dev (yaffs_CheckpointOpen cfg false buf lst));
  ok ← and_then ok (on_dev (yaffs_ReadCheckpointValidityMarker cfg true));
  ok ← and_then ok yaffs_ReadCheckpointDevice;
  ok ← and_then ok yaffs_ReadCheckpointObjects;
  ok ← and_then ok (on_dev (yaffs_ReadCheckpointValidityMarker cfg false));
  ok ← and_then ok (on_dev (yaffs_ReadCheckpointSum cfg));
  closed ← on_dev (yaffs_CheckpointClose cfg);
  set_checkpointed (if ztrue closed then ok else 0).

(** The verification functions do nothing by default. *)
Definition yaffs_CheckpointSave (buf : option (list Z)) (cp : CheckpointObject) : M St Z :=
  c ← on_dev (getC isCheckpointed);
  _ ← (if negb c then
         _ ← on_dev (yaffs_InvalidateCheckpoint cfg);
         _ ← yaffs_WriteCheckpointData buf cp;
         mret tt
       else mret tt);
  c ← on_dev (getC isCheckpointed);
  mret (flag c).

Definition yaffs_CheckpointRestore (buf lst : option (list Z)) : M St Z := yaffs_ReadCheckpointData buf lst.
End checkpoint.
