(* ===== verification/Restore.v ===== *)
(** * What a checkpoint restores ([yaffs_guts.c])
    The device's tables and counters are the same after a checkpoint was written and read. *)
From S2P Require Import Prelude Monad Tags Device Nand Sim BlockInv Checkptrw Blocks Tnode Tree Objects Checkpoint Stream.

(** ** Bit-fields and arrays *)

Lemma lor_add w a b : 0 <= w -> 0 <= a < 2 ^ w -> Z.lor a (Z.shiftl b w) = a + 2 ^ w * b.
Proof.
  intros Hw Ha. set (x := Z.lor a (Z.shiftl b w)).
  pose proof (field_low w a b Hw Ha) as Hl. pose proof (field_high w a b Hw Ha) as Hh. fold x in Hl, Hh.
  rewrite Z.land_ones in Hl by done. rewrite Z.shiftr_div_pow2 in Hh by done.
  pose proof (Z.div_mod x (2 ^ w) ltac:(apply Z.pow_nonzero; lia)). lia.
Qed.

Lemma pack_cons w x l : 0 <= w -> pack ((w, x) :: l) = wrap w x + 2 ^ w * pack l.
Proof. intros Hw. cbn [pack]. apply lor_add; [done|by apply wrap_range]. Qed.

Lemma pack_shiftr w x l : 0 <= w -> Z.shiftr (pack ((w, x) :: l)) w = pack l.
Proof. intros Hw. cbn [pack]. apply field_high; [done|by apply wrap_range]. Qed.

Lemma bits_first w x l : 0 <= w -> bits_at w 0 (pack ((w, x) :: l)) = wrap w x.
Proof. intros Hw. unfold bits_at. rewrite Z.shiftr_0_r. cbn [pack]. apply field_low; [done|by apply wrap_range]. Qed.

Lemma bits_later v w x l lo : 0 <= w -> 0 <= lo -> bits_at v (w + lo) (pack ((w, x) :: l)) = bits_at v lo (pack l).
Proof. intros Hw Hlo. unfold bits_at. by rewrite <- Z.shiftr_shiftr, pack_shiftr by done. Qed.

Lemma bit_first b l : Z.testbit (pack ((1, flag b) :: l)) 0 = b.
Proof.
  pose proof (bits_first 1 (flag b) l ltac:(lia)) as H. unfold bits_at in H. rewrite Z.shiftr_0_r in H.
  apply (f_equal (fun x => Z.testbit x 0)) in H. rewrite Z.land_spec, andb_true_r in H. rewrite H. by destruct b.
Qed.

Lemma bit_later w x l i : 0 <= w -> 0 <= i -> Z.testbit (pack ((w, x) :: l)) (w + i) = Z.testbit (pack l) i.
Proof. intros Hw Hi. rewrite <- (pack_shiftr w x l) by done. rewrite Z.shiftr_spec by done. f_equal. lia. Qed.

Lemma swrap_wrap w x : 1 <= w -> - 2 ^ (w - 1) <= x < 2 ^ (w - 1) -> swrap w (wrap w x) = x.
Proof.
  intros Hw Hx. assert (H2 : 2 ^ w = 2 * 2 ^ (w - 1)) by (rewrite <- Z.pow_succ_r by lia; f_equal; lia).
  unfold swrap, wrap. rewrite Zplus_mod_idemp_l. rewrite Z.mod_small by lia. lia.
Qed.

Lemma ints_bytes_length l : length (ints_bytes l) = (4 * length l)%nat.
Proof.
  unfold ints_bytes. induction l as [|x l IH]; [done|]. rewrite fmap_cons. cbn [concat length].
  rewrite length_app, le_bytes_length, IH. lia.
Qed.

Lemma int_at_bytes l rest i x : l !! i = Some x -> int_at (ints_bytes l ++ rest) i = u32 x.
Proof.
  revert i. induction l as [|y l IH]; intros i Hi; [done|]. unfold ints_bytes. rewrite fmap_cons. cbn [concat]. unfold int_at.
  assert (Hy : length (le_bytes 4 y) = 4%nat) by apply le_bytes_length. rewrite <- app_assoc. destruct i as [|i].
  - injection Hi as ->. rewrite Nat.mul_0_r, drop_0, take_app_le by lia. rewrite take_ge by lia. rewrite le_value_bytes. done.
  - replace (4 * S i)%nat with (length (le_bytes 4 y) + 4 * i)%nat by lia. rewrite <- drop_drop, drop_app_length. by apply (IH i).
Qed.

(** ** The device *)

Definition is_i32 (x : Z) : Prop := - 2 ^ 31 <= x < 2 ^ 31.

(** The counters fit their types. *)
Record device_fits (cp : CheckpointDevice) : Prop := {
  df_type : is_i32 (cd_structType cp);
  df_erased : is_i32 (cd_nErasedBlocks cp);
  df_block : is_i32 (cd_allocationBlock cp);
  df_page : is_u32 (cd_allocationPage cp);
  df_free : is_i32 (cd_nFreeChunks cp);
  df_deleted : is_i32 (cd_nDeletedFiles cp);
  df_unlinked : is_i32 (cd_nUnlinkedFiles cp);
  df_background : is_i32 (cd_nBackgroundDeletions cp);
  df_seq : is_u32 (cd_sequenceNumber cp);
  df_oldest : is_u32 (cd_oldestDirtySequence cp)
}.

Lemma device_bytes_length cp : length (device_bytes cp) = 40%nat.
Proof. unfold device_bytes. by rewrite ints_bytes_length. Qed.

Lemma device_of_bytes cp : device_fits cp -> device_of (device_bytes cp) = cp.
Proof.
  intros []. rewrite <- (app_nil_r (device_bytes cp)). unfold device_of, device_bytes.
  do 10 (erewrite int_at_bytes by reflexivity). rewrite !swrap_wrap, !wrap_small by done || lia. by destruct cp.
Qed.

(** ** Block information *)

Record info_fits (bi : BlockInfo) : Prop := {
  if_soft : - 512 <= softDeletions bi < 512;
  if_pages : - 512 <= pagesInUse bi < 512;
  if_strikes : 0 <= chunkErrorStrikes bi < 8;
  if_seq : is_u32 (bi_sequenceNumber bi)
}.

Lemma info_bytes_length bi : length (info_bytes bi) = 8%nat.
Proof. unfold info_bytes. by rewrite ints_bytes_length. Qed.

Lemma state_of_number st : state_of (wrap 4 (state_number st)) = Some st.
Proof. by destruct st. Qed.

Lemma info_of_word bi : info_fits bi -> info_of (u32 (info_word bi)) (u32 (bi_sequenceNumber bi)) = Some bi.
Proof.
  intros [H1 H2 H3 H4].
  assert (Hw : u32 (info_word bi) = info_word bi).
  { apply wrap_small. unfold info_word. rewrite !pack_cons by lia. cbn [pack].
    pose proof (wrap_range 10 (softDeletions bi) ltac:(lia)). pose proof (wrap_range 10 (pagesInUse bi) ltac:(lia)).
    pose proof (wrap_range 4 (state_number (blockState bi)) ltac:(lia)). pose proof (wrap_range 1 (flag (needsRetiring bi)) ltac:(lia)).
    pose proof (wrap_range 1 (flag (skipErasedCheck bi)) ltac:(lia)). pose proof (wrap_range 1 (flag (gcPrioritise bi)) ltac:(lia)).
    pose proof (wrap_range 3 (chunkErrorStrikes bi) ltac:(lia)). pose proof (wrap_range 1 (flag (hasShrinkHeader bi)) ltac:(lia)).
    lia. }
  rewrite Hw, (wrap_small 32) by done. clear Hw. unfold info_of, info_word.
  set (l0 := [(1, flag (hasShrinkHeader bi))]). set (l1 := (3, chunkErrorStrikes bi) :: l0).
  set (l2 := (1, flag (gcPrioritise bi)) :: l1). set (l3 := (1, flag (skipErasedCheck bi)) :: l2).
  set (l4 := (1, flag (needsRetiring bi)) :: l3). set (l5 := (4, state_number (blockState bi)) :: l4).
  set (l6 := (10, pagesInUse bi) :: l5).
  assert (E1 : bits_at 4 20 (pack ((10, softDeletions bi) :: l6)) = wrap 4 (state_number (blockState bi))).
  { etransitivity; [apply (bits_later 4 10 (softDeletions bi) l6 10); lia|].
    etransitivity; [apply (bits_later 4 10 (pagesInUse bi) l5 0); lia|by apply bits_first]. }
  assert (E2 : bits_at 10 10 (pack ((10, softDeletions bi) :: l6)) = wrap 10 (pagesInUse bi)).
  { etransitivity; [apply (bits_later 10 10 (softDeletions bi) l6 0); lia|by apply bits_first]. }
  assert (E3 : forall i, 0 <= i -> Z.testbit (pack ((10, softDeletions bi) :: l6)) (24 + i) = Z.testbit (pack l4) i).
  { intros i Hi. replace (24 + i) with (10 + (10 + (4 + i))) by lia. unfold l6, l5. by rewrite !bit_later by lia. }
  assert (E4 : bits_at 3 27 (pack ((10, softDeletions bi) :: l6)) = wrap 3 (chunkErrorStrikes bi)).
  { change 27 with (10 + (10 + (4 + (1 + (1 + (1 + 0)))))). unfold l6, l5, l4, l3, l2. rewrite !bits_later by lia. by apply bits_first. }
  rewrite E1, E2, E4, bits_first, state_of_number by lia. cbn [mbind option_bind].
  pose proof (E3 0 ltac:(lia)) as F0. pose proof (E3 1 ltac:(lia)) as F1. pose proof (E3 2 ltac:(lia)) as F2.
  pose proof (E3 6 ltac:(lia)) as F6.
  change (24 + 0) with 24 in F0. change (24 + 1) with 25 in F1. change (24 + 2) with 26 in F2. change (24 + 6) with 30 in F6.
  rewrite F0, F1, F2, F6.
  assert (G0 : Z.testbit (pack l4) 0 = needsRetiring bi) by apply bit_first.
  assert (G1 : Z.testbit (pack l4) (1 + 0) = skipErasedCheck bi) by (unfold l4; rewrite bit_later by lia; apply bit_first).
  assert (G2 : Z.testbit (pack l4) (1 + (1 + 0)) = gcPrioritise bi)
    by (unfold l4, l3; rewrite !bit_later by lia; apply bit_first).
  assert (G6 : Z.testbit (pack l4) (1 + (1 + (1 + (3 + 0)))) = hasShrinkHeader bi)
    by (unfold l4, l3, l2, l1; rewrite !bit_later by lia; apply bit_first).
  change (1 + 0) with 1 in G1. change (1 + (1 + 0)) with 2 in G2. change (1 + (1 + (1 + (3 + 0)))) with 6 in G6. rewrite G0, G1, G2, G6.
  rewrite !swrap_wrap, wrap_small by lia. by destruct bi.
Qed.

(** The numbers of the two states of a block that is taken for the checkpoint are in one byte. *)
Lemma info_word_split bi : exists a r, 0 <= a < 2 ^ 20 /\ info_word bi = a + 2 ^ 20 * (wrap 4 (state_number (blockState bi)) + 2 ^ 4 * r) /\
  info_word (as_checkpoint bi) = a + 2 ^ 20 * (7 + 2 ^ 4 * r).
Proof.
  unfold info_word. rewrite !pack_cons by lia. cbn [pack]. unfold as_checkpoint. simp_fields. change (wrap 4 (state_number BLOCK_STATE_CHECKPOINT)) with 7.
  pose proof (wrap_range 10 (softDeletions bi) ltac:(lia)). pose proof (wrap_range 10 (pagesInUse bi) ltac:(lia)).
  exists (wrap 10 (softDeletions bi) + 2 ^ 10 * wrap 10 (pagesInUse bi)).
  exists (wrap 1 (flag (needsRetiring bi)) + 2 ^ 1 * (wrap 1 (flag (skipErasedCheck bi)) + 2 ^ 1 * (wrap 1 (flag (gcPrioritise bi)) +
    2 ^ 1 * (wrap 3 (chunkErrorStrikes bi) + 2 ^ 3 * (wrap 1 (flag (hasShrinkHeader bi)) + 2 ^ 1 * 0))))).
  split; [lia|]. split; lia.
Qed.

Lemma info_bytes_marked bi j : blockState bi = BLOCK_STATE_EMPTY -> j <> 2%nat ->
  info_bytes (as_checkpoint bi) !! j = info_bytes bi !! j.
Proof.
  intros He Hj. destruct (info_word_split bi) as (a & r & Ha & E1 & E2). rewrite He in E1. change (wrap 4 (state_number BLOCK_STATE_EMPTY)) with 3 in E1.
  unfold info_bytes. rewrite E1, E2. change (bi_sequenceNumber (as_checkpoint bi)) with (bi_sequenceNumber bi). clear E1 E2.
  set (x := a + 2 ^ 20 * (3 + 2 ^ 4 * r)). set (y := a + 2 ^ 20 * (7 + 2 ^ 4 * r)).
  assert (F0 : u8 y = u8 x) by (unfold wrap, x, y; Z.to_euclidean_division_equations; lia).
  assert (F1 : u8 (Z.shiftr y 8) = u8 (Z.shiftr x 8)).
  { rewrite !Z.shiftr_div_pow2 by lia. unfold wrap, x, y. Z.to_euclidean_division_equations; lia. }
  assert (F3 : Z.shiftr (Z.shiftr (Z.shiftr y 8) 8) 8 = Z.shiftr (Z.shiftr (Z.shiftr x 8) 8) 8).
  { rewrite !Z.shiftr_shiftr by lia. rewrite !Z.shiftr_div_pow2 by lia. unfold x, y. Z.to_euclidean_division_equations; lia. }
  unfold ints_bytes. cbn [fmap list_fmap concat le_bytes app]. rewrite F0, F1, F3.
  destruct j as [|[|[|j]]]; done.
Qed.

Lemma mixed_entry bi l : blockState bi = BLOCK_STATE_EMPTY -> length l = 8%nat ->
  (forall j x, l !! j = Some x -> info_bytes bi !! j = Some x \/ info_bytes (as_checkpoint bi) !! j = Some x) ->
  l = info_bytes bi \/ l = info_bytes (as_checkpoint bi).
Proof.
  intros He Hl Hall. pose proof (info_bytes_length bi) as L1. pose proof (info_bytes_length (as_checkpoint bi)) as L2.
  assert (Hrest : forall j, j <> 2%nat -> l !! j = info_bytes bi !! j /\ l !! j = info_bytes (as_checkpoint bi) !! j).
  { intros j Hj. rewrite (info_bytes_marked bi j He Hj). destruct (l !! j) as [x|] eqn:Ex.
    - destruct (Hall j x Ex) as [H|H]; [by rewrite H|]. rewrite (info_bytes_marked bi j He Hj) in H. by rewrite H.
    - apply lookup_ge_None in Ex. split; symmetry; apply lookup_ge_None; lia. }
  destruct (lookup_lt_is_Some_2 l 2 ltac:(lia)) as [x Hx]. destruct (Hall _ _ Hx) as [H|H]; [left|right];
    apply list_eq; intros j; (destruct (decide (j = 2%nat)) as [->|Hj]; [congruence|by apply Hrest]).
Qed.

(** ** Tables *)

Lemma infos_of_entries (l : list BlockInfo) : forall D rest, Forall info_fits l -> length D = (8 * length l)%nat ->
  (forall i bi, l !! i = Some bi -> take 8 (drop (8 * i) D) = info_bytes bi) -> infos_of (length l) (D ++ rest) = Some l.
Proof.
  induction l as [|bi l IH]; intros D rest Hf Hlen Hall; [done|]. apply Forall_cons in Hf as [Hbi Hf]. cbn [length] in *.
  pose proof (Hall 0%nat bi eq_refl) as H0. rewrite Nat.mul_0_r, drop_0 in H0.
  assert (HD : D = info_bytes bi ++ drop 8 D) by (rewrite <- H0; symmetry; apply take_drop).
  assert (HR : D ++ rest = info_bytes bi ++ (drop 8 D ++ rest)) by (rewrite app_assoc; by rewrite <- HD).
  cbn [infos_of]. rewrite HR. pose proof (info_bytes_length bi) as L.
  assert (I0 : int_at (info_bytes bi ++ (drop 8 D ++ rest)) 0 = u32 (info_word bi)) by (by apply int_at_bytes).
  assert (I1 : int_at (info_bytes bi ++ (drop 8 D ++ rest)) 1 = u32 (bi_sequenceNumber bi)) by (by apply int_at_bytes).
  rewrite I0, I1, (info_of_word bi Hbi). cbn [mbind option_bind].
  replace 8%nat with (length (info_bytes bi)) at 1 by done. rewrite drop_app_length.
  rewrite (IH (drop 8 D) rest Hf); [done|rewrite length_drop; lia|].
  intros i x Hi. rewrite drop_drop. replace (8 + 8 * i)%nat with (8 * S i)%nat by lia. by apply Hall.
Qed.

Lemma infos_bytes_entry l i bi : l !! i = Some bi -> take 8 (drop (8 * i) (infos_bytes l)) = info_bytes bi.
Proof.
  revert i. induction l as [|x l IH]; intros i Hi; [done|]. unfold infos_bytes. rewrite fmap_cons. cbn [concat].
  pose proof (info_bytes_length x) as L. destruct i as [|i].
  - injection Hi as ->. rewrite Nat.mul_0_r, drop_0. rewrite <- L. by rewrite take_app_length.
  - replace (8 * S i)%nat with (length (info_bytes x) + 8 * i)%nat by lia. rewrite <- drop_drop, drop_app_length. by apply IH.
Qed.

Lemma infos_bytes_length l : length (infos_bytes l) = (8 * length l)%nat.
Proof.
  induction l as [|x l IH]; [done|]. unfold infos_bytes in *. rewrite fmap_cons. cbn [concat length].
  rewrite length_app, info_bytes_length, IH. lia.
Qed.

(** A byte of the table. *)
Lemma infos_bytes_lookup l i bi (j : nat) : l !! i = Some bi -> (j < 8)%nat -> infos_bytes l !! (8 * i + j)%nat = info_bytes bi !! j.
Proof.
  intros Hi Hj. rewrite <- (infos_bytes_entry l i bi Hi). rewrite lookup_take_lt by done. by rewrite lookup_drop.
Qed.

Lemma list_choice {A} (P : nat -> A -> Prop) (n : nat) : (forall i, (i < n)%nat -> exists x, P i x) ->
  exists l, length l = n /\ forall i x, l !! i = Some x -> P i x.
Proof.
  intros H. induction n as [|n IH]; [by exists []|]. destruct IH as (l & Hl & Hp); [intros i Hi; apply H; lia|].
  destruct (H n ltac:(lia)) as [x Hx]. exists (l ++ [x]). rewrite length_app, Hl. cbn. split; [lia|].
  intros i y Hy. apply lookup_app_Some in Hy as [Hy|[Hge Hy]]; [by apply Hp|].
  apply list_lookup_singleton_Some in Hy as [Hi <-]. by replace i with n by lia.
Qed.

Section restore.
Context {N : Type} {nd : NandDriver N} (cfg : Config) (Hcfg : cfg_ok cfg).
Context {ps : PageStore nd cfg}.
Context wr (Hwr : drv_writeChunkWithTags = Some wr).
Implicit Types (s : State N).
Let n := nDataBytesPerChunk cfg.
Let B := Z.to_nat (nChunksPerBlock cfg).

(** ** Memory that changes while it is written *)

Section dump.
Context (b0 : Blocks) (f : Blocks -> list Z).

(** Byte [p] of the memory at some time since the stream was opened. *)
Definition seen (bl : list Z) (p : nat) (x : Z) : Prop :=
  exists b bl', bl' ⊆ bl /\ tables_since cfg b0 b bl' /\ f b !! p = Some x.

Lemma seen_sub bl bl' p x : bl ⊆ bl' -> seen bl p x -> seen bl' p x.
Proof. intros Hs (b & bl2 & H1 & H2 & H3). exists b, bl2. split; [by etransitivity|done]. Qed.

Lemma written_tables s bl (K : nat) all : written cfg b0 s bl K all -> tables_since cfg b0 (blks s) bl.
Proof. intros (free & ds & part & Hw & _). apply Hw. Qed.

Lemma dump_loop_spec (m : nat) : forall s bl (K : nat) all (i : nat), written cfg b0 s bl K all ->
  (length all + m <= K * B * Z.to_nat n)%nat ->
  (forall b bl', tables_since cfg b0 b bl' -> (i + m <= length (f b))%nat) ->
  wp (checkpoint_dump_loop cfg (fun s => f (blks s)) m (Z.of_nat i)) (fun r s' => r = Z.of_nat (i + m) /\
    exists D bl', length D = m /\ bl ⊆ bl' /\ written cfg b0 s' bl' K (all ++ D) /\ sums_added s s' D /\
      forall j x, D !! j = Some x -> seen bl' (i + j) x) s.
Proof.
  induction m as [|m IH]; intros s bl K all i Hw Hroom Hlen; cbn [checkpoint_dump_loop].
  - apply wp_ret. split; [lia|]. exists [], bl. rewrite app_nil_r. split; [done|]. split; [done|]. split; [done|]. by split.
  - pose proof (Hlen _ _ (written_tables _ _ _ _ Hw)) as Hl. destruct (lookup_lt_is_Some_2 (f (blks s)) i ltac:(lia)) as [x Hx].
    wp_step. wp_step. apply wp_bind, wp_of_option with x; [unfold lookupZ; rewrite (proj2 (Z.leb_le 0 _)) by lia; by rewrite Nat2Z.id|].
    eapply wp_seq; [apply (put_spec cfg Hcfg wr Hwr b0 s bl K all x Hw); fold n B; lia|].
    intros ok s1 (-> & (bl1 & Hsub & Hw1) & Hs1). change (ztrue 1) with true. cbv iota.
    replace (Z.of_nat i + 1) with (Z.of_nat (S i)) by lia.
    eapply wp_mono; [apply (IH s1 bl1 K (all ++ [x]) (S i) Hw1)|].
    + rewrite length_app. cbn. lia.
    + intros b bl' Hb. pose proof (Hlen b bl' Hb). lia.
    + intros r s2 (-> & D & bl2 & HD & Hsub2 & Hw2 & Hs2 & Hseen). split; [lia|]. exists (x :: D), bl2.
      split; [cbn; lia|]. split; [by etransitivity|]. rewrite <- app_assoc in Hw2. split; [done|].
      split; [by apply (sums_app s s1 s2 [x] D)|]. intros [|j] y Hy.
      * injection Hy as <-. rewrite Nat.add_0_r. exists (blks s), bl. split; [by etransitivity|].
        split; [by eapply written_tables|done].
      * replace (i + S j)%nat with (S i + j)%nat by lia. by apply Hseen.
Qed.

Lemma dump_spec s bl (K : nat) all (m : nat) : written cfg b0 s bl K all -> (length all + m <= K * B * Z.to_nat n)%nat ->
  (forall b bl', tables_since cfg b0 b bl' -> (m <= length (f b))%nat) ->
  wp (checkpoint_dump cfg (fun s => f (blks s)) m) (fun r s' => r = Z.of_nat m /\
    exists D bl', length D = m /\ bl ⊆ bl' /\ written cfg b0 s' bl' K (all ++ D) /\ sums_added s s' D /\
      forall j x, D !! j = Some x -> seen bl' j x) s.
Proof.
  intros Hw Hroom Hlen. pose proof Hw as (free & ds & part & Hwr' & _ & _ & Hbuf & _).
  unfold checkpoint_dump, getC. wp_step. wp_step. wp_step. wp_step. rewrite Hbuf, (wg_mode _ _ _ _ _ _ Hwr'). cbn [negb].
  by apply (dump_loop_spec m s bl K all 0).
Qed.
End dump.

(** The table that is dumped has every block as it was, or as a block of the checkpoint. *)
Lemma dumped_entries b0 bl D : Z.of_nat (length (blockInfo b0)) = nBlocks cfg -> Forall info_fits (blockInfo b0) ->
  length D = (8 * length (blockInfo b0))%nat ->
  (forall j x, D !! j = Some x -> seen b0 (fun b => infos_bytes (blockInfo b)) bl j x) ->
  exists infos, length infos = length (blockInfo b0) /\ (forall rest, infos_of (length (blockInfo b0)) (D ++ rest) = Some infos) /\
    forall blk bi, valid_block cfg blk -> blockInfo b0 !! index cfg blk = Some bi ->
      infos !! index cfg blk = Some bi \/ (blk ∈ bl /\ blockState bi = BLOCK_STATE_EMPTY /\ infos !! index cfg blk = Some (as_checkpoint bi)).
Proof.
  intros Hlen Hfit HD Hseen. set (m := length (blockInfo b0)) in *.
  set (P := fun (i : nat) (bi' : BlockInfo) => take 8 (drop (8 * i) D) = info_bytes bi' /\ forall bi, blockInfo b0 !! i = Some bi ->
    bi' = bi \/ (internalStartBlock cfg + Z.of_nat i ∈ bl /\ blockState bi = BLOCK_STATE_EMPTY /\ bi' = as_checkpoint bi)).
  destruct (list_choice P m) as (infos & Hil & HP).
  - intros i Hi. destruct (lookup_lt_is_Some_2 (blockInfo b0) i Hi) as [bi Hbi]. set (blk := internalStartBlock cfg + Z.of_nat i).
    assert (Hv : valid_block cfg blk) by (unfold valid_block, nBlocks in *; lia).
    assert (Hidx : index cfg blk = i) by (unfold index, blk; lia).
    set (l := take 8 (drop (8 * i) D)). assert (Hl : length l = 8%nat) by (unfold l; rewrite length_take, length_drop; lia).
    assert (Hl8 : forall j x, l !! j = Some x -> (j < 8)%nat /\ seen b0 (fun b => infos_bytes (blockInfo b)) bl (8 * i + j) x).
    { intros j x Hx. apply lookup_lt_Some in Hx as Hj. rewrite Hl in Hj. split; [done|]. apply Hseen.
      unfold l in Hx. rewrite lookup_take_lt, lookup_drop in Hx by done. done. }
    assert (Hb : forall j x, l !! j = Some x -> info_bytes bi !! j = Some x \/ (blk ∈ bl /\ info_bytes (as_checkpoint bi) !! j = Some x)).
    { intros j x Hx. destruct (Hl8 j x Hx) as [Hj (b & bl' & Hsub & Ht & Hbyte)].
      pose proof (ts_infos _ _ _ _ Ht blk bi Hv ltac:(by rewrite Hidx)) as Hi'. rewrite Hidx in Hi'.
      rewrite (infos_bytes_lookup _ _ _ _ Hi' Hj) in Hbyte. destruct (decide (blk ∈ bl')) as [Hin|]; [right|by left].
      split; [by apply Hsub|done]. }
    destruct (decide (blk ∈ bl /\ blockState bi = BLOCK_STATE_EMPTY)) as [[Hin He]|Hno].
    + destruct (mixed_entry bi l He Hl) as [E|E].
      * intros j x Hx. destruct (Hb j x Hx) as [?|[_ ?]]; [by left|by right].
      * exists bi. split; [done|]. intros bi' Hbi'. left. congruence.
      * exists (as_checkpoint bi). split; [done|]. intros bi' Hbi'. right. assert (bi' = bi) as -> by congruence. done.
    + exists bi. split; [|intros bi' Hbi'; left; congruence]. apply list_eq. intros j. change (l !! j = info_bytes bi !! j). destruct (l !! j) as [x|] eqn:Ex.
      * destruct (Hl8 j x Ex) as [Hj (b & bl' & Hsub & Ht & Hbyte)].
        pose proof (ts_infos _ _ _ _ Ht blk bi Hv ltac:(by rewrite Hidx)) as Hi'. rewrite Hidx in Hi'.
        rewrite (infos_bytes_lookup _ _ _ _ Hi' Hj) in Hbyte. destruct (decide (blk ∈ bl')) as [Hin|]; [|done].
        destruct Hno. split; [by apply Hsub|]. apply (ts_empty _ _ _ _ Ht blk bi Hin). by rewrite Hidx.
      * symmetry. apply lookup_ge_None. apply lookup_ge_None in Ex. rewrite info_bytes_length. lia.
  - exists infos. split; [done|]. split.
    + intros rest. rewrite <- Hil. apply infos_of_entries; [|lia|intros i bi Hi; apply (HP i bi Hi)].
      apply Forall_lookup. intros i bi' Hi. destruct (HP i bi' Hi) as [_ Hc]. apply lookup_lt_Some in Hi as Hlt.
      destruct (lookup_lt_is_Some_2 (blockInfo b0) i ltac:(lia)) as [bi Hbi].
      pose proof (proj1 (Forall_lookup _ _) Hfit i bi Hbi) as Hfi. destruct (Hc bi Hbi) as [->|(_ & _ & ->)]; [done|].
      by destruct Hfi.
    + intros blk bi Hv Hbi. apply lookup_lt_Some in Hbi as Hlt. destruct (lookup_lt_is_Some_2 infos (index cfg blk) ltac:(lia)) as [bi' Hbi'].
      assert (Hblk : internalStartBlock cfg + Z.of_nat (index cfg blk) = blk) by (unfold index, valid_block in *; lia).
      destruct (HP _ _ Hbi') as [_ Hc]. rewrite Hblk in Hc. destruct (Hc bi Hbi) as [->|(H1 & H2 & ->)]; [by left|by right].
Qed.

(** ** Closing after reading *)

Context rd (Hrd : drv_readChunkWithTags = Some rd).

(** Reading leaves the tables alone. *)
Lemma CheckpointRead_blks (m : nat) s : pc (yaffs_CheckpointRead cfg m) (fun _ s' => blks s' = blks s) s.
Proof.
  assert (Hfind : forall s', blks s' = blks s -> pc (yaffs_CheckpointFindNextCheckpointBlock cfg) (fun _ s'' => blks s'' = blks s) s').
  { intros s' E. unfold yaffs_CheckpointFindNextCheckpointBlock, getC, modC. do 6 pc_step. cbv zeta.
    apply pc_if. destruct (_ <? _); [|by pc_step]. eapply pc_seq with (P := fun _ s'' => blks s'' = blks s).
    - apply pc_for_break; [done|]. intros x s2 _ E2. pc_step. apply pc_of_option. intros r _. pc_step.
      unfold on_nand. intros [[a d] tg] s3. destruct (r _ _ _ _) as [[[a' d'] t'] m']. intros [= <- <- <- <-]. cbn [fst snd].
      apply pc_if. destruct (_ =? _); pc_steps; [|done].
      apply pc_of_option. intros l _. pc_steps. apply pc_of_option. intros l' _. by pc_steps.
    - intros [u|] s2 E2; by pc_steps. }
  unfold yaffs_CheckpointRead, getC. do 4 pc_step. destruct (checkpointBuffer (ckpt s)); [|by pc_step].
  destruct (checkpointOpenForWrite (ckpt s)); [by pc_step|].
  eapply pc_seq with (P := fun _ s' => blks s' = blks s); [|intros l' s' E; by pc_step].
  enough (H : forall acc s', blks s' = blks s -> pc (checkpoint_read_loop cfg m acc) (fun _ s'' => blks s'' = blks s) s') by (by apply H).
  induction m as [|m IH]; intros acc s1 E; cbn [checkpoint_read_loop]; [by pc_step|].
  eapply pc_seq with (P := fun _ s' => blks s' = blks s).
  - unfold checkpoint_fetch, getC, modC. do 2 pc_step. apply pc_if. destruct (negb _); [by pc_step|]. do 2 pc_step.
    eapply pc_seq with (P := fun _ s' => blks s' = blks s).
    { pc_step. destruct (_ <? 0); [|done]. eapply pc_seq; [by apply Hfind|]. intros u s' E'. by pc_step. }
    intros u s2 E2. do 2 pc_step. apply pc_if. destruct (_ <? 0); [by pc_step|]. do 4 pc_step. cbv zeta. pc_step.
    apply pc_of_option. intros r _. do 2 pc_step. pc_step. unfold on_nand.
    intros [[a d] tg] s3. destruct (r _ _ _ _) as [[[a' d'] t'] m']. intros [= <- <- <- <-]. cbn [fst snd].
    do 4 pc_step. destruct (_ <=? _); by pc_steps.
  - intros ok s2 E2. apply pc_if. destruct (negb _); [by pc_step|]. unfold getC, modC. do 2 pc_step. pc_step.
    apply pc_of_option. intros b _. do 3 pc_step. apply pc_of_option. intros x _. pc_steps. by apply IH.
Qed.

(** The blocks of [l] that look empty became blocks of the checkpoint. *)
Record marked_in (l : list Z) (b b' : Blocks) : Prop := {
  mi_rest : b' = b <| blockInfo := blockInfo b' |>;
  mi_len : length (blockInfo b') = length (blockInfo b);
  mi_infos : forall blk bi, valid_block cfg blk -> blockInfo b !! index cfg blk = Some bi ->
    blockInfo b' !! index cfg blk =
      Some (if decide (blk ∈ l /\ blockState bi = BLOCK_STATE_EMPTY) then as_checkpoint bi else bi)
}.

Lemma marked_in_more l x b b' b2 bi : marked_in l b b' -> valid_block cfg x -> x ∉ l -> blockInfo b !! index cfg x = Some bi ->
  (if is_state (blockState bi) BLOCK_STATE_EMPTY
   then b2 = b' <| blockInfo := <[index cfg x := as_checkpoint bi]> (blockInfo b') |> else b2 = b') ->
  marked_in (l ++ [x]) b b2.
Proof.
  intros [H1 H2 H3] Hv Hx Hbi Hb2. unfold is_state in Hb2. destruct (bool_decide_reflect (blockState bi = BLOCK_STATE_EMPTY)) as [He|He]; subst b2.
  - split; simp_fields.
    + rewrite H1 at 1. done.
    + by rewrite length_insert.
    + intros blk bi' Hvb Hb. destruct (decide (blk = x)) as [->|Hne].
      * assert (bi' = bi) as -> by congruence. rewrite list_lookup_insert_eq by (rewrite H2; by eapply lookup_lt_Some).
        rewrite decide_True; [done|]. rewrite elem_of_app, list_elem_of_singleton. tauto.
      * rewrite list_lookup_insert_ne by (unfold index, valid_block in *; lia). rewrite (H3 blk bi' Hvb Hb). f_equal.
        apply decide_ext. rewrite elem_of_app, list_elem_of_singleton. tauto.
  - split; [done|done|]. intros blk bi' Hvb Hb. rewrite (H3 blk bi' Hvb Hb). f_equal. apply decide_ext.
    rewrite elem_of_app, list_elem_of_singleton. split; [tauto|]. intros [[?| ->] ?]; [done|]. simplify_eq.
Qed.

Lemma CheckpointClose_read s bl ds off : reading cfg s bl ds (length ds) off ->
  Z.of_nat (length (blockInfo (blks s))) = nBlocks cfg ->
  wp (yaffs_CheckpointClose cfg) (fun r s' => r = 1 /\
    exists b, marked_in bl (blks s) b /\ blks s' = counted_out cfg (Z.of_nat (length bl)) b) s.
Proof.
  intros Hr Hlen. pose proof (rg_stored _ _ _ _ _ _ Hr) as Hst. pose proof (sr_blocks _ _ _ _ Hst) as Hbl.
  destruct (rg_list _ _ _ _ _ _ Hr) as (lst & Hlst & Hmax & Hll & Hfirst). rewrite <- Hbl in Hfirst.
  destruct (rg_buf _ _ _ _ _ _ Hr) as (b & Hb & _ & _).
  unfold yaffs_CheckpointClose, getC, modC, getB, modB. wp_step. wp_step. rewrite (rg_mode _ _ _ _ _ _ Hr).
  apply wp_bind. wp_step. wp_step. rewrite (rg_found _ _ _ _ _ _ Hr), <- Hbl. wp_step. wp_step. rewrite Hlst.
  eapply wp_seq; [apply (wp_for_break (fun l s' => ckpt s' = ckpt s /\ marked_in (take (length l) bl) (blks s) (blks s'))
    (fun r s' => ckpt s' = ckpt s /\ marked_in bl (blks s) (blks s')))|].
  - split; [done|]. split; [by destruct (blks s)|done|]. intros blk bi _ Hbi. rewrite decide_False; [done|]. intros [H _]. by apply elem_of_nil in H.
  - intros l x rest s' Heq [Hc Hm]. apply seqZ_split in Heq as [-> Hlt]. rewrite Z.add_0_l.
    destruct (lookup_lt_is_Some_2 bl (length l) ltac:(lia)) as [y Hy].
    pose proof (Hfirst (length l) y ltac:(lia) Hy) as Hly. pose proof (sr_valid _ _ _ _ Hst y ltac:(by eapply list_elem_of_lookup_2)) as Hv.
    pose proof (c_start cfg Hcfg). assert (Hypos : 0 <= y) by (unfold valid_block in Hv; lia).
    apply wp_bind, wp_of_option with lst; [done|]. unfold checkpoint_mark_read.
    apply wp_bind, wp_of_option with y; [unfold lookupZ; rewrite (proj2 (Z.leb_le 0 _)) by lia; by rewrite Nat2Z.id|].
    rewrite (proj2 (Z.ltb_ge y 0)) by done.
    assert (Hni : y ∉ take (length l) bl).
    { intros Hin. apply list_elem_of_lookup in Hin as [i Hi]. apply lookup_lt_Some in Hi as Hil. rewrite length_take in Hil.
      rewrite lookup_take_lt in Hi by lia. pose proof (sr_sorted _ _ _ _ Hst i (length l) y y Hi Hy ltac:(lia)). lia. }
    destruct (lookup_lt_is_Some_2 (blockInfo (blks s)) (index cfg y)) as [bi Hbi]; [unfold index, valid_block, nBlocks in *; lia|].
    pose proof (mi_infos _ _ _ Hm y bi Hv Hbi) as Hbi'. rewrite decide_False in Hbi' by tauto.
    apply wp_bind, wp_GetBlockInfo with bi; [apply Hv|done|].
    rewrite length_app. cbn [length]. rewrite Nat.add_1_r, (take_S_r bl (length l) y Hy).
    apply wp_bind, wp_when. pose proof (marked_in_more _ y _ _ (blks s') bi Hm Hv Hni Hbi) as Hno.
    pose proof (marked_in_more _ y _ _ ((blks s') <| blockInfo := <[index cfg y := as_checkpoint bi]> (blockInfo (blks s')) |>) bi Hm Hv Hni Hbi) as Hyes.
    destruct (is_state (blockState bi) BLOCK_STATE_EMPTY).
    + eapply wp_set_block_info; [apply Hv|exact Hbi'|]. apply wp_ret. unfold with_infos. simp_fields. split; [done|by apply Hyes].
    + apply wp_ret. split; [done|by apply Hno].
  - intros s' [Hc Hm]. rewrite length_seqZ in Hm. rewrite take_ge in Hm by lia. done.
  - intros r s1 [Hc Hm]. wp_steps. simp_fields. rewrite Hc, Hb. wp_steps. split; [done|]. exists (blks s1). split; [done|].
    simp_fields. by rewrite (rg_found _ _ _ _ _ _ Hr), <- Hbl.
Qed.

(** ** Writing and reading the device *)

Context {K : Type}.
Implicit Types (fs : FS N K).

(** Only the driver's part of the state is different. *)
Definition only_dev fs fs' : Prop := fs' = fs <| dev := dev fs' |>.

Lemma wp_dev {A} (m : M (State N) A) (Q : A -> FS N K -> Prop) (P : A -> State N -> Prop) fs :
  wp m P (dev fs) -> (forall a fs', only_dev fs fs' -> P a (dev fs') -> Q a fs') -> wp (on_dev m) Q fs.
Proof. intros Hm HQ. apply wp_on_dev. eapply wp_mono; [exact Hm|]. intros a d Hd. by apply HQ. Qed.

Lemma only_dev_trans fs1 fs2 fs3 : only_dev fs1 fs2 -> only_dev fs2 fs3 -> only_dev fs1 fs3.
Proof. unfold only_dev. intros -> ->. by destruct fs1. Qed.

Lemma only_dev_obs fs fs' : only_dev fs fs' -> obs fs' = obs fs.
Proof. by intros ->. Qed.

(** The number of bytes of the device's part of a checkpoint. *)
Definition device_size : nat := Z.to_nat (40 + nBlocks cfg * 8 + nBlocks cfg * chunkBitmapStride cfg).

Lemma tables_lengths b : tables_ok cfg b -> length (blockInfo b) = Z.to_nat (nBlocks cfg) /\
  length (chunkBits b) = Z.to_nat (nBlocks cfg * chunkBitmapStride cfg) /\ 1 <= nBlocks cfg /\ 0 <= chunkBitmapStride cfg.
Proof.
  intros [H1 H2 _]. pose proof (c_end cfg Hcfg). pose proof (c_stride cfg Hcfg). pose proof (c_npb cfg Hcfg).
  assert (0 <= chunkBitmapStride cfg) by (rewrite H0; Z.to_euclidean_division_equations; lia). unfold nBlocks in *. split; [lia|]. split; [nia|]. lia.
Qed.

(** The tables as they are dumped. *)
Record dumped (b0 : Blocks) (bl : list Z) (bytes : list Z) (cp : CheckpointDevice) (infos : list BlockInfo) : Prop := {
  du_bytes : exists D, bytes = device_bytes cp ++ D ++ chunkBits b0 /\ length D = Z.to_nat (nBlocks cfg * 8) /\
    forall rest, infos_of (Z.to_nat (nBlocks cfg)) (D ++ rest) = Some infos;
  du_infos : forall blk bi, valid_block cfg blk -> blockInfo b0 !! index cfg blk = Some bi ->
    infos !! index cfg blk = Some bi \/ (blk ∈ bl /\ blockState bi = BLOCK_STATE_EMPTY /\ infos !! index cfg blk = Some (as_checkpoint bi));
  du_len : length infos = length (blockInfo b0)
}.

Lemma WriteCheckpointDevice_spec fs b0 bl (L : nat) all : written cfg b0 (dev fs) bl L all ->
  tables_ok cfg b0 -> Forall info_fits (blockInfo b0) -> (length all + device_size <= L * B * Z.to_nat n)%nat ->
  wp (yaffs_WriteCheckpointDevice cfg) (fun r fs' => r = 1 /\ only_dev fs fs' /\ exists bytes bl' infos,
    length bytes = device_size /\ bl ⊆ bl' /\ written cfg b0 (dev fs') bl' L (all ++ bytes) /\
    dumped b0 bl' bytes (yaffs_DeviceToCheckpointDevice 40 b0 (obs fs)) infos) fs.
Proof.
  intros Hw Ht Hfit Hroom. destruct (tables_lengths b0 Ht) as (Hl1 & Hl2 & Hnb & Hst). pose proof Ht as [Ht1 _ _].
  unfold yaffs_WriteCheckpointDevice. wp_step. wp_step.
  assert (Hcp : yaffs_DeviceToCheckpointDevice sizeof_CheckpointDevice (blks (dev fs)) (obs fs) = yaffs_DeviceToCheckpointDevice 40 b0 (obs fs)).
  { by rewrite (ts_books _ _ _ _ (written_tables b0 _ _ _ _ Hw)). }
  rewrite Hcp. set (cp := yaffs_DeviceToCheckpointDevice 40 b0 (obs fs)). unfold device_size in *.
  pose proof (device_bytes_length cp) as Hcl.
  apply wp_bind. eapply wp_dev; [apply (CheckpointWrite_spec cfg Hcfg wr Hwr b0 (dev fs) bl L all (device_bytes cp) Hw); fold n B; lia|].
  intros k fs1 Ho1 (-> & (bl1 & Hsub1 & Hw1) & _). rewrite Hcl. change (flag (Z.of_nat 40 =? sizeof_CheckpointDevice)) with 1.
  cbv zeta. unfold and_then at 1. change (ztrue 1) with true. cbv iota. apply wp_bind. unfold dump_blockInfo.
  change sizeof_BlockInfo with 8. cbv zeta.
  eapply wp_dev; [eapply wp_seq; [apply (dump_spec b0 (fun b => infos_bytes (blockInfo b)) (dev fs1) bl1 L _ (Z.to_nat (nBlocks cfg * 8)) Hw1)|]|].
  { rewrite length_app, Hcl. fold n B. lia. }
  { intros b bl' Hb. rewrite infos_bytes_length, (ts_len _ _ _ _ Hb). lia. }
  { intros k s2 (-> & D & bl2 & HD & Hsub2 & Hw2 & _ & Hseen). apply wp_ret.
    instantiate (1 := fun r s2 => r = 1 /\ exists D bl2, length D = Z.to_nat (nBlocks cfg * 8) /\ bl1 ⊆ bl2 /\
      written cfg b0 s2 bl2 L ((all ++ device_bytes cp) ++ D) /\
      forall j x, D !! j = Some x -> seen b0 (fun b => infos_bytes (blockInfo b)) bl2 j x).
    rewrite (proj2 (Z.eqb_eq _ _)) by lia. split; [done|]. by exists D, bl2. }
  intros k fs2 Ho2 (-> & D & bl2 & HD & Hsub2 & Hw2 & Hseen). unfold and_then. change (ztrue 1) with true. cbv iota.
  unfold dump_chunkBits. cbv zeta.
  eapply wp_dev; [eapply wp_seq; [apply (dump_spec b0 (fun b => chunkBits b) (dev fs2) bl2 L _ (Z.to_nat (nBlocks cfg * chunkBitmapStride cfg)) Hw2)|]|].
  { rewrite !length_app, Hcl, HD. fold n B. lia. }
  { intros b bl' Hb. rewrite (ts_books _ _ _ _ Hb). simp_fields. lia. }
  { intros k s3 (-> & D2 & bl3 & HD2 & Hsub3 & Hw3 & _ & Hseen2). apply wp_ret.
    instantiate (1 := fun r s3 => r = 1 /\ exists bl3, bl2 ⊆ bl3 /\ written cfg b0 s3 bl3 L (((all ++ device_bytes cp) ++ D) ++ chunkBits b0)).
    rewrite (proj2 (Z.eqb_eq _ _)) by lia. split; [done|]. exists bl3. split; [done|].
    assert (D2 = chunkBits b0) as <-; [|done]. apply list_eq. intros j. destruct (D2 !! j) as [x|] eqn:Ex.
    - destruct (Hseen2 j x Ex) as (b & bl' & _ & Hb & Hx). rewrite (ts_books _ _ _ _ Hb) in Hx. done.
    - symmetry. apply lookup_ge_None. apply lookup_ge_None in Ex. lia. }
  intros k fs3 Ho3 (-> & bl3 & Hsub3 & Hw3). split; [done|]. split; [exact (only_dev_trans _ _ _ Ho1 (only_dev_trans _ _ _ Ho2 Ho3))|].
  destruct (dumped_entries b0 bl3 D) as (infos & Hil & Hof & Hinfos); [done|done|lia| |].
  { intros j x Hx. by apply (seen_sub b0 _ bl2), Hseen. }
  exists (device_bytes cp ++ D ++ chunkBits b0), bl3, infos.
  split; [rewrite !length_app, Hcl, HD; lia|]. split; [etransitivity; [exact Hsub1|]; by etransitivity|].
  rewrite !app_assoc. split; [done|]. split; [|done|done]. exists D. rewrite <- Hl1. by rewrite app_assoc.
Qed.

Lemma to_read_frame s s' bl ds rest : to_read cfg s bl ds rest -> nand s' = nand s -> ckpt s' = ckpt s -> to_read cfg s' bl ds rest.
Proof.
  intros (k & off & b & Hr & Hb & Hrest) E1 E2. exists k, off, b. rewrite E2. split; [|done].
  destruct Hr as [A1 A2 A3 A4 A5 A6 A7 A8 A9 A10]. split; rewrite ?E1, ?E2; try done. unfold listed. by rewrite E2.
Qed.

(** Reading as many bytes as [bytes] has. *)
Lemma read_bytes_spec s bl ds bytes rest : to_read cfg s bl ds (bytes ++ rest) ->
  wp (yaffs_CheckpointRead cfg (length bytes)) (fun r s' => r = (Z.of_nat (length bytes), bytes) /\ to_read cfg s' bl ds rest /\
    blks s' = blks s) s.
Proof.
  intros Hr. eapply wp_mono; [apply wp_pc; [apply (CheckpointRead_spec cfg Hcfg rd Hrd s bl ds _ (length bytes) Hr)|apply CheckpointRead_blks]|].
  - rewrite length_app. lia.
  - intros r s' [(-> & Hr' & _) Hb]. rewrite take_app_length. rewrite drop_app_length in Hr'. done.
Qed.

(** The device has what [cp], the table [infos] and the bits [bits] say. *)
Record restored fs (cp : CheckpointDevice) (infos : list BlockInfo) (bits : list Z) : Prop := {
  re_infos : blockInfo (blks (dev fs)) = infos;
  re_bits : chunkBits (blks (dev fs)) = bits;
  re_erased : nErasedBlocks (blks (dev fs)) = cd_nErasedBlocks cp;
  re_ablock : allocationBlock (blks (dev fs)) = cd_allocationBlock cp;
  re_apage : allocationPage (blks (dev fs)) = cd_allocationPage cp;
  re_free : nFreeChunks (blks (dev fs)) = cd_nFreeChunks cp;
  re_seq : dev_sequenceNumber (blks (dev fs)) = cd_sequenceNumber cp;
  re_oldest : oldestDirtySequence (blks (dev fs)) = cd_oldestDirtySequence cp;
  re_deleted : nDeletedFiles (obs fs) = cd_nDeletedFiles cp;
  re_unlinked : nUnlinkedFiles (obs fs) = cd_nUnlinkedFiles cp;
  re_background : nBackgroundDeletions (obs fs) = cd_nBackgroundDeletions cp
}.

Lemma ReadCheckpointDevice_spec fs bl ds b0 bytes rest cp infos : to_read cfg (dev fs) bl ds (bytes ++ rest) ->
  dumped b0 bl bytes cp infos -> device_fits cp -> cd_structType cp = 40 -> tables_ok cfg b0 ->
  length (chunkBits (blks (dev fs))) = length (chunkBits b0) ->
  wp (yaffs_ReadCheckpointDevice cfg) (fun r fs' => r = 1 /\ to_read cfg (dev fs') bl ds rest /\
    restored fs' cp infos (chunkBits b0)) fs.
Proof.
  intros Hr [(D & -> & HD & Hof) _ _] Hfits Htype Ht Hbits. destruct (tables_lengths b0 Ht) as (Hl1 & Hl2 & Hnb & Hst).
  pose proof (device_bytes_length cp) as Hcl. rewrite <- !app_assoc in Hr. unfold yaffs_ReadCheckpointDevice.
  change (Z.to_nat sizeof_CheckpointDevice) with 40%nat. rewrite <- Hcl at 1.
  apply wp_bind. eapply wp_dev; [by apply read_bytes_spec|]. intros a fs1 Ho1 (-> & Hr1 & Hb1). cbn [fst snd].
  rewrite Hcl. change (Z.of_nat 40 =? sizeof_CheckpointDevice) with true. cbn [negb]. cbv iota.
  rewrite (device_of_bytes cp Hfits), Htype. cbv zeta. change (40 =? sizeof_CheckpointDevice) with true. cbn [negb]. cbv iota.
  unfold yaffs_CheckpointDeviceToDevice, modO, modB. wp_step. wp_step. apply wp_on_dev, wp_modify. wp_step.
  match goal with |- wp _ _ ?x => set (fs2 := x) end.
  assert (Hr2 : to_read cfg (dev fs2) bl ds (D ++ chunkBits b0 ++ rest)) by (by apply (to_read_frame (dev fs1))).
  assert (E : blks (dev fs2) = (blks (dev fs1)) <| nErasedBlocks := cd_nErasedBlocks cp |>
      <| allocationBlock := cd_allocationBlock cp |> <| allocationPage := cd_allocationPage cp |>
      <| nFreeChunks := cd_nFreeChunks cp |> <| dev_sequenceNumber := cd_sequenceNumber cp |>
      <| oldestDirtySequence := cd_oldestDirtySequence cp |>) by done.
  assert (F : nDeletedFiles (obs fs2) = cd_nDeletedFiles cp /\ nUnlinkedFiles (obs fs2) = cd_nUnlinkedFiles cp /\
    nBackgroundDeletions (obs fs2) = cd_nBackgroundDeletions cp) by done.
  clearbody fs2. apply wp_bind. unfold load_blockInfo, getB, modB. change sizeof_BlockInfo with 8. cbv zeta.
  eapply wp_dev; [eapply wp_seq; [rewrite <- HD; by apply read_bytes_spec|]|].
  { intros a s3 (-> & Hr3 & Hb3). wp_step. wp_step. apply wp_bind, wp_of_option with infos; [apply Hof|]. wp_steps.
    rewrite (proj2 (Z.eqb_eq _ _)) by lia.
    instantiate (1 := fun r s3 => r = 1 /\ to_read cfg s3 bl ds (chunkBits b0 ++ rest) /\ blks s3 = (blks (dev fs2)) <| blockInfo := infos |>).
    split; [done|]. split; [by apply (to_read_frame s3)|]. simp_fields. by rewrite Hb3. }
  intros a fs3 Ho3 (-> & Hr3 & Hb3). change (ztrue 1) with true. cbn [negb]. cbv iota.
  unfold load_chunkBits, modB. cbv zeta.
  eapply wp_dev; [eapply wp_seq; [rewrite <- Hl2; by apply read_bytes_spec|]|].
  { intros a s4 (-> & Hr4 & Hb4). wp_steps. rewrite (proj2 (Z.eqb_eq _ _)) by lia.
    instantiate (1 := fun r s4 => r = 1 /\ to_read cfg s4 bl ds rest /\ blks s4 = (blks (dev fs3)) <| chunkBits := chunkBits b0 |>).
    split; [done|]. split; [by apply (to_read_frame s4)|]. simp_fields. rewrite Hb4.
    assert (Hlen : length (chunkBits (blks (dev fs3))) = length (chunkBits b0)) by (rewrite Hb3, E; simp_fields; by rewrite Hb1).
    transitivity ((blks (dev fs3)) <| chunkBits := chunkBits b0 ++ drop (length (chunkBits b0)) (chunkBits (blks (dev fs3))) |>); [done|].
    rewrite drop_ge by lia. by rewrite app_nil_r. }
  intros a fs4 Ho4 (-> & Hr4 & Hb4). split; [done|]. split; [done|].
  pose proof (only_dev_obs _ _ Ho3) as O3. pose proof (only_dev_obs _ _ Ho4) as O4.
  split; rewrite ?O4, ?O3; try apply F; rewrite Hb4, Hb3, E; done.
Qed.

(** Opening for reading leaves the tables alone. *)
Lemma Open_read_blks buf lst s : pc (yaffs_CheckpointOpen cfg false buf lst) (fun _ s' => blks s' = blks s) s.
Proof.
  unfold yaffs_CheckpointOpen. destruct drv_writeChunkWithTags, drv_readChunkWithTags, drv_markBlockBad; try by pc_step.
  unfold yaffs_CheckpointSpaceOk, getB, getC, modC. pc_step. pc_steps. cbn [andb]. do 4 pc_step.
  destruct (checkpointBuffer (ckpt s)), buf; pc_steps; try done; apply pc_of_option; intros ? _; by pc_steps.
Qed.

(** All was read when less than a page is left. *)
Lemma all_read s bl ds rest : to_read cfg s bl ds rest -> Z.of_nat (length rest) < n -> exists off, reading cfg s bl ds (length ds) off.
Proof.
  intros (k & off & b & Hr & Hb & ->) Hlt. exists off. pose proof (rg_pages _ _ _ _ _ _ Hr) as Hk.
  destruct (decide (k < length ds)%nat) as [Hk2|Hk2]; [exfalso|by replace (length ds) with k by lia].
  destruct (lookup_lt_is_Some_2 ds k Hk2) as [d Hd]. rewrite (drop_S ds d k Hd) in Hlt. cbn [concat] in Hlt.
  pose proof (proj1 (Forall_lookup _ _) (sr_size _ _ _ _ (rg_stored _ _ _ _ _ _ Hr)) k d Hd) as Hlen. cbv beta in Hlen.
  rewrite !length_app in Hlt. unfold n in Hlt. lia.
Qed.

(** Opening for writing keeps the books. *)
Lemma Open_books pe pf buf s : is_Some drv_markBlockBad -> blocks_ok cfg pe pf (blks s) ->
  pc (yaffs_CheckpointOpen cfg true (Some buf) None) (fun _ s' => blocks_ok cfg pe pf (blks s')) s.
Proof.
  intros Hm Hok. unfold yaffs_CheckpointOpen. rewrite Hwr, Hrd. pose proof Hm as [mark ->].
  unfold yaffs_CheckpointSpaceOk, getB, getC, modC. pc_step. pc_steps. apply pc_if. destruct (true && _); [by pc_step|]. do 4 pc_step.
  destruct (checkpointBuffer (ckpt s)); do 4 pc_step; (eapply pc_mono; [apply pc_wp, (CheckpointErase_spec cfg Hm pe pf); done|]);
    by intros r s' (_ & ? & _).
Qed.

Lemma sumZ_bounds {A} (g : A -> Z) l hi : (forall x, x ∈ l -> 0 <= g x <= hi) -> 0 <= sumZ g l <= hi * Z.of_nat (length l).
Proof.
  induction l as [|x l IH]; intros H; [cbn; lia|]. rewrite sumZ_cons. cbn [length].
  pose proof (H x ltac:(by left)). pose proof (IH ltac:(intros y Hy; apply H; by right)). nia.
Qed.

(** With right books the counts of blocks and chunks fit their types. *)
Lemma counts_fit b : blocks_ok cfg 0 0 b -> is_i32 (nErasedBlocks b) /\ is_i32 (nFreeChunks b) /\ is_i32 (allocationBlock b).
Proof.
  intros [Ht Hb Ha He Hf]. destruct (tables_lengths b Ht) as (Hl & _ & Hnb & _).
  pose proof (c_chunks cfg Hcfg) as Hmax. pose proof (c_npb cfg Hcfg) as Hnpb. pose proof (c_start cfg Hcfg) as Hstart.
  assert (Hn : nBlocks cfg * nChunksPerBlock cfg < 2 ^ 31) by (unfold nBlocks in *; nia).
  assert (H1 : 0 <= sumZ empty_ind (blockInfo b) <= 1 * Z.of_nat (length (blockInfo b))).
  { apply sumZ_bounds. intros x _. apply ind_range. }
  assert (H2 : 0 <= sumZ (free_of cfg) (blockInfo b) <= nChunksPerBlock cfg * Z.of_nat (length (blockInfo b))).
  { apply sumZ_bounds. intros x Hx. apply list_elem_of_lookup in Hx as [i Hi].
    destruct (lookup_index cfg b i x Ht Hi) as [Hv Hidx]. rewrite <- Hidx in Hi. destruct (Hb _ _ Hv Hi) as [Hp Hs _ _].
    unfold free_of. destruct (counted_state _); [|lia]. pose proof (used_range cfg Hcfg (chunkBits b) (knum cfg (internalStartBlock cfg + Z.of_nat i))). lia. }
  unfold is_i32. rewrite He, Hf. split; [unfold nBlocks in *; nia|]. split; [unfold nBlocks in *; nia|].
  destruct (al_block _ _ Ha) as [->|[Hv1 Hv2]]; [lia|]. unfold nBlocks in *. nia.
Qed.
End restore.

Section sessions.
Context {N K : Type} {nd : NandDriver N} `{!Kmalloc K} `{!Clock K} (cfg : Config).

(** Other parts of the checkpoint are before and after the device's. *)
Definition save_device (buf : option (list Z)) (before after : list Z) : M (FS N K) (Z * Z * Z * Z * Z) :=
  ok ← on_dev (yaffs_CheckpointOpen cfg true buf None);
  n ← on_dev (yaffs_CheckpointWrite cfg before);
  device ← yaffs_WriteCheckpointDevice cfg;
  k ← on_dev (yaffs_CheckpointWrite cfg after);
  closed ← on_dev (yaffs_CheckpointClose cfg);
  mret (ok, n, device, k, closed).

Definition restore_device (buf lst : option (list Z)) (before after : nat) : M (FS N K) (Z * (Z * list Z) * Z * (Z * list Z) * Z) :=
  ok ← on_dev (yaffs_CheckpointOpen cfg false buf lst);
  n ← on_dev (yaffs_CheckpointRead cfg before);
  device ← yaffs_ReadCheckpointDevice cfg;
  k ← on_dev (yaffs_CheckpointRead cfg after);
  closed ← on_dev (yaffs_CheckpointClose cfg);
  mret (ok, n, device, k, closed).
End sessions.

(** What is dumped fits the fields it is dumped in. *)
Record dumpable {N K} (fs : FS N K) : Prop := {
  dm_infos : Forall info_fits (blockInfo (blks (dev fs)));
  dm_page : is_u32 (allocationPage (blks (dev fs)));
  dm_seq : is_u32 (dev_sequenceNumber (blks (dev fs)));
  dm_oldest : is_u32 (oldestDirtySequence (blks (dev fs)));
  dm_deleted : is_i32 (nDeletedFiles (obs fs));
  dm_unlinked : is_i32 (nUnlinkedFiles (obs fs));
  dm_background : is_i32 (nBackgroundDeletions (obs fs))
}.

(** The block tables and the counters that a checkpoint has are the same. *)
Record same_device {N K} (fs fs' : FS N K) : Prop := {
  sd_infos : blockInfo (blks (dev fs')) = blockInfo (blks (dev fs));
  sd_bits : chunkBits (blks (dev fs')) = chunkBits (blks (dev fs));
  sd_erased : nErasedBlocks (blks (dev fs')) = nErasedBlocks (blks (dev fs));
  sd_ablock : allocationBlock (blks (dev fs')) = allocationBlock (blks (dev fs));
  sd_apage : allocationPage (blks (dev fs')) = allocationPage (blks (dev fs));
  sd_free : nFreeChunks (blks (dev fs')) = nFreeChunks (blks (dev fs));
  sd_seq : dev_sequenceNumber (blks (dev fs')) = dev_sequenceNumber (blks (dev fs));
  sd_oldest : oldestDirtySequence (blks (dev fs')) = oldestDirtySequence (blks (dev fs));
  sd_deleted : nDeletedFiles (obs fs') = nDeletedFiles (obs fs);
  sd_unlinked : nUnlinkedFiles (obs fs') = nUnlinkedFiles (obs fs);
  sd_background : nBackgroundDeletions (obs fs') = nBackgroundDeletions (obs fs)
}.

Section roundtrip.
Context {N K : Type} {nd : NandDriver N} `{!Kmalloc K} `{!Clock K} (cfg : Config) (Hcfg : cfg_ok cfg).
Context {ps : PageStore nd cfg}.

Lemma opened_fits b b' : opened cfg b b' -> tables_ok cfg b -> tables_ok cfg b' -> Forall info_fits (blockInfo b) ->
  Forall info_fits (blockInfo b').
Proof.
  intros [_ Hi] Ht Ht' Hf. apply Forall_lookup. intros i bi' Hb'. destruct (lookup_index cfg b' i bi' Ht' Hb') as [Hv Hidx].
  destruct (block_info_lookup cfg b _ Ht Hv) as [bi Hbi]. pose proof (proj1 (Forall_lookup _ _) Hf _ _ Hbi) as Hfi.
  rewrite <- Hidx in Hb'. destruct (Hi _ _ Hv Hbi) as [E|E]; rewrite E in Hb'; injection Hb' as <-; [done|by destruct Hfi].
Qed.

(** The blocks of the checkpoint that were dumped as empty become blocks of the checkpoint again. *)
Lemma infos_match b0 bl bytes cp infos b b2 b3 : tables_ok cfg b0 -> tables_since cfg b0 b bl -> dumped cfg b0 bl bytes cp infos ->
  marked_in cfg bl b2 b3 -> blockInfo b2 = infos -> blockInfo b3 = blockInfo b.
Proof.
  intros Ht [_ Hlen Hb He] [_ Hd Hl] [_ Hlen3 H3] H2. apply list_eq. intros i. destruct (decide (i < length (blockInfo b0))%nat) as [Hi|Hi].
  - destruct (lookup_lt_is_Some_2 _ i Hi) as [bi Hbi]. destruct (lookup_index cfg b0 i bi Ht Hbi) as [Hv Hidx].
    set (blk := internalStartBlock cfg + Z.of_nat i) in *. rewrite <- Hidx in Hbi |- *. rewrite (Hb blk bi Hv Hbi).
    destruct (Hd blk bi Hv Hbi) as [Hx|(Hin & Hemp & Hx)]; rewrite <- H2 in Hx; rewrite (H3 blk _ Hv Hx); f_equal.
    + destruct (decide (blk ∈ bl)) as [Hin|Hin]; [|by rewrite decide_False by tauto].
      rewrite decide_True; [done|]. split; [done|by apply (He blk bi)].
    + rewrite (decide_True (P := blk ∈ bl)) by done. rewrite decide_False; [done|]. intros [_ Hc]. done.
  - rewrite !(proj2 (lookup_ge_None _ _)); [done|lia|rewrite Hlen3, H2; lia].
Qed.

(** All but the states of the blocks is the same. *)
Record same_counts (b b' : Blocks) : Prop := {
  sc_bits : chunkBits b = chunkBits b';
  sc_erased : nErasedBlocks b = nErasedBlocks b';
  sc_ablock : allocationBlock b = allocationBlock b';
  sc_apage : allocationPage b = allocationPage b';
  sc_free : nFreeChunks b = nFreeChunks b';
  sc_seq : dev_sequenceNumber b = dev_sequenceNumber b';
  sc_oldest : oldestDirtySequence b = oldestDirtySequence b'
}.

(** What a session that saves leaves: a checkpoint with the device between [before] and [after]. *)
Record saved (fs fs' : FS N K) (before after : list Z) (b0 b : Blocks) (bl : list Z) (ds : list (list Z)) (bytes pad : list Z)
    (infos : list BlockInfo) : Prop := {
  sv_stored : stored cfg (nand (dev fs')) bl ds;
  sv_bytes : concat ds = before ++ bytes ++ after ++ pad;
  sv_size : length bytes = device_size cfg;
  sv_pages : (length ds * Z.to_nat (nDataBytesPerChunk cfg) <
    length before + length bytes + length after + Z.to_nat (nDataBytesPerChunk cfg))%nat;
  sv_tables : tables_ok cfg b0;
  sv_since : tables_since cfg b0 b bl;
  sv_blks : blks (dev fs') = counted_out cfg (Z.of_nat (length bl)) b;
  sv_obs : obs fs' = obs fs;
  sv_bits : length (chunkBits b0) = length (chunkBits (blks (dev fs)));
  sv_fits : device_fits (yaffs_DeviceToCheckpointDevice 40 b0 (obs fs));
  sv_dumped : dumped cfg b0 bl bytes (yaffs_DeviceToCheckpointDevice 40 b0 (obs fs)) infos
}.

Lemma device_fits_opened (fs : FS N K) b0 : opened cfg (blks (dev fs)) b0 -> dumpable fs -> blocks_ok cfg 0 0 b0 ->
  device_fits (yaffs_DeviceToCheckpointDevice 40 b0 (obs fs)).
Proof.
  intros [Hr _] [] Hok. destruct (counts_fit cfg Hcfg b0 Hok) as (H1 & H2 & H3). split; cbn; try done.
  - rewrite Hr. done.
  - rewrite Hr. done.
  - rewrite Hr. done.
Qed.

Lemma save_device_spec (fs : FS N K) before after buf wr rd :
  drv_writeChunkWithTags = Some wr -> drv_readChunkWithTags = Some rd -> is_Some drv_markBlockBad ->
  blocks_ok cfg 0 0 (blks (dev fs)) -> dumpable fs -> checkpoint_known cfg (dev fs) ->
  0 < nErasedBlocks (blks (dev fs)) - nReservedBlocks cfg ->
  Z.of_nat (length before + device_size cfg + length after) <= capacity cfg (Z.of_nat (length (room cfg (dev fs)))) ->
  wp (save_device cfg (Some buf) before after) (fun r fs' =>
    r = (1, Z.of_nat (length before), 1, Z.of_nat (length after), 1) /\
    exists b0 b bl ds bytes pad infos, saved fs fs' before after b0 b bl ds bytes pad infos) fs.
Proof.
  intros Hwr Hrd Hmark Hok Hdump Hknown Hspare Hfit. pose proof (c_data cfg Hcfg) as Hn. pose proof (c_npb cfg Hcfg) as HB.
  pose proof Hok as [Ht _ _ _ _]. unfold capacity in *. unfold save_device. apply wp_bind.
  eapply wp_dev; [apply wp_pc; [apply (Open_to_write cfg Hcfg wr Hwr rd Hrd (dev fs) buf); [apply Ht|done|done|done]|
    by apply (Open_books cfg wr Hwr rd Hrd 0 0 buf)]|].
  intros ok fs1 Ho1 [(-> & Hw1 & Hop & _) Hok1]. set (b0 := blks (dev fs1)) in *. pose proof Hok1 as [Ht1 _ _ _ _].
  pose proof (opened_fits _ _ Hop Ht Ht1 (dm_infos _ Hdump)) as Hinfos. pose proof (device_fits_opened fs b0 Hop Hdump Hok1) as Hdf.
  apply wp_bind. eapply wp_dev; [apply (CheckpointWrite_spec cfg Hcfg wr Hwr b0 _ _ _ _ before Hw1); cbn [length]; nia|].
  intros k fs2 Ho2 (-> & (bl2 & _ & Hw2) & _). cbn [app] in Hw2.
  eapply wp_seq; [apply (WriteCheckpointDevice_spec cfg Hcfg wr Hwr fs2 b0 bl2 _ before Hw2 Ht1 Hinfos); nia|].
  intros r fs3 (-> & Ho3 & bytes & bl3 & infos & Hsize & _ & Hw3 & Hd).
  apply wp_bind. eapply wp_dev; [apply (CheckpointWrite_spec cfg Hcfg wr Hwr b0 _ _ _ _ after Hw3); rewrite length_app; nia|].
  intros k fs4 Ho4 (-> & (bl4 & Hsub4 & Hw4) & _).
  apply wp_bind. eapply wp_dev; [apply (CheckpointClose_written cfg Hcfg wr Hwr b0 _ _ _ _ Hw4); rewrite !length_app; nia|].
  intros r fs5 Ho5 (-> & _ & bl & ds & pad & b & Hsub & Hst & Hcat & Hpages & Hts & Hblks). apply wp_ret. split; [done|].
  assert (Hobs : obs fs2 = obs fs) by (by rewrite (only_dev_obs _ _ Ho2), (only_dev_obs _ _ Ho1)). rewrite Hobs in Hd.
  exists b0, b, bl, ds, bytes, pad, infos. split; try done.
  - by rewrite Hcat, <- !app_assoc.
  - rewrite !length_app in Hpages. lia.
  - by rewrite (only_dev_obs _ _ Ho5), (only_dev_obs _ _ Ho4), (only_dev_obs _ _ Ho3).
  - rewrite (op_rest _ _ _ Hop). done.
  - destruct Hd as [D1 D2 D3]. split; [done| |done]. intros blk bi Hv Hbi.
    destruct (D2 blk bi Hv Hbi) as [?|(Hin & Hx)]; [by left|right]. split; [by apply Hsub, Hsub4|done].
Qed.

Lemma restore_device_spec (fs fs' fs2 : FS N K) before after b0 b bl ds bytes pad infos b1 l1 wr rd :
  drv_writeChunkWithTags = Some wr -> drv_readChunkWithTags = Some rd -> is_Some drv_markBlockBad ->
  saved fs fs' before after b0 b bl ds bytes pad infos ->
  nand (dev fs2) = nand (dev fs') -> checkpointBuffer (ckpt (dev fs2)) = None -> Z.of_nat (length b1) = nDataBytesPerChunk cfg ->
  length (chunkBits (blks (dev fs2))) = length (chunkBits b0) ->
  Z.of_nat (length before + device_size cfg + length after) <=
    capacity cfg (Z.quot (internalEndBlock cfg - internalStartBlock cfg) 16 + 2) ->
  wp (restore_device cfg (Some b1) (Some l1) (length before) (length after)) (fun r2 fs3 =>
    r2 = (1, (Z.of_nat (length before), before), 1, (Z.of_nat (length after), after), 1) /\ same_device fs' fs3) fs2.
Proof.
  intros Hwr Hrd Hmark [Hst Hcat Hsize Hpages Ht Hsince Hblks Hobs _ Hfits Hd] Hnand Hnone Hb1 Hbits Hmax.
  pose proof (c_data cfg Hcfg) as Hn. pose proof (c_npb cfg Hcfg) as HB. unfold capacity in *. rewrite <- Hnand in Hst. rewrite <- Hsize in Hmax.
  unfold restore_device. apply wp_bind.
  eapply wp_dev; [apply wp_pc; [apply (Open_to_read cfg Hcfg wr Hwr rd Hrd (dev fs2) bl ds b1 l1 Hst Hnone Hb1); [|done]|]|].
  { rewrite (sr_blocks _ _ _ _ Hst). by apply (blocks_fit cfg Hcfg _ (length before + length bytes + length after)). }
  { apply (Open_read_blks cfg wr Hwr rd Hrd). }
  intros ok fs3 Ho3 [(-> & Hr3 & _) Hb3]. rewrite Hcat in Hr3.
  apply wp_bind. eapply wp_dev; [by apply (read_bytes_spec cfg Hcfg rd Hrd)|]. intros k fs4 Ho4 (-> & Hr4 & Hb4).
  eapply wp_seq; [apply (ReadCheckpointDevice_spec cfg Hcfg rd Hrd fs4 bl ds b0 bytes _ _ infos Hr4 Hd Hfits); [done|done|by rewrite Hb4, Hb3]|].
  intros r fs5 (-> & Hr5 & Hre).
  apply wp_bind. eapply wp_dev; [by apply (read_bytes_spec cfg Hcfg rd Hrd)|]. intros k fs6 Ho6 (-> & Hr6 & Hb6).
  assert (Hpad : Z.of_nat (length pad) < nDataBytesPerChunk cfg).
  { pose proof (f_equal length Hcat) as Hlen. rewrite (pages_length cfg) in Hlen by apply Hst. rewrite !length_app in Hlen. lia. }
  destruct (all_read cfg _ _ _ _ Hr6 Hpad) as [off Hrd6].
  apply wp_bind. eapply wp_dev; [apply (CheckpointClose_read cfg Hcfg _ _ _ _ Hrd6)|].
  { rewrite Hb6, (re_infos _ _ _ _ Hre), (du_len _ _ _ _ _ _ Hd). apply Ht. }
  intros r fs7 Ho7 (-> & b3 & Hm & Hb7). apply wp_ret. split; [done|]. rewrite Hb6 in Hm.
  pose proof (infos_match _ _ _ _ _ _ _ _ Ht Hsince Hd Hm (re_infos _ _ _ _ Hre)) as Hinf.
  pose proof (only_dev_obs _ _ Ho7) as O7. pose proof (only_dev_obs _ _ Ho6) as O6. rewrite O6 in O7.
  assert (same_counts b3 (blks (dev fs5))) as [M1 M2 M3 M4 M5 M6 M7] by (rewrite (mi_rest _ _ _ _ Hm); by split).
  assert (same_counts b b0) as [S1 S2 S3 S4 S5 S6 S7] by (rewrite (ts_books _ _ _ _ Hsince); by split).
  destruct Hre as [_ R1 R2 R3 R4 R5 R6 R7 R8 R9 R10]. cbn in R2, R3, R4, R5, R6, R7, R8, R9, R10.
  split; rewrite ?O7, ?Hobs, ?Hb7, ?Hblks; unfold counted_out; simp_fields; congruence.
Qed.

(** C8. The block tables and the counters of the device survive a checkpoint: what
    [yaffs_WriteCheckpointDevice] writes between other parts, [yaffs_ReadCheckpointDevice]
    restores at the next mount, so that after [yaffs_CheckpointClose] all of them are what they
    were after the close of the writer.  This is so although the blocks that the checkpoint
    itself takes change their state while the table is dumped byte by byte: the table may have
    such a block as empty or as a block of the checkpoint, and the counters are without them. *)
Theorem checkpoint_device_roundtrip (fs : FS N K) before after buf :
  is_Some drv_writeChunkWithTags -> is_Some drv_readChunkWithTags -> is_Some drv_markBlockBad ->
  blocks_ok cfg 0 0 (blks (dev fs)) -> dumpable fs -> checkpoint_known cfg (dev fs) ->
  0 < nErasedBlocks (blks (dev fs)) - nReservedBlocks cfg ->
  Z.of_nat (length before + device_size cfg + length after) <= capacity cfg (Z.of_nat (length (room cfg (dev fs)))) ->
  wp (save_device cfg (Some buf) before after) (fun r fs' =>
    r = (1, Z.of_nat (length before), 1, Z.of_nat (length after), 1) /\
    forall (fs2 : FS N K) b1 l1, nand (dev fs2) = nand (dev fs') -> checkpointBuffer (ckpt (dev fs2)) = None ->
      Z.of_nat (length b1) = nDataBytesPerChunk cfg ->
      length (chunkBits (blks (dev fs2))) = length (chunkBits (blks (dev fs))) ->
      Z.of_nat (length before + device_size cfg + length after) <=
        capacity cfg (Z.quot (internalEndBlock cfg - internalStartBlock cfg) 16 + 2) ->
      wp (restore_device cfg (Some b1) (Some l1) (length before) (length after)) (fun r2 fs3 =>
        r2 = (1, (Z.of_nat (length before), before), 1, (Z.of_nat (length after), after), 1) /\ same_device fs' fs3) fs2) fs.
Proof.
  intros [wr Hwr] [rd Hrd] Hmark Hok Hdump Hknown Hspare Hfit.
  eapply wp_mono; [by apply (save_device_spec fs before after buf wr rd)|].
  intros r fs' (-> & b0 & b & bl & ds & bytes & pad & infos & Hs). split; [done|]. intros fs2 b1 l1 Hnand Hnone Hb1 Hbits Hmax.
  apply (restore_device_spec fs fs' fs2 before after b0 b bl ds bytes pad infos b1 l1 wr rd); try done.
  by rewrite (sv_bits _ _ _ _ _ _ _ _ _ _ _ Hs).
Qed.
End roundtrip.

(** ** An example *)

Definition dumped_fs : FS Flash Z :=
  MkFS used_state empty_tnodes (MkObjects ∅ [] [] 0 0 [] 0 0 0 0 2 1 0 0) (MkCaches [] 0 0).

Lemma dumped_fs_dumpable : dumpable dumped_fs.
Proof.
  split; try (vm_compute; intuition discriminate).
  assert (H : forallb (fun bi => (-512 <=? softDeletions bi) && (softDeletions bi <? 512) && (-512 <=? pagesInUse bi) &&
    (pagesInUse bi <? 512) && (0 <=? chunkErrorStrikes bi) && (chunkErrorStrikes bi <? 8) &&
    (0 <=? bi_sequenceNumber bi) && (bi_sequenceNumber bi <? 2 ^ 32)) (blockInfo (blks (dev dumped_fs))) = true) by (by vm_compute).
  apply Forall_forall. intros bi Hin. apply list_elem_of_In in Hin. pose proof (proj1 (List.forallb_forall _ _) H bi Hin) as Hb.
  cbv beta in Hb. rewrite !andb_true_iff, !Z.leb_le, !Z.ltb_lt in Hb. split; unfold is_u32; lia.
Qed.

Lemma sample_known (s : State Flash) :
  (forall x, In x [1; 2; 3; 4] -> (fun p => sequenceNumber (snd p)) <$> sim_page (nand s) (page_at sample_cfg x 0) <>
    Some YAFFS_SEQUENCE_CHECKPOINT_DATA) -> checkpoint_known sample_cfg s.
Proof.
  intros Hseq b bi [Hv1 Hv2] (d & t & Hp & Ht) _. exfalso. change (internalStartBlock sample_cfg) with 1 in Hv1. change (internalEndBlock sample_cfg) with 4 in Hv2.
  apply (Hseq b); [cbn; lia|]. change (sim_page (nand s) (page_at sample_cfg b 0) = Some (d, t)) in Hp. rewrite Hp. cbn. by rewrite Ht.
Qed.

Lemma dumped_fs_known : checkpoint_known sample_cfg (dev dumped_fs).
Proof. apply sample_known. intros x [<-|[<-|[<-|[<-|[]]]]]; vm_compute; discriminate. Qed.

(** The pages end in the middle of an entry of the table. *)
Lemma checkpoint_device_roundtrip_witness :
  let before := replicate 460 5 in let after := [1; 2; 3] in
  wp (save_device sample_cfg (Some []) before after) (fun r fs' =>
    r = (1, 460, 1, 3, 1) /\
    forall (fs2 : FS Flash Z) b1 l1, nand (dev fs2) = nand (dev fs') -> checkpointBuffer (ckpt (dev fs2)) = None ->
      Z.of_nat (length b1) = 512 -> length (chunkBits (blks (dev fs2))) = 4%nat ->
      Z.of_nat (length before + device_size sample_cfg + length after) <= capacity sample_cfg (Z.quot (4 - 1) 16 + 2) ->
      wp (restore_device sample_cfg (Some b1) (Some l1) (length before) (length after)) (fun r2 fs3 =>
        r2 = (1, (460, before), 1, (3, after), 1) /\ same_device fs' fs3) fs2) dumped_fs.
Proof.
  intros before after. apply (checkpoint_device_roundtrip sample_cfg sample_cfg_ok (ps := sim_store) dumped_fs before after []).
  - by eexists.
  - by eexists.
  - by eexists.
  - exact used_state_ok.
  - exact dumped_fs_dumpable.
  - exact dumped_fs_known.
  - vm_compute. reflexivity.
  - vm_compute. discriminate.
Defined.
